(* ===== verification/_CoqProject ===== *)
-Q . S2P
Prelude.v
DoubleArith.v
JumpHash.v
Types.v
XXHash.v
Stores.v
Wire.v
Server.v
Handlers.v
HandlerSpec.v
Split.v
SplitFacts.v
Sample.v
Typing.v
ServerTheorems.v
RegionTheorems.v
SplitTheorems.v
LruCache.v
DentryCache.v
OpenFileMap.v
Sync.v
RpcClient.v
MetaClient.v
Hooks.v
ClientSpec.v
RpcSpec.v
PathSpec.v
Deliver.v
TypedRuns.v
HookSpec.v
DentsSpec.v
ClientSample.v
ClientTheorems.v
RouteTheorems.v
Hazards.v
Json.v
JsonPrint.v
JsonSafe.v
JsonNum.v
JsonText.v
JsonPrintSpec.v
JsonHooks.v
JsonItem.v
JsonCompare.v
Config.v
ConfigTheorems.v
JsonHeap.v
JsonHeapSpec.v
JsonTree.v
JsonBuild.v
JsonCopy.v
JsonMinify.v
Sessions.v
Startup.v
Process.v
Deploy.v
Interleave.v
ErpcMsg.v
ErpcSlot.v
ErpcChunk.v
ErpcInv.v
ErpcClient.v
ErpcReply.v
ErpcQueues.v
ErpcServer.v
ErpcFrame.v
ErpcSession.v
ErpcLive.v
ErpcSm.v
ErpcSmInv.v
ErpcSmStep.v
ErpcSmNet.v
ErpcSmLive.v
ErpcSmTimely.v
Bitmap.v
