(* ===== verification/Prelude.v ===== *)
(** * RocksFS (MetaFS): a verification development

    MetaFS is a distributed file system for metadata.  A process whose system calls are
    intercepted is a client; servers keep directory entries and stat records in two databases per
    thread and divide the directories into regions, which they split when they grow.

    ** Parts of the program and where they are modelled

    Server (src/src/server, src/include/server).
    - [Types], [Wire]: the constants, records and messages of src/include/common and
      src/include/rpc/rpc_common.h, with the byte layouts of messages and log records.
    - [Stores]: the two databases as type classes, [MetaKV] and [RocksDB], with the laws that the
      handlers rely on, and an instance of each.
    - [Server]: the state of a server thread and its process ([world]) and the operations on regions
      of region_and_log.cc; [init_server_context] of metafs_server.cc.
    - [Handlers]: one definition per handler of server_handler.cc; [serve] is the dispatch that
      init_and_start_loop registers.
    - [Split]: the split thread, over the states of several processes ([cluster]), with the bytes of
      the one request buffer it writes its messages into.
    - [JumpHash] on [DoubleArith] (util/jump_hash.h, IEEE doubles) and [XXHash] (the path of XXH3
      for eight bytes): the placement of regions and directories.
    - [Startup]: the ids from memcached, init_server_config, the names derived from them.
    - [Process]: main of metafs_server.cc, the table of request handlers and the threads that it
      starts.  [Typing], [TypedRuns]: the C types of the fields of the state and of what the handlers
      send.  [Interleave]: the threads of a process in any order.

    Client (src/src/client, src/src/rpc, src/include/client).
    - [Hooks]: one definition per hook_* function of hooks.cc and the dispatch of system calls.
    - [MetaClient] (metaclient.cc), [RpcClient] (rpc_client.cc): path resolution, operations, and
      the requests, written into one message buffer that is never cleared.
    - [LruCache], [DentryCache], [OpenFileMap]: the two caches and the table of descriptors; list
      iterators and shared pointers are identities into a store.
    - [Startup]: preload.cc and init_client_ctx.  [Deploy]: a client that starts against running
      servers and makes its first system calls.

    Both sides.
    - [Sessions]: the sessions that the client and the split thread open, over the class [Erpc].
    - [ErpcMsg], [ErpcSlot]: the packets, the message buffers and the data path of eRPC, the library
      both sides communicate with (src/thirdparty/eRPC/src): the slots of the two ends of a session,
      one definition per function of rpc_req.cc, rpc_resp.cc, rpc_cr.cc, rpc_rfr.cc, rpc_kick.cc,
      rpc_queues.cc, rpc_pkt_loss.cc and rpc_rx.cc.
    - [ErpcSm]: the session management of eRPC: create_session_st of rpc_sm_api.cc, the handlers of
      rpc_connect_handlers.cc and rpc_disconnect_handlers.cc, the queue and the packets of
      rpc_sm_helpers.cc, the second loop of rpc_pkt_loss.cc, and nexus_sm_thread.cc, which delivers
      packets to the objects of a process.
    - [Sync]: rwlock.h as a step relation on the threads that use it; threadsafe_queue.h.
    - [Json] (parser), [JsonPrint] (printer), [JsonItem] (queries), [JsonHeap] and [JsonBuild]
      (items as linked nodes in a heap), [JsonMinify], [JsonHooks] (the choice of the allocator):
      src/src/common/cJSON.cc.
    - [Config]: util/parser.h and the tables of the server and the client.
    - [Bitmap]: util/bitmap.h, with the macros and functions of common/common.h that nothing else uses.

    Stateful code is a state monad with faults ([M] below): a failed assertion, a null pointer, an
    access out of bounds, an exception and exhausted fuel are different faults, so that a theorem
    that a run is [Done] excludes all of them.  [wp] is the total-correctness triple over it.
    Integers are [Z] with the wrap-around of their type written out.

    ** What the theorems show

    - [HandlerSpec], [ServerTheorems]: every client handler refines an operation of an abstract file
      system, errors included, for one request and from the start of a thread; refused requests
      change nothing; listings come in batches that lose and repeat nothing.  This is for a region
      that is served and requests that start no split, with their hash in its range, and for a
      store with room for the writes.
    - [RegionTheorems], [SplitTheorems] (with [SplitFacts]): inode blocks of threads are disjoint,
      ranges of regions, the log, and a split that runs to completion and leaves the two parts of
      the range, whatever the request buffer held before.
    - [JumpHash], [LruCache], [OpenFileMap], [Sync]: range and consistency of the hash; refinement
      of an association list in order of use, and its bound; the invariant of the descriptor table;
      mutual exclusion and no lost wake-up in every reachable state.
    - [ClientSpec], [RpcSpec], [PathSpec], [HookSpec], [DentsSpec], [ClientTheorems],
      [RouteTheorems]: resolution of paths with and without the cache, complete directory scans,
      creation followed by stat, the records of getdents64, routing.  They are proved against the
      class [Service] of ClientSpec, which [Deliver] discharges with the server's handlers.  The
      client has to be connected: the servers accept the region id and the hash in the request
      buffer, which no operation of the client sets.  The first client of a server is, a second one
      is not ([Deploy]).
    - [JsonSafe]: parsing any NUL-terminated text stays in its memory and ends.  [JsonNum],
      [JsonText], [JsonPrintSpec]: printing a value and parsing it gives the value back, and a
      caller's buffer is never overrun.  [JsonMinify]: the in-place minifier computes an automaton
      and turns formatted text into unformatted text.
    - [JsonCompare]: the comparison decides equality up to the order of members, in both modes.
    - [JsonHeapSpec], [JsonTree], [JsonCopy]: the operations on children are operations on lists,
      deletion frees what is owned exactly once, a copy is complete or leaves nothing behind.
    - [ConfigTheorems]: what a configuration file sets.  [Startup]: ids, database files and sessions
      of different threads differ and agree with each other; the client is set up once.
    - [Process], [Sessions], [Deploy]: a server process starts, every session is connected after
      finitely many turns of the event loop, and a client that starts can create a file and find it.
      [TypedRuns]: a session of a thread from its start runs to its end, and every field stays inside
      its type.  [Interleave]: the inode numbers of the entries that the threads add to their stores
      are all different, whatever the order of the threads.
    - [ErpcChunk], [ErpcInv], [ErpcClient], [ErpcReply], [ErpcQueues], [ErpcServer], [ErpcFrame],
      [ErpcSession]: over a network that loses, repeats, delays and reorders packets, a request is
      handled at most once with its own bytes, its continuation runs at most once with the response
      to it, and no assertion of eRPC fails.  The proof is an invariant of the two ends and all
      packets ever sent, kept by every operation of either end.  [ErpcLive]: when
      everything on its way is lost, the retransmission still brings every request to its end, so no
      state is a deadlock.
    - [ErpcSmInv], [ErpcSmStep], [ErpcSmNet], [ErpcSmLive]: the same for the sessions themselves, with
      any number of objects and processes: no assertion of session management fails, the two ends of
      a connected session know each other and nobody else, the program is told once what became of a
      session, and no session stays undecided when packets are lost.  The invariant is a history of
      each session, by its token, that both ends and all packets agree with.  [ErpcSmTimely]: over a
      network that delivers, session management satisfies the laws of [Sessions], so a new client
      connects to every thread of every server.
    - [Bitmap]: the least free number is handed out, and a number given back is free again, as long as
      the mutex does not write to its words, which are also those of the array.  [JsonHooks]: realloc
      is used with malloc and free only.
    - [Hazards] and lemmas at the end of other files show where parts do not work as intended: one
      byte read for an inode, an inverted test in rmdir, keys in little-endian order, requests
      without region, defaults of strings that are never stored, two numbers for the root.

    [Sample] and [ClientSample] are concrete servers and clients; the witnesses run them.

    ** Fuel

    Loops that are not structural take fuel; running out is a fault.  The theorems give amounts that
    are enough: [num_buckets + 1] rounds of the jump hash, one step per node of the LRU list, per
    component of a path, per batch of a listing, per byte of a text, per item of a tree; the parser
    needs the nesting limit plus one.  The models of whole functions choose these amounts themselves
    (for instance [cJSON_Minify], [prune], [jump_fuel]); otherwise the amount is a hypothesis of the
    theorem.

    ** Assumptions

    MetaKV, RocksDB, memcached and the kernel are parameters: type classes with laws ([Stores],
    [Startup], [ClientSpec]) or functions, each with an instance that satisfies the laws.  The client
    and the server see the sessions of eRPC through such a class ([Sessions]), whose laws
    [ErpcSmTimely] derives from the code of eRPC.  In the models of the client and the server, a call to another
    thread is delivered to the handler registered for its type and answered before the caller goes
    on, as the code waits for it; that eRPC delivers requests and responses once and unchanged is
    what the Erpc files show.  There a packet that has been sent may arrive at any time, any number
    of times or never, but not changed; fewer than 2^41 requests are made on a session, after which
    the 44 bits of a request number wrap around; responses fit the buffers provided for them, and a
    handler responds once.  The random tokens of sessions do not come twice, a host name fits its
    field, and an object makes fewer than 65535 sessions.  Which allocations succeed, whether a session is congested, which packets
    of the timing wheel are due, which requests have timed out, the values of uninitialised
    variables and of memory not yet written are arguments.

    ** Not modelled

    The creation of threads and their CPU affinity; of eRPC destroy_session, which the program does
    not call, the handling of failed hosts, which is disabled in the sources, the background threads,
    the rate computation and the timing wheel, the network cards, the batches in which packets are
    handed to them, and the huge pages; logging (fs_log.h); the wrappers under HOOK_REWRITE, which is
    not set and with which hooks.cc does not compile; of common.h the fences, huge pages and the clock.
    Handlers of one thread do not interleave; the
    threads of a process interleave handler by handler ([Interleave]) and, in the lock and the queue,
    step by step ([Sync]). *)

From Stdlib Require Import ZArith Lia Ascii String.
From stdpp Require Import base numbers list gmap strings.
Open Scope Z_scope.

(** ** Machine integers *)

(** [uN z] is the value of an unsigned N-bit C++ object after storing [z];
    [iN z] is the two's-complement one. *)
Definition u8 (z : Z) : Z := z mod 2 ^ 8.
Definition u16 (z : Z) : Z := z mod 2 ^ 16.
Definition u32 (z : Z) : Z := z mod 2 ^ 32.
Definition u64 (z : Z) : Z := z mod 2 ^ 64.
Definition i32 (z : Z) : Z := (z + 2 ^ 31) mod 2 ^ 32 - 2 ^ 31.
Definition i64 (z : Z) : Z := (z + 2 ^ 63) mod 2 ^ 64 - 2 ^ 63.

Definition is_u64 (z : Z) : Prop := 0 <= z < 2 ^ 64.
Definition is_i32 (z : Z) : Prop := - 2 ^ 31 <= z < 2 ^ 31.
Definition is_i64 (z : Z) : Prop := - 2 ^ 63 <= z < 2 ^ 63.
Definition is_u32 (z : Z) : Prop := 0 <= z < 2 ^ 32.

(** ** Bytes and C strings *)

(** A byte is a [Z] in [0..255]; a buffer, an array of [char] and a
    [std::string] are lists of them. *)
Abbreviation bytes := (list Z).

Definition is_byte (b : Z) : Prop := 0 <= b < 256.

(** Text literals for concrete inputs. *)
Fixpoint text (s : string) : bytes :=
  match s with
  | EmptyString => []
  | String a s' => Z.of_N (N_of_ascii a) :: text s'
  end.

(** The bytes before the first NUL. *)
Fixpoint c_str (s : bytes) : bytes :=
  match s with
  | [] => []
  | b :: s' => if Z.eqb b 0 then [] else b :: c_str s'
  end.

(** The array holds a NUL, so that [strlen] stays inside it. *)
Fixpoint has_nul (s : bytes) : bool :=
  match s with
  | [] => false
  | b :: s' => Z.eqb b 0 || has_nul s'
  end.

Definition no_nul (s : bytes) : Prop := Forall (fun b => b <> 0) s.

(** Little-endian layout of an [n]-byte integer. *)
Fixpoint le_bytes (n : nat) (z : Z) : bytes :=
  match n with
  | O => []
  | S n' => z mod 256 :: le_bytes n' (z / 256)
  end.

Fixpoint le_value (s : bytes) : Z :=
  match s with
  | [] => 0
  | b :: s' => b + 256 * le_value s'
  end.

(** ** Faults and outcomes *)

(** How a run stops without returning: a failed [p_assert]/[assert], a null
    pointer dereference, an access outside an array, an [at()] or [get()] that
    throws, or (never in the real program) the end of the model's fuel. *)
Inductive fault :=
  | AssertFailed
  | NullDeref
  | OutOfBounds
  | Thrown
  | OutOfFuel.

Inductive outcome (A : Type) :=
  | Done (a : A)
  | Fault (f : fault).
Arguments Done {A} a.
Arguments Fault {A} f.

#[export] Instance fault_eq_dec : EqDecision fault.
Proof. solve_decision. Defined.

(** A computation over a state [S] that may fault. *)
Definition M (S A : Type) : Type := S -> outcome (A * S).

Section Monad.
Context {S A B : Type}.

Definition ret (a : A) : M S A := fun s => Done (a, s).

Definition bind (c : M S A) (k : A -> M S B) : M S B :=
  fun s => match c s with
           | Done (a, s') => k a s'
           | Fault f => Fault f
           end.

Definition raise (f : fault) : M S A := fun _ => Fault f.

Definition gets (f : S -> A) : M S A := fun s => Done (f s, s).

Definition modify (f : S -> S) : M S unit := fun s => Done (tt, f s).

End Monad.

Declare Scope m_scope.
Delimit Scope m_scope with M.
Notation "'let*' p := c 'in' k" := (bind c (fun x => match x with p => k end))
  (at level 10, p pattern, c at level 100, k at level 200)
  : m_scope.
Notation "c ;;; k" := (bind c (fun _ => k))
  (at level 100, right associativity) : m_scope.

(** [p_assert(b, ...)] and [assert(b)]. *)
Definition p_assert {S : Type} (b : bool) : M S unit :=
  if b then ret tt else raise AssertFailed.

Definition when_ {S : Type} (b : bool) (c : M S unit) : M S unit :=
  if b then c else ret tt.

(** ** Automation *)

Create HintDb metafs.
Create Rewrite HintDb metafs.

(** Break the boolean tests of a hypothesis or of the goal into linear
    arithmetic. *)
Ltac zbool :=
  repeat match goal with
  | H : (_ && _)%bool = true |- _ => apply andb_true_iff in H; destruct H
  | H : (_ || _)%bool = false |- _ => apply orb_false_iff in H; destruct H
  | H : negb _ = true |- _ => apply negb_true_iff in H
  | H : negb _ = false |- _ => apply negb_false_iff in H
  | H : (_ <=? _) = true |- _ => apply Z.leb_le in H
  | H : (_ <=? _) = false |- _ => apply Z.leb_gt in H
  | H : (_ <? _) = true |- _ => apply Z.ltb_lt in H
  | H : (_ <? _) = false |- _ => apply Z.ltb_ge in H
  | H : (_ =? _) = true |- _ => apply Z.eqb_eq in H
  | H : (_ =? _) = false |- _ => apply Z.eqb_neq in H
  end.

(** Run the monadic skeleton of a goal. *)
Ltac mrun := cbv [bind ret raise gets modify p_assert when_] in *.

(** Case analysis on the first boolean test or match of the goal. *)
Ltac mcase :=
  match goal with
  | |- context [if ?b then _ else _] => destruct b eqn:?
  | |- context [match ?x with _ => _ end] => destruct x eqn:?
  end.

(** ** Lemmas on machine integers *)

Lemma u64_range z : is_u64 (u64 z).
Proof. unfold is_u64, u64. apply Z.mod_pos_bound. lia. Qed.

Lemma u64_small z : is_u64 z -> u64 z = z.
Proof. intros. apply Z.mod_small. exact H. Qed.

Lemma u64_idem z : u64 (u64 z) = u64 z.
Proof. apply u64_small, u64_range. Qed.

Lemma i32_small z : is_i32 z -> i32 z = z.
Proof. unfold is_i32, i32. intros. rewrite Z.mod_small; lia. Qed.

Lemma i64_range z : is_i64 (i64 z).
Proof.
  unfold is_i64, i64.
  pose proof (Z.mod_pos_bound (z + 2 ^ 63) (2 ^ 64)). lia.
Qed.

Lemma i64_u64 z : is_i64 z -> i64 (u64 z) = z.
Proof.
  unfold is_i64, i64, u64. intros H. rewrite Zplus_mod_idemp_l, Z.mod_small; lia.
Qed.

Lemma i32_range z : is_i32 (i32 z).
Proof.
  unfold is_i32, i32.
  pose proof (Z.mod_pos_bound (z + 2 ^ 31) (2 ^ 32)). lia.
Qed.

#[export] Hint Resolve u64_range i32_range : metafs.
#[export] Hint Rewrite u64_idem : metafs.

(** ** Lemmas on little-endian layouts *)

Lemma length_le_bytes n z : length (le_bytes n z) = n.
Proof. revert z; induction n; simpl; auto. Qed.

Lemma le_bytes_is_byte n z : Forall is_byte (le_bytes n z).
Proof.
  revert z; induction n; simpl; intros; constructor; auto.
  apply Z.mod_pos_bound. lia.
Qed.

Lemma le_value_le_bytes n z :
  le_value (le_bytes n z) = z mod 256 ^ Z.of_nat n.
Proof.
  revert z; induction n; intros z.
  { simpl. rewrite Z.mod_1_r. reflexivity. }
  cbn [le_bytes le_value]. rewrite IHn, Nat2Z.inj_succ, Z.pow_succ_r by lia.
  rewrite Z.rem_mul_r by (try apply Z.pow_nonzero; lia). reflexivity.
Qed.

Lemma le_value_bound s :
  Forall is_byte s -> 0 <= le_value s < 256 ^ Z.of_nat (length s).
Proof.
  unfold is_byte. induction 1 as [|b s Hb Hs IH].
  { simpl. lia. }
  cbn [le_value]. rewrite length_cons, Nat2Z.inj_succ, Z.pow_succ_r by lia. lia.
Qed.

Lemma le_bytes_le_value s :
  Forall is_byte s -> le_bytes (length s) (le_value s) = s.
Proof.
  unfold is_byte. induction 1 as [|b s Hb Hs IH]; [reflexivity|].
  cbn [length le_bytes le_value]. f_equal.
  - rewrite (Z.mul_comm 256), Z_mod_plus_full, Z.mod_small; lia.
  - replace ((b + 256 * le_value s) / 256) with (le_value s); [exact IH|].
    rewrite Z.mul_comm, Z.div_add by lia. rewrite (Z.div_small b) by lia. lia.
Qed.

Lemma le_bytes_inj n x y :
  0 <= x < 256 ^ Z.of_nat n -> 0 <= y < 256 ^ Z.of_nat n ->
  le_bytes n x = le_bytes n y -> x = y.
Proof.
  intros Hx Hy H. apply (f_equal le_value) in H.
  rewrite !le_value_le_bytes, !Z.mod_small in H by lia. exact H.
Qed.

(** ** Lemmas on C strings *)

Lemma c_str_app_nul s t : no_nul s -> c_str (s ++ 0 :: t) = s.
Proof.
  induction 1 as [|b s Hb Hs IH]; simpl; [reflexivity|].
  destruct (Z.eqb_spec b 0); [contradiction|]. rewrite IH. reflexivity.
Qed.

Lemma has_nul_app_nul s t : has_nul (s ++ 0 :: t) = true.
Proof. induction s; simpl; [reflexivity|]. rewrite IHs. apply orb_true_r. Qed.

Lemma c_str_no_nul s : no_nul (c_str s).
Proof.
  induction s as [|b s IH]; simpl; [constructor|].
  destruct (Z.eqb_spec b 0); constructor; auto.
Qed.

Lemma c_str_id s : no_nul s -> c_str s = s.
Proof.
  induction 1 as [|b s Hb Hs IH]; simpl; [reflexivity|].
  destruct (Z.eqb_spec b 0); [contradiction|]. rewrite IH. reflexivity.
Qed.

#[global] Arguments le_bytes : simpl never.
#[global] Arguments le_value : simpl never.

#[export] Hint Resolve c_str_no_nul has_nul_app_nul le_bytes_is_byte : metafs.
#[export] Hint Rewrite length_le_bytes : metafs.

(** ** Lemmas on the monad *)

Lemma bind_Done {S A B} (c : M S A) (k : A -> M S B) s b s' :
  bind c k s = Done (b, s') <->
  exists a s1, c s = Done (a, s1) /\ k a s1 = Done (b, s').
Proof.
  unfold bind. destruct (c s) as [[a s1]|f]; split.
  - eauto.
  - intros (a' & s1' & [= <- <-] & H). exact H.
  - discriminate.
  - intros (a' & s1' & H & _). discriminate.
Qed.

Lemma bind_ret_l {S A B} (a : A) (k : A -> M S B) s : bind (ret a) k s = k a s.
Proof. reflexivity. Qed.

Lemma bind_assoc {S A B C} (c : M S A) (k : A -> M S B) (h : B -> M S C) s :
  bind (bind c k) h s = bind c (fun a => bind (k a) h) s.
Proof. unfold bind. destruct (c s) as [[a s1]|f]; reflexivity. Qed.

(** ** Writes into a buffer *)

(** An assignment to [length b] bytes at offset [off]. *)
Definition write_at (off : nat) (b buf : bytes) : bytes :=
  take off buf ++ b ++ drop (off + length b) buf.

Lemma length_write_at off b buf :
  (off + length b <= length buf)%nat -> length (write_at off b buf) = length buf.
Proof.
  intros H. unfold write_at. rewrite !length_app, length_take, length_drop. lia.
Qed.

Lemma lookup_write_at off b buf i :
  (off + length b <= length buf)%nat ->
  write_at off b buf !! i
  = if decide (off <= i < off + length b)%nat then b !! (i - off)%nat else buf !! i.
Proof.
  intros H. unfold write_at.
  assert (length (take off buf) = off) as Ht by (rewrite length_take; lia).
  destruct (decide _) as [[H1 H2]|Hn].
  - rewrite lookup_app_r by lia. rewrite Ht, lookup_app_l by lia. reflexivity.
  - destruct (decide (i < off)%nat) as [Hi|Hi].
    + rewrite lookup_app_l by lia. apply lookup_take_lt. exact Hi.
    + rewrite lookup_app_r, Ht, lookup_app_r, lookup_drop by lia. f_equal. lia.
Qed.

(** The bytes [o .. o + n - 1]. *)
Lemma lookup_slice (l : bytes) o n i :
  take n (drop o l) !! i = if decide (i < n)%nat then l !! (o + i)%nat else None.
Proof.
  destruct (decide (i < n)%nat).
  - rewrite lookup_take_lt by lia. apply lookup_drop.
  - apply lookup_take_ge. lia.
Qed.

Lemma slice_write_same off b buf :
  (off + length b <= length buf)%nat -> take (length b) (drop off (write_at off b buf)) = b.
Proof.
  intros H. apply list_eq. intros i. rewrite lookup_slice.
  destruct (decide (i < length b)%nat) as [Hi|Hi].
  - rewrite lookup_write_at by exact H. rewrite decide_True by lia. f_equal. lia.
  - symmetry. apply lookup_ge_None. lia.
Qed.

Lemma slice_write_other off b buf o n :
  (off + length b <= length buf)%nat -> (o + n <= off \/ off + length b <= o)%nat ->
  take n (drop o (write_at off b buf)) = take n (drop o buf).
Proof.
  intros H Hd. apply list_eq. intros i. rewrite !lookup_slice.
  destruct (decide (i < n)%nat) as [Hi|Hi]; [|reflexivity].
  rewrite lookup_write_at by exact H. rewrite decide_False by lia. reflexivity.
Qed.

(** ** Lemmas on lists *)

Lemma NoDup_omap_inj {A B} (f : A -> option B) (l : list A) :
  (forall x y z, f x = Some z -> f y = Some z -> x = y) ->
  NoDup l -> NoDup (omap f l).
Proof.
  intros Hf. induction 1 as [|x l Hx Hl IH]; cbn; [constructor|].
  destruct (f x) as [z|] eqn:E; [|exact IH]. constructor; [|exact IH].
  rewrite list_elem_of_omap. intros (y & Hy & E').
  apply Hx. rewrite (Hf x y z); assumption.
Qed.

Lemma i32_add_l a b : i32 (i32 a + b) = i32 (a + b).
Proof.
  unfold i32. replace ((a + 2 ^ 31) mod 2 ^ 32 - 2 ^ 31 + b + 2 ^ 31)
    with ((a + 2 ^ 31) mod 2 ^ 32 + b) by lia.
  rewrite Zplus_mod_idemp_l. do 2 f_equal. lia.
Qed.

Lemma drop_repeat {A} (a : A) k n : drop k (repeat a n) = repeat a (n - k).
Proof.
  revert n; induction k as [|k IH]; intros [|n]; cbn; try reflexivity. apply IH.
Qed.

Lemma Forall_repeat {A} (P : A -> Prop) a n : P a -> Forall P (repeat a n).
Proof. intros H. induction n; cbn; constructor; assumption. Qed.

(** ** Lists without duplicate keys *)

Section Keyed.
Context {A B : Type} `{EqDecision B} (f : A -> B).

Lemma elem_of_map_intro (l : list A) x : x ∈ l -> f x ∈ map f l.
Proof. intros Hx. apply list_elem_of_In, in_map, list_elem_of_In, Hx. Qed.

Lemma NoDup_map_inj (l : list A) x y :
  NoDup (map f l) -> x ∈ l -> y ∈ l -> f x = f y -> x = y.
Proof.
  induction l as [|z l IH]; intros Hn Hx Hy E; [inversion Hx|].
  apply NoDup_cons in Hn as [Hz Hn].
  apply elem_of_cons in Hx as [->|Hx]; apply elem_of_cons in Hy as [->|Hy]; auto.
  - exfalso. apply Hz. rewrite E. apply elem_of_map_intro, Hy.
  - exfalso. apply Hz. rewrite <- E. apply elem_of_map_intro, Hx.
Qed.

Lemma filter_other_absent (l : list A) b :
  b ∉ map f l -> filter (fun x => f x <> b) l = l.
Proof.
  induction l as [|x l IH]; intros Hb; [reflexivity|]. cbn in Hb.
  apply not_elem_of_cons in Hb as [Hx Hb].
  rewrite filter_cons_True by congruence. rewrite IH by exact Hb. reflexivity.
Qed.

(** An element can be pulled to the front. *)
Lemma filter_other_perm (l : list A) x :
  NoDup (map f l) -> x ∈ l -> l ≡ₚ x :: filter (fun y => f y <> f x) l.
Proof.
  induction l as [|z l IH]; intros Hn Hx; [inversion Hx|].
  apply NoDup_cons in Hn as [Hz Hn]. apply elem_of_cons in Hx as [->|Hx].
  - rewrite filter_cons_False by (intros E; apply E; reflexivity).
    rewrite filter_other_absent by exact Hz. reflexivity.
  - rewrite filter_cons_True.
    + rewrite Permutation_swap. apply Permutation_cons; [reflexivity|]. apply IH; assumption.
    + intros E. apply Hz. rewrite E. apply elem_of_map_intro, Hx.
Qed.

Lemma map_filter_other {C} (g : A -> C) (h : C -> B) (l : list A) b :
  (forall x, h (g x) = f x) ->
  map g (filter (fun x => f x <> b) l) = filter (fun y => h y <> b) (map g l).
Proof.
  intros Hh. induction l as [|x l IH]; [reflexivity|]. cbn [map].
  destruct (decide (f x = b)) as [E|E].
  - rewrite filter_cons_False by auto. rewrite filter_cons_False by (rewrite Hh; auto).
    exact IH.
  - rewrite filter_cons_True by auto. rewrite filter_cons_True by (rewrite Hh; auto).
    cbn. rewrite IH. reflexivity.
Qed.

End Keyed.

Lemma filter_ext_in {A} (P Q : A -> Prop) `{forall x, Decision (P x)}
    `{forall x, Decision (Q x)} (l : list A) :
  (forall x, x ∈ l -> P x <-> Q x) -> filter P l = filter Q l.
Proof.
  induction l as [|x l IH]; intros HPQ; [reflexivity|].
  assert (filter P l = filter Q l) as E.
  { apply IH. intros y Hy. apply HPQ. right. exact Hy. }
  destruct (decide (P x)) as [Hp|Hp].
  - rewrite !filter_cons_True by first [exact Hp | apply HPQ; [left|exact Hp]]. congruence.
  - rewrite !filter_cons_False by first [exact Hp | rewrite <- HPQ; [exact Hp|left]]. congruence.
Qed.

(** More distinct keys than entries: one key is free. *)
Lemma free_key {K A} `{Countable K} (m : gmap K A) (l : list K) :
  NoDup l -> (size m < length l)%nat -> exists k, k ∈ l /\ m !! k = None.
Proof.
  intros Hl Hlt. destruct (decide (Exists (fun k => m !! k = None) l)) as [He|Hne].
  { apply Exists_exists in He as (k & Hk & E). eauto. }
  exfalso. assert (l ⊆+ elements (dom m)) as Hsub.
  { apply NoDup_submseteq; [exact Hl|]. intros k Hk. apply elem_of_elements, elem_of_dom.
    destruct (m !! k) eqn:E; [eauto|]. exfalso. apply Hne, Exists_exists. eauto. }
  apply submseteq_length in Hsub. rewrite <- size_dom in Hlt. unfold size, set_size in Hlt.
  cbn in Hlt. lia.
Qed.

(** ** Total-correctness triples *)

(** [wp c Q s]: [c] run in [s] does not fault and ends in a value and a state that
    satisfy [Q]. *)
Definition wp {S A} (c : M S A) (Q : A -> S -> Prop) (s : S) : Prop :=
  match c s with
  | Done (a, s') => Q a s'
  | Fault _ => False
  end.

Section Wp.
Context {S A B : Type}.
Implicit Types (c : M S A) (k : A -> M S B) (s : S).

Lemma wp_Done c Q s : wp c Q s <-> exists a s', c s = Done (a, s') /\ Q a s'.
Proof.
  unfold wp. destruct (c s) as [[a s']|f]; split.
  - eauto.
  - intros (? & ? & [= <- <-] & H). exact H.
  - contradiction.
  - intros (? & ? & H & _). discriminate.
Qed.

Lemma wp_bind c k Q s : wp c (fun a s' => wp (k a) Q s') s -> wp (bind c k) Q s.
Proof. unfold wp, bind. destruct (c s) as [[a s']|f]; auto. Qed.

Lemma wp_ret (a : A) (Q : A -> S -> Prop) s : Q a s -> wp (ret a) Q s.
Proof. auto. Qed.

Lemma wp_gets (f : S -> A) (Q : A -> S -> Prop) s : Q (f s) s -> wp (gets f) Q s.
Proof. auto. Qed.

Lemma wp_mono c (Q R : A -> S -> Prop) s :
  wp c Q s -> (forall a s', Q a s' -> R a s') -> wp c R s.
Proof. unfold wp. destruct (c s) as [[a s']|f]; auto. Qed.

End Wp.

Lemma wp_modify {S} (f : S -> S) (Q : unit -> S -> Prop) s : Q tt (f s) -> wp (modify f) Q s.
Proof. auto. Qed.

Lemma wp_when {S} (b : bool) (c : M S unit) (Q : unit -> S -> Prop) s :
  (b = true -> wp c Q s) -> (b = false -> Q tt s) -> wp (when_ b c) Q s.
Proof. unfold when_. intros Ht Hf. destruct b; [apply Ht | apply Hf]; reflexivity. Qed.

Lemma wp_assert {S} (b : bool) (Q : unit -> S -> Prop) s :
  b = true -> Q tt s -> wp (p_assert b) Q s.
Proof. intros -> H. exact H. Qed.

(** [wpx F c Q s]: [c] either ends as [wp] says or stops with a fault that
    satisfies [F]. *)
Definition wpx {S A} (F : fault -> Prop) (c : M S A) (Q : A -> S -> Prop) (s : S) : Prop :=
  match c s with
  | Done (a, s') => Q a s'
  | Fault f => F f
  end.

Lemma wpx_bind {S A B} F (c : M S A) (k : A -> M S B) Q s :
  wpx F c (fun a s' => wpx F (k a) Q s') s -> wpx F (bind c k) Q s.
Proof. unfold wpx, bind. destruct (c s) as [[a s']|f]; auto. Qed.

Lemma wpx_ret {S A} F (a : A) (Q : A -> S -> Prop) s : Q a s -> wpx F (ret a) Q s.
Proof. auto. Qed.

Lemma wpx_wp {S A} F (c : M S A) Q s : wp c Q s -> wpx F c Q s.
Proof. unfold wp, wpx. destruct (c s) as [[a s']|f]; [auto|contradiction]. Qed.

Lemma wpx_mono {S A} (F G : fault -> Prop) (c : M S A) (Q R : A -> S -> Prop) s :
  wpx F c Q s -> (forall f, F f -> G f) -> (forall a s', Q a s' -> R a s') -> wpx G c R s.
Proof. unfold wpx. destruct (c s) as [[a s']|f]; auto. Qed.

Lemma wp_and {S A} (m : M S A) (Q R : A -> S -> Prop) s : wp m Q s -> wpx (fun _ => True) m R s -> wp m (fun a s' => Q a s' /\ R a s') s.
Proof. unfold wp, wpx. destruct (m s) as [[a s']|f]; auto. Qed.

(** ** Frames *)

(** [m] stays within [R] when it ends. *)
Definition frames {S} (R : S -> S -> Prop) {A} (m : M S A) : Prop := forall c, wpx (fun _ => True) m (fun _ c' => R c c') c.

Section Frames.
Context {S : Type} (R : S -> S -> Prop) `{!PreOrder R}.

Lemma frames_bind {A B} (m : M S A) (k : A -> M S B) : frames R m -> (forall a, frames R (k a)) -> frames R (bind m k).
Proof.
  intros Hm Hk c. apply wpx_bind. eapply wpx_mono; [apply Hm|auto|]. intros a c1 H1. eapply wpx_mono; [apply Hk|auto|].
  intros ? c2 H2. transitivity c1; assumption.
Qed.

Lemma frames_pure {A} (m : M S A) : (forall c, match m c with Done (_, c') => c' = c | Fault _ => True end) -> frames R m.
Proof. intros H c. unfold wpx. specialize (H c). destruct (m c) as [[a c']|f]; [|exact I]. subst c'. reflexivity. Qed.

Lemma frames_modify f : (forall c, R c (f c)) -> frames R (modify f).
Proof. intros H c. apply H. Qed.

Lemma frames_assert b : frames R (p_assert b).
Proof. apply frames_pure. intros c. destruct b; reflexivity || exact I. Qed.

Lemma frames_gets {A} (f : S -> A) : frames R (gets f).
Proof. apply frames_pure. reflexivity. Qed.

Lemma frames_ret {A} (a : A) : frames R (ret a).
Proof. apply frames_pure. reflexivity. Qed.

Lemma frames_raise {A} f : frames R (raise f : M S A).
Proof. apply frames_pure. intros c. exact I. Qed.

Lemma frames_when b (m : M S unit) : frames R m -> frames R (when_ b m).
Proof. destruct b; [auto|]. intros _. apply frames_ret. Qed.

End Frames.

Lemma frames_weaken {S} (R R' : S -> S -> Prop) {A} (m : M S A) : (forall c c', R c c' -> R' c c') -> frames R m -> frames R' m.
Proof. intros H Hm c. eapply wpx_mono; [apply Hm|auto|]. intros ? ?. apply H. Qed.

Create HintDb frames discriminated.
#[export] Hint Resolve frames_assert frames_gets frames_ret frames_raise : frames.
#[export] Hint Extern 1 (PreOrder _) => typeclasses eauto : frames.
