(* ===== verification/DoubleArith.v ===== *)
(** * IEEE binary64 arithmetic on positive numbers

    The [double] operations the program uses, as the Standard Library's
    [SpecFloat] defines them, with the bounds on rounding that the jump hash
    needs: rounding a positive number never passes below an integer it reaches
    and never passes above it by more than one unit in the last place. *)

From Stdlib Require Import ZArith Lia SpecFloat.
From stdpp Require Import base numbers list.
From S2P Require Import Prelude.
Open Scope Z_scope.

Module Double.

Definition prec : Z := 53.
Definition emax : Z := 1024.

(** The conversion of an integer to [double]. *)
Definition of_Z (z : Z) : spec_float := binary_normalize prec emax z 0 false.

Definition mul (x y : spec_float) : spec_float := SFmul prec emax x y.
Definition div (x y : spec_float) : spec_float := SFdiv prec emax x y.

(** Truncation towards zero. *)
Definition trunc (x : spec_float) : option Z :=
  match x with
  | S754_zero _ => Some 0
  | S754_finite s m e =>
      let a := if 0 <=? e then Zpos m * 2 ^ e else Zpos m / 2 ^ (- e) in
      Some (if s then - a else a)
  | _ => None
  end.

(** The conversion of a [double] to [int64_t] truncates; it is undefined when the
    truncated value does not fit. *)
Definition to_int64 (x : spec_float) : option Z :=
  match trunc x with
  | Some z => if (- 2 ^ 63 <=? z) && (z <? 2 ^ 63) then Some z else None
  | None => None
  end.

(** The value of [m * 2 ^ e] in units of [2 ^ -1074], the smallest double. *)
Definition scaled (m e : Z) : Z := m * 2 ^ (e + 1074).

Lemma digits2_pos_bound p :
  2 ^ (Zpos (digits2_pos p) - 1) <= Zpos p < 2 ^ Zpos (digits2_pos p).
Proof.
  induction p as [p IH|p IH|]; cbn [digits2_pos]; [| |simpl; lia].
  all: rewrite Pos2Z.inj_succ, Z.pow_succ_r by lia.
  all: replace (Z.succ (Zpos (digits2_pos p)) - 1)
         with (Z.succ (Zpos (digits2_pos p) - 1)) by lia.
  all: rewrite (Z.pow_succ_r 2 (Zpos (digits2_pos p) - 1)) by lia.
  all: lia.
Qed.

Lemma digits2_pos_unique p d :
  2 ^ (d - 1) <= Zpos p < 2 ^ d -> 0 < d -> Zpos (digits2_pos p) = d.
Proof.
  intros [H1 H2] Hd. pose proof (digits2_pos_bound p) as [H3 H4].
  assert (Zpos (digits2_pos p) - 1 < d) by (apply (Z.pow_lt_mono_r_iff 2); lia).
  assert (d - 1 < Zpos (digits2_pos p)) by (apply (Z.pow_lt_mono_r_iff 2); lia).
  lia.
Qed.

Lemma iter_pos_nat {A} (f : A -> A) p x :
  SpecFloat.iter_pos f p x = Nat.iter (Pos.to_nat p) f x.
Proof.
  revert x; induction p as [p IH|p IH|]; intros x; cbn [SpecFloat.iter_pos].
  - rewrite !IH, <- Nat.iter_add, <- (Nat.iter_succ_r _ f).
    f_equal. lia.
  - rewrite !IH, <- Nat.iter_add. f_equal. lia.
  - reflexivity.
Qed.

Lemma shr_1_m r : 0 <= shr_m r -> shr_m (shr_1 r) = shr_m r / 2.
Proof.
  destruct r as [m r s]; cbn [shr_m]; intros Hm.
  destruct m as [|[p|p|]|p]; simpl; try reflexivity; try lia.
  - rewrite Pos2Z.inj_xI. Z.div_mod_to_equations. lia.
  - rewrite Pos2Z.inj_xO. Z.div_mod_to_equations. lia.
Qed.

Lemma shr_iter_m n r :
  0 <= shr_m r -> shr_m (Nat.iter n shr_1 r) = shr_m r / 2 ^ Z.of_nat n.
Proof.
  intros Hr. induction n as [|n IH].
  { simpl. rewrite Z.div_1_r. reflexivity. }
  rewrite Nat.iter_succ, shr_1_m, IH.
  - rewrite Nat2Z.inj_succ, Z.pow_succ_r, Z.mul_comm, Z.div_div by lia. reflexivity.
  - rewrite IH. apply Z.div_pos; lia.
Qed.

Lemma shr_record_of_loc_m m l : shr_m (shr_record_of_loc m l) = m.
Proof. destruct l as [|[]]; reflexivity. Qed.

(** One alignment step keeps [53] digits and truncates the rest. *)
Lemma shr_fexp_spec m e l :
  -1074 <= e ->
  let n := Z.max 0 (Zpos (digits2_pos m) - 53) in
  exists r, shr_fexp prec emax (Zpos m) e l = (r, e + n) /\
            shr_m r = Zpos m / 2 ^ n.
Proof.
  intros He n. unfold shr_fexp, fexp, emin, prec, emax. cbn [Zdigits2].
  replace (Z.max (Zpos (digits2_pos m) + e - 53) (3 - 1024 - 53) - e)
    with (Z.max (Zpos (digits2_pos m) - 53) (-1074 - e)) by lia.
  unfold shr. destruct (Z.max (Zpos (digits2_pos m) - 53) (-1074 - e)) eqn:E.
  - replace n with 0 by lia. eexists. split; [f_equal; lia|].
    rewrite shr_record_of_loc_m, Z.div_1_r. reflexivity.
  - assert (n = Zpos p) as -> by lia. eexists. split; [reflexivity|].
    rewrite iter_pos_nat, shr_iter_m; rewrite shr_record_of_loc_m; [|lia].
    rewrite positive_nat_Z. reflexivity.
  - replace n with 0 by lia. eexists. split; [f_equal; lia|].
    rewrite shr_record_of_loc_m, Z.div_1_r. reflexivity.
Qed.

Lemma round_nearest_even_bound m l :
  m <= round_nearest_even m l <= m + 1.
Proof. destruct l as [|[]]; simpl; try case_match; lia. Qed.

Lemma digits2_pos_le p d : 0 <= d -> Zpos p < 2 ^ d -> Zpos (digits2_pos p) <= d.
Proof.
  intros Hd H. pose proof (digits2_pos_bound p) as [H3 H4].
  assert (Zpos (digits2_pos p) - 1 < d) by (apply (Z.pow_lt_mono_r_iff 2); lia).
  lia.
Qed.

(** The truncated mantissa has between one and [53] digits. *)
Lemma truncated_mantissa_bound m :
  let n := Z.max 0 (Zpos (digits2_pos m) - 53) in
  1 <= Zpos m / 2 ^ n < 2 ^ 53.
Proof.
  intros n. pose proof (digits2_pos_bound m) as [Hl Hu].
  assert (Hn : 0 < 2 ^ n) by (apply Z.pow_pos_nonneg; lia).
  split.
  - apply Z.div_le_lower_bound; [lia|]. rewrite Z.mul_1_r.
    destruct (Z.leb_spec (Zpos (digits2_pos m)) 53) as [Hd|Hd].
    + replace n with 0 by lia. simpl. lia.
    + transitivity (2 ^ (Zpos (digits2_pos m) - 1)); [|lia].
      apply Z.pow_le_mono_r; lia.
  - apply Z.div_lt_upper_bound; [lia|].
    rewrite <- Z.pow_add_r by lia.
    eapply Z.lt_le_trans; [exact Hu|]. apply Z.pow_le_mono_r; lia.
Qed.

(** The second alignment of a rounded mantissa is exact. *)
Lemma shr_fexp_exact p e :
  -1074 <= e -> Zpos p <= 2 ^ 53 ->
  exists r q ee, shr_fexp prec emax (Zpos p) e loc_Exact = (r, ee) /\
    shr_m r = Zpos q /\ Zpos q < 2 ^ 53 /\ e <= ee <= e + 1 /\
    scaled (Zpos q) ee = scaled (Zpos p) e.
Proof.
  intros He Hp.
  destruct (shr_fexp_spec p e loc_Exact He) as (r & Hr & Hm).
  destruct (Z.eq_dec (Zpos p) (2 ^ 53)) as [E|E].
  - assert (Zpos (digits2_pos p) = 54) as Hd
      by (apply digits2_pos_unique; rewrite ?E; lia).
    rewrite Hd in *. change (Z.max 0 (54 - 53)) with 1 in *.
    rewrite E in Hm. change (2 ^ 53 / 2 ^ 1) with (2 ^ 52) in Hm.
    exists r, (2 ^ 52)%positive, (e + 1). repeat split; try assumption; try lia.
    unfold scaled. rewrite E.
    replace (e + 1 + 1074) with (Z.succ (e + 1074)) by lia.
    rewrite Z.pow_succ_r by lia. lia.
  - assert (Zpos (digits2_pos p) <= 53) as Hd by (apply digits2_pos_le; lia).
    replace (Z.max 0 (Zpos (digits2_pos p) - 53)) with 0 in * by lia.
    rewrite Z.div_1_r in Hm. exists r, p, (e + 0). repeat split; try assumption; try lia.
    rewrite Z.add_0_r. reflexivity.
Qed.

(** Rounding a positive number lands between its truncation to [53] digits and
    the next number with [53] digits, with the exponent of the one or the other. *)
Lemma binary_round_aux_exponent m e l :
  -1074 <= e -> e + Zpos (digits2_pos m) <= 900 ->
  let n := Z.max 0 (Zpos (digits2_pos m) - 53) in
  exists mm ee,
    binary_round_aux prec emax false (Zpos m) e l = S754_finite false mm ee /\
    e + n <= ee <= e + n + 1 /\ Zpos mm < 2 ^ 53 /\
    scaled (Zpos m / 2 ^ n) (e + n) <= scaled (Zpos mm) ee
      <= scaled (Zpos m / 2 ^ n + 1) (e + n).
Proof.
  intros He Hd n. unfold binary_round_aux.
  destruct (shr_fexp_spec m e l He) as (r & Hr & Hm). fold n in Hr, Hm.
  rewrite Hr. pose proof (truncated_mantissa_bound m) as Hb.
  cbv zeta in Hb. fold n in Hb.
  pose proof (round_nearest_even_bound (shr_m r) (loc_of_shr_record r)) as Hrn.
  rewrite Hm in *. set (m' := Zpos m / 2 ^ n) in *. clearbody m'.
  destruct (round_nearest_even _ _) as [|p|p] eqn:Ep; [lia| |lia].
  destruct (shr_fexp_exact p (e + n)) as (r2 & q & ee & E2 & Hq & Hq53 & Hee & Hv); [lia|lia|].
  rewrite E2, Hq. change (emax - prec) with 971.
  destruct (Z.leb_spec ee 971); [|lia].
  exists q, ee. split; [reflexivity|]. split; [lia|]. split; [lia|].
  rewrite Hv. unfold scaled.
  split; apply Z.mul_le_mono_nonneg_r; try (apply Z.pow_nonneg; lia); lia.
Qed.

Lemma binary_round_aux_spec m e l :
  -1074 <= e -> e + Zpos (digits2_pos m) <= 900 ->
  let n := Z.max 0 (Zpos (digits2_pos m) - 53) in
  exists mm ee,
    binary_round_aux prec emax false (Zpos m) e l = S754_finite false mm ee /\
    -1074 <= ee /\ Zpos mm < 2 ^ 53 /\
    scaled (Zpos m / 2 ^ n) (e + n) <= scaled (Zpos mm) ee
      <= scaled (Zpos m / 2 ^ n + 1) (e + n).
Proof.
  intros He Hd n. destruct (binary_round_aux_exponent m e l He Hd) as (mm & ee & E & Hee & H).
  exists mm, ee. split; [exact E|]. split; [lia|exact H].
Qed.

(** An integer below a positive number stays below its rounding. *)
Lemma binary_round_aux_ge m e l N :
  -1074 <= e -> e + Zpos (digits2_pos m) <= 900 ->
  0 <= N <= 2 ^ 52 -> scaled N 0 <= scaled (Zpos m) e ->
  exists mm ee,
    binary_round_aux prec emax false (Zpos m) e l = S754_finite false mm ee /\
    -1074 <= ee /\ Zpos mm < 2 ^ 53 /\ scaled N 0 <= scaled (Zpos mm) ee
      <= scaled (Zpos m) e
         + 2 ^ (e + Z.max 0 (Zpos (digits2_pos m) - 53) + 1074).
Proof.
  intros He Hd HN Hle.
  destruct (binary_round_aux_spec m e l He Hd) as (mm & ee & E & Hee & Hmm & Hlo & Hup).
  cbv zeta in Hlo, Hup.
  set (n := Z.max 0 (Zpos (digits2_pos m) - 53)) in *.
  exists mm, ee. split; [exact E|]. split; [exact Hee|]. split; [exact Hmm|].
  assert (Hn : 0 < 2 ^ n) by (apply Z.pow_pos_nonneg; lia).
  unfold scaled in *. rewrite Z.add_0_l in *. split.
  - etransitivity; [|exact Hlo].
    destruct (Z.leb_spec (e + n) 0) as [C|C].
    + replace 1074 with (- (e + n) + (e + n + 1074)) at 1 by lia.
      rewrite Z.pow_add_r, Z.mul_assoc by lia.
      apply Z.mul_le_mono_nonneg_r; [apply Z.pow_nonneg; lia|].
      apply Z.div_le_lower_bound; [lia|].
      rewrite Z.mul_comm, <- Z.mul_assoc, <- Z.pow_add_r by lia.
      apply (Z.mul_le_mono_pos_r _ _ (2 ^ (e + 1074))); [apply Z.pow_pos_nonneg; lia|].
      rewrite <- Z.mul_assoc, <- Z.pow_add_r by lia.
      replace (- (e + n) + n + (e + 1074)) with 1074 by lia. exact Hle.
    + destruct (Z.eq_dec n 0) as [E0|E0].
      { rewrite E0, Z.div_1_r, Z.add_0_r. exact Hle. }
      assert (2 ^ 52 <= Zpos m / 2 ^ n) as Hm.
      { apply Z.div_le_lower_bound; [lia|]. rewrite <- Z.pow_add_r by lia.
        pose proof (digits2_pos_bound m) as [Hl _].
        etransitivity; [|exact Hl]. apply Z.pow_le_mono_r; lia. }
      apply Z.mul_le_mono_nonneg; try lia. apply Z.pow_le_mono_r; lia.
  - etransitivity; [exact Hup|]. rewrite Z.mul_add_distr_r, Z.mul_1_l.
    apply Z.add_le_mono_r.
    replace (e + n + 1074) with (n + (e + 1074)) by lia.
    rewrite Z.pow_add_r, Z.mul_assoc by lia.
    apply Z.mul_le_mono_nonneg_r; [apply Z.pow_nonneg; lia|].
    rewrite Z.mul_comm. apply Z.mul_div_le. lia.
Qed.

Lemma pos_iter_xO p q : Zpos (Pos.iter xO p q) = Zpos p * 2 ^ Zpos q.
Proof.
  induction q using Pos.peano_ind; [simpl; lia|].
  rewrite Pos.iter_succ, Pos2Z.inj_succ, Z.pow_succ_r by lia. lia.
Qed.

(** Left-aligning a mantissa of [d] digits to [53] digits. *)
Lemma shl_align_full p :
  let d := Zpos (digits2_pos p) in
  d <= 53 ->
  exists m, shl_align p 0 (d - 53) = (m, d - 53) /\
    Zpos m = Zpos p * 2 ^ (53 - d) /\ 2 ^ 52 <= Zpos m < 2 ^ 53.
Proof.
  intros d Hd. pose proof (digits2_pos_bound p) as [Hl Hu]. fold d in Hl, Hu.
  assert (exists m, shl_align p 0 (d - 53) = (m, d - 53) /\
                    Zpos m = Zpos p * 2 ^ (53 - d)) as (m & Em & Hm).
  { unfold shl_align. rewrite Z.sub_0_r. destruct (d - 53) as [|q|q] eqn:Eq; [|lia|].
    - exists p. replace (53 - d) with 0 by lia. rewrite Z.mul_1_r. auto.
    - exists (Pos.iter xO p q). split; [reflexivity|].
      rewrite pos_iter_xO. f_equal. f_equal. lia. }
  exists m. split; [exact Em|]. split; [exact Hm|]. rewrite Hm.
  assert (0 < 2 ^ (53 - d)) by (apply Z.pow_pos_nonneg; lia).
  assert (2 ^ 52 = 2 ^ (d - 1) * 2 ^ (53 - d))
    by (rewrite <- Z.pow_add_r by lia; f_equal; lia).
  assert (2 ^ 53 = 2 ^ d * 2 ^ (53 - d))
    by (rewrite <- Z.pow_add_r by lia; f_equal; lia).
  nia.
Qed.

(** A full mantissa is not rounded. *)
Lemma binary_round_aux_full m e :
  2 ^ 52 <= Zpos m < 2 ^ 53 -> -1074 <= e <= 971 ->
  binary_round_aux prec emax false (Zpos m) e loc_Exact = S754_finite false m e.
Proof.
  intros Hm He.
  assert (Zpos (digits2_pos m) = 53) as Hd by (apply digits2_pos_unique; lia).
  assert (shr_fexp prec emax (Zpos m) e loc_Exact
          = (Build_shr_record (Zpos m) false false, e)) as Es.
  { unfold shr_fexp, fexp, emin, prec, emax. cbn [Zdigits2]. rewrite Hd.
    replace (Z.max (53 + e - 53) (3 - 1024 - 53) - e) with 0 by lia. reflexivity. }
  unfold binary_round_aux. rewrite Es. cbn [shr_m loc_of_shr_record round_nearest_even].
  rewrite Es. cbn [shr_m]. change (emax - prec) with 971.
  destruct (Z.leb_spec e 971); [reflexivity|lia].
Qed.

(** Small positive integers are represented exactly, with a full mantissa. *)
Lemma of_Z_exact z :
  1 <= z < 2 ^ 53 ->
  exists m e, of_Z z = S754_finite false m e /\
    2 ^ 52 <= Zpos m < 2 ^ 53 /\ -52 <= e <= 0 /\ Zpos m = z * 2 ^ (- e).
Proof.
  intros Hz. destruct z as [|p|p]; [lia| |lia].
  unfold of_Z, binary_normalize, binary_round, fexp, emin.
  assert (Zpos (digits2_pos p) <= 53) as Hd by (apply digits2_pos_le; lia).
  destruct (shl_align_full p Hd) as (m & Em & Hm & Hb).
  replace (Z.max (Zpos (digits2_pos p) + 0 - prec) (3 - emax - prec))
    with (Zpos (digits2_pos p) - 53) by (unfold prec, emax; lia).
  rewrite Em. exists m, (Zpos (digits2_pos p) - 53).
  rewrite binary_round_aux_full by lia.
  repeat split; try lia. rewrite Hm. do 2 f_equal. lia.
Qed.

(** The integer quotient behind [2^31 / k], where [k = m2 * 2^e2]. *)
Lemma quotient_bound k m2 e2 :
  1 <= k <= 2 ^ 31 -> -52 <= e2 <= 0 -> m2 = k * 2 ^ (- e2) ->
  2 ^ 52 <= m2 < 2 ^ 53 ->
  2 ^ (74 + e2) <= 2 ^ 105 / m2 <= 2 ^ (105 + e2) /\ 2 ^ 105 / m2 <= 2 ^ 53.
Proof.
  intros Hk He Hm Hb.
  assert (0 < 2 ^ (- e2)) by (apply Z.pow_pos_nonneg; lia).
  split; [split|].
  - apply Z.div_le_lower_bound; [lia|]. subst m2.
    rewrite <- Z.mul_assoc, <- Z.pow_add_r by lia.
    replace (- e2 + (74 + e2)) with 74 by lia. lia.
  - apply Z.div_le_upper_bound; [lia|]. subst m2.
    rewrite <- Z.mul_assoc, <- Z.pow_add_r by lia.
    replace (- e2 + (105 + e2)) with 105 by lia. lia.
  - apply Z.div_le_upper_bound; [lia|]. lia.
Qed.

(** [2^31 / k] for [1 <= k <= 2^31]: the quotient is a finite number between [1]
    and [2^31 + 1]. *)
Lemma div_pow31_bound k :
  1 <= k <= 2 ^ 31 ->
  exists m e, div (of_Z (2 ^ 31)) (of_Z k) = S754_finite false m e /\
    -1074 <= e /\ Zpos m < 2 ^ 53 /\
    scaled 1 0 <= scaled (Zpos m) e <= scaled (2 ^ 31 + 1) 0.
Proof.
  intros Hk.
  destruct (of_Z_exact k) as (m2 & e2 & E2 & Hm2 & He2 & Hk2); [lia|].
  change (of_Z (2 ^ 31)) with (S754_finite false (2 ^ 52)%positive (-21)).
  rewrite E2. unfold div, SFdiv, SFdiv_core_binary. cbn [Zdigits2].
  rewrite (digits2_pos_unique m2 53) by lia.
  change (Zpos (digits2_pos (2 ^ 52))) with 53. unfold fexp, emin.
  replace (Z.min (Z.max (53 + -21 - (53 + e2) - prec) (3 - emax - prec)) (-21 - e2))
    with (-74 - e2) by (unfold prec, emax; lia).
  replace (-21 - e2 - (-74 - e2)) with 53 by lia.
  change (Z.shiftl (Zpos (2 ^ 52)) 53) with (2 ^ 105).
  destruct (quotient_bound k (Zpos m2) e2 Hk He2 Hk2 Hm2) as [[Hlo Hup] H53].
  rewrite (surjective_pairing (IntDef.Z.div_eucl (2 ^ 105) (Zpos m2))).
  change (fst (IntDef.Z.div_eucl (2 ^ 105) (Zpos m2))) with (2 ^ 105 / Zpos m2).
  assert (0 < 2 ^ (74 + e2)) by (apply Z.pow_pos_nonneg; lia).
  destruct (2 ^ 105 / Zpos m2) as [|q|q]; [lia| |lia].
  assert (Zpos (digits2_pos q) <= 54) as Hd by (apply digits2_pos_le; lia).
  cbn [xorb].
  destruct (binary_round_aux_ge q (-74 - e2)
              (new_location (Zpos m2) (snd (IntDef.Z.div_eucl (2 ^ 105) (Zpos m2)))) 1)
    as (m & e & E & He & Hm & Hl & Hu); [lia|lia|lia| |].
  { unfold scaled. replace (0 + 1074) with (74 + e2 + (-74 - e2 + 1074)) by lia.
    rewrite Z.mul_1_l, Z.pow_add_r by lia.
    apply Z.mul_le_mono_nonneg_r; [apply Z.pow_nonneg; lia|exact Hlo]. }
  exists m, e. split; [exact E|]. split; [exact He|]. split; [exact Hm|]. split; [exact Hl|].
  etransitivity; [exact Hu|]. unfold scaled. rewrite Z.mul_add_distr_r.
  apply Z.add_le_mono.
  - replace (2 ^ 31 * 2 ^ (0 + 1074)) with (2 ^ (105 + e2) * 2 ^ (-74 - e2 + 1074))
      by (rewrite <- !Z.pow_add_r by lia; f_equal; lia).
    apply Z.mul_le_mono_nonneg_r; [apply Z.pow_nonneg; lia|exact Hup].
  - rewrite Z.mul_1_l. apply Z.pow_le_mono_r; lia.
Qed.

(** The exponent of a normalised number between [1] and [2^31 + 1]. *)
Lemma exponent_range m e :
  -1074 <= e -> Zpos m < 2 ^ 53 ->
  scaled 1 0 <= scaled (Zpos m) e <= scaled (2 ^ 31 + 1) 0 -> -53 <= e <= 32.
Proof.
  unfold scaled. rewrite Z.add_0_l. intros He Hm [H1 H2].
  assert (0 < 2 ^ (e + 1074)) by (apply Z.pow_pos_nonneg; lia). split.
  - assert (1074 < 53 + (e + 1074)); [|lia].
    apply (Z.pow_lt_mono_r_iff 2); [lia|lia|]. rewrite Z.pow_add_r by lia.
    eapply Z.le_lt_trans; [|apply Z.mul_lt_mono_pos_r; [exact H|exact Hm]]. lia.
  - assert (e + 1074 <= 32 + 1074); [|lia].
    apply (Z.pow_le_mono_r_iff 2); [lia|lia|]. rewrite (Z.pow_add_r 2 32) by lia.
    transitivity (Zpos m * 2 ^ (e + 1074)); [nia|].
    etransitivity; [exact H2|]. apply Z.mul_le_mono_nonneg_r; [|lia].
    apply Z.pow_nonneg. lia.
Qed.

(** [N * y] for a small integer [N] and [1 <= y <= 2^31 + 1]. *)
Lemma mul_int_bound N m e :
  1 <= N < 2 ^ 31 -> -1074 <= e -> Zpos m < 2 ^ 53 ->
  scaled 1 0 <= scaled (Zpos m) e <= scaled (2 ^ 31 + 1) 0 ->
  exists mm ee, mul (of_Z N) (S754_finite false m e) = S754_finite false mm ee /\
    -1074 <= ee /\ scaled N 0 <= scaled (Zpos mm) ee <= scaled (2 ^ 62 + 2 ^ 32) 0.
Proof.
  intros HN He Hm Hy. pose proof (exponent_range m e He Hm Hy) as Her.
  destruct (of_Z_exact N) as (m1 & e1 & E1 & Hm1 & He1 & HN1); [lia|].
  rewrite E1. unfold mul, SFmul. cbn [xorb].
  assert (scaled (Zpos (m1 * m)) (e1 + e) = N * scaled (Zpos m) e) as Hs.
  { unfold scaled. rewrite Pos2Z.inj_mul, HN1.
    replace (e + 1074) with (- e1 + (e1 + e + 1074)) by lia.
    rewrite (Z.pow_add_r 2 (- e1)) by lia. ring. }
  set (p := (m1 * m)%positive) in *. clearbody p.
  assert (scaled (Zpos p) (e1 + e) <= scaled (2 ^ 62) 0) as Hp.
  { rewrite Hs. transitivity (N * scaled (2 ^ 31 + 1) 0).
    - apply Z.mul_le_mono_nonneg_l; lia.
    - unfold scaled. rewrite Z.mul_assoc. apply Z.mul_le_mono_nonneg_r; [lia|]. nia. }
  assert (Zpos (digits2_pos p) - 1 + (e1 + e) <= 62) as Hd.
  { pose proof (digits2_pos_bound p) as [Hl _].
    assert (Zpos (digits2_pos p) - 1 + (e1 + e + 1074) <= 62 + 1074); [|lia].
    apply (Z.pow_le_mono_r_iff 2); [lia|lia|]. rewrite !Z.pow_add_r by lia.
    etransitivity; [|exact Hp]. unfold scaled.
    apply Z.mul_le_mono_nonneg_r; [apply Z.pow_nonneg; lia|exact Hl]. }
  destruct (binary_round_aux_ge p (e1 + e) loc_Exact N)
    as (mm & ee & E & Hee & _ & Hl & Hu); [lia|lia|lia| |].
  { rewrite Hs. unfold scaled in *. nia. }
  exists mm, ee. split; [exact E|]. split; [exact Hee|]. split; [exact Hl|].
  etransitivity; [exact Hu|]. unfold scaled in *. rewrite Z.mul_add_distr_r.
  apply Z.add_le_mono; [exact Hp|]. rewrite <- Z.pow_add_r by lia.
  apply Z.pow_le_mono_r; lia.
Qed.

(** Truncation follows the scaled value. *)
Lemma trunc_bound m e lo hi :
  -1074 <= e -> 0 <= lo -> scaled lo 0 <= scaled (Zpos m) e <= scaled hi 0 ->
  exists z, trunc (S754_finite false m e) = Some z /\ lo <= z <= hi.
Proof.
  unfold scaled, trunc. intros He Hlo [H1 H2]. eexists. split; [reflexivity|].
  rewrite Z.add_0_l in *.
  destruct (Z.leb_spec 0 e) as [C|C].
  - rewrite Z.pow_add_r, Z.mul_assoc in H1, H2 by lia.
    split; (apply (Z.mul_le_mono_pos_r _ _ (2 ^ 1074)); [reflexivity|assumption]).
  - assert (2 ^ 1074 = 2 ^ (- e) * 2 ^ (e + 1074)) as E
      by (rewrite <- Z.pow_add_r by lia; f_equal; lia).
    rewrite E, Z.mul_assoc in H1, H2.
    assert (0 < 2 ^ (e + 1074)) by (apply Z.pow_pos_nonneg; lia).
    assert (0 < 2 ^ (- e)) by (apply Z.pow_pos_nonneg; lia).
    apply Z.mul_le_mono_pos_r in H1, H2; try assumption.
    split; [apply Z.div_le_lower_bound | apply Z.div_le_upper_bound]; lia.
Qed.

End Double.
