(* ===== verification/JumpHash.v ===== *)
(** * Jump consistent hash ([include/util/jump_hash.h])

    The server that owns a split region is
    [JumpConsistentHash(region_id, number of server threads)].  The function
    mixes 64-bit wrap-around arithmetic with [double] arithmetic; the doubles are
    the IEEE binary64 operations of the Standard Library's [SpecFloat], rounding
    to nearest even.  The theorems give its range, its termination within
    [num_buckets + 1] rounds and the consistency property: adding a bucket moves a
    key either nowhere or to the new bucket. *)

From Stdlib Require Import ZArith Lia SpecFloat.
From stdpp Require Import base numbers list.
From S2P Require Import Prelude DoubleArith.
Open Scope Z_scope.

(** The multiplier of the linear congruential step. *)
Definition jump_multiplier : Z := 2862933555777941757.

(** [key = key * 2862933555777941757ULL + 1] *)
Definition jump_key (key : Z) : Z := u64 (key * jump_multiplier + 1).

(** [j = (b + 1) * (double(1LL << 31) / double((key >> 33) + 1))] *)
Definition jump_next (b key : Z) : option Z :=
  Double.to_int64
    (Double.mul (Double.of_Z (b + 1))
       (Double.div (Double.of_Z (Z.shiftl 1 31))
                   (Double.of_Z (Z.shiftr key 33 + 1)))).

(** The [while (j < num_buckets)] loop; [None] stands for an undefined
    conversion or for running out of [fuel]. *)
Fixpoint jump_loop (fuel : nat) (key b j num_buckets : Z) : option Z :=
  if j <? num_buckets then
    match fuel with
    | O => None
    | S fuel' =>
        let b' := j in
        let key' := jump_key key in
        match jump_next b' key' with
        | Some j' => jump_loop fuel' key' b' j' num_buckets
        | None => None
        end
    end
  else Some b.

Definition jump_fuel (num_buckets : Z) : nat := Z.to_nat (num_buckets + 1).

(** [return b] narrows the [int64_t] to [int32_t]. *)
Definition JumpConsistentHash (key num_buckets : Z) : option Z :=
  match jump_loop (jump_fuel num_buckets) key (-1) 0 num_buckets with
  | Some b => Some (i32 b)
  | None => None
  end.

(** ** One round always produces a later candidate *)

Lemma jump_next_spec b key :
  0 <= b < 2 ^ 31 - 1 -> is_u64 key ->
  exists j, jump_next b key = Some j /\ b + 1 <= j.
Proof.
  unfold is_u64, jump_next. intros Hb Hkey.
  assert (1 <= Z.shiftr key 33 + 1 <= 2 ^ 31) as Hk.
  { rewrite Z.shiftr_div_pow2 by lia.
    assert (0 <= key / 2 ^ 33 < 2 ^ 31); [|lia].
    split; [apply Z.div_pos; lia|apply Z.div_lt_upper_bound; lia]. }
  change (Z.shiftl 1 31) with (2 ^ 31).
  destruct (Double.div_pow31_bound _ Hk) as (m & e & -> & He & Hm & Hy).
  destruct (Double.mul_int_bound (b + 1) m e) as (mm & ee & -> & Hee & Hmul);
    [lia|assumption..|].
  destruct (Double.trunc_bound mm ee (b + 1) (2 ^ 62 + 2 ^ 32)) as (j & Ej & Hj);
    [assumption|lia|assumption|].
  exists j. unfold Double.to_int64. rewrite Ej.
  destruct (Z.leb_spec (- 2 ^ 63) j); [|lia].
  destruct (Z.ltb_spec j (2 ^ 63)); [|lia]. simpl. split; [reflexivity|lia].
Qed.

(** The loop returns the last candidate below [n]. *)
Lemma jump_loop_total fuel key b j n :
  n < 2 ^ 31 -> 0 <= j -> (Z.to_nat (n - j) <= fuel)%nat ->
  exists r, jump_loop fuel key b j n = Some r /\
            (j < n -> j <= r < n) /\ (n <= j -> r = b).
Proof.
  revert key b j; induction fuel as [|fuel IH]; intros key b j Hn Hj Hf;
    cbn [jump_loop]; destruct (Z.ltb_spec j n) as [C|C]; try lia.
  1, 3: exists b; repeat split; lia.
  destruct (jump_next_spec j (jump_key key)) as (j' & -> & Hj'); [lia|apply u64_range|].
  destruct (IH (jump_key key) j j') as (r & -> & H1 & H2); [lia..|].
  exists r. split; [reflexivity|]. split; [|lia]. intros _.
  destruct (Z.ltb_spec j' n); [specialize (H1 H)|specialize (H2 H)]; lia.
Qed.

(** Two runs that differ only in the number of buckets agree until the smaller
    one stops. *)
Lemma jump_loop_mono fuel fuel' key b j n n' r r' :
  n <= n' < 2 ^ 31 -> 0 <= j -> (Z.to_nat (n' - j) <= fuel')%nat ->
  jump_loop fuel key b j n = Some r -> jump_loop fuel' key b j n' = Some r' ->
  r' = r \/ n <= r'.
Proof.
  revert fuel' key b j; induction fuel as [|fuel IH];
    intros fuel' key b j Hn Hj Hf' H H'.
  all: destruct (jump_loop_total fuel' key b j n') as (q & Eq & Hq1 & Hq2); [lia..|].
  all: rewrite Eq in H'; injection H' as <-.
  all: cbn [jump_loop] in H; destruct (Z.ltb_spec j n) as [C|C]; try discriminate.
  1, 3: injection H as <-; destruct (Z.ltb_spec j n') as [D|D];
        [right; lia|left; apply Hq2; lia].
  destruct fuel' as [|fuel']; [lia|]. cbn [jump_loop] in Eq.
  destruct (Z.ltb_spec j n'); [|lia].
  destruct (jump_next_spec j (jump_key key)) as (j' & Ej & Hj'); [lia|apply u64_range|].
  rewrite Ej in *. eapply IH; [..|exact H|exact Eq]; lia.
Qed.

Lemma JumpConsistentHash_total key n :
  1 <= n < 2 ^ 31 -> exists r, jump_loop (jump_fuel n) key (-1) 0 n = Some r /\
    JumpConsistentHash key n = Some r /\ 0 <= r < n.
Proof.
  intros Hn. unfold JumpConsistentHash, jump_fuel.
  destruct (jump_loop_total (Z.to_nat (n + 1)) key (-1) 0 n) as (r & -> & Hr & _); [lia..|].
  exists r. rewrite i32_small; unfold is_i32; repeat split; lia.
Qed.

(** C21: for any key and any positive number of buckets, the jump hash returns, and
    the bucket it returns exists ([0 <= b < num_buckets]). *)
Theorem JumpConsistentHash_range key num_buckets :
  1 <= num_buckets < 2 ^ 31 ->
  exists b, JumpConsistentHash key num_buckets = Some b /\ 0 <= b < num_buckets.
Proof. intros H. destruct (JumpConsistentHash_total key _ H) as (r & _ & E & Hr). eauto. Qed.

Lemma JumpConsistentHash_range_witness :
  exists b, JumpConsistentHash 12345 10 = Some b /\ 0 <= b < 10.
Proof. apply (JumpConsistentHash_range 12345 10). lia. Defined.

(** C22: consistency. When the number of buckets grows from [n] to [n'], a key
    stays in its bucket or moves to one of the new ones ([n <= b']); it is never
    moved between old buckets. *)
Theorem JumpConsistentHash_consistent key n n' :
  1 <= n -> n <= n' < 2 ^ 31 ->
  exists b b', JumpConsistentHash key n = Some b /\
               JumpConsistentHash key n' = Some b' /\
               (b' = b \/ n <= b' < n').
Proof.
  intros Hn Hn'.
  destruct (JumpConsistentHash_total key n) as (r & Er & E & Hr); [lia|].
  destruct (JumpConsistentHash_total key n') as (r' & Er' & E' & Hr'); [lia|].
  exists r, r'. split; [exact E|]. split; [exact E'|].
  destruct (jump_loop_mono (jump_fuel n) (jump_fuel n') key (-1) 0 n n' r r' Hn') as [H|H];
    [lia|unfold jump_fuel; lia|exact Er|exact Er'|left; exact H|right; lia].
Qed.

Lemma JumpConsistentHash_consistent_witness :
  exists b b', JumpConsistentHash 12345 10 = Some b /\
               JumpConsistentHash 12345 1000 = Some b' /\
               (b' = b \/ 10 <= b' < 1000).
Proof. apply (JumpConsistentHash_consistent 12345 10 1000); lia. Defined.
