(* ===== verification/Types.v ===== *)
(** * Shared data types

    [include/common/fs.h], [include/common/region.h] and the status and response
    codes of [include/rpc/rpc_common.h] and [include/server/region_and_log.h]:
    inode numbers, stat records, region keys, the server-side and client-side
    region records and the inode bit layout of
    [include/server/metafs_server.h]. *)

From Stdlib Require Import ZArith Lia.
From stdpp Require Import base numbers list gmap.
From S2P Require Import Prelude.
Open Scope Z_scope.

(** ** [common/fs.h] *)

Definition METAFS_MAX_FNAME_LEN : Z := 128.
Definition METAFS_MAGIC : Z := 0x19990627.
Definition METAFS_BLK_SIZE : Z := 40960.
Definition START_FD : Z := 10000.

(** [sizeof(metafs_inode_t)] *)
Definition metafs_inode_size : Z := 8.

Definition fs_root_inode : Z := Z.shiftl 1 (metafs_inode_size * 8 - 1).

(** The most significant bit of an inode tells directories from files. *)
Definition inode_prefix_msb : Z := Z.shiftl 1 (metafs_inode_size * 8 - 1).

Record oid_t := { lo : Z; hi : Z }.

Record metafs_stat_t := {
  oid : oid_t;
  mode : Z;
  mtime : Z;
  ctime : Z;
  atime : Z
}.

(** [metafs_stat_t(mode)]: the [gettimeofday] call is commented out, so the three
    times are the uninitialised [tv.tv_sec], here the argument [tv_sec]. *)
Definition stat_of_mode (tv_sec m : Z) : metafs_stat_t :=
  {| oid := {| lo := 0; hi := 0 |}; mode := m;
     mtime := tv_sec; ctime := tv_sec; atime := tv_sec |}.

(** [metafs_stat_t(oid, mode)], with the same uninitialised times. *)
Definition stat_of_oid_mode (tv_sec : Z) (o : oid_t) (m : Z) : metafs_stat_t :=
  {| oid := o; mode := m; mtime := tv_sec; ctime := tv_sec; atime := tv_sec |}.

(** [sizeof(metafs_stat_t)]: 16 + 4 + 4 (padding) + 3 * 8. *)
Definition metafs_stat_size : Z := 48.

#[export] Instance oid_t_eq_dec : EqDecision oid_t.
Proof. solve_decision. Defined.

#[export] Instance metafs_stat_t_eq_dec : EqDecision metafs_stat_t.
Proof. solve_decision. Defined.

(** ** [server/metafs_server.h]: the inode layout *)

(** The second most significant bit marks a PUT record of the region log. *)
Definition inode_prefix_ssb : Z := Z.shiftl 1 (metafs_inode_size * 8 - 2).

Definition is_directory (inode : Z) : bool :=
  negb (Z.land inode inode_prefix_msb =? 0).

(** [init_alloc_inode]: the first inode a server thread hands out.  [id << 8] is
    an [int], the disjunction with the [size_t] thread id is 64 bits wide. *)
Definition init_alloc_inode (id thread_id : Z) : Z :=
  u64 (u64 (Z.shiftl (Z.lor (u64 (i32 (Z.shiftl id 8))) thread_id)
                     (metafs_inode_size * 8 - 24)) + 1).

(** ** [common/region.h] *)

Definition PINODE_HASH_RANGE : Z := 1024.
Definition FNAME_HASH_RANGE : Z := 1024.

Definition region_split_threshold : Z := 200000.

Record RegionKey := { key_hi : Z; key_low : Z }.

(** [RegionKey(low, high)] *)
Definition mk_RegionKey (low high : Z) : RegionKey :=
  {| key_hi := u64 high; key_low := u64 low |}.

Inductive RegionStatus :=
  | Normal
  | ToBeSplit
  | IsSplit
  | SplitAlmostDone
  | NotReady.

#[export] Instance RegionStatus_eq_dec : EqDecision RegionStatus.
Proof. solve_decision. Defined.

#[export] Instance RegionKey_eq_dec : EqDecision RegionKey.
Proof. solve_decision. Defined.

Record ServerRegion := {
  region_id : Z;
  left_region_id : Z;
  start_key : RegionKey;
  end_key : RegionKey;
  kv_num : Z;
  log_id : Z;
  region_status : RegionStatus
}.

(** [ServerRegion(region_id, start_key, end_key)] *)
Definition new_ServerRegion (rid : Z) (s e : RegionKey) : ServerRegion :=
  {| region_id := rid; left_region_id := 0; start_key := s; end_key := e;
     kv_num := 0; log_id := 0; region_status := Normal |}.

Record ClientRegion := {
  c_region_id : Z;
  c_start_key : RegionKey;
  c_end_key : RegionKey
}.

#[export] Instance ClientRegion_eq_dec : EqDecision ClientRegion.
Proof. solve_decision. Defined.

#[export] Instance ServerRegion_eq_dec : EqDecision ServerRegion.
Proof. solve_decision. Defined.

(** Field assignments. *)
Definition set_kv_num (n : Z) (r : ServerRegion) : ServerRegion :=
  {| region_id := region_id r; left_region_id := left_region_id r;
     start_key := start_key r; end_key := end_key r;
     kv_num := n; log_id := log_id r; region_status := region_status r |}.

Definition set_log_id (n : Z) (r : ServerRegion) : ServerRegion :=
  {| region_id := region_id r; left_region_id := left_region_id r;
     start_key := start_key r; end_key := end_key r;
     kv_num := kv_num r; log_id := n; region_status := region_status r |}.

Definition set_region_status (st : RegionStatus) (r : ServerRegion) : ServerRegion :=
  {| region_id := region_id r; left_region_id := left_region_id r;
     start_key := start_key r; end_key := end_key r;
     kv_num := kv_num r; log_id := log_id r; region_status := st |}.

Definition set_left_region_id (n : Z) (r : ServerRegion) : ServerRegion :=
  {| region_id := region_id r; left_region_id := n;
     start_key := start_key r; end_key := end_key r;
     kv_num := kv_num r; log_id := log_id r; region_status := region_status r |}.

Definition set_end_key (k : RegionKey) (r : ServerRegion) : ServerRegion :=
  {| region_id := region_id r; left_region_id := left_region_id r;
     start_key := start_key r; end_key := k;
     kv_num := kv_num r; log_id := log_id r; region_status := region_status r |}.

(** ** Response codes, log statuses and the statuses of the store *)

(** [RespType] of [rpc/rpc_common.h]. *)
Inductive RespType :=
  | kSuccess
  | kFail
  | kEXIST
  | kENOENT
  | kEIO
  | kENOTDIR
  | kEISDIR
  | kEBUSY
  | kUpdateRegionMap.

#[export] Instance RespType_eq_dec : EqDecision RespType.
Proof. solve_decision. Defined.

(** [LogStatus] of [server/region_and_log.h]. *)
Inductive LogStatus :=
  | FarToDone
  | AlmostDone
  | LogDone.

#[export] Instance LogStatus_eq_dec : EqDecision LogStatus.
Proof. solve_decision. Defined.

(** [MSG_ENTEY_MAX_SIZE] and [MAX_MSG_BUF_WINDOW] of [rpc/rpc_common.h]. *)
Definition MSG_ENTEY_MAX_SIZE : Z := 3712.
Definition MAX_MSG_BUF_WINDOW : Z := 8.

(** ** The inode layout *)

Lemma is_directory_testbit inode : is_directory inode = Z.testbit inode 63.
Proof.
  unfold is_directory. change inode_prefix_msb with (2 ^ 63).
  destruct (Z.testbit inode 63) eqn:E.
  - apply negb_true_iff, Z.eqb_neq. intros H.
    apply (f_equal (fun z => Z.testbit z 63)) in H.
    rewrite Z.land_spec, E, Z.pow2_bits_true, Z.bits_0 in H by lia. discriminate.
  - apply negb_false_iff, Z.eqb_eq, Z.bits_inj_iff. intros n.
    rewrite Z.land_spec, Z.bits_0. destruct (Z.eq_dec n 63) as [->|Hn].
    + rewrite E. reflexivity.
    + rewrite Z.pow2_bits_false by lia. apply andb_false_r.
Qed.

Lemma is_directory_small inode : 0 <= inode < 2 ^ 63 -> is_directory inode = false.
Proof.
  intros H. rewrite is_directory_testbit.
  destruct (Z.eq_dec inode 0) as [->|]; [reflexivity|].
  apply Z.bits_above_log2; [lia|]. apply Z.log2_lt_pow2; lia.
Qed.

Lemma is_directory_msb inode : is_directory (Z.lor inode inode_prefix_msb) = true.
Proof.
  rewrite is_directory_testbit, Z.lor_spec.
  change inode_prefix_msb with (2 ^ 63). rewrite Z.pow2_bits_true by lia.
  apply orb_true_r.
Qed.

(** The first inode of server [id], thread [thread_id]: both numbers are readable
    from the bits above the 40-bit counter. *)
Lemma init_alloc_inode_value id thread_id :
  0 <= id < 256 -> 0 <= thread_id < 256 ->
  init_alloc_inode id thread_id = (id * 256 + thread_id) * 2 ^ 40 + 1.
Proof.
  intros Hi Ht. unfold init_alloc_inode, metafs_inode_size.
  change (8 * 8 - 24) with 40.
  assert (Z.lor (Z.shiftl id 8) thread_id = id * 256 + thread_id) as E.
  { rewrite Z.shiftl_mul_pow2 by lia. change (2 ^ 8) with 256.
    rewrite <- Z.lxor_lor, <- Z.add_nocarry_lxor; try reflexivity.
    all: apply Z.bits_inj_iff'; intros n Hn; rewrite Z.land_spec, Z.bits_0.
    all: change 256 with (2 ^ 8); rewrite Z.mul_pow2_bits by lia.
    all: destruct (Z.ltb_spec n 8) as [C|C];
      [rewrite (Z.testbit_neg_r id) by lia; reflexivity|].
    all: destruct (Z.eq_dec thread_id 0) as [->|];
      [rewrite Z.bits_0; apply andb_false_r|].
    all: rewrite (Z.bits_above_log2 thread_id n);
      [apply andb_false_r|lia|].
    all: apply Z.lt_le_trans with 8; [apply Z.log2_lt_pow2; lia|lia]. }
  assert (0 <= Z.shiftl id 8 < 2 ^ 16) as Hs by (rewrite Z.shiftl_mul_pow2; lia).
  rewrite (i32_small (Z.shiftl id 8)), (u64_small (Z.shiftl id 8)), E,
    Z.shiftl_mul_pow2 by (unfold is_i32, is_u64; lia).
  rewrite !u64_small; unfold is_u64; rewrite ?u64_small; unfold is_u64; lia.
Qed.
