(* ===== verification/XXHash.v ===== *)
(** * The XXH3 hash of an inode number ([thirdparty/xxHash/xxhash.h])

    Both client and server place a directory by
    [XXH3_64bits(&pinode, 8) % PINODE_HASH_RANGE].  Inputs are always the eight
    bytes of an inode, so only the 4-to-8-byte path of XXH3 with seed 0 is
    modelled.  [pinode_hash] is the placement function of the whole system. *)

From Stdlib Require Import ZArith Lia.
From stdpp Require Import base numbers list.
From S2P Require Import Prelude Types.
Open Scope Z_scope.

(** The first 24 bytes of [XXH3_kSecret]. *)
Definition XXH3_kSecret : bytes :=
  [0xb8; 0xfe; 0x6c; 0x39; 0x23; 0xa4; 0x4b; 0xbe;
   0x7c; 0x01; 0x81; 0x2c; 0xf7; 0x21; 0xad; 0x1c;
   0xde; 0xd4; 0x6d; 0xe9; 0x83; 0x90; 0x97; 0xdb].

Definition XXH_readLE32 (p : bytes) (off : nat) : Z := le_value (take 4 (drop off p)).
Definition XXH_readLE64 (p : bytes) (off : nat) : Z := le_value (take 8 (drop off p)).

Definition XXH_rotl64 (x r : Z) : Z :=
  Z.lor (u64 (Z.shiftl x r)) (Z.shiftr x (64 - r)).

Definition XXH_xorshift64 (v64 shift : Z) : Z := Z.lxor v64 (Z.shiftr v64 shift).

Definition XXH3_rrmxmx (h64 len : Z) : Z :=
  let h64 := Z.lxor h64 (Z.lxor (XXH_rotl64 h64 49) (XXH_rotl64 h64 24)) in
  let h64 := u64 (h64 * 0x9FB21C651E98DF25) in
  let h64 := Z.lxor h64 (u64 (Z.shiftr h64 35 + len)) in
  let h64 := u64 (h64 * 0x9FB21C651E98DF25) in
  XXH_xorshift64 h64 28.

(** [XXH3_len_4to8_64b] with [seed = 0]: the seed mixing is the identity. *)
Definition XXH3_len_4to8_64b (input : bytes) (len : nat) (secret : bytes) : Z :=
  let input1 := XXH_readLE32 input 0 in
  let input2 := XXH_readLE32 input (len - 4) in
  let bitflip := Z.lxor (XXH_readLE64 secret 8) (XXH_readLE64 secret 16) in
  let input64 := u64 (input2 + u64 (Z.shiftl input1 32)) in
  let keyed := Z.lxor input64 bitflip in
  XXH3_rrmxmx keyed (Z.of_nat len).

(** [XXH3_64bits((void* )&inode, metafs_inode_size)] *)
Definition XXH3_64bits (inode : Z) : Z :=
  XXH3_len_4to8_64b (le_bytes 8 inode) 8 XXH3_kSecret.

(** [XXH3_64bits(&pinode, metafs_inode_size) % PINODE_HASH_RANGE] *)
Definition pinode_hash (pinode : Z) : Z := XXH3_64bits pinode mod PINODE_HASH_RANGE.

Lemma pinode_hash_range pinode : 0 <= pinode_hash pinode < PINODE_HASH_RANGE.
Proof. unfold pinode_hash. apply Z.mod_pos_bound. reflexivity. Qed.

#[export] Hint Resolve pinode_hash_range : metafs.
