(* ===== verification/Stores.v ===== *)
(** * The two storage engines a server thread uses

    MetaKV ([metakv/include/metadb.h], not part of the repository) holds the two
    tables [pinode + fname -> inode] and [inode -> stat]; RocksDB holds the region
    log.  Both are parameters of the development: a class of operations with the
    signatures the handlers call, and a class of laws that states what the handlers
    rely on.  [MapDb] and [SortedLog] are concrete engines that satisfy the laws;
    they are used to run the model on concrete inputs. *)

From Stdlib Require Import ZArith Lia.
From stdpp Require Import base numbers list gmap sorting.
From S2P Require Import Prelude Types.
Open Scope Z_scope.

(** ** Statuses of MetaKV *)

(** The values named by [convert_status_to_resptype]; [OtherStatus] stands for
    any other one. *)
Inductive MetaKvStatus :=
  | OK
  | INSERT_OK
  | UPDATE_OK
  | KEY_ALREADY_EXIST
  | VALUE_NOT_EQUAL
  | NEWER_UPDATE
  | KEY_NOT_EXIST
  | NO_ENOUGH_SPACE
  | UN_COMPLETED
  | UNKNOWN_ERR
  | OtherStatus.

#[export] Instance MetaKvStatus_eq_dec : EqDecision MetaKvStatus.
Proof. solve_decision. Defined.

(** [check_status_ok] of [server/metafs_server.h]. *)
Definition check_status_ok (status : MetaKvStatus) : bool :=
  match status with
  | OK | INSERT_OK | UPDATE_OK => true
  | _ => false
  end.

(** [convert_status_to_resptype] of [server/server_handler.cc]. *)
Definition convert_status_to_resptype {S : Type} (status : MetaKvStatus) : M S RespType :=
  match status with
  | OK | INSERT_OK | UPDATE_OK => ret kSuccess
  | KEY_ALREADY_EXIST => ret kEXIST
  | VALUE_NOT_EQUAL | NEWER_UPDATE | KEY_NOT_EXIST | NO_ENOUGH_SPACE
  | UN_COMPLETED | UNKNOWN_ERR => ret kENOENT
  | OtherStatus => raise AssertFailed
  end.

(** ** The buffer [ReadDir] returns *)

(** [struct LogScanHeader] (four 64-bit words) followed by the entries. *)
Record ReadDirBuf := {
  new_offset : Z;
  rd_uncomplete : Z;
  rel_count : Z;
  rel_len : Z;
  payload : bytes
}.

(** One entry: pinode, file name with its NUL, inode. *)
Definition dirent_bytes (pinode : Z) (e : bytes * Z) : bytes :=
  le_bytes 8 pinode ++ fst e ++ le_bytes 8 (snd e).

Definition dirents_bytes (pinode : Z) (es : list (bytes * Z)) : bytes :=
  concat (map (dirent_bytes pinode) es).

(** ** MetaKV *)

(** Output parameters are returned; an operation also takes the previous value of
    an output parameter it may leave alone. *)
Class MetaKV := {
  MetaDb : Type;
  GetFileInode : MetaDb -> Z -> bytes -> Z -> MetaKvStatus * Z;
  InsertFileInode : MetaDb -> Z -> bytes -> Z -> MetaKvStatus * MetaDb;
  DeleteFileInode : MetaDb -> Z -> bytes -> Z -> MetaKvStatus * Z * MetaDb;
  GetStat : MetaDb -> Z -> metafs_stat_t -> MetaKvStatus * metafs_stat_t;
  InsertStat : MetaDb -> Z -> metafs_stat_t -> MetaKvStatus * MetaDb;
  UpdateStat : MetaDb -> Z -> metafs_stat_t -> MetaKvStatus * MetaDb;
  DeleteStat : MetaDb -> Z -> MetaKvStatus * MetaDb;
  ReadDir : MetaDb -> Z -> Z -> Z -> MetaKvStatus * option ReadDirBuf
}.

(** What the server relies on.  [room db n] says that the pool has free space for [n]
    more writes: an insertion may answer [NO_ENOUGH_SPACE], and then changes nothing,
    only when there is no room for one, and each write uses up at most one.
    [cursor db p off] is the number of entries of directory [p] already returned
    when a scan has reached offset [off]. *)
Class MetaKVLaws (KV : MetaKV) := {
  dents : MetaDb -> gmap (Z * bytes) Z;
  stats : MetaDb -> gmap Z metafs_stat_t;
  room : MetaDb -> nat -> Prop;
  dir_list : MetaDb -> Z -> list (bytes * Z);
  cursor : MetaDb -> Z -> Z -> nat;

  GetFileInode_found db p f i i0 :
    dents db !! (p, f) = Some i -> GetFileInode db p f i0 = (OK, i);
  GetFileInode_missing db p f i0 :
    dents db !! (p, f) = None -> fst (GetFileInode db p f i0) = KEY_NOT_EXIST;

  InsertFileInode_exists db p f i j :
    dents db !! (p, f) = Some j ->
    exists db', InsertFileInode db p f i = (KEY_ALREADY_EXIST, db') /\
      dents db' = dents db /\ stats db' = stats db;
  InsertFileInode_fresh db p f i :
    dents db !! (p, f) = None ->
    exists st db', InsertFileInode db p f i = (st, db') /\
      (st = INSERT_OK /\ dents db' = <[(p, f) := i]> (dents db) \/
       ~ room db 1 /\ st = NO_ENOUGH_SPACE /\ dents db' = dents db) /\
      stats db' = stats db;

  DeleteFileInode_found db p f i i0 :
    dents db !! (p, f) = Some i ->
    exists db', DeleteFileInode db p f i0 = (OK, i, db') /\
      dents db' = delete (p, f) (dents db) /\ stats db' = stats db;
  DeleteFileInode_missing db p f i0 :
    dents db !! (p, f) = None ->
    exists i db', DeleteFileInode db p f i0 = (KEY_NOT_EXIST, i, db') /\
      dents db' = dents db /\ stats db' = stats db;

  GetStat_found db i s s0 :
    stats db !! i = Some s -> GetStat db i s0 = (OK, s);
  GetStat_missing db i s0 :
    stats db !! i = None -> fst (GetStat db i s0) = KEY_NOT_EXIST;

  InsertStat_fresh db i s :
    stats db !! i = None ->
    exists st db', InsertStat db i s = (st, db') /\
      (st = INSERT_OK /\ stats db' = <[i := s]> (stats db) \/
       ~ room db 1 /\ st = NO_ENOUGH_SPACE /\ stats db' = stats db) /\
      dents db' = dents db;
  InsertStat_exists db i s s1 :
    stats db !! i = Some s1 ->
    exists db', InsertStat db i s = (KEY_ALREADY_EXIST, db') /\
      stats db' = stats db /\ dents db' = dents db;

  UpdateStat_found db i s s1 :
    stats db !! i = Some s1 ->
    exists db', UpdateStat db i s = (UPDATE_OK, db') /\
      stats db' = <[i := s]> (stats db) /\ dents db' = dents db;

  DeleteStat_found db i s :
    stats db !! i = Some s ->
    exists db', DeleteStat db i = (OK, db') /\
      stats db' = delete i (stats db) /\ dents db' = dents db;
  DeleteStat_missing db i :
    stats db !! i = None ->
    exists db', DeleteStat db i = (KEY_NOT_EXIST, db') /\
      stats db' = stats db /\ dents db' = dents db;

  room_le db n m : (n <= m)%nat -> room db m -> room db n;
  InsertFileInode_room db p f i n : room db (S n) -> room (snd (InsertFileInode db p f i)) n;
  DeleteFileInode_room db p f i n : room db (S n) -> room (snd (DeleteFileInode db p f i)) n;
  InsertStat_room db i s n : room db (S n) -> room (snd (InsertStat db i s)) n;
  UpdateStat_room db i s n : room db (S n) -> room (snd (UpdateStat db i s)) n;
  DeleteStat_room db i n : room db (S n) -> room (snd (DeleteStat db i)) n;

  dir_list_spec db p f i :
    (f, i) ∈ dir_list db p <-> dents db !! (p, f) = Some i;
  dir_list_NoDup db p : NoDup (dir_list db p);
  cursor_start db p : cursor db p 0 = 0%nat;
  ReadDir_end db p off max :
    (length (dir_list db p) <= cursor db p off)%nat ->
    exists st, ReadDir db p off max = (st, None) /\ check_status_ok st = false;
  ReadDir_chunk db p off max :
    (cursor db p off < length (dir_list db p))%nat ->
    Forall (fun e => Z.of_nat (length (dirent_bytes p e)) <= max) (dir_list db p) ->
    exists b (n : nat),
      ReadDir db p off max = (OK, Some b) /\ (1 <= n)%nat /\
      (cursor db p off + n <= length (dir_list db p))%nat /\
      rel_count b = Z.of_nat n /\
      payload b = dirents_bytes p (take n (drop (cursor db p off) (dir_list db p))) /\
      Z.of_nat (length (payload b)) <= max /\
      rel_len b = 32 + Z.of_nat (length (payload b)) /\
      rd_uncomplete b
        = (if (cursor db p off + n <? length (dir_list db p))%nat then 1 else 0) /\
      cursor db p (new_offset b) = (cursor db p off + n)%nat /\
      (Z.of_nat (length (dir_list db p)) < 2 ^ 64 -> is_u64 (new_offset b))
}.

(** ** A concrete engine over finite maps *)

(** A pool of finite size: [free] more insertions fit. *)
Module MapDb.

Record db := mk { d : gmap (Z * bytes) Z; s : gmap Z metafs_stat_t; free : N }.

Definition empty : db := mk ∅ ∅ 100000.

Definition get_file_inode (x : db) (p : Z) (f : bytes) (i0 : Z) : MetaKvStatus * Z :=
  match d x !! (p, f) with
  | Some i => (OK, i)
  | None => (KEY_NOT_EXIST, i0)
  end.

Definition insert_file_inode (x : db) (p : Z) (f : bytes) (i : Z) : MetaKvStatus * db :=
  match d x !! (p, f) with
  | Some _ => (KEY_ALREADY_EXIST, x)
  | None =>
      if (free x =? 0)%N then (NO_ENOUGH_SPACE, x)
      else (INSERT_OK, mk (<[(p, f) := i]> (d x)) (s x) (N.pred (free x)))
  end.

Definition delete_file_inode (x : db) (p : Z) (f : bytes) (i0 : Z)
  : MetaKvStatus * Z * db :=
  match d x !! (p, f) with
  | Some i => (OK, i, mk (delete (p, f) (d x)) (s x) (free x))
  | None => (KEY_NOT_EXIST, i0, x)
  end.

Definition get_stat (x : db) (i : Z) (s0 : metafs_stat_t) : MetaKvStatus * metafs_stat_t :=
  match s x !! i with
  | Some st => (OK, st)
  | None => (KEY_NOT_EXIST, s0)
  end.

Definition insert_stat (x : db) (i : Z) (st : metafs_stat_t) : MetaKvStatus * db :=
  match s x !! i with
  | Some _ => (KEY_ALREADY_EXIST, x)
  | None =>
      if (free x =? 0)%N then (NO_ENOUGH_SPACE, x)
      else (INSERT_OK, mk (d x) (<[i := st]> (s x)) (N.pred (free x)))
  end.

Definition update_stat (x : db) (i : Z) (st : metafs_stat_t) : MetaKvStatus * db :=
  match s x !! i with
  | Some _ => (UPDATE_OK, mk (d x) (<[i := st]> (s x)) (free x))
  | None => (KEY_NOT_EXIST, x)
  end.

Definition delete_stat (x : db) (i : Z) : MetaKvStatus * db :=
  match s x !! i with
  | Some _ => (OK, mk (d x) (delete i (s x)) (free x))
  | None => (KEY_NOT_EXIST, x)
  end.

(** The entries of a directory, in the map's enumeration order. *)
Definition entries (x : db) (p : Z) : list (bytes * Z) :=
  omap (fun '(k, i) => if Z.eqb (fst k) p then Some (snd k, i) else None)
       (map_to_list (d x)).

(** One entry per call, if it fits; the offset is the index of the next entry. *)
Definition read_dir (x : db) (p off max : Z) : MetaKvStatus * option ReadDirBuf :=
  match drop (Z.to_nat off) (entries x p) with
  | [] => (KEY_NOT_EXIST, None)
  | e :: rest =>
      if Z.of_nat (length (dirents_bytes p [e])) <=? max then
        (OK, Some {| new_offset := Z.of_nat (S (Z.to_nat off));
                     rd_uncomplete := match rest with [] => 0 | _ => 1 end;
                     rel_count := 1;
                     rel_len := 32 + Z.of_nat (length (dirents_bytes p [e]));
                     payload := dirents_bytes p [e] |})
      else (OtherStatus, None)
  end.

#[export] Instance kv : MetaKV := {|
  MetaDb := db;
  GetFileInode := get_file_inode;
  InsertFileInode := insert_file_inode;
  DeleteFileInode := delete_file_inode;
  GetStat := get_stat;
  InsertStat := insert_stat;
  UpdateStat := update_stat;
  DeleteStat := delete_stat;
  ReadDir := read_dir
|}.

Lemma entries_spec x p f i : (f, i) ∈ entries x p <-> d x !! (p, f) = Some i.
Proof.
  unfold entries. rewrite list_elem_of_omap. split.
  - intros ([[p' f'] i'] & Hin & H). cbn in H.
    destruct (Z.eqb_spec p' p) as [->|]; [|discriminate].
    injection H as -> ->. apply elem_of_map_to_list in Hin. exact Hin.
  - intros H. exists ((p, f), i). split; [apply elem_of_map_to_list; exact H|].
    cbn. rewrite Z.eqb_refl. reflexivity.
Qed.

Lemma entries_NoDup x p : NoDup (entries x p).
Proof.
  unfold entries. apply NoDup_omap_inj; [|apply NoDup_map_to_list].
  intros [[p1 f1] i1] [[p2 f2] i2] [f i]; cbn.
  destruct (Z.eqb_spec p1 p) as [->|]; [|discriminate].
  destruct (Z.eqb_spec p2 p) as [->|]; [|discriminate]. congruence.
Qed.

#[export] Instance laws : MetaKVLaws kv.
Proof.
  refine {| dents := d : @MetaDb kv -> _; stats := s : @MetaDb kv -> _;
            room := fun x n => (n <= N.to_nat (free x))%nat : Prop; dir_list := entries : @MetaDb kv -> _;
            cursor := fun _ _ off => Z.to_nat off |}; cbn.
  - intros x p f i i0 H. unfold get_file_inode. rewrite H. reflexivity.
  - intros x p f i0 H. unfold get_file_inode. rewrite H. reflexivity.
  - intros x p f i j H. unfold insert_file_inode. rewrite H. eauto.
  - intros x p f i H. unfold insert_file_inode. rewrite H.
    destruct (N.eqb_spec (free x) 0) as [E|E]; eexists _, _; (split; [reflexivity|]); split; auto.
    right. rewrite E. split; [cbn; lia|auto].
  - intros x p f i i0 H. unfold delete_file_inode. rewrite H. eauto.
  - intros x p f i0 H. unfold delete_file_inode. rewrite H. eauto.
  - intros x i st s0 H. unfold get_stat. rewrite H. reflexivity.
  - intros x i s0 H. unfold get_stat. rewrite H. reflexivity.
  - intros x i st H. unfold insert_stat. rewrite H.
    destruct (N.eqb_spec (free x) 0) as [E|E]; eexists _, _; (split; [reflexivity|]); split; auto.
    right. rewrite E. split; [cbn; lia|auto].
  - intros x i st s1 H. unfold insert_stat. rewrite H. eauto.
  - intros x i st s1 H. unfold update_stat. rewrite H. eauto.
  - intros x i st H. unfold delete_stat. rewrite H. eauto.
  - intros x i H. unfold delete_stat. rewrite H. eauto.
  - intros x n m Hle H. lia.
  - intros x p f i n H. unfold insert_file_inode.
    destruct (d x !! _), (N.eqb_spec (free x) 0); cbn; lia.
  - intros x p f i n H. unfold delete_file_inode. destruct (d x !! _); cbn; lia.
  - intros x i st n H. unfold insert_stat. destruct (s x !! _), (N.eqb_spec (free x) 0); cbn; lia.
  - intros x i st n H. unfold update_stat. destruct (s x !! _); cbn; lia.
  - intros x i n H. unfold delete_stat. destruct (s x !! _); cbn; lia.
  - apply entries_spec.
  - apply entries_NoDup.
  - reflexivity.
  - intros x p off max H. unfold read_dir. rewrite drop_ge by exact H. eauto.
  - intros x p off max Hlt Hfit. unfold read_dir.
    destruct (drop (Z.to_nat off) (entries x p)) as [|e rest] eqn:E.
    { apply (f_equal length) in E. rewrite length_drop in E. simpl in E. lia. }
    assert (length (entries x p) = (Z.to_nat off + S (length rest))%nat) as Hlen.
    { apply (f_equal length) in E. rewrite length_drop in E. simpl in E. lia. }
    assert (Z.of_nat (length (dirents_bytes p [e])) <= max) as Hmax.
    { unfold dirents_bytes. cbn. rewrite app_nil_r. rewrite Forall_forall in Hfit. apply (Hfit e).
      apply list_elem_of_lookup. exists (Z.to_nat off).
      rewrite <- (Nat.add_0_r (Z.to_nat off)), <- lookup_drop, E. reflexivity. }
    rewrite (proj2 (Z.leb_le _ _) Hmax).
    eexists _, 1%nat. split; [reflexivity|]. cbn [rel_count payload rel_len rd_uncomplete new_offset].
    unfold is_u64. repeat split; try lia.
    + rewrite Hlen, Nat.add_succ_r.
      destruct (Nat.leb_spec (Z.to_nat off + 1) (Z.to_nat off + length rest));
        destruct rest; simpl in *; try reflexivity; lia.
Defined.

End MapDb.

(** ** RocksDB as the region log *)

(** RocksDB's default comparator: lexicographic on unsigned bytes. *)
Fixpoint bytes_leb (a b : bytes) : bool :=
  match a, b with
  | [], _ => true
  | _ :: _, [] => false
  | x :: a', y :: b' => if Z.eqb x y then bytes_leb a' b' else Z.ltb x y
  end.

Definition bytes_le (a b : bytes) : Prop := bytes_leb a b = true.

#[export] Instance bytes_le_dec : RelDecision bytes_le.
Proof. intros a b. unfold bytes_le. apply _. Defined.

(** [Put] and the iteration [Seek(k); Valid(); Next()], which lists the records
    whose key is not below [k]. *)
Class RocksDB := {
  LogDB : Type;
  rocks_put : LogDB -> bytes -> bytes -> bool * LogDB;
  rocks_scan : LogDB -> bytes -> list (bytes * bytes)
}.

Class RocksDBLaws (R : RocksDB) := {
  records : LogDB -> list (bytes * bytes);
  records_sorted db : StronglySorted bytes_le (map fst (records db));
  records_NoDup db : NoDup (map fst (records db));
  rocks_put_ok db k v :
    exists db', rocks_put db k v = (true, db') /\
      (list_to_map (records db') : gmap bytes bytes)
        = <[k := v]> (list_to_map (records db));
  rocks_scan_spec db k :
    rocks_scan db k = filter (fun e => bytes_le k (fst e)) (records db)
}.

Lemma bytes_le_refl a : bytes_le a a.
Proof.
  unfold bytes_le. induction a as [|x a IH]; simpl; [reflexivity|].
  rewrite Z.eqb_refl. exact IH.
Qed.

Lemma bytes_le_antisym a b : bytes_le a b -> bytes_le b a -> a = b.
Proof.
  unfold bytes_le. revert b; induction a as [|x a IH]; intros [|y b]; simpl;
    try discriminate; [reflexivity|].
  rewrite (Z.eqb_sym y x). destruct (Z.eqb_spec x y) as [->|Hxy].
  - intros H1 H2. rewrite (IH b); auto.
  - intros H1 H2. zbool. lia.
Qed.

Lemma bytes_le_trans a b c : bytes_le a b -> bytes_le b c -> bytes_le a c.
Proof.
  unfold bytes_le. revert b c; induction a as [|x a IH]; intros [|y b] [|z c];
    simpl; try discriminate; try reflexivity.
  destruct (Z.eqb_spec x y) as [->|Hxy], (Z.eqb_spec y z) as [->|Hyz].
  - apply IH.
  - auto.
  - intros H _. destruct (Z.eqb_spec x z) as [->|]; [|exact H]. zbool. lia.
  - intros H1 H2. zbool. destruct (Z.eqb_spec x z); [lia|]. apply Z.ltb_lt. lia.
Qed.

Lemma bytes_le_total a b : bytes_le a b \/ bytes_le b a.
Proof.
  unfold bytes_le. revert b; induction a as [|x a IH]; intros [|y b]; simpl; auto.
  rewrite (Z.eqb_sym y x). destruct (Z.eqb_spec x y) as [->|]; [apply IH|].
  destruct (Z.ltb_spec x y); [auto|]. right. apply Z.ltb_lt. lia.
Qed.

(** ** A concrete log: a list sorted by key *)

Module SortedLog.

Fixpoint put_sorted (k v : bytes) (l : list (bytes * bytes)) : list (bytes * bytes) :=
  match l with
  | [] => [(k, v)]
  | (k', v') :: l' =>
      if decide (k = k') then (k, v) :: l'
      else if bytes_leb k k' then (k, v) :: (k', v') :: l'
      else (k', v') :: put_sorted k v l'
  end.

Record log := mk {
  recs : list (bytes * bytes);
  recs_sorted : StronglySorted bytes_le (map fst recs);
  recs_NoDup : NoDup (map fst recs)
}.

Lemma elem_of_put_sorted k v l x :
  x ∈ map fst (put_sorted k v l) <-> x = k \/ x ∈ map fst l.
Proof.
  induction l as [|[k' v'] l IH]; cbn [put_sorted map fst].
  { rewrite list_elem_of_singleton, elem_of_nil. naive_solver. }
  destruct (decide (k = k')) as [->|Hk]; cbn [map fst].
  { rewrite !elem_of_cons. naive_solver. }
  destruct (bytes_leb k k'); cbn [map fst]; rewrite !elem_of_cons; [naive_solver|].
  rewrite IH. naive_solver.
Qed.

Lemma put_sorted_sorted k v l :
  StronglySorted bytes_le (map fst l) -> StronglySorted bytes_le (map fst (put_sorted k v l)).
Proof.
  induction l as [|[k' v'] l IH]; cbn [put_sorted map fst]; intros H.
  { repeat constructor. }
  apply StronglySorted_inv in H as [Hl Hk'].
  destruct (decide (k = k')) as [->|Hk]; cbn [map fst]; [constructor; assumption|].
  destruct (bytes_leb k k') eqn:E; cbn [map fst].
  - constructor; [constructor; assumption|]. constructor; [exact E|].
    eapply Forall_impl; [exact Hk'|]. intros x. apply bytes_le_trans. exact E.
  - constructor; [apply IH; exact Hl|]. apply Forall_forall. intros x Hx.
    apply elem_of_put_sorted in Hx as [->|Hx].
    + destruct (bytes_le_total k k') as [H'|H']; [|exact H'].
      unfold bytes_le in H'. congruence.
    + rewrite Forall_forall in Hk'. apply Hk'. exact Hx.
Qed.

Lemma put_sorted_NoDup k v l :
  StronglySorted bytes_le (map fst l) -> NoDup (map fst l) ->
  NoDup (map fst (put_sorted k v l)).
Proof.
  induction l as [|[k' v'] l IH]; cbn [put_sorted map fst]; intros Hs Hn.
  { repeat constructor. set_solver. }
  apply StronglySorted_inv in Hs as [Hs Hk']. apply NoDup_cons in Hn as [Hin Hn].
  destruct (decide (k = k')) as [->|Hk]; cbn [map fst].
  { constructor; assumption. }
  destruct (bytes_leb k k') eqn:E; cbn [map fst].
  - constructor; [|constructor; assumption]. rewrite elem_of_cons. intros [?|Hx]; [congruence|].
    rewrite Forall_forall in Hk'. apply Hk. apply bytes_le_antisym; [exact E|apply Hk', Hx].
  - constructor; [|apply IH; assumption]. rewrite elem_of_put_sorted. naive_solver.
Qed.

Lemma put_sorted_map k v l :
  (list_to_map (put_sorted k v l) : gmap bytes bytes) = <[k := v]> (list_to_map l).
Proof.
  induction l as [|[k' v'] l IH]; cbn [put_sorted list_to_map]; [reflexivity|].
  destruct (decide (k = k')) as [->|Hk].
  { cbn. rewrite insert_insert_eq. reflexivity. }
  destruct (bytes_leb k k'); [reflexivity|].
  cbn. rewrite IH. apply insert_insert_ne. congruence.
Qed.

Definition put (x : log) (k v : bytes) : bool * log :=
  (true, mk (put_sorted k v (recs x))
            (put_sorted_sorted k v _ (recs_sorted x))
            (put_sorted_NoDup k v _ (recs_sorted x) (recs_NoDup x))).

Definition scan (x : log) (k : bytes) : list (bytes * bytes) :=
  filter (fun e => bytes_le k (fst e)) (recs x).

Definition empty : log := mk [] (SSorted_nil _) (NoDup_nil_2).

#[export] Instance rocks : RocksDB :=
  {| LogDB := log; rocks_put := put; rocks_scan := scan |}.

#[export] Instance laws : RocksDBLaws rocks.
Proof.
  refine {| records := recs : @LogDB rocks -> _ |}; cbn.
  - apply recs_sorted.
  - apply recs_NoDup.
  - intros x k v. eexists. split; [reflexivity|]. apply put_sorted_map.
  - reflexivity.
Defined.

End SortedLog.
