(* ===== verification/Wire.v ===== *)
(** * Messages ([include/rpc/rpc_common.h]) and log records
      ([include/server/region_and_log.h])

    The structs of the unions [wire_req_t] and [wire_resp_t] that the server
    handlers read and write, and the byte layouts of the region log: keys, PUT
    values and DELETE values, as the [ToSlice] methods lay them out, with the
    decoder that the comment at the top of [s2s_send_region_log_handler] describes
    and the one it implements. *)

From Stdlib Require Import ZArith Lia.
From stdpp Require Import base numbers list gmap.
From S2P Require Import Prelude Types.
Open Scope Z_scope.

(** ** Requests *)

(** [FSGetinodeReq], [FSUnlinkReq], [FSStatReq] and [FSRmdirReq] have the same
    fields. *)
Record FnameReq := {
  fr_region_id : Z;
  fr_pinode : Z;
  fr_pinode_hash : Z;
  fr_fname : bytes
}.

(** [FSOpenReq] and [FSMkdirReq]. *)
Record ModeReq := {
  mr_region_id : Z;
  mr_pinode : Z;
  mr_pinode_hash : Z;
  mr_mode : Z;
  mr_fname : bytes
}.

Record FSMknodReq := {
  kr_region_id : Z;
  kr_oid : oid_t;
  kr_pinode : Z;
  kr_pinode_hash : Z;
  kr_mode : Z;
  kr_fname : bytes
}.

Record FSReaddirReq := {
  rr_region_id : Z;
  rr_inode : Z;
  rr_inode_hash : Z;
  rr_offset : Z
}.

Record CreateRegionReq := {
  cr_region_id : Z;
  cr_start_key : RegionKey;
  cr_end_key : RegionKey
}.

Record SendRegionReq := {
  sr_region_id : Z;
  sr_is_uncomplete : Z;
  sr_num_result : Z;
  sr_entries_len : Z;
  sr_pinode_hash : Z;
  sr_pinode : Z;
  sr_offset : Z;
  sr_entries : bytes
}.

Record SendRegionLogReq := {
  sl_region_id : Z;
  sl_log_status : LogStatus;
  sl_next_log_id : Z;
  sl_num_logs : Z;
  sl_entries_len : Z;
  sl_entries : bytes
}.

(** ** Responses *)

(** [FSGetinodeResp] and [FSMkdirResp]. *)
Record InodeResp := { ir_resp_type : RespType; ir_inode : Z }.

(** [FSOpenResp], [FSStatResp] and [FSMknodResp]. *)
Record StatResp := { st_resp_type : RespType; st_inode : Z; st_stat : metafs_stat_t }.

Record FSReaddirResp := {
  rd_resp_type : RespType;
  rd_is_uncomplete : Z;
  rd_num_result : Z;
  rd_entries_len : Z;
  rd_next_offset : Z;
  rd_entries : bytes
}.

Record ReadRegionmapResp := {
  rm_resp_type : RespType;
  rm_num_entries : Z;
  rm_entries : list ClientRegion
}.

Record CreateRegionResp := { crs_resp_type : RespType; crs_region_id : Z }.

Record SendRegionResp := {
  srs_resp_type : RespType;
  srs_is_uncomplete : Z;
  srs_region_id : Z;
  srs_pinode_hash : Z;
  srs_pinode : Z;
  srs_offset : Z
}.

Record SendRegionLogResp := {
  sls_resp_type : RespType;
  sls_log_status : LogStatus;
  sls_region_id : Z;
  sls_next_log_id : Z
}.

(** The member of [wire_resp_t] a handler enqueues; [FSUnlinkResp] and
    [FSRmdirResp] hold a response code only. *)
Inductive wire_resp :=
  | RInode (r : InodeResp)
  | RStat (r : StatResp)
  | RStatus (r : RespType)
  | RReaddir (r : FSReaddirResp)
  | RRegionmap (r : ReadRegionmapResp)
  | RCreateRegion (r : CreateRegionResp)
  | RSendRegion (r : SendRegionResp)
  | RSendRegionLog (r : SendRegionLogResp).

(** [MSG_ENTEY_MAX_SIZE / sizeof(ClientRegion)] *)
Definition regionmap_capacity : Z := MSG_ENTEY_MAX_SIZE / 40.

(** ** Log records *)

(** [log_key::ToSlice]: the object representation of two 32-bit fields. *)
Definition log_key (rid lid : Z) : bytes := le_bytes 4 rid ++ le_bytes 4 lid.

(** The object representation of a [metafs_stat_t]; [pad] is its padding. *)
Definition stat_bytes (pad : Z) (st : metafs_stat_t) : bytes :=
  le_bytes 8 (lo (oid st)) ++ le_bytes 8 (hi (oid st)) ++
  le_bytes 4 (mode st) ++ le_bytes 4 pad ++
  le_bytes 8 (mtime st) ++ le_bytes 8 (ctime st) ++ le_bytes 8 (atime st).

(** [put_log_val::ToSlice]: 8 + 8 + 48 bytes, the byte of [only_update_stat], which
    the constructor leaves uninitialised ([flag]), and the name with its NUL. *)
Definition put_log_val (pad flag pinode inode : Z) (fname : bytes) (st : metafs_stat_t)
  : bytes :=
  le_bytes 8 pinode ++ le_bytes 8 inode ++ stat_bytes pad st ++ [flag] ++ fname ++ [0].

(** [delete_log_val::ToSlice] *)
Definition delete_log_val (pinode : Z) (fname : bytes) : bytes :=
  le_bytes 8 pinode ++ fname ++ [0].

(** [max(sizeof(delete_log_val), sizeof(put_log_val))]: 8 + 8 + 48 + 1 + 128,
    rounded up to the alignment 8. *)
Definition region_log_max_size : Z := 200.

Definition log_almost_done_threshold : Z := 30.

(** What a log record means. *)
Inductive log_record :=
  | PutRecord (pinode inode : Z) (st : metafs_stat_t) (fname : bytes)
  | DeleteRecord (pinode : Z) (fname : bytes).

Definition read_stat (s : bytes) : metafs_stat_t :=
  {| oid := {| lo := le_value (take 8 s); hi := le_value (take 8 (drop 8 s)) |};
     mode := le_value (take 4 (drop 16 s));
     mtime := i64 (le_value (take 8 (drop 24 s)));
     ctime := i64 (le_value (take 8 (drop 32 s)));
     atime := i64 (le_value (take 8 (drop 40 s))) |}.

(** The decoder of the format the writer produces: the PUT mark is read from the
    whole 8-byte pinode and the [only_update_stat] byte is skipped. *)
Definition decode_log_record (s : bytes) : log_record :=
  let pinode := le_value (take 8 s) in
  if Z.land pinode inode_prefix_ssb =? 0
  then DeleteRecord pinode (c_str (drop 8 s))
  else PutRecord (Z.land pinode (Z.lnot inode_prefix_ssb))
         (le_value (take 8 (drop 8 s))) (read_stat (drop 16 s)) (c_str (drop 65 s)).

(** ** Round trips *)

Definition stat_in_range (st : metafs_stat_t) : Prop :=
  is_u64 (lo (oid st)) /\ is_u64 (hi (oid st)) /\ is_u32 (mode st) /\
  is_i64 (mtime st) /\ is_i64 (ctime st) /\ is_i64 (atime st).

Lemma take_le_bytes n z rest : take n (le_bytes n z ++ rest) = le_bytes n z.
Proof. rewrite take_app_le, take_ge; rewrite ?length_le_bytes; auto. Qed.

Lemma drop_le_bytes n z rest : drop n (le_bytes n z ++ rest) = rest.
Proof. rewrite <- (length_le_bytes n z) at 1. apply drop_app_length. Qed.

Lemma le_value_take n z rest :
  0 <= z < 256 ^ Z.of_nat n -> le_value (take n (le_bytes n z ++ rest)) = z.
Proof. intros H. rewrite take_le_bytes, le_value_le_bytes. apply Z.mod_small, H. Qed.

Lemma i64_take z rest : is_i64 z -> i64 (le_value (take 8 (le_bytes 8 z ++ rest))) = z.
Proof. intros H. rewrite take_le_bytes, le_value_le_bytes. apply i64_u64, H. Qed.

Lemma drop_le_bytes_add n m z rest :
  drop (n + m) (le_bytes n z ++ rest) = drop m rest.
Proof. rewrite <- drop_drop, drop_le_bytes. reflexivity. Qed.

Lemma length_stat_bytes pad st : length (stat_bytes pad st) = 48%nat.
Proof. unfold stat_bytes. rewrite !length_app, !length_le_bytes. reflexivity. Qed.

Lemma read_stat_bytes pad st rest :
  stat_in_range st -> read_stat (stat_bytes pad st ++ rest) = st.
Proof.
  intros (H1 & H2 & H3 & H4 & H5 & H6). unfold read_stat, stat_bytes.
  rewrite <- !app_assoc. unfold is_u64, is_u32 in *.
  rewrite (le_value_take 8) by (simpl; lia).
  rewrite drop_le_bytes, (le_value_take 8) by (simpl; lia).
  rewrite (drop_le_bytes_add 8 8), drop_le_bytes, (le_value_take 4) by (simpl; lia).
  rewrite (drop_le_bytes_add 8 16), (drop_le_bytes_add 8 8), (drop_le_bytes_add 4 4),
    drop_le_bytes, i64_take by assumption.
  rewrite (drop_le_bytes_add 8 24), (drop_le_bytes_add 8 16), (drop_le_bytes_add 4 12),
    (drop_le_bytes_add 4 8), drop_le_bytes, i64_take by assumption.
  rewrite (drop_le_bytes_add 8 32), (drop_le_bytes_add 8 24), (drop_le_bytes_add 4 20),
    (drop_le_bytes_add 4 16), (drop_le_bytes_add 8 8), drop_le_bytes, i64_take by assumption.
  destruct st as [[? ?] ? ? ? ?]; reflexivity.
Qed.

Lemma ssb_mark_clear z :
  is_u64 z -> Z.testbit z 62 = false -> Z.land z inode_prefix_ssb = 0.
Proof.
  intros _ H. change inode_prefix_ssb with (2 ^ 62). apply Z.bits_inj_iff'. intros n Hn.
  rewrite Z.land_spec, Z.bits_0. destruct (Z.eq_dec n 62) as [->|].
  - rewrite H. reflexivity.
  - rewrite Z.pow2_bits_false by lia. apply andb_false_r.
Qed.

Lemma ssb_mark_set z : Z.land (Z.lor z inode_prefix_ssb) inode_prefix_ssb <> 0.
Proof.
  change inode_prefix_ssb with (2 ^ 62). intros H.
  apply (f_equal (fun x => Z.testbit x 62)) in H.
  rewrite Z.land_spec, Z.lor_spec, Z.pow2_bits_true, Z.bits_0, orb_true_r in H by lia.
  discriminate.
Qed.

Lemma ssb_mark_strip z :
  Z.testbit z 62 = false ->
  Z.land (Z.lor z inode_prefix_ssb) (Z.lnot inode_prefix_ssb) = z.
Proof.
  intros H. change inode_prefix_ssb with (2 ^ 62). apply Z.bits_inj_iff'. intros n Hn.
  rewrite Z.land_spec, Z.lor_spec, Z.lnot_spec by lia.
  destruct (Z.eq_dec n 62) as [->|].
  - rewrite H, Z.pow2_bits_true by lia. reflexivity.
  - rewrite Z.pow2_bits_false by lia. rewrite orb_false_r. apply andb_true_r.
Qed.

Lemma ssb_mark_range z : is_u64 z -> is_u64 (Z.lor z inode_prefix_ssb).
Proof.
  unfold is_u64. intros H. change inode_prefix_ssb with (2 ^ 62).
  assert (0 <= Z.lor z (2 ^ 62)) by (apply Z.lor_nonneg; lia).
  split; [assumption|]. destruct (Z.eq_dec (Z.lor z (2 ^ 62)) 0) as [->|]; [lia|].
  apply Z.log2_lt_pow2; [lia|]. rewrite Z.log2_lor by lia.
  destruct (Z.eq_dec z 0) as [->|]; [reflexivity|].
  apply Z.max_lub_lt; [apply Z.log2_lt_pow2; lia|reflexivity].
Qed.

(** The records of the region log can be told apart and read back: the decoder of
    the documented format returns what the writer stored. *)
Lemma decode_put_record pad flag pinode inode fname st :
  is_u64 pinode -> Z.testbit pinode 62 = false -> is_u64 inode ->
  stat_in_range st -> no_nul fname ->
  decode_log_record
    (put_log_val pad flag (Z.lor pinode inode_prefix_ssb) inode fname st)
  = PutRecord pinode inode st fname.
Proof.
  intros Hp Hbit Hi Hst Hf. unfold decode_log_record, put_log_val.
  pose proof (ssb_mark_range pinode Hp) as Hr. unfold is_u64 in *.
  rewrite (le_value_take 8) by (simpl; lia).
  rewrite (proj2 (Z.eqb_neq _ _) (ssb_mark_set pinode)), ssb_mark_strip by assumption.
  rewrite drop_le_bytes, (le_value_take 8) by (simpl; lia).
  rewrite (drop_le_bytes_add 8 8), drop_le_bytes, read_stat_bytes by assumption.
  rewrite (drop_le_bytes_add 8 57), (drop_le_bytes_add 8 49).
  change 49%nat with (48 + 1)%nat.
  rewrite <- drop_drop, <- (length_stat_bytes pad st), drop_app_length.
  change (drop 1 ([flag] ++ fname ++ [0])) with (fname ++ [0]).
  rewrite c_str_app_nul by assumption. reflexivity.
Qed.

Lemma decode_delete_record pinode fname :
  is_u64 pinode -> Z.testbit pinode 62 = false -> no_nul fname ->
  decode_log_record (delete_log_val pinode fname) = DeleteRecord pinode fname.
Proof.
  intros Hp Hbit Hf. unfold decode_log_record, delete_log_val.
  rewrite (le_value_take 8) by (unfold is_u64 in Hp; simpl; lia).
  rewrite ssb_mark_clear by assumption. cbn [Z.eqb].
  rewrite drop_le_bytes, c_str_app_nul by assumption. reflexivity.
Qed.
