(* ===== verification/Server.v ===== *)
(** * The state of a metadata server and its region bookkeeping

    [server_context] of [include/server/metafs_server.h], the process-wide
    globals of [src/server/metafs_server.cc] and the region operations of
    [src/server/region_and_log.cc]: [register_region], [check_region_status],
    [check_is_blong_to_region], [check_region_and_split], [log_op]. *)

From Stdlib Require Import ZArith Lia.
From stdpp Require Import base numbers list gmap.
From S2P Require Import Prelude JumpHash Types XXHash Stores Wire.
Open Scope Z_scope.

Section Server.
Context {KV : MetaKV} {RK : RocksDB}.

(** One foreground thread.  [region_map] maps an id to a [ServerRegion *], [None]
    being the null pointer that [operator[]] inserts for a missing key. *)
Record server_context := {
  thread_id : Z;
  global_id : Z;
  alloc_inode : Z;
  metadb : MetaDb;
  log_db : LogDB;
  region_map : gmap Z (option ServerRegion);
  pinode_table : gmap Z (gset Z)
}.

(** The globals of the process.  [st_sessions] is [st_ctx->num_server_sessions],
    [None] while the split thread has not set [st_ctx]. *)
Record globals := {
  global_region_id : Z;
  global_region_map : gmap Z ClientRegion;
  shared_split_queue : list (Z * Z);
  st_sessions : option Z
}.

(** The state a handler runs in: its context, the globals and the responses it has
    enqueued, in order. *)
Record world := {
  ctx : server_context;
  glob : globals;
  outbox : list wire_resp
}.

(** ** Assignments *)

Definition set_alloc_inode (n : Z) (c : server_context) : server_context :=
  {| thread_id := thread_id c; global_id := global_id c; alloc_inode := n;
     metadb := metadb c; log_db := log_db c; region_map := region_map c;
     pinode_table := pinode_table c |}.

Definition set_metadb (db : MetaDb) (c : server_context) : server_context :=
  {| thread_id := thread_id c; global_id := global_id c; alloc_inode := alloc_inode c;
     metadb := db; log_db := log_db c; region_map := region_map c;
     pinode_table := pinode_table c |}.

Definition set_log_db (db : LogDB) (c : server_context) : server_context :=
  {| thread_id := thread_id c; global_id := global_id c; alloc_inode := alloc_inode c;
     metadb := metadb c; log_db := db; region_map := region_map c;
     pinode_table := pinode_table c |}.

Definition set_region_map (m : gmap Z (option ServerRegion)) (c : server_context)
  : server_context :=
  {| thread_id := thread_id c; global_id := global_id c; alloc_inode := alloc_inode c;
     metadb := metadb c; log_db := log_db c; region_map := m;
     pinode_table := pinode_table c |}.

Definition set_pinode_table (t : gmap Z (gset Z)) (c : server_context) : server_context :=
  {| thread_id := thread_id c; global_id := global_id c; alloc_inode := alloc_inode c;
     metadb := metadb c; log_db := log_db c; region_map := region_map c;
     pinode_table := t |}.

Definition set_global_region_id (n : Z) (g : globals) : globals :=
  {| global_region_id := n; global_region_map := global_region_map g;
     shared_split_queue := shared_split_queue g; st_sessions := st_sessions g |}.

Definition set_global_region_map (m : gmap Z ClientRegion) (g : globals) : globals :=
  {| global_region_id := global_region_id g; global_region_map := m;
     shared_split_queue := shared_split_queue g; st_sessions := st_sessions g |}.

Definition set_shared_split_queue (q : list (Z * Z)) (g : globals) : globals :=
  {| global_region_id := global_region_id g; global_region_map := global_region_map g;
     shared_split_queue := q; st_sessions := st_sessions g |}.

Definition upd_ctx (f : server_context -> server_context) : M world unit :=
  modify (fun w => {| ctx := f (ctx w); glob := glob w; outbox := outbox w |}).

Definition upd_glob (f : globals -> globals) : M world unit :=
  modify (fun w => {| ctx := ctx w; glob := f (glob w); outbox := outbox w |}).

(** [rpc->enqueue_response(req_handle, &pre_resp_msgbuf_)] *)
Definition enqueue_response (r : wire_resp) : M world unit :=
  modify (fun w => {| ctx := ctx w; glob := glob w; outbox := outbox w ++ [r] |}).

(** [std::map::insert] and [std::unordered_map::insert] keep an existing entry. *)
Definition map_insert {A} (k : Z) (v : A) (m : gmap Z A) : gmap Z A :=
  match m !! k with
  | Some _ => m
  | None => <[k := v]> m
  end.

Local Open Scope m_scope.

(** [region = s_ctx->region_map[rid]] followed by a dereference of [region]. *)
Definition region_at (rid : Z) : M world ServerRegion :=
  let* m := gets (fun w => region_map (ctx w)) in
  match m !! rid with
  | Some (Some r) => ret r
  | _ => raise NullDeref
  end.

(** A write through the pointer [region]. *)
Definition upd_region (rid : Z) (f : ServerRegion -> ServerRegion) : M world unit :=
  upd_ctx (fun c => set_region_map (alter (fmap f) rid (region_map c)) c).

(** ** [region_and_log.cc] *)

(** [register_region]: the region id is the thread's global id, narrowed to
    [int32_t]; the bounds are 32-bit products. *)
Definition register_region : M world unit :=
  upd_glob (fun g => set_global_region_id (i32 (global_region_id g + 1)) g) ;;;
  let* gid := gets (fun w => global_id (ctx w)) in
  let rid := i32 gid in
  let skey := mk_RegionKey 0 (i32 (rid * PINODE_HASH_RANGE)) in
  let ekey := mk_RegionKey 0 (i32 (i32 ((rid + 1) * PINODE_HASH_RANGE) - 1)) in
  let region := set_region_status Normal (new_ServerRegion rid skey ekey) in
  upd_ctx (fun c => set_region_map (map_insert rid (Some region) (region_map c)) c) ;;;
  upd_glob (fun g => set_global_region_map
    (map_insert rid {| c_region_id := rid; c_start_key := skey; c_end_key := ekey |}
       (global_region_map g)) g).

(** [init_server_context]: the thread's record of the static [s_ctx_arr], with the
    two stores as [DBOpen] and [rocksdb::DB::Open] return them (the [p_assert]s on
    their statuses hold), then [register_region]. *)
Definition init_server_context (id server_fg_threads tid : Z) (db : MetaDb) (ldb : LogDB)
  : M world unit :=
  upd_ctx (fun c =>
    {| thread_id := tid;
       global_id := u64 (i32 (id * server_fg_threads) + tid);
       alloc_inode := init_alloc_inode id tid;
       metadb := db; log_db := ldb;
       region_map := region_map c; pinode_table := pinode_table c |}) ;;;
  register_region.

(** [check_region_status]: whether a client request is served. *)
Definition check_region_status (r : ServerRegion) : M world bool :=
  match region_status r with
  | Normal => ret true
  | NotReady | SplitAlmostDone => ret false
  | IsSplit => ret true
  | ToBeSplit => raise AssertFailed
  end.

(** [check_is_blong_to_region]: closed interval on [hi]. *)
Definition check_is_blong_to_region (r : ServerRegion) (inode_hash : Z) : bool :=
  (key_hi (start_key r) <=? inode_hash) && (inode_hash <=? key_hi (end_key r)).

(** [region->kv_num > region_split_threshold] compares an [int32_t] with a
    [uint32_t], so it is an unsigned comparison. *)
Definition over_threshold (r : ServerRegion) : bool :=
  region_split_threshold <? u32 (kv_num r).

(** [JumpConsistentHash(nr_region_id, st_ctx->num_server_sessions)] *)
Definition jump_target (rid sessions : Z) : M world Z :=
  match JumpConsistentHash (u64 rid) sessions with
  | Some b => ret b
  | None => raise OutOfFuel
  end.

(** [nr_region_id = global_region_id++], and again while the hash designates the
    splitting thread itself; the [int32_t] result is compared as a [size_t]. *)
Fixpoint fresh_region_id (fuel : nat) : M world Z :=
  match fuel with
  | O => raise OutOfFuel
  | S fuel' =>
      let* nr := gets (fun w => global_region_id (glob w)) in
      upd_glob (set_global_region_id (i32 (nr + 1))) ;;;
      let* st := gets (fun w => st_sessions (glob w)) in
      match st with
      | None => raise NullDeref
      | Some sessions =>
          let* b := jump_target nr sessions in
          let* gid := gets (fun w => global_id (ctx w)) in
          if u64 b =? gid then fresh_region_id fuel' else ret nr
      end
  end.

(** The bounds of the right half of a splitting region. *)
Definition split_start (e : RegionKey) : RegionKey :=
  mk_RegionKey 0 (u64 (Z.shiftr (key_hi e) 1 + 1)).

Definition split_end (e : RegionKey) : RegionKey := mk_RegionKey 0 (key_hi e).

(** [check_region_and_split] *)
Definition check_region_and_split (fuel : nat) (rid : Z) : M world unit :=
  let* r := region_at rid in
  if over_threshold r then
    let nr_skey := split_start (end_key r) in
    let nr_ekey := split_end (end_key r) in
    let* nr_region_id := fresh_region_id fuel in
    let nr := set_left_region_id (region_id r)
                (new_ServerRegion nr_region_id nr_skey nr_ekey) in
    upd_ctx (fun c =>
      set_region_map (map_insert nr_region_id (Some nr) (region_map c)) c) ;;;
    let* tid := gets (fun w => thread_id (ctx w)) in
    upd_glob (fun g =>
      set_shared_split_queue (shared_split_queue g ++ [(tid, nr_region_id)]) g)
  else ret tt.

(** [s_ctx->log_db->Put(...)] with the [p_assert(s.ok())] after it. *)
Definition log_put (k v : bytes) : M world unit :=
  let* db := gets (fun w => log_db (ctx w)) in
  let '(ok, db') := rocks_put db k v in
  upd_ctx (set_log_db db') ;;;
  p_assert ok.

(** [log_op]: [stat] is [None] for the default [nullptr]; [pad] and [flag] are the
    bytes the constructors leave uninitialised. *)
Definition log_op (pad flag rid : Z) (is_delete_op : bool) (pinode : Z) (fname : bytes)
    (stat : option metafs_stat_t) (inode : Z) : M world unit :=
  let* r := region_at rid in
  let key := log_key (region_id r) (log_id r) in
  upd_region rid (fun r => set_log_id (i32 (log_id r + 1)) r) ;;;
  if is_delete_op then
    p_assert (Z.of_nat (length (c_str fname)) <? METAFS_MAX_FNAME_LEN) ;;;
    log_put key (delete_log_val pinode (c_str fname))
  else
    match stat with
    | None => raise AssertFailed
    | Some st =>
        p_assert (Z.of_nat (length (c_str fname)) <? METAFS_MAX_FNAME_LEN) ;;;
        log_put key (put_log_val pad flag (Z.lor pinode inode_prefix_ssb) inode
                       (c_str fname) st)
    end.

End Server.
