(* ===== verification/Handlers.v ===== *)
(** * The request handlers of a metadata server ([src/server/server_handler.cc])

    One definition per handler, in the order of the file.  A handler takes the
    request it reads, the previous content of the response buffer it overwrites
    field by field, and the values of the local variables the code leaves
    uninitialised ([junk]); it runs in the state [world] of [Server.v] and
    enqueues its responses there. *)

From Stdlib Require Import ZArith Lia.
From stdpp Require Import base numbers list gmap.
From S2P Require Import Prelude JumpHash Types XXHash Stores Wire Server.
Open Scope Z_scope.

(** Uninitialised locals: [metafs_inode_t inode], [tv.tv_sec], a [metafs_stat_t]
    built by the empty constructor, and the padding and flag bytes of a log
    record. *)
Record junk := {
  j_inode : Z;
  j_tv_sec : Z;
  j_stat : metafs_stat_t;
  j_pad : Z;
  j_flag : Z
}.

Definition O_WRONLY : Z := 1.
Definition O_RDWR : Z := 2.

Section Handlers.
Context {KV : MetaKV} {RK : RocksDB}.

Local Open Scope m_scope.

(** [SliceInit(&fname_slice, strlen(fname) + 1, fname)]: [strlen] runs off an array
    without a NUL. *)
Definition fname_slice (fname : bytes) : M world bytes :=
  if has_nul fname then ret (c_str fname ++ [0]) else raise OutOfBounds.

(** The answer when the region does not serve clients. *)
Definition not_served (r : ServerRegion) : RespType :=
  if decide (region_status r = SplitAlmostDone) then kUpdateRegionMap else kEBUSY.

(** Calls of the store. *)
Definition kv_get {A} (f : MetaDb -> A) : M world A :=
  gets (fun w => f (metadb (ctx w))).

Definition kv_put {A} (f : MetaDb -> A * MetaDb) : M world A :=
  let* db := gets (fun w => metadb (ctx w)) in
  let '(a, db') := f db in
  upd_ctx (set_metadb db') ;;;
  ret a.

(** [region->kv_num++] and [region->kv_num--] on an [atomic<int32_t>]. *)
Definition kv_num_add (rid n : Z) : M world unit :=
  region_at rid ;;;
  upd_region rid (fun r => set_kv_num (i32 (kv_num r + n)) r).

(** [region->kv_num > region_split_threshold
     && region->region_status.compare_exchange_strong(Normal, IsSplit)], then
    [check_region_and_split(region)]. *)
Definition maybe_split (fuel : nat) (rid : Z) : M world unit :=
  let* r := region_at rid in
  if over_threshold r && bool_decide (region_status r = Normal) then
    upd_region rid (set_region_status IsSplit) ;;;
    check_region_and_split fuel rid
  else ret tt.

(** The operation is logged while the region is being split. *)
Definition is_logged (r : ServerRegion) : bool :=
  bool_decide (region_status r = IsSplit)
  || bool_decide (region_status r = SplitAlmostDone).

Definition log_if_split (j : junk) (rid : Z) (is_delete_op : bool) (pinode : Z)
    (fname : bytes) (stat : option metafs_stat_t) (inode : Z) : M world unit :=
  let* r := region_at rid in
  when_ (is_logged r)
    (log_op (j_pad j) (j_flag j) rid is_delete_op pinode fname stat inode).

(** ** File handlers *)

Definition fs_open_handler (j : junk) (now : Z) (req : ModeReq) (resp : StatResp)
  : M world unit :=
  let* r := region_at (mr_region_id req) in
  when_ (negb (check_is_blong_to_region r (mr_pinode_hash req)))
    (enqueue_response (RStat {| st_resp_type := kUpdateRegionMap;
       st_inode := st_inode resp; st_stat := st_stat resp |})) ;;;
  let* served := check_region_status r in
  if served then
    let* slice := fname_slice (mr_fname req) in
    let* (status, inode) :=
      kv_get (fun db => GetFileInode db (mr_pinode req) slice (j_inode j)) in
    let* (status, stat) :=
      (if check_status_ok status then
         let* (status, stat) := kv_get (fun db => GetStat db inode (st_stat resp)) in
         if check_status_ok status then
           if (Z.land (mr_mode req) 3 =? O_WRONLY) || (Z.land (mr_mode req) 3 =? O_RDWR)
           then
             let stat := {| oid := oid stat; mode := mode stat; mtime := now;
                            ctime := ctime stat; atime := now |} in
             let* status := kv_put (fun db => UpdateStat db inode stat) in
             ret (status, stat)
           else ret (status, stat)
         else ret (status, stat)
       else ret (status, st_stat resp)) in
    let* t := convert_status_to_resptype status in
    enqueue_response (RStat {| st_resp_type := t; st_inode := inode; st_stat := stat |})
  else
    enqueue_response (RStat {| st_resp_type := not_served r;
       st_inode := st_inode resp; st_stat := st_stat resp |}).

Definition fs_mknod_handler (fuel : nat) (j : junk) (req : FSMknodReq) (resp : StatResp)
  : M world unit :=
  let rid := kr_region_id req in
  let* r := region_at rid in
  when_ (negb (check_is_blong_to_region r (kr_pinode_hash req)))
    (enqueue_response (RStat {| st_resp_type := kUpdateRegionMap;
       st_inode := st_inode resp; st_stat := st_stat resp |})) ;;;
  let* served := check_region_status r in
  if served then
    let* inode := gets (fun w => alloc_inode (ctx w)) in
    upd_ctx (set_alloc_inode (u64 (inode + 1))) ;;;
    let stat := stat_of_oid_mode (j_tv_sec j) (kr_oid req) (kr_mode req) in
    let* slice := fname_slice (kr_fname req) in
    let* status := kv_put (fun db => InsertFileInode db (kr_pinode req) slice inode) in
    let* (status, out) :=
      (if check_status_ok status then
         let* status := kv_put (fun db => InsertStat db inode stat) in
         kv_num_add rid 1 ;;;
         ret (status, inode)
       else ret (status, st_inode resp)) in
    maybe_split fuel rid ;;;
    log_if_split j rid false (kr_pinode req) (kr_fname req) (Some stat) inode ;;;
    let* t := convert_status_to_resptype status in
    enqueue_response (RStat {| st_resp_type := t; st_inode := out;
                               st_stat := st_stat resp |})
  else
    enqueue_response (RStat {| st_resp_type := not_served r;
       st_inode := st_inode resp; st_stat := st_stat resp |}).

Definition fs_stat_handler (j : junk) (req : FnameReq) (resp : StatResp) : M world unit :=
  let* r := region_at (fr_region_id req) in
  when_ (negb (check_is_blong_to_region r (fr_pinode_hash req)))
    (enqueue_response (RStat {| st_resp_type := kUpdateRegionMap;
       st_inode := st_inode resp; st_stat := st_stat resp |})) ;;;
  let* served := check_region_status r in
  if served then
    let* slice := fname_slice (fr_fname req) in
    let* (status, inode) :=
      kv_get (fun db => GetFileInode db (fr_pinode req) slice (j_inode j)) in
    let* (status, out, stat) :=
      (if check_status_ok status then
         let* (status, stat) := kv_get (fun db => GetStat db inode (st_stat resp)) in
         ret (status, inode, stat)
       else ret (status, st_inode resp, st_stat resp)) in
    let* t := convert_status_to_resptype status in
    enqueue_response (RStat {| st_resp_type := t; st_inode := out; st_stat := stat |})
  else
    enqueue_response (RStat {| st_resp_type := not_served r;
       st_inode := st_inode resp; st_stat := st_stat resp |}).

Definition fs_unlink_handler (j : junk) (req : FnameReq) : M world unit :=
  let rid := fr_region_id req in
  let* r := region_at rid in
  when_ (negb (check_is_blong_to_region r (fr_pinode_hash req)))
    (enqueue_response (RStatus kUpdateRegionMap)) ;;;
  let* served := check_region_status r in
  if served then
    let* slice := fname_slice (fr_fname req) in
    let* (status, inode) :=
      kv_put (fun db => DeleteFileInode db (fr_pinode req) slice (j_inode j)) in
    let* status :=
      (if check_status_ok status then
         let* status := kv_put (fun db => DeleteStat db inode) in
         kv_num_add rid (-1) ;;;
         ret status
       else ret status) in
    log_if_split j rid true (fr_pinode req) (fr_fname req) None 0 ;;;
    let* t := convert_status_to_resptype status in
    enqueue_response (RStatus t)
  else enqueue_response (RStatus (not_served r)).

(** ** Directory handlers *)

(** [pinode_table[h].insert(inode)] *)
Definition pinode_table_insert (h inode : Z) (t : gmap Z (gset Z)) : gmap Z (gset Z) :=
  <[h := {[inode]} ∪ default ∅ (t !! h)]> t.

Definition fs_mkdir_handler (fuel : nat) (j : junk) (req : ModeReq) (resp : InodeResp)
  : M world unit :=
  let rid := mr_region_id req in
  let* r := region_at rid in
  when_ (negb (check_is_blong_to_region r (mr_pinode_hash req)))
    (enqueue_response (RInode {| ir_resp_type := kUpdateRegionMap;
                                 ir_inode := ir_inode resp |})) ;;;
  let* served := check_region_status r in
  if served then
    let* next := gets (fun w => alloc_inode (ctx w)) in
    let inode := Z.lor next inode_prefix_msb in
    upd_ctx (set_alloc_inode (u64 (next + 1))) ;;;
    let stat := stat_of_mode (j_tv_sec j) (mr_mode req) in
    let* slice := fname_slice (mr_fname req) in
    let* status := kv_put (fun db => InsertFileInode db (mr_pinode req) slice inode) in
    let* (status, out) :=
      (if check_status_ok status then
         let* status := kv_put (fun db => InsertStat db inode stat) in
         kv_num_add rid 1 ;;;
         let* r := region_at rid in
         when_ (bool_decide (region_status r = Normal)
                || bool_decide (region_status r = ToBeSplit))
           (upd_ctx (fun c => set_pinode_table
              (pinode_table_insert (pinode_hash inode) inode (pinode_table c)) c)) ;;;
         ret (status, inode)
       else ret (status, ir_inode resp)) in
    maybe_split fuel rid ;;;
    log_if_split j rid false (mr_pinode req) (mr_fname req) (Some stat) inode ;;;
    let* t := convert_status_to_resptype status in
    enqueue_response (RInode {| ir_resp_type := t; ir_inode := out |})
  else
    enqueue_response (RInode {| ir_resp_type := not_served r;
                                ir_inode := ir_inode resp |}).

(** The copy of [entries_len] bytes of the result into the array [entries]. *)
Definition copy_entries (len : Z) (src dst : bytes) : M world bytes :=
  if (0 <=? len) && (len <=? MSG_ENTEY_MAX_SIZE) && (len <=? Z.of_nat (length src))
  then ret (take (Z.to_nat len) src ++ drop (Z.to_nat len) dst)
  else raise OutOfBounds.

Definition fs_readdir_handler (req : FSReaddirReq) (resp : FSReaddirResp) : M world unit :=
  let* r := region_at (rr_region_id req) in
  when_ (negb (check_is_blong_to_region r (rr_inode_hash req)))
    (enqueue_response (RReaddir {| rd_resp_type := kUpdateRegionMap;
       rd_is_uncomplete := rd_is_uncomplete resp; rd_num_result := rd_num_result resp;
       rd_entries_len := rd_entries_len resp; rd_next_offset := rd_next_offset resp;
       rd_entries := rd_entries resp |})) ;;;
  let* served := check_region_status r in
  if served then
    let* (status, res) :=
      kv_get (fun db => ReadDir db (rr_inode req) (rr_offset req) MSG_ENTEY_MAX_SIZE) in
    let* resp :=
      (if check_status_ok status then
         match res with
         | None => raise NullDeref
         | Some b =>
             let len := i32 (rel_len b - 32) in
             p_assert (rel_count b <=? MSG_ENTEY_MAX_SIZE) ;;;
             let* entries := copy_entries len (payload b) (rd_entries resp) in
             ret {| rd_resp_type := rd_resp_type resp;
                    rd_is_uncomplete := i32 (rd_uncomplete b);
                    rd_num_result := i32 (rel_count b);
                    rd_entries_len := len;
                    rd_next_offset := new_offset b;
                    rd_entries := entries |}
         end
       else ret resp) in
    let '(status, n) :=
      match res with
      | None => (OK, 0)
      | Some _ => (status, rd_num_result resp)
      end in
    let* t := convert_status_to_resptype status in
    enqueue_response (RReaddir {| rd_resp_type := t;
       rd_is_uncomplete := rd_is_uncomplete resp; rd_num_result := n;
       rd_entries_len := rd_entries_len resp; rd_next_offset := rd_next_offset resp;
       rd_entries := rd_entries resp |})
  else
    enqueue_response (RReaddir {| rd_resp_type := not_served r;
       rd_is_uncomplete := rd_is_uncomplete resp; rd_num_result := rd_num_result resp;
       rd_entries_len := rd_entries_len resp; rd_next_offset := rd_next_offset resp;
       rd_entries := rd_entries resp |}).

Definition fs_rmdir_handler (j : junk) (req : FnameReq) : M world unit :=
  let rid := fr_region_id req in
  let* r := region_at rid in
  when_ (negb (check_is_blong_to_region r (fr_pinode_hash req)))
    (enqueue_response (RStatus kUpdateRegionMap)) ;;;
  let* served := check_region_status r in
  if served then
    let* slice := fname_slice (fr_fname req) in
    let* (status, inode) :=
      kv_get (fun db => GetFileInode db (fr_pinode req) slice (j_inode j)) in
    let* status :=
      (if is_directory inode then
         if check_status_ok status then
           let* (status, res) := kv_get (fun db => ReadDir db inode 0 256) in
           let '(status, has_files) :=
             match res with
             | None => (OK, false)
             | Some b => (status, rel_count b =? 0)
             end in
           if check_status_ok status && negb has_files then
             let* (status, inode) :=
               kv_put (fun db => DeleteFileInode db (fr_pinode req) slice inode) in
             let* status :=
               (if check_status_ok status
                then kv_put (fun db => DeleteStat db inode)
                else ret status) in
             kv_num_add rid (-1) ;;;
             log_if_split j rid true (fr_pinode req) (fr_fname req) None 0 ;;;
             ret status
           else ret status
         else ret status
       else ret KEY_NOT_EXIST) in
    let* t := convert_status_to_resptype status in
    enqueue_response (RStatus t)
  else enqueue_response (RStatus (not_served r)).

Definition fs_getinode_handler (j : junk) (req : FnameReq) (resp : InodeResp)
  : M world unit :=
  let* r := region_at (fr_region_id req) in
  when_ (negb (check_is_blong_to_region r (fr_pinode_hash req)))
    (enqueue_response (RInode {| ir_resp_type := kUpdateRegionMap;
                                 ir_inode := ir_inode resp |})) ;;;
  let* served := check_region_status r in
  if served then
    let* slice := fname_slice (fr_fname req) in
    let* (status, inode) :=
      kv_get (fun db => GetFileInode db (fr_pinode req) slice (j_inode j)) in
    let out := if check_status_ok status then inode else ir_inode resp in
    let* t := convert_status_to_resptype status in
    enqueue_response (RInode {| ir_resp_type := t; ir_inode := out |})
  else
    enqueue_response (RInode {| ir_resp_type := not_served r;
                                ir_inode := ir_inode resp |}).

(** The entries are written one by one into an array of [regionmap_capacity]
    records; the iteration order is the map's. *)
Definition read_region_map_handler : M world unit :=
  let* m := gets (fun w => global_region_map (glob w)) in
  let entries := map snd (map_to_list m) in
  if Z.of_nat (length entries) <=? regionmap_capacity then
    enqueue_response (RRegionmap {| rm_resp_type := kSuccess;
      rm_num_entries := Z.of_nat (length entries); rm_entries := entries |})
  else raise OutOfBounds.

(** ** Handlers of the region split (target server) *)

Definition s2s_create_region_handler (req : CreateRegionReq) : M world unit :=
  let region := set_region_status NotReady
                  (new_ServerRegion (cr_region_id req) (cr_start_key req)
                     (cr_end_key req)) in
  upd_ctx (fun c =>
    set_region_map (map_insert (cr_region_id req) (Some region) (region_map c)) c) ;;;
  enqueue_response (RCreateRegion {| crs_resp_type := kSuccess;
                                     crs_region_id := cr_region_id req |}).

(** [( metafs_inode_t )*buf] with [uint8_t *buf]: the value of one byte; then
    [buf += metafs_inode_size]. *)
Definition read_inode (buf : bytes) : M world (Z * bytes) :=
  match buf with
  | [] => raise OutOfBounds
  | b :: _ => ret (b, drop 8 buf)
  end.

(** [fname = buf; fname_len = strlen(fname) + 1; buf += fname_len]: the slice and
    the rest. *)
Definition read_fname (buf : bytes) : M world (bytes * bytes) :=
  let* slice := fname_slice buf in
  ret (slice, drop (length slice) buf).

(** [while (num_result--)] of [s2s_send_region_handler]. *)
Fixpoint build_region (j : junk) (num_result : nat) (buf : bytes) : M world unit :=
  match num_result with
  | O => ret tt
  | S n =>
      let* (pinode, buf) := read_inode buf in
      let* (slice, buf) := read_fname buf in
      let* (inode, buf) := read_inode buf in
      let* status := kv_put (fun db => InsertFileInode db pinode slice inode) in
      (if check_status_ok status
       then kv_put (fun db => InsertStat db inode (j_stat j))
       else ret status) ;;;
      build_region j n buf
  end.

Definition s2s_send_region_handler (j : junk) (req : SendRegionReq) : M world unit :=
  build_region j (Z.to_nat (u32 (sr_num_result req))) (sr_entries req) ;;;
  kv_num_add (sr_region_id req) (sr_num_result req) ;;;
  enqueue_response (RSendRegion {| srs_resp_type := kSuccess;
    srs_is_uncomplete := i32 (sr_is_uncomplete req);
    srs_region_id := sr_region_id req;
    srs_pinode_hash := sr_pinode_hash req;
    srs_pinode := sr_pinode req;
    srs_offset := u64 (sr_offset req) |}).

(** [while (num_logs--)] of [s2s_send_region_log_handler]. *)
Fixpoint replay_log (j : junk) (rid : Z) (num_logs : nat) (buf : bytes) : M world unit :=
  match num_logs with
  | O => ret tt
  | S n =>
      let* (pinode, buf) := read_inode buf in
      let is_delete_op := Z.land pinode inode_prefix_ssb =? 0 in
      let pinode := Z.land pinode (Z.lnot inode_prefix_ssb) in
      if is_delete_op then
        let* (slice, buf) := read_fname buf in
        let* (status, inode) :=
          kv_put (fun db => DeleteFileInode db pinode slice (j_inode j)) in
        (if check_status_ok status
         then kv_put (fun db => DeleteStat db inode)
         else ret status) ;;;
        kv_num_add rid (-1) ;;;
        replay_log j rid n buf
      else
        let* (inode, buf) := read_inode buf in
        let stat := read_stat (take 48 buf) in
        let buf := drop 48 buf in
        let* (slice, buf) := read_fname buf in
        let* status := kv_put (fun db => InsertFileInode db pinode slice inode) in
        (if check_status_ok status
         then kv_put (fun db => InsertStat db inode stat)
         else ret status) ;;;
        kv_num_add rid 1 ;;;
        replay_log j rid n buf
  end.

(** [s_ctx->region_map[region_id]] inserts a null pointer for an unknown id. *)
Definition s2s_send_region_log_handler (j : junk) (req : SendRegionLogReq) : M world unit :=
  let rid := sl_region_id req in
  upd_ctx (fun c => set_region_map (map_insert rid None (region_map c)) c) ;;;
  replay_log j rid (Z.to_nat (u32 (sl_num_logs req))) (sl_entries req) ;;;
  when_ (bool_decide (sl_log_status req = LogDone))
    (region_at rid ;;; upd_region rid (set_region_status Normal)) ;;;
  enqueue_response (RSendRegionLog {| sls_resp_type := kSuccess;
    sls_log_status := sl_log_status req;
    sls_region_id := rid;
    sls_next_log_id := sl_next_log_id req |}).

(** ** Dispatch *)

(** A request, by the [kReqType] it is sent with. *)
Inductive wire_req :=
  | FSOpenReq (r : ModeReq)
  | FSUnlinkReq (r : FnameReq)
  | FSStatReq (r : FnameReq)
  | MknodReq (r : FSMknodReq)
  | FSMkdirReq (r : ModeReq)
  | FSRmdirReq (r : FnameReq)
  | ReaddirReq (r : FSReaddirReq)
  | FSGetinodeReq (r : FnameReq)
  | ReadRegionmapReq (client_id : Z)
  | CreateRegion (r : CreateRegionReq)
  | SendRegion (r : SendRegionReq)
  | SendRegionLog (r : SendRegionLogReq).

(** What the preallocated response buffer holds when the handler starts, read as
    the member the handler writes. *)
Record stale := {
  old_inode : InodeResp;
  old_stat : StatResp;
  old_readdir : FSReaddirResp
}.

(** The table built by [register_req_func] in [init_and_start_loop]. *)
Definition serve (fuel : nat) (j : junk) (now : Z) (old : stale) (q : wire_req)
  : M world unit :=
  match q with
  | FSOpenReq r => fs_open_handler j now r (old_stat old)
  | FSUnlinkReq r => fs_unlink_handler j r
  | FSStatReq r => fs_stat_handler j r (old_stat old)
  | MknodReq r => fs_mknod_handler fuel j r (old_stat old)
  | FSMkdirReq r => fs_mkdir_handler fuel j r (old_inode old)
  | FSRmdirReq r => fs_rmdir_handler j r
  | ReaddirReq r => fs_readdir_handler r (old_readdir old)
  | FSGetinodeReq r => fs_getinode_handler j r (old_inode old)
  | ReadRegionmapReq _ => read_region_map_handler
  | CreateRegion r => s2s_create_region_handler r
  | SendRegion r => s2s_send_region_handler j r
  | SendRegionLog r => s2s_send_region_log_handler j r
  end.

End Handlers.
