(* ===== verification/HandlerSpec.v ===== *)
(** * What the handlers guarantee

    The abstract file system of one server thread: a map of directory entries, a
    map of stat records and the inode counter.  Each client handler refines its
    abstract operation, on every branch, whenever the region of the request is
    served and no split has to be started; [HandlerSpec] proves it against the
    laws of the two storage engines. *)

From Stdlib Require Import ZArith Lia.
From stdpp Require Import base numbers list gmap.
From S2P Require Import Prelude JumpHash Types XXHash Stores Wire Server Handlers.
Open Scope Z_scope.

Section HandlerSpec.
Context {KV : MetaKV} {RK : RocksDB} {KVL : MetaKVLaws KV} {RKL : RocksDBLaws RK}.

(** ** The region of a request *)

(** The region pointer of [rid] is [r]. *)
Definition region_is (w : world) (rid : Z) (r : ServerRegion) : Prop :=
  region_map (ctx w) !! rid = Some (Some r).

(** The region serves clients and one more entry does not start a split: it is
    [Normal] and below the threshold, or already [IsSplit]. *)
Definition quiet (r : ServerRegion) : Prop :=
  region_status r = Normal /\ 0 <= kv_num r < region_split_threshold \/
  region_status r = IsSplit.

Lemma wp_region_at w rid r (Q : ServerRegion -> world -> Prop) :
  region_is w rid r -> Q r w -> wp (region_at rid) Q w.
Proof. unfold region_is, wp, region_at, bind, gets. intros -> H. exact H. Qed.

Lemma wp_check_status r (Q : bool -> world -> Prop) w :
  quiet r -> Q true w -> wp (check_region_status r) Q w.
Proof.
  unfold wp, check_region_status. intros [[-> _]| ->] H; exact H.
Qed.

Lemma wp_fname_slice fname (Q : bytes -> world -> Prop) w :
  has_nul fname = true -> Q (c_str fname ++ [0]) w -> wp (fname_slice fname) Q w.
Proof. unfold wp, fname_slice. intros -> H. exact H. Qed.

(** ** Calls of the store *)

Definition with_db (db : MetaDb) (w : world) : world :=
  {| ctx := set_metadb db (ctx w); glob := glob w; outbox := outbox w |}.

Lemma wp_kv_put {A} (f : MetaDb -> A * MetaDb) a db' (Q : A -> world -> Prop) w :
  f (metadb (ctx w)) = (a, db') -> Q a (with_db db' w) -> wp (kv_put f) Q w.
Proof. unfold wp, kv_put, bind, gets. intros -> H. exact H. Qed.

Lemma wp_kv_get {A} (f : MetaDb -> A) (Q : A -> world -> Prop) w :
  Q (f (metadb (ctx w))) w -> wp (kv_get f) Q w.
Proof. auto. Qed.

Section Calls.
Context (w : world).
Let db := metadb (ctx w).

Lemma wp_GetFileInode p f i0 (Q : MetaKvStatus * Z -> world -> Prop) :
  (forall i, dents db !! (p, f) = Some i -> Q (OK, i) w) ->
  (forall i, dents db !! (p, f) = None -> Q (KEY_NOT_EXIST, i) w) ->
  wp (kv_get (fun db => GetFileInode db p f i0)) Q w.
Proof.
  intros Hsome Hnone. unfold wp, kv_get, gets. fold db.
  destruct (dents db !! (p, f)) as [i|] eqn:E.
  - rewrite (GetFileInode_found _ _ _ i) by exact E. auto.
  - pose proof (GetFileInode_missing db p f i0 E) as H.
    destruct (GetFileInode db p f i0) as [st i]. cbn in H. subst. auto.
Qed.

Lemma wp_GetStat i s0 (Q : MetaKvStatus * metafs_stat_t -> world -> Prop) :
  (forall st, stats db !! i = Some st -> Q (OK, st) w) ->
  (forall st, stats db !! i = None -> Q (KEY_NOT_EXIST, st) w) ->
  wp (kv_get (fun db => GetStat db i s0)) Q w.
Proof.
  intros Hsome Hnone. unfold wp, kv_get, gets. fold db.
  destruct (stats db !! i) as [st|] eqn:E.
  - rewrite (GetStat_found _ _ st) by exact E. auto.
  - pose proof (GetStat_missing db i s0 E) as H.
    destruct (GetStat db i s0) as [t st]. cbn in H. subst. auto.
Qed.

Lemma wp_InsertFileInode p f i (Q : MetaKvStatus -> world -> Prop) :
  room db 2 ->
  (forall db' i', dents db !! (p, f) = Some i' ->
     dents db' = dents db -> stats db' = stats db -> Q KEY_ALREADY_EXIST (with_db db' w)) ->
  (forall db', dents db !! (p, f) = None -> dents db' = <[(p, f) := i]> (dents db) ->
     stats db' = stats db -> room db' 1 -> Q INSERT_OK (with_db db' w)) ->
  wp (kv_put (fun db => InsertFileInode db p f i)) Q w.
Proof.
  intros Hroom Hsome Hnone. destruct (dents db !! (p, f)) as [i'|] eqn:E.
  - destruct (InsertFileInode_exists db p f i i' E) as (db' & H & Hd & Hs).
    eapply wp_kv_put; [exact H|]. eauto.
  - destruct (InsertFileInode_fresh db p f i E) as (st & db' & H & Hcase & Hs).
    pose proof (InsertFileInode_room db p f i 1 Hroom) as Hr. rewrite H in Hr.
    eapply wp_kv_put; [exact H|]. destruct Hcase as [[-> Hd]|[Hno _]]; [auto|].
    contradict Hno. exact (room_le db 1 2 ltac:(lia) Hroom).
Qed.

Lemma wp_InsertStat i s (Q : MetaKvStatus -> world -> Prop) :
  room db 1 -> stats db !! i = None ->
  (forall db', stats db' = <[i := s]> (stats db) -> dents db' = dents db ->
     Q INSERT_OK (with_db db' w)) ->
  wp (kv_put (fun db => InsertStat db i s)) Q w.
Proof.
  intros Hroom Hi HQ. destruct (InsertStat_fresh db i s Hi) as (st & db' & H & Hcase & Hd).
  eapply wp_kv_put; [exact H|].
  destruct Hcase as [[-> Hs]|[Hno _]]; [auto|contradiction].
Qed.

Lemma wp_UpdateStat i s (Q : MetaKvStatus -> world -> Prop) :
  is_Some (stats db !! i) ->
  (forall db', stats db' = <[i := s]> (stats db) -> dents db' = dents db ->
     Q UPDATE_OK (with_db db' w)) ->
  wp (kv_put (fun db => UpdateStat db i s)) Q w.
Proof.
  intros [s1 Hi] HQ. destruct (UpdateStat_found db i s s1 Hi) as (db' & H & Hs & Hd).
  eapply wp_kv_put; [exact H|]. auto.
Qed.

Lemma wp_DeleteFileInode p f i0 (Q : MetaKvStatus * Z -> world -> Prop) :
  (forall db' i, dents db !! (p, f) = Some i -> dents db' = delete (p, f) (dents db) ->
     stats db' = stats db -> Q (OK, i) (with_db db' w)) ->
  (forall db' i, dents db !! (p, f) = None -> dents db' = dents db ->
     stats db' = stats db -> Q (KEY_NOT_EXIST, i) (with_db db' w)) ->
  wp (kv_put (fun db => DeleteFileInode db p f i0)) Q w.
Proof.
  intros Hsome Hnone. destruct (dents db !! (p, f)) as [i|] eqn:E.
  - destruct (DeleteFileInode_found db p f i i0 E) as (db' & H & Hd & Hs).
    eapply wp_kv_put; [exact H|]. auto.
  - destruct (DeleteFileInode_missing db p f i0 E) as (i & db' & H & Hd & Hs).
    eapply wp_kv_put; [exact H|]. auto.
Qed.

Lemma wp_DeleteStat i (Q : MetaKvStatus -> world -> Prop) :
  is_Some (stats db !! i) ->
  (forall db', stats db' = delete i (stats db) -> dents db' = dents db ->
     Q OK (with_db db' w)) ->
  wp (kv_put (fun db => DeleteStat db i)) Q w.
Proof.
  intros [s1 Hi] HQ. destruct (DeleteStat_found db i s1 Hi) as (db' & H & Hs & Hd).
  eapply wp_kv_put; [exact H|]. auto.
Qed.

End Calls.

(** The world with another store, log and region map. *)
Definition with_region (rid : Z) (f : ServerRegion -> ServerRegion) (w : world) : world :=
  {| ctx := set_region_map (alter (fmap f) rid (region_map (ctx w))) (ctx w);
     glob := glob w; outbox := outbox w |}.

Lemma region_is_with w rid r f :
  region_is w rid r -> region_is (with_region rid f w) rid (f r).
Proof.
  unfold region_is, with_region. cbn. intros H. rewrite lookup_alter_eq, H. reflexivity.
Qed.

Lemma region_is_count w rid r n :
  region_is w rid r ->
  region_is (with_region rid (fun r => set_kv_num (i32 (kv_num r + n)) r) w) rid
            (set_kv_num (i32 (kv_num r + n)) r).
Proof. apply (region_is_with w rid r (fun r => set_kv_num (i32 (kv_num r + n)) r)). Qed.

Lemma wp_kv_num_add w rid n r (Q : unit -> world -> Prop) :
  region_is w rid r ->
  Q tt (with_region rid (fun r => set_kv_num (i32 (kv_num r + n)) r) w) ->
  wp (kv_num_add rid n) Q w.
Proof.
  intros Hr HQ. apply wp_bind. apply (wp_region_at w rid r); [exact Hr|]. exact HQ.
Qed.

(** ** The bookkeeping after an update *)

Lemma over_threshold_false r :
  0 <= kv_num r <= region_split_threshold -> over_threshold r = false.
Proof.
  intros H. unfold over_threshold, region_split_threshold in *.
  apply Z.ltb_ge. unfold u32. rewrite Z.mod_small; lia.
Qed.

(** No split starts: the counter is within the threshold or the region is being
    split already. *)
Lemma wp_maybe_split_idle fuel w rid r (Q : unit -> world -> Prop) :
  region_is w rid r ->
  region_status r = Normal /\ 0 <= kv_num r <= region_split_threshold \/
  region_status r = IsSplit ->
  Q tt w -> wp (maybe_split fuel rid) Q w.
Proof.
  intros Hr Hq HQ. apply wp_bind, (wp_region_at w rid r); [exact Hr|].
  destruct Hq as [[_ Hk]| ->].
  - rewrite over_threshold_false by exact Hk. exact HQ.
  - rewrite bool_decide_false, andb_false_r by discriminate. exact HQ.
Qed.

(** [w'] differs from [w] in the log and in the log id of region [rid] only. *)
Definition log_frame (rid : Z) (r : ServerRegion) (w w' : world) : Prop :=
  exists lid ldb m,
    w' = {| ctx := set_log_db ldb (set_region_map m (ctx w));
            glob := glob w; outbox := outbox w |} /\
    m !! rid = Some (Some (set_log_id lid r)) /\
    (forall k, k <> rid -> m !! k = region_map (ctx w) !! k).

Lemma log_frame_refl rid r w : region_is w rid r -> log_frame rid r w w.
Proof.
  intros Hr. exists (log_id r), (log_db (ctx w)), (region_map (ctx w)).
  split; [destruct w as [[] ? ?]; reflexivity|]. split; [|auto].
  rewrite Hr. destruct r; reflexivity.
Qed.

Lemma wp_log_put k v w (Q : unit -> world -> Prop) :
  (forall ldb, Q tt {| ctx := set_log_db ldb (ctx w); glob := glob w; outbox := outbox w |}) ->
  wp (log_put k v) Q w.
Proof.
  intros HQ. unfold log_put. apply wp_bind, wp_gets.
  destruct (rocks_put_ok (log_db (ctx w)) k v) as (ldb & -> & _).
  apply wp_bind, wp_modify, wp_assert; [reflexivity|]. apply HQ.
Qed.

Lemma wp_log_op pad flag rid del pinode fname st inode w r :
  region_is w rid r ->
  Z.of_nat (length (c_str fname)) < METAFS_MAX_FNAME_LEN ->
  del = true \/ is_Some st ->
  wp (log_op pad flag rid del pinode fname st inode) (fun _ w' => log_frame rid r w w') w.
Proof.
  intros Hr Hlen Harg. apply Z.ltb_lt in Hlen.
  assert (forall ldb, log_frame rid r w
    {| ctx := set_log_db ldb (ctx (with_region rid
                (fun r => set_log_id (i32 (log_id r + 1)) r) w));
       glob := glob w; outbox := outbox w |}) as Hend.
  { intros ldb. exists (i32 (log_id r + 1)), ldb. eexists. split; [reflexivity|].
    split; [apply (region_is_with w rid r (fun r => set_log_id (i32 (log_id r + 1)) r)), Hr|].
    intros k Hk. cbn. apply lookup_alter_ne. congruence. }
  unfold log_op. apply wp_bind, (wp_region_at w rid r); [exact Hr|].
  apply wp_bind, wp_modify. destruct del.
  - apply wp_bind, wp_assert; [exact Hlen|]. apply wp_log_put, Hend.
  - destruct Harg as [|[s ->]]; [discriminate|].
    apply wp_bind, wp_assert; [exact Hlen|]. apply wp_log_put, Hend.
Qed.

Lemma wp_log_if_split j rid del pinode fname st inode w r (Q : unit -> world -> Prop) :
  region_is w rid r ->
  Z.of_nat (length (c_str fname)) < METAFS_MAX_FNAME_LEN ->
  del = true \/ is_Some st ->
  (forall w', log_frame rid r w w' -> Q tt w') ->
  wp (log_if_split j rid del pinode fname st inode) Q w.
Proof.
  intros Hr Hlen Harg HQ. apply wp_bind, (wp_region_at w rid r); [exact Hr|].
  apply wp_when; intros _.
  - eapply wp_mono; [apply wp_log_op; eassumption|]. intros [] w'. apply HQ.
  - apply HQ, log_frame_refl, Hr.
Qed.

(** ** The abstract file system *)

(** Directory entries, stat records and the inode counter of one server thread. *)
Record afs := {
  a_dents : gmap (Z * bytes) Z;
  a_stats : gmap Z metafs_stat_t;
  a_next : Z
}.

Definition abs (w : world) : afs :=
  {| a_dents := dents (metadb (ctx w)); a_stats := stats (metadb (ctx w));
     a_next := alloc_inode (ctx w) |}.

Inductive a_reply :=
  | AErr (t : RespType)
  | AInode (i : Z)
  | AStat (i : Z) (st : metafs_stat_t)
  | ADone.

(** The wire response carries the reply; error responses leave the other fields
    unspecified. *)
Definition answers (a : a_reply) (r : wire_resp) : Prop :=
  match a, r with
  | AErr t, RInode x => ir_resp_type x = t
  | AErr t, RStat x => st_resp_type x = t
  | AErr t, RStatus x => x = t
  | AInode i, RInode x => ir_resp_type x = kSuccess /\ ir_inode x = i
  | AInode i, RStat x => st_resp_type x = kSuccess /\ st_inode x = i
  | AStat i st, RStat x => x = {| st_resp_type := kSuccess; st_inode := i; st_stat := st |}
  | ADone, RStatus x => x = kSuccess
  | _, _ => False
  end.

(** A new entry [(p, f)] with inode [i] and stat [st]. *)
Definition a_create (p : Z) (f : bytes) (i : Z) (st : metafs_stat_t) (s : afs)
  : a_reply * afs :=
  match a_dents s !! (p, f) with
  | Some _ => (AErr kEXIST, {| a_dents := a_dents s; a_stats := a_stats s;
                               a_next := u64 (a_next s + 1) |})
  | None => (AInode i, {| a_dents := <[(p, f) := i]> (a_dents s);
                          a_stats := <[i := st]> (a_stats s);
                          a_next := u64 (a_next s + 1) |})
  end.

Definition a_remove (p : Z) (f : bytes) (i : Z) (s : afs) : afs :=
  {| a_dents := delete (p, f) (a_dents s); a_stats := delete i (a_stats s);
     a_next := a_next s |}.

(** The key the server stores for the name array of a request. *)
Definition fkey (fname : bytes) : bytes := c_str fname ++ [0].

(** [open] for writing stamps the two times. *)
Definition opens_for_write (m : Z) : bool :=
  (Z.land m 3 =? O_WRONLY) || (Z.land m 3 =? O_RDWR).

Definition stamp (now : Z) (st : metafs_stat_t) : metafs_stat_t :=
  {| oid := oid st; mode := mode st; mtime := now; ctime := ctime st; atime := now |}.

(** What each namespace request means; [None] for the other requests.  A removed
    directory may have entries: the code does not refuse it. *)
Definition a_step (j : junk) (now : Z) (q : wire_req) (s : afs) : option (a_reply * afs) :=
  match q with
  | MknodReq r =>
      Some (a_create (kr_pinode r) (fkey (kr_fname r)) (a_next s)
              (stat_of_oid_mode (j_tv_sec j) (kr_oid r) (kr_mode r)) s)
  | FSMkdirReq r =>
      Some (a_create (mr_pinode r) (fkey (mr_fname r)) (Z.lor (a_next s) inode_prefix_msb)
              (stat_of_mode (j_tv_sec j) (mr_mode r)) s)
  | FSGetinodeReq r =>
      Some (match a_dents s !! (fr_pinode r, fkey (fr_fname r)) with
            | Some i => (AInode i, s)
            | None => (AErr kENOENT, s)
            end)
  | FSStatReq r =>
      Some (match a_dents s !! (fr_pinode r, fkey (fr_fname r)) with
            | Some i =>
                match a_stats s !! i with
                | Some st => (AStat i st, s)
                | None => (AErr kENOENT, s)
                end
            | None => (AErr kENOENT, s)
            end)
  | FSOpenReq r =>
      Some (match a_dents s !! (mr_pinode r, fkey (mr_fname r)) with
            | Some i =>
                match a_stats s !! i with
                | Some st =>
                    if opens_for_write (mr_mode r)
                    then (AStat i (stamp now st),
                          {| a_dents := a_dents s;
                             a_stats := <[i := stamp now st]> (a_stats s);
                             a_next := a_next s |})
                    else (AStat i st, s)
                | None => (AErr kENOENT, s)
                end
            | None => (AErr kENOENT, s)
            end)
  | FSUnlinkReq r =>
      Some (match a_dents s !! (fr_pinode r, fkey (fr_fname r)) with
            | Some i => (ADone, a_remove (fr_pinode r) (fkey (fr_fname r)) i s)
            | None => (AErr kENOENT, s)
            end)
  | FSRmdirReq r =>
      Some (match a_dents s !! (fr_pinode r, fkey (fr_fname r)) with
            | Some i =>
                if is_directory i
                then (ADone, a_remove (fr_pinode r) (fkey (fr_fname r)) i s)
                else (AErr kENOENT, s)
            | None => (AErr kENOENT, s)
            end)
  | _ => None
  end.

(** Region, hash and name of a namespace request. *)
Definition target (q : wire_req) : option (Z * Z * bytes) :=
  match q with
  | MknodReq r => Some (kr_region_id r, kr_pinode_hash r, kr_fname r)
  | FSMkdirReq r | FSOpenReq r => Some (mr_region_id r, mr_pinode_hash r, mr_fname r)
  | FSGetinodeReq r | FSStatReq r | FSUnlinkReq r | FSRmdirReq r =>
      Some (fr_region_id r, fr_pinode_hash r, fr_fname r)
  | _ => None
  end.

(** ** Well-formedness *)

(** The position of an inode in its thread's sequence: the directory bit aside. *)
Definition inode_seq (i : Z) : Z := i mod 2 ^ 63.

(** Every entry has a stat record, no two entries share an inode, no stat record
    has an inode the thread has still to hand out, and names fit their array. *)
Record afs_wf (limit : Z) (s : afs) : Prop := {
  wf_limit : 0 <= a_next s < limit /\ limit <= 2 ^ 63;
  wf_stat : forall k i, a_dents s !! k = Some i -> is_Some (a_stats s !! i);
  wf_inj : forall k k' i, a_dents s !! k = Some i -> a_dents s !! k' = Some i -> k = k';
  wf_fresh : forall i st, a_stats s !! i = Some st ->
    ~ (a_next s <= inode_seq i < limit);
  wf_name : forall k i, a_dents s !! k = Some i ->
    Z.of_nat (length (snd k)) <= METAFS_MAX_FNAME_LEN
}.

(** What a request needs: its region is served and quiet, the hash is in range and
    the name is terminated inside its array. *)
Record admissible (w : world) (rid h : Z) (fname : bytes) (r : ServerRegion) : Prop := {
  adm_region : region_is w rid r;
  adm_quiet : quiet r;
  adm_range : check_is_blong_to_region r h = true;
  adm_count : is_i32 (kv_num r);
  adm_nul : has_nul fname = true;
  adm_len : Z.of_nat (length (c_str fname)) < METAFS_MAX_FNAME_LEN
}.

(** The effect of a served request: one response, the abstract state [s'], and the
    entry counter moved by [d]; other regions and the globals are untouched. *)
Record effect (w w' : world) (rid : Z) (r : ServerRegion) (d : Z) (a : a_reply) (s' : afs)
  : Prop := {
  eff_abs : abs w' = s';
  eff_reply : exists resp, outbox w' = outbox w ++ [resp] /\ answers a resp;
  eff_glob : glob w' = glob w;
  eff_region : exists lid,
    region_is w' rid (set_log_id lid (set_kv_num (i32 (kv_num r + d)) r));
  eff_others : forall k, k <> rid -> region_map (ctx w') !! k = region_map (ctx w) !! k
}.

Lemma set_kv_num_same r : is_i32 (kv_num r) -> set_kv_num (i32 (kv_num r + 0)) r = r.
Proof. intros H. rewrite Z.add_0_r, i32_small by exact H. destruct r; reflexivity. Qed.

(** A handler that ends with a log step and a response. *)
Lemma effect_logged w0 w w' rid r d a s' resp :
  log_frame rid (set_kv_num (i32 (kv_num r + d)) r) w w' ->
  abs w = s' -> outbox w = outbox w0 -> glob w = glob w0 ->
  (forall k, k <> rid -> region_map (ctx w) !! k = region_map (ctx w0) !! k) ->
  answers a resp ->
  effect w0 {| ctx := ctx w'; glob := glob w'; outbox := outbox w' ++ [resp] |} rid r d a s'.
Proof.
  intros (lid & ldb & m & -> & Hm & Hk) <- Ho Hg Hothers Ha. split; cbn.
  - reflexivity.
  - exists resp. rewrite Ho. auto.
  - exact Hg.
  - exists lid. exact Hm.
  - intros k Hne. rewrite Hk by exact Hne. auto.
Qed.

(** A handler that leaves the regions alone. *)
Lemma effect_plain w0 w rid r a s resp :
  region_is w0 rid r -> is_i32 (kv_num r) ->
  region_map (ctx w) = region_map (ctx w0) -> outbox w = outbox w0 -> glob w = glob w0 ->
  abs w = s -> answers a resp ->
  effect w0 {| ctx := ctx w; glob := glob w; outbox := outbox w ++ [resp] |} rid r 0 a s.
Proof.
  intros Hr Hk Hm Ho Hg <- Ha. split; cbn; rewrite ?Hm, ?Ho; eauto.
  exists (log_id r). rewrite set_kv_num_same by exact Hk.
  unfold region_is. cbn. rewrite Hm. destruct r; exact Hr.
Qed.

(** The common prologue of the namespace handlers. *)
Lemma wp_prologue {A} w rid h fname r c (k : bool -> M world A) (Q : A -> world -> Prop) :
  admissible w rid h fname r ->
  wp (k true) Q w ->
  wp (bind (when_ (negb (check_is_blong_to_region r h)) c)
        (fun _ => bind (check_region_status r) k)) Q w.
Proof.
  intros [Hr Hq Hb _ _ _] Hk. rewrite Hb. apply wp_bind, wp_ret, wp_bind.
  apply wp_check_status; [exact Hq|exact Hk].
Qed.

Lemma fs_stat_refines j now w req resp r a s' :
  admissible w (fr_region_id req) (fr_pinode_hash req) (fr_fname req) r ->
  a_step j now (FSStatReq req) (abs w) = Some (a, s') ->
  wp (fs_stat_handler j req resp) (fun _ w' => effect w w' (fr_region_id req) r 0 a s') w.
Proof.
  intros Hadm [= Hstep]. pose proof Hadm as [Hr Hq _ Hkv Hnul _].
  apply wp_bind, (wp_region_at w _ r); [exact Hr|].
  eapply wp_prologue; [exact Hadm|]. cbn beta iota.
  apply wp_bind, wp_fname_slice; [exact Hnul|]. fold (fkey (fr_fname req)).
  cbn [abs a_dents a_stats] in Hstep. apply wp_bind, wp_GetFileInode; intros i Hd;
    rewrite Hd in Hstep; cbn [check_status_ok].
  - apply wp_bind, wp_bind, wp_GetStat; intros st Hs; rewrite Hs in Hstep;
      injection Hstep as <- <-;
      apply wp_ret, wp_bind, wp_ret, wp_modify, effect_plain; auto; reflexivity.
  - injection Hstep as <- <-.
    apply wp_bind, wp_ret, wp_bind, wp_ret, wp_modify, effect_plain; auto; reflexivity.
Qed.

Lemma fs_getinode_refines j now w req resp r a s' :
  admissible w (fr_region_id req) (fr_pinode_hash req) (fr_fname req) r ->
  a_step j now (FSGetinodeReq req) (abs w) = Some (a, s') ->
  wp (fs_getinode_handler j req resp) (fun _ w' => effect w w' (fr_region_id req) r 0 a s') w.
Proof.
  intros Hadm [= Hstep]. pose proof Hadm as [Hr Hq _ Hkv Hnul _].
  apply wp_bind, (wp_region_at w _ r); [exact Hr|].
  eapply wp_prologue; [exact Hadm|]. cbn beta iota.
  apply wp_bind, wp_fname_slice; [exact Hnul|]. fold (fkey (fr_fname req)).
  cbn [abs a_dents a_stats] in Hstep. apply wp_bind, wp_GetFileInode; intros i Hd;
    rewrite Hd in Hstep; injection Hstep as <- <-;
    apply wp_bind, wp_ret, wp_modify, effect_plain; auto; split; reflexivity.
Qed.

Lemma fs_open_refines j now w req resp r a s' :
  admissible w (mr_region_id req) (mr_pinode_hash req) (mr_fname req) r ->
  a_step j now (FSOpenReq req) (abs w) = Some (a, s') ->
  wp (fs_open_handler j now req resp)
     (fun _ w' => effect w w' (mr_region_id req) r 0 a s') w.
Proof.
  intros Hadm [= Hstep]. pose proof Hadm as [Hr Hq _ Hkv Hnul _].
  apply wp_bind, (wp_region_at w _ r); [exact Hr|].
  eapply wp_prologue; [exact Hadm|]. cbn beta iota.
  apply wp_bind, wp_fname_slice; [exact Hnul|]. fold (fkey (mr_fname req)).
  cbn [abs a_dents a_stats] in Hstep. apply wp_bind, wp_GetFileInode; intros i Hd;
    rewrite Hd in Hstep; cbn [check_status_ok].
  2: { injection Hstep as <- <-.
       apply wp_bind, wp_ret, wp_bind, wp_ret, wp_modify, effect_plain; auto; reflexivity. }
  apply wp_bind, wp_bind, wp_GetStat; intros st Hs; rewrite Hs in Hstep; cbn [check_status_ok].
  2: { injection Hstep as <- <-.
       apply wp_ret, wp_bind, wp_ret, wp_modify, effect_plain; auto; reflexivity. }
  fold (opens_for_write (mr_mode req)). destruct (opens_for_write (mr_mode req)).
  2: { injection Hstep as <- <-.
       apply wp_ret, wp_bind, wp_ret, wp_modify, effect_plain; auto; reflexivity. }
  injection Hstep as <- <-.
  apply wp_bind, wp_UpdateStat; [eauto|]. intros db' Hst Hde.
  apply wp_ret, wp_bind, wp_ret, wp_modify. apply effect_plain; auto; [|reflexivity].
  unfold abs. cbn. rewrite Hst, Hde. reflexivity.
Qed.

(** The tail of an update: no split starts, the operation is logged if the region
    is being split, the response leaves. *)
Lemma wp_epilogue j w0 w rid r d del pinode fname st inode a s' resp :
  region_is w rid (set_kv_num (i32 (kv_num r + d)) r) ->
  Z.of_nat (length (c_str fname)) < METAFS_MAX_FNAME_LEN ->
  del = true \/ is_Some st ->
  abs w = s' -> outbox w = outbox w0 -> glob w = glob w0 ->
  (forall k, k <> rid -> region_map (ctx w) !! k = region_map (ctx w0) !! k) ->
  answers a resp ->
  wp (bind (log_if_split j rid del pinode fname st inode) (fun _ => enqueue_response resp))
     (fun _ w' => effect w0 w' rid r d a s') w.
Proof.
  intros Hr Hlen Harg Habs Ho Hg Hk Ha. apply wp_bind.
  eapply wp_log_if_split; [exact Hr|exact Hlen|exact Harg|].
  intros w' Hf. apply wp_modify. eapply effect_logged; eauto.
Qed.

Lemma quiet_after_insert r :
  quiet r ->
  let r' := set_kv_num (i32 (kv_num r + 1)) r in
  region_status r' = Normal /\ 0 <= kv_num r' <= region_split_threshold \/
  region_status r' = IsSplit.
Proof.
  intros [[Hs Hk]|Hs]; [left|right; exact Hs]. cbn. split; [exact Hs|].
  unfold region_split_threshold in *. rewrite i32_small by (unfold is_i32; lia). lia.
Qed.

Lemma quiet_idle r :
  quiet r ->
  region_status r = Normal /\ 0 <= kv_num r <= region_split_threshold \/
  region_status r = IsSplit.
Proof. intros [[Hs Hk]|Hs]; [left; split; [exact Hs|lia]|right; exact Hs]. Qed.

Definition kv_delta (s s' : afs) : Z :=
  Z.of_nat (size (a_dents s')) - Z.of_nat (size (a_dents s)).

Lemma kv_delta_same s s' : a_dents s' = a_dents s -> kv_delta s s' = 0.
Proof. unfold kv_delta. intros ->. lia. Qed.

Lemma kv_delta_insert s k i st n :
  a_dents s !! k = None ->
  kv_delta s {| a_dents := <[k := i]> (a_dents s); a_stats := st; a_next := n |} = 1.
Proof.
  intros H. unfold kv_delta. cbn. rewrite map_size_insert_None by exact H. lia.
Qed.

Lemma kv_delta_delete s k i st n :
  a_dents s !! k = Some i ->
  kv_delta s {| a_dents := delete k (a_dents s); a_stats := st; a_next := n |} = -1.
Proof.
  intros H. unfold kv_delta. cbn. rewrite map_size_delete_Some by eauto.
  assert (size (a_dents s) <> 0%nat).
  { intros E. apply map_size_empty_inv in E. rewrite E in H. discriminate. }
  lia.
Qed.

(** The inode [mknod] hands out and the one [mkdir] hands out have the counter's
    value as their position. *)
Lemma inode_seq_file limit n : 0 <= n < limit /\ limit <= 2 ^ 63 -> inode_seq n = n.
Proof. intros H. unfold inode_seq. apply Z.mod_small. lia. Qed.

Lemma lor_msb_add n : 0 <= n < 2 ^ 63 -> Z.lor n inode_prefix_msb = n + 2 ^ 63.
Proof.
  intros H. change inode_prefix_msb with (2 ^ 63).
  rewrite <- Z.lxor_lor, <- Z.add_nocarry_lxor; try reflexivity.
  all: apply Z.bits_inj_iff'; intros k Hk; rewrite Z.land_spec, Z.bits_0.
  all: destruct (Z.eq_dec k 63) as [->|];
    [|rewrite (Z.pow2_bits_false 63) by lia; apply andb_false_r].
  all: destruct (Z.eq_dec n 0) as [->|]; [reflexivity|].
  all: rewrite Z.bits_above_log2; [reflexivity|lia|apply Z.log2_lt_pow2; lia].
Qed.

Lemma inode_seq_dir limit n :
  0 <= n < limit /\ limit <= 2 ^ 63 -> inode_seq (Z.lor n inode_prefix_msb) = n.
Proof.
  intros H. rewrite lor_msb_add by lia. unfold inode_seq.
  rewrite <- (Z.mul_1_l (2 ^ 63)) at 1. rewrite Z.mod_add by lia.
  apply Z.mod_small. lia.
Qed.

Lemma fresh_inode limit s i :
  afs_wf limit s -> inode_seq i = a_next s -> a_stats s !! i = None.
Proof.
  intros Hwf Hi. destruct (a_stats s !! i) as [st|] eqn:E; [|reflexivity].
  exfalso. apply (wf_fresh _ _ Hwf i st E). rewrite Hi. pose proof (wf_limit _ _ Hwf). lia.
Qed.

Lemma wp_when_any (b : bool) (f : world -> world) (Q : unit -> world -> Prop) w :
  (forall w', w' = w \/ w' = f w -> Q tt w') -> wp (when_ b (modify f)) Q w.
Proof. intros H. apply wp_when; intros _; [apply wp_modify|]; apply H; auto. Qed.

Lemma fs_mknod_refines fuel limit j now w req resp r a s' :
  admissible w (kr_region_id req) (kr_pinode_hash req) (kr_fname req) r ->
  afs_wf limit (abs w) -> room (metadb (ctx w)) 2 ->
  a_step j now (MknodReq req) (abs w) = Some (a, s') ->
  wp (fs_mknod_handler fuel j req resp)
     (fun _ w' => effect w w' (kr_region_id req) r (kv_delta (abs w) s') a s') w.
Proof.
  intros Hadm Hwf Hroom [= Hstep]. pose proof Hadm as [Hr Hq _ Hkv Hnul Hlen].
  apply wp_bind, (wp_region_at w _ r); [exact Hr|].
  eapply wp_prologue; [exact Hadm|]. cbn beta iota.
  apply wp_bind, wp_gets, wp_bind, wp_modify.
  apply wp_bind, wp_fname_slice; [exact Hnul|]. fold (fkey (kr_fname req)).
  unfold a_create in Hstep. cbn [abs a_dents a_stats a_next] in Hstep.
  apply wp_bind, wp_InsertFileInode; cbn [ctx metadb set_alloc_inode]; [exact Hroom| |].
  - intros db' i Hd Hd' Hs'. rewrite Hd in Hstep. injection Hstep as <- <-.
    apply wp_bind, wp_ret, wp_bind.
    eapply wp_maybe_split_idle; [exact Hr|apply quiet_idle, Hq|].
    rewrite kv_delta_same by reflexivity. eapply wp_epilogue; eauto; cbn.
    + rewrite set_kv_num_same by exact Hkv. exact Hr.
    + unfold abs. cbn. rewrite Hd', Hs'. reflexivity.
    + reflexivity.
  - intros db1 Hd Hd1 Hs1 Hroom1. rewrite Hd in Hstep. injection Hstep as <- <-.
    cbn [check_status_ok]. apply wp_bind, wp_bind, wp_InsertStat; cbn; [exact Hroom1| |].
    { rewrite Hs1. apply (fresh_inode limit (abs w)); [exact Hwf|].
      eapply inode_seq_file, Hwf. }
    intros db2 Hs2 Hd2. apply wp_bind. eapply wp_kv_num_add; [exact Hr|].
    rewrite (kv_delta_insert (abs w)) by exact Hd.
    apply wp_ret, wp_bind. eapply wp_maybe_split_idle;
      [eapply region_is_count; exact Hr|apply quiet_after_insert, Hq|].
    eapply wp_epilogue; eauto; cbn.
    + eapply region_is_count, Hr.
    + unfold abs. cbn. rewrite Hd2, Hs2, Hd1, Hs1. reflexivity.
    + intros k Hk. apply lookup_alter_ne. congruence.
    + auto.
Qed.

Lemma fs_mkdir_refines fuel limit j now w req resp r a s' :
  admissible w (mr_region_id req) (mr_pinode_hash req) (mr_fname req) r ->
  afs_wf limit (abs w) -> room (metadb (ctx w)) 2 ->
  a_step j now (FSMkdirReq req) (abs w) = Some (a, s') ->
  wp (fs_mkdir_handler fuel j req resp)
     (fun _ w' => effect w w' (mr_region_id req) r (kv_delta (abs w) s') a s') w.
Proof.
  intros Hadm Hwf Hroom [= Hstep]. pose proof Hadm as [Hr Hq _ Hkv Hnul Hlen].
  apply wp_bind, (wp_region_at w _ r); [exact Hr|].
  eapply wp_prologue; [exact Hadm|]. cbn beta iota.
  apply wp_bind, wp_gets, wp_bind, wp_modify.
  apply wp_bind, wp_fname_slice; [exact Hnul|]. fold (fkey (mr_fname req)).
  unfold a_create in Hstep. cbn [abs a_dents a_stats a_next] in Hstep.
  apply wp_bind, wp_InsertFileInode; cbn [ctx metadb set_alloc_inode]; [exact Hroom| |].
  - intros db' i Hd Hd' Hs'. rewrite Hd in Hstep. injection Hstep as <- <-.
    apply wp_bind, wp_ret, wp_bind.
    eapply wp_maybe_split_idle; [exact Hr|apply quiet_idle, Hq|].
    rewrite kv_delta_same by reflexivity. eapply wp_epilogue; eauto; cbn.
    + rewrite set_kv_num_same by exact Hkv. exact Hr.
    + unfold abs. cbn. rewrite Hd', Hs'. reflexivity.
    + reflexivity.
  - intros db1 Hd Hd1 Hs1 Hroom1. rewrite Hd in Hstep. injection Hstep as <- <-.
    cbn [check_status_ok]. apply wp_bind, wp_bind, wp_InsertStat; cbn; [exact Hroom1| |].
    { rewrite Hs1. apply (fresh_inode limit (abs w)); [exact Hwf|].
      eapply inode_seq_dir, Hwf. }
    intros db2 Hs2 Hd2. apply wp_bind. eapply wp_kv_num_add; [exact Hr|].
    rewrite (kv_delta_insert (abs w)) by exact Hd.
    apply wp_bind. eapply wp_region_at; [eapply region_is_count; exact Hr|].
    apply wp_bind, wp_when_any. intros w2 Hw2. apply wp_ret, wp_bind.
    eapply wp_maybe_split_idle;
      [destruct Hw2 as [-> | ->]; eapply region_is_count; exact Hr
      |apply quiet_after_insert, Hq|].
    eapply wp_epilogue; eauto; cbn.
    + destruct Hw2 as [-> | ->]; eapply region_is_count, Hr.
    + unfold abs. destruct Hw2 as [-> | ->]; cbn; rewrite Hd2, Hs2, Hd1, Hs1; reflexivity.
    + destruct Hw2 as [-> | ->]; reflexivity.
    + destruct Hw2 as [-> | ->]; reflexivity.
    + intros k Hk. destruct Hw2 as [-> | ->]; apply lookup_alter_ne; congruence.
    + auto.
Qed.

Lemma fs_unlink_refines limit j now w req r a s' :
  admissible w (fr_region_id req) (fr_pinode_hash req) (fr_fname req) r ->
  afs_wf limit (abs w) ->
  a_step j now (FSUnlinkReq req) (abs w) = Some (a, s') ->
  wp (fs_unlink_handler j req)
     (fun _ w' => effect w w' (fr_region_id req) r (kv_delta (abs w) s') a s') w.
Proof.
  intros Hadm Hwf [= Hstep]. pose proof Hadm as [Hr Hq _ Hkv Hnul Hlen].
  apply wp_bind, (wp_region_at w _ r); [exact Hr|].
  eapply wp_prologue; [exact Hadm|]. cbn beta iota.
  apply wp_bind, wp_fname_slice; [exact Hnul|]. fold (fkey (fr_fname req)).
  cbn [abs a_dents a_stats] in Hstep. apply wp_bind, wp_DeleteFileInode;
    intros db1 i Hd Hd1 Hs1; rewrite Hd in Hstep; injection Hstep as <- <-;
    cbn [check_status_ok].
  - apply wp_bind, wp_bind, wp_DeleteStat; cbn.
    { rewrite Hs1. apply (wf_stat _ _ Hwf _ _ Hd). }
    intros db2 Hs2 Hd2. apply wp_bind. eapply wp_kv_num_add; [exact Hr|].
    unfold a_remove. erewrite (kv_delta_delete (abs w)) by exact Hd.
    apply wp_ret. eapply wp_epilogue; eauto; cbn.
    + eapply region_is_count, Hr.
    + unfold abs. cbn. rewrite Hd2, Hs2, Hd1, Hs1. reflexivity.
    + intros k Hk. apply lookup_alter_ne. congruence.
    + reflexivity.
  - apply wp_bind, wp_ret. rewrite kv_delta_same by reflexivity.
    eapply wp_epilogue; eauto; cbn.
    + rewrite set_kv_num_same by exact Hkv. exact Hr.
    + unfold abs. cbn. rewrite Hd1, Hs1. reflexivity.
    + reflexivity.
Qed.

Lemma dirents_fit limit w p max :
  afs_wf limit (abs w) -> METAFS_MAX_FNAME_LEN + 16 <= max ->
  Forall (fun e => Z.of_nat (length (dirent_bytes p e)) <= max)
         (dir_list (metadb (ctx w)) p).
Proof.
  intros Hwf Hmax. apply Forall_forall. intros [f i] Hin. apply dir_list_spec in Hin.
  pose proof (wf_name _ _ Hwf _ _ Hin) as Hf. cbn in Hf.
  unfold dirent_bytes. cbn [fst snd]. rewrite !length_app, !length_le_bytes. lia.
Qed.

(** The emptiness test of [rmdir] never holds: an empty directory has no result
    buffer, and a buffer never has zero entries. *)
Lemma rmdir_scan limit w p :
  afs_wf limit (abs w) ->
  let '(status, res) := ReadDir (metadb (ctx w)) p 0 256 in
  match res with
  | None => (OK, false)
  | Some b => (status, rel_count b =? 0)
  end = (OK, false).
Proof.
  intros Hwf. set (db := metadb (ctx w)).
  destruct (Nat.le_gt_cases (length (dir_list db p)) (cursor db p 0)) as [H|H].
  - destruct (ReadDir_end db p 0 256 H) as (st & -> & _). reflexivity.
  - destruct (ReadDir_chunk db p 0 256 H) as (b & n & -> & Hn & _ & -> & _).
    + apply (dirents_fit limit w); [exact Hwf|]. unfold METAFS_MAX_FNAME_LEN. lia.
    + f_equal. apply Z.eqb_neq. lia.
Qed.

Lemma fs_rmdir_refines limit j now w req r a s' :
  admissible w (fr_region_id req) (fr_pinode_hash req) (fr_fname req) r ->
  afs_wf limit (abs w) ->
  a_step j now (FSRmdirReq req) (abs w) = Some (a, s') ->
  wp (fs_rmdir_handler j req)
     (fun _ w' => effect w w' (fr_region_id req) r (kv_delta (abs w) s') a s') w.
Proof.
  intros Hadm Hwf [= Hstep]. pose proof Hadm as [Hr Hq _ Hkv Hnul Hlen].
  apply wp_bind, (wp_region_at w _ r); [exact Hr|].
  eapply wp_prologue; [exact Hadm|]. cbn beta iota.
  apply wp_bind, wp_fname_slice; [exact Hnul|]. fold (fkey (fr_fname req)).
  cbn [abs a_dents a_stats] in Hstep. apply wp_bind, wp_GetFileInode; intros i Hd;
    rewrite Hd in Hstep; cbn [check_status_ok].
  2: { injection Hstep as <- <-. rewrite kv_delta_same by reflexivity.
       destruct (is_directory i);
         apply wp_bind, wp_ret, wp_bind, wp_ret, wp_modify, effect_plain; auto; reflexivity. }
  destruct (is_directory i); injection Hstep as <- <-.
  2: { rewrite kv_delta_same by reflexivity.
       apply wp_bind, wp_ret, wp_bind, wp_ret, wp_modify, effect_plain; auto; reflexivity. }
  apply wp_bind, wp_bind, wp_kv_get.
  pose proof (rmdir_scan limit w i Hwf) as Hscan.
  destruct (ReadDir (metadb (ctx w)) i 0 256) as [status res]. rewrite Hscan.
  cbn [check_status_ok negb andb]. apply wp_bind, wp_DeleteFileInode;
    intros db1 i' Hd' Hd1 Hs1; rewrite Hd' in Hd; [injection Hd as ->|discriminate].
  cbn [check_status_ok]. apply wp_bind, wp_DeleteStat; cbn.
  { rewrite Hs1. apply (wf_stat _ _ Hwf _ _ Hd'). }
  intros db2 Hs2 Hd2. apply wp_bind. eapply wp_kv_num_add; [exact Hr|].
  apply wp_bind. eapply wp_log_if_split; eauto; [eapply region_is_count, Hr|].
  intros w' Hf. apply wp_ret, wp_bind, wp_ret, wp_modify.
  unfold a_remove. erewrite (kv_delta_delete (abs w)) by exact Hd'.
  eapply effect_logged; [exact Hf|..]; auto; cbn.
  - unfold abs. cbn. rewrite Hd2, Hs2, Hd1, Hs1. reflexivity.
  - intros k Hk. apply lookup_alter_ne. congruence.
  - reflexivity.
Qed.

(** ** The invariant is preserved *)

Lemma a_create_wf limit p f i st s :
  afs_wf limit s -> a_next s + 1 < limit -> inode_seq i = a_next s ->
  Z.of_nat (length f) <= METAFS_MAX_FNAME_LEN ->
  afs_wf limit (snd (a_create p f i st s)).
Proof.
  intros Hwf Hnext Hi Hf. pose proof (fresh_inode _ _ _ Hwf Hi) as Hnew.
  destruct Hwf as [Hlim Hstat Hinj Hfresh Hname].
  assert (u64 (a_next s + 1) = a_next s + 1) as Hu by (apply u64_small; unfold is_u64; lia).
  assert (forall k, a_dents s !! k <> Some i) as Hno.
  { intros k Hk. destruct (Hstat _ _ Hk). congruence. }
  unfold a_create. destruct (a_dents s !! (p, f)) as [i'|] eqn:Hd; cbn; split; cbn;
    rewrite ?Hu; try lia; try assumption.
  - intros i0 st0 H0 Hr. apply (Hfresh i0 st0 H0). lia.
  - intros k i0. rewrite !lookup_insert_Some. intros [[<- <-]|[Hk H0]].
    + rewrite lookup_insert_eq. eauto.
    + rewrite lookup_insert_ne; [eauto|]. intros ->. apply (Hno k H0).
  - intros k k' i0. rewrite !lookup_insert_Some.
    intros [[<- <-]|[Hk H0]] [[<- Hi0]|[Hk' H0']]; subst; eauto;
      exfalso; eapply Hno; eassumption.
  - intros i0 st0. rewrite lookup_insert_Some. intros [[<- <-]|[Hne H0]] Hr; [lia|].
    apply (Hfresh i0 st0 H0). lia.
  - intros k i0. rewrite lookup_insert_Some. intros [[<- <-]|[Hk H0]]; [exact Hf|eauto].
Qed.

Lemma a_remove_wf limit p f i s :
  afs_wf limit s -> a_dents s !! (p, f) = Some i -> afs_wf limit (a_remove p f i s).
Proof.
  intros [Hlim Hstat Hinj Hfresh Hname] Hd. split; cbn; try assumption.
  - intros k i0. rewrite lookup_delete_Some. intros [Hk H0].
    rewrite lookup_delete_ne; [eauto|]. intros ->. apply Hk. eapply Hinj; eassumption.
  - intros k k' i0. rewrite !lookup_delete_Some. intros [_ H0] [_ H1]. eauto.
  - intros i0 st0. rewrite lookup_delete_Some. intros [_ H0]. eauto.
  - intros k i0. rewrite lookup_delete_Some. intros [_ H0]. eauto.
Qed.

Lemma a_stamp_wf limit i st st' s :
  afs_wf limit s -> a_stats s !! i = Some st ->
  afs_wf limit {| a_dents := a_dents s; a_stats := <[i := st']> (a_stats s);
                  a_next := a_next s |}.
Proof.
  intros [Hlim Hstat Hinj Hfresh Hname] Hs. split; cbn; try assumption.
  - intros k i0 H0. destruct (decide (i = i0)) as [->|Hne].
    + rewrite lookup_insert_eq. eauto.
    + rewrite lookup_insert_ne by exact Hne. eauto.
  - intros i0 st0. rewrite lookup_insert_Some. intros [[<- _]|[_ H0]]; eauto.
Qed.

Lemma length_fkey fname :
  Z.of_nat (length (c_str fname)) < METAFS_MAX_FNAME_LEN ->
  Z.of_nat (length (fkey fname)) <= METAFS_MAX_FNAME_LEN.
Proof. unfold fkey. rewrite length_app. cbn. lia. Qed.

Lemma a_step_wf limit j now q rid h fname s a s' :
  target q = Some (rid, h, fname) ->
  Z.of_nat (length (c_str fname)) < METAFS_MAX_FNAME_LEN ->
  afs_wf limit s -> a_next s + 1 < limit ->
  a_step j now q s = Some (a, s') -> afs_wf limit s'.
Proof.
  intros Ht Hf%length_fkey Hwf Hnext. pose proof (wf_limit _ _ Hwf) as Hlim.
  destruct q; try discriminate; injection Ht as <- <- <-; cbn [a_step]; intros [= Hs].
  - destruct (a_dents s !! _) as [i|]; [|congruence].
    destruct (a_stats s !! i) as [st|] eqn:E; [|congruence].
    destruct (opens_for_write _); injection Hs as _ <-; [|assumption].
    eapply a_stamp_wf; eassumption.
  - destruct (a_dents s !! _) as [i|] eqn:E; injection Hs as _ <-; [|assumption].
    apply a_remove_wf; assumption.
  - destruct (a_dents s !! _) as [i|]; [|congruence].
    destruct (a_stats s !! i); congruence.
  - apply (f_equal snd) in Hs. cbn in Hs. subst s'.
    apply a_create_wf; auto. eapply inode_seq_file, Hlim.
  - apply (f_equal snd) in Hs. cbn in Hs. subst s'.
    apply a_create_wf; auto. eapply inode_seq_dir, Hlim.
  - destruct (a_dents s !! _) as [i|] eqn:E; [|congruence].
    destruct (is_directory i); injection Hs as _ <-; [|assumption].
    apply a_remove_wf; assumption.
  - destruct (a_dents s !! _) as [i|]; congruence.
Qed.

(** ** The space a request uses *)

(** [c] does at most [k] writes. *)
Definition spends {A} (k : nat) (c : M world A) : Prop :=
  forall w a w', c w = Done (a, w') ->
  forall n, room (metadb (ctx w)) (k + n) -> room (metadb (ctx w')) n.

Lemma spends_same {A} k (c : M world A) :
  (forall w a w', c w = Done (a, w') -> metadb (ctx w') = metadb (ctx w)) -> spends k c.
Proof. intros Hc w a w' H n Hr. rewrite (Hc _ _ _ H). eapply room_le; [|exact Hr]. lia. Qed.

Lemma spends_ret {A} k (a : A) : spends k (ret a).
Proof. apply spends_same. intros w x w' [= _ <-]. reflexivity. Qed.

Lemma spends_raise {A} k f : spends k (raise f : M world A).
Proof. apply spends_same. discriminate. Qed.

Lemma spends_gets {A} k (f : world -> A) : spends k (gets f).
Proof. apply spends_same. intros w x w' [= _ <-]. reflexivity. Qed.

Lemma spends_modify k f : (forall w, metadb (ctx (f w)) = metadb (ctx w)) -> spends k (modify f).
Proof. intros Hf. apply spends_same. intros w x w' [= _ <-]. apply Hf. Qed.

Lemma spends_put {A} k (f : MetaDb -> A * MetaDb) :
  (forall db n, room db (S n) -> room (snd (f db)) n) -> spends (S k) (kv_put f).
Proof.
  intros Hf w a w' H n Hr. unfold kv_put, bind, gets in H.
  pose proof (Hf (metadb (ctx w)) (k + n)%nat Hr) as Hf'.
  destruct (f (metadb (ctx w))) as [x db']. injection H as <- <-. cbn in *.
  eapply room_le; [|exact Hf']. lia.
Qed.

Lemma spends_bind {A B} k k' (c : M world A) (f : A -> M world B) :
  spends k c -> (forall a, spends k' (f a)) -> spends (k + k') (bind c f).
Proof.
  intros Hc Hf w b w' H n Hr. apply bind_Done in H as (a & w1 & H1 & H2).
  apply (Hf a w1 b w' H2 n), (Hc w a w1 H1 (k' + n)%nat). rewrite Nat.add_assoc. exact Hr.
Qed.

Lemma spends_bind_free {A B} k (c : M world A) (f : A -> M world B) :
  spends 0 c -> (forall a, spends k (f a)) -> spends k (bind c f).
Proof. apply (spends_bind 0 k). Qed.

Lemma spends_bind_one {A B} k (c : M world A) (f : A -> M world B) :
  spends 1 c -> (forall a, spends k (f a)) -> spends (S k) (bind c f).
Proof. apply (spends_bind 1 k). Qed.

Lemma spends_bind_last {A B} k (c : M world A) (f : A -> M world B) :
  spends k c -> (forall a, spends 0 (f a)) -> spends k (bind c f).
Proof. rewrite <- (Nat.add_0_r k) at 2. apply spends_bind. Qed.

Create HintDb spends discriminated.

Ltac spends_step :=
  match goal with
  | |- forall _, _ => intros
  | |- spends _ (ret _) => apply spends_ret
  | |- spends _ (raise _) => apply spends_raise
  | |- spends _ (gets _) => apply spends_gets
  | |- spends _ (kv_get _) => apply spends_gets
  | |- spends _ (modify _) => apply spends_modify; reflexivity
  | |- spends _ (upd_ctx _) => apply spends_modify; reflexivity
  | |- spends _ (upd_glob _) => apply spends_modify; reflexivity
  | |- spends _ (upd_region _ _) => apply spends_modify; reflexivity
  | |- spends _ (enqueue_response _) => apply spends_modify; reflexivity
  | |- spends _ (kv_put _) =>
      apply spends_put; intros;
      first [ apply InsertFileInode_room | apply DeleteFileInode_room | apply InsertStat_room
            | apply UpdateStat_room | apply DeleteStat_room ]; assumption
  | |- spends 0 _ => solve [auto with spends]
  | |- spends _ (if ?b then _ else _) => destruct b
  | |- spends _ (match ?x with _ => _ end) => destruct x
  end.

Ltac spends :=
  repeat first [ spends_step | progress unfold when_, p_assert
               | apply spends_bind_free; [solve [spends]|]
               | apply spends_bind_one; [solve [spends]|]
               | apply spends_bind_last; [solve [spends]|] ].

Lemma spends_region_at rid : spends 0 (region_at rid).
Proof. unfold region_at. spends. Qed.

#[local] Hint Resolve spends_region_at : spends.

Lemma spends_kv_num rid d : spends 0 (kv_num_add rid d).
Proof. unfold kv_num_add. spends. Qed.

Lemma spends_split fuel rid : spends 0 (maybe_split fuel rid).
Proof.
  assert (spends 0 (fresh_region_id fuel)) as Hf
    by (induction fuel; cbn [fresh_region_id]; unfold jump_target; spends).
  unfold maybe_split, check_region_and_split. spends.
Qed.

Lemma spends_log j rid del p f st i : spends 0 (log_if_split j rid del p f st i).
Proof. unfold log_if_split, log_op, log_put. spends. Qed.

#[local] Hint Resolve spends_kv_num spends_split spends_log : spends.

(** A namespace request does at most two writes. *)
Lemma serve_spends fuel j now old q rid h fname :
  target q = Some (rid, h, fname) -> spends 2 (serve fuel j now old q).
Proof.
  intros Ht. destruct q; try discriminate; cbn [serve];
    unfold fs_open_handler, fs_unlink_handler, fs_stat_handler, fs_mknod_handler,
      fs_mkdir_handler, fs_rmdir_handler, fs_getinode_handler, fname_slice,
      check_region_status, convert_status_to_resptype; cbv zeta; spends.
Qed.

(** ** One request *)

Lemma effect_delta w w' rid r a s s' :
  a_dents s' = a_dents s ->
  effect w w' rid r 0 a s' -> effect w w' rid r (kv_delta s s') a s'.
Proof. intros Hd. rewrite kv_delta_same by exact Hd. auto. Qed.

Lemma serve_wp fuel limit j now old q w r rid h fname a s' :
  target q = Some (rid, h, fname) ->
  admissible w rid h fname r ->
  afs_wf limit (abs w) -> room (metadb (ctx w)) 2 ->
  a_step j now q (abs w) = Some (a, s') ->
  wp (serve fuel j now old q) (fun _ w' => effect w w' rid r (kv_delta (abs w) s') a s') w.
Proof.
  intros Ht Hadm Hwf Hroom Hstep.
  destruct q; try discriminate; injection Ht as <- <- <-; cbn [serve].
  - eapply wp_mono; [eapply fs_open_refines; eassumption|]. intros [] w'. apply effect_delta.
    cbn in Hstep. injection Hstep as Hs.
    repeat case_match; injection Hs as _ <-; reflexivity.
  - eapply fs_unlink_refines; eassumption.
  - eapply wp_mono; [eapply fs_stat_refines; eassumption|]. intros [] w'. apply effect_delta.
    cbn in Hstep. injection Hstep as Hs.
    repeat case_match; injection Hs as _ <-; reflexivity.
  - eapply fs_mknod_refines; eassumption.
  - eapply fs_mkdir_refines; eassumption.
  - eapply fs_rmdir_refines; eassumption.
  - eapply wp_mono; [eapply fs_getinode_refines; eassumption|]. intros [] w'.
    apply effect_delta. cbn in Hstep. injection Hstep as Hs.
    repeat case_match; injection Hs as _ <-; reflexivity.
Qed.

Lemma a_step_target j now q s rid h fname :
  target q = Some (rid, h, fname) -> exists a s', a_step j now q s = Some (a, s').
Proof.
  destruct q; try discriminate; intros _; cbn [a_step];
    eexists _, _; rewrite <- surjective_pairing; reflexivity.
Qed.

(** ** A session *)

(** The requests of a session, each with its uninitialised values, the clock and the
    old buffer content. *)
Definition call : Type := (junk * Z * stale * wire_req).

Fixpoint serve_all (fuel : nat) (cs : list call) : M world unit :=
  match cs with
  | [] => ret tt
  | (j, now, old, q) :: cs' => bind (serve fuel j now old q) (fun _ => serve_all fuel cs')
  end.

Fixpoint a_run (cs : list call) (s : afs) : option (list a_reply * afs) :=
  match cs with
  | [] => Some ([], s)
  | (j, now, _, q) :: cs' =>
      match a_step j now q s with
      | None => None
      | Some (a, s1) =>
          match a_run cs' s1 with
          | None => None
          | Some (l, s2) => Some (a :: l, s2)
          end
      end
  end.

(** A namespace request for region [rid] with its hash in the closed interval
    [lo..hi] and a terminated name. *)
Definition for_region (rid lo hi : Z) (c : call) : Prop :=
  exists h fname, target (snd c) = Some (rid, h, fname) /\ lo <= h <= hi /\
    has_nul fname = true /\ Z.of_nat (length (c_str fname)) < METAFS_MAX_FNAME_LEN.

(** The counter of a region that holds all entries of its thread. *)
Definition counted (w : world) (r : ServerRegion) : Prop :=
  region_status r = Normal /\ kv_num r = Z.of_nat (size (a_dents (abs w))).

Lemma a_step_bounds limit j now q s a s' :
  afs_wf limit s -> a_step j now q s = Some (a, s') ->
  a_next s <= a_next s' <= a_next s + 1 /\ kv_delta s s' <= 1.
Proof.
  intros Hwf Hstep. pose proof (wf_limit _ _ Hwf) as Hl.
  assert (u64 (a_next s + 1) = a_next s + 1) as Hu by (apply u64_small; unfold is_u64; lia).
  destruct q; try discriminate; cbn [a_step] in Hstep; unfold a_create in Hstep;
    injection Hstep as Hs; repeat case_match; injection Hs as _ <-; cbn;
    rewrite ?Hu; split; try lia; unfold a_remove;
    first [ rewrite kv_delta_same by reflexivity; lia
          | rewrite kv_delta_insert by assumption; lia
          | erewrite kv_delta_delete by eassumption; lia ].
Qed.

Lemma session_runs fuel limit rid cs w r :
  room (metadb (ctx w)) (2 * length cs) ->
  region_is w rid r -> counted w r ->
  Forall (for_region rid (key_hi (start_key r)) (key_hi (end_key r))) cs ->
  afs_wf limit (abs w) ->
  kv_num r + Z.of_nat (length cs) <= region_split_threshold ->
  a_next (abs w) + Z.of_nat (length cs) < limit ->
  exists l s' w' resps r',
    a_run cs (abs w) = Some (l, s') /\ serve_all fuel cs w = Done (tt, w') /\
    abs w' = s' /\ outbox w' = outbox w ++ resps /\ Forall2 answers l resps /\
    afs_wf limit s' /\ region_is w' rid r' /\ counted w' r' /\ glob w' = glob w.
Proof.
  revert w r. induction cs as [|[[[j now] old] q] cs IH];
    intros w r Hroom Hr Hc Hall Hwf Hkv Hlim.
  { exists [], (abs w), w, [], r. rewrite app_nil_r. auto 10. }
  apply Forall_cons in Hall as [(h & fname & Ht & Hh & Hnul & Hlen) Hall]. cbn [snd] in Ht.
  cbn [length] in Hkv, Hlim. destruct Hc as [Hst Hnum].
  assert (admissible w rid h fname r) as Hadm.
  { split; try assumption.
    - left. split; [exact Hst|lia].
    - unfold check_is_blong_to_region. apply andb_true_iff. rewrite !Z.leb_le. lia.
    - unfold is_i32, region_split_threshold in *. lia. }
  destruct (a_step_target j now q (abs w) _ _ _ Ht) as (a & s1 & Hstep).
  replace (2 * length (_ :: cs))%nat with (2 + 2 * length cs)%nat in Hroom by (cbn [length]; lia).
  pose proof (serve_wp fuel limit j now old q w r rid h fname a s1 Ht Hadm Hwf
                (room_le _ 2 (2 + _) ltac:(lia) Hroom) Hstep) as Hwp.
  apply wp_Done in Hwp as ([] & w1 & Hrun & [Habs (resp & Ho & Ha) Hg (lid & Hr1) _]).
  destruct (a_step_bounds _ _ _ _ _ _ _ Hwf Hstep) as [Hn Hd]. unfold kv_delta in *.
  assert (i32 (kv_num r + (Z.of_nat (size (a_dents s1)) - Z.of_nat (size (a_dents (abs w)))))
          = Z.of_nat (size (a_dents s1))) as Hi.
  { rewrite i32_small; [lia|]. unfold is_i32, region_split_threshold in *. lia. }
  rewrite Hi in Hr1.
  pose proof (serve_spends fuel j now old q rid h fname Ht w tt w1 Hrun _ Hroom) as Hroom1.
  destruct (IH w1 _ Hroom1 Hr1) as (l & s' & w' & resps & r' & HA & HR & ? & Ho' & HF & ? & ? & ? & Hg').
  - split; [exact Hst|]. rewrite Habs. reflexivity.
  - exact Hall.
  - rewrite Habs. eapply a_step_wf; [exact Ht|exact Hlen|exact Hwf| |exact Hstep]. lia.
  - cbn. lia.
  - rewrite Habs. lia.
  - exists (a :: l), s', w', (resp :: resps), r'. rewrite Habs in HA.
    cbn [a_run]. rewrite Hstep, HA. split; [reflexivity|].
    split; [cbn [serve_all]; unfold bind; rewrite Hrun; exact HR|].
    split; [assumption|]. split; [rewrite Ho', Ho, <- app_assoc; reflexivity|].
    split; [constructor; assumption|]. rewrite Hg', Hg. auto.
Qed.

(** The state of a fresh thread is well formed: its inodes are the 40-bit block of
    the server and thread. *)
Lemma afs_wf_boot id tid :
  0 <= id < 256 -> 0 <= tid < 256 ->
  afs_wf ((id * 256 + tid + 1) * 2 ^ 40)
    {| a_dents := ∅; a_stats := ∅; a_next := init_alloc_inode id tid |}.
Proof.
  intros Hi Ht. split; cbn [a_dents a_stats a_next]; try (intros *; rewrite lookup_empty; discriminate).
  rewrite init_alloc_inode_value by assumption. lia.
Qed.

(** ** The start of a thread *)

Lemma init_server_context_spec w0 id fg tid db ldb :
  0 <= id < 256 -> 0 <= tid < 256 -> 0 <= id * fg + tid < 2 ^ 20 -> 0 <= id * fg ->
  region_map (ctx w0) = ∅ ->
  let rid := id * fg + tid in
  exists w1 r,
    init_server_context id fg tid db ldb w0 = Done (tt, w1) /\
    region_is w1 rid r /\ region_status r = Normal /\ kv_num r = 0 /\
    key_hi (start_key r) = rid * PINODE_HASH_RANGE /\
    key_hi (end_key r) = (rid + 1) * PINODE_HASH_RANGE - 1 /\
    metadb (ctx w1) = db /\ alloc_inode (ctx w1) = init_alloc_inode id tid /\
    outbox w1 = outbox w0.
Proof.
  intros Hid Htid Hrid Hprod Hm rid.
  assert (i32 (u64 (i32 (id * fg) + tid)) = rid) as Hr.
  { rewrite (i32_small (id * fg)), u64_small, i32_small; unfold is_i32, is_u64; lia. }
  unfold init_server_context, register_region, bind, upd_ctx, upd_glob, modify, gets.
  cbn -[init_alloc_inode i32 u64 PINODE_HASH_RANGE].
  rewrite Hr, Hm. eexists _, _. split; [reflexivity|].
  unfold region_is. cbn -[init_alloc_inode i32 u64 PINODE_HASH_RANGE].
  unfold map_insert at 1. rewrite lookup_empty, lookup_insert_eq. split; [reflexivity|].
  unfold PINODE_HASH_RANGE. cbn.
  rewrite (i32_small (rid * 1024)), (i32_small ((rid + 1) * 1024)),
    (i32_small ((rid + 1) * 1024 - 1)), !u64_small by (unfold is_i32, is_u64; lia).
  auto 10.
Qed.

(** ** Requests that are not served *)

(** Region and hash of a client request, [readdir] included. *)
Definition client_target (q : wire_req) : option (Z * Z) :=
  match q with
  | ReaddirReq r => Some (rr_region_id r, rr_inode_hash r)
  | _ => option_map (fun '(rid, h, _) => (rid, h)) (target q)
  end.

(** The same request with another hash. *)
Definition with_hash (h : Z) (q : wire_req) : wire_req :=
  let fname r := {| fr_region_id := fr_region_id r; fr_pinode := fr_pinode r;
                    fr_pinode_hash := h; fr_fname := fr_fname r |} in
  let mode r := {| mr_region_id := mr_region_id r; mr_pinode := mr_pinode r;
                   mr_pinode_hash := h; mr_mode := mr_mode r; mr_fname := mr_fname r |} in
  match q with
  | FSOpenReq r => FSOpenReq (mode r)
  | FSMkdirReq r => FSMkdirReq (mode r)
  | FSUnlinkReq r => FSUnlinkReq (fname r)
  | FSStatReq r => FSStatReq (fname r)
  | FSRmdirReq r => FSRmdirReq (fname r)
  | FSGetinodeReq r => FSGetinodeReq (fname r)
  | MknodReq r =>
      MknodReq {| kr_region_id := kr_region_id r; kr_oid := kr_oid r;
                  kr_pinode := kr_pinode r; kr_pinode_hash := h; kr_mode := kr_mode r;
                  kr_fname := kr_fname r |}
  | ReaddirReq r =>
      ReaddirReq {| rr_region_id := rr_region_id r; rr_inode := rr_inode r;
                    rr_inode_hash := h; rr_offset := rr_offset r |}
  | _ => q
  end.

(** The response buffer of a request with its code set to [t] and the rest as it was. *)
Definition code_only (t : RespType) (old : stale) (q : wire_req) : wire_resp :=
  match q with
  | FSMkdirReq _ | FSGetinodeReq _ =>
      RInode {| ir_resp_type := t; ir_inode := ir_inode (old_inode old) |}
  | FSOpenReq _ | FSStatReq _ | MknodReq _ =>
      RStat {| st_resp_type := t; st_inode := st_inode (old_stat old);
               st_stat := st_stat (old_stat old) |}
  | ReaddirReq _ =>
      let o := old_readdir old in
      RReaddir {| rd_resp_type := t; rd_is_uncomplete := rd_is_uncomplete o;
        rd_num_result := rd_num_result o; rd_entries_len := rd_entries_len o;
        rd_next_offset := rd_next_offset o; rd_entries := rd_entries o |}
  | _ => RStatus t
  end.

(** [w] with one more response. *)
Definition push (r : wire_resp) (w : world) : world :=
  {| ctx := ctx w; glob := glob w; outbox := outbox w ++ [r] |}.

Lemma region_at_Done w rid r : region_is w rid r -> region_at rid w = Done (r, w).
Proof. unfold region_is, region_at, bind, gets. intros ->. reflexivity. Qed.

(** The range test at the top of every client handler. *)
Definition guarded {A} (rid h : Z) (resp : wire_resp) (k : ServerRegion -> M world A)
  : M world A :=
  bind (region_at rid) (fun r =>
    bind (when_ (negb (check_is_blong_to_region r h)) (enqueue_response resp))
      (fun _ => k r)).

Lemma guarded_in_range {A} w rid h r resp (k : ServerRegion -> M world A) :
  region_is w rid r -> check_is_blong_to_region r h = true ->
  guarded rid h resp k w = k r w.
Proof.
  intros Hr Hb. unfold guarded, bind. rewrite (region_at_Done _ _ r Hr), Hb. reflexivity.
Qed.

Lemma guarded_out_of_range {A} w rid h r resp (k : ServerRegion -> M world A) :
  region_is w rid r -> check_is_blong_to_region r h = false ->
  guarded rid h resp k w = k r (push resp w).
Proof.
  intros Hr Hb. unfold guarded, bind. rewrite (region_at_Done _ _ r Hr), Hb. reflexivity.
Qed.

(** ** Directory scans *)

Lemma length_dirents_ge p es : (16 * length es <= length (dirents_bytes p es))%nat.
Proof.
  unfold dirents_bytes. induction es as [|e es IH]; cbn [map concat length]; [lia|].
  rewrite length_app. unfold dirent_bytes at 1. rewrite !length_app, !length_le_bytes. lia.
Qed.

(** A batch of the scan of directory [p] from offset [off]. *)
Record batch (w : world) (p off : Z) (r : FSReaddirResp) (n : nat) : Prop := {
  batch_pos : (1 <= n)%nat;
  batch_code : rd_resp_type r = kSuccess;
  batch_count : rd_num_result r = Z.of_nat n;
  batch_entries :
    let es := take n (drop (cursor (metadb (ctx w)) p off) (dir_list (metadb (ctx w)) p)) in
    length es = n /\
    rd_entries_len r = Z.of_nat (length (dirents_bytes p es)) /\
    rd_entries_len r <= MSG_ENTEY_MAX_SIZE /\
    take (Z.to_nat (rd_entries_len r)) (rd_entries r) = dirents_bytes p es;
  batch_next :
    cursor (metadb (ctx w)) p (rd_next_offset r)
    = (cursor (metadb (ctx w)) p off + n)%nat;
  batch_offset :
    Z.of_nat (length (dir_list (metadb (ctx w)) p)) < 2 ^ 64 -> is_u64 (rd_next_offset r);
  batch_more :
    rd_is_uncomplete r = 0 <->
    (length (dir_list (metadb (ctx w)) p)
     <= cursor (metadb (ctx w)) p (rd_next_offset r))%nat
}.

Lemma wp_copy_entries len src dst (Q : bytes -> world -> Prop) w :
  0 <= len <= MSG_ENTEY_MAX_SIZE -> len <= Z.of_nat (length src) ->
  Q (take (Z.to_nat len) src ++ drop (Z.to_nat len) dst) w ->
  wp (copy_entries len src dst) Q w.
Proof.
  intros H1 H2 HQ. unfold copy_entries.
  replace (_ && _ && _) with true; [exact HQ|].
  symmetry. rewrite !andb_true_iff, !Z.leb_le. lia.
Qed.

Lemma readdir_wp limit w req resp r :
  region_is w (rr_region_id req) r -> quiet r ->
  check_is_blong_to_region r (rr_inode_hash req) = true ->
  afs_wf limit (abs w) ->
  wp (fs_readdir_handler req resp)
    (fun _ w' => exists x, w' = push (RReaddir x) w /\
       ((length (dir_list (metadb (ctx w)) (rr_inode req))
         <= cursor (metadb (ctx w)) (rr_inode req) (rr_offset req))%nat ->
        x = {| rd_resp_type := kSuccess; rd_is_uncomplete := rd_is_uncomplete resp;
               rd_num_result := 0; rd_entries_len := rd_entries_len resp;
               rd_next_offset := rd_next_offset resp; rd_entries := rd_entries resp |}) /\
       ((cursor (metadb (ctx w)) (rr_inode req) (rr_offset req)
         < length (dir_list (metadb (ctx w)) (rr_inode req)))%nat ->
        exists n, batch w (rr_inode req) (rr_offset req) x n)) w.
Proof.
  intros Hr Hq Hb Hwf. set (db := metadb (ctx w)). set (p := rr_inode req).
  apply wp_bind, (wp_region_at w _ r); [exact Hr|]. rewrite Hb.
  apply wp_bind, wp_ret, wp_bind, wp_check_status; [exact Hq|].
  apply wp_bind, wp_kv_get. fold db p.
  destruct (Nat.leb_spec (length (dir_list db p)) (cursor db p (rr_offset req))) as [H|H].
  - destruct (ReadDir_end db p (rr_offset req) MSG_ENTEY_MAX_SIZE H) as (st & -> & ->).
    apply wp_bind, wp_ret, wp_bind, wp_ret, wp_modify. eexists. split; [reflexivity|].
    split; [auto|intros; lia].
  - destruct (ReadDir_chunk db p (rr_offset req) MSG_ENTEY_MAX_SIZE H)
      as (b & n & -> & Hn & Hle & Hcount & Hpay & Hmax & Hlen & Hunc & Hnext & Hoff).
    { apply (dirents_fit limit w); [exact Hwf|].
      unfold METAFS_MAX_FNAME_LEN, MSG_ENTEY_MAX_SIZE. lia. }
    set (es := take n (drop (cursor db p (rr_offset req)) (dir_list db p))) in *.
    assert (length es = n) as Hes.
    { unfold es. rewrite length_take, length_drop. lia. }
    pose proof (length_dirents_ge p es) as Hge. rewrite Hes, <- Hpay in Hge.
    unfold MSG_ENTEY_MAX_SIZE in *.
    assert (i32 (rel_len b - 32) = Z.of_nat (length (payload b))) as Hi.
    { rewrite i32_small by (unfold is_i32; lia). lia. }
    cbn [check_status_ok]. rewrite Hi.
    apply wp_bind, wp_bind, wp_assert; [apply Z.leb_le; lia|].
    apply wp_bind, wp_copy_entries; [unfold MSG_ENTEY_MAX_SIZE; lia|lia|].
    apply wp_ret, wp_bind, wp_ret, wp_modify. eexists. split; [reflexivity|].
    split; [intros; lia|]. intros _. exists n.
    rewrite Hcount, (i32_small (Z.of_nat n)) by (unfold is_i32; lia).
    split; cbn; auto; fold db; fold es.
    + split; [exact Hes|]. rewrite <- Hpay. unfold MSG_ENTEY_MAX_SIZE.
      split; [reflexivity|]. split; [exact Hmax|].
      rewrite Nat2Z.id, (take_ge (payload b)) by lia. apply take_app_length.
    + rewrite Hnext, Hunc. destruct (Nat.ltb_spec (cursor db p (rr_offset req) + n)
        (length (dir_list db p))); split; intros; try discriminate; try reflexivity; lia.
Qed.

End HandlerSpec.
