(* ===== verification/Split.v ===== *)
(** * The split thread ([src/server/region_and_log.cc], [src/server/metafs_server.cc])

    The origin side of a region split: [rpc_create_region], [rpc_create_region_cb],
    [rpc_send_region], [rpc_send_region_log] and one turn of the loop of
    [split_region_thread].  The calls are synchronous in the code (the thread runs
    the eRPC event loop until the response is there), so a call of a peer is the
    run of the peer's handler followed by the rest of the caller. *)

From Stdlib Require Import ZArith Lia.
From stdpp Require Import base numbers list gmap sorting.
From S2P Require Import Prelude JumpHash Types XXHash Stores Wire Server Handlers.
Open Scope Z_scope.

Section Split.
Context {KV : MetaKV} {RK : RocksDB}.

(** The origin process and the server threads its sessions lead to.  [threads] is
    [s_ctx_arr], [s_ctx] the thread-local pointer of the split thread and [st_req] the
    bytes of [ST_RPC_REQ_BUF(0)], the one request buffer the split thread uses. *)
Record cluster := {
  threads : gmap Z server_context;
  pglob : globals;
  s_ctx : option Z;
  peers : gmap Z world;
  st_req : bytes
}.

Definition set_s_ctx (o : option Z) (c : cluster) : cluster :=
  {| threads := threads c; pglob := pglob c; s_ctx := o; peers := peers c;
     st_req := st_req c |}.

Definition set_pglob (g : globals) (c : cluster) : cluster :=
  {| threads := threads c; pglob := g; s_ctx := s_ctx c; peers := peers c;
     st_req := st_req c |}.

Definition set_peer (sid : Z) (w : world) (c : cluster) : cluster :=
  {| threads := threads c; pglob := pglob c; s_ctx := s_ctx c;
     peers := <[sid := w]> (peers c); st_req := st_req c |}.

Definition set_st_req (b : bytes) (c : cluster) : cluster :=
  {| threads := threads c; pglob := pglob c; s_ctx := s_ctx c; peers := peers c;
     st_req := b |}.

Local Open Scope m_scope.

(** Run [c] on the context [s_ctx] points to. *)
Definition on_ctx {A} (c : M world A) : M cluster A :=
  fun s =>
    match s_ctx s with
    | None => Fault NullDeref
    | Some tid =>
        match threads s !! tid with
        | None => Fault NullDeref
        | Some x =>
            match c {| ctx := x; glob := pglob s; outbox := [] |} with
            | Fault f => Fault f
            | Done (a, w) =>
                Done (a, {| threads := <[tid := ctx w]> (threads s); pglob := glob w;
                            s_ctx := s_ctx s; peers := peers s; st_req := st_req s |})
            end
        end
    end.

(** [enqueue_request] on session [sid], then the event loop until the response. *)
Definition call_peer (fuel : nat) (j : junk) (old : stale) (sid : Z) (q : wire_req)
  : M cluster wire_resp :=
  fun s =>
    match peers s !! sid with
    | None => Fault OutOfBounds
    | Some w =>
        match serve fuel j 0 old q w with
        | Fault f => Fault f
        | Done (_, w') =>
            match last (outbox w') with
            | None => Fault OutOfFuel
            | Some r => Done (r, set_peer sid w' s)
            end
        end
    end.

(** [region_id < st_ctx->num_server_sessions ? region_id : JumpConsistentHash(...)] *)
Definition server_session_id (rid : Z) : M cluster Z :=
  let* st := gets (fun s => st_sessions (pglob s)) in
  match st with
  | None => raise NullDeref
  | Some sessions =>
      if rid <? sessions then ret rid
      else match JumpConsistentHash (u64 rid) sessions with
           | Some b => ret b
           | None => raise OutOfFuel
           end
  end.

(** [s_ctx->region_map.find(rid)] with the [p_assert] on its result, then a
    dereference. *)
Definition find_region (rid : Z) : M cluster ServerRegion :=
  let* m := on_ctx (gets (fun w => region_map (ctx w))) in
  match m !! rid with
  | None => raise AssertFailed
  | Some None => raise NullDeref
  | Some (Some r) => ret r
  end.

(** ** The request buffer *)

(** Assignments to fields of the [wire_req_t] in the buffer, each at its offset.  Nothing
    clears the buffer: what a message does not write is left from the messages before. *)
Definition write_fields (l : list (nat * bytes)) : M cluster unit :=
  modify (fun s => set_st_req (fold_left (fun b '(off, v) => write_at off v b) l (st_req s)) s).

(** [memcpy] into the array [entries] of a message, which begins at [off]. *)
Definition fill_entries (off : nat) (src : bytes) : M cluster unit :=
  if Z.of_nat (length src) <=? MSG_ENTEY_MAX_SIZE then write_fields [(off, src)]
  else raise OutOfBounds.

(** The array [entries] of the message that is sent. *)
Definition sent_entries (off : nat) : M cluster bytes :=
  gets (fun s => take (Z.to_nat MSG_ENTEY_MAX_SIZE) (drop off (st_req s))).

(** A [RegionKey]: [hi], then [low]. *)
Definition key_bytes (k : RegionKey) : bytes := le_bytes 8 (key_hi k) ++ le_bytes 8 (key_low k).

(** The values of [enum LogStatus]. *)
Definition log_status_code (s : LogStatus) : Z :=
  match s with FarToDone => 0 | AlmostDone => 1 | LogDone => 2 end.

(** Offsets of [entries] in [SendRegionReq] and in [SendRegionLogReq]. *)
Definition region_entries_off : nat := 56.
Definition log_entries_off : nat := 20.

(** ** Sending the log *)

(** The inner [for] loop of [rpc_send_region_log]: values are appended while fewer
    than [MSG_ENTEY_MAX_SIZE - region_log_max_size] bytes are used. *)
Fixpoint collect_logs (recs : list (bytes * bytes)) (acc : bytes) (n : Z) : bytes * Z :=
  match recs with
  | [] => (acc, n)
  | (_, v) :: recs' =>
      if Z.of_nat (length acc) <? MSG_ENTEY_MAX_SIZE - region_log_max_size
      then collect_logs recs' (acc ++ v) (n + 1)
      else (acc, n)
  end.

Definition log_status_of (left_nums : Z) : LogStatus :=
  if left_nums <=? 0 then LogDone
  else if left_nums <? log_almost_done_threshold then AlmostDone
  else FarToDone.

(** The hand-over: the range of the left region is halved and the global map gets
    the two parts. *)
Definition hand_over (region : ServerRegion) (left_id : Z) : M cluster unit :=
  let* lregion := find_region left_id in
  if bool_decide (region_status lregion = SplitAlmostDone) then ret tt
  else
    let* g := gets (fun s => global_region_map (pglob s)) in
    p_assert (bool_decide (is_Some (g !! region_id lregion))) ;;;
    let new_end := {| key_hi := Z.shiftr (key_hi (end_key lregion)) 1;
                      key_low := key_low (end_key lregion) |} in
    on_ctx (upd_region left_id (set_end_key new_end)) ;;;
    p_assert (0 <? key_hi new_end) ;;;
    let r1 := {| c_region_id := region_id region; c_start_key := start_key region;
                 c_end_key := end_key region |} in
    let r2 := {| c_region_id := region_id lregion; c_start_key := start_key lregion;
                 c_end_key := new_end |} in
    modify (fun s => set_pglob (set_global_region_map
      (map_insert (region_id lregion) r2
         (map_insert (region_id region) r1 (delete (region_id lregion) g))) (pglob s)) s) ;;;
    on_ctx (upd_region left_id (set_region_status SplitAlmostDone)).

(** The [while (true)] loop of [rpc_send_region_log], one turn per message; [region]
    is the temporary region, [sid] the session. *)
Fixpoint send_log_loop (fuel : nat) (j : junk) (old : stale) (region : ServerRegion)
    (sid next_log_id : Z) : M cluster unit :=
  match fuel with
  | O => raise OutOfFuel
  | S fuel' =>
      let left_id := left_region_id region in
      let* lregion := find_region left_id in
      let* db := on_ctx (gets (fun w => log_db (ctx w))) in
      let '(logs, nums_logs) :=
        collect_logs (rocks_scan db (log_key (region_id lregion) next_log_id)) [] 0 in
      fill_entries log_entries_off logs ;;;
      let log_left_nums := i32 (log_id lregion - i32 (next_log_id + nums_logs)) in
      let log_status := log_status_of log_left_nums in
      (if bool_decide (log_status = FarToDone) then ret tt
       else hand_over region left_id) ;;;
      write_fields [(0, le_bytes 4 (region_id region)); (12, le_bytes 4 nums_logs);
                    (8, le_bytes 4 (next_log_id + nums_logs));
                    (4, le_bytes 4 (log_status_code log_status));
                    (16, le_bytes 4 (Z.of_nat (length logs)))]%nat ;;;
      let* entries := sent_entries log_entries_off in
      let* resp := call_peer fuel' j old sid (SendRegionLog
        {| sl_region_id := region_id region; sl_log_status := log_status;
           sl_next_log_id := i32 (next_log_id + nums_logs); sl_num_logs := nums_logs;
           sl_entries_len := Z.of_nat (length logs); sl_entries := entries |}) in
      match resp with
      | RSendRegionLog x =>
          p_assert (bool_decide (sls_resp_type x = kSuccess)) ;;;
          if bool_decide (sls_log_status x = LogDone) then
            on_ctx (upd_ctx (fun c =>
              set_region_map (delete (region_id region) (region_map c)) c)) ;;;
            on_ctx (upd_region left_id (set_log_id 0)) ;;;
            on_ctx (upd_region left_id (set_region_status Normal)) ;;;
            modify (set_s_ctx None)
          else send_log_loop fuel' j old region sid (i32 (u32 (sls_next_log_id x)))
      | _ => raise AssertFailed
      end
  end.

Definition rpc_send_region_log (fuel : nat) (j : junk) (old : stale) (region : ServerRegion)
    (next_log_id : Z) : M cluster unit :=
  let* sid := server_session_id (region_id region) in
  send_log_loop fuel j old region sid next_log_id.

(** ** Sending the directories *)

(** The iteration order of a [std::set] of inodes. *)
Definition set_order (s : gset Z) : list Z := merge_sort Z.le (elements s).

(** The debugging loop over the entries of a message: its [p_assert(false)] fires on
    the first entry. *)
Definition dump_entries (num_result : Z) : M cluster unit :=
  if i32 num_result =? 0 then ret tt else raise AssertFailed.

(** The inner [while] loop of [rpc_send_region] over the directories of one hash
    value; [over] are the bytes after the payload that the copy of [rel_len] bytes
    also reads. *)
Fixpoint send_dirs (fuel : nat) (j : junk) (old : stale) (over : bytes)
    (region : ServerRegion) (sid pinode_hash : Z) (pinodes : list Z) (next_offset : Z)
  : M cluster unit :=
  match fuel with
  | O => raise OutOfFuel
  | S fuel' =>
      match pinodes with
      | [] => ret tt
      | pinode :: rest =>
          let* (_, res) := on_ctx (kv_get (fun db =>
            ReadDir db pinode next_offset MSG_ENTEY_MAX_SIZE)) in
          match res with
          | None => send_dirs fuel' j old over region sid pinode_hash rest 0
          | Some b =>
              write_fields [(48, le_bytes 8 (new_offset b)); (16, le_bytes 8 (rel_count b));
                            (24, le_bytes 8 (rel_len b))]%nat ;;;
              p_assert (rel_len b <=? MSG_ENTEY_MAX_SIZE) ;;;
              fill_entries region_entries_off (take (Z.to_nat (rel_len b)) (payload b ++ over)) ;;;
              dump_entries (rel_count b) ;;;
              let left_id := left_region_id region in
              find_region left_id ;;;
              on_ctx (upd_region left_id
                (fun r => set_kv_num (i32 (kv_num r - rel_count b)) r)) ;;;
              write_fields [(0, le_bytes 4 (region_id region));
                            (8, le_bytes 8 (rd_uncomplete b)); (32, le_bytes 8 pinode_hash);
                            (40, le_bytes 8 pinode)]%nat ;;;
              let* entries := sent_entries region_entries_off in
              let* resp := call_peer fuel' j old sid (SendRegion
                {| sr_region_id := region_id region; sr_is_uncomplete := rd_uncomplete b;
                   sr_num_result := rel_count b; sr_entries_len := rel_len b;
                   sr_pinode_hash := pinode_hash; sr_pinode := pinode;
                   sr_offset := new_offset b; sr_entries := entries |}) in
              match resp with
              | RSendRegion x =>
                  p_assert (bool_decide (srs_resp_type x = kSuccess)) ;;;
                  if rd_uncomplete b =? 0
                  then send_dirs fuel' j old over region sid pinode_hash rest 0
                  else send_dirs fuel' j old over region sid pinode_hash pinodes
                         (u64 (new_offset b))
              | _ => raise AssertFailed
              end
          end
      end
  end.

(** The [for] loop over the hash values of the region. *)
Fixpoint send_hashes (n fuel : nat) (j : junk) (old : stale) (over : bytes)
    (region : ServerRegion) (sid pinode_hash : Z) : M cluster unit :=
  match n with
  | O => ret tt
  | S n' =>
      let* t := on_ctx (gets (fun w => pinode_table (ctx w))) in
      (match t !! pinode_hash with
       | None => ret tt
       | Some s => send_dirs fuel j old over region sid pinode_hash (set_order s) 0
       end) ;;;
      send_hashes n' fuel j old over region sid (pinode_hash + 1)
  end.

(** [rpc_send_region(region, msg_idx, region->start_key.hi)] with the default
    arguments [pinode = 0] and [next_offset = 0]. *)
Definition rpc_send_region (fuel : nat) (j : junk) (old : stale) (over : bytes)
    (region : ServerRegion) (pinode_hash : Z) : M cluster unit :=
  let* sid := server_session_id (region_id region) in
  send_hashes (Z.to_nat (key_hi (end_key region) + 1 - pinode_hash)) fuel j old over
    region sid pinode_hash ;;;
  rpc_send_region_log fuel j old region 0.

(** [rpc_create_region_cb] *)
Definition rpc_create_region_cb (fuel : nat) (j : junk) (old : stale) (over : bytes)
    (resp : CreateRegionResp) : M cluster unit :=
  p_assert (bool_decide (crs_resp_type resp = kSuccess)) ;;;
  let* region := find_region (crs_region_id resp) in
  rpc_send_region fuel j old over region (key_hi (start_key region)).

(** [rpc_create_region] *)
Definition rpc_create_region (fuel : nat) (j : junk) (old : stale) (over : bytes) (rid : Z)
  : M cluster unit :=
  let* sid := server_session_id rid in
  let* region := on_ctx (region_at rid) in
  write_fields [(0, le_bytes 4 rid); (8, key_bytes (start_key region));
                (24, key_bytes (end_key region))]%nat ;;;
  let* resp := call_peer fuel j old sid (CreateRegion
    {| cr_region_id := rid; cr_start_key := start_key region;
       cr_end_key := end_key region |}) in
  match resp with
  | RCreateRegion x => rpc_create_region_cb fuel j old over x
  | _ => raise AssertFailed
  end.

(** One turn of the loop of [split_region_thread] once the sessions are up. *)
Definition split_region_step (fuel : nat) (j : junk) (old : stale) (over : bytes)
  : M cluster unit :=
  let* q := gets (fun s => shared_split_queue (pglob s)) in
  match q with
  | [] => ret tt
  | (tid, rid) :: q' =>
      modify (fun s => set_pglob (set_shared_split_queue q' (pglob s)) s) ;;;
      let* p := gets s_ctx in
      p_assert (bool_decide (p = None)) ;;;
      modify (set_s_ctx (Some tid)) ;;;
      rpc_create_region fuel j old over rid
  end.

End Split.
