(* ===== verification/SplitFacts.v ===== *)
(** * Facts about the region split

    The replay of a log message on the target server, the batches the origin
    builds, and the reasoning rules for the monad of [Split.v]. *)

From Stdlib Require Import ZArith Lia.
From stdpp Require Import base numbers list gmap sorting.
From S2P Require Import Prelude JumpHash Types XXHash Stores Wire Server Handlers HandlerSpec.
From S2P Require Import Split.
Open Scope Z_scope.

Section SplitFacts.
Context {KV : MetaKV} {RK : RocksDB} {KVL : MetaKVLaws KV} {RKL : RocksDBLaws RK}.

(** ** Replay *)

(** The value of a single byte never carries the PUT mark. *)
Lemma byte_is_delete b : is_byte b -> (Z.land b inode_prefix_ssb =? 0) = true.
Proof.
  intros H. apply Z.eqb_eq, ssb_mark_clear; unfold is_byte, is_u64 in *; [lia|].
  destruct (Z.eq_dec b 0) as [->|]; [reflexivity|].
  apply Z.bits_above_log2; [lia|]. apply Z.lt_trans with 8; [apply Z.log2_lt_pow2; lia|lia].
Qed.

(** What a replay that returns has done to the target. *)
Definition replayed (rid : Z) (r : ServerRegion) (n : nat) (w w' : world) : Prop :=
  region_is w' rid (set_kv_num (i32 (kv_num r - Z.of_nat n)) r) /\
  (forall k, k <> rid -> region_map (ctx w') !! k = region_map (ctx w) !! k) /\
  dents (metadb (ctx w')) ⊆ dents (metadb (ctx w)) /\
  glob w' = glob w /\ outbox w' = outbox w.

(** The shape of the records that [log_op] writes: a word, then a terminated name, with or
    without other bytes between them. *)
Record log_record (v : bytes) : Prop := {
  lr_bytes : Forall is_byte v;
  lr_nul : exists u, v = u ++ [0] /\ (8 <= length u)%nat
}.

Lemma put_log_record pad flag pinode inode fname st :
  is_byte flag -> Forall is_byte fname -> log_record (put_log_val pad flag pinode inode fname st).
Proof.
  intros Hg Hf. unfold put_log_val. split.
  - rewrite !Forall_app. assert (is_byte 0) by (unfold is_byte; lia).
    unfold stat_bytes. rewrite !Forall_app. repeat split; auto using le_bytes_is_byte.
  - exists (le_bytes 8 pinode ++ le_bytes 8 inode ++ stat_bytes pad st ++ [flag] ++ fname).
    rewrite <- !app_assoc. split; [reflexivity|]. rewrite !length_app, !length_le_bytes. lia.
Qed.

Lemma delete_log_record pinode fname :
  Forall is_byte fname -> log_record (delete_log_val pinode fname).
Proof.
  intros Hf. unfold delete_log_val. split.
  - rewrite !Forall_app. assert (is_byte 0) by (unfold is_byte; lia). auto using le_bytes_is_byte.
  - exists (le_bytes 8 pinode ++ fname). rewrite <- app_assoc. split; [reflexivity|].
    rewrite length_app, length_le_bytes. lia.
Qed.

(** [n] records lie ahead in the buffer, after bytes of earlier ones and before anything. *)
Definition ahead (n : nat) (buf : bytes) : Prop :=
  exists p recs rest, buf = p ++ concat recs ++ rest /\ length recs = n /\ Forall log_record recs.

(** Reading a word and a string, wherever it begins, stays behind the next record. *)
Lemma ahead_string n buf :
  ahead (S n) buf ->
  has_nul (drop 8 buf) = true /\
  ahead n (drop (length (c_str (drop 8 buf) ++ [0])) (drop 8 buf)).
Proof.
  intros (p & [|v recs] & rest & -> & Hn & Hrecs); [discriminate|]. injection Hn as Hn.
  apply Forall_cons in Hrecs as [[_ (u & -> & Hu)] Hrecs]. cbn [concat].
  replace (p ++ ((u ++ [0]) ++ concat recs) ++ rest)
    with ((p ++ u) ++ 0 :: concat recs ++ rest) by (rewrite <- !app_assoc; reflexivity).
  rewrite drop_app_le by (rewrite length_app; lia). generalize (drop 8 (p ++ u)). intros l.
  rewrite length_app. cbn [length]. rewrite Nat.add_1_r.
  induction l as [|x l IH]; cbn [app c_str has_nul].
  - split; [reflexivity|]. exists [], recs, rest. auto.
  - destruct (Z.eqb_spec x 0) as [->|Hx]; cbn [drop length]; [|exact IH].
    split; [reflexivity|]. exists (l ++ [0]), recs, rest. rewrite <- app_assoc. auto.
Qed.

Lemma replay_outcome j rid n buf w r :
  Forall is_byte buf -> region_is w rid r -> is_i32 (kv_num r) ->
  wpx (fun f => f = OutOfBounds /\ ~ ahead n buf) (replay_log j rid n buf)
      (fun _ w' => replayed rid r n w w') w.
Proof.
  revert buf w r. induction n as [|n IH]; intros buf w r Hb Hr Hk.
  { cbn. split; [|auto]. rewrite Z.sub_0_r, i32_small by exact Hk. destruct r; exact Hr. }
  cbn [replay_log]. apply wpx_bind. destruct buf as [|b buf].
  { split; [reflexivity|]. intros [H _]%ahead_string. discriminate H. }
  pose proof (Forall_cons_1 _ _ _ Hb) as [Hb0 _]. unfold read_inode, wpx at 1, ret at 1.
  rewrite (byte_is_delete b Hb0). apply wpx_bind, wpx_bind.
  unfold wpx at 1, fname_slice. destruct (has_nul (drop 8 (b :: buf))) eqn:Hnul.
  2: { split; [reflexivity|]. intros [Hn _]%ahead_string. congruence. }
  unfold ret at 1, wpx at 1, ret at 1. set (rest := drop _ (drop 8 (b :: buf))).
  assert (ahead (S n) (b :: buf) -> ahead n rest) as Hnext
    by (intros [_ Hn]%ahead_string; exact Hn).
  assert (Forall is_byte rest) as Hrest by (unfold rest; repeat apply Forall_drop; exact Hb).
  assert (forall db st, dents db ⊆ dents (metadb (ctx w)) ->
    wpx (fun f => f = OutOfBounds /\ ~ ahead (S n) (b :: buf))
      (bind (if check_status_ok (fst st)
             then kv_put (fun db => DeleteStat db (snd st)) else ret (fst st))
         (fun _ => bind (kv_num_add rid (-1)) (fun _ => replay_log j rid n rest)))
      (fun _ w' => replayed rid r (S n) w w') (with_db db w)) as Hcont.
  { intros db st Hsub.
    assert (wp (if check_status_ok (fst st)
             then kv_put (fun db => DeleteStat db (snd st)) else ret (fst st))
       (fun _ w1 => exists db', w1 = with_db db' w /\ dents db' ⊆ dents (metadb (ctx w)))
       (with_db db w)) as Hdel.
    { destruct (check_status_ok (fst st)); [|apply wp_ret; eauto].
      destruct (stats db !! snd st) as [x|] eqn:E.
      - destruct (DeleteStat_found db _ _ E) as (db' & H & _ & Hd).
        eapply wp_kv_put; [exact H|]. exists db'. rewrite Hd. auto.
      - destruct (DeleteStat_missing db _ E) as (db' & H & _ & Hd).
        eapply wp_kv_put; [exact H|]. exists db'. rewrite Hd. auto. }
    apply wpx_bind, wpx_wp. eapply wp_mono; [exact Hdel|].
    intros _ w1 (db' & -> & Hsub'). apply wpx_bind, wpx_wp.
    eapply (wp_kv_num_add _ rid _ r); [exact Hr|].
    set (r1 := set_kv_num (i32 (kv_num r + -1)) r).
    pose proof (IH rest (with_region rid (fun r => set_kv_num (i32 (kv_num r + -1)) r)
                  (with_db db' w)) r1 Hrest) as IH'.
    eapply wpx_mono; [apply IH'; [apply region_is_count, Hr|apply i32_range]| |].
    { intros f [-> Hn]. split; [reflexivity|]. auto. }
    intros [] w' (H1 & H2 & H3 & H4 & H5). split; [|split; [|split; [|auto]]].
    - unfold r1 in H1. cbn [kv_num set_kv_num] in H1.
      replace (i32 (kv_num r - Z.of_nat (S n)))
        with (i32 (i32 (kv_num r + -1) - Z.of_nat n)); [exact H1|].
      unfold Z.sub. rewrite i32_add_l. f_equal. lia.
    - intros k Hne. rewrite H2 by exact Hne. cbn. apply lookup_alter_ne. congruence.
    - etransitivity; [exact H3|exact Hsub']. }
  apply wpx_bind, wpx_wp, wp_DeleteFileInode.
  - intros db' i Hd Hd' Hs'. apply (Hcont db' (OK, i)). rewrite Hd'. apply delete_subseteq.
  - intros db' i Hd Hd' Hs'. apply (Hcont db' (KEY_NOT_EXIST, i)). rewrite Hd'. reflexivity.
Qed.

(** ** Batches of the log *)

Lemma collect_logs_split recs acc n :
  exists k,
    collect_logs recs acc n
    = (acc ++ concat (map snd (take k recs)), n + Z.of_nat k) /\
    (k <= length recs)%nat /\
    (recs <> [] -> Z.of_nat (length acc) < MSG_ENTEY_MAX_SIZE - region_log_max_size ->
     (0 < k)%nat) /\
    (k = length recs \/
     MSG_ENTEY_MAX_SIZE - region_log_max_size
       <= Z.of_nat (length (acc ++ concat (map snd (take k recs))))) /\
    (Forall (fun e => Z.of_nat (length (snd e)) <= region_log_max_size) recs ->
     Z.of_nat (length acc) <= MSG_ENTEY_MAX_SIZE ->
     Z.of_nat (length (acc ++ concat (map snd (take k recs)))) <= MSG_ENTEY_MAX_SIZE).
Proof.
  revert acc n. induction recs as [|[kk v] recs IH]; intros acc n.
  { exists 0%nat. cbn. rewrite app_nil_r, Z.add_0_r. split; [reflexivity|]. split; [lia|].
    split; [contradiction|]. auto. }
  cbn [collect_logs]. destruct (Z.ltb_spec (Z.of_nat (length acc))
    (MSG_ENTEY_MAX_SIZE - region_log_max_size)) as [Hlt|Hge].
  - destruct (IH (acc ++ v) (n + 1)) as (k & E & Hk & _ & Hend & Hfit).
    exists (S k). cbn [take map concat]. rewrite app_assoc.
    split; [rewrite E; f_equal; lia|]. split; [cbn; lia|]. split; [lia|].
    split; [destruct Hend; [left; cbn; lia|right; assumption]|].
    intros [Hv Hall]%Forall_cons Hacc. cbn in Hv. apply Hfit; [exact Hall|].
    rewrite length_app. lia.
  - exists 0%nat. cbn [take map concat]. rewrite app_nil_r, Z.add_0_r.
    split; [reflexivity|]. split; [lia|]. split; [lia|]. split; [right; exact Hge|auto].
Qed.

(** A log that fits is collected whole. *)
Lemma collect_all recs :
  Z.of_nat (length (concat (map snd recs))) < MSG_ENTEY_MAX_SIZE - region_log_max_size ->
  collect_logs recs [] 0 = (concat (map snd recs), Z.of_nat (length (map snd recs))).
Proof.
  intros Hfit. destruct (collect_logs_split recs [] 0) as (k & E & Hkle & _ & Hend & _).
  assert (k = length recs) as ->.
  { destruct Hend as [|Hend]; [assumption|]. exfalso. cbn [app] in Hend.
    assert (length (concat (map snd (take k recs))) <= length (concat (map snd recs)))%nat; [|lia].
    rewrite <- (take_drop k recs) at 2. rewrite map_app, concat_app, length_app. lia. }
  rewrite E, take_ge by lia. rewrite length_map. reflexivity.
Qed.

(** The left part after the hand-over. *)
Definition halved (k : RegionKey) : RegionKey :=
  {| key_hi := Z.shiftr (key_hi k) 1; key_low := key_low k |}.

(** ** The target server *)

Lemma target_creates fuel j old w req :
  region_map (ctx w) !! cr_region_id req = None ->
  let r := set_region_status NotReady
             (new_ServerRegion (cr_region_id req) (cr_start_key req) (cr_end_key req)) in
  exists w',
    serve fuel j 0 old (CreateRegion req) w = Done (tt, w') /\
    last (outbox w') = Some (RCreateRegion {| crs_resp_type := kSuccess;
                                              crs_region_id := cr_region_id req |}) /\
    region_is w' (cr_region_id req) r.
Proof.
  intros Hm r. eexists. split; [reflexivity|]. cbn. split; [apply last_snoc|].
  unfold region_is, map_insert. cbn. rewrite Hm. apply lookup_insert_eq.
Qed.

(** A final log message makes the region serve clients. *)
Lemma target_finishes fuel j old w req r n :
  region_is w (sl_region_id req) r -> is_i32 (kv_num r) ->
  sl_log_status req = LogDone -> sl_num_logs req = Z.of_nat n -> Z.of_nat n < 2 ^ 31 ->
  Forall is_byte (sl_entries req) -> ahead n (sl_entries req) ->
  exists w',
    serve fuel j 0 old (SendRegionLog req) w = Done (tt, w') /\
    last (outbox w') = Some (RSendRegionLog {| sls_resp_type := kSuccess;
      sls_log_status := LogDone; sls_region_id := sl_region_id req;
      sls_next_log_id := sl_next_log_id req |}) /\
    region_is w' (sl_region_id req)
      (set_region_status Normal (set_kv_num (i32 (kv_num r - Z.of_nat n)) r)).
Proof.
  intros Hr Hk Hst Hn Hbig Hb Htail.
  assert (wp (serve fuel j 0 old (SendRegionLog req)) (fun _ w' =>
    last (outbox w') = Some (RSendRegionLog {| sls_resp_type := kSuccess;
      sls_log_status := LogDone; sls_region_id := sl_region_id req;
      sls_next_log_id := sl_next_log_id req |}) /\
    region_is w' (sl_region_id req)
      (set_region_status Normal (set_kv_num (i32 (kv_num r - Z.of_nat n)) r))) w) as H.
  2: { apply wp_Done in H as ([] & w' & ? & ? & ?). eauto. }
  cbn [serve]. apply wp_bind, wp_modify.
  replace (Z.to_nat (u32 (sl_num_logs req))) with n
    by (rewrite Hn; unfold u32; rewrite Z.mod_small; lia).
  set (w1 := {| ctx := _; glob := _; outbox := _ |}).
  assert (region_is w1 (sl_region_id req) r) as Hr1.
  { unfold region_is, w1, map_insert. cbn. rewrite Hr. exact Hr. }
  pose proof (replay_outcome j (sl_region_id req) n (sl_entries req) w1 r Hb Hr1 Hk) as Hrep.
  apply wp_bind. unfold wpx in Hrep. unfold wp at 1.
  destruct (replay_log _ _ _ _ _) as [[[] w2]|f]; [|destruct Hrep as [_ Hno]; contradiction].
  destruct Hrep as (Hr2 & _ & _ & _ & _).
  rewrite Hst, bool_decide_true by reflexivity. apply wp_bind, wp_bind.
  eapply wp_region_at; [exact Hr2|]. apply wp_modify, wp_modify. cbn.
  split; [apply last_snoc|]. exact (region_is_with w2 _ _ (set_region_status Normal) Hr2).
Qed.

(** ** Runs of the split thread *)

Section Run.
Context (ths : gmap Z server_context) (ps : gmap Z world) (tid sid : Z).

(** The cluster while the split thread works for thread [tid] with peer [sid]. *)
Definition st (x : server_context) (g : globals) (pw : world) (b : bytes) : cluster :=
  {| threads := <[tid := x]> ths; pglob := g; s_ctx := Some tid;
     peers := <[sid := pw]> ps; st_req := b |}.

Lemma wp_on_ctx {A} (c : M world A) (Q : A -> cluster -> Prop) x g pw b :
  wp c (fun a w => Q a (st (ctx w) (glob w) pw b)) {| ctx := x; glob := g; outbox := [] |} ->
  wp (on_ctx c) Q (st x g pw b).
Proof.
  unfold wp, on_ctx, st. cbn. rewrite lookup_insert_eq.
  destruct (c _) as [[a w]|f]; [|auto]. rewrite insert_insert_eq. auto.
Qed.

Lemma wp_call_peer fuel j old q (Q : wire_resp -> cluster -> Prop) x g pw b pw' r :
  serve fuel j 0 old q pw = Done (tt, pw') -> last (outbox pw') = Some r ->
  Q r (st x g pw' b) -> wp (call_peer fuel j old sid q) Q (st x g pw b).
Proof.
  intros Hrun Hlast HQ. unfold wp, call_peer, st. cbn. rewrite lookup_insert_eq, Hrun, Hlast.
  unfold set_peer. cbn. rewrite insert_insert_eq. exact HQ.
Qed.

Lemma wp_find_region rid r (Q : ServerRegion -> cluster -> Prop) x g pw b :
  region_map x !! rid = Some (Some r) -> Q r (st x g pw b) ->
  wp (find_region rid) Q (st x g pw b).
Proof.
  intros Hr HQ. apply wp_bind, wp_on_ctx, wp_gets. cbn. rewrite Hr. exact HQ.
Qed.

Definition with_regions (f : gmap Z (option ServerRegion) -> gmap Z (option ServerRegion))
    (x : server_context) : server_context := set_region_map (f (region_map x)) x.

Lemma wp_upd_region rid f (Q : unit -> cluster -> Prop) x g pw b :
  Q tt (st (with_regions (alter (fmap f) rid) x) g pw b) ->
  wp (on_ctx (upd_region rid f)) Q (st x g pw b).
Proof. intros H. apply wp_on_ctx, wp_modify. exact H. Qed.

Lemma wp_write_fields l (Q : unit -> cluster -> Prop) x g pw b :
  Q tt (st x g pw (fold_left (fun b '(off, v) => write_at off v b) l b)) ->
  wp (write_fields l) Q (st x g pw b).
Proof. intros H. apply wp_modify. exact H. Qed.

Lemma wp_fill_entries off src (Q : unit -> cluster -> Prop) x g pw b :
  Z.of_nat (length src) <= MSG_ENTEY_MAX_SIZE -> Q tt (st x g pw (write_at off src b)) ->
  wp (fill_entries off src) Q (st x g pw b).
Proof.
  intros Hle HQ. unfold fill_entries. rewrite (proj2 (Z.leb_le _ _)) by exact Hle.
  apply wp_write_fields. exact HQ.
Qed.

Lemma wp_sent_entries off (Q : bytes -> cluster -> Prop) x g pw b :
  Q (take (Z.to_nat MSG_ENTEY_MAX_SIZE) (drop off b)) (st x g pw b) ->
  wp (sent_entries off) Q (st x g pw b).
Proof. intros H. apply wp_gets. exact H. Qed.

End Run.

(** ** The request buffer *)

(** The buffer of [alloc_msg_buffer_or_die(sizeof(wire_req_t))]: any bytes. *)
Definition req_buffer (b : bytes) : Prop := length b = 3768%nat /\ Forall is_byte b.

Lemma req_buffer_write off v b :
  (off + length v <= 3768)%nat -> Forall is_byte v -> req_buffer b -> req_buffer (write_at off v b).
Proof.
  intros Hle Hv [Hl Hb]. split; [rewrite length_write_at; lia|]. unfold write_at.
  rewrite !Forall_app. auto using Forall_take, Forall_drop.
Qed.

Lemma req_buffer_writes l b :
  Forall (fun '(off, v) => (off + length v <= 3768)%nat /\ Forall is_byte v) l -> req_buffer b ->
  req_buffer (fold_left (fun b '(off, v) => write_at off v b) l b).
Proof.
  revert b. induction l as [|[off v] l IH]; intros b Hl Hb; cbn [fold_left]; [exact Hb|].
  apply Forall_cons in Hl as [[Hle Hv] Hl]. apply IH; [exact Hl|]. apply req_buffer_write; assumption.
Qed.

(** Writes before [off] leave what begins there. *)
Lemma drop_writes off l b :
  Forall (fun '(o, v) => (o + length v <= off)%nat) l -> (off <= length b)%nat ->
  drop off (fold_left (fun b '(off, v) => write_at off v b) l b) = drop off b.
Proof.
  revert b. induction l as [|[o v] l IH]; intros b Hl Hb; cbn [fold_left]; [reflexivity|].
  apply Forall_cons in Hl as [Hle Hl]. rewrite IH by (try rewrite length_write_at; assumption || lia).
  unfold write_at. rewrite drop_app_ge by (rewrite length_take; lia).
  rewrite length_take, drop_app_ge by lia. rewrite drop_drop. f_equal. lia.
Qed.

Lemma drop_write_at off v b :
  (off <= length b)%nat -> drop off (write_at off v b) = v ++ drop (off + length v) b.
Proof. intros H. unfold write_at. rewrite drop_app_length' by (rewrite length_take; lia). reflexivity. Qed.



End SplitFacts.
