(* ===== verification/Sample.v ===== *)
(** * Concrete servers

    Small worlds over the engines [MapDb] and [SortedLog], used to run the model and
    to show that the hypotheses of the theorems can hold. *)

From Stdlib Require Import ZArith Lia.
From stdpp Require Import base numbers list gmap strings.
From S2P Require Import Prelude JumpHash Types XXHash Stores Wire Server Handlers HandlerSpec.
Open Scope Z_scope.

Module Sample.
#[export] Existing Instance MapDb.kv.
#[export] Existing Instance MapDb.laws.
#[export] Existing Instance SortedLog.rocks.
#[export] Existing Instance SortedLog.laws.

(** The record of a thread before [init_server_context]. *)
Definition ctx0 : server_context :=
  {| thread_id := 0; global_id := 0; alloc_inode := 0; metadb := MapDb.empty;
     log_db := SortedLog.empty; region_map := ∅; pinode_table := ∅ |}.

Definition glob0 : globals :=
  {| global_region_id := 0; global_region_map := ∅; shared_split_queue := [];
     st_sessions := Some 2 |}.

Definition w0 : world := {| ctx := ctx0; glob := glob0; outbox := [] |}.

(** The state of a computation that returns. *)
Definition state_of {A} (o : outcome (A * world)) (d : world) : world :=
  match o with Done (_, w) => w | Fault _ => d end.

(** Server 0, thread 0, after [init_server_context]. *)
Definition w1 : world :=
  state_of (init_server_context 0 1 0 MapDb.empty SortedLog.empty w0) w0.

Definition region0 : ServerRegion :=
  set_region_status Normal
    (new_ServerRegion 0 (mk_RegionKey 0 0) (mk_RegionKey 0 1023)).

Definition st0 : metafs_stat_t := stat_of_mode 0 0.
Definition j0 : junk := {| j_inode := 0; j_tv_sec := 7; j_stat := st0; j_pad := 0; j_flag := 0 |}.
Definition old0 : stale :=
  {| old_inode := {| ir_resp_type := kFail; ir_inode := 0 |};
     old_stat := {| st_resp_type := kFail; st_inode := 0; st_stat := st0 |};
     old_readdir := {| rd_resp_type := kFail; rd_is_uncomplete := 0; rd_num_result := 0;
       rd_entries_len := 0; rd_next_offset := 0; rd_entries := repeat 0 3712 |} |}.

Definition name (s : string) : bytes := text s ++ [0].

Definition mknod_a : FSMknodReq :=
  {| kr_region_id := 0; kr_oid := {| lo := 5; hi := 6 |}; kr_pinode := fs_root_inode;
     kr_pinode_hash := 3; kr_mode := 420; kr_fname := name "a"%string |}.

Definition mkdir_d : ModeReq :=
  {| mr_region_id := 0; mr_pinode := fs_root_inode; mr_pinode_hash := 3;
     mr_mode := 493; mr_fname := name "d"%string |}.

Definition fname_of (s : string) : FnameReq :=
  {| fr_region_id := 0; fr_pinode := fs_root_inode; fr_pinode_hash := 3;
     fr_fname := name s |}.

Lemma region_w1 : region_is w1 0 region0.
Proof. reflexivity. Qed.

Lemma admissible_w1 fname :
  has_nul fname = true -> Z.of_nat (length (c_str fname)) < METAFS_MAX_FNAME_LEN ->
  admissible w1 0 3 fname region0.
Proof.
  intros Hn Hl. split; try assumption; try reflexivity.
  - left. split; [reflexivity|]. unfold region_split_threshold. cbn. lia.
  - unfold is_i32. cbn. lia.
Qed.

Lemma wf_w1 : afs_wf (2 ^ 40) (abs w1).
Proof. exact (afs_wf_boot 0 0 ltac:(lia) ltac:(lia)). Qed.

(** A second region, being built, and one being handed over. *)
Definition w_split : world :=
  {| ctx := set_region_map
       (<[1 := Some (set_region_status NotReady
                       (new_ServerRegion 1 (mk_RegionKey 0 512) (mk_RegionKey 0 1023)))]>
        (<[0 := Some (set_region_status SplitAlmostDone region0)]> ∅)) (ctx w1);
     glob := glob w1; outbox := [] |}.

(** A directory [d] with one entry [g]. *)
Definition dir_d : Z := Z.lor 1 inode_prefix_msb.

Definition w_dir : world :=
  {| ctx := set_alloc_inode 3 (set_metadb (MapDb.mk
       (<[(fs_root_inode, name "d"%string) := dir_d]> {[(dir_d, name "g"%string) := 2]})
       (<[dir_d := st0]> {[2 := st0]}) 1000) (ctx w1));
     glob := glob w1; outbox := [] |}.

Lemma wf_w_dir : afs_wf (2 ^ 40) (abs w_dir).
Proof.
  assert (forall k i, a_dents (abs w_dir) !! k = Some i ->
    k = (fs_root_inode, name "d"%string) /\ i = dir_d \/
    k = (dir_d, name "g"%string) /\ i = 2) as Hd.
  { intros k i. unfold w_dir. cbn. rewrite lookup_insert_Some, lookup_singleton_Some.
    naive_solver. }
  assert (forall i st, a_stats (abs w_dir) !! i = Some st -> i = dir_d \/ i = 2) as Hs.
  { intros i st. unfold w_dir. cbn. rewrite lookup_insert_Some, lookup_singleton_Some.
    naive_solver. }
  split.
  - unfold w_dir. cbn. lia.
  - intros k i [[_ ->]|[_ ->]]%Hd; vm_compute; eauto.
  - intros k k' i [[-> ->]|[-> ->]]%Hd [[-> E]|[-> E]]%Hd; try reflexivity; discriminate.
  - intros i st [-> | ->]%Hs; vm_compute; intros [H1 H2]; contradiction.
  - intros k i [[-> _]|[-> _]]%Hd; vm_compute; discriminate.
Qed.

Lemma admissible_w_dir fname :
  has_nul fname = true -> Z.of_nat (length (c_str fname)) < METAFS_MAX_FNAME_LEN ->
  admissible w_dir 0 3 fname region0.
Proof.
  intros Hn Hl. split; try assumption; try reflexivity.
  - left. split; [reflexivity|]. unfold region_split_threshold. cbn. lia.
  - unfold is_i32. cbn. lia.
Qed.

End Sample.
