(* ===== verification/Typing.v ===== *)
(** * The values of the server stay inside their C types

    The widths of the fields of src/include/common/fs.h, region.h, rpc_common.h and metafs_server.h
    as predicates on the records of the model, and the proof that a handler of server_handler.cc
    takes a well-typed state and a well-typed request to a well-typed state with well-typed
    responses, the arrays of the responses included. *)

From Stdlib Require Import ZArith Lia.
From stdpp Require Import base numbers list gmap.
From S2P Require Import Prelude JumpHash Types XXHash Stores Wire Server Handlers HandlerSpec Sample.
Open Scope Z_scope.

Module Typing.

(** ** Data *)

Definition typed_key (k : RegionKey) : Prop := is_u64 (key_hi k) /\ is_u64 (key_low k).

Definition typed_region (r : ServerRegion) : Prop :=
  is_i32 (region_id r) /\ is_i32 (left_region_id r) /\ typed_key (start_key r) /\ typed_key (end_key r) /\
  is_i32 (kv_num r) /\ is_i32 (log_id r).

Definition typed_client_region (r : ClientRegion) : Prop :=
  is_i32 (c_region_id r) /\ typed_key (c_start_key r) /\ typed_key (c_end_key r).

(** [stat_in_range] of Wire.v is the type of a stat record. *)
Abbreviation typed_stat := stat_in_range.

Definition typed_bytes (l : bytes) : Prop := Forall is_byte l.

(** The four words of the header are read as [int64_t]. *)
Definition typed_buf (b : ReadDirBuf) : Prop :=
  is_i64 (new_offset b) /\ is_i64 (rd_uncomplete b) /\ is_i64 (rel_count b) /\ is_i64 (rel_len b) /\
    typed_bytes (payload b).

(** ** Messages *)

Definition typed_fname (r : FnameReq) : Prop := is_i32 (fr_region_id r) /\ is_u64 (fr_pinode r) /\
  typed_bytes (fr_fname r).
Definition typed_mode (r : ModeReq) : Prop :=
  is_i32 (mr_region_id r) /\ is_u64 (mr_pinode r) /\ is_u32 (mr_mode r) /\ typed_bytes (mr_fname r).

Definition typed_req (q : wire_req) : Prop :=
  match q with
  | FSOpenReq r | FSMkdirReq r => typed_mode r
  | FSUnlinkReq r | FSStatReq r | FSRmdirReq r | FSGetinodeReq r => typed_fname r
  | MknodReq r => is_i32 (kr_region_id r) /\ is_u64 (lo (kr_oid r)) /\ is_u64 (hi (kr_oid r)) /\
                  is_u64 (kr_pinode r) /\ is_u32 (kr_mode r) /\ typed_bytes (kr_fname r)
  | ReaddirReq r => is_i32 (rr_region_id r) /\ is_u64 (rr_inode r) /\ is_u64 (rr_offset r)
  | ReadRegionmapReq n => is_i32 n
  | CreateRegion r => is_i32 (cr_region_id r) /\ typed_key (cr_start_key r) /\ typed_key (cr_end_key r)
  | SendRegion r => is_i32 (sr_region_id r) /\ is_u64 (sr_pinode_hash r) /\ is_u64 (sr_pinode r) /\
    typed_bytes (sr_entries r)
  | SendRegionLog r => is_i32 (sl_region_id r) /\ is_i32 (sl_next_log_id r) /\ typed_bytes (sl_entries r)
  end.

Definition typed_stat_resp (r : StatResp) : Prop := is_u64 (st_inode r) /\ typed_stat (st_stat r).

Definition typed_readdir (r : FSReaddirResp) : Prop :=
  is_i32 (rd_is_uncomplete r) /\ is_i32 (rd_num_result r) /\ is_i32 (rd_entries_len r) /\ is_i64 (rd_next_offset r) /\
  typed_bytes (rd_entries r) /\ Z.of_nat (length (rd_entries r)) = MSG_ENTEY_MAX_SIZE.

(** The arrays have the size of their declaration, or fit in it. *)
Definition typed_resp (r : wire_resp) : Prop :=
  match r with
  | RInode r => is_u64 (ir_inode r)
  | RStat r => typed_stat_resp r
  | RStatus _ => True
  | RReaddir r => typed_readdir r
  | RRegionmap r => rm_num_entries r = Z.of_nat (length (rm_entries r)) /\ rm_num_entries r <= regionmap_capacity /\
                    Forall typed_client_region (rm_entries r)
  | RCreateRegion r => is_i32 (crs_region_id r)
  | RSendRegion r => is_i32 (srs_is_uncomplete r) /\ is_i32 (srs_region_id r) /\ is_u64 (srs_pinode_hash r) /\
                     is_u64 (srs_pinode r) /\ is_u64 (srs_offset r)
  | RSendRegionLog r => is_i32 (sls_region_id r) /\ is_i32 (sls_next_log_id r)
  end.

Definition typed_junk (j : junk) : Prop := is_u64 (j_inode j) /\ is_i64 (j_tv_sec j) /\ typed_stat (j_stat j).

Definition typed_stale (o : stale) : Prop :=
  is_u64 (ir_inode (old_inode o)) /\ typed_stat_resp (old_stat o) /\ typed_readdir (old_readdir o).

(** ** The store *)

(** The signatures of the store: with arguments of their types the operations keep the tables in
    order and give results of their types. *)
Class TypedStore (KV : MetaKV) := {
  typed_db : MetaDb -> Prop;
  GetFileInode_typed db p f i : typed_db db -> is_u64 p -> is_u64 i -> is_u64 (snd (GetFileInode db p f i));
  InsertFileInode_typed db p f i : typed_db db -> is_u64 p -> typed_bytes f -> is_u64 i ->
    typed_db (snd (InsertFileInode db p f i));
  DeleteFileInode_typed db p f i : typed_db db -> is_u64 p -> is_u64 i ->
    is_u64 (snd (fst (DeleteFileInode db p f i))) /\ typed_db (snd (DeleteFileInode db p f i));
  GetStat_typed db i st : typed_db db -> is_u64 i -> typed_stat st -> typed_stat (snd (GetStat db i st));
  InsertStat_typed db i st : typed_db db -> is_u64 i -> typed_stat st -> typed_db (snd (InsertStat db i st));
  UpdateStat_typed db i st : typed_db db -> is_u64 i -> typed_stat st -> typed_db (snd (UpdateStat db i st));
  DeleteStat_typed db i : typed_db db -> is_u64 i -> typed_db (snd (DeleteStat db i));
  ReadDir_typed db p off max st b : typed_db db -> is_u64 p -> is_u64 off -> is_u32 max ->
    ReadDir db p off max = (st, Some b) -> typed_buf b
}.

Section Typing.
Context {KV : MetaKV} {RK : RocksDB} {TS : TypedStore KV}.

(** ** States *)

Record typed_ctx (c : server_context) : Prop := {
  tc_ids : is_u64 (thread_id c) /\ is_u64 (global_id c) /\ is_u64 (alloc_inode c);
  tc_db : typed_db (metadb c);
  tc_regions rid r : region_map c !! rid = Some (Some r) -> is_i32 rid /\ typed_region r;
  tc_pinodes h s i : pinode_table c !! h = Some s -> i ∈ s -> is_u64 i
}.

Record typed_glob (g : globals) : Prop := {
  tg_next : is_i32 (global_region_id g);
  tg_map rid r : global_region_map g !! rid = Some r -> typed_client_region r;
  tg_queue tid rid : (tid, rid) ∈ shared_split_queue g -> is_u64 tid /\ is_i32 rid
}.

Record typed_world (w : world) : Prop := {
  tw_ctx : typed_ctx (ctx w);
  tw_glob : typed_glob (glob w);
  tw_out : Forall typed_resp (outbox w)
}.

(** [c] from [w] faults or ends in [Q]. *)
Definition partial {A} (c : M world A) (Q : A -> world -> Prop) (w : world) : Prop := wpx (fun _ => True) c Q w.

Lemma partial_bind {A B} (c : M world A) (k : A -> M world B) Q w :
  partial c (fun a w' => partial (k a) Q w') w -> partial (bind c k) Q w.
Proof. apply wpx_bind. Qed.

Lemma partial_ret {A} (a : A) (Q : A -> world -> Prop) w : Q a w -> partial (ret a) Q w.
Proof. auto. Qed.

Lemma partial_raise {A} f (Q : A -> world -> Prop) w : partial (raise f) Q w.
Proof. exact I. Qed.

Lemma partial_gets {A} (f : world -> A) (Q : A -> world -> Prop) w : Q (f w) w -> partial (gets f) Q w.
Proof. auto. Qed.

Lemma partial_assert b (Q : unit -> world -> Prop) w : Q tt w -> partial (p_assert b) Q w.
Proof. destruct b; [auto|intros; exact I]. Qed.

Lemma partial_when b c (Q : unit -> world -> Prop) w : partial c Q w -> Q tt w -> partial (when_ b c) Q w.
Proof. destruct b; auto. Qed.

Lemma partial_upd_ctx f w (Q : unit -> world -> Prop) :
  typed_world w -> (forall c, typed_ctx c -> typed_ctx (f c)) -> (forall w', typed_world w' -> Q tt w') ->
  partial (upd_ctx f) Q w.
Proof. intros [H1 H2 H3] Hf HQ. apply HQ. split; cbn; auto. Qed.

Lemma partial_upd_glob f w (Q : unit -> world -> Prop) :
  typed_world w -> (forall g, typed_glob g -> typed_glob (f g)) -> (forall w', typed_world w' -> Q tt w') ->
  partial (upd_glob f) Q w.
Proof. intros [H1 H2 H3] Hf HQ. apply HQ. split; cbn; auto. Qed.

Lemma partial_response r w (Q : unit -> world -> Prop) :
  typed_world w -> typed_resp r -> (forall w', typed_world w' -> Q tt w') -> partial (enqueue_response r) Q w.
Proof. intros [H1 H2 H3] Hr HQ. apply HQ. split; cbn; auto. apply Forall_app. auto. Qed.

(** *** Regions *)

Lemma partial_region_at rid w (Q : ServerRegion -> world -> Prop) :
  typed_world w -> (forall r, is_i32 rid -> typed_region r -> Q r w) -> partial (region_at rid) Q w.
Proof.
  intros Hw HQ. unfold region_at. apply partial_bind, partial_gets.
  destruct (region_map (ctx w) !! rid) as [[r|]|] eqn:Er; [|exact I|exact I].
  destruct (tc_regions _ (tw_ctx _ Hw) rid r Er). apply partial_ret, HQ; assumption.
Qed.

Lemma typed_ctx_regions c m : typed_ctx c ->
  (forall rid r, m !! rid = Some (Some r) -> is_i32 rid /\ typed_region r) -> typed_ctx (set_region_map m c).
Proof. intros [C1 C2 C3 C4] Hm. split; cbn; auto. Qed.

Lemma map_insert_typed rid x c : typed_ctx c -> (forall r, x = Some r -> is_i32 rid /\ typed_region r) ->
  typed_ctx (set_region_map (map_insert rid x (region_map c)) c).
Proof.
  intros Hc Hx. apply typed_ctx_regions; [exact Hc|]. intros k r. unfold map_insert.
  destruct (region_map c !! rid) eqn:Er; [apply (tc_regions _ Hc)|].
  rewrite lookup_insert_Some. intros [[<- ->]|[_ H]]; [auto|exact (tc_regions _ Hc _ _ H)].
Qed.

Lemma partial_upd_region rid f w (Q : unit -> world -> Prop) :
  typed_world w -> (forall r, typed_region r -> typed_region (f r)) -> (forall w', typed_world w' -> Q tt w') ->
  partial (upd_region rid f) Q w.
Proof.
  intros Hw Hf. apply partial_upd_ctx; [exact Hw|]. intros c Hc. apply typed_ctx_regions; [exact Hc|].
  intros k r. rewrite lookup_alter_Some.
  intros [(-> & [r0|] & H & E)|[_ H]]; [|discriminate|exact (tc_regions _ Hc _ _ H)].
  destruct (tc_regions _ Hc _ _ H). injection E as ->. auto.
Qed.

Lemma partial_kv_num_add rid n w (Q : unit -> world -> Prop) :
  typed_world w -> (forall w', typed_world w' -> Q tt w') -> partial (kv_num_add rid n) Q w.
Proof.
  intros Hw HQ. apply partial_bind, partial_region_at; [exact Hw|]. intros _ _ _.
  apply partial_upd_region; [exact Hw| |exact HQ].
  intros r Hr. pose proof (i32_range (kv_num r + n)). unfold typed_region in *. cbn. tauto.
Qed.

Lemma partial_status r w (Q : bool -> world -> Prop) : (forall b, Q b w) -> partial (check_region_status r) Q w.
Proof. intros HQ. unfold check_region_status. destruct (region_status r); first [apply partial_ret, HQ|exact I]. Qed.

Lemma partial_convert st w (Q : RespType -> world -> Prop) : (forall t, Q t w) ->
  partial (convert_status_to_resptype st) Q w.
Proof. intros HQ. destruct st; first [apply partial_ret, HQ|exact I]. Qed.

Lemma c_str_typed s : typed_bytes s -> typed_bytes (c_str s).
Proof. induction 1 as [|b s Hb Hs IH]; cbn; [constructor|]. destruct (b =? 0); constructor; assumption. Qed.

Lemma partial_slice f w (Q : bytes -> world -> Prop) :
  typed_bytes f -> (forall s, typed_bytes s -> Q s w) -> partial (fname_slice f) Q w.
Proof.
  intros Hf HQ. unfold fname_slice. destruct (has_nul f); [|exact I]. apply partial_ret, HQ, Forall_app.
  split; [apply c_str_typed, Hf|]. repeat constructor; unfold is_byte; lia.
Qed.

(** *** The store *)

Lemma partial_kv_get {A} (f : MetaDb -> A) w (Q : A -> world -> Prop) :
  typed_world w -> (typed_db (metadb (ctx w)) -> Q (f (metadb (ctx w))) w) -> partial (kv_get f) Q w.
Proof. intros Hw HQ. apply HQ, Hw. Qed.

Lemma partial_kv_put {A} (f : MetaDb -> A * MetaDb) w (Q : A -> world -> Prop) :
  typed_world w -> (forall db, typed_db db -> typed_db (snd (f db))) ->
  (forall db w', typed_db db -> typed_world w' -> Q (fst (f db)) w') -> partial (kv_put f) Q w.
Proof.
  intros Hw Hf HQ. apply partial_bind, partial_gets. pose proof (tc_db _ (tw_ctx _ Hw)) as Hdb.
  specialize (Hf _ Hdb). specialize (fun w' => HQ _ w' Hdb). destruct (f (metadb (ctx w))) as [a db'].
  apply partial_bind, partial_upd_ctx; [exact Hw|intros c [C1 C2 C3 C4]; split; cbn; auto|].
  intros w' Hw'. apply partial_ret, HQ, Hw'.
Qed.

Lemma partial_GetFileInode p f i w (Q : MetaKvStatus * Z -> world -> Prop) :
  typed_world w -> is_u64 p -> is_u64 i -> (forall st i', is_u64 i' -> Q (st, i') w) ->
  partial (kv_get (fun db => GetFileInode db p f i)) Q w.
Proof.
  intros Hw Hp Hi HQ. apply partial_kv_get; [exact Hw|]. intros Hdb.
  pose proof (GetFileInode_typed _ p f i Hdb Hp Hi) as H.
  destruct (GetFileInode _ p f i). apply HQ, H.
Qed.

Lemma partial_GetStat i st w (Q : MetaKvStatus * metafs_stat_t -> world -> Prop) :
  typed_world w -> is_u64 i -> typed_stat st -> (forall s st', typed_stat st' -> Q (s, st') w) ->
  partial (kv_get (fun db => GetStat db i st)) Q w.
Proof.
  intros Hw Hi Hst HQ. apply partial_kv_get; [exact Hw|]. intros Hdb.
  pose proof (GetStat_typed _ i st Hdb Hi Hst) as H.
  destruct (GetStat _ i st). apply HQ, H.
Qed.

Lemma partial_ReadDir p off max w (Q : MetaKvStatus * option ReadDirBuf -> world -> Prop) :
  typed_world w -> is_u64 p -> is_u64 off -> is_u32 max -> (forall s o, (forall b, o = Some b -> typed_buf b) ->
    Q (s, o) w) ->
  partial (kv_get (fun db => ReadDir db p off max)) Q w.
Proof.
  intros Hw Hp Ho Hm HQ. apply partial_kv_get; [exact Hw|]. intros Hdb.
  destruct (ReadDir _ p off max) as [s o] eqn:Er.
  apply HQ. intros b ->. exact (ReadDir_typed _ p off max s b Hdb Hp Ho Hm Er).
Qed.

Lemma partial_DeleteFileInode p f i w (Q : MetaKvStatus * Z -> world -> Prop) :
  typed_world w -> is_u64 p -> is_u64 i -> (forall st i' w', is_u64 i' -> typed_world w' -> Q (st, i') w') ->
  partial (kv_put (fun db => DeleteFileInode db p f i)) Q w.
Proof.
  intros Hw Hp Hi HQ. apply partial_kv_put; [exact Hw|intros db Hdb;
    apply (DeleteFileInode_typed db p f i Hdb Hp Hi)|].
  intros db w' Hdb Hw'. destruct (DeleteFileInode_typed db p f i Hdb Hp Hi) as [H _].
  destruct (DeleteFileInode db p f i) as [[st i'] db']. apply HQ; assumption.
Qed.

(** The operations that only give a status. *)
Lemma partial_kv_write (f : MetaDb -> MetaKvStatus * MetaDb) w (Q : MetaKvStatus -> world -> Prop) :
  typed_world w -> (forall db, typed_db db -> typed_db (snd (f db))) ->
  (forall st w', typed_world w' -> Q st w') -> partial (kv_put f) Q w.
Proof. intros Hw Hf HQ. apply partial_kv_put; auto. Qed.

(** *** Splits and the log *)

Lemma typed_glob_next n g : typed_glob g -> is_i32 n -> typed_glob (set_global_region_id n g).
Proof. intros [G1 G2 G3] Hn. split; cbn; auto. Qed.

Lemma partial_fresh fuel : forall w (Q : Z -> world -> Prop), typed_world w ->
  (forall nr w', is_i32 nr -> typed_world w' -> Q nr w') -> partial (fresh_region_id fuel) Q w.
Proof.
  induction fuel as [|fuel IH]; intros w Q Hw HQ; cbn [fresh_region_id]; [exact I|].
  apply partial_bind, partial_gets. pose proof (tg_next _ (tw_glob _ Hw)) as Hn.
  apply partial_bind, partial_upd_glob; [exact Hw|intros g Hg; apply typed_glob_next; [exact Hg|apply i32_range]|].
  intros w1 Hw1. apply partial_bind, partial_gets. destruct (st_sessions (glob w1)) as [n|]; [|exact I].
  apply partial_bind. unfold jump_target. destruct (JumpConsistentHash _ _) as [b|]; [|exact I]. apply partial_ret.
  apply partial_bind, partial_gets. destruct (u64 b =? global_id (ctx w1)); [apply IH; assumption|].
  apply partial_ret, HQ; assumption.
Qed.

Lemma typed_mk_key l h : typed_key (mk_RegionKey l h).
Proof. split; apply u64_range. Qed.

Lemma typed_new_region rid s e : is_i32 rid -> typed_key s -> typed_key e -> typed_region (new_ServerRegion rid s e).
Proof. intros H1 H2 H3. unfold typed_region. cbn. assert (is_i32 0) by (unfold is_i32; lia). tauto. Qed.

Lemma partial_maybe_split fuel rid w (Q : unit -> world -> Prop) :
  typed_world w -> (forall w', typed_world w' -> Q tt w') -> partial (maybe_split fuel rid) Q w.
Proof.
  intros Hw HQ. apply partial_bind, partial_region_at; [exact Hw|]. intros r0 _ _.
  destruct (_ && _); [|apply partial_ret, HQ, Hw].
  apply partial_bind, partial_upd_region; [exact Hw|intros r Hr; exact Hr|]. intros w1 Hw1.
  apply partial_bind, partial_region_at; [exact Hw1|]. intros r _ Hr.
  destruct (over_threshold r); [|apply partial_ret, HQ, Hw1].
  apply partial_bind, partial_fresh; [exact Hw1|]. intros nr w2 Hnr Hw2.
  apply partial_bind, partial_upd_ctx; [exact Hw2| |].
  { intros c Hc. apply map_insert_typed; [exact Hc|]. intros x [= <-]. split; [exact Hnr|].
    pose proof (typed_new_region nr _ _ Hnr (typed_mk_key 0 (u64 (Z.shiftr (key_hi (end_key r)) 1 + 1)))
      (typed_mk_key 0 (key_hi (end_key r)))) as Hnew.
    unfold typed_region in Hr, Hnew |- *. cbn in Hnew |- *. tauto. }
  intros w3 Hw3. apply partial_bind, partial_gets. apply partial_upd_glob; [exact Hw3| |exact HQ].
  intros g [G1 G2 G3]. split; cbn; auto. intros tid rid'. rewrite elem_of_app, list_elem_of_singleton.
  intros [H|[= -> ->]]; [auto|]. split; [apply (tc_ids _ (tw_ctx _ Hw3))|exact Hnr].
Qed.

Lemma partial_log j rid del p f st i w (Q : unit -> world -> Prop) :
  typed_world w -> (forall w', typed_world w' -> Q tt w') -> partial (log_if_split j rid del p f st i) Q w.
Proof.
  intros Hw HQ. assert (forall k v w (Q : unit -> world -> Prop), typed_world w ->
    (forall w', typed_world w' -> Q tt w') ->
    partial (log_put k v) Q w) as Hput.
  { intros k v w1 R Hw1 HR. apply partial_bind, partial_gets. destruct (rocks_put _ k v) as [ok db].
    apply partial_bind, partial_upd_ctx; [exact Hw1|intros c [C1 C2 C3 C4]; split; cbn; auto|]. intros w2 Hw2.
    apply partial_assert, HR, Hw2. }
  apply partial_bind, partial_region_at; [exact Hw|]. intros r _ _. apply partial_when; [|apply HQ, Hw].
  apply partial_bind, partial_region_at; [exact Hw|]. intros r' _ _.
  apply partial_bind, partial_upd_region; [exact Hw| |].
  { intros x Hx. pose proof (i32_range (log_id x + 1)). unfold typed_region in *. cbn. tauto. }
  intros w1 Hw1. destruct del; [|destruct st as [st|]; [|exact I]]; apply partial_bind, partial_assert, Hput;
    assumption.
Qed.

(** *** Inode numbers *)

Lemma partial_next w (Q : Z -> world -> Prop) :
  typed_world w -> (forall i, is_u64 i -> Q i w) -> partial (gets (fun w => alloc_inode (ctx w))) Q w.
Proof. intros Hw HQ. apply partial_gets, HQ, (tc_ids _ (tw_ctx _ Hw)). Qed.

Lemma partial_alloc n w (Q : unit -> world -> Prop) :
  typed_world w -> (forall w', typed_world w' -> Q tt w') -> partial (upd_ctx (set_alloc_inode (u64 n))) Q w.
Proof.
  intros Hw. apply partial_upd_ctx; [exact Hw|]. intros c [(C1 & C2 & _) C4 C5 C6]. split; cbn; auto using u64_range.
Qed.

Lemma lor_u64 a b : is_u64 a -> is_u64 b -> is_u64 (Z.lor a b).
Proof.
  unfold is_u64. intros Ha Hb. split; [apply Z.lor_nonneg; lia|].
  destruct (Z.eq_dec (Z.lor a b) 0) as [->|Hne]; [lia|].
  apply Z.log2_lt_pow2; [pose proof (proj2 (Z.lor_nonneg a b)); lia|].
  rewrite Z.log2_lor by lia. apply Z.max_lub_lt.
  - destruct (Z.eq_dec a 0) as [->|]; [reflexivity|]. apply Z.log2_lt_pow2; lia.
  - destruct (Z.eq_dec b 0) as [->|]; [reflexivity|]. apply Z.log2_lt_pow2; lia.
Qed.

Lemma partial_pinode h i w (Q : unit -> world -> Prop) :
  typed_world w -> is_u64 i -> (forall w', typed_world w' -> Q tt w') ->
  partial (upd_ctx (fun c => set_pinode_table (pinode_table_insert h i (pinode_table c)) c)) Q w.
Proof.
  intros Hw Hi. apply partial_upd_ctx; [exact Hw|]. intros c [C1 C2 C3 C4]. split; cbn; auto.
  intros k s x. unfold pinode_table_insert. rewrite lookup_insert_Some. intros [[<- <-]|[_ Hs]]; [|eauto].
  rewrite elem_of_union, elem_of_singleton. intros [->|Hx]; [exact Hi|].
  destruct (pinode_table c !! h) as [s|] eqn:Es; cbn in Hx; [eauto|set_solver].
Qed.

(** *** Handlers *)

Ltac tstep :=
  match goal with
  | |- partial (bind _ _) _ _ => apply partial_bind
  | |- partial (ret _) _ _ => apply partial_ret
  | |- partial (raise _) _ _ => exact I
  | |- partial (region_at _) _ _ => apply partial_region_at; [assumption|intros ? ? ?]
  | |- partial (when_ _ _) _ _ => apply partial_when
  | |- partial (check_region_status _) _ _ => apply partial_status; intros ?
  | |- partial (convert_status_to_resptype _) _ _ => apply partial_convert; intros ?
  | |- partial (fname_slice _) _ _ => apply partial_slice; [assumption|intros ? ?]
  | |- partial (kv_num_add _ _) _ _ => apply partial_kv_num_add; [assumption|intros ? ?]
  | |- partial (maybe_split _ _) _ _ => apply partial_maybe_split; [assumption|intros ? ?]
  | |- partial (log_if_split _ _ _ _ _ _ _) _ _ => apply partial_log; [assumption|intros ? ?]
  | |- partial (enqueue_response _) _ _ => apply partial_response; [assumption| |intros ? ?]
  | |- partial (kv_get (fun db => GetFileInode db _ _ _)) _ _ => apply partial_GetFileInode;
    [assumption| | |intros ? ? ?]
  | |- partial (kv_get (fun db => GetStat db _ _)) _ _ => apply partial_GetStat; [assumption| | |intros ? ? ?]
  | |- partial (kv_put (fun db => DeleteFileInode db _ _ _)) _ _ => apply partial_DeleteFileInode;
    [assumption| | |intros ? ? ? ? ?]
  | |- partial (kv_put (fun db => InsertFileInode db _ _ _)) _ _ =>
      apply partial_kv_write; [assumption|intros ? ?; apply InsertFileInode_typed; [assumption| |assumption|]|
        intros ? ? ?]
  | |- partial (kv_put (fun db => InsertStat db _ _)) _ _ =>
      apply partial_kv_write; [assumption|intros ? ?; apply InsertStat_typed; [assumption| |]|intros ? ? ?]
  | |- partial (kv_put (fun db => UpdateStat db _ _)) _ _ =>
      apply partial_kv_write; [assumption|intros ? ?; apply UpdateStat_typed; [assumption| |]|intros ? ? ?]
  | |- partial (kv_put (fun db => DeleteStat db _)) _ _ =>
      apply partial_kv_write; [assumption|intros ? ?; apply DeleteStat_typed; [assumption|]|intros ? ? ?]
  | |- partial (upd_ctx (fun c => set_pinode_table (pinode_table_insert _ _ (pinode_table c)) c)) _ _ =>
      apply partial_pinode; [assumption| |intros ? ?]
  | |- partial (gets (fun w => alloc_inode (ctx w))) _ _ => apply partial_next; [assumption|intros ? ?]
  | |- partial (upd_ctx (set_alloc_inode (u64 _))) _ _ => apply partial_alloc; [assumption|intros ? ?]
  | |- partial (if ?b then _ else _) _ _ => destruct b
  | |- typed_world _ => assumption
  | |- is_u64 _ => assumption
  | |- stat_in_range _ => assumption
  end.

Context (j : junk) (old : stale) (Hj : typed_junk j) (Hold : typed_stale old).

Ltac tdone := unfold typed_resp, typed_stat_resp, stat_in_range in *; cbn in *; tauto.

(** The records of the hypotheses, taken apart. *)
Ltac topen := destruct Hj as (J1 & J2 & J3), Hold as (O1 & O2 & O3); pose proof (proj1 O2) as O4;
  pose proof (proj2 O2) as O5.

Lemma open_typed now r w : is_i64 now -> typed_mode r -> typed_world w ->
  partial (fs_open_handler j now r (old_stat old)) (fun _ w' => typed_world w') w.
Proof.
  intros Hnow (Hr1 & Hr2 & Hr3 & Hr4) Hw. topen. unfold fs_open_handler. repeat (tstep; cbn beta iota). all: tdone.
Qed.

Lemma mknod_typed fuel r w : typed_req (MknodReq r) -> typed_world w ->
  partial (fs_mknod_handler fuel j r (old_stat old)) (fun _ w' => typed_world w') w.
Proof.
  intros (R1 & R2 & R3 & R4 & R5 & R6) Hw. topen. unfold fs_mknod_handler.
  assert (typed_stat (stat_of_oid_mode (j_tv_sec j) (kr_oid r) (kr_mode r))) as Hst
    by (unfold stat_in_range; cbn; tauto).
  repeat (tstep; cbn beta iota). all: tdone.
Qed.

Lemma mkdir_typed fuel r w : typed_mode r -> typed_world w ->
  partial (fs_mkdir_handler fuel j r (old_inode old)) (fun _ w' => typed_world w') w.
Proof.
  intros (R1 & R2 & R3 & R4) Hw. topen. unfold fs_mkdir_handler.
  assert (typed_stat (stat_of_mode (j_tv_sec j) (mr_mode r))) as Hst.
  { assert (is_u64 0) by (unfold is_u64; lia). unfold stat_in_range. cbn. tauto. }
  assert (forall i, is_u64 i -> is_u64 (Z.lor i inode_prefix_msb)) as Hdir
    by (intros i Hi; apply lor_u64; [exact Hi|vm_compute; split; congruence]).
  repeat (tstep; cbn beta iota). all: try (apply Hdir; assumption). all: cbn; auto.
Qed.

Lemma stat_typed r w : typed_fname r -> typed_world w ->
  partial (fs_stat_handler j r (old_stat old)) (fun _ w' => typed_world w') w.
Proof. intros (R1 & R2 & R3) Hw. topen. unfold fs_stat_handler. repeat (tstep; cbn beta iota). all: tdone. Qed.

Lemma unlink_typed r w : typed_fname r -> typed_world w -> partial (fs_unlink_handler j r) (fun _ w' =>
  typed_world w') w.
Proof. intros (R1 & R2 & R3) Hw. topen. unfold fs_unlink_handler. repeat (tstep; cbn beta iota). all: tdone. Qed.

Lemma getinode_typed r w : typed_fname r -> typed_world w ->
  partial (fs_getinode_handler j r (old_inode old)) (fun _ w' => typed_world w') w.
Proof. intros (R1 & R2 & R3) Hw. topen. unfold fs_getinode_handler. repeat (tstep; cbn beta iota).
all: repeat case_match; tdone. Qed.

Lemma rmdir_typed r w : typed_fname r -> typed_world w -> partial (fs_rmdir_handler j r) (fun _ w' =>
  typed_world w') w.
Proof.
  intros (R1 & R2 & R3) Hw. topen. unfold fs_rmdir_handler.
  assert (is_u64 0) as H0 by (unfold is_u64; lia). assert (is_u32 256) as Hmax by (unfold is_u32; lia).
  repeat (tstep; cbn beta iota). all: try tdone.
  all: apply partial_ReadDir; [assumption..|]; intros sx ox Ho.
  all: destruct ox; cbn beta iota; repeat (tstep; cbn beta iota); tdone.
Qed.

Lemma copy_typed len src dst w (Q : bytes -> world -> Prop) :
  typed_bytes src -> typed_bytes dst -> Z.of_nat (length dst) = MSG_ENTEY_MAX_SIZE ->
  (forall l, typed_bytes l -> Z.of_nat (length l) = MSG_ENTEY_MAX_SIZE -> Q l w) ->
    partial (copy_entries len src dst) Q w.
Proof.
  intros Hs Hd Hl HQ. unfold copy_entries. destruct (_ && _) eqn:Hb; [|exact I]. zbool. apply partial_ret, HQ.
  - apply Forall_app. split; [apply Forall_take, Hs|apply Forall_drop, Hd].
  - rewrite length_app, length_take, length_drop. lia.
Qed.

Lemma readdir_typed r w : typed_req (ReaddirReq r) -> typed_world w ->
  partial (fs_readdir_handler r (old_readdir old)) (fun _ w' => typed_world w') w.
Proof.
  intros (R1 & R2 & R3) Hw. topen. unfold fs_readdir_handler.
  assert (is_i32 0) as H0 by (unfold is_i32; lia).
  assert (is_u32 MSG_ENTEY_MAX_SIZE) as Hmax by (vm_compute; split; congruence).
  repeat (tstep; cbn beta iota). all: try exact O3.
  all: apply partial_ReadDir; [assumption..|]; intros sx ox Ho; apply partial_bind.
  all: destruct ox as [b|]; destruct (check_status_ok sx); cbn beta iota; repeat (tstep; cbn beta iota).
  all: try (unfold typed_resp, typed_readdir in *; cbn; tauto).
  all: destruct (Ho b eq_refl) as (B1 & B2 & B3 & B4 & B5); destruct O3 as (P1 & P2 & P3 & P4 & P5 & P6).
  all: apply partial_assert, partial_bind, copy_typed; [assumption..|]; intros l Hl1 Hl2; apply partial_ret; cbn.
  all: repeat (tstep; cbn beta iota); unfold typed_resp, typed_readdir; cbn; auto 10 using i32_range.
Qed.

Lemma regionmap_typed w : typed_world w -> partial read_region_map_handler (fun _ w' => typed_world w') w.
Proof.
  intros Hw. unfold read_region_map_handler. apply partial_bind, partial_gets.
  destruct (Z.leb_spec (Z.of_nat (length (map snd (map_to_list (global_region_map (glob w)))))) regionmap_capacity);
    [|exact I].
  apply partial_response; [exact Hw| |auto]. cbn. split; [reflexivity|]. split; [assumption|].
  apply Forall_forall. intros r Hr. apply list_elem_of_fmap in Hr as ([k x] & -> & Hx).
  apply elem_of_map_to_list in Hx. exact (tg_map _ (tw_glob _ Hw) k x Hx).
Qed.

Lemma create_region_typed r w : typed_req (CreateRegion r) -> typed_world w ->
  partial (s2s_create_region_handler r) (fun _ w' => typed_world w') w.
Proof.
  intros (R1 & R2 & R3) Hw. unfold s2s_create_region_handler. apply partial_bind, partial_upd_ctx; [exact Hw| |].
  - intros c Hc. apply map_insert_typed; [exact Hc|]. intros x [= <-]. split; [exact R1|].
    exact (typed_new_region _ _ _ R1 R2 R3).
  - intros w' Hw'. apply partial_response; auto.
Qed.

(** *** Handlers of the split *)

Lemma byte_u64 b : is_byte b -> is_u64 b.
Proof. unfold is_byte, is_u64. lia. Qed.

Lemma partial_inode buf w (Q : Z * bytes -> world -> Prop) :
  typed_bytes buf -> (forall i rest, is_byte i -> typed_bytes rest -> Q (i, rest) w) -> partial (read_inode buf) Q w.
Proof.
  intros Hb HQ. unfold read_inode. destruct buf as [|b buf]; [exact I|]. apply partial_ret, HQ.
  - apply Forall_cons in Hb as [Hb _]. exact Hb.
  - apply Forall_drop, Hb.
Qed.

Lemma partial_fname buf w (Q : bytes * bytes -> world -> Prop) :
  typed_bytes buf -> (forall s rest, typed_bytes s -> typed_bytes rest -> Q (s, rest) w) ->
    partial (read_fname buf) Q w.
Proof.
  intros Hb HQ. apply partial_bind, partial_slice; [exact Hb|]. intros s Hs.
  apply partial_ret, HQ; [exact Hs|apply Forall_drop, Hb].
Qed.

Lemma build_typed n : forall buf w (Q : unit -> world -> Prop), typed_bytes buf -> typed_world w ->
  (forall w', typed_world w' -> Q tt w') -> partial (build_region j n buf) Q w.
Proof.
  topen. induction n as [|n IH]; intros buf w Q Hb Hw HQ; cbn [build_region]; [apply partial_ret, HQ, Hw|].
  apply partial_bind, partial_inode; [exact Hb|]. intros p b1 Hp Hb1. apply byte_u64 in Hp.
  apply partial_bind, partial_fname; [exact Hb1|]. intros s b2 Hs Hb2.
  apply partial_bind, partial_inode; [exact Hb2|]. intros i b3 Hi Hb3. apply byte_u64 in Hi.
  repeat (tstep; cbn beta iota); apply IH; assumption.
Qed.

Lemma send_region_typed r w : typed_req (SendRegion r) -> typed_world w ->
  partial (s2s_send_region_handler j r) (fun _ w' => typed_world w') w.
Proof.
  intros (R1 & R2 & R3 & R4) Hw. apply partial_bind, build_typed; [exact R4|exact Hw|]. intros w1 Hw1.
  repeat (tstep; cbn beta iota). cbn. auto using i32_range, u64_range.
Qed.

Lemma land_u64 a b : is_u64 a -> is_u64 (Z.land a b).
Proof.
  unfold is_u64. intros Ha. split; [apply Z.land_nonneg; lia|].
  assert (Z.land a (Z.ones 64) = a) as <- by (rewrite Z.land_ones by lia; apply Z.mod_small, Ha).
  rewrite <- Z.land_assoc, (Z.land_comm (Z.ones 64)), Z.land_assoc, Z.land_ones by lia. apply Z.mod_pos_bound. lia.
Qed.

Lemma le_value_typed n s : typed_bytes s -> (length s <= n)%nat -> 0 <= le_value s < 256 ^ Z.of_nat n.
Proof.
  intros Hs. revert n. induction Hs as [|b s Hb Hs IH]; intros n Hn.
  - change (le_value []) with 0. split; [lia|]. apply Z.pow_pos_nonneg; lia.
  - change (le_value (b :: s)) with (b + 256 * le_value s). destruct n as [|n]; cbn [length] in Hn; [lia|].
    specialize (IH n ltac:(lia)). unfold is_byte in Hb.
    rewrite Nat2Z.inj_succ, Z.pow_succ_r by lia. lia.
Qed.

Lemma read_stat_typed s : typed_bytes s -> typed_stat (read_stat s).
Proof.
  intros Hs. assert (forall n o, 0 <= le_value (take n (drop o s)) < 256 ^ Z.of_nat n) as H.
  { intros n o. apply le_value_typed; [apply Forall_take, Forall_drop, Hs|]. rewrite length_take. lia. }
  pose proof (H 8%nat 0%nat) as H0. pose proof (H 8%nat 8%nat) as H8. pose proof (H 4%nat 16%nat) as H4.
  rewrite drop_0 in H0. cbn in H0, H8, H4. unfold stat_in_range. cbn [read_stat oid lo hi mode mtime ctime atime].
  unfold is_u64 at 1 2, is_u32. split; [lia|]. split; [lia|]. split; [lia|]. auto using i64_range.
Qed.

Lemma replay_typed rid n : forall buf w (Q : unit -> world -> Prop), typed_bytes buf -> typed_world w ->
  (forall w', typed_world w' -> Q tt w') -> partial (replay_log j rid n buf) Q w.
Proof.
  topen. induction n as [|n IH]; intros buf w Q Hb Hw HQ; cbn [replay_log]; [apply partial_ret, HQ, Hw|].
  apply partial_bind, partial_inode; [exact Hb|]. intros p b1 Hp Hb1.
  assert (is_u64 (Z.land p (Z.lnot inode_prefix_ssb))) as Hp' by (apply land_u64, byte_u64, Hp).
  destruct (_ =? 0).
  - apply partial_bind, partial_fname; [exact Hb1|]. intros s b2 Hs Hb2.
    repeat (tstep; cbn beta iota); apply IH; assumption.
  - apply partial_bind, partial_inode; [exact Hb1|]. intros i b2 Hi Hb2. apply byte_u64 in Hi.
    assert (typed_stat (read_stat (take 48 b2))) as Hst by (apply read_stat_typed, Forall_take, Hb2).
    apply partial_bind, partial_fname; [apply Forall_drop, Hb2|]. intros s b3 Hs Hb3.
    repeat (tstep; cbn beta iota); apply IH; assumption.
Qed.

Lemma send_log_typed r w : typed_req (SendRegionLog r) -> typed_world w ->
  partial (s2s_send_region_log_handler j r) (fun _ w' => typed_world w') w.
Proof.
  intros (R1 & R2 & R3) Hw. apply partial_bind, partial_upd_ctx; [exact Hw| |].
  { intros c Hc. apply map_insert_typed; [exact Hc|discriminate]. }
  intros w1 Hw1. apply partial_bind, replay_typed; [exact R3|exact Hw1|]. intros w2 Hw2.
  assert (forall w, typed_world w -> partial (enqueue_response (RSendRegionLog {| sls_resp_type := kSuccess;
    sls_log_status := sl_log_status r; sls_region_id := sl_region_id r; sls_next_log_id := sl_next_log_id r |}))
    (fun _ w' => typed_world w') w) as Hend by (intros w3 Hw3; apply partial_response; cbn; auto).
  apply partial_bind, partial_when; [|apply Hend, Hw2].
  apply partial_bind, partial_region_at; [exact Hw2|]. intros x _ _.
  apply partial_upd_region; [exact Hw2|intros y Hy; exact Hy|exact Hend].
Qed.

Lemma serve_partial fuel now q w : is_i64 now -> typed_req q -> typed_world w ->
  partial (serve fuel j now old q) (fun _ w' => typed_world w') w.
Proof.
  intros Hnow Hq Hw. destruct q; cbn [serve typed_req] in *.
  - apply open_typed; assumption.
  - apply unlink_typed; assumption.
  - apply stat_typed; assumption.
  - apply mknod_typed; assumption.
  - apply mkdir_typed; assumption.
  - apply rmdir_typed; assumption.
  - apply readdir_typed; assumption.
  - apply getinode_typed; assumption.
  - apply regionmap_typed; assumption.
  - apply create_region_typed; assumption.
  - apply send_region_typed; assumption.
  - apply send_log_typed; assumption.
Qed.

End Typing.

Section Runs.
Context {KV : MetaKV} {RK : RocksDB} {TS : TypedStore KV}.

Lemma init_typed id fg tid db ldb w : is_u64 tid -> typed_db db -> typed_world w ->
  partial (init_server_context id fg tid db ldb) (fun _ w' => typed_world w') w.
Proof.
  intros Htid Hdb Hw. apply partial_bind, partial_upd_ctx; [exact Hw| |].
  { intros c [(C1 & C2 & C3) C4 C5 C6].
    split; cbn [thread_id global_id alloc_inode metadb region_map pinode_table]; auto.
    split; [exact Htid|]. split; apply u64_range. }
  intros w1 Hw1. apply partial_bind, partial_upd_glob; [exact Hw1|intros g Hg; apply typed_glob_next; [exact Hg|
    apply i32_range]|].
  intros w2 Hw2. apply partial_bind, partial_gets. set (rid := i32 (global_id (ctx w2))).
  assert (is_i32 rid) as Hrid by apply i32_range. apply partial_bind, partial_upd_ctx; [exact Hw2| |].
  { intros c Hc. apply map_insert_typed; [exact Hc|]. intros r [= <-]. split; [exact Hrid|].
    exact (typed_new_region _ _ _ Hrid (typed_mk_key _ _) (typed_mk_key _ _)). }
  intros w3 Hw3. apply partial_upd_glob; [exact Hw3| |auto]. intros g [G1 G2 G3]. split; cbn; auto. intros k r.
  unfold map_insert. destruct (global_region_map g !! rid); [apply G2|]. rewrite lookup_insert_Some.
  intros [[<- <-]|[_ H]]; [|exact (G2 _ _ H)]. split; [exact Hrid|]. split; apply typed_mk_key.
Qed.

Definition typed_call (c : call) : Prop :=
  let '(j, now, old, q) := c in typed_junk j /\ is_i64 now /\ typed_stale old /\ typed_req q.

Lemma serve_all_typed fuel cs : forall w, Forall typed_call cs -> typed_world w ->
  partial (serve_all fuel cs) (fun _ w' => typed_world w') w.
Proof.
  induction cs as [|[[[j now] old] q] cs IH]; intros w Hcs Hw; cbn [serve_all]; [exact Hw|].
  apply Forall_cons in Hcs as [(H1 & H2 & H3 & H4) Hcs]. apply partial_bind.
  eapply wpx_mono; [apply (serve_partial j old H1 H3 fuel now q w H2 H4 Hw)|auto|]. intros [] w1 Hw1.
  apply IH; assumption.
Qed.

End Runs.

(** ** A typed store *)

(** The finite maps of Stores.v, while their pool is smaller than [2^62]. *)
Record typed_map (x : MapDb.db) : Prop := {
  tm_dents k i : MapDb.d x !! k = Some i -> is_u64 (fst k) /\ typed_bytes (snd k) /\ is_u64 i;
  tm_stats i st : MapDb.s x !! i = Some st -> typed_stat st;
  tm_pool : Z.of_nat (size (MapDb.d x)) + Z.of_N (MapDb.free x) < 2 ^ 62
}.

Lemma entries_length x p : (length (MapDb.entries x p) <= size (MapDb.d x))%nat.
Proof.
  unfold MapDb.entries. rewrite <- length_map_to_list.
  induction (map_to_list (MapDb.d x)) as [|[k i] l IH]; [reflexivity|]. cbn. destruct (Z.eqb _ _); cbn; lia.
Qed.

Lemma read_dir_typed x p off max st b :
  typed_map x -> is_u64 p -> is_u64 off -> is_u32 max -> MapDb.read_dir x p off max = (st, Some b) -> typed_buf b.
Proof.
  intros [H1 H2 H3] Hp Ho Hm. unfold MapDb.read_dir. pose proof (entries_length x p) as Hlen.
  destruct (drop (Z.to_nat off) (MapDb.entries x p)) as [|[f i] rest] eqn:Ed; [discriminate|].
  remember (dirents_bytes p [(f, i)]) as pl eqn:Epl.
  destruct (Z.leb_spec (Z.of_nat (length pl)) max) as [Hle|]; [|discriminate]. intros [= <- <-].
  assert (Z.to_nat off < length (MapDb.entries x p))%nat as Hoff.
  { apply (f_equal length) in Ed. rewrite length_drop in Ed. cbn in Ed. lia. }
  assert ((f, i) ∈ MapDb.entries x p) as Hin.
  { rewrite <- (take_drop (Z.to_nat off) (MapDb.entries x p)), Ed. apply elem_of_app. right. left. }
  apply MapDb.entries_spec, H1 in Hin as (_ & Hf & _). cbn in Hf. unfold is_u64, is_u32 in *.
  unfold typed_buf, is_i64. cbn [new_offset rd_uncomplete rel_count rel_len payload].
  split; [lia|]. split; [destruct rest; lia|]. split; [lia|]. split; [lia|].
  subst pl. unfold dirents_bytes, dirent_bytes. cbn [map concat fst snd]. rewrite app_nil_r. unfold typed_bytes.
  rewrite !Forall_app.
  split; [apply le_bytes_is_byte|]. split; [exact Hf|apply le_bytes_is_byte].
Qed.

Lemma size_delete_le (m : gmap (Z * bytes) Z) k : (size (delete k m) <= size m)%nat.
Proof. apply map_subseteq_size, delete_subseteq. Qed.

#[export] Instance map_typed : TypedStore MapDb.kv.
Proof.
  refine {| typed_db := typed_map : @MetaDb MapDb.kv -> Prop |}; cbn.
  - intros x p f i Hx _ Hi. unfold MapDb.get_file_inode. destruct (MapDb.d x !! (p, f)) eqn:E; [|exact Hi].
    apply (tm_dents _ Hx _ _ E).
  - intros x p f i Hx Hp Hf Hi. unfold MapDb.insert_file_inode. destruct (MapDb.d x !! (p, f)) eqn:E; [exact Hx|].
    destruct (N.eqb_spec (MapDb.free x) 0); [exact Hx|]. destruct Hx as [X1 X2 X3]. split; cbn; [|exact X2|].
    + intros k i'. rewrite lookup_insert_Some. intros [[<- <-]|[_ H]]; [auto|exact (X1 _ _ H)].
    + rewrite map_size_insert_None by exact E. lia.
  - intros x p f i Hx _ Hi. unfold MapDb.delete_file_inode. destruct (MapDb.d x !! (p, f)) eqn:E; [|auto].
    destruct Hx as [X1 X2 X3]. split; [apply (X1 _ _ E)|]. split; cbn; [|exact X2|].
    + intros k i'. rewrite lookup_delete_Some. intros [_ H]. exact (X1 _ _ H).
    + pose proof (size_delete_le (MapDb.d x) (p, f)). lia.
  - intros x i st Hx _ Hst. unfold MapDb.get_stat. destruct (MapDb.s x !! i) eqn:E; [|exact Hst].
    apply (tm_stats _ Hx _ _ E).
  - intros x i st Hx _ Hst. unfold MapDb.insert_stat. destruct (MapDb.s x !! i); [exact Hx|].
    destruct (N.eqb_spec (MapDb.free x) 0); [exact Hx|]. destruct Hx as [X1 X2 X3]. split; cbn; [exact X1| |lia].
    intros k st'. rewrite lookup_insert_Some. intros [[_ <-]|[_ H]]; [auto|exact (X2 _ _ H)].
  - intros x i st Hx _ Hst. unfold MapDb.update_stat. destruct (MapDb.s x !! i); [|exact Hx].
    destruct Hx as [X1 X2 X3]. split; cbn; [exact X1| |exact X3].
    intros k st'. rewrite lookup_insert_Some. intros [[_ <-]|[_ H]]; [auto|exact (X2 _ _ H)].
  - intros x i Hx _. unfold MapDb.delete_stat. destruct (MapDb.s x !! i); [|exact Hx].
    destruct Hx as [X1 X2 X3]. split; cbn; [exact X1| |exact X3].
    intros k st'. rewrite lookup_delete_Some. intros [_ H]. exact (X2 _ _ H).
  - exact read_dir_typed.
Defined.

End Typing.
