(* ===== verification/ServerTheorems.v ===== *)
(** * Theorems about the request handlers

    Refinement of the abstract file system, for one request and for a session from
    the start of a server thread; requests that are refused, misrouted or sent to
    an unknown region; round trips; what [rmdir] does to a directory with entries. *)

From Stdlib Require Import ZArith Lia.
From stdpp Require Import base numbers list gmap strings.
From S2P Require Import Prelude JumpHash Types XXHash Stores Wire Server Handlers HandlerSpec.
From S2P Require Import Sample.
Open Scope Z_scope.

Section ServerTheorems.
Context {KV : MetaKV} {RK : RocksDB} {KVL : MetaKVLaws KV} {RKL : RocksDBLaws RK}.

(** ** Refinement *)

(** C1: Every namespace request (open, mknod, stat, unlink, mkdir, rmdir, getinode) to
    a region of the thread runs to completion and refines the abstract file system, when
    the region serves clients and the request starts no split (it is [Normal] and below
    the split threshold, or already [IsSplit]), the hash of the request lies in the
    region's range, its name is terminated and shorter than 128 bytes, the thread's inode
    block is not used up and the store has room for two writes.  Exactly one response is
    sent and it carries the abstract reply, the directory entries, stat records and inode
    counter become those of the abstract step, the region's entry counter moves by the
    number of entries added or removed, no other region changes, the well-formedness of
    the thread's tables is preserved and the store loses room for two writes at most.  The
    abstract [rmdir] is that of the code, which removes directories that still have
    entries, against its comments ([rmdir_removes_nonempty]). *)
Theorem serve_refines fuel limit j now old q w r rid h fname :
  target q = Some (rid, h, fname) ->
  admissible w rid h fname r ->
  afs_wf limit (abs w) -> a_next (abs w) + 1 < limit ->
  room (metadb (ctx w)) 2 ->
  exists a s' w',
    a_step j now q (abs w) = Some (a, s') /\
    serve fuel j now old q w = Done (tt, w') /\
    effect w w' rid r (kv_delta (abs w) s') a s' /\
    afs_wf limit s' /\
    (forall n, room (metadb (ctx w)) (2 + n) -> room (metadb (ctx w')) n).
Proof.
  intros Ht Hadm Hwf Hlim Hroom.
  destruct (a_step_target j now q (abs w) _ _ _ Ht) as (a & s' & Hstep).
  pose proof (serve_wp fuel limit j now old q w r rid h fname a s' Ht Hadm Hwf Hroom Hstep)
    as Hwp.
  apply wp_Done in Hwp as ([] & w' & Hrun & Heff).
  exists a, s', w'. do 3 (split; [assumption|]). split.
  - eapply a_step_wf; [exact Ht|apply Hadm|exact Hwf|exact Hlim|exact Hstep].
  - exact (serve_spends fuel j now old q rid h fname Ht w tt w' Hrun).
Qed.

(** From the start of a server thread on empty stores, any session of namespace
    requests inside the thread's region (up to the split threshold) is served without
    a fault: one response per request, in order, each carrying the reply of the
    abstract file system run from the empty state, and at the end the tables are those
    of the abstract run and the region's counter is the number of entries. *)
Lemma boot_session fuel w0 id fg tid db ldb cs :
  0 <= id < 256 -> 0 <= tid < 256 -> 0 <= id * fg + tid < 2 ^ 20 ->
  0 <= id * fg ->
  region_map (ctx w0) = ∅ -> dents db = ∅ -> stats db = ∅ ->
  room db (2 * length cs) ->
  let rid := id * fg + tid in
  Forall (for_region rid (rid * PINODE_HASH_RANGE) ((rid + 1) * PINODE_HASH_RANGE - 1)) cs ->
  Z.of_nat (length cs) <= region_split_threshold ->
  exists l s' w' resps r',
    bind (init_server_context id fg tid db ldb) (fun _ => serve_all fuel cs) w0
      = Done (tt, w') /\
    a_run cs {| a_dents := ∅; a_stats := ∅; a_next := init_alloc_inode id tid |}
      = Some (l, s') /\
    abs w' = s' /\ outbox w' = outbox w0 ++ resps /\ Forall2 answers l resps /\
    region_is w' rid r' /\ kv_num r' = Z.of_nat (size (a_dents s')).
Proof.
  intros Hid Htid Hrid Hprod Hm Hd Hs Hroom rid Hcs Hlen.
  destruct (init_server_context_spec w0 id fg tid db ldb) as (w1 & r & Hinit & Hr & Hst & Hk & Hlo & Hhi & Hdb & Hn & Ho);
    [assumption..|]. fold rid in Hr, Hlo, Hhi.
  assert (abs w1 = {| a_dents := ∅; a_stats := ∅; a_next := init_alloc_inode id tid |})
    as Habs by (unfold abs; rewrite Hdb, Hn, Hd, Hs; reflexivity).
  destruct (session_runs fuel ((id * 256 + tid + 1) * 2 ^ 40) rid cs w1 r)
    as (l & s' & w' & resps & r' & HA & HR & HE & HO & HF & _ & Hr' & [_ Hc] & _); auto.
  - rewrite Hdb. exact Hroom.
  - split; [exact Hst|]. rewrite Habs, Hk. reflexivity.
  - rewrite Hlo, Hhi. exact Hcs.
  - rewrite Habs. apply afs_wf_boot; assumption.
  - lia.
  - rewrite Habs. cbn. rewrite init_alloc_inode_value by assumption.
    unfold region_split_threshold in Hlen. lia.
  - exists l, s', w', resps, r'. rewrite Habs in HA. unfold bind. rewrite Hinit.
    rewrite <- Ho, <- HE. rewrite HE at 1. auto 10.
Qed.

(** ** Requests that are not served normally *)


(** A client request whose hash lies outside its region is answered twice: after
    the response that asks for a new region map the handler goes on and serves the
    request exactly as if the hash were in range. *)
Lemma misrouted_served_anyway fuel j now old q w rid h h0 r :
  client_target q = Some (rid, h) ->
  region_is w rid r ->
  check_is_blong_to_region r h = false -> check_is_blong_to_region r h0 = true ->
  serve fuel j now old q w
  = serve fuel j now old (with_hash h0 q) (push (code_only kUpdateRegionMap old q) w).
Proof.
  intros Ht Hr Hb Hb0.
  destruct q; try discriminate; injection Ht as <- <-; cbn [serve with_hash].
  all: etransitivity; [eapply (guarded_out_of_range w _ _ r); eassumption|].
  all: symmetry; etransitivity;
    [eapply (guarded_in_range (push _ w) _ _ r); eassumption|reflexivity].
Qed.

(** A client request that names a region the thread does not have dereferences the
    null pointer that the map lookup inserts. *)
Theorem unknown_region_faults fuel j now old q w rid h :
  client_target q = Some (rid, h) ->
  region_map (ctx w) !! rid = None ->
  serve fuel j now old q w = Fault NullDeref.
Proof.
  intros Ht Hm. assert (region_at rid w = Fault NullDeref) as E
    by (unfold region_at, bind, gets; rewrite Hm; reflexivity).
  destruct q; try discriminate; injection Ht as <- <-; cbn [serve].
  all: unfold fs_open_handler, fs_unlink_handler, fs_stat_handler, fs_mknod_handler,
    fs_mkdir_handler, fs_rmdir_handler, fs_readdir_handler, fs_getinode_handler.
  all: unfold bind at 1; rewrite E; reflexivity.
Qed.

(** ** Functional behaviour *)

(** A file created by [mknod] is found by [stat]: the second response carries the
    inode the first one allocated and the object id and mode of the request. *)
Lemma mknod_then_stat fuel limit j j' now now' old old' req w r :
  admissible w (kr_region_id req) (kr_pinode_hash req) (kr_fname req) r ->
  quiet (set_kv_num (i32 (kv_num r + 1)) r) ->
  afs_wf limit (abs w) -> a_next (abs w) + 1 < limit ->
  room (metadb (ctx w)) 2 ->
  dents (metadb (ctx w)) !! (kr_pinode req, fkey (kr_fname req)) = None ->
  let sreq := {| fr_region_id := kr_region_id req; fr_pinode := kr_pinode req;
                 fr_pinode_hash := kr_pinode_hash req; fr_fname := kr_fname req |} in
  exists w1 w2 m,
    serve fuel j now old (MknodReq req) w = Done (tt, w1) /\
    serve fuel j' now' old' (FSStatReq sreq) w1 = Done (tt, w2) /\
    outbox w2 = outbox w ++ [m; RStat {| st_resp_type := kSuccess;
      st_inode := alloc_inode (ctx w);
      st_stat := stat_of_oid_mode (j_tv_sec j) (kr_oid req) (kr_mode req) |}].
Proof.
  intros Hadm Hq' Hwf Hlim Hroom Hnew sreq.
  destruct (a_step_target j now (MknodReq req) (abs w) _ _ _ eq_refl) as (a & s1 & Hstep).
  pose proof (serve_wp fuel limit j now old (MknodReq req) w r _ _ _ a s1 eq_refl Hadm Hwf Hroom Hstep)
    as Hwp.
  apply wp_Done in Hwp as ([] & w1 & Hrun & [Habs (m & Ho & _) _ (lid & Hr1) _]).
  assert (afs_wf limit (abs w1)) as Hwf1.
  { rewrite Habs. eapply a_step_wf; [|apply Hadm|exact Hwf|exact Hlim|exact Hstep].
    reflexivity. }
  cbn [a_step] in Hstep. unfold a_create in Hstep. cbn [abs a_dents] in Hstep.
  rewrite Hnew in Hstep. injection Hstep as _ <-.
  rewrite kv_delta_insert in Hr1 by exact Hnew.
  assert (admissible w1 (kr_region_id req) (kr_pinode_hash req) (kr_fname req)
            (set_log_id lid (set_kv_num (i32 (kv_num r + 1)) r))) as Hadm1.
  { destruct Hadm. split; try assumption. apply i32_range. }
  assert (a_step j' now' (FSStatReq sreq) (abs w1) = Some (AStat (alloc_inode (ctx w))
    (stat_of_oid_mode (j_tv_sec j) (kr_oid req) (kr_mode req)), abs w1)) as Hstep1.
  { rewrite Habs. cbn. rewrite lookup_insert_eq. rewrite lookup_insert_eq. reflexivity. }
  pose proof (fs_stat_refines j' now' w1 sreq (old_stat old') _ _ _ Hadm1 Hstep1) as Hwp.
  apply wp_Done in Hwp as ([] & w2 & Hrun2 & [_ (x & Ho2 & Hx) _ _ _]).
  exists w1, w2, m. do 2 (split; [assumption|]). rewrite Ho2, Ho, <- app_assoc. cbn.
  destruct x; try contradiction. cbn in Hx. rewrite Hx. reflexivity.
Qed.

(** [rmdir] does not look at the entries of the directory: a directory that still
    has an entry is removed with a success response, and the entry stays behind under
    an inode that no name leads to. *)
Lemma rmdir_removes_nonempty fuel limit j now old req w r d g i :
  admissible w (fr_region_id req) (fr_pinode_hash req) (fr_fname req) r ->
  afs_wf limit (abs w) -> room (metadb (ctx w)) 2 ->
  dents (metadb (ctx w)) !! (fr_pinode req, fkey (fr_fname req)) = Some d ->
  is_directory d = true -> d <> fr_pinode req ->
  dents (metadb (ctx w)) !! (d, g) = Some i ->
  exists w',
    serve fuel j now old (FSRmdirReq req) w = Done (tt, w') /\
    outbox w' = outbox w ++ [RStatus kSuccess] /\
    dents (metadb (ctx w')) !! (d, g) = Some i /\
    (forall k, dents (metadb (ctx w')) !! k <> Some d).
Proof.
  intros Hadm Hwf Hroom Hd Hdir Hne Hg.
  pose proof (serve_wp fuel limit j now old (FSRmdirReq req) w r _ _ _ ADone
    (a_remove (fr_pinode req) (fkey (fr_fname req)) d (abs w)) eq_refl Hadm Hwf Hroom) as Hwp.
  cbn [a_step] in Hwp. cbn [abs a_dents] in Hwp. rewrite Hd, Hdir in Hwp.
  specialize (Hwp eq_refl).
  apply wp_Done in Hwp as ([] & w' & Hrun & [Habs (x & Ho & Hx) _ _ _]).
  exists w'. split; [exact Hrun|]. split.
  { destruct x; try contradiction. cbn in Hx. subst. exact Ho. }
  apply (f_equal a_dents) in Habs. cbn in Habs. rewrite Habs. split.
  - rewrite lookup_delete_ne by congruence. exact Hg.
  - intros k. rewrite lookup_delete_Some. intros [Hk Hkd]. apply Hk.
    eapply (wf_inj _ _ Hwf); eassumption.
Qed.

(** C37: One [readdir] request to a region that is served ([Normal] below the threshold, or
    [IsSplit]), with its hash in the region's range and well-formed tables, gets one response:
    a non-empty batch of consecutive entries of the directory, laid out as pinode, name, inode,
    that fits the message, with the offset of the entry after the batch and a flag that is zero
    exactly when the directory is exhausted; past the end it reports zero entries.  The state
    does not change. *)
Theorem readdir_batch fuel limit j now old req w r :
  region_is w (rr_region_id req) r -> quiet r ->
  check_is_blong_to_region r (rr_inode_hash req) = true ->
  afs_wf limit (abs w) ->
  let pos := cursor (metadb (ctx w)) (rr_inode req) (rr_offset req) in
  let n := length (dir_list (metadb (ctx w)) (rr_inode req)) in
  exists x,
    serve fuel j now old (ReaddirReq req) w = Done (tt, push (RReaddir x) w) /\
    ((n <= pos)%nat -> rd_resp_type x = kSuccess /\ rd_num_result x = 0) /\
    ((pos < n)%nat -> exists k, batch w (rr_inode req) (rr_offset req) x k).
Proof.
  intros Hr Hq Hb Hwf pos n.
  pose proof (readdir_wp limit w req (old_readdir old) r Hr Hq Hb Hwf) as Hwp.
  apply wp_Done in Hwp as ([] & w' & Hrun & x & -> & Hend & Hmore).
  exists x. split; [exact Hrun|]. split; [|exact Hmore].
  intros H. rewrite (Hend H). split; reflexivity.
Qed.

(** The region-map reply holds every region exactly when there are at most 92
    of them; one more writes past the array. *)
Theorem read_region_map_capacity fuel j now old cid w :
  let entries := map snd (map_to_list (global_region_map (glob w))) in
  serve fuel j now old (ReadRegionmapReq cid) w
  = if decide (size (global_region_map (glob w)) <= 92)%nat
    then Done (tt, push (RRegionmap {| rm_resp_type := kSuccess;
                      rm_num_entries := Z.of_nat (size (global_region_map (glob w)));
                      rm_entries := entries |}) w)
    else Fault OutOfBounds.
Proof.
  intros entries. cbn [serve]. unfold read_region_map_handler, bind, gets. fold entries.
  assert (length entries = size (global_region_map (glob w))) as Hl.
  { unfold entries. rewrite length_map, length_map_to_list. reflexivity. }
  rewrite Hl. change regionmap_capacity with 92.
  destruct (decide _) as [H|H]; destruct (Z.leb_spec (Z.of_nat (size (global_region_map (glob w)))) 92);
    try lia; reflexivity.
Qed.

End ServerTheorems.

(** ** Witnesses *)

Import Sample.

Lemma serve_refines_witness :
  exists a s' w',
    a_step j0 9 (MknodReq mknod_a) (abs w1) = Some (a, s') /\
    serve 5 j0 9 old0 (MknodReq mknod_a) w1 = Done (tt, w') /\
    effect w1 w' 0 region0 (kv_delta (abs w1) s') a s' /\ afs_wf (2 ^ 40) s' /\
    (forall n, room (metadb (ctx w1)) (2 + n) -> room (metadb (ctx w')) n).
Proof.
  apply (serve_refines 5 (2 ^ 40) j0 9 old0 (MknodReq mknod_a) w1 region0 0 3
           (name "a"%string)).
  - reflexivity.
  - apply admissible_w1; vm_compute; reflexivity.
  - exact wf_w1.
  - vm_compute. reflexivity.
  - change (2 <= N.to_nat 100000)%nat. lia.
Defined.

Lemma boot_session_witness :
  exists l s' w' resps r',
    bind (init_server_context 0 1 0 MapDb.empty SortedLog.empty)
      (fun _ => serve_all 5 [(j0, 9, old0, MknodReq mknod_a);
                             (j0, 9, old0, FSStatReq (fname_of "a"%string))]) w0
      = Done (tt, w') /\
    a_run [(j0, 9, old0, MknodReq mknod_a); (j0, 9, old0, FSStatReq (fname_of "a"%string))]
      {| a_dents := ∅; a_stats := ∅; a_next := init_alloc_inode 0 0 |} = Some (l, s') /\
    abs w' = s' /\ outbox w' = outbox w0 ++ resps /\ Forall2 answers l resps /\
    region_is w' 0 r' /\ kv_num r' = Z.of_nat (size (a_dents s')).
Proof.
  apply (boot_session 5 w0 0 1 0 MapDb.empty SortedLog.empty); try lia; try reflexivity.
  - change (2 * 2 <= N.to_nat 100000)%nat. lia.
  - repeat constructor; eexists _, _; (split; [reflexivity|]); (split; [vm_compute; split; discriminate|]);
      split; vm_compute; reflexivity.
  - vm_compute. discriminate.
Defined.


Definition misrouted : wire_req := with_hash 5000 (FSUnlinkReq (fname_of "a"%string)).

Lemma misrouted_served_anyway_witness :
  serve 5 j0 9 old0 misrouted w1
  = serve 5 j0 9 old0 (FSUnlinkReq (fname_of "a"%string)) (push (RStatus kUpdateRegionMap) w1).
Proof.
  apply (misrouted_served_anyway 5 j0 9 old0 misrouted w1 0 5000 3 region0); reflexivity.
Defined.

Lemma unknown_region_faults_witness :
  serve 5 j0 9 old0 (MknodReq mknod_a) w0 = Fault NullDeref.
Proof. apply (unknown_region_faults 5 j0 9 old0 (MknodReq mknod_a) w0 0 3); reflexivity. Defined.

Lemma mknod_then_stat_witness :
  exists v1 v2 m,
    serve 5 j0 9 old0 (MknodReq mknod_a) w1 = Done (tt, v1) /\
    serve 5 j0 9 old0 (FSStatReq (fname_of "a"%string)) v1 = Done (tt, v2) /\
    outbox v2 = outbox w1 ++ [m; RStat {| st_resp_type := kSuccess; st_inode := 1;
      st_stat := stat_of_oid_mode 7 {| lo := 5; hi := 6 |} 420 |}].
Proof.
  apply (mknod_then_stat 5 (2 ^ 40) j0 j0 9 9 old0 old0 mknod_a w1 region0).
  - apply admissible_w1; vm_compute; reflexivity.
  - left. split; [reflexivity|]. vm_compute. split; [discriminate|reflexivity].
  - exact wf_w1.
  - vm_compute. reflexivity.
  - change (2 <= N.to_nat 100000)%nat. lia.
  - vm_compute. reflexivity.
Defined.

Lemma rmdir_removes_nonempty_witness :
  exists w',
    serve 5 j0 9 old0 (FSRmdirReq (fname_of "d"%string)) w_dir = Done (tt, w') /\
    outbox w' = outbox w_dir ++ [RStatus kSuccess] /\
    dents (metadb (ctx w')) !! (dir_d, name "g"%string) = Some 2 /\
    (forall k, dents (metadb (ctx w')) !! k <> Some dir_d).
Proof.
  apply (rmdir_removes_nonempty 5 (2 ^ 40) j0 9 old0 (fname_of "d"%string) w_dir region0
           dir_d (name "g"%string) 2).
  - apply admissible_w_dir; vm_compute; reflexivity.
  - exact wf_w_dir.
  - change (2 <= N.to_nat 1000)%nat. lia.
  - vm_compute. reflexivity.
  - vm_compute. reflexivity.
  - vm_compute. discriminate.
  - vm_compute. reflexivity.
Defined.

Definition scan_d : FSReaddirReq :=
  {| rr_region_id := 0; rr_inode := dir_d; rr_inode_hash := 3; rr_offset := 0 |}.

Lemma readdir_batch_witness :
  exists x,
    serve 5 j0 9 old0 (ReaddirReq scan_d) w_dir = Done (tt, push (RReaddir x) w_dir) /\
    exists k, batch w_dir dir_d 0 x k.
Proof.
  destruct (readdir_batch 5 (2 ^ 40) j0 9 old0 scan_d w_dir region0) as (x & Hrun & _ & Hb).
  - reflexivity.
  - left. split; [reflexivity|]. vm_compute. split; [discriminate|reflexivity].
  - vm_compute. reflexivity.
  - exact wf_w_dir.
  - exists x. split; [exact Hrun|]. apply Hb. vm_compute. lia.
Defined.
