(* ===== verification/RegionTheorems.v ===== *)
(** * Theorems about regions

    Inode blocks of server threads, the ranges that regions are registered with and split
    into, and the choice of a split target. *)

From Stdlib Require Import ZArith Lia.
From stdpp Require Import base numbers list gmap sorting strings.
From S2P Require Import Prelude JumpHash Types XXHash Stores Wire Server Handlers HandlerSpec.
From S2P Require Import Split SplitFacts Sample.
Open Scope Z_scope.

(** ** Inodes *)

(** Two server threads never hand out the same inode: for different (server, thread)
    pairs, the files and directories made from any of the [2^40 - 1] counter values of
    one differ from those of the other, and a file inode never equals a directory
    inode. *)
Lemma inode_blocks_disjoint id tid id' tid' n n' :
  0 <= id < 256 -> 0 <= tid < 256 -> 0 <= id' < 256 -> 0 <= tid' < 256 ->
  0 <= n < 2 ^ 40 - 1 -> 0 <= n' < 2 ^ 40 - 1 ->
  let file := init_alloc_inode id tid + n in
  let file' := init_alloc_inode id' tid' + n' in
  is_directory file = false /\ is_directory (Z.lor file inode_prefix_msb) = true /\
  file <> Z.lor file' inode_prefix_msb /\
  ((id, tid) <> (id', tid') \/ n <> n' ->
   file <> file' /\ Z.lor file inode_prefix_msb <> Z.lor file' inode_prefix_msb).
Proof.
  intros Hi Ht Hi' Ht' Hn Hn' file file'.
  assert (file = (id * 256 + tid) * 2 ^ 40 + 1 + n) as Hf
    by (unfold file; rewrite init_alloc_inode_value by assumption; reflexivity).
  assert (file' = (id' * 256 + tid') * 2 ^ 40 + 1 + n') as Hf'
    by (unfold file'; rewrite init_alloc_inode_value by assumption; reflexivity).
  rewrite is_directory_small by lia. rewrite is_directory_msb.
  rewrite !lor_msb_add by lia. split; [reflexivity|]. split; [reflexivity|].
  split; [lia|]. intros Hne. cut (file <> file'); [lia|].
  intros E. destruct Hne as [Hne|Hne]; [|nia]. apply Hne.
  assert (id * 256 + tid = id' * 256 + tid') by lia. f_equal; lia.
Qed.

Lemma inode_blocks_disjoint_witness :
  let file := init_alloc_inode 1 2 + 7 in
  let file' := init_alloc_inode 2 1 + 7 in
  is_directory file = false /\ is_directory (Z.lor file inode_prefix_msb) = true /\
  file <> Z.lor file' inode_prefix_msb /\
  ((1, 2) <> (2, 1) \/ 7 <> 7 ->
   file <> file' /\ Z.lor file inode_prefix_msb <> Z.lor file' inode_prefix_msb).
Proof. apply (inode_blocks_disjoint 1 2 2 1 7 7); lia. Defined.

Section RegionTheorems.
Context {KV : MetaKV} {RK : RocksDB}.

(** ** Initial ranges *)

(** The initial regions partition the hash values: a thread with global id [gid]
    registers a serving region that holds exactly the hashes whose quotient by 1024 is
    [gid], and publishes the same bounds in the global region map. *)
Theorem register_region_range w gid :
  global_id (ctx w) = gid -> 0 <= gid < 2 ^ 20 ->
  region_map (ctx w) !! gid = None -> global_region_map (glob w) !! gid = None ->
  exists w' r,
    register_region w = Done (tt, w') /\
    region_is w' gid r /\ region_status r = Normal /\ kv_num r = 0 /\
    (forall h, check_is_blong_to_region r h = true <-> h / PINODE_HASH_RANGE = gid) /\
    global_region_map (glob w') !! gid
      = Some {| c_region_id := gid; c_start_key := start_key r; c_end_key := end_key r |}.
Proof.
  intros Hg Hr Hm Hgm. unfold register_region, bind, upd_ctx, upd_glob, modify, gets.
  cbn -[i32 u64 PINODE_HASH_RANGE]. rewrite Hg.
  rewrite (i32_small gid), (i32_small (gid * PINODE_HASH_RANGE)),
    (i32_small ((gid + 1) * PINODE_HASH_RANGE)),
    (i32_small ((gid + 1) * PINODE_HASH_RANGE - 1))
    by (unfold is_i32, PINODE_HASH_RANGE; lia).
  eexists _, _. split; [reflexivity|]. unfold region_is, map_insert.
  cbn -[u64 PINODE_HASH_RANGE]. rewrite Hm, Hgm, !lookup_insert_eq.
  split; [reflexivity|]. split; [reflexivity|]. split; [reflexivity|]. split; [|reflexivity].
  intros h. unfold check_is_blong_to_region. cbn -[u64 PINODE_HASH_RANGE].
  rewrite !u64_small by (unfold is_u64, PINODE_HASH_RANGE; lia).
  rewrite andb_true_iff, !Z.leb_le. unfold PINODE_HASH_RANGE.
  split; intros H; [symmetry; apply Z.div_unique with (h - 1024 * gid); lia|].
  pose proof (Z.div_mod h 1024 ltac:(lia)). pose proof (Z.mod_pos_bound h 1024 ltac:(lia)). lia.
Qed.

(** Every directory hash lies in the first initial region: the hash is reduced
    modulo 1024, so a region that holds exactly the hashes with quotient [gid] accepts
    no directory at all unless [gid] is 0. *)
Lemma hashes_hit_first_region r gid inode :
  (forall h, check_is_blong_to_region r h = true <-> h / PINODE_HASH_RANGE = gid) ->
  check_is_blong_to_region r (pinode_hash inode) = bool_decide (gid = 0).
Proof.
  intros Hr. pose proof (pinode_hash_range inode) as Hh.
  assert (pinode_hash inode / PINODE_HASH_RANGE = 0) as E
    by (apply Z.div_small; exact Hh).
  specialize (Hr (pinode_hash inode)). rewrite E in Hr.
  destruct (check_is_blong_to_region r (pinode_hash inode)); symmetry.
  - apply bool_decide_true. symmetry. apply Hr. reflexivity.
  - apply bool_decide_false. intros ->. destruct Hr as [_ Hr]. discriminate (Hr eq_refl).
Qed.

(** ** Split bounds *)

(** When the range starts in the lower half of [0..end], the split is a partition:
    each hash of the region belongs to exactly one of the shrunk left region and the
    new right region, and no other hash belongs to either. *)
Theorem split_bounds_partition r nr_id h :
  is_u64 (key_hi (end_key r)) -> 0 <= key_hi (start_key r) ->
  key_hi (start_key r) <= Z.shiftr (key_hi (end_key r)) 1 + 1 ->
  let lregion := set_end_key (halved (end_key r)) r in
  let nr := new_ServerRegion nr_id (split_start (end_key r)) (split_end (end_key r)) in
  check_is_blong_to_region r h
  = xorb (check_is_blong_to_region lregion h) (check_is_blong_to_region nr h).
Proof.
  intros He Hs Hlow lregion nr. unfold is_u64 in He. set (e := key_hi (end_key r)) in *.
  unfold check_is_blong_to_region, lregion, nr, split_start, split_end, halved.
  cbn -[Z.shiftr u64]. fold e.
  assert (0 <= Z.shiftr e 1 <= e /\ (Z.shiftr e 1 < e \/ e = 0)) as He1.
  { rewrite Z.shiftr_div_pow2 by lia. change (2 ^ 1) with 2.
    pose proof (Z.div_mod e 2 ltac:(lia)). pose proof (Z.mod_pos_bound e 2 ltac:(lia)). lia. }
  rewrite u64_idem, !u64_small by (unfold is_u64; lia).
  destruct (Z.leb_spec (key_hi (start_key r)) h), (Z.leb_spec h e),
    (Z.leb_spec h (Z.shiftr e 1)), (Z.leb_spec (Z.shiftr e 1 + 1) h); cbn; try reflexivity; lia.
Qed.

(** When the range starts above the middle of [0..end] (every initial region but the
    first), the split is not a partition: the left region keeps nothing and the right
    region claims the whole range and everything between the middle and its start. *)
Lemma split_bounds_overlap r nr_id h :
  is_u64 (key_hi (end_key r)) ->
  Z.shiftr (key_hi (end_key r)) 1 + 1 < key_hi (start_key r) <= key_hi (end_key r) ->
  let lregion := set_end_key (halved (end_key r)) r in
  let nr := new_ServerRegion nr_id (split_start (end_key r)) (split_end (end_key r)) in
  check_is_blong_to_region lregion h = false /\
  (check_is_blong_to_region r h = true -> check_is_blong_to_region nr h = true) /\
  check_is_blong_to_region nr (key_hi (start_key r) - 1) = true.
Proof.
  intros He Hs lregion nr. unfold is_u64 in He. set (e := key_hi (end_key r)) in *.
  assert (0 <= Z.shiftr e 1) by (rewrite Z.shiftr_div_pow2; [apply Z.div_pos|]; lia).
  unfold check_is_blong_to_region, lregion, nr, split_start, split_end, halved.
  cbn -[Z.shiftr u64]. fold e. rewrite u64_idem, !u64_small by (unfold is_u64; lia).
  rewrite !andb_true_iff, andb_false_iff, !Z.leb_le, !Z.leb_gt. lia.
Qed.

(** ** The target of a split *)

(** The loop that picks a region id ends with one whose jump-hash target is not the
    splitting thread, and it only moves the process-wide id counter. *)
Theorem fresh_region_id_not_self fuel w nr w' sessions :
  st_sessions (glob w) = Some sessions ->
  fresh_region_id fuel w = Done (nr, w') ->
  (exists b, JumpConsistentHash (u64 nr) sessions = Some b /\ u64 b <> global_id (ctx w)) /\
  w' = {| ctx := ctx w; glob := set_global_region_id (i32 (nr + 1)) (glob w);
          outbox := outbox w |}.
Proof.
  revert w. induction fuel as [|fuel IH]; intros w Hs; [cbn; discriminate|].
  cbn [fresh_region_id]. unfold bind at 1 2 3, gets, upd_glob, modify. cbn.
  rewrite Hs. unfold bind at 1, jump_target.
  destruct (JumpConsistentHash (u64 (global_region_id (glob w))) sessions) as [b|] eqn:E;
    cbn; [|discriminate].
  destruct (Z.eqb_spec (u64 b) (global_id (ctx w))) as [Heq|Hne]; intros H.
  - apply IH in H as [Hb ->]; [|exact Hs]. split; [exact Hb|]. reflexivity.
  - injection H as <- <-. split; [eauto|]. reflexivity.
Qed.

(** With a single server thread the loop that picks a region id never ends: no id
    has another target. *)
Theorem fresh_region_id_alone fuel w :
  st_sessions (glob w) = Some 1 -> global_id (ctx w) = 0 ->
  fresh_region_id fuel w = Fault OutOfFuel.
Proof.
  revert w. induction fuel as [|fuel IH]; intros w Hs Hg; [reflexivity|].
  cbn [fresh_region_id]. unfold bind at 1 2 3, gets, upd_glob, modify. cbn.
  rewrite Hs. unfold bind at 1, jump_target.
  destruct (JumpConsistentHash_total (u64 (global_region_id (glob w))) 1 ltac:(lia))
    as (b & _ & -> & Hb).
  replace b with 0 by lia. cbn. rewrite Hg. cbn. apply IH; assumption.
Qed.

(** The guard against splitting onto oneself looks at the jump hash, but an id below
    the number of sessions is used as the session itself.  When the next id is the
    thread's own global id (as on the second of two single-threaded servers) the split
    is queued towards the thread itself, and the temporary region is lost because the
    id is already taken in the thread's region map. *)
Theorem split_targets_itself fuel w rid r g sessions b :
  region_is w rid r -> over_threshold r = true ->
  st_sessions (glob w) = Some sessions -> 0 <= g < sessions -> sessions < 2 ^ 31 ->
  global_id (ctx w) = g -> global_region_id (glob w) = g ->
  JumpConsistentHash (u64 g) sessions = Some b -> u64 b <> g ->
  is_Some (region_map (ctx w) !! g) ->
  exists w',
    check_region_and_split (S fuel) rid w = Done (tt, w') /\
    region_map (ctx w') = region_map (ctx w) /\
    shared_split_queue (glob w') = shared_split_queue (glob w) ++ [(thread_id (ctx w), g)] /\
    forall c, st_sessions (pglob c) = Some sessions -> server_session_id g c = Done (g, c).
Proof.
  intros Hr Hover Hs Hg Hbig Hgid Hgr Hj Hne [o Ho].
  unfold check_region_and_split, bind at 1. rewrite (region_at_Done _ _ r Hr), Hover.
  unfold bind at 1. cbn [fresh_region_id]. unfold bind at 1 2 3, gets, upd_glob, modify. cbn.
  rewrite Hs, Hgr. unfold bind at 1, jump_target. rewrite Hj. cbn.
  rewrite Hgid. destruct (Z.eqb_spec (u64 b) g); [contradiction|].
  eexists. split; [reflexivity|]. cbn. split; [unfold map_insert; rewrite Ho; reflexivity|].
  split; [reflexivity|]. intros c Hc. unfold server_session_id, bind, gets. rewrite Hc.
  destruct (Z.ltb_spec g sessions); [reflexivity|lia].
Qed.

End RegionTheorems.

(** ** Witnesses *)

Import Sample.

Lemma register_region_range_witness :
  exists w' r,
    register_region w0 = Done (tt, w') /\
    region_is w' 0 r /\ region_status r = Normal /\ kv_num r = 0 /\
    (forall h, check_is_blong_to_region r h = true <-> h / PINODE_HASH_RANGE = 0) /\
    global_region_map (glob w') !! 0
      = Some {| c_region_id := 0; c_start_key := start_key r; c_end_key := end_key r |}.
Proof. apply (register_region_range w0 0); try reflexivity. lia. Defined.

(** The initial region of thread 3. *)
Definition region3 : ServerRegion :=
  new_ServerRegion 3 (mk_RegionKey 0 3072) (mk_RegionKey 0 4095).

Lemma region3_range h :
  check_is_blong_to_region region3 h = true <-> h / PINODE_HASH_RANGE = 3.
Proof.
  unfold check_is_blong_to_region, PINODE_HASH_RANGE. rewrite andb_true_iff, !Z.leb_le.
  change (key_hi (start_key region3)) with 3072. change (key_hi (end_key region3)) with 4095.
  split; intros H; [symmetry; apply Z.div_unique with (h - 3072); lia|].
  pose proof (Z.div_mod h 1024 ltac:(lia)). pose proof (Z.mod_pos_bound h 1024 ltac:(lia)). lia.
Qed.

Lemma hashes_hit_first_region_witness :
  check_is_blong_to_region region3 (pinode_hash fs_root_inode) = false.
Proof. exact (hashes_hit_first_region region3 3 fs_root_inode region3_range). Defined.

Lemma split_bounds_partition_witness :
  check_is_blong_to_region region0 700
  = xorb (check_is_blong_to_region (set_end_key (halved (end_key region0)) region0) 700)
         (check_is_blong_to_region
            (new_ServerRegion 9 (split_start (end_key region0)) (split_end (end_key region0))) 700).
Proof.
  apply (split_bounds_partition region0 9 700); vm_compute; [split|..]; discriminate || reflexivity.
Defined.

Lemma split_bounds_overlap_witness :
  check_is_blong_to_region (set_end_key (halved (end_key region3)) region3) 3500 = false /\
  (check_is_blong_to_region region3 3500 = true ->
   check_is_blong_to_region
     (new_ServerRegion 9 (split_start (end_key region3)) (split_end (end_key region3))) 3500
   = true) /\
  check_is_blong_to_region
    (new_ServerRegion 9 (split_start (end_key region3)) (split_end (end_key region3))) 3071
  = true.
Proof.
  apply (split_bounds_overlap region3 9 3500); vm_compute; split; discriminate || reflexivity.
Defined.

(** Server 0 with one thread in a cluster of one. *)
Definition w_alone : world :=
  {| ctx := ctx w1;
     glob := {| global_region_id := 1; global_region_map := global_region_map (glob w1);
                shared_split_queue := []; st_sessions := Some 1 |};
     outbox := [] |}.

Lemma fresh_region_id_alone_witness : fresh_region_id 1000 w_alone = Fault OutOfFuel.
Proof. apply (fresh_region_id_alone 1000 w_alone); reflexivity. Defined.

(** Server 1 of two single-threaded servers, its region over the threshold. *)
Definition w_second : world :=
  let w := state_of (init_server_context 1 1 0 MapDb.empty SortedLog.empty w0) w0 in
  {| ctx := set_region_map (alter (fmap (set_kv_num 200001)) 1 (region_map (ctx w))) (ctx w);
     glob := glob w; outbox := [] |}.

Lemma split_targets_itself_witness :
  exists w',
    check_region_and_split 1 1 w_second = Done (tt, w') /\
    region_map (ctx w') = region_map (ctx w_second) /\
    shared_split_queue (glob w') = shared_split_queue (glob w_second) ++ [(0, 1)] /\
    forall c : cluster, st_sessions (pglob c) = Some 2 -> server_session_id 1 c = Done (1, c).
Proof.
  apply (split_targets_itself 0 w_second 1
    (set_kv_num 200001 (set_region_status Normal
       (new_ServerRegion 1 (mk_RegionKey 0 1024) (mk_RegionKey 0 2047)))) 1 2 0);
    try (vm_compute; reflexivity); try lia.
  - vm_compute. discriminate.
  - vm_compute. eauto.
Defined.

Lemma jump_1_2 : JumpConsistentHash (u64 1) 2 = Some 0.
Proof. vm_compute. reflexivity. Qed.

Definition w_second_next : world :=
  {| ctx := ctx w_second; glob := set_global_region_id 2 (glob w_second); outbox := [] |}.

Lemma fresh_second : fresh_region_id 1 w_second = Done (1, w_second_next).
Proof.
  cbn [fresh_region_id]. unfold bind, gets, upd_glob, modify, jump_target.
  change (global_region_id (glob w_second)) with 1.
  cbn [glob st_sessions set_global_region_id].
  change (st_sessions (glob w_second)) with (Some 2).
  cbv beta iota. rewrite jump_1_2. reflexivity.
Qed.

Lemma fresh_region_id_not_self_witness :
  (exists b, JumpConsistentHash (u64 1) 2 = Some b /\ u64 b <> global_id (ctx w_second)) /\
  w_second_next
  = {| ctx := ctx w_second; glob := set_global_region_id (i32 (1 + 1)) (glob w_second);
       outbox := outbox w_second |}.
Proof. exact (fresh_region_id_not_self 1 w_second 1 w_second_next 2 eq_refl fresh_second). Defined.
