(* ===== verification/SplitTheorems.v ===== *)
(** * Theorems about the region split

    The region log and its batches, the split that runs to completion, and where the sources
    stop it or lose log records. *)

From Stdlib Require Import ZArith Lia.
From stdpp Require Import base numbers list gmap sorting strings.
From S2P Require Import Prelude JumpHash Types XXHash Stores Wire Server Handlers HandlerSpec.
From S2P Require Import RegionTheorems Split SplitFacts Sample.
Open Scope Z_scope.

Section SplitTheorems.
Context {KV : MetaKV} {RK : RocksDB} {KVL : MetaKVLaws KV} {RKL : RocksDBLaws RK}.

(** The state in which [check_region_and_split] leaves the origin and its peer: thread
    [tid] has queued the temporary region [nr] that takes the upper half of [l]. *)
Record split_ready (c : cluster) (q : list (Z * Z)) (tid rid lid sid : Z)
    (x : server_context) (nr l : ServerRegion) (pw : world) : Prop := {
  rdy_idle : s_ctx c = None;
  rdy_queue : shared_split_queue (pglob c) = (tid, rid) :: q;
  rdy_thread : threads c !! tid = Some x;
  rdy_new : region_map x !! rid = Some (Some nr);
  rdy_new_id : region_id nr = rid;
  rdy_left_id : left_region_id nr = lid;
  rdy_left : region_map x !! lid = Some (Some l);
  rdy_lid : region_id l = lid;
  rdy_ne : rid <> lid;
  rdy_status : region_status l = IsSplit;
  rdy_global : is_Some (global_region_map (pglob c) !! lid);
  rdy_global_new : global_region_map (pglob c) !! rid = None;
  rdy_range : is_u64 (key_hi (end_key l)) /\ 0 < Z.shiftr (key_hi (end_key l)) 1;
  rdy_new_range : start_key nr = split_start (end_key l) /\ end_key nr = split_end (end_key l);
  rdy_session : exists sessions, st_sessions (pglob c) = Some sessions /\
    (if rid <? sessions then Some rid else JumpConsistentHash (u64 rid) sessions) = Some sid;
  rdy_peer : peers c !! sid = Some pw;
  rdy_peer_new : region_map (ctx pw) !! rid = None;
  rdy_buffer : req_buffer (st_req c)
}.

(** No directory in the range of [nr] has entries. *)
Definition no_entries (x : server_context) (nr : ServerRegion) (fuel : nat) : Prop :=
  forall h s, key_hi (start_key nr) <= h <= key_hi (end_key nr) ->
    pinode_table x !! h = Some s ->
    (size s < fuel)%nat /\ forall p, p ∈ s -> dir_list (metadb x) p = [].

Section Phases.
Context (ths : gmap Z server_context) (ps : gmap Z world) (tid sid : Z).
Let st := st ths ps tid sid.

Lemma send_dirs_empty fuel j old over nr h l x g pw b (Q : unit -> cluster -> Prop) :
  (length l < fuel)%nat ->
  (forall p, p ∈ l -> dir_list (metadb x) p = []) ->
  Q tt (st x g pw b) ->
  wp (send_dirs fuel j old over nr sid h l 0) Q (st x g pw b).
Proof.
  revert fuel. induction l as [|p l IH]; intros [|fuel] Hf Hl HQ; cbn [length] in Hf; try lia.
  - exact HQ.
  - cbn [send_dirs]. apply wp_bind, wp_on_ctx, wp_kv_get. cbn.
    destruct (ReadDir_end (metadb x) p 0 MSG_ENTEY_MAX_SIZE) as (status & -> & _).
    { rewrite Hl, cursor_start by left. reflexivity. }
    destruct x. apply IH; [lia| |exact HQ]. intros p' Hp'. apply Hl. right. exact Hp'.
Qed.

Lemma send_hashes_empty n fuel j old over nr h x g pw b (Q : unit -> cluster -> Prop) :
  (forall h' s, h <= h' < h + Z.of_nat n -> pinode_table x !! h' = Some s ->
     (size s < fuel)%nat /\ forall p, p ∈ s -> dir_list (metadb x) p = []) ->
  Q tt (st x g pw b) ->
  wp (send_hashes n fuel j old over nr sid h) Q (st x g pw b).
Proof.
  revert h. induction n as [|n IH]; intros h Hdirs HQ; [exact HQ|].
  cbn [send_hashes]. apply wp_bind, wp_on_ctx, wp_gets. cbn [ctx glob].
  apply wp_bind. destruct (pinode_table x !! h) as [s|] eqn:E.
  - destruct (Hdirs h s ltac:(lia) E) as [Hsize Hs].
    apply send_dirs_empty.
    + unfold set_order. rewrite merge_sort_Permutation. exact Hsize.
    + intros p Hp. apply Hs. unfold set_order in Hp.
      rewrite merge_sort_Permutation in Hp. apply elem_of_elements, Hp.
    + apply IH; [|exact HQ]. intros h' s' Hh. apply Hdirs. lia.
  - apply wp_ret, IH; [|exact HQ]. intros h' s' Hh. apply Hdirs. lia.
Qed.

Definition split_map (nr l : ServerRegion) (m : gmap Z ClientRegion) : gmap Z ClientRegion :=
  <[region_id l := {| c_region_id := region_id l; c_start_key := start_key l;
                      c_end_key := halved (end_key l) |}]>
  (<[region_id nr := {| c_region_id := region_id nr; c_start_key := start_key nr;
                        c_end_key := end_key nr |}]>
   (delete (region_id l) m)).

Lemma wp_hand_over nr l lid x g pw b (Q : unit -> cluster -> Prop) :
  region_map x !! lid = Some (Some l) -> region_status l = IsSplit ->
  is_Some (global_region_map g !! region_id l) ->
  global_region_map g !! region_id nr = None -> region_id nr <> region_id l ->
  0 < Z.shiftr (key_hi (end_key l)) 1 ->
  Q tt (st (with_regions (alter (fmap (set_region_status SplitAlmostDone)) lid)
           (with_regions (alter (fmap (set_end_key (halved (end_key l)))) lid) x))
           (set_global_region_map (split_map nr l (global_region_map g)) g) pw b) ->
  wp (hand_over nr lid) Q (st x g pw b).
Proof.
  intros Hl Hst Hg Hgn Hne Hpos HQ. apply wp_bind. eapply wp_find_region; [exact Hl|].
  rewrite Hst, bool_decide_false by discriminate. apply wp_bind, wp_gets.
  apply wp_bind, wp_assert; [apply bool_decide_true, Hg|].
  apply wp_bind, wp_upd_region, wp_bind, wp_assert; [apply Z.ltb_lt, Hpos|].
  apply wp_bind, wp_modify. cbn [SplitFacts.st set_pglob threads pglob s_ctx peers st_req].
  unfold map_insert. cbn [global_region_map set_global_region_map].
  rewrite lookup_delete_ne, Hgn by congruence.
  rewrite lookup_insert_ne, lookup_delete_eq by congruence.
  eapply wp_upd_region. exact HQ.
Qed.

(** The message that carries the logs [body]: the bytes before and after them are left
    from earlier messages. *)
Lemma log_message_entries body fields b :
  req_buffer b -> Z.of_nat (length body) <= MSG_ENTEY_MAX_SIZE -> Forall is_byte body ->
  Forall (fun '(o, v) => (o + length v <= log_entries_off)%nat /\ Forall is_byte v) fields ->
  let b' := fold_left (fun b '(off, v) => write_at off v b) fields (write_at log_entries_off body b) in
  req_buffer b' /\
  exists rest, take (Z.to_nat MSG_ENTEY_MAX_SIZE) (drop log_entries_off b') = body ++ rest /\
    Forall is_byte rest.
Proof.
  intros Hb Hbody Hbytes Hf b'. unfold MSG_ENTEY_MAX_SIZE, log_entries_off in *.
  assert (req_buffer (write_at 20 body b)) as Hw by (apply req_buffer_write; [lia|assumption..]).
  assert (req_buffer b') as Hb'.
  { apply req_buffer_writes; [|exact Hw]. eapply Forall_impl; [exact Hf|]. intros [o v] []. split; [lia|assumption]. }
  split; [exact Hb'|]. unfold b'. rewrite drop_writes.
  - rewrite drop_write_at by (destruct Hb; lia). rewrite take_app_ge by lia. eexists. split; [reflexivity|].
    apply Forall_take, Forall_drop, Hb.
  - eapply Forall_impl; [exact Hf|]. intros [o v] []. assumption.
  - destruct Hw. lia.
Qed.

(** One message that carries the whole log. *)
Lemma wp_send_whole_log fuel j old nr l lid x g pw b r (Q : unit -> cluster -> Prop) :
  let recs := map snd (rocks_scan (log_db x) (log_key (region_id l) 0)) in
  region_map x !! lid = Some (Some l) -> left_region_id nr = lid ->
  region_status l = IsSplit -> is_Some (global_region_map g !! region_id l) ->
  global_region_map g !! region_id nr = None -> region_id nr <> region_id l ->
  0 < Z.shiftr (key_hi (end_key l)) 1 -> req_buffer b ->
  0 <= log_id l <= Z.of_nat (length recs) ->
  Z.of_nat (length (concat recs)) < MSG_ENTEY_MAX_SIZE - region_log_max_size ->
  Forall log_record recs ->
  region_is pw (region_id nr) r -> is_i32 (kv_num r) ->
  (forall pw' b', region_is pw' (region_id nr)
       (set_region_status Normal (set_kv_num (i32 (kv_num r - Z.of_nat (length recs))) r)) ->
     req_buffer b' ->
     Q tt (set_s_ctx None (st
       (with_regions (alter (fmap (set_region_status Normal)) lid)
        (with_regions (alter (fmap (set_log_id 0)) lid)
         (with_regions (delete (region_id nr))
          (with_regions (alter (fmap (set_region_status SplitAlmostDone)) lid)
           (with_regions (alter (fmap (set_end_key (halved (end_key l)))) lid) x)))))
       (set_global_region_map (split_map nr l (global_region_map g)) g) pw' b'))) ->
  wp (send_log_loop (S fuel) j old nr sid 0) Q (st x g pw b).
Proof.
  intros recs Hl Hlid Hst Hg Hgn Hne Hpos Hb Hlog Hfit Hrecs Hr Hk HQ. set (body := concat recs) in *.
  assert (length recs <= length body)%nat as Hcount.
  { unfold body. clear -Hrecs. induction Hrecs as [|v vs [_ (u & -> & _)] _ IH]; cbn [concat length]; [lia|].
    rewrite !length_app. cbn [length]. lia. }
  assert (Forall is_byte body) as Hbytes
    by (apply Forall_concat; eapply Forall_impl; [exact Hrecs|apply lr_bytes]).
  unfold MSG_ENTEY_MAX_SIZE, region_log_max_size in Hfit.
  cbn [send_log_loop]. rewrite Hlid. apply wp_bind. eapply wp_find_region; [exact Hl|].
  apply wp_bind, wp_on_ctx, wp_gets. cbn [ctx glob].
  assert (collect_logs (rocks_scan (log_db x) (log_key (region_id l) 0)) [] 0
    = (body, Z.of_nat (length recs))) as -> by (apply collect_all; exact Hfit).
  apply wp_bind, wp_fill_entries; [unfold MSG_ENTEY_MAX_SIZE; lia|].
  rewrite ?Z.add_0_l, (i32_small (Z.of_nat _)) by (unfold is_i32; lia).
  rewrite (i32_small (log_id l - _)) by (unfold is_i32; lia).
  unfold log_status_of. rewrite (proj2 (Z.leb_le _ 0)) by lia.
  rewrite bool_decide_false by discriminate. apply wp_bind.
  eapply wp_hand_over; [exact Hl|assumption..|].
  apply wp_bind, wp_write_fields, wp_bind, wp_sent_entries.
  match goal with |- context [fold_left _ ?fs (write_at log_entries_off body b)] =>
    destruct (log_message_entries body fs b Hb) as (Hb' & rest & -> & Hrest);
      [unfold MSG_ENTEY_MAX_SIZE; lia|exact Hbytes
      |repeat (apply Forall_cons_2; [split; [unfold log_entries_off; rewrite length_le_bytes; lia|
        apply le_bytes_is_byte]|]); apply Forall_nil_2|] end.
  set (b' := fold_left _ _ _) in *. set (req := {| sl_region_id := _ |}).
  destruct (target_finishes fuel j old pw req r (length recs)) as (pw' & Hrun & Hlast & Hr');
    try reflexivity; try assumption; try lia.
  { apply Forall_app. auto. }
  { exists [], recs, rest. auto. }
  apply wp_bind. eapply wp_call_peer; [exact Hrun|exact Hlast|]. cbn.
  apply wp_bind, wp_assert; [reflexivity|]. rewrite bool_decide_true by reflexivity.
  apply wp_bind, wp_on_ctx, wp_modify, wp_bind, wp_upd_region, wp_bind, wp_upd_region, wp_modify.
  exact (HQ pw' b' Hr' Hb').
Qed.

End Phases.

Lemma wp_session_id rid sid sessions ths ps tid x g pw b (Q : Z -> cluster -> Prop) :
  st_sessions g = Some sessions ->
  (if rid <? sessions then Some rid else JumpConsistentHash (u64 rid) sessions) = Some sid ->
  Q sid (st ths ps tid sid x g pw b) ->
  wp (server_session_id rid) Q (st ths ps tid sid x g pw b).
Proof.
  intros Hs Hsid HQ. apply wp_bind, wp_gets. cbn [st pglob]. rewrite Hs.
  destruct (rid <? sessions); [injection Hsid as ->; exact HQ|]. rewrite Hsid. exact HQ.
Qed.

(** The cluster after a split: the target serves the range of [nr], the origin what is left
    of that of [l]; if [l] does not begin past the middle, each of its hashes is in exactly
    one of the two, and no other hash is. *)
Record split_done (q : list (Z * Z)) (tid rid lid sid : Z) (nr l : ServerRegion) (g : globals)
    (x' : server_context) (l' : ServerRegion) (pw' : world) (r' : ServerRegion) (c' : cluster) : Prop := {
  dn_idle : s_ctx c' = None;
  dn_queue : shared_split_queue (pglob c') = q;
  dn_thread : threads c' !! tid = Some x';
  dn_temporary : region_map x' !! rid = None;
  dn_left : region_map x' !! lid = Some (Some l');
  dn_left_status : region_status l' = Normal /\ log_id l' = 0;
  dn_left_range : start_key l' = start_key l /\ end_key l' = halved (end_key l);
  dn_map : global_region_map (pglob c') = split_map nr l (global_region_map g);
  dn_peer : peers c' !! sid = Some pw';
  dn_target : region_is pw' rid r' /\ region_status r' = Normal;
  dn_target_range : start_key r' = split_start (end_key l) /\ end_key r' = split_end (end_key l);
  dn_partition h : 0 <= key_hi (start_key l) <= Z.shiftr (key_hi (end_key l)) 1 + 1 ->
    check_is_blong_to_region l h
    = xorb (check_is_blong_to_region l' h) (check_is_blong_to_region r' h);
  dn_buffer : req_buffer (st_req c')
}.

Lemma split_turn fuel j old over c q tid rid lid sid x nr l pw :
  split_ready c q tid rid lid sid x nr l pw ->
  no_entries x nr (S fuel) ->
  let recs := map snd (rocks_scan (log_db x) (log_key lid 0)) in
  0 <= log_id l <= Z.of_nat (length recs) ->
  Z.of_nat (length (concat recs)) < MSG_ENTEY_MAX_SIZE - region_log_max_size ->
  Forall log_record recs ->
  wp (split_region_step (S fuel) j old over)
    (fun _ c' => exists x' l' pw' r', split_done q tid rid lid sid nr l (pglob c) x' l' pw' r' c') c.
Proof.
  intros [Hidle Hq Hth Hnr Hnid Hlid Hl Hlid' Hne Hst Hg Hgn [Hu Hpos] Hrange (ss & Hss & Hsid) Hp Hpn Hbuf]
    Hdirs recs Hlog Hfit Hrecs.
  set (g1 := set_shared_split_queue q (pglob c)).
  apply wp_bind, wp_gets. rewrite Hq. apply wp_bind, wp_modify, wp_bind, wp_gets.
  apply wp_bind, wp_assert; [apply bool_decide_true, Hidle|]. apply wp_bind, wp_modify.
  match goal with |- wp _ _ ?s =>
    replace s with (st (threads c) (peers c) tid sid x g1 pw (st_req c))
      by (unfold st; rewrite !insert_id by assumption; reflexivity) end.
  apply wp_bind. eapply wp_session_id; [exact Hss|exact Hsid|].
  apply wp_bind, wp_on_ctx, (wp_region_at _ _ nr); [exact Hnr|]. cbn [ctx glob].
  apply wp_bind, wp_write_fields. set (b1 := fold_left _ _ _).
  assert (req_buffer b1) as Hb1.
  { apply req_buffer_writes; [|exact Hbuf]. unfold key_bytes.
    repeat (apply Forall_cons_2; [split; [rewrite ?length_app, !length_le_bytes; lia|rewrite ?Forall_app;
      auto using le_bytes_is_byte]|]).
    apply Forall_nil_2. }
  set (req := {| cr_region_id := _ |}).
  destruct (target_creates (S fuel) j old pw req Hpn) as (pw1 & Hrun & Hlast & Hr1).
  apply wp_bind. eapply wp_call_peer; [exact Hrun|exact Hlast|].
  apply wp_bind, wp_assert; [reflexivity|].
  apply wp_bind. eapply wp_find_region; [exact Hnr|].
  apply wp_bind. rewrite Hnid. eapply wp_session_id; [exact Hss|exact Hsid|].
  apply wp_bind, send_hashes_empty.
  { intros h s Hh. apply Hdirs. lia. }
  apply wp_bind. rewrite Hnid. eapply wp_session_id; [exact Hss|exact Hsid|].
  eapply (wp_send_whole_log (threads c) (peers c) tid sid fuel j old nr l lid x g1 pw1 b1);
    rewrite ?Hlid', ?Hnid; eauto.
  { unfold is_i32. cbn. lia. }
  intros pw' b' Hr' Hb'. eexists _, _, pw', _.
  split; cbn [set_s_ctx st s_ctx pglob threads peers st_req]; rewrite ?lookup_insert_eq; try reflexivity.
  - unfold with_regions. cbn [region_map set_region_map].
    rewrite !lookup_alter_ne, lookup_delete_eq by congruence. reflexivity.
  - unfold with_regions. cbn [region_map set_region_map].
    rewrite !lookup_alter_eq, !lookup_delete_ne, !lookup_alter_eq, Hl by congruence. reflexivity.
  - split; reflexivity.
  - split; reflexivity.
  - split; [exact Hr'|reflexivity].
  - exact Hrange.
  - intros h [Hs1 Hs2]. rewrite (split_bounds_partition l rid h Hu Hs1 Hs2).
    destruct Hrange as [E1 E2]. unfold check_is_blong_to_region. cbn. rewrite E1, E2. reflexivity.
  - exact Hb'.
Qed.


(** ** Directories with entries *)

Section Abort.
Context (ths : gmap Z server_context) (ps : gmap Z world) (tid sid : Z).
Let st := st ths ps tid sid.

(** The run stops at a failed assertion. *)
Definition aborts {A} (c : M cluster A) (s : cluster) : Prop := c s = Fault AssertFailed.

Lemma aborts_bind {A B} (c : M cluster A) (k : A -> M cluster B) s :
  wp c (fun a s' => aborts (k a) s') s -> aborts (bind c k) s.
Proof. unfold wp, aborts, bind. destruct (c s) as [[a s']|f]; [auto|contradiction]. Qed.

Lemma aborts_here {A B} (c : M cluster A) (k : A -> M cluster B) s :
  aborts c s -> aborts (bind c k) s.
Proof. unfold aborts, bind. intros ->. reflexivity. Qed.

Lemma send_dirs_aborts fuel j old over nr h l x g pw b :
  (length l < fuel)%nat ->
  (forall p e, p ∈ l -> e ∈ dir_list (metadb x) p ->
     Z.of_nat (length (dirent_bytes p e)) <= MSG_ENTEY_MAX_SIZE) ->
  (exists p, p ∈ l /\ dir_list (metadb x) p <> []) ->
  aborts (send_dirs fuel j old over nr sid h l 0) (st x g pw b).
Proof.
  revert fuel. induction l as [|p l IH]; intros [|fuel] Hf Hfit (p0 & Hp0 & Hne);
    cbn [length] in Hf; try lia; [inversion Hp0|].
  cbn [send_dirs]. apply aborts_bind, wp_on_ctx, wp_kv_get. cbn [ctx glob].
  destruct (dir_list (metadb x) p) as [|e es] eqn:Hd.
  - destruct (ReadDir_end (metadb x) p 0 MSG_ENTEY_MAX_SIZE) as (status & -> & _).
    { rewrite Hd, cursor_start. reflexivity. }
    apply IH; [lia| |].
    + intros p' e' Hp'. apply Hfit. right. exact Hp'.
    + exists p0. split; [|exact Hne]. apply elem_of_cons in Hp0 as [->|]; [contradiction|assumption].
  - destruct (ReadDir_chunk (metadb x) p 0 MSG_ENTEY_MAX_SIZE)
      as (rb & n & -> & Hn & Hcur & Hcount & Hpay & Hmax & Hlen & _).
    { rewrite cursor_start, Hd. cbn. lia. }
    { apply Forall_forall. intros e' He'. apply Hfit; [left|exact He']. }
    assert (Z.of_nat n <= 3712) as Hn'.
    { pose proof (length_dirents_ge p (take n (drop (cursor (metadb x) p 0)
        (dir_list (metadb x) p)))) as Hge.
      rewrite <- Hpay, length_take, length_drop in Hge. unfold MSG_ENTEY_MAX_SIZE in *. lia. }
    apply aborts_bind, wp_write_fields. unfold p_assert. destruct (rel_len rb <=? MSG_ENTEY_MAX_SIZE) eqn:Hle;
      [|apply aborts_here; reflexivity].
    apply aborts_bind, wp_ret, aborts_bind, wp_fill_entries;
      [apply Z.leb_le in Hle; rewrite length_take; lia|]. apply aborts_here. unfold aborts, dump_entries.
      rewrite Hcount.
    rewrite i32_small by (unfold is_i32; lia).
    destruct (Z.eqb_spec (Z.of_nat n) 0); [lia|reflexivity].
Qed.

Lemma send_hashes_aborts n fuel j old over nr h x g pw b :
  (forall h' s p e, h <= h' < h + Z.of_nat n -> pinode_table x !! h' = Some s ->
     (size s < fuel)%nat /\ (p ∈ s -> e ∈ dir_list (metadb x) p ->
     Z.of_nat (length (dirent_bytes p e)) <= MSG_ENTEY_MAX_SIZE)) ->
  (exists h' s p, h <= h' < h + Z.of_nat n /\ pinode_table x !! h' = Some s /\
     p ∈ s /\ dir_list (metadb x) p <> []) ->
  aborts (send_hashes n fuel j old over nr sid h) (st x g pw b).
Proof.
  revert h. induction n as [|n IH]; intros h Hfit (h0 & s0 & p0 & Hh0 & Hs0 & Hp0 & Hne);
    [lia|].
  cbn [send_hashes]. apply aborts_bind, wp_on_ctx, wp_gets. cbn [ctx glob].
  assert (forall s p, p ∈ set_order s <-> p ∈ s) as Hord.
  { intros s p. unfold set_order. rewrite merge_sort_Permutation. apply elem_of_elements. }
  assert (forall s, length (set_order s) = size s) as Hsz.
  { intros s. unfold set_order. rewrite merge_sort_Permutation. reflexivity. }
  destruct (pinode_table x !! h) as [s|] eqn:E.
  - assert ((exists p, p ∈ s /\ dir_list (metadb x) p <> []) \/
            (forall p, p ∈ s -> dir_list (metadb x) p = [])) as [(p & Hp & Hpe)|Hnone].
    { destruct (decide (set_Exists (fun p => dir_list (metadb x) p <> []) s)) as [Hex|Hno];
        [left; exact Hex|right]. intros p Hp.
      destruct (dir_list (metadb x) p) eqn:Hd; [reflexivity|].
      exfalso. apply Hno. exists p. rewrite Hd. auto. }
    + apply aborts_here, send_dirs_aborts.
      * rewrite Hsz. apply (Hfit h s p ([], 0)); [lia|exact E].
      * intros p' e Hp'%Hord. apply (Hfit h s p' e); [lia|exact E|exact Hp'].
      * exists p. split; [apply Hord, Hp|exact Hpe].
    + apply aborts_bind. eapply send_dirs_empty.
      * rewrite Hsz. apply (Hfit h s p0 ([], 0)); [lia|exact E].
      * intros p Hp%Hord. apply Hnone, Hp.
      * apply IH; [intros h' s' p e Hh'; apply Hfit; lia|].
        exists h0, s0, p0. split; [|auto]. destruct (Z.eq_dec h0 h) as [->|]; [|lia].
        rewrite E in Hs0. injection Hs0 as ->. exfalso. apply Hne, Hnone, Hp0.
  - apply aborts_bind, wp_ret, IH; [intros h' s' p e Hh'; apply Hfit; lia|].
    exists h0, s0, p0. split; [|auto]. destruct (Z.eq_dec h0 h) as [->|]; [congruence|lia].
Qed.

End Abort.

(** If any directory of the range to be moved has an entry, the split thread aborts:
    after the target has created the region, the debugging assertion in the loop over
    the entries of the first message stops the process. *)
Lemma split_aborts_on_entries fuel j old over c q tid rid lid sid x nr l pw h s p :
  split_ready c q tid rid lid sid x nr l pw ->
  (forall h s, pinode_table x !! h = Some s -> (size s <= fuel)%nat) ->
  (forall p e, e ∈ dir_list (metadb x) p ->
     Z.of_nat (length (fst e)) <= METAFS_MAX_FNAME_LEN) ->
  key_hi (start_key nr) <= h <= key_hi (end_key nr) ->
  pinode_table x !! h = Some s -> p ∈ s -> dir_list (metadb x) p <> [] ->
  split_region_step (S fuel) j old over c = Fault AssertFailed.
Proof.
  intros [Hidle Hq Hth Hnr Hnid Hlid Hl Hlid' Hne Hst Hg Hgn [Hu Hpos] Hrange (ss & Hss & Hsid) Hp Hpn Hbuf]
    Hsize Hname Hh Hs Hps Hdir.
  set (g1 := set_shared_split_queue q (pglob c)).
  change (aborts (split_region_step (S fuel) j old over) c).
  apply aborts_bind, wp_gets. rewrite Hq. apply aborts_bind, wp_modify, aborts_bind, wp_gets.
  apply aborts_bind, wp_assert; [apply bool_decide_true, Hidle|]. apply aborts_bind, wp_modify.
  match goal with |- aborts _ ?s =>
    replace s with (st (threads c) (peers c) tid sid x g1 pw (st_req c))
      by (unfold st; rewrite !insert_id by assumption; reflexivity) end.
  apply aborts_bind. eapply wp_session_id; [exact Hss|exact Hsid|].
  apply aborts_bind, wp_on_ctx, (wp_region_at _ _ nr); [exact Hnr|]. cbn [ctx glob].
  apply aborts_bind, wp_write_fields. set (req := {| cr_region_id := _ |}).
  destruct (target_creates (S fuel) j old pw req Hpn) as (pw1 & Hrun & Hlast & Hr1).
  apply aborts_bind. eapply wp_call_peer; [exact Hrun|exact Hlast|].
  apply aborts_bind, wp_assert; [reflexivity|].
  apply aborts_bind. eapply wp_find_region; [exact Hnr|].
  apply aborts_bind. rewrite Hnid. eapply wp_session_id; [exact Hss|exact Hsid|].
  apply aborts_here, send_hashes_aborts.
  - intros h' s' p' e' Hh' Hs'. split; [specialize (Hsize h' s' Hs'); lia|].
    intros _ He'. specialize (Hname p' e' He').
    unfold dirent_bytes, METAFS_MAX_FNAME_LEN, MSG_ENTEY_MAX_SIZE in *.
    rewrite !length_app, !length_le_bytes. lia.
  - exists h, s, p. split; [lia|auto].
Qed.

(** ** The region log *)

(** While a region is being split, [log_op] stores one record under the region's id
    and its next log id, moves the log id by one, and the stored bytes are read back as
    the logged operation by the documented format (PUT mark in the second most
    significant bit of the pinode, then inode, stat, update flag and name; DELETE is
    pinode and name); the record fits the bound the sender relies on. *)
Theorem log_op_appends pad flag rid del pinode fname stat inode w r :
  region_is w rid r ->
  Z.of_nat (length (c_str fname)) < METAFS_MAX_FNAME_LEN ->
  is_u64 pinode -> Z.testbit pinode 62 = false -> is_u64 inode -> stat_in_range stat ->
  exists w' v,
    log_op pad flag rid del pinode fname (Some stat) inode w = Done (tt, w') /\
    region_is w' rid (set_log_id (i32 (log_id r + 1)) r) /\
    (list_to_map (records (log_db (ctx w'))) : gmap bytes bytes)
      = <[log_key (region_id r) (log_id r) := v]> (list_to_map (records (log_db (ctx w)))) /\
    metadb (ctx w') = metadb (ctx w) /\
    Z.of_nat (length v) <= region_log_max_size /\
    decode_log_record v
      = if del then DeleteRecord pinode (c_str fname)
        else PutRecord pinode inode stat (c_str fname).
Proof.
  intros Hr Hlen Hp Hbit Hi Hst.
  set (v := if del then delete_log_val pinode (c_str fname)
            else put_log_val pad flag (Z.lor pinode inode_prefix_ssb) inode (c_str fname) stat).
  assert (log_op pad flag rid del pinode fname (Some stat) inode w
    = bind (log_put (log_key (region_id r) (log_id r)) v) (fun _ => ret tt)
        (with_region rid (fun r => set_log_id (i32 (log_id r + 1)) r) w)) as ->.
  { unfold log_op, bind at 1. rewrite (region_at_Done _ _ r Hr).
    unfold bind at 1, upd_region, upd_ctx, modify, p_assert.
    rewrite (proj2 (Z.ltb_lt _ _) Hlen). unfold v, bind, ret, with_region.
    destruct del; destruct (log_put _ _ _) as [[[] ?]|]; reflexivity. }
  destruct (rocks_put_ok (log_db (ctx w)) (log_key (region_id r) (log_id r)) v)
    as (ldb & Hput & Hmap).
  eexists _, v. unfold bind, log_put, gets, with_region. cbn. unfold bind, gets. cbn.
  rewrite Hput. cbn. split; [reflexivity|]. split.
  { exact (region_is_with w rid r (fun r => set_log_id (i32 (log_id r + 1)) r) Hr). }
  split; [exact Hmap|]. split; [reflexivity|]. split.
  { unfold v, region_log_max_size, METAFS_MAX_FNAME_LEN in *. destruct del;
      unfold delete_log_val, put_log_val;
      rewrite ?length_app, ?length_stat_bytes, !length_le_bytes; cbn [length]; lia. }
  unfold v. destruct del.
  - apply decode_delete_record; [assumption..|apply c_str_no_nul].
  - apply decode_put_record; try assumption. apply c_str_no_nul.
Qed.

(** A batch of log records is a prefix of the records in key order, with the right
    count, is not empty if there is a record, stops only at the end of the log or when
    the size bound is reached, and never overflows the message. *)
Theorem log_batch_fits recs :
  Forall (fun e => Z.of_nat (length (snd e)) <= region_log_max_size) recs ->
  exists k,
    collect_logs recs [] 0 = (concat (map snd (take k recs)), Z.of_nat k) /\
    (recs <> [] -> (0 < k)%nat) /\
    (k = length recs \/
     MSG_ENTEY_MAX_SIZE - region_log_max_size
       <= Z.of_nat (length (concat (map snd (take k recs))))) /\
    Z.of_nat (length (concat (map snd (take k recs)))) <= MSG_ENTEY_MAX_SIZE.
Proof.
  intros Hrec. destruct (collect_logs_split recs [] 0) as (k & E & _ & Hpos & Hend & Hfit).
  exists k. split; [exact E|]. split.
  { intros Hne. apply Hpos; [exact Hne|]. vm_compute. reflexivity. }
  split; [exact Hend|]. apply Hfit; [exact Hrec|]. vm_compute. discriminate.
Qed.

(** Replay never re-creates an entry.  The target reads the PUT mark from one byte of
    the pinode, where it cannot be, so every record is replayed as a DELETE: a message
    of [n] records either runs off its buffer or leaves the entries a subset of what
    they were and lowers the region's counter by [n]. *)
Lemma replay_never_inserts fuel j now old w req r n :
  region_is w (sl_region_id req) r -> is_i32 (kv_num r) ->
  sl_num_logs req = Z.of_nat n -> Z.of_nat n < 2 ^ 31 ->
  Forall is_byte (sl_entries req) ->
  match serve fuel j now old (SendRegionLog req) w with
  | Done (_, w') =>
      dents (metadb (ctx w')) ⊆ dents (metadb (ctx w)) /\
      exists r', region_is w' (sl_region_id req) r' /\
        kv_num r' = i32 (kv_num r - Z.of_nat n)
  | Fault f => f = OutOfBounds
  end.
Proof.
  intros Hr Hk Hn Hbig Hb. cbn [serve]. unfold s2s_send_region_log_handler, bind at 1.
  unfold upd_ctx, modify. cbn.
  replace (Z.to_nat (u32 (sl_num_logs req))) with n
    by (rewrite Hn; unfold u32; rewrite Z.mod_small; lia).
  set (w1 := {| ctx := set_region_map _ _; glob := _; outbox := _ |}).
  assert (region_is w1 (sl_region_id req) r) as Hr1.
  { unfold region_is, w1, map_insert. cbn. rewrite Hr. exact Hr. }
  pose proof (replay_outcome j (sl_region_id req) n (sl_entries req) w1 r Hb Hr1 Hk) as Hrep.
  unfold bind, wpx in *. destruct (replay_log _ _ _ _ w1) as [[[] w2]|f]; [|apply Hrep].
  destruct Hrep as (Hr2 & _ & Hsub & _ & _). change (metadb (ctx w1)) with (metadb (ctx w)) in Hsub.
  destruct (bool_decide _); cbn [when_]; unfold bind, ret.
  - rewrite (region_at_Done _ _ _ Hr2). cbn. split; [exact Hsub|].
    exists (set_region_status Normal (set_kv_num (i32 (kv_num r - Z.of_nat n)) r)).
    split; [|reflexivity]. exact (region_is_with w2 _ _ (set_region_status Normal) Hr2).
  - cbn. split; [exact Hsub|]. eauto.
Qed.

(** ** The order of log keys *)

Lemma bytes_leb_app_same p a b : bytes_leb (p ++ a) (p ++ b) = bytes_leb a b.
Proof. induction p as [|x p IH]; cbn; [reflexivity|]. rewrite Z.eqb_refl. exact IH. Qed.

(** Up to 256 records per region, the byte order of the log keys is the order of the
    log ids, so a scan from id [a] meets exactly the ids from [a] on. *)
Theorem log_key_order_small rid a b :
  0 <= a < 256 -> 0 <= b < 256 ->
  bytes_leb (log_key rid a) (log_key rid b) = (a <=? b).
Proof.
  intros Ha Hb. unfold log_key. rewrite bytes_leb_app_same.
  unfold le_bytes. cbn [bytes_leb]. rewrite !(Z.mod_small _ 256) by lia.
  rewrite !(Z.div_small _ 256) by lia.
  destruct (Z.eqb_spec a b) as [->|Hne].
  - cbn. symmetry. apply Z.leb_refl.
  - destruct (Z.ltb_spec a b), (Z.leb_spec a b); try reflexivity; lia.
Qed.

(** From the 257th record on the order breaks: the keys are little-endian, so a scan
    that starts at log id 1 or later never meets the record with id 256. *)
Lemma log_scan_misses_256 db rid a v :
  0 < a < 256 ->
  (log_key rid 256, v) ∉ rocks_scan db (log_key rid a).
Proof.
  intros Ha. rewrite rocks_scan_spec, list_elem_of_filter. cbn. intros [H _].
  unfold bytes_le, log_key in H. rewrite bytes_leb_app_same in H.
  unfold le_bytes in H. cbn [bytes_leb] in H. rewrite !(Z.mod_small a 256) in H by lia.
  change (256 mod 256) with 0 in H. destruct (Z.eqb_spec a 0); [lia|].
  apply Z.ltb_lt in H. lia.
Qed.

End SplitTheorems.

(** ** Witnesses *)

Import Sample.

(** Region 0 is being split: region 5 is to take the hashes 512..1023 to session 1. *)
Definition left0 : ServerRegion := set_region_status IsSplit region0.

Definition right5 : ServerRegion :=
  set_left_region_id 0
    (new_ServerRegion 5 (split_start (end_key left0)) (split_end (end_key left0))).

Definition origin_with (ldb : SortedLog.log) (table : gmap Z (gset Z)) (db : MapDb.db) : server_context :=
  {| thread_id := 0; global_id := 0; alloc_inode := 7; metadb := db : @MetaDb MapDb.kv;
     log_db := ldb : @LogDB SortedLog.rocks;
     region_map := <[5 := Some right5]> {[0 := Some left0]};
     pinode_table := table |}.

Definition origin := origin_with SortedLog.empty.

Definition origin_glob : globals :=
  {| global_region_id := 6;
     global_region_map := {[0 := {| c_region_id := 0; c_start_key := start_key left0;
                                    c_end_key := end_key left0 |}]};
     shared_split_queue := [(0, 5)]; st_sessions := Some 2 |}.

Definition cluster_of (x : server_context) : cluster :=
  {| threads := {[0 := x]}; pglob := origin_glob; s_ctx := None; peers := {[1 := w0]};
     st_req := repeat 255 3768 |}.

Lemma jump_5_2 : JumpConsistentHash (u64 5) 2 = Some 1.
Proof. vm_compute. reflexivity. Qed.

Lemma ready ldb table db :
  split_ready (cluster_of (origin_with ldb table db)) [] 0 5 0 1 (origin_with ldb table db) right5 left0 w0.
Proof.
  split; try reflexivity.
  - discriminate.
  - eexists. reflexivity.
  - split; [split|]; vm_compute; congruence.
  - split; reflexivity.
  - exists 2. split; [reflexivity|]. change (5 <? 2) with false. exact jump_5_2.
  - split; [apply repeat_length|]. apply Forall_repeat. unfold is_byte. lia.
Qed.

(** Two operations were logged meanwhile. *)
Definition logged : SortedLog.log :=
  snd (SortedLog.put (snd (SortedLog.put SortedLog.empty (log_key 0 0)
    (put_log_val 0 0 (Z.lor fs_root_inode inode_prefix_ssb) 9 (text "a"%string) st0)))
    (log_key 0 1) (delete_log_val fs_root_inode (text "a"%string))).

Definition origin_logged : server_context := origin_with logged {[600 := {[dir_d]}]} MapDb.empty.


Definition table_d : gmap Z (gset Z) := {[600 := {[dir_d]}]}.

Lemma split_aborts_on_entries_witness :
  split_region_step 3 j0 old0 [] (cluster_of (origin table_d (metadb (ctx w_dir))))
  = Fault AssertFailed.
Proof.
  apply (split_aborts_on_entries 2 j0 old0 []
    (cluster_of (origin table_d (metadb (ctx w_dir)))) [] 0 5 0 1
    (origin table_d (metadb (ctx w_dir))) right5 left0 w0 600 {[dir_d]} dir_d).
  - apply ready.
  - intros h s. cbn. unfold table_d. rewrite lookup_singleton_Some. intros [<- <-].
    vm_compute. lia.
  - intros p [f i] He. apply dir_list_spec in He.
    exact (wf_name _ _ wf_w_dir (p, f) i He).
  - vm_compute. split; discriminate.
  - reflexivity.
  - set_solver.
  - vm_compute. discriminate.
Defined.

Lemma log_op_appends_witness :
  exists w' v,
    log_op 0 0 0 false fs_root_inode (name "a"%string) (Some st0) 5 w1 = Done (tt, w') /\
    region_is w' 0 (set_log_id 1 region0) /\
    (list_to_map (records (log_db (ctx w'))) : gmap bytes bytes)
      = <[log_key 0 0 := v]> (list_to_map (records (log_db (ctx w1)))) /\
    metadb (ctx w') = metadb (ctx w1) /\
    Z.of_nat (length v) <= region_log_max_size /\
    decode_log_record v = PutRecord fs_root_inode 5 st0 (c_str (name "a"%string)).
Proof.
  apply (log_op_appends 0 0 0 false fs_root_inode (name "a"%string) st0 5 w1 region0);
    try reflexivity; unfold is_u64, stat_in_range; vm_compute;
    repeat split; try discriminate; reflexivity.
Defined.

Definition two_logs : list (bytes * bytes) :=
  [(log_key 0 0, delete_log_val 1 (text "a"%string));
   (log_key 0 1, delete_log_val 1 (text "b"%string))].

Lemma log_batch_fits_witness :
  exists k,
    collect_logs two_logs [] 0 = (concat (map snd (take k two_logs)), Z.of_nat k) /\
    (two_logs <> [] -> (0 < k)%nat) /\
    (k = length two_logs \/
     MSG_ENTEY_MAX_SIZE - region_log_max_size
       <= Z.of_nat (length (concat (map snd (take k two_logs))))) /\
    Z.of_nat (length (concat (map snd (take k two_logs)))) <= MSG_ENTEY_MAX_SIZE.
Proof.
  apply (log_batch_fits two_logs). repeat constructor; vm_compute; discriminate.
Defined.

(** A message with the PUT record of a new file. *)
Definition put_msg : SendRegionLogReq :=
  {| sl_region_id := 0; sl_log_status := FarToDone; sl_next_log_id := 1; sl_num_logs := 1;
     sl_entries_len := 67;
     sl_entries := put_log_val 0 0 (Z.lor fs_root_inode inode_prefix_ssb) 9
                     (text "a"%string) st0 ++ repeat 0 100 |}.

Lemma replay_never_inserts_witness :
  match serve 5 j0 9 old0 (SendRegionLog put_msg) w1 with
  | Done (_, w') =>
      dents (metadb (ctx w')) ⊆ dents (metadb (ctx w1)) /\
      exists r', region_is w' 0 r' /\ kv_num r' = i32 (0 - 1)
  | Fault f => f = OutOfBounds
  end.
Proof.
  apply (replay_never_inserts 5 j0 9 old0 w1 put_msg region0 1).
  - reflexivity.
  - unfold is_i32. cbn. lia.
  - reflexivity.
  - reflexivity.
  - unfold is_byte. vm_compute. repeat constructor; discriminate.
Defined.

Lemma log_key_order_small_witness :
  bytes_leb (log_key 3 7) (log_key 3 200) = (7 <=? 200).
Proof. apply (log_key_order_small 3 7 200); lia. Defined.

Lemma log_scan_misses_256_witness :
  (log_key 3 256, []) ∉ rocks_scan (log_db (ctx w1)) (log_key 3 1).
Proof. apply (log_scan_misses_256 (log_db (ctx w1)) 3 1 []). lia. Defined.
