(* ===== verification/LruCache.v ===== *)
(** * The LRU cache ([include/common/lrucache.h])

    [Cache] keeps a list of nodes in order of use and a map from keys to list
    iterators.  An iterator is a handle that stays valid while its node is in the
    list, so the model gives every node an identity, the map stores identities, and
    following a dangling one is a fault.  The cache refines a plain association list
    in order of use. *)

From Stdlib Require Import ZArith Lia.
From stdpp Require Import base numbers list gmap.
From S2P Require Import Prelude.
Open Scope Z_scope.

Module Lru.

Section Lru.
Context {K V : Type} `{Countable K}.

(** [KeyValuePair], with the identity of its list node. *)
Record node := { nid : nat; key : K; value : V }.

Record Cache := {
  cache_ : gmap K nat;
  keys_ : list node;
  maxSize_ : Z;
  elasticity_ : Z;
  fresh : nat
}.

(** [Cache(maxSize, elasticity)] *)
Definition new (maxSize elasticity : Z) : Cache :=
  {| cache_ := ∅; keys_ := []; maxSize_ := maxSize; elasticity_ := elasticity;
     fresh := 0 |}.

Definition set_lists (m : gmap K nat) (l : list node) (c : Cache) : Cache :=
  {| cache_ := m; keys_ := l; maxSize_ := maxSize_ c; elasticity_ := elasticity_ c;
     fresh := fresh c |}.

Local Open Scope m_scope.

Definition size : M Cache Z := gets (fun c => Z.of_nat (base.size (cache_ c))).

Definition empty : M Cache bool := gets (fun c => Z.of_nat (base.size (cache_ c)) =? 0).

Definition clear : M Cache unit := modify (set_lists ∅ []).

(** The node an iterator points to. *)
Definition find_node (i : nat) (l : list node) : option node :=
  list_find (fun n => nid n = i) l ≫= fun p => Some (snd p).

(** [keys_.splice(keys_.begin(), keys_, it)] *)
Definition splice (i : nat) : M Cache node :=
  let* l := gets keys_ in
  match find_node i l with
  | None => raise NullDeref
  | Some n =>
      modify (fun c => set_lists (cache_ c) (n :: filter (fun x => nid x <> i) l) c) ;;;
      ret n
  end.

(** The [while (cache_.size() > maxSize_)] loop of [prune]. *)
Fixpoint prune_loop (fuel : nat) (count : Z) : M Cache Z :=
  match fuel with
  | O => raise OutOfFuel
  | S fuel' =>
      let* c := gets (fun c => c) in
      if maxSize_ c <? Z.of_nat (base.size (cache_ c)) then
        match last (keys_ c) with
        | None => raise NullDeref
        | Some n =>
            modify (fun c => set_lists (delete (key n) (cache_ c))
                               (take (length (keys_ c) - 1) (keys_ c)) c) ;;;
            prune_loop fuel' (count + 1)
        end
      else ret count
  end.

Definition prune : M Cache Z :=
  let* c := gets (fun c => c) in
  let maxAllowed := u64 (maxSize_ c + elasticity_ c) in
  if (maxSize_ c =? 0) || (Z.of_nat (base.size (cache_ c)) <? maxAllowed) then ret 0
  else prune_loop (S (length (keys_ c))) 0.

Definition insert (k : K) (v : V) : M Cache unit :=
  let* m := gets cache_ in
  match m !! k with
  | Some i =>
      let* l := gets keys_ in
      match find_node i l with
      | None => raise NullDeref
      | Some _ =>
          modify (fun c => set_lists (cache_ c)
            (map (fun x => if decide (nid x = i)
                           then {| nid := nid x; key := key x; value := v |} else x)
                 (keys_ c)) c) ;;;
          splice i ;;; ret tt
      end
  | None =>
      modify (fun c =>
        {| cache_ := <[k := fresh c]> (cache_ c);
           keys_ := {| nid := fresh c; key := k; value := v |} :: keys_ c;
           maxSize_ := maxSize_ c; elasticity_ := elasticity_ c; fresh := S (fresh c) |}) ;;;
      prune ;;; ret tt
  end.

(** [tryGet]: [None] for [false]. *)
Definition tryGet (k : K) : M Cache (option V) :=
  let* m := gets cache_ in
  match m !! k with
  | None => ret None
  | Some i => let* n := splice i in ret (Some (value n))
  end.

(** [get] throws [KeyNotFound]. *)
Definition get (k : K) : M Cache V :=
  let* m := gets cache_ in
  match m !! k with
  | None => raise Thrown
  | Some i => let* n := splice i in ret (value n)
  end.

Definition getCopy (k : K) : M Cache V := get k.

Definition remove (k : K) : M Cache bool :=
  let* m := gets cache_ in
  match m !! k with
  | None => ret false
  | Some i =>
      modify (fun c => set_lists (delete k (cache_ c))
                         (filter (fun x => nid x <> i) (keys_ c)) c) ;;;
      ret true
  end.

Definition contains (k : K) : M Cache bool :=
  gets (fun c => bool_decide (is_Some (cache_ c !! k))).

Definition getMaxAllowedSize (c : Cache) : Z := u64 (maxSize_ c + elasticity_ c).

(** [cwalk]: the nodes in the order [f] sees them. *)
Definition cwalk (c : Cache) : list (K * V) := map (fun n => (key n, value n)) (keys_ c).

(** ** The invariant *)

(** The map and the list describe the same nodes. *)
Definition index (l : list node) : gmap K nat :=
  list_to_map (map (fun n => (key n, nid n)) l).

Record Inv (c : Cache) : Prop := {
  inv_ids : NoDup (map nid (keys_ c));
  inv_keys : NoDup (map key (keys_ c));
  inv_map : cache_ c = index (keys_ c);
  inv_fresh : Forall (fun n => nid n < fresh c)%nat (keys_ c);
  inv_max : 0 <= maxSize_ c
}.

(** ** The abstract cache: an association list in order of use *)

Definition a_find (k : K) (l : list (K * V)) : option V :=
  list_find (fun p => fst p = k) l ≫= fun p => Some (snd (snd p)).

Definition a_remove (k : K) (l : list (K * V)) : list (K * V) := filter (fun p => fst p <> k) l.

(** Shrink to [m] entries once [m + e] are reached; [m = 0] means unbounded. *)
Definition a_prune (m e : Z) (l : list (K * V)) : list (K * V) :=
  if (m =? 0) || (Z.of_nat (length l) <? u64 (m + e)) then l else take (Z.to_nat m) l.

Definition a_insert (m e : Z) (k : K) (v : V) (l : list (K * V)) : list (K * V) :=
  match a_find k l with
  | Some _ => (k, v) :: a_remove k l
  | None => a_prune m e ((k, v) :: l)
  end.

Definition a_touch (k : K) (l : list (K * V)) : list (K * V) :=
  match a_find k l with
  | Some v => (k, v) :: a_remove k l
  | None => l
  end.

(** ** Lists and maps *)

Lemma fst_index l : map fst (map (fun n => (key n, nid n)) l) = map key l.
Proof. rewrite map_map. reflexivity. Qed.

Lemma index_perm l l' : NoDup (map key l) -> l ≡ₚ l' -> index l = index l'.
Proof.
  intros Hn Hp. unfold index. apply list_to_map_proper.
  - rewrite fst_index. exact Hn.
  - apply Permutation_map, Hp.
Qed.

Lemma index_Some l k i :
  NoDup (map key l) -> index l !! k = Some i ->
  exists n, n ∈ l /\ key n = k /\ nid n = i.
Proof.
  intros Hn Hi. apply elem_of_list_to_map in Hi; [|rewrite fst_index; exact Hn].
  apply list_elem_of_In, in_map_iff in Hi as (n & E & Hin). injection E as <- <-.
  exists n. rewrite list_elem_of_In. auto.
Qed.

Lemma index_None l k : index l !! k = None -> k ∉ map key l.
Proof.
  intros Hi Hin. apply not_elem_of_list_to_map in Hi. apply Hi.
  change (k ∈ map fst (map (fun n => (key n, nid n)) l)). rewrite fst_index. exact Hin.
Qed.

Lemma index_size l : NoDup (map key l) -> base.size (index l) = length l.
Proof.
  induction l as [|n l IH]; intros Hn; [reflexivity|].
  apply NoDup_cons in Hn as [Hnin Hn]. unfold index in *. cbn.
  rewrite map_size_insert_None; [rewrite IH by exact Hn; reflexivity|].
  apply not_elem_of_list_to_map. change (key n ∉ map fst (map (fun n => (key n, nid n)) l)).
  rewrite fst_index. exact Hnin.
Qed.

Lemma find_node_in l n : NoDup (map nid l) -> n ∈ l -> find_node (nid n) l = Some n.
Proof.
  unfold find_node. induction l as [|x l IH]; intros Hn Hin; [inversion Hin|].
  apply NoDup_cons in Hn as [Hx Hn]. cbn. destruct (decide (nid x = nid n)) as [E|E].
  - apply elem_of_cons in Hin as [->|Hin]; [reflexivity|]. exfalso. apply Hx. rewrite E.
    apply list_elem_of_In, in_map, list_elem_of_In, Hin.
  - apply elem_of_cons in Hin as [->|Hin]; [contradiction|].
    specialize (IH Hn Hin). destruct (list_find _ l) as [[? ?]|]; cbn in *; exact IH.
Qed.

Lemma filter_id_key l n :
  NoDup (map nid l) -> NoDup (map key l) -> n ∈ l ->
  filter (fun x => nid x <> nid n) l = filter (fun x => key x <> key n) l.
Proof.
  intros Hi Hk Hn. apply filter_ext_in. intros x Hx.
  split; intros Hne E; apply Hne; f_equal.
  - eapply (NoDup_map_inj key); eauto.
  - eapply (NoDup_map_inj nid); eauto.
Qed.

Lemma a_find_in l n :
  NoDup (map key l) -> n ∈ l ->
  a_find (key n) (map (fun n => (key n, value n)) l) = Some (value n).
Proof.
  unfold a_find. induction l as [|x l IH]; intros Hn Hin; [inversion Hin|].
  apply NoDup_cons in Hn as [Hx Hn]. cbn. destruct (decide (key x = key n)) as [E|E].
  - apply elem_of_cons in Hin as [->|Hin]; [reflexivity|]. exfalso. apply Hx. rewrite E.
    apply elem_of_map_intro, Hin.
  - apply elem_of_cons in Hin as [->|Hin]; [contradiction|].
    specialize (IH Hn Hin). destruct (list_find _ _) as [[? ?]|]; cbn in *; exact IH.
Qed.

Lemma a_find_notin l k :
  k ∉ map key l -> a_find k (map (fun n => (key n, value n)) l) = None.
Proof.
  unfold a_find. induction l as [|x l IH]; intros Hk; [reflexivity|].
  cbn in Hk. apply not_elem_of_cons in Hk as [Hx Hk]. cbn.
  destruct (decide (key x = k)) as [E|E]; [congruence|].
  specialize (IH Hk). destruct (list_find _ _) as [[? ?]|]; cbn in *; [discriminate|reflexivity].
Qed.

(** What the map lookup at the start of every operation tells. *)
Lemma lookup_cases c k :
  Inv c ->
  match cache_ c !! k with
  | Some i => exists n, n ∈ keys_ c /\ key n = k /\ nid n = i /\
      find_node i (keys_ c) = Some n /\ a_find k (cwalk c) = Some (value n)
  | None => (k ∉ map key (keys_ c)) /\ a_find k (cwalk c) = None
  end.
Proof.
  intros [Hids Hkeys Hmap _ _]. rewrite Hmap. destruct (index (keys_ c) !! k) as [i|] eqn:E.
  - apply index_Some in E as (n & Hn & <- & <-); [|exact Hkeys].
    exists n. split; [exact Hn|]. split; [reflexivity|]. split; [reflexivity|].
    split; [apply find_node_in; assumption|]. apply a_find_in; assumption.
  - apply index_None in E. split; [exact E|]. apply a_find_notin, E.
Qed.

(** Reordering the list keeps the invariant. *)
Lemma Inv_perm c l :
  Inv c -> (keys_ c ≡ₚ l) -> Inv (set_lists (cache_ c) l c).
Proof.
  intros [Hids Hkeys Hmap Hf Hm] Hp. split; cbn.
  - rewrite <- Hp. exact Hids.
  - rewrite <- Hp. exact Hkeys.
  - rewrite Hmap. apply index_perm; assumption.
  - rewrite <- Hp. exact Hf.
  - exact Hm.
Qed.

Lemma wp_splice c n (Q : node -> Cache -> Prop) :
  Inv c -> n ∈ keys_ c ->
  (forall c', Inv c' -> maxSize_ c' = maxSize_ c -> elasticity_ c' = elasticity_ c ->
     cwalk c' = (key n, value n) :: a_remove (key n) (cwalk c) -> Q n c') ->
  wp (splice (nid n)) Q c.
Proof.
  intros Hc Hn HQ. apply wp_bind, wp_gets.
  rewrite find_node_in by (auto; apply Hc). apply wp_bind, wp_modify, wp_ret, HQ; auto.
  - apply Inv_perm; [exact Hc|]. apply (filter_other_perm nid); [apply Hc|exact Hn].
  - cbn. rewrite filter_id_key by (auto; apply Hc). f_equal.
    apply (map_filter_other key (fun n => (key n, value n)) fst). reflexivity.
Qed.

Lemma tryGet_refines c k :
  Inv c ->
  wp (tryGet k) (fun o c' => Inv c' /\ maxSize_ c' = maxSize_ c /\
    elasticity_ c' = elasticity_ c /\
    o = a_find k (cwalk c) /\ cwalk c' = a_touch k (cwalk c)) c.
Proof.
  intros Hc. apply wp_bind, wp_gets. pose proof (lookup_cases c k Hc) as Hk.
  unfold a_touch. destruct (cache_ c !! k) as [i|].
  - destruct Hk as (n & Hn & <- & <- & _ & E). rewrite E.
    apply wp_bind, wp_splice; [exact Hc|exact Hn|]. intros c' H1 H2 H3 H4. apply wp_ret. auto.
  - destruct Hk as [_ E]. rewrite E. apply wp_ret. auto.
Qed.

(** Dropping the last node. *)
Lemma Inv_pop c n l :
  Inv c -> keys_ c = l ++ [n] ->
  Inv (set_lists (delete (key n) (cache_ c)) l c).
Proof.
  intros [Hids Hkeys Hmap Hf Hm] E. rewrite E in *. rewrite map_app in Hids, Hkeys.
  apply NoDup_app in Hids as (Hids & _ & _).
  pose proof Hkeys as (Hk & Hdisj & _)%NoDup_app.
  apply Forall_app in Hf as [Hf _]. split; cbn; try assumption.
  rewrite Hmap. transitivity (delete (key n) (index (n :: l))).
  - f_equal. apply index_perm; [rewrite map_app; exact Hkeys|].
    symmetry. apply Permutation_cons_append.
  - unfold index. cbn. rewrite delete_insert_id; [reflexivity|].
    apply not_elem_of_list_to_map.
    change (key n ∉ map fst (map (fun n => (key n, nid n)) l)). rewrite fst_index.
    intros Hin. apply (Hdisj (key n) Hin). left.
Qed.

Lemma cache_size c : Inv c -> base.size (cache_ c) = length (keys_ c).
Proof. intros Hc. rewrite (inv_map _ Hc). apply index_size, Hc. Qed.

Lemma wp_prune_loop fuel cnt c :
  Inv c -> (length (keys_ c) < fuel)%nat ->
  wp (prune_loop fuel cnt) (fun _ c' => Inv c' /\ maxSize_ c' = maxSize_ c /\
    elasticity_ c' = elasticity_ c /\ keys_ c' = take (Z.to_nat (maxSize_ c)) (keys_ c)) c.
Proof.
  revert cnt c. induction fuel as [|fuel IH]; intros cnt c Hc Hf; [lia|].
  cbn [prune_loop]. apply wp_bind, wp_gets. rewrite cache_size by exact Hc.
  pose proof (inv_max _ Hc) as Hm.
  destruct (Z.ltb_spec (maxSize_ c) (Z.of_nat (length (keys_ c)))) as [Hlt|Hge].
  2: { apply wp_ret. rewrite take_ge by lia. auto. }
  destruct (last (keys_ c)) as [n|] eqn:El.
  2: { apply last_None in El. rewrite El in Hlt. cbn in Hlt. lia. }
  apply last_Some in El as [l E]. apply wp_bind, wp_modify. cbn beta.
  rewrite E, length_app. cbn [length].
  rewrite Nat.add_sub, take_app_length.
  eapply wp_mono; [apply IH; [apply Inv_pop; [exact Hc|exact E]|]|].
  { cbn. rewrite E, length_app in Hf. cbn in Hf. lia. }
  intros _ c' (H1 & H2 & H3 & H4). cbn in H2, H3, H4. split; [exact H1|].
  split; [exact H2|]. split; [exact H3|]. rewrite H4. symmetry.
  rewrite E, length_app in Hlt. cbn in Hlt. apply take_app_le. lia.
Qed.

Lemma wp_prune c :
  Inv c ->
  wp prune (fun _ c' => Inv c' /\ maxSize_ c' = maxSize_ c /\ elasticity_ c' = elasticity_ c /\
    cwalk c' = a_prune (maxSize_ c) (elasticity_ c) (cwalk c)) c.
Proof.
  intros Hc. apply wp_bind, wp_gets. unfold a_prune, cwalk at 2. rewrite length_map.
  rewrite cache_size by exact Hc. destruct (_ || _).
  - apply wp_ret. auto.
  - eapply wp_mono; [apply wp_prune_loop; [exact Hc|lia]|].
    intros _ c' (H1 & H2 & H3 & H4). do 3 (split; [assumption|]).
    unfold cwalk. rewrite H4. symmetry. apply firstn_map.
Qed.

(** Overwriting the value of a node. *)
Definition overwrite (i : nat) (v : V) (x : node) : node :=
  if decide (nid x = i) then {| nid := nid x; key := key x; value := v |} else x.

Lemma nid_overwrite i v x : nid (overwrite i v x) = nid x.
Proof. unfold overwrite. destruct (decide _); reflexivity. Qed.

Lemma key_overwrite i v x : key (overwrite i v x) = key x.
Proof. unfold overwrite. destruct (decide _); reflexivity. Qed.

Lemma Inv_overwrite c i v :
  Inv c -> Inv (set_lists (cache_ c) (map (overwrite i v) (keys_ c)) c).
Proof.
  intros [Hids Hkeys Hmap Hf Hm]. split; cbn; try assumption.
  - rewrite map_map. erewrite map_ext; [exact Hids|apply nid_overwrite].
  - rewrite map_map. erewrite map_ext; [exact Hkeys|apply key_overwrite].
  - rewrite Hmap. unfold index. rewrite map_map. f_equal. apply map_ext.
    intros x. rewrite nid_overwrite, key_overwrite. reflexivity.
  - apply Forall_forall. intros x Hx. rewrite list_elem_of_In, in_map_iff in Hx.
    destruct Hx as (y & <- & Hy). rewrite nid_overwrite. rewrite Forall_forall in Hf.
    apply Hf, list_elem_of_In, Hy.
Qed.

Lemma a_remove_overwrite l n v :
  NoDup (map nid l) -> n ∈ l ->
  a_remove (key n) (map (fun n => (key n, value n)) (map (overwrite (nid n) v) l))
  = a_remove (key n) (map (fun n => (key n, value n)) l).
Proof.
  intros Hids Hn. assert (forall x, x ∈ l -> key x <> key n -> overwrite (nid n) v x = x) as Hx.
  { intros x Hx Hne. unfold overwrite. destruct (decide (nid x = nid n)); [|reflexivity].
    exfalso. apply Hne. f_equal. eapply (NoDup_map_inj nid); eauto. }
  clear Hids Hn. unfold a_remove. induction l as [|x l IH]; [reflexivity|]. cbn [map].
  assert (forall x, x ∈ l -> key x <> key n -> overwrite (nid n) v x = x) as Hl.
  { intros y Hy. apply Hx. right. exact Hy. }
  destruct (decide (key x = key n)) as [E|E].
  - rewrite filter_cons_False by (cbn; rewrite key_overwrite; tauto).
    rewrite filter_cons_False by (cbn; tauto). apply IH, Hl.
  - rewrite Hx by (auto; left). rewrite filter_cons_True by exact E.
    rewrite filter_cons_True by exact E. f_equal. apply IH, Hl.
Qed.

Lemma Inv_emplace c k v :
  Inv c -> k ∉ map key (keys_ c) ->
  Inv {| cache_ := <[k := fresh c]> (cache_ c);
         keys_ := {| nid := fresh c; key := k; value := v |} :: keys_ c;
         maxSize_ := maxSize_ c; elasticity_ := elasticity_ c; fresh := S (fresh c) |}.
Proof.
  intros [Hids Hkeys Hmap Hf Hm] Hk. rewrite Forall_forall in Hf. split; cbn.
  - apply NoDup_cons. split; [|exact Hids]. intros Hin.
    rewrite list_elem_of_In, in_map_iff in Hin. destruct Hin as (y & E & Hy).
    apply list_elem_of_In, Hf in Hy. lia.
  - apply NoDup_cons. split; assumption.
  - rewrite Hmap. reflexivity.
  - constructor; [cbn; lia|]. apply Forall_forall. intros x Hx. specialize (Hf x Hx). lia.
  - exact Hm.
Qed.

Lemma insert_refines c k v :
  Inv c ->
  wp (insert k v) (fun _ c' => Inv c' /\ maxSize_ c' = maxSize_ c /\
    elasticity_ c' = elasticity_ c /\
    cwalk c' = a_insert (maxSize_ c) (elasticity_ c) k v (cwalk c)) c.
Proof.
  intros Hc. apply wp_bind, wp_gets. pose proof (lookup_cases c k Hc) as Hk.
  unfold a_insert. destruct (cache_ c !! k) as [i|] eqn:Ek.
  - destruct Hk as (n & Hn & <- & <- & Hfind & E). rewrite E.
    apply wp_bind, wp_gets. rewrite Hfind. apply wp_bind, wp_modify, wp_bind.
    set (n1 := {| nid := nid n; key := key n; value := v |}).
    change (splice (nid n)) with (splice (nid n1)).
    apply wp_splice; [exact (Inv_overwrite c (nid n) v Hc)| |].
    + cbn. rewrite list_elem_of_In, in_map_iff. exists n. split; [|apply list_elem_of_In, Hn].
      unfold overwrite. destruct (decide _); [reflexivity|contradiction].
    + intros c' H1 H2 H3 H4. apply wp_ret. do 3 (split; [assumption|]). rewrite H4. cbn.
      f_equal. apply a_remove_overwrite; [apply Hc|exact Hn].
  - destruct Hk as [Hnot E]. rewrite E. apply wp_bind, wp_modify, wp_bind.
    eapply wp_mono; [apply wp_prune, Inv_emplace; assumption|].
    intros cnt c' H1. apply wp_ret. exact H1.
Qed.

Lemma remove_refines c k :
  Inv c ->
  wp (remove k) (fun b c' => Inv c' /\ maxSize_ c' = maxSize_ c /\
    elasticity_ c' = elasticity_ c /\
    b = bool_decide (is_Some (a_find k (cwalk c))) /\ cwalk c' = a_remove k (cwalk c)) c.
Proof.
  intros Hc. apply wp_bind, wp_gets. pose proof (lookup_cases c k Hc) as Hk.
  destruct (cache_ c !! k) as [i|] eqn:Ek.
  - destruct Hk as (n & Hn & <- & <- & Hfind & E). rewrite E.
    apply wp_bind, wp_modify, wp_ret.
    pose proof (filter_other_perm nid _ n (inv_ids _ Hc) Hn) as Hp.
    set (l := filter (fun x => nid x <> nid n) (keys_ c)) in *.
    assert (Inv (set_lists (cache_ c) (l ++ [n]) c)) as Hc1.
    { apply Inv_perm; [exact Hc|]. rewrite Hp. apply Permutation_cons_append. }
    split; [exact (Inv_pop _ n l Hc1 eq_refl)|].
    do 2 (split; [reflexivity|]). split.
    + symmetry. apply bool_decide_true. eauto.
    + unfold l. cbn. rewrite filter_id_key by (auto; apply Hc).
      apply (map_filter_other key (fun n => (key n, value n)) fst). reflexivity.
  - destruct Hk as [Hnot E]. rewrite E. apply wp_ret. do 3 (split; [auto|]).
    split; [reflexivity|]. unfold cwalk, a_remove. symmetry. apply (filter_other_absent fst).
    rewrite map_map. exact Hnot.
Qed.

(** ** The whole interface *)

Inductive op :=
  | OInsert (k : K) (v : V)
  | OTryGet (k : K)
  | ORemove (k : K)
  | OContains (k : K)
  | OSize
  | OClear.

Inductive result :=
  | RUnit
  | RVal (o : option V)
  | RBool (b : bool)
  | RSize (n : Z).

Definition run_op (o : op) : M Cache result :=
  match o with
  | OInsert k v => insert k v ;;; ret RUnit
  | OTryGet k => let* o := tryGet k in ret (RVal o)
  | ORemove k => let* b := remove k in ret (RBool b)
  | OContains k => let* b := contains k in ret (RBool b)
  | OSize => let* n := size in ret (RSize n)
  | OClear => clear ;;; ret RUnit
  end.

Definition a_op (m e : Z) (o : op) (l : list (K * V)) : result * list (K * V) :=
  match o with
  | OInsert k v => (RUnit, a_insert m e k v l)
  | OTryGet k => (RVal (a_find k l), a_touch k l)
  | ORemove k => (RBool (bool_decide (is_Some (a_find k l))), a_remove k l)
  | OContains k => (RBool (bool_decide (is_Some (a_find k l))), l)
  | OSize => (RSize (Z.of_nat (length l)), l)
  | OClear => (RUnit, [])
  end.

Lemma run_op_refines c o :
  Inv c ->
  wp (run_op o) (fun r c' => Inv c' /\ maxSize_ c' = maxSize_ c /\
    elasticity_ c' = elasticity_ c /\
    (r, cwalk c') = a_op (maxSize_ c) (elasticity_ c) o (cwalk c)) c.
Proof.
  intros Hc. destruct o; cbn [run_op a_op]; apply wp_bind.
  - eapply wp_mono; [apply insert_refines, Hc|]. intros [] c' (H1 & H2 & H3 & H4).
    apply wp_ret. rewrite H4. auto.
  - eapply wp_mono; [apply tryGet_refines, Hc|]. intros o c' (H1 & H2 & H3 & H4 & H5).
    apply wp_ret. rewrite H4, H5. auto.
  - eapply wp_mono; [apply remove_refines, Hc|]. intros b c' (H1 & H2 & H3 & H4 & H5).
    apply wp_ret. rewrite H4, H5. auto.
  - apply wp_gets, wp_ret. pose proof (lookup_cases c k Hc) as Hk.
    do 3 (split; [auto|]). do 2 f_equal. destruct (cache_ c !! k) as [i|].
    + destruct Hk as (n & _ & _ & _ & _ & E). rewrite E. reflexivity.
    + destruct Hk as [_ E]. rewrite E. reflexivity.
  - apply wp_gets, wp_ret. do 3 (split; [auto|]). unfold cwalk. rewrite length_map.
    rewrite cache_size by exact Hc. reflexivity.
  - apply wp_modify, wp_ret. split; [|auto]. destruct Hc. split; cbn; auto; constructor.
Qed.

Lemma a_remove_length k l : (length (a_remove k l) <= length l)%nat.
Proof. apply length_filter. Qed.

Lemma a_find_remove_length k v l :
  a_find k l = Some v -> (length (a_remove k l) < length l)%nat.
Proof.
  unfold a_find, a_remove. induction l as [|[k' v'] l IH]; [discriminate|].
  destruct (decide (k' = k)) as [->|Hne].
  - intros _. rewrite filter_cons_False by (cbn; tauto).
    pose proof (a_remove_length k l). unfold a_remove in *. cbn [length]. lia.
  - rewrite filter_cons_True by exact Hne. cbn [length]. intros E. cbn in E.
    destruct (decide (k' = k)); [contradiction|].
    destruct (list_find _ l) as [[? ?]|]; cbn in *; [|discriminate].
    specialize (IH E). lia.
Qed.

(** The number of entries the pruning allows. *)
Definition bound (m e : Z) : Z := Z.max m (m + e - 1).

Lemma a_op_bound m e o l :
  0 < m -> 0 <= e -> m + e < 2 ^ 64 ->
  Z.of_nat (length l) <= bound m e -> Z.of_nat (length (snd (a_op m e o l))) <= bound m e.
Proof.
  unfold bound. intros Hm He Hme Hl. destruct o; cbn [a_op snd]; try assumption.
  - unfold a_insert. destruct (a_find k l) as [v'|] eqn:E.
    + apply a_find_remove_length in E. cbn. lia.
    + unfold a_prune. rewrite u64_small by (unfold is_u64; lia).
      destruct (Z.eqb_spec m 0); [lia|]. cbn [orb].
      destruct (Z.ltb_spec (Z.of_nat (length ((k, v) :: l))) (m + e)); [lia|].
      rewrite length_take. lia.
  - unfold a_touch. destruct (a_find k l) as [v'|] eqn:E; [|assumption].
    apply a_find_remove_length in E. cbn. lia.
  - pose proof (a_remove_length k l). lia.
  - cbn. lia.
Qed.

Fixpoint run_ops (os : list op) : M Cache unit :=
  match os with
  | [] => ret tt
  | o :: os' => run_op o ;;; run_ops os'
  end.

Lemma run_ops_bounded os c :
  Inv c -> 0 < maxSize_ c -> 0 <= elasticity_ c -> maxSize_ c + elasticity_ c < 2 ^ 64 ->
  Z.of_nat (length (cwalk c)) <= bound (maxSize_ c) (elasticity_ c) ->
  wp (run_ops os) (fun _ c' => Inv c' /\
    Z.of_nat (base.size (cache_ c')) <= bound (maxSize_ c) (elasticity_ c)) c.
Proof.
  revert c. induction os as [|o os IH]; intros c Hc Hm He Hme Hl.
  - apply wp_ret. split; [exact Hc|]. rewrite cache_size by exact Hc.
    unfold cwalk in Hl. rewrite length_map in Hl. exact Hl.
  - cbn [run_ops]. apply wp_bind. eapply wp_mono; [apply run_op_refines, Hc|].
    intros r c' (H1 & H2 & H3 & H4). rewrite <- H2, <- H3. apply IH; try (rewrite ?H2, ?H3; assumption).
    rewrite H2, H3. apply (f_equal snd) in H4. cbn in H4. rewrite H4.
    apply a_op_bound; assumption.
Qed.

Lemma Inv_new m e : 0 <= m -> Inv (new m e).
Proof. intros Hm. split; cbn; try constructor. exact Hm. Qed.

(** ** Theorems *)

(** C11: The cache refines a list of entries in order of use: every operation, in every
    state that satisfies the invariant, ends without following a dangling iterator,
    keeps the invariant and returns what the list operation returns, and the entries in
    list order become those of the list operation (insertion and successful lookup move
    the key to the front, insertion may cut the tail). *)
Theorem lru_refines c o :
  Inv c ->
  exists r c', run_op o c = Done (r, c') /\ Inv c' /\
    (r, cwalk c') = a_op (maxSize_ c) (elasticity_ c) o (cwalk c).
Proof.
  intros Hc. pose proof (run_op_refines c o Hc) as Hwp.
  apply wp_Done in Hwp as (r & c' & Hrun & H1 & _ & _ & H4). eauto.
Qed.

(** A cache made with a positive size never grows past its hard limit: after any
    sequence of operations it holds at most [max m (m + e - 1)] entries. *)
Theorem lru_bounded m e os :
  0 < m -> 0 <= e -> m + e < 2 ^ 64 ->
  exists c', run_ops os (new m e) = Done (tt, c') /\
    Z.of_nat (base.size (cache_ c')) <= bound m e.
Proof.
  intros Hm He Hme.
  pose proof (run_ops_bounded os (new m e) (Inv_new m e ltac:(lia)) Hm He Hme) as Hwp.
  cbn [new cwalk keys_ map length maxSize_ elasticity_] in Hwp.
  specialize (Hwp ltac:(unfold bound; lia)).
  apply wp_Done in Hwp as ([] & c' & Hrun & _ & Hb). eauto.
Qed.

End Lru.

Lemma lru_refines_witness :
  exists r c', run_op (OInsert 1 10) (new (K:=Z) (V:=Z) 2 1) = Done (r, c') /\ Inv c' /\
    (r, cwalk c') = a_op 2 1 (OInsert 1 10) [].
Proof. apply (lru_refines (new (K:=Z) (V:=Z) 2 1) (OInsert 1 10)). apply Inv_new. lia. Defined.

Lemma lru_bounded_witness :
  exists c', run_ops [OInsert 1 10; OInsert 2 20; OTryGet 1; OInsert 3 30]
               (new (K:=Z) (V:=Z) 2 1) = Done (tt, c') /\
    Z.of_nat (base.size (cache_ c')) <= bound 2 1.
Proof.
  apply (lru_bounded 2 1 [OInsert 1 10; OInsert 2 20; OTryGet 1; OInsert 3 30]); lia.
Defined.

End Lru.
