(* ===== verification/DentryCache.v ===== *)
(** * The client's directory-entry cache ([include/client/dentry_cache.h])

    [DentryCache<DirentryValue>]: an LRU cache keyed by the file name followed by the
    eight bytes of the directory's inode. *)

From Stdlib Require Import ZArith Lia.
From stdpp Require Import base numbers list gmap strings.
From S2P Require Import Prelude LruCache.
Open Scope Z_scope.

Module Dentry.

(** [DirentryValue] *)
Record DirentryValue := { inode : Z }.

Record DentryCache := {
  cache_ : Lru.Cache (K := bytes) (V := DirentryValue);
  cache_miss_cnt : Z
}.

(** [rocksdb::Status::OK()] and [rocksdb::Status::NotFound()] *)
Inductive Status := Ok | NotFound.

(** [DentryCache(capacity)] *)
Definition new (capacity : Z) : DentryCache :=
  {| cache_ := Lru.new capacity (Z.shiftr capacity 2); cache_miss_cnt := 0 |}.

(** [PutFixed64]: appends the object representation of the value. *)
Definition PutFixed64 (dst : bytes) (value : Z) : bytes := dst ++ le_bytes 8 value.

Definition on_cache {A} (c : M Lru.Cache A) : M DentryCache A :=
  fun s => match c (cache_ s) with
           | Done (a, x) => Done (a, {| cache_ := x; cache_miss_cnt := cache_miss_cnt s |})
           | Fault f => Fault f
           end.

Local Open Scope m_scope.

(** [Get]: the out parameter keeps its old value when the key is missing. *)
Definition Get (dir_id : Z) (fname : bytes) (old : DirentryValue)
  : M DentryCache (Status * DirentryValue) :=
  let* o := on_cache (Lru.tryGet (PutFixed64 fname dir_id)) in
  match o with
  | Some v => ret (Ok, v)
  | None => ret (NotFound, old)
  end.

Definition Put (dir_id : Z) (fname : bytes) (v : DirentryValue) : M DentryCache Status :=
  on_cache (Lru.insert (PutFixed64 fname dir_id) v) ;;;
  ret Ok.

Definition cache_miss_cnt_incr : M DentryCache Z :=
  modify (fun s => {| cache_ := cache_ s; cache_miss_cnt := i32 (cache_miss_cnt s + 1) |}) ;;;
  gets cache_miss_cnt.

(** ** Keys *)

Lemma PutFixed64_inj f d f' d' :
  is_u64 d -> is_u64 d' -> PutFixed64 f d = PutFixed64 f' d' -> f = f' /\ d = d'.
Proof.
  unfold PutFixed64. intros Hd Hd' E.
  apply app_inj_2 in E as [-> E]; [|rewrite !length_le_bytes; reflexivity].
  split; [reflexivity|]. apply (f_equal le_value) in E. rewrite !le_value_le_bytes in E.
  unfold is_u64 in *. rewrite !Z.mod_small in E by (simpl; lia). exact E.
Qed.

(** ** Lookups after an insertion *)

Section Find.
Context {K V : Type} `{Countable K}.
Implicit Types (l : list (K * V)) (k : K).

Lemma a_find_cons k v l k' :
  Lru.a_find k' ((k, v) :: l) = if decide (k = k') then Some v else Lru.a_find k' l.
Proof.
  unfold Lru.a_find. cbn. destruct (decide (k = k')); [reflexivity|].
  destruct (list_find _ l) as [[? ?]|]; reflexivity.
Qed.

Lemma a_find_remove k k' l : k <> k' -> Lru.a_find k' (Lru.a_remove k l) = Lru.a_find k' l.
Proof.
  intros Hne. unfold Lru.a_remove. induction l as [|[x v] l IH]; [reflexivity|].
  rewrite a_find_cons. destruct (decide (x = k)) as [->|Hx].
  - rewrite filter_cons_False by (cbn; tauto). rewrite IH.
    destruct (decide (k = k')); [contradiction|reflexivity].
  - rewrite filter_cons_True by exact Hx. rewrite a_find_cons, IH. reflexivity.
Qed.

Lemma a_find_take k n l :
  Lru.a_find k (take n l) = None \/ Lru.a_find k (take n l) = Lru.a_find k l.
Proof.
  revert n. induction l as [|[x v] l IH]; intros [|n]; cbn [take]; auto.
  rewrite !a_find_cons. destruct (decide (x = k)); [auto|apply IH].
Qed.

Lemma a_find_insert_same m e k v l :
  0 <= m -> Lru.a_find k (Lru.a_insert m e k v l) = Some v.
Proof.
  intros Hm. unfold Lru.a_insert. destruct (Lru.a_find k l).
  - rewrite a_find_cons. destruct (decide (k = k)); [reflexivity|contradiction].
  - unfold Lru.a_prune. destruct (Z.eqb_spec m 0) as [|Hm0]; cbn [orb].
    + rewrite a_find_cons. destruct (decide (k = k)); [reflexivity|contradiction].
    + destruct (_ <? _).
      * rewrite a_find_cons. destruct (decide (k = k)); [reflexivity|contradiction].
      * destruct (Z.to_nat m) eqn:E; [lia|]. cbn [take]. rewrite a_find_cons.
        destruct (decide (k = k)); [reflexivity|contradiction].
Qed.

Lemma a_find_insert_other m e k v k' l :
  k <> k' ->
  Lru.a_find k' (Lru.a_insert m e k v l) = None \/
  Lru.a_find k' (Lru.a_insert m e k v l) = Lru.a_find k' l.
Proof.
  intros Hne. assert (Lru.a_find k' ((k, v) :: l) = Lru.a_find k' l) as E.
  { rewrite a_find_cons. destruct (decide (k = k')); [contradiction|reflexivity]. }
  unfold Lru.a_insert. destruct (Lru.a_find k l).
  - right. rewrite a_find_cons. destruct (decide (k = k')); [contradiction|].
    apply a_find_remove, Hne.
  - unfold Lru.a_prune. destruct (_ || _); [right; exact E|].
    rewrite <- E. apply a_find_take.
Qed.

End Find.

Lemma wp_on_cache {A} (c : M Lru.Cache A) (Q : A -> DentryCache -> Prop) s :
  wp c (fun a x => Q a {| cache_ := x; cache_miss_cnt := cache_miss_cnt s |}) (cache_ s) ->
  wp (on_cache c) Q s.
Proof. unfold wp, on_cache. destruct (c (cache_ s)) as [[a x]|f]; auto. Qed.

(** What [Get] answers in a state. *)
Definition cached (s : DentryCache) (d : Z) (f : bytes) : option DirentryValue :=
  Lru.a_find (PutFixed64 f d) (Lru.cwalk (cache_ s)).

Lemma a_find_touch {K V} `{Countable K} (k k' : K) (l : list (K * V)) :
  Lru.a_find k' (Lru.a_touch k l) = Lru.a_find k' l.
Proof.
  unfold Lru.a_touch. destruct (Lru.a_find k l) as [v|] eqn:E; [|reflexivity].
  rewrite a_find_cons. destruct (decide (k = k')) as [<-|Hne]; [congruence|].
  apply a_find_remove, Hne.
Qed.

Lemma wp_Get s d f old (Q : Status * DirentryValue -> DentryCache -> Prop) :
  Lru.Inv (cache_ s) ->
  (forall s', Lru.Inv (cache_ s') -> (forall d f, cached s' d f = cached s d f) ->
     Q (match cached s d f with Some v => (Ok, v) | None => (NotFound, old) end) s') ->
  wp (Get d f old) Q s.
Proof.
  intros Hs HQ. apply wp_bind, wp_on_cache. eapply wp_mono; [apply Lru.tryGet_refines, Hs|].
  intros o x (H1 & _ & _ & -> & H5).
  specialize (HQ {| cache_ := x; cache_miss_cnt := cache_miss_cnt s |} H1).
  unfold cached in HQ. cbn [cache_] in HQ.
  assert (forall d f, Lru.a_find (PutFixed64 f d) (Lru.cwalk x)
    = Lru.a_find (PutFixed64 f d) (Lru.cwalk (cache_ s))) as Hsame.
  { intros d' f'. rewrite H5. apply a_find_touch. }
  specialize (HQ Hsame). destruct (Lru.a_find _ _); apply wp_ret, HQ.
Qed.

Lemma wp_Put s d f v (Q : Status -> DentryCache -> Prop) :
  Lru.Inv (cache_ s) -> is_u64 d ->
  (forall s', Lru.Inv (cache_ s') ->
     (forall d' f' w, is_u64 d' -> cached s' d' f' = Some w ->
        d' = d /\ f' = f /\ w = v \/ cached s d' f' = Some w) -> Q Ok s') ->
  wp (Put d f v) Q s.
Proof.
  intros Hs Hd HQ. apply wp_bind, wp_on_cache.
  eapply wp_mono; [apply Lru.insert_refines, Hs|]. intros [] x (H1 & _ & _ & H4).
  apply wp_ret, HQ; [exact H1|]. intros d' f' w Hd'. unfold cached. cbn [cache_]. rewrite H4.
  destruct (decide (PutFixed64 f d = PutFixed64 f' d')) as [E|E].
  - apply PutFixed64_inj in E as [-> ->]; [|assumption..].
    rewrite a_find_insert_same by apply Hs. intros [= ->]. auto.
  - destruct (a_find_insert_other (Lru.maxSize_ (cache_ s)) (Lru.elasticity_ (cache_ s))
                _ v _ (Lru.cwalk (cache_ s)) E) as [-> | ->]; [discriminate|auto].
Qed.

(** After [Put] a lookup of the same directory and name finds the value just stored,
    and a lookup of any other pair finds what it would have found before or nothing
    (evicted): different pairs never share a key. *)
Theorem dentry_put_get s d f v d' f' old :
  Lru.Inv (cache_ s) -> is_u64 d -> is_u64 d' ->
  exists s1 s2 r,
    Put d f v s = Done (Ok, s1) /\ Lru.Inv (cache_ s1) /\
    Get d' f' old s1 = Done (r, s2) /\ Lru.Inv (cache_ s2) /\
    ((d, f) = (d', f') -> r = (Ok, v)) /\
    ((d, f) <> (d', f') ->
     r = (NotFound, old) \/
     exists w, cached s d' f' = Some w /\ r = (Ok, w)).
Proof.
  intros Hs Hd Hd'.
  pose proof (Lru.insert_refines (cache_ s) (PutFixed64 f d) v Hs) as Hput.
  apply wp_Done in Hput as ([] & x & Hput & H1 & _ & _ & H4).
  set (s1 := {| cache_ := x; cache_miss_cnt := cache_miss_cnt s |}).
  assert (wp (Get d' f' old) (fun r s2 => Lru.Inv (cache_ s2) /\
    r = match cached s1 d' f' with Some v => (Ok, v) | None => (NotFound, old) end) s1) as Hget.
  { apply wp_Get; [exact H1|]. auto. }
  apply wp_Done in Hget as (r & s2 & Hget & H2 & Hr).
  exists s1, s2, r. split.
  { unfold Put, bind, on_cache. rewrite Hput. reflexivity. }
  do 3 (split; [assumption|]). unfold cached, s1 in Hr. cbn in Hr. rewrite H4 in Hr. split.
  - intros [= <- <-]. rewrite a_find_insert_same in Hr by apply Hs. exact Hr.
  - intros Hne. assert (PutFixed64 f d <> PutFixed64 f' d') as Hk.
    { intros E. apply PutFixed64_inj in E as [-> ->]; auto. }
    destruct (a_find_insert_other (Lru.maxSize_ (cache_ s)) (Lru.elasticity_ (cache_ s))
                (PutFixed64 f d) v (PutFixed64 f' d') (Lru.cwalk (cache_ s)) Hk) as [E|E];
      rewrite E in Hr; [left; exact Hr|].
    unfold cached. destruct (Lru.a_find (PutFixed64 f' d') _) as [w|]; eauto.
Qed.

Lemma dentry_put_get_witness :
  exists s1 s2 r,
    Put 1 (text "a"%string) {| inode := 7 |} (new 4) = Done (Ok, s1) /\ Lru.Inv (cache_ s1) /\
    Get 1 (text "a"%string) {| inode := 0 |} s1 = Done (r, s2) /\ Lru.Inv (cache_ s2) /\
    ((1, text "a"%string) = (1, text "a"%string) -> r = (Ok, {| inode := 7 |})) /\
    ((1, text "a"%string) <> (1, text "a"%string) ->
     r = (NotFound, {| inode := 0 |}) \/
     exists w, cached (new 4) 1 (text "a"%string) = Some w /\ r = (Ok, w)).
Proof.
  apply (dentry_put_get (new 4) 1 (text "a"%string) {| inode := 7 |} 1 (text "a"%string)
           {| inode := 0 |}).
  - apply Lru.Inv_new. lia.
  - unfold is_u64. lia.
  - unfold is_u64. lia.
Defined.

End Dentry.
