(* ===== verification/OpenFileMap.v ===== *)
(** * Open files of the client ([open_file_map.cc], [open_dir.cc] and their headers)

    [OpenFile] objects are shared by the descriptors that [dup] and [dup2] make, so
    they live in a store of objects and the descriptor table [files_] holds pointers
    into it.  [OpenDir] is an [OpenFile] with the entries [getdents] hands out. *)

From Stdlib Require Import ZArith Lia.
From stdpp Require Import base numbers list gmap.
From S2P Require Import Prelude Types.
Open Scope Z_scope.

Module Files.

(** [OpenFile_flags] *)
Inductive OpenFile_flags :=
  | append
  | creat
  | trunc
  | rdonly
  | wronly
  | rdwr
  | cloexec.

Definition to_underlying (f : OpenFile_flags) : nat :=
  match f with
  | append => 0 | creat => 1 | trunc => 2 | rdonly => 3 | wronly => 4 | rdwr => 5
  | cloexec => 6
  end.

Inductive FileType := regular | directory.

#[export] Instance FileType_eq_dec : EqDecision FileType.
Proof. solve_decision. Defined.

(** [DirEntry] *)
Record DirEntry := { name_ : bytes; dtype_ : FileType; dinode_ : Z }.

(** [OpenFile]; [entries] is the vector of an [OpenDir]. *)
Record OpenFile := {
  type_ : FileType;
  path_ : bytes;
  inode_ : Z;
  flags_ : list bool;
  pos_ : Z;
  pinode_ : Z;
  fname_ : bytes;
  entries : list DirEntry
}.

(** Linux values of the open flags. *)
Definition O_RDONLY : Z := 0.
Definition O_WRONLY : Z := 1.
Definition O_RDWR : Z := 2.
Definition O_CREAT : Z := 64.
Definition O_TRUNC : Z := 512.
Definition O_APPEND : Z := 1024.

Definition has_flag (flags f : Z) : bool := negb (Z.land flags f =? 0).

(** The constructor of [OpenFile]. *)
Definition new_OpenFile (path : bytes) (flags pinode : Z) (fname : bytes) (inode : Z)
    (type : FileType) : OpenFile :=
  {| type_ := type; path_ := path; inode_ := inode;
     flags_ := [has_flag flags O_APPEND; has_flag flags O_CREAT; has_flag flags O_TRUNC;
                has_flag flags O_RDONLY; has_flag flags O_WRONLY; has_flag flags O_RDWR;
                false];
     pos_ := 0; pinode_ := pinode; fname_ := fname; entries := [] |}.

(** The constructor of [OpenDir]. *)
Definition new_OpenDir (path : bytes) (pinode : Z) (fname : bytes) (inode : Z) : OpenFile :=
  new_OpenFile path 0 pinode fname inode directory.

Definition get_flag (f : OpenFile_flags) (o : OpenFile) : bool :=
  nth (to_underlying f) (flags_ o) false.

Definition set_flag (f : OpenFile_flags) (v : bool) (o : OpenFile) : OpenFile :=
  {| type_ := type_ o; path_ := path_ o; inode_ := inode_ o;
     flags_ := <[to_underlying f := v]> (flags_ o);
     pos_ := pos_ o; pinode_ := pinode_ o; fname_ := fname_ o; entries := entries o |}.

Definition set_pos (p : Z) (o : OpenFile) : OpenFile :=
  {| type_ := type_ o; path_ := path_ o; inode_ := inode_ o; flags_ := flags_ o;
     pos_ := p; pinode_ := pinode_ o; fname_ := fname_ o; entries := entries o |}.

Definition set_path (p : bytes) (o : OpenFile) : OpenFile :=
  {| type_ := type_ o; path_ := p; inode_ := inode_ o; flags_ := flags_ o;
     pos_ := pos_ o; pinode_ := pinode_ o; fname_ := fname_ o; entries := entries o |}.

Definition set_entries (es : list DirEntry) (o : OpenFile) : OpenFile :=
  {| type_ := type_ o; path_ := path_ o; inode_ := inode_ o; flags_ := flags_ o;
     pos_ := pos_ o; pinode_ := pinode_ o; fname_ := fname_ o; entries := es |}.

(** [OpenDir::add], [size], [getdent] (which throws), [clearEntries]. *)
Definition dir_add (name : bytes) (type : FileType) (inode : Z) (o : OpenFile) : OpenFile :=
  set_entries (entries o ++ [{| name_ := name; dtype_ := type; dinode_ := inode |}]) o.

Definition dir_size (o : OpenFile) : Z := Z.of_nat (length (entries o)).

Definition getdent {S} (pos : Z) (o : OpenFile) : M S DirEntry :=
  match entries o !! Z.to_nat (u32 pos) with
  | Some e => ret e
  | None => raise Thrown
  end.

Definition clearEntries (o : OpenFile) : OpenFile := set_entries [] o.

(** ** The descriptor table *)

Definition int_max : Z := 2147483647.

Record OpenFileMap := {
  heap : gmap nat OpenFile;
  brk : nat;
  files_ : gmap Z nat;
  fd_idx : Z;
  fd_validation_needed : bool
}.

Definition new_OpenFileMap : OpenFileMap :=
  {| heap := ∅; brk := 0; files_ := ∅; fd_idx := START_FD; fd_validation_needed := false |}.

Definition set_files (fs : gmap Z nat) (s : OpenFileMap) : OpenFileMap :=
  {| heap := heap s; brk := brk s; files_ := fs; fd_idx := fd_idx s;
     fd_validation_needed := fd_validation_needed s |}.

Definition set_fd (n : Z) (v : bool) (s : OpenFileMap) : OpenFileMap :=
  {| heap := heap s; brk := brk s; files_ := files_ s; fd_idx := n;
     fd_validation_needed := v |}.

(** [std::make_shared<OpenFile>(...)]: a new object. *)
Definition alloc (o : OpenFile) : M OpenFileMap nat :=
  fun s => Done (brk s, {| heap := <[brk s := o]> (heap s); brk := S (brk s);
                           files_ := files_ s; fd_idx := fd_idx s;
                           fd_validation_needed := fd_validation_needed s |}).

(** An access through a pointer. *)
Definition deref (p : nat) : M OpenFileMap OpenFile :=
  fun s => match heap s !! p with
           | Some o => Done (o, s)
           | None => Fault NullDeref
           end.

Definition update (p : nat) (f : OpenFile -> OpenFile) : M OpenFileMap unit :=
  modify (fun s => {| heap := alter f p (heap s); brk := brk s; files_ := files_ s;
                      fd_idx := fd_idx s;
                      fd_validation_needed := fd_validation_needed s |}).

Local Open Scope m_scope.

(** [get]: [None] is the null pointer. *)
Definition get (fd : Z) : M OpenFileMap (option nat) := gets (fun s => files_ s !! fd).

Definition get_dir (dirfd : Z) : M OpenFileMap (option nat) :=
  let* f := get dirfd in
  match f with
  | None => ret None
  | Some p =>
      let* o := deref p in
      if bool_decide (type_ o = directory) then ret (Some p) else ret None
  end.

Definition exist (fd : Z) : M OpenFileMap bool :=
  gets (fun s => bool_decide (is_Some (files_ s !! fd))).

Definition generate_fd_idx : M OpenFileMap Z :=
  let* n := gets fd_idx in
  (if n =? int_max then modify (set_fd START_FD true) else ret tt) ;;;
  let* n := gets fd_idx in
  modify (fun s => set_fd (n + 1) (fd_validation_needed s) s) ;;;
  ret n.

Definition get_fd_idx : M OpenFileMap Z := gets fd_idx.

(** [while (exist(fd)) fd = generate_fd_idx();] *)
Fixpoint regenerate (fuel : nat) (fd : Z) : M OpenFileMap Z :=
  match fuel with
  | O => raise OutOfFuel
  | S fuel' =>
      let* b := exist fd in
      if b then let* fd := generate_fd_idx in regenerate fuel' fd else ret fd
  end.

Definition safe_generate_fd_idx_ : M OpenFileMap Z :=
  let* fd := generate_fd_idx in
  let* s := gets (fun s => s) in
  if fd_validation_needed s then regenerate (S (size (files_ s))) fd else ret fd.

(** [files_.insert(make_pair(fd, p))] keeps an existing entry. *)
Definition files_insert (fd : Z) (p : nat) : M OpenFileMap unit :=
  modify (fun s => match files_ s !! fd with
                   | Some _ => s
                   | None => set_files (<[fd := p]> (files_ s)) s
                   end).

Definition add (p : nat) : M OpenFileMap Z :=
  let* fd := safe_generate_fd_idx_ in
  files_insert fd p ;;;
  ret fd.

Definition remove (fd : Z) : M OpenFileMap bool :=
  let* b := exist fd in
  if b then
    modify (fun s => set_files (delete fd (files_ s)) s) ;;;
    modify (fun s => if fd_validation_needed s && bool_decide (files_ s = ∅)
                     then set_fd (fd_idx s) false s else s) ;;;
    ret true
  else ret false.

(** [errno] is the second component of a failing result. *)
Definition EBADF : Z := 9.

Definition dup (oldfd : Z) : M OpenFileMap (Z * Z) :=
  let* f := get oldfd in
  match f with
  | None => ret (-1, EBADF)
  | Some p =>
      let* newfd := safe_generate_fd_idx_ in
      files_insert newfd p ;;;
      ret (newfd, 0)
  end.

Definition dup2 (oldfd newfd : Z) : M OpenFileMap (Z * Z) :=
  let* f := get oldfd in
  match f with
  | None => ret (-1, EBADF)
  | Some p =>
      if oldfd =? newfd then ret (newfd, 0)
      else
        let* b := exist newfd in
        (if b then remove newfd ;;; ret tt else ret tt) ;;;
        let* n := get_fd_idx in
        when_ ((n <? newfd) && negb (newfd =? 0) && negb (newfd =? 1) && negb (newfd =? 2))
          (modify (fun s => set_fd (fd_idx s) true s)) ;;;
        files_insert newfd p ;;;
        ret (newfd, 0)
  end.

(** ** The invariant *)

(** The counter is in range; unless descriptors are validated, none at or above it is
    in use. *)
Record Inv (s : OpenFileMap) : Prop := {
  inv_idx : START_FD <= fd_idx s <= int_max;
  inv_unused : fd_validation_needed s = false ->
    forall fd p, files_ s !! fd = Some p -> ~ (fd_idx s <= fd < int_max)
}.

(** ** Fresh descriptors *)

(** The number of descriptor values. *)
Definition span : Z := int_max - START_FD.

(** The descriptor generated [k] rounds after [fd]. *)
Definition cyc (fd k : Z) : Z := START_FD + (fd - START_FD + k) mod span.

Lemma cyc_range fd k : START_FD <= cyc fd k < int_max.
Proof.
  unfold cyc. pose proof (Z.mod_pos_bound (fd - START_FD + k) span ltac:(reflexivity)).
  unfold span in *. lia.
Qed.

Lemma cyc_0 fd : START_FD <= fd < int_max -> cyc fd 0 = fd.
Proof. intros H. unfold cyc. rewrite Z.mod_small; unfold span; lia. Qed.

Lemma cyc_cyc fd j k : cyc (cyc fd j) k = cyc fd (j + k).
Proof.
  unfold cyc. f_equal. replace (START_FD + (fd - START_FD + j) mod span - START_FD + k)
    with ((fd - START_FD + j) mod span + k) by lia.
  rewrite Zplus_mod_idemp_l. f_equal. lia.
Qed.

Lemma cyc_inj fd j k : 0 <= j < span -> 0 <= k < span -> cyc fd j = cyc fd k -> j = k.
Proof.
  intros Hj Hk E. unfold cyc in E.
  assert ((fd - START_FD + j) mod span = (fd - START_FD + k) mod span) as E' by lia.
  apply Z.cong_iff_0 in E'.
  replace (fd - START_FD + j - (fd - START_FD + k)) with (j - k) in E' by lia.
  destruct (Z.le_gt_cases k j).
  - rewrite Z.mod_small in E' by lia. lia.
  - replace (j - k) with (j - k + span + (-1) * span) in E' by lia.
    rewrite Z.mod_add, Z.mod_small in E' by (unfold span in *; lia). lia.
Qed.

Lemma wp_generate s (Q : Z -> OpenFileMap -> Prop) :
  START_FD <= fd_idx s <= int_max ->
  Q (cyc (fd_idx s) 0)
    (set_fd (cyc (fd_idx s) 0 + 1) (fd_validation_needed s || (fd_idx s =? int_max)) s) ->
  wp generate_fd_idx Q s.
Proof.
  intros Hi HQ. apply wp_bind, wp_gets. destruct (Z.eqb_spec (fd_idx s) int_max) as [E|E].
  - apply wp_bind, wp_modify, wp_bind, wp_gets, wp_bind, wp_modify, wp_ret. cbn.
    rewrite E in HQ. change (cyc int_max 0) with START_FD in HQ.
    rewrite orb_true_r in HQ. exact HQ.
  - apply wp_bind, wp_ret, wp_bind, wp_gets, wp_bind, wp_modify, wp_ret.
    rewrite cyc_0, orb_false_r in HQ by lia. exact HQ.
Qed.

Lemma wp_regenerate fuel fd s (Q : Z -> OpenFileMap -> Prop) :
  START_FD <= fd < int_max -> fd_idx s = fd + 1 -> fd_validation_needed s = true ->
  (exists m, 0 <= m < Z.of_nat fuel /\ files_ s !! cyc fd m = None) ->
  (forall r, START_FD <= r < int_max -> files_ s !! r = None -> Q r (set_fd (r + 1) true s)) ->
  wp (regenerate fuel fd) Q s.
Proof.
  revert fd s. induction fuel as [|fuel IH]; intros fd s Hfd Hidx Hval (m & Hm & Hfree) HQ; [lia|].
  cbn [regenerate]. apply wp_bind, wp_gets. destruct (files_ s !! fd) as [p|] eqn:E.
  - rewrite bool_decide_true by eauto. apply wp_bind, wp_generate; [rewrite Hidx; lia|].
    rewrite Hidx, Hval. cbn [orb].
    assert (cyc (fd + 1) 0 = cyc fd 1) as ->.
    { unfold cyc. do 2 f_equal. lia. }
    apply IH; cbn; auto using cyc_range.
    exists (m - 1). rewrite cyc_cyc. replace (1 + (m - 1)) with m by lia.
    split; [|exact Hfree]. destruct (Z.eq_dec m 0) as [->|]; [|lia].
    rewrite cyc_0 in Hfree by exact Hfd. congruence.
  - rewrite bool_decide_false by (intros [? ?]; congruence). apply wp_ret.
    specialize (HQ fd Hfd E). rewrite <- Hidx, <- Hval in HQ.
    replace (set_fd (fd_idx s) (fd_validation_needed s) s) with s in HQ by (destruct s; reflexivity).
    exact HQ.
Qed.

(** A fresh descriptor is always found while fewer than [span] files are open. *)
Lemma wp_safe_generate s (Q : Z -> OpenFileMap -> Prop) :
  Inv s -> Z.of_nat (size (files_ s)) < span ->
  (forall fd v, START_FD <= fd < int_max -> files_ s !! fd = None ->
     (v = false -> fd = fd_idx s /\ fd_validation_needed s = false) ->
     Q fd (set_fd (fd + 1) v s)) ->
  wp safe_generate_fd_idx_ Q s.
Proof.
  intros [Hidx Hun] Hsize HQ. apply wp_bind, wp_generate; [exact Hidx|]. apply wp_bind, wp_gets.
  set (fd := cyc (fd_idx s) 0). cbn [set_fd fd_validation_needed files_].
  assert (START_FD <= fd < int_max) as Hfd by apply cyc_range.
  destruct (fd_validation_needed s || (fd_idx s =? int_max)) eqn:E.
  - apply wp_regenerate; auto; cbn.
    + destruct (free_key (files_ s)
        (map (fun k => cyc fd (Z.of_nat k)) (seq 0 (S (size (files_ s)))))) as (k & Hk & Hfree).
      * apply NoDup_fmap_2_strong; [|apply NoDup_seq].
        intros a b Ha Hb Heq. apply elem_of_seq in Ha, Hb.
        apply Nat2Z.inj. eapply cyc_inj; [..|exact Heq]; lia.
      * rewrite length_map, length_seq. lia.
      * rewrite list_elem_of_In, in_map_iff in Hk. destruct Hk as (i & <- & Hi).
        apply in_seq in Hi. exists (Z.of_nat i). split; [lia|exact Hfree].
    + intros r Hr Hfree. apply HQ; [exact Hr|exact Hfree|discriminate].
  - apply orb_false_iff in E as [Hv Hm%Z.eqb_neq]. apply wp_ret.
    assert (fd = fd_idx s) as Efd by (apply cyc_0; lia).
    apply HQ; auto. destruct (files_ s !! fd) as [p|] eqn:Ef; [|reflexivity].
    exfalso. apply (Hun Hv fd p Ef). lia.
Qed.

Lemma Inv_fresh s fd v p :
  Inv s -> START_FD <= fd < int_max ->
  (v = false -> fd = fd_idx s /\ fd_validation_needed s = false) ->
  Inv (set_files (<[fd := p]> (files_ s)) (set_fd (fd + 1) v s)).
Proof.
  intros [Hidx Hun] Hfd Hv. split; cbn; [lia|]. intros Hf. destruct (Hv Hf) as [-> Hn].
  intros fd' p'. rewrite lookup_insert_Some. intros [[<- _]|[_ E]] Hr; [lia|].
  apply (Hun Hn fd' p' E). lia.
Qed.

Lemma wp_fresh_insert s p (Q : Z -> OpenFileMap -> Prop) :
  Inv s -> Z.of_nat (size (files_ s)) < span ->
  (forall fd s', START_FD <= fd < int_max -> files_ s !! fd = None ->
     files_ s' = <[fd := p]> (files_ s) -> heap s' = heap s -> Inv s' -> Q fd s') ->
  wp (bind safe_generate_fd_idx_ (fun fd => bind (files_insert fd p) (fun _ => ret fd))) Q s.
Proof.
  intros Hs Hsize HQ. apply wp_bind, wp_safe_generate; [assumption..|].
  intros fd v Hfd Hfree Hv. apply wp_bind, wp_modify, wp_ret. cbn. rewrite Hfree.
  apply HQ; auto. apply Inv_fresh; assumption.
Qed.

Lemma wp_remove s fd (Q : bool -> OpenFileMap -> Prop) :
  Inv s ->
  (forall s', Inv s' -> files_ s' = delete fd (files_ s) -> heap s' = heap s ->
     fd_idx s' = fd_idx s -> Q (bool_decide (is_Some (files_ s !! fd))) s') ->
  wp (remove fd) Q s.
Proof.
  intros Hs HQ. apply wp_bind, wp_gets. destruct (files_ s !! fd) as [p|] eqn:E.
  - rewrite bool_decide_true in * by eauto. apply wp_bind, wp_modify, wp_bind, wp_modify, wp_ret.
    destruct Hs as [Hidx Hun]. cbn. destruct (fd_validation_needed s && _) eqn:Ev.
    + apply andb_true_iff in Ev as [_ He%bool_decide_eq_true].
      apply HQ; auto. split; cbn; [exact Hidx|]. intros _ fd' p'. rewrite He, lookup_empty.
      discriminate.
    + apply HQ; auto. split; cbn; [exact Hidx|]. intros Hv fd' p'.
      rewrite lookup_delete_Some. intros [_ H]. apply (Hun Hv fd' p' H).
  - rewrite bool_decide_false in * by (intros [? ?]; congruence). apply wp_ret, HQ; auto.
    rewrite delete_id by exact E. reflexivity.
Qed.

(** ** The operations on the table *)

Inductive op :=
  | OAdd (p : nat)
  | ORemove (fd : Z)
  | ODup (oldfd : Z)
  | ODup2 (oldfd newfd : Z).

Definition run_op (o : op) : M OpenFileMap unit :=
  match o with
  | OAdd p => add p ;;; ret tt
  | ORemove fd => remove fd ;;; ret tt
  | ODup fd => dup fd ;;; ret tt
  | ODup2 a b => dup2 a b ;;; ret tt
  end.

(** The case the guard of [dup2] misses: the requested descriptor is the next one to
    be handed out. *)
Definition takes_next (s : OpenFileMap) (o : op) : Prop :=
  match o with
  | ODup2 _ newfd => newfd = fd_idx s
  | _ => False
  end.

Lemma dup2_keeps s a b :
  Inv s -> b <> fd_idx s -> wp (dup2 a b) (fun _ s' => Inv s') s.
Proof.
  intros Hs Hne. apply wp_bind, wp_gets. destruct (files_ s !! a) as [p|]; [|apply wp_ret, Hs].
  destruct (a =? b); [apply wp_ret, Hs|]. apply wp_bind, wp_gets, wp_bind.
  assert (forall s1, Inv s1 -> fd_idx s1 = fd_idx s -> files_ s1 !! b = None ->
    wp (bind get_fd_idx (fun n => bind (when_ ((n <? b) && negb (b =? 0) && negb (b =? 1) && negb (b =? 2))
          (modify (fun s => set_fd (fd_idx s) true s)))
        (fun _ => bind (files_insert b p) (fun _ => ret (b, 0)))))
      (fun _ s' => Inv s') s1) as Hrest.
  { intros s1 [Hidx Hun] Ei Hfree. apply wp_bind, wp_gets, wp_bind, wp_when; intros Hc.
    - apply wp_modify, wp_bind, wp_modify, wp_ret. cbn. rewrite Hfree. split; cbn; [exact Hidx|].
      discriminate.
    - apply wp_bind, wp_modify, wp_ret. rewrite Hfree. split; cbn; [exact Hidx|].
      intros Hv fd' p'. rewrite lookup_insert_Some. intros [[<- _]|[_ H]]; [|apply (Hun Hv _ _ H)].
      intros Hr. rewrite !andb_false_iff, !negb_false_iff, Z.ltb_ge, !Z.eqb_eq in Hc.
      unfold START_FD in Hidx. lia. }
  destruct (bool_decide (is_Some (files_ s !! b))) eqn:Eb.
  - apply wp_bind, wp_remove; [exact Hs|]. intros s1 H1 Hf _ Hi. apply wp_ret, Hrest; auto.
    rewrite Hf. apply lookup_delete_eq.
  - apply wp_ret, Hrest; auto. apply bool_decide_eq_false in Eb.
    destruct (files_ s !! b); [exfalso; eauto|reflexivity].
Qed.

(** ** Theorems *)

(** C31: On a table that satisfies the invariant [Inv] (every operation keeps it except a [dup2] onto
    the descriptor that is handed out next, after which [add] does reuse a descriptor,
    [dup2_next_loses_file]), adding an open file returns a descriptor that was not in use,
    bound to that file, and changes no other descriptor, as long as fewer than [2^31 - 10001]
    are open; the search for a free one ends even after the counter has wrapped. *)
Theorem add_returns_fresh s p :
  Inv s -> Z.of_nat (size (files_ s)) < span ->
  exists fd s', add p s = Done (fd, s') /\ START_FD <= fd < int_max /\
    files_ s !! fd = None /\ files_ s' = <[fd := p]> (files_ s) /\ heap s' = heap s /\
    Inv s'.
Proof.
  intros Hs Hsize.
  assert (wp (add p) (fun fd s' => START_FD <= fd < int_max /\ files_ s !! fd = None /\
    files_ s' = <[fd := p]> (files_ s) /\ heap s' = heap s /\ Inv s') s) as Hwp.
  { apply wp_fresh_insert; auto. }
  apply wp_Done in Hwp as (fd & s' & Hrun & H). eauto.
Qed.

(** C29: Every operation on the descriptor table ends and keeps the table's invariant,
    with one exception: [dup2] onto the descriptor that would be handed out next. *)
Theorem table_invariant s o :
  Inv s -> Z.of_nat (size (files_ s)) < span -> ~ takes_next s o ->
  exists s', run_op o s = Done (tt, s') /\ Inv s'.
Proof.
  intros Hs Hsize Hno.
  assert (wp (run_op o) (fun _ s' => Inv s') s) as Hwp.
  { destruct o; cbn [run_op takes_next] in *; apply wp_bind.
    - apply wp_fresh_insert; auto.
    - apply wp_remove; auto.
    - apply wp_bind, wp_gets. destruct (files_ s !! oldfd) as [p|]; [|apply wp_ret, wp_ret, Hs].
      apply wp_bind, wp_safe_generate; [assumption..|]. intros fd v Hfd Hfree Hv.
      apply wp_bind, wp_modify, wp_ret, wp_ret. cbn. rewrite Hfree.
      apply Inv_fresh; assumption.
    - eapply wp_mono; [apply dup2_keeps; assumption|]. intros r s' H. apply wp_ret, H. }
  apply wp_Done in Hwp as ([] & s' & Hrun & H). eauto.
Qed.

(** A duplicated descriptor shares the open file with the original: the new
    descriptor is different, and whatever is written to the object through one of them
    (such as the file position) is read through the other. *)
Theorem dup_shares s fd p o f :
  Inv s -> Z.of_nat (size (files_ s)) < span ->
  files_ s !! fd = Some p -> heap s !! p = Some o ->
  exists newfd s1 s2,
    dup fd s = Done ((newfd, 0), s1) /\ newfd <> fd /\
    get newfd s1 = Done (Some p, s1) /\ get fd s1 = Done (Some p, s1) /\
    update p f s1 = Done (tt, s2) /\ deref p s2 = Done (f o, s2).
Proof.
  intros Hs Hsize Hf Ho.
  assert (wp (dup fd) (fun r s1 => exists newfd, r = (newfd, 0) /\ newfd <> fd /\
    files_ s1 !! newfd = Some p /\ files_ s1 !! fd = Some p /\ heap s1 = heap s) s) as Hwp.
  { apply wp_bind, wp_gets. rewrite Hf. apply wp_bind, wp_safe_generate; [assumption..|].
    intros nfd v Hfd Hfree Hv. apply wp_bind, wp_modify, wp_ret. cbn. rewrite Hfree.
    exists nfd. assert (nfd <> fd) by congruence. cbn.
    rewrite lookup_insert_eq, lookup_insert_ne by congruence. auto. }
  apply wp_Done in Hwp as (r & s1 & Hrun & nfd & -> & Hne & H1 & H2 & H3).
  exists nfd, s1. eexists. split; [exact Hrun|]. split; [exact Hne|].
  unfold get, gets. rewrite H1, H2. do 3 (split; [reflexivity|]).
  unfold deref. cbn. rewrite H3, lookup_alter_eq, Ho. reflexivity.
Qed.

(** The exception is a real fault: after [dup2] onto the next descriptor the
    following [add] returns that same descriptor, and the file added is not
    reachable through it. *)
Lemma dup2_next_loses_file s oldfd p q :
  fd_validation_needed s = false -> START_FD <= fd_idx s < int_max ->
  files_ s !! oldfd = Some p -> files_ s !! fd_idx s = None -> oldfd <> fd_idx s ->
  exists s1 s2,
    dup2 oldfd (fd_idx s) s = Done ((fd_idx s, 0), s1) /\
    add q s1 = Done (fd_idx s, s2) /\ get (fd_idx s) s2 = Done (Some p, s2).
Proof.
  intros Hv Hidx Hold Hfree Hne. set (n := fd_idx s) in *.
  set (s1 := set_files (<[n := p]> (files_ s)) s).
  assert (dup2 oldfd n s = Done ((n, 0), s1)) as E1.
  { unfold dup2, get, exist, get_fd_idx, files_insert, bind, gets, modify.
    rewrite Hold. destruct (Z.eqb_spec oldfd n); [contradiction|].
    rewrite Hfree, bool_decide_false by (intros [? ?]; discriminate). unfold ret at 1.
    fold n. rewrite Z.ltb_irrefl. cbn. rewrite Hfree. reflexivity. }
  assert (wp (add q) (fun fd s2 => fd = n /\ files_ s2 !! n = Some p) s1) as Hwp.
  { apply wp_bind, wp_bind, wp_generate; [fold n; cbn; fold n; lia|].
    change (fd_idx s1) with n. change (fd_validation_needed s1) with (fd_validation_needed s).
    rewrite Hv, cyc_0 by lia. destruct (Z.eqb_spec n int_max); [lia|].
    apply wp_bind, wp_gets. cbn [orb set_fd fd_validation_needed].
    apply wp_ret, wp_bind, wp_modify, wp_ret. cbn.
    rewrite lookup_insert_eq. cbn. rewrite lookup_insert_eq. auto. }
  apply wp_Done in Hwp as (fd & s2 & Hrun & -> & H2).
  exists s1, s2. split; [exact E1|]. split; [exact Hrun|].
  unfold get, gets. rewrite H2. reflexivity.
Qed.

(** ** Witnesses *)

Definition file_a : OpenFile := new_OpenFile [] 0 1 [] 2 regular.

(** One open file, descriptor 10000. *)
Definition one_open : OpenFileMap :=
  {| heap := {[0%nat := file_a]}; brk := 1; files_ := {[10000 := 0%nat]};
     fd_idx := 10001; fd_validation_needed := false |}.

Lemma one_open_Inv : Inv one_open.
Proof.
  split; [unfold one_open, START_FD, int_max; cbn; lia|]. intros _ fd p. cbn.
  rewrite lookup_singleton_Some. intros [<- _]. lia.
Qed.

Lemma add_returns_fresh_witness :
  exists fd s', add 5 one_open = Done (fd, s') /\ START_FD <= fd < int_max /\
    files_ one_open !! fd = None /\ files_ s' = <[fd := 5%nat]> (files_ one_open) /\
    heap s' = heap one_open /\ Inv s'.
Proof. apply (add_returns_fresh one_open 5); [exact one_open_Inv|vm_compute; reflexivity]. Defined.

Lemma table_invariant_witness :
  exists s', run_op (ODup2 10000 20000) one_open = Done (tt, s') /\ Inv s'.
Proof.
  apply (table_invariant one_open (ODup2 10000 20000));
    [exact one_open_Inv|vm_compute; reflexivity|vm_compute; discriminate].
Defined.

Lemma dup_shares_witness :
  exists newfd s1 s2,
    dup 10000 one_open = Done ((newfd, 0), s1) /\ newfd <> 10000 /\
    get newfd s1 = Done (Some 0%nat, s1) /\ get 10000 s1 = Done (Some 0%nat, s1) /\
    update 0 (set_pos 7) s1 = Done (tt, s2) /\ deref 0 s2 = Done (set_pos 7 file_a, s2).
Proof.
  apply (dup_shares one_open 10000 0 file_a (set_pos 7));
    [exact one_open_Inv|vm_compute; reflexivity|reflexivity|reflexivity].
Defined.

Lemma dup2_next_loses_file_witness :
  exists s1 s2,
    dup2 10000 10001 one_open = Done ((10001, 0), s1) /\
    add 5 s1 = Done (10001, s2) /\ get 10001 s2 = Done (Some 0%nat, s2).
Proof.
  apply (dup2_next_loses_file one_open 10000 0 5); try reflexivity.
  - unfold START_FD, int_max. cbn. lia.
  - discriminate.
Defined.

End Files.
