(* ===== verification/Sync.v ===== *)
(** * Synchronisation ([include/util/rwlock.h], [include/util/threadsafe_queue.h])

    [RWLock] as a step relation over the lock's counters and the phases of the
    threads that use it through [ReadGuard] and [WriteGuard].  Each method holds
    [m_Lock], so its code between two waits is one step.  A thread that waits on a
    condition variable is asleep until it is notified; a woken thread tests its
    predicate again.  Reachable states satisfy mutual exclusion and no wake-up is
    lost.  [threadsafe_queue] is a queue whose operations are atomic. *)

From Stdlib Require Import ZArith Lia.
From stdpp Require Import base numbers list relations.
From S2P Require Import Prelude.
Open Scope Z_scope.

Module RW.

(** What a thread is doing: outside, in [lockWrite] or [lockRead] waiting (asleep or
    woken), or holding the lock. *)
Inductive phase :=
  | Idle
  | WaitWrite (awake : bool)
  | Writing
  | WaitRead (awake : bool)
  | Reading.

Record state := {
  m_readCount : Z;
  m_writeCount : Z;
  m_isWriting : bool;
  threads : list phase
}.

(** [RWLock()] with [n] threads outside. *)
Definition init (n : nat) : state :=
  {| m_readCount := 0; m_writeCount := 0; m_isWriting := false; threads := repeat Idle n |}.

(** The predicates of the two waits. *)
Definition can_write (s : state) : bool := (0 =? m_readCount s) && negb (m_isWriting s).
Definition can_read (s : state) : bool := 0 =? m_writeCount s.

Definition with_threads (l : list phase) (s : state) : state :=
  {| m_readCount := m_readCount s; m_writeCount := m_writeCount s;
     m_isWriting := m_isWriting s; threads := l |}.

(** [m_writeCond.notify_one()]: one sleeping writer wakes up, if there is one. *)
Inductive notify_one : list phase -> list phase -> Prop :=
  | notify_some l i : l !! i = Some (WaitWrite false) ->
      notify_one l (<[i := WaitWrite true]> l)
  | notify_none l : (forall i, l !! i <> Some (WaitWrite false)) -> notify_one l l.

(** [m_readCond.notify_all()] *)
Definition wake_reader (p : phase) : phase :=
  match p with WaitRead _ => WaitRead true | _ => p end.

Definition notify_all (l : list phase) : list phase := map wake_reader l.

Inductive step : state -> state -> Prop :=
  (** [lockWrite]: announce the writer, then wait or enter. *)
  | lockWrite_enter s i :
      threads s !! i = Some Idle -> can_write s = true ->
      step s {| m_readCount := m_readCount s; m_writeCount := m_writeCount s + 1;
                m_isWriting := true; threads := <[i := Writing]> (threads s) |}
  | lockWrite_wait s i :
      threads s !! i = Some Idle -> can_write s = false ->
      step s {| m_readCount := m_readCount s; m_writeCount := m_writeCount s + 1;
                m_isWriting := m_isWriting s;
                threads := <[i := WaitWrite false]> (threads s) |}
  | lockWrite_wake s i :
      threads s !! i = Some (WaitWrite true) -> can_write s = true ->
      step s {| m_readCount := m_readCount s; m_writeCount := m_writeCount s;
                m_isWriting := true; threads := <[i := Writing]> (threads s) |}
  | lockWrite_sleep s i :
      threads s !! i = Some (WaitWrite true) -> can_write s = false ->
      step s (with_threads (<[i := WaitWrite false]> (threads s)) s)
  (** [unlockWrite] *)
  | unlockWrite_last s i :
      threads s !! i = Some Writing -> m_writeCount s - 1 = 0 ->
      step s {| m_readCount := m_readCount s; m_writeCount := m_writeCount s - 1;
                m_isWriting := false;
                threads := notify_all (<[i := Idle]> (threads s)) |}
  | unlockWrite_more s i l :
      threads s !! i = Some Writing -> m_writeCount s - 1 <> 0 ->
      notify_one (<[i := Idle]> (threads s)) l ->
      step s {| m_readCount := m_readCount s; m_writeCount := m_writeCount s - 1;
                m_isWriting := false; threads := l |}
  (** [lockRead] *)
  | lockRead_enter s i :
      threads s !! i = Some Idle -> can_read s = true ->
      step s {| m_readCount := m_readCount s + 1; m_writeCount := m_writeCount s;
                m_isWriting := m_isWriting s; threads := <[i := Reading]> (threads s) |}
  | lockRead_wait s i :
      threads s !! i = Some Idle -> can_read s = false ->
      step s (with_threads (<[i := WaitRead false]> (threads s)) s)
  | lockRead_wake s i :
      threads s !! i = Some (WaitRead true) -> can_read s = true ->
      step s {| m_readCount := m_readCount s + 1; m_writeCount := m_writeCount s;
                m_isWriting := m_isWriting s; threads := <[i := Reading]> (threads s) |}
  | lockRead_sleep s i :
      threads s !! i = Some (WaitRead true) -> can_read s = false ->
      step s (with_threads (<[i := WaitRead false]> (threads s)) s)
  (** [unlockRead] *)
  | unlockRead_notify s i l :
      threads s !! i = Some Reading ->
      m_readCount s - 1 = 0 -> 0 < m_writeCount s ->
      notify_one (<[i := Idle]> (threads s)) l ->
      step s {| m_readCount := m_readCount s - 1; m_writeCount := m_writeCount s;
                m_isWriting := m_isWriting s; threads := l |}
  | unlockRead_quiet s i :
      threads s !! i = Some Reading ->
      ~ (m_readCount s - 1 = 0 /\ 0 < m_writeCount s) ->
      step s {| m_readCount := m_readCount s - 1; m_writeCount := m_writeCount s;
                m_isWriting := m_isWriting s; threads := <[i := Idle]> (threads s) |}.

(** A spurious wake-up, which the standard allows at any time. *)
Inductive spurious : state -> state -> Prop :=
  | spurious_write s i : threads s !! i = Some (WaitWrite false) ->
      spurious s (with_threads (<[i := WaitWrite true]> (threads s)) s)
  | spurious_read s i : threads s !! i = Some (WaitRead false) ->
      spurious s (with_threads (<[i := WaitRead true]> (threads s)) s).

Definition any_step (s s' : state) : Prop := step s s' \/ spurious s s'.

(** ** Counting threads *)

Definition is_reading (p : phase) : bool := match p with Reading => true | _ => false end.
Definition is_writing (p : phase) : bool := match p with Writing => true | _ => false end.
Definition is_writer (p : phase) : bool :=
  match p with Writing | WaitWrite _ => true | _ => false end.

Definition count (P : phase -> bool) (l : list phase) : Z :=
  Z.of_nat (length (List.filter P l)).

Lemma count_insert P l i p q :
  l !! i = Some p ->
  count P (<[i := q]> l) = count P l - Z.b2z (P p) + Z.b2z (P q).
Proof.
  revert i. induction l as [|x l IH]; intros [|i] H; try discriminate; cbn in H.
  - injection H as ->. unfold count. cbn [insert list_insert List.filter].
    destruct (P p), (P q); cbn [length Z.b2z]; lia.
  - specialize (IH i H). change (<[S i := q]> (x :: l)) with (x :: <[i := q]> l).
    unfold count in *. cbn [List.filter]. destruct (P x); cbn [length]; lia.
Qed.

Lemma count_notify_one P l l' :
  (forall b, P (WaitWrite b) = P (WaitWrite true)) -> notify_one l l' -> count P l' = count P l.
Proof.
  intros HP []; [|reflexivity]. erewrite count_insert by eassumption.
  rewrite (HP false). lia.
Qed.

Lemma count_notify_all P l :
  (forall b, P (WaitRead b) = P (WaitRead true)) -> count P (notify_all l) = count P l.
Proof.
  intros HP. unfold count, notify_all. f_equal. induction l as [|x l IH]; [reflexivity|].
  cbn. assert (P (wake_reader x) = P x) as -> by (destruct x; cbn; auto).
  destruct (P x); cbn; congruence.
Qed.

Lemma count_nonneg P l : 0 <= count P l.
Proof. unfold count. lia. Qed.

Lemma count_pos P l i p : l !! i = Some p -> P p = true -> 1 <= count P l.
Proof.
  revert i. induction l as [|x l IH]; intros [|i] H HP; try discriminate; cbn in H;
    unfold count in *; cbn [List.filter].
  - injection H as ->. rewrite HP. cbn [length]. lia.
  - specialize (IH i H HP). destruct (P x); cbn [length]; lia.
Qed.

Lemma count_zero P l : (forall i p, l !! i = Some p -> P p = false) -> count P l = 0.
Proof.
  intros H. unfold count. induction l as [|x l IH]; [reflexivity|]. cbn.
  rewrite (H 0%nat x eq_refl). apply IH. intros i p. apply (H (S i)).
Qed.

Lemma count_two P l i j p q :
  l !! i = Some p -> l !! j = Some q -> i <> j -> P p = true -> P q = true ->
  P Idle = false -> 2 <= count P l.
Proof.
  intros Hi Hj Hne Hp Hq Hidle. pose proof (count_insert P l i p Idle Hi) as E.
  rewrite Hp, Hidle in E.
  assert (1 <= count P (<[i := Idle]> l)).
  { eapply count_pos; [|exact Hq]. rewrite list_lookup_insert_ne by exact Hne. exact Hj. }
  cbn in E. lia.
Qed.

Lemma count_writing_le l : count is_writing l <= count is_writer l.
Proof.
  unfold count. induction l as [|[] l IH]; cbn [List.filter is_writing is_writer length]; lia.
Qed.

(** ** The invariant *)

(** Lookups after an update of thread [i]. *)
Lemma lookup_update (l : list phase) i p j q :
  <[i := p]> l !! j = Some q -> (j = i /\ q = p) \/ (j <> i /\ l !! j = Some q).
Proof.
  destruct (decide (i = j)) as [->|Hne].
  - intros H. left. split; [reflexivity|]. destruct (l !! j) eqn:E.
    + rewrite list_lookup_insert_eq in H by (eapply lookup_lt_Some; exact E). congruence.
    + rewrite list_insert_ge in H; [congruence|]. apply lookup_ge_None, E.
  - rewrite list_lookup_insert_ne by exact Hne. auto.
Qed.

(** After [notify_one] a writer is awake if any waits, and readers are untouched. *)
Lemma notify_one_awake l l' j b :
  notify_one l l' -> l' !! j = Some (WaitWrite b) ->
  exists k, l' !! k = Some (WaitWrite true).
Proof.
  intros [l0 i Hi|l0 Hno] Hj.
  - exists i. apply list_lookup_insert_eq. eapply lookup_lt_Some, Hi.
  - destruct b; [eauto|]. exfalso. apply (Hno j Hj).
Qed.

Lemma notify_one_reader l l' j b :
  notify_one l l' -> l' !! j = Some (WaitRead b) -> l !! j = Some (WaitRead b).
Proof.
  intros [l0 i Hi|l0 Hno] Hj; [|exact Hj].
  apply lookup_update in Hj as [[_ E]|[_ E]]; [discriminate|exact E].
Qed.

Ltac counts :=
  cbn [m_readCount m_writeCount m_isWriting threads with_threads] in *;
  rewrite ?(count_notify_all is_reading), ?(count_notify_all is_writer),
    ?(count_notify_all is_writing) by reflexivity;
  repeat match goal with
  | H : notify_one _ ?l |- context [count ?P ?l] =>
      rewrite (count_notify_one P _ l ltac:(reflexivity) H)
  end;
  repeat (erewrite count_insert by eassumption);
  cbn [is_reading is_writer is_writing Z.b2z] in *; try lia.

(** Mutual exclusion part of the invariant. *)
Record Excl (s : state) : Prop := {
  ex_read : m_readCount s = count is_reading (threads s);
  ex_write : m_writeCount s = count is_writer (threads s);
  ex_flag : Z.b2z (m_isWriting s) = count is_writing (threads s);
  ex_excl : m_isWriting s = true -> m_readCount s = 0
}.

Lemma Excl_step s s' : Excl s -> any_step s s' -> Excl s'.
Proof.
  intros [Hr Hw Hf Hx] Hstep.
  pose proof (count_writing_le (threads s)) as Hle.
  pose proof (count_nonneg is_writing (threads s)) as Hn.
  assert (Z.b2z (m_isWriting s) <= 1) as Hb by (destruct (m_isWriting s); cbn; lia).
  assert (can_write s = true -> m_readCount s = 0 /\ m_isWriting s = false) as Hcw.
  { unfold can_write. intros [H1%Z.eqb_eq H2%negb_true_iff]%andb_true_iff. auto. }
  assert (can_read s = true -> m_isWriting s = false) as Hcr.
  { unfold can_read. intros H1%Z.eqb_eq. destruct (m_isWriting s); [|reflexivity].
    cbn in Hf. lia. }
  destruct Hstep as [Hstep|Hstep]; destruct Hstep;
    repeat match goal with
    | H : can_write _ = true |- _ => destruct (Hcw H); clear H
    | H : can_read _ = true |- _ => pose proof (Hcr H); clear H
    | H : threads _ !! _ = Some Writing |- _ =>
        lazymatch goal with
        | _ : 1 <= count is_writing _ |- _ => fail
        | _ => pose proof (count_pos is_writing _ _ _ H eq_refl)
        end
    | H : threads _ !! _ = Some Reading |- _ =>
        lazymatch goal with
        | _ : 1 <= count is_reading _ |- _ => fail
        | _ => pose proof (count_pos is_reading _ _ _ H eq_refl)
        end
    end.
  all: split; counts.
  all: try exact Hx; try (intros; congruence); try (intros Hw'; specialize (Hx Hw'); lia).
  all: repeat match goal with H : m_isWriting _ = _ |- _ => rewrite H in Hf; cbn in Hf end; try lia.
Qed.

(** Waiting threads will be woken. *)
Record Inv (s : state) : Prop := {
  inv_excl : Excl s;
  (** a waiting writer that could enter: some writer has been woken *)
  inv_wake_write : forall j b, threads s !! j = Some (WaitWrite b) -> can_write s = true ->
    exists k, threads s !! k = Some (WaitWrite true);
  (** a sleeping reader: a writer is around that will wake it *)
  inv_wake_read : forall j, threads s !! j = Some (WaitRead false) -> 0 < m_writeCount s
}.

Lemma Inv_init n : Inv (init n).
Proof.
  assert (forall i p, repeat Idle n !! i = Some p -> p = Idle) as H.
  { intros i p Hi. apply list_elem_of_lookup_2, list_elem_of_In, repeat_spec in Hi. exact Hi. }
  assert (forall P, P Idle = false -> count P (repeat Idle n) = 0) as Hc.
  { intros P HP. apply count_zero. intros i p Hi. rewrite (H i p Hi). exact HP. }
  split; [split; cbn; rewrite ?Hc by reflexivity; try reflexivity; discriminate|..]; cbn.
  - intros j b E. discriminate (H j _ E).
  - intros j E. discriminate (H j _ E).
Qed.

(** An update of a thread that neither is nor becomes a waiting writer. *)
Lemma wake_write_kept (l : list phase) i p :
  (forall b, l !! i <> Some (WaitWrite b)) -> (forall b, p <> WaitWrite b) ->
  (forall j b, l !! j = Some (WaitWrite b) -> exists k, l !! k = Some (WaitWrite true)) ->
  forall j b, <[i := p]> l !! j = Some (WaitWrite b) ->
    exists k, <[i := p]> l !! k = Some (WaitWrite true).
Proof.
  intros Hi Hp Hl j b Hj. apply lookup_update in Hj as [[_ E]|[_ E]].
  - exfalso. apply (Hp b). congruence.
  - destruct (Hl j b E) as [k Hk]. exists k. rewrite list_lookup_insert_ne; [exact Hk|].
    intros ->. apply (Hi true Hk).
Qed.

Lemma no_writer_waiting s j b : Excl s -> threads s !! j = Some (WaitWrite b) -> 0 < m_writeCount s.
Proof.
  intros Hs Hj. rewrite (ex_write _ Hs). pose proof (count_pos is_writer _ _ _ Hj eq_refl). lia.
Qed.

Lemma wake_write_step s s' : Inv s -> any_step s s' ->
  forall j b, threads s' !! j = Some (WaitWrite b) -> can_write s' = true ->
    exists k, threads s' !! k = Some (WaitWrite true).
Proof.
  intros Hs Hstep. pose proof (Excl_step s s' (inv_excl _ Hs) Hstep) as Hx'.
  destruct Hs as [Hx Hww _]. intros j b Hj Hc. pose proof (no_writer_waiting s' j b Hx' Hj) as Hpos.
  assert (forall P, (m_readCount s' = m_readCount s -> m_isWriting s' = m_isWriting s ->
            can_write s = true -> P) -> m_readCount s' = m_readCount s ->
            m_isWriting s' = m_isWriting s -> P) as Hsame.
  { intros P HP E1 E2. apply HP; auto. unfold can_write in *. rewrite E1, E2 in Hc. exact Hc. }
  destruct Hstep as [Hstep|Hstep]; destruct Hstep; cbn [threads m_writeCount with_threads] in *.
  - unfold can_write in Hc. cbn in Hc. rewrite andb_false_r in Hc. discriminate.
  - apply Hsame; auto. intros _ _ E. congruence.
  - unfold can_write in Hc. cbn in Hc. rewrite andb_false_r in Hc. discriminate.
  - apply Hsame; auto. intros _ _ E. congruence.
  - lia.
  - eapply notify_one_awake; eassumption.
  - unfold can_read in *. lia.
  - apply Hsame; auto. intros _ _ E. eapply wake_write_kept; try eassumption; try congruence.
    intros j' b' H'. apply (Hww j' b' H' E).
  - unfold can_read in *. lia.
  - apply Hsame; auto. intros _ _ E. eapply wake_write_kept; try eassumption; try congruence.
    intros j' b' H'. apply (Hww j' b' H' E).
  - eapply notify_one_awake; eassumption.
  - exfalso. apply H0. split; [|exact Hpos]. unfold can_write in Hc. cbn [m_readCount] in Hc.
    apply andb_true_iff in Hc as [Hc _]. apply Z.eqb_eq in Hc. lia.
  - exists i. apply list_lookup_insert_eq. eapply lookup_lt_Some. eassumption.
  - apply Hsame; auto. intros _ _ E. eapply wake_write_kept; try eassumption; try congruence.
    intros j' b' H'. apply (Hww j' b' H' E).
Qed.

Lemma wake_read_step s s' : Inv s -> any_step s s' ->
  forall j, threads s' !! j = Some (WaitRead false) -> 0 < m_writeCount s'.
Proof.
  intros [Hx _ Hwr] Hstep j Hj.
  assert (0 <= m_writeCount s) as Hn by (rewrite (ex_write _ Hx); apply count_nonneg).
  assert (forall i p, p <> WaitRead false -> <[i := p]> (threads s) !! j = Some (WaitRead false) ->
            0 < m_writeCount s) as Hold.
  { intros i p Hp Hj'. apply lookup_update in Hj' as [[_ E]|[_ E]]; [congruence|]. eauto. }
  destruct Hstep as [Hstep|Hstep]; destruct Hstep; cbn [threads m_writeCount with_threads] in *;
    try (eapply Hold; [|eassumption]; congruence); try lia.
  - exfalso. unfold notify_all in Hj. rewrite list_lookup_fmap in Hj.
    destruct (<[i:=Idle]> (threads s) !! j) as [[]|]; discriminate.
  - pose proof (count_pos is_writer _ _ _ H eq_refl) as Hw. rewrite <- (ex_write _ Hx) in Hw. lia.
  - unfold can_read in *. lia.
  - unfold can_read in *. lia.
Qed.

Lemma Inv_step s s' : Inv s -> any_step s s' -> Inv s'.
Proof.
  intros Hs Hstep. split; [eapply Excl_step; [apply Hs|exact Hstep]|..].
  - eapply wake_write_step; eassumption.
  - eapply wake_read_step; eassumption.
Qed.

Lemma Inv_reachable n s : rtc any_step (init n) s -> Inv s.
Proof.
  intros H. apply (rtc_ind_r Inv (init n)) in H; [exact H|apply Inv_init|].
  intros y z _ Hstep Hy. eapply Inv_step; eassumption.
Qed.

(** ** Theorems *)

(** C27: Mutual exclusion: in every state the threads can reach, with any scheduling and
    any spurious wake-ups, while one thread holds the write lock no other thread holds
    the lock, for writing or for reading. *)
Theorem rwlock_exclusion n s i j p :
  rtc any_step (init n) s ->
  threads s !! i = Some Writing -> threads s !! j = Some p -> i <> j ->
  p <> Writing /\ p <> Reading.
Proof.
  intros [[Hr Hw Hf Hx] _ _]%Inv_reachable Hi Hj Hne.
  pose proof (count_pos is_writing _ _ _ Hi eq_refl) as H1.
  assert (m_isWriting s = true) as Hflag by (destruct (m_isWriting s); cbn in Hf; [reflexivity|lia]).
  rewrite Hflag in Hf. cbn in Hf. split; intros ->.
  - pose proof (count_two is_writing _ _ _ _ _ Hi Hj Hne eq_refl eq_refl eq_refl). lia.
  - pose proof (count_pos is_reading _ _ _ Hj eq_refl). specialize (Hx Hflag). lia.
Qed.

(** C28: No wake-up is lost: whenever no thread holds the lock and some thread waits for
    it, a thread that has already been woken can take the lock in one step. *)
Theorem rwlock_no_lost_wakeup n s i p :
  rtc any_step (init n) s ->
  (forall j, threads s !! j <> Some Writing /\ threads s !! j <> Some Reading) ->
  threads s !! i = Some p -> (exists b, p = WaitWrite b \/ p = WaitRead b) ->
  exists k s',
    step s s' /\
    (threads s !! k = Some (WaitWrite true) /\ threads s' !! k = Some Writing \/
     threads s !! k = Some (WaitRead true) /\ threads s' !! k = Some Reading).
Proof.
  intros [[Hr Hw Hf Hx] Hww Hwr]%Inv_reachable Hfree Hi Hp.
  assert (count is_reading (threads s) = 0) as Hr0.
  { apply count_zero. intros j q Hj. destruct q; try reflexivity. destruct (Hfree j). contradiction. }
  assert (count is_writing (threads s) = 0) as Hw0.
  { apply count_zero. intros j q Hj. destruct q; try reflexivity. destruct (Hfree j). contradiction. }
  assert (can_write s = true) as Hcw.
  { unfold can_write. rewrite Hr, Hr0. destruct (m_isWriting s); [cbn in Hf; lia|reflexivity]. }
  assert ((exists j b, threads s !! j = Some (WaitWrite b)) \/
          forall j q, threads s !! j = Some q -> is_writer q = false) as [(j & b & Hj)|Hnone].
  { destruct (decide (Exists (fun q => is_writer q = true) (threads s))) as [He|Hne].
    - left. apply Exists_exists in He as (q & Hq & Hq').
      apply list_elem_of_lookup in Hq as [j Hj]. destruct q; try discriminate; [eauto|].
      destruct (Hfree j). contradiction.
    - right. intros j q Hj. destruct (is_writer q) eqn:E; [|reflexivity].
      exfalso. apply Hne, Exists_exists. exists q. split; [|exact E].
      eapply list_elem_of_lookup_2, Hj. }
  - destruct (Hww j b Hj Hcw) as [k Hk]. exists k. eexists.
    split; [apply (lockWrite_wake s k Hk Hcw)|]. left. split; [exact Hk|].
    apply list_lookup_insert_eq. eapply lookup_lt_Some, Hk.
  - assert (m_writeCount s = 0) as Hw1 by (rewrite Hw; apply count_zero, Hnone).
    destruct Hp as [b [-> | ->]]; [specialize (Hnone i _ Hi); discriminate|].
    destruct b; [|specialize (Hwr i Hi); lia].
    exists i. eexists. split; [apply (lockRead_wake s i Hi)|].
    + unfold can_read. rewrite Hw1. reflexivity.
    + right. split; [exact Hi|]. apply list_lookup_insert_eq. eapply lookup_lt_Some, Hi.
Qed.

(** ** Witnesses *)

(** Thread 0 holds the write lock, thread 1 is outside. *)
Definition held : state :=
  {| m_readCount := 0; m_writeCount := 1; m_isWriting := true; threads := [Writing; Idle] |}.

Lemma held_reachable : rtc any_step (init 2) held.
Proof.
  apply rtc_once. left. exact (lockWrite_enter (init 2) 0 eq_refl eq_refl).
Qed.

Lemma rwlock_exclusion_witness : Idle <> Writing /\ Idle <> Reading.
Proof.
  apply (rwlock_exclusion 2 held 0 1 Idle); [exact held_reachable|reflexivity..|discriminate].
Defined.

(** Thread 1 has waited for thread 0, which has released the lock. *)
Definition released : state :=
  {| m_readCount := 0; m_writeCount := 1; m_isWriting := false;
     threads := [Idle; WaitWrite true] |}.

Lemma released_reachable : rtc any_step (init 2) released.
Proof.
  eapply rtc_r; [eapply rtc_r; [exact held_reachable|]|].
  - left. exact (lockWrite_wait held 1 eq_refl eq_refl).
  - left. refine (unlockWrite_more {| m_readCount := 0; m_writeCount := 2;
      m_isWriting := true; threads := [Writing; WaitWrite false] |} 0
      [Idle; WaitWrite true] eq_refl _ _).
    + cbn. lia.
    + exact (notify_some [Idle; WaitWrite false] 1 eq_refl).
Qed.

Lemma rwlock_no_lost_wakeup_witness :
  exists k s',
    step released s' /\
    (threads released !! k = Some (WaitWrite true) /\ threads s' !! k = Some Writing \/
     threads released !! k = Some (WaitRead true) /\ threads s' !! k = Some Reading).
Proof.
  apply (rwlock_no_lost_wakeup 2 released 1 (WaitWrite true)).
  - exact released_reachable.
  - intros [|[|j]]; split; discriminate.
  - reflexivity.
  - exists true. left. reflexivity.
Defined.

End RW.

(** ** [threadsafe_queue] *)

Module Queue.

Section Queue.
Context {T : Type}.

(** The contained [std::queue]; every method runs under the mutex. *)
Definition queue : Type := list T.

Definition empty : M queue bool := gets (fun q => match q with [] => true | _ => false end).

Definition push (x : T) : M queue unit := modify (fun q => q ++ [x]).

(** [pop(element)]: [None] for [false]. *)
Definition pop : M queue (option T) :=
  fun q => match q with
           | [] => Done (None, q)
           | x :: q' => Done (Some x, q')
           end.

(** Calls by any threads, in the order in which they take the mutex. *)
Inductive call := CPush (x : T) | CPop.

Fixpoint run (cs : list call) (q : queue) : list T * queue :=
  match cs with
  | [] => ([], q)
  | CPush x :: cs' =>
      match push x q with
      | Done (_, q') => run cs' q'
      | Fault _ => ([], q)
      end
  | CPop :: cs' =>
      match pop q with
      | Done (Some x, q') => let '(l, q'') := run cs' q' in (x :: l, q'')
      | Done (None, q') => run cs' q'
      | Fault _ => ([], q)
      end
  end.

Definition pushed (cs : list call) : list T :=
  omap (fun c => match c with CPush x => Some x | CPop => None end) cs.

(** First in, first out: over any sequence of calls, the elements popped followed by
    those still queued are the elements queued at the start followed by those pushed,
    in order. *)
Theorem queue_fifo cs q : fst (run cs q) ++ snd (run cs q) = q ++ pushed cs.
Proof.
  revert q. induction cs as [|[x|] cs IH]; intros q; cbn [run pushed].
  - cbn. rewrite app_nil_r. reflexivity.
  - cbn. rewrite IH. rewrite <- app_assoc. reflexivity.
  - destruct q as [|x q]; cbn.
    + rewrite IH. reflexivity.
    + specialize (IH q). destruct (run cs q) as [l q']. cbn in *. f_equal. exact IH.
Qed.

End Queue.

End Queue.
