(* ===== verification/RpcClient.v ===== *)
(** * The client's RPC layer ([src/rpc/rpc_client.cc], [include/rpc/rpc_client.h],
      [include/client/hooks.h])

    The client context, the region map a client keeps and how it routes a request,
    and one definition per [RPC_*] method.  All methods build their request in the
    same message buffer, [window_[0]], through the union [wire_req_t]: the buffer is
    a byte array that survives from one request to the next, a method writes the
    fields the code writes, and the request the server receives is read back from
    the bytes with the offsets of the structs.  eRPC, [rand] and [std::hash] are
    parameters. *)

From Stdlib Require Import ZArith Lia.
From stdpp Require Import base numbers list gmap.
From S2P Require Import Prelude JumpHash Types XXHash Wire Handlers LruCache DentryCache.
From S2P Require Import OpenFileMap.
Open Scope Z_scope.

(** What the client uses of eRPC and of the C and C++ libraries.  [rpc sid q] is
    [enqueue_request] on session [sid] followed by the event loop until the
    continuation has run; [rand n] is the [n]-th value of [rand()]. *)
Class Platform := {
  Net : Type;
  rpc : Z -> wire_req -> M Net wire_resp;
  rand : nat -> Z;
  std_hash : bytes -> Z
}.

(** ** The request buffer *)

(** [sizeof(wire_req_t)], the size the buffer is allocated with. *)
Definition wire_req_size : Z := 3768.

(** The [n]-byte integer at offset [off]. *)
Definition int_at (off n : nat) (buf : bytes) : Z := le_value (take n (drop off buf)).

(** The structs of [wire_req_t] over the bytes of a message. *)
Definition as_FnameReq (b : bytes) : FnameReq :=
  {| fr_region_id := i32 (int_at 0 4 b); fr_pinode := int_at 8 8 b;
     fr_pinode_hash := int_at 16 8 b; fr_fname := drop 24 b |}.

Definition as_ModeReq (b : bytes) : ModeReq :=
  {| mr_region_id := i32 (int_at 0 4 b); mr_pinode := int_at 8 8 b;
     mr_pinode_hash := int_at 16 8 b; mr_mode := int_at 24 4 b; mr_fname := drop 28 b |}.

Definition as_FSMknodReq (b : bytes) : FSMknodReq :=
  {| kr_region_id := i32 (int_at 0 4 b);
     kr_oid := {| lo := int_at 8 8 b; hi := int_at 16 8 b |};
     kr_pinode := int_at 24 8 b; kr_pinode_hash := int_at 32 8 b;
     kr_mode := int_at 40 4 b; kr_fname := drop 44 b |}.

Definition as_FSReaddirReq (b : bytes) : FSReaddirReq :=
  {| rr_region_id := i32 (int_at 0 4 b); rr_inode := int_at 8 8 b;
     rr_inode_hash := int_at 16 8 b; rr_offset := int_at 24 8 b |}.

(** ** The client *)

Definition region_map_t : Type := list (ClientRegion * Z).

Section RpcClient.
Context {P : Platform}.

(** [client_context] without the eRPC objects; [session_num_vec_] maps the index of
    a session to its eRPC number and is left out.  [ofm_] is the descriptor table of
    [MetaClient]; [rand_count] counts the calls of [rand()]; [reentrance_flag] is
    the thread-local flag of [metafs_hook]. *)
Record client := {
  c_id : Z;
  dentry_cache : Dentry.DentryCache;
  total_servers : Z;
  regions : region_map_t;
  req_buf : bytes;
  ofm_ : Files.OpenFileMap;
  net : Net;
  rand_count : nat;
  reentrance_flag : bool
}.

Definition set_dentry_cache (d : Dentry.DentryCache) (c : client) : client :=
  {| c_id := c_id c; dentry_cache := d; total_servers := total_servers c;
     regions := regions c; req_buf := req_buf c; ofm_ := ofm_ c; net := net c;
     rand_count := rand_count c; reentrance_flag := reentrance_flag c |}.

Definition set_regions (m : region_map_t) (c : client) : client :=
  {| c_id := c_id c; dentry_cache := dentry_cache c; total_servers := total_servers c;
     regions := m; req_buf := req_buf c; ofm_ := ofm_ c; net := net c;
     rand_count := rand_count c; reentrance_flag := reentrance_flag c |}.

Definition set_req_buf (b : bytes) (c : client) : client :=
  {| c_id := c_id c; dentry_cache := dentry_cache c; total_servers := total_servers c;
     regions := regions c; req_buf := b; ofm_ := ofm_ c; net := net c;
     rand_count := rand_count c; reentrance_flag := reentrance_flag c |}.

Definition set_ofm (o : Files.OpenFileMap) (c : client) : client :=
  {| c_id := c_id c; dentry_cache := dentry_cache c; total_servers := total_servers c;
     regions := regions c; req_buf := req_buf c; ofm_ := o; net := net c;
     rand_count := rand_count c; reentrance_flag := reentrance_flag c |}.

Definition set_net (n : Net) (c : client) : client :=
  {| c_id := c_id c; dentry_cache := dentry_cache c; total_servers := total_servers c;
     regions := regions c; req_buf := req_buf c; ofm_ := ofm_ c; net := n;
     rand_count := rand_count c; reentrance_flag := reentrance_flag c |}.

Definition set_rand_count (n : nat) (c : client) : client :=
  {| c_id := c_id c; dentry_cache := dentry_cache c; total_servers := total_servers c;
     regions := regions c; req_buf := req_buf c; ofm_ := ofm_ c; net := net c;
     rand_count := n; reentrance_flag := reentrance_flag c |}.

Definition set_reentrance_flag (b : bool) (c : client) : client :=
  {| c_id := c_id c; dentry_cache := dentry_cache c; total_servers := total_servers c;
     regions := regions c; req_buf := req_buf c; ofm_ := ofm_ c; net := net c;
     rand_count := rand_count c; reentrance_flag := b |}.

(** A computation on one part of the client. *)
Definition zoom {S A} (get : client -> S) (set : S -> client -> client) (k : M S A)
  : M client A :=
  fun c => match k (get c) with
           | Done (a, s) => Done (a, set s c)
           | Fault f => Fault f
           end.

Definition on_files {A} (k : M Files.OpenFileMap A) : M client A := zoom ofm_ set_ofm k.
Definition on_dentry {A} (k : M Dentry.DentryCache A) : M client A :=
  zoom dentry_cache set_dentry_cache k.

Local Open Scope m_scope.

(** ** Routing *)

(** [region_cmp_func] *)
Definition region_cmp (l r : ClientRegion) : bool :=
  key_hi (c_end_key l) <? key_hi (c_start_key r).

(** [region_map.insert(make_pair(region, id))] on the [std::map], as the list of its
    entries in order: a key that compares neither below nor above an entry is
    equivalent to it and the map stays as it is. *)
Fixpoint region_insert (x : ClientRegion * Z) (m : region_map_t) : region_map_t :=
  match m with
  | [] => [x]
  | y :: m' =>
      if region_cmp (fst y) (fst x) then y :: region_insert x m'
      else if region_cmp (fst x) (fst y) then x :: m
      else m
  end.

Fixpoint find_region_id (k : RegionKey) (m : region_map_t) : Z :=
  match m with
  | [] => -1
  | (r, rid) :: m' =>
      if (key_hi (c_start_key r) <=? key_hi k) && (key_hi k <=? key_hi (c_end_key r))
      then rid else find_region_id k m'
  end.

(** The lines every method starts with: hash, region, session. *)
Definition server_session (pinode : Z) : M client Z :=
  let* m := gets regions in
  let rid := find_region_id (mk_RegionKey 0 (pinode_hash pinode)) m in
  p_assert (negb (rid =? -1)) ;;;
  let* n := gets total_servers in
  if rid <? n then ret rid
  else match JumpConsistentHash (u64 rid) n with
       | Some b => ret b
       | None => raise OutOfFuel
       end.

(** [resize_msg_buffer] (whose assertion bounds the size), then the assignments
    [w]; the message is the first [size] bytes. *)
Definition request (size : Z) (w : bytes -> bytes) : M client bytes :=
  p_assert (size <=? wire_req_size) ;;;
  modify (fun c => set_req_buf (w (req_buf c)) c) ;;;
  gets (fun c => take (Z.to_nat size) (req_buf c)).

(** [enqueue_request] on [session_num_vec_[sid]] and the loop on [complete_cb]. *)
Definition enqueue (sid : Z) (q : wire_req) : M client wire_resp :=
  let* n := gets total_servers in
  if (0 <=? sid) && (sid <? n) then zoom net set_net (rpc sid q) else raise OutOfBounds.

(** [strcpy(dst, fname.c_str())] at an offset. *)
Definition strcpy_at (off : nat) (fname : bytes) : bytes -> bytes :=
  write_at off (c_str fname ++ [0]).

Definition len1 (fname : bytes) : Z := Z.of_nat (length fname) + 1.

(** ** The requests *)

Definition RPC_Open (pinode : Z) (fname : bytes) (mode inode : Z) (stat : metafs_stat_t)
  : M client (RespType * Z * metafs_stat_t) :=
  let* sid := server_session pinode in
  let* msg := request (28 + len1 fname)
    (fun b => strcpy_at 28 fname (write_at 24 (le_bytes 4 mode) (write_at 8 (le_bytes 8 pinode) b))) in
  let* r := enqueue sid (FSOpenReq (as_ModeReq msg)) in
  match r with
  | RStat x => if decide (st_resp_type x = kSuccess) then ret (kSuccess, st_inode x, st_stat x)
               else ret (st_resp_type x, inode, stat)
  | _ => raise OutOfBounds
  end.

Definition RPC_Getinode (pinode : Z) (fname : bytes) (inode : Z) : M client (RespType * Z) :=
  let* sid := server_session pinode in
  let* msg := request (24 + len1 fname)
    (fun b => strcpy_at 24 fname (write_at 8 (le_bytes 8 pinode) b)) in
  let* r := enqueue sid (FSGetinodeReq (as_FnameReq msg)) in
  match r with
  | RInode x => if decide (ir_resp_type x = kSuccess) then ret (kSuccess, ir_inode x)
                else ret (ir_resp_type x, inode)
  | _ => raise OutOfBounds
  end.

Definition RPC_Getstat (pinode : Z) (fname : bytes) (inode : Z) (stat : metafs_stat_t)
  : M client (RespType * Z * metafs_stat_t) :=
  let* sid := server_session pinode in
  let* msg := request (24 + len1 fname)
    (fun b => strcpy_at 24 fname (write_at 8 (le_bytes 8 pinode) b)) in
  let* r := enqueue sid (FSStatReq (as_FnameReq msg)) in
  match r with
  | RStat x => if decide (st_resp_type x = kSuccess) then ret (kSuccess, st_inode x, st_stat x)
               else ret (st_resp_type x, inode, stat)
  | _ => raise OutOfBounds
  end.

Definition RPC_Mknod (pinode : Z) (fname : bytes) (mode inode : Z) (stat : metafs_stat_t)
  : M client (RespType * Z * metafs_stat_t) :=
  let* sid := server_session pinode in
  let* msg := request (44 + len1 fname)
    (fun b => strcpy_at 44 fname (write_at 40 (le_bytes 4 mode) (write_at 24 (le_bytes 8 pinode) b))) in
  let* r := enqueue sid (MknodReq (as_FSMknodReq msg)) in
  match r with
  | RStat x => if decide (st_resp_type x = kSuccess) then ret (kSuccess, st_inode x, st_stat x)
               else ret (st_resp_type x, inode, stat)
  | _ => raise OutOfBounds
  end.

Definition RPC_Unlink (pinode : Z) (fname : bytes) : M client RespType :=
  let* sid := server_session pinode in
  let* msg := request (24 + len1 fname)
    (fun b => strcpy_at 24 fname (write_at 8 (le_bytes 8 pinode) b)) in
  let* r := enqueue sid (FSUnlinkReq (as_FnameReq msg)) in
  match r with RStatus t => ret t | _ => raise OutOfBounds end.

Definition RPC_Mkdir (pinode : Z) (fname : bytes) (mode inode : Z)
  : M client (RespType * Z) :=
  let* sid := server_session pinode in
  let* msg := request (28 + len1 fname)
    (fun b => strcpy_at 28 fname (write_at 24 (le_bytes 4 mode) (write_at 8 (le_bytes 8 pinode) b))) in
  let* r := enqueue sid (FSMkdirReq (as_ModeReq msg)) in
  match r with
  | RInode x => if decide (ir_resp_type x = kSuccess) then ret (kSuccess, ir_inode x)
                else ret (ir_resp_type x, inode)
  | _ => raise OutOfBounds
  end.

Definition RPC_Rmdir (pinode : Z) (fname : bytes) : M client RespType :=
  let* sid := server_session pinode in
  let* msg := request (24 + len1 fname)
    (fun b => strcpy_at 24 fname (write_at 8 (le_bytes 8 pinode) b)) in
  let* r := enqueue sid (FSRmdirReq (as_FnameReq msg)) in
  match r with RStatus t => ret t | _ => raise OutOfBounds end.

(** The inner loop of [RPC_Readdir]: [ptr] is [fname_ptr] and [skip] is
    [fname_len + 16]. *)
Fixpoint add_entries (n : nat) (skip : nat) (ptr : bytes) (dir : Files.OpenFile)
  : M client Files.OpenFile :=
  match n with
  | O => ret dir
  | S n' =>
      let p := drop skip ptr in
      if negb (has_nul p) then raise OutOfBounds
      else
        let name := c_str p in
        let fname_len := S (length name) in
        let q := drop fname_len p in
        if (length q <? 8)%nat then raise OutOfBounds
        else
          let inode := le_value (take 8 q) in
          let ftype := if Z.land inode inode_prefix_msb =? 0 then Files.regular
                       else Files.directory in
          add_entries n' (fname_len + 16) p (Files.dir_add name ftype inode dir)
  end.

(** [FSReaddirReq_size] *)
Definition FSReaddirReq_size : Z := 32.

Definition write_readdir (pinode offset : Z) (b : bytes) : bytes :=
  write_at 24 (le_bytes 8 offset) (write_at 8 (le_bytes 8 pinode) b).

(** The [do ... while(is_uncomplete)] loop; the request has been written. *)
Fixpoint readdir_loop (fuel : nat) (sid pinode : Z) (msg : bytes) (dir : Files.OpenFile)
  : M client (RespType * Files.OpenFile) :=
  match fuel with
  | O => raise OutOfFuel
  | S fuel' =>
      let* r := enqueue sid (ReaddirReq (as_FSReaddirReq msg)) in
      match r with
      | RReaddir x =>
          if decide (rd_resp_type x = kSuccess) then
            (if rd_num_result x <? 0 then raise OutOfBounds else ret tt) ;;;
            let* dir := add_entries (Z.to_nat (rd_num_result x)) 8 (rd_entries x) dir in
            if rd_is_uncomplete x =? 0 then ret (kSuccess, dir)
            else
              let* msg := request FSReaddirReq_size (write_readdir pinode (rd_next_offset x)) in
              readdir_loop fuel' sid pinode msg dir
          else ret (rd_resp_type x, dir)
      | _ => raise OutOfBounds
      end
  end.

Definition RPC_Readdir (fuel : nat) (pinode : Z) (dir : Files.OpenFile)
  : M client (RespType * Files.OpenFile) :=
  let* sid := server_session pinode in
  let* msg := request FSReaddirReq_size (write_readdir pinode 0) in
  readdir_loop fuel sid pinode msg dir.

(** [rand()] *)
Definition next_rand : M client Z :=
  let* n := gets rand_count in
  modify (set_rand_count (S n)) ;;;
  ret (rand n).

Definition RPC_ReadRegionmap : M client RespType :=
  let* x := next_rand in
  let* n := gets total_servers in
  let sid := Z.rem x n in
  let* cid := gets c_id in
  let* msg := request 4 (write_at 0 (le_bytes 4 cid)) in
  let* r := enqueue sid (ReadRegionmapReq (i32 (int_at 0 4 msg))) in
  match r with
  | RRegionmap x =>
      if decide (rm_resp_type x = kSuccess) then
        if Z.of_nat (length (rm_entries x)) <? rm_num_entries x then raise OutOfBounds
        else
          modify (set_regions
            (fold_left (fun m e => region_insert (e, c_region_id e) m)
               (take (Z.to_nat (rm_num_entries x)) (rm_entries x)) [])) ;;;
          ret kSuccess
      else ret kFail
  | _ => raise OutOfBounds
  end.

End RpcClient.
