(* ===== verification/MetaClient.v ===== *)
(** * The client library ([src/client/metaclient.cc])

    [MetaClient]: the reaction to a response code, path resolution through the
    dentry cache and [RPC_Getinode], and the operations the hooks call.  Every
    operation sends its request again once when [handle_rpc_resp] asks for it. *)

From Stdlib Require Import ZArith Lia.
From stdpp Require Import base numbers list gmap.
From S2P Require Import Prelude Types Wire LruCache DentryCache OpenFileMap RpcClient.
Open Scope Z_scope.

Definition ENOENT : Z := 2.
Definition EEXIST : Z := 17.

(** ['/'] *)
Definition slash : Z := 47.

(** [s.find("/", from)] and [s.rfind("/")]; [None] is [npos]. *)
Definition find_slash (s : bytes) (from : nat) : option nat :=
  (fun p => (from + fst p)%nat) <$> list_find (fun b => b = slash) (drop from s).

Definition rfind_slash (s : bytes) : option nat :=
  (fun p => (length s - S (fst p))%nat) <$> list_find (fun b => b = slash) (reverse s).

(** [s.substr(pos, n)] *)
Definition substr (s : bytes) (pos n : nat) : bytes := take n (drop pos s).

(** [rocksdb::Status] as [ResolvePath] uses it. *)
Inductive PathStatus := ROk | RInvalidArgument | RCorruption.

#[export] Instance PathStatus_eq_dec : EqDecision PathStatus.
Proof. solve_decision. Defined.

Section MetaClient.
Context {P : Platform}.
Local Open Scope m_scope.

(** [while(RPC_ReadRegionmap() != kSuccess) ...;] *)
Fixpoint read_regionmap_loop (fuel : nat) : M client unit :=
  match fuel with
  | O => raise OutOfFuel
  | S fuel' =>
      let* r := RPC_ReadRegionmap in
      if decide (r = kSuccess) then ret tt else read_regionmap_loop fuel'
  end.

(** Does the caller have to send the request again? *)
Definition handle_rpc_resp (fuel : nat) (res : RespType) : M client bool :=
  match res with
  | kUpdateRegionMap => read_regionmap_loop fuel ;;; ret true
  | kEBUSY => ret true
  | _ => ret false
  end.

Definition ReadRegionmap : M client Z :=
  let* r := RPC_ReadRegionmap in
  ret (if decide (r = kSuccess) then 0 else -1).

(** The [while(last < end)] loop of [Internal_ResolvePath], with [USE_CACHE]; [junk]
    is the uninitialised [value.inode].  [None] is the early return of
    [Corruption]. *)
Fixpoint resolve_loop (fuel rfuel : nat) (junk : Z) (path : bytes) (fin last : nat)
    (pdir_id path_depth : Z) : M client (option (Z * Z)) :=
  match fuel with
  | O => raise OutOfFuel
  | S fuel' =>
      if (last <? fin)%nat then
        match find_slash path (S last) with
        | None => raise OutOfBounds
        | Some now =>
            if (1 <? now - last)%nat then
              let name := substr path (S last) (now - last - 1) in
              let* (s, value) := on_dentry (Dentry.Get pdir_id name {| Dentry.inode := junk |}) in
              match s with
              | Dentry.Ok =>
                  resolve_loop fuel' rfuel junk path fin now (Dentry.inode value)
                    (i32 (path_depth + 1))
              | Dentry.NotFound =>
                  let* (res, i) := RPC_Getinode pdir_id name (Dentry.inode value) in
                  let* again := handle_rpc_resp rfuel res in
                  let* (res, i) := if (again : bool) then RPC_Getinode pdir_id name i
                                   else ret (res, i) in
                  if decide (res = kSuccess) then
                    on_dentry (Dentry.Put pdir_id name {| Dentry.inode := i |}) ;;;
                    resolve_loop fuel' rfuel junk path fin now i (i32 (path_depth + 1))
                  else ret None
              end
            else resolve_loop fuel' rfuel junk path fin now pdir_id path_depth
        end
      else ret (Some (pdir_id, path_depth))
  end.

(** The out parameters keep their old values on an error.  [ResolvePath] calls it
    with a path that starts with a slash. *)
Definition Internal_ResolvePath (rfuel : nat) (junk : Z) (path : bytes) (pinode : Z)
    (fname : bytes) (depth : option Z) : M client (PathStatus * Z * bytes * option Z) :=
  match rfind_slash path with
  | None => raise OutOfBounds
  | Some fin =>
      let* r := resolve_loop (S (length path)) rfuel junk path fin 0 0 0 in
      match r with
      | None => ret (RCorruption, pinode, fname, depth)
      | Some (pdir_id, path_depth) =>
          ret (ROk, pdir_id, drop (S fin) path,
               match depth with Some _ => Some path_depth | None => None end)
      end
  end.

(** [ResolvePath]; a [depth] that is not null is left alone for the path ["/"]: the
    code assigns the pointer.  [n] bounds the trailing slashes that the recursion
    removes. *)
Fixpoint ResolvePath_rec (n rfuel : nat) (junk : Z) (path : bytes) (pinode : Z)
    (fname : bytes) (depth : option Z) : M client (PathStatus * Z * bytes * option Z) :=
  match path with
  | [] => ret (RInvalidArgument, pinode, fname, depth)
  | b :: rest =>
      if negb (b =? slash) then ret (RInvalidArgument, pinode, fname, depth)
      else if (length path =? 1)%nat then ret (ROk, fs_root_inode, [], depth)
      else if bool_decide (last path = Some slash) then
        match n with
        | O => raise OutOfFuel
        | S n' => ResolvePath_rec n' rfuel junk (take (length path - 1) path) pinode fname depth
        end
      else Internal_ResolvePath rfuel junk path pinode fname depth
  end.

Definition ResolvePath (rfuel : nat) (junk : Z) (path : bytes) (pinode : Z) (fname : bytes)
    (depth : option Z) : M client (PathStatus * Z * bytes * option Z) :=
  ResolvePath_rec (length path) rfuel junk path pinode fname depth.

(** ** File and directory management *)

(** The result of an operation: the returned code and the out parameters. *)
Definition Getstat (rfuel : nat) (pinode : Z) (fname : bytes) (inode : Z)
    (stat : metafs_stat_t) : M client (Z * Z * metafs_stat_t) :=
  let* (res, inode, stat) := RPC_Getstat pinode fname inode stat in
  let* again := handle_rpc_resp rfuel res in
  let* (res, inode, stat) := if (again : bool) then RPC_Getstat pinode fname inode stat
                             else ret (res, inode, stat) in
  ret (if decide (res = kSuccess) then 0 else - ENOENT, inode, stat).

Definition Mknod (rfuel : nat) (pinode : Z) (fname : bytes) (mode inode : Z)
    (stat : metafs_stat_t) : M client (Z * Z * metafs_stat_t) :=
  let* (res, inode, stat) := RPC_Mknod pinode fname mode inode stat in
  let* again := handle_rpc_resp rfuel res in
  let* (res, inode, stat) := if (again : bool) then RPC_Mknod pinode fname mode inode stat
                             else ret (res, inode, stat) in
  ret (if decide (res = kSuccess) then 0 else - EEXIST, inode, stat).

Definition Open (rfuel : nat) (pinode : Z) (fname : bytes) (mode inode : Z)
    (stat : metafs_stat_t) : M client (Z * Z * metafs_stat_t) :=
  let* (res, inode, stat) := RPC_Open pinode fname mode inode stat in
  let* again := handle_rpc_resp rfuel res in
  let* (res, inode, stat) := if (again : bool) then RPC_Open pinode fname mode inode stat
                             else ret (res, inode, stat) in
  ret (if decide (res = kSuccess) then 0 else - ENOENT, inode, stat).

Definition Unlink (rfuel : nat) (pinode : Z) (fname : bytes) : M client Z :=
  let* res := RPC_Unlink pinode fname in
  let* again := handle_rpc_resp rfuel res in
  let* res := if (again : bool) then RPC_Unlink pinode fname else ret res in
  ret (if decide (res = kSuccess) then 0 else - ENOENT).

Definition Mkdir (rfuel : nat) (pinode : Z) (fname : bytes) (mode inode : Z)
  : M client (Z * Z) :=
  let* (res, inode) := RPC_Mkdir pinode fname mode inode in
  let* again := handle_rpc_resp rfuel res in
  let* (res, inode) := if (again : bool) then RPC_Mkdir pinode fname mode inode
                       else ret (res, inode) in
  ret (if decide (res = kSuccess) then 0 else - EEXIST, inode).

Definition Readdir (rfuel : nat) (dir_inode : Z) (dir : Files.OpenFile)
  : M client (Z * Files.OpenFile) :=
  let* (res, dir) := RPC_Readdir rfuel dir_inode dir in
  let* again := handle_rpc_resp rfuel res in
  let* (res, dir) := if (again : bool) then RPC_Readdir rfuel dir_inode (Files.clearEntries dir)
                     else ret (res, dir) in
  ret (if decide (res = kSuccess) then 0 else - ENOENT, dir).

Definition Rmdir (rfuel : nat) (pinode : Z) (fname : bytes) : M client Z :=
  let* res := RPC_Rmdir pinode fname in
  let* again := handle_rpc_resp rfuel res in
  let* res := if (again : bool) then RPC_Rmdir pinode fname else ret res in
  ret (if decide (res = kSuccess) then 0 else - ENOENT).

End MetaClient.
