(* ===== verification/Hooks.v ===== *)
(** * The system call hooks ([src/client/hooks.cc])

    One definition per [hook_*] function and the dispatch of [hook] and
    [metafs_hook].  A hook returns its [int] result (0: the call was handled, any
    other value: the kernel gets it) and the value of [*res], which keeps its old
    value where the code does not assign it; output structs and buffers are
    returned.  A path is the content of a C string. *)

From Stdlib Require Import ZArith Lia.
From stdpp Require Import base numbers list gmap.
From S2P Require Import Prelude Types Wire Handlers LruCache DentryCache OpenFileMap RpcClient.
From S2P Require Import MetaClient.
Open Scope Z_scope.

(** ** Constants of the Linux headers *)

Definition AT_FDCWD : Z := -100.
Definition AT_REMOVEDIR : Z := 512.
Definition O_DIRECTORY : Z := 65536.
Definition S_IFMT : Z := 61440.
Definition S_IFDIR : Z := 16384.
Definition S_IFREG : Z := 32768.
Definition EINVAL : Z := 22.
Definition ENOTSUP : Z := 95.
Definition DT_DIR : Z := 4.
Definition DT_REG : Z := 8.
Definition SEEK_SET : Z := 0.
Definition SEEK_CUR : Z := 1.
Definition ST_NOSUID : Z := 2.
Definition ST_NODEV : Z := 4.
Definition NR_fork : Z := 57.
Definition NR_vfork : Z := 58.

Definition S_ISDIR (m : Z) : bool := Z.land m S_IFMT =? S_IFDIR.
Definition S_ISREG (m : Z) : bool := Z.land m S_IFMT =? S_IFREG.

(** [strncmp(a, b, n) == 0] on C strings. *)
Definition strncmp_eq (a b : bytes) (n : Z) : bool :=
  let k := Z.to_nat (Z.min n (Z.of_nat (length a + length b + 1))) in
  bool_decide (take k (a ++ [0]) = take k (b ++ [0])).

(** [struct stat] and [struct statfs]. *)
Record kstat := {
  st_dev : Z; st_ino : Z; st_mode : Z; st_nlink : Z; st_uid : Z; st_gid : Z; st_rdev : Z;
  st_size : Z; st_blksize : Z; st_blocks : Z; st_atim : Z; st_mtim : Z; st_ctim : Z
}.

Record kstatfs := {
  f_type : Z; f_bsize : Z; f_blocks : Z; f_bfree : Z; f_bavail : Z; f_files : Z;
  f_ffree : Z; f_fsid : Z * Z; f_namelen : Z; f_frsize : Z; f_flags : Z
}.

(** The assignments of [hook_stat] and [hook_fstat]. *)
Definition fill_stat (inode : Z) (s : metafs_stat_t) (st : kstat) : kstat :=
  {| st_dev := 0; st_ino := inode; st_mode := mode s; st_nlink := 1; st_uid := 0;
     st_gid := 0; st_rdev := 0; st_size := st_size st; st_blksize := st_blksize st;
     st_blocks := st_blocks st; st_atim := atime s; st_mtim := mtime s;
     st_ctim := ctime s |}.

Section Hooks.
Context {P : Platform}.
(** [c_cfg->mountdir]; [mountdir_len] is its length. *)
Context (mountdir : bytes).
(** The fuel of the loops that wait for a region map and read a directory. *)
Context (rfuel : nat).
Local Open Scope m_scope.

Definition mt_dir_len : Z := Z.of_nat (length mountdir).

(** The number of slashes at the front. *)
Fixpoint slashes (s : bytes) : nat :=
  match s with
  | b :: s' => if b =? slash then S (slashes s') else O
  | [] => O
  end.

(** The prefix test and the loop that finds [realpath]; [None] when the path is not
    below the mount point.  [--fn] leaves the array when nothing precedes it. *)
Definition realpath_of (cpath : bytes) : M client (option bytes) :=
  if negb (strncmp_eq mountdir cpath mt_dir_len) || (length cpath =? length mountdir)%nat
  then ret None
  else
    match (length mountdir + slashes (drop (length mountdir) cpath))%nat with
    | O => raise OutOfBounds
    | S fn => ret (Some (drop fn cpath))
    end.

(** [make_shared<...>(...)] and [file_map()->add(...)]. *)
Definition add_file (o : Files.OpenFile) : M client Z :=
  let* p := on_files (Files.alloc o) in
  on_files (Files.add p).

(** ** Files and directories *)

Definition hook_openat (j : junk) (dirfd : Z) (cpath : bytes) (flags mode res : Z)
  : M client (Z * Z) :=
  if negb (dirfd =? AT_FDCWD) then ret (1, res)
  else if negb (bool_decide (head cpath = Some slash)) then ret (1, res)
  else
    let* rp := realpath_of cpath in
    match rp with
    | None => ret (1, res)
    | Some realpath =>
        let* (s, pinode, fname, _) := ResolvePath rfuel (j_inode j) realpath (j_inode j) [] None in
        if negb (bool_decide (s = ROk)) then ret (0, - ENOENT)
        else if Files.has_flag flags Files.O_CREAT then
          if Files.has_flag flags O_DIRECTORY || S_ISDIR mode then
            let* (r, _) := Mkdir rfuel pinode fname (Z.lor mode S_IFDIR) (j_inode j) in
            if negb (r =? 0) then ret (0, - EEXIST) else ret (0, res)
          else
            let* (r, inode, _) := Mknod rfuel pinode fname (Z.lor mode S_IFREG) (j_inode j) (j_stat j) in
            if negb (r =? 0) then ret (0, - EEXIST)
            else
              let* fd := add_file (Files.new_OpenFile realpath flags pinode fname inode Files.regular) in
              ret (0, fd)
        else
          let* (r, inode, stat) := Open rfuel pinode fname
            (if Files.has_flag flags O_DIRECTORY then Z.lor mode S_IFDIR else Z.lor mode S_IFREG)
            (j_inode j) (j_stat j) in
          if negb (r =? - ENOENT) then
            if S_ISDIR (Types.mode stat) then
              let* (r, dir) := Readdir rfuel inode (Files.new_OpenDir realpath pinode fname inode) in
              if negb (r =? 0) then ret (-1, - Files.EBADF)
              else let* fd := add_file dir in ret (0, fd)
            else if S_ISREG (Types.mode stat) then
              let* fd := add_file (Files.new_OpenFile realpath flags pinode fname inode Files.regular) in
              ret (0, fd)
            else ret (1, - ENOTSUP)
          else ret (0, - ENOENT)
    end.

Definition hook_fsync (fd res : Z) : M client (Z * Z) :=
  if fd <? START_FD then ret (1, res) else ret (0, 0).

Definition hook_close (fd res : Z) : M client (Z * Z) :=
  if fd <? START_FD then ret (1, res)
  else
    let* b := on_files (Files.exist fd) in
    (if (b : bool) then on_files (Files.remove fd) ;;; ret tt else ret tt) ;;;
    ret (0, 0).

(** [fd] is an uninitialised local. *)
Definition hook_mkdirat (j : junk) (dirfd : Z) (path : bytes) (mode res : Z)
  : M client (Z * Z) :=
  if negb (dirfd =? AT_FDCWD) then ret (1, res)
  else
    let* (was_hooked, _) := hook_openat j dirfd path (Z.lor Files.O_CREAT O_DIRECTORY) mode
                              (j_inode j) in
    if negb (was_hooked =? 0) then ret (1, res) else ret (0, 0).

Definition hook_statfs (path : bytes) (sf : kstatfs) (res : Z) : M client (Z * Z * kstatfs) :=
  if negb (strncmp_eq mountdir path (u64 (mt_dir_len - 1))) then ret (1, res, sf)
  else
    ret (0, 0, {| f_type := METAFS_MAGIC; f_bsize := METAFS_BLK_SIZE; f_blocks := 40960;
                  f_bfree := 40960; f_bavail := 40960; f_files := 0; f_ffree := 2 ^ 64 - 1;
                  f_fsid := (0, 0); f_namelen := METAFS_MAX_FNAME_LEN; f_frsize := 0;
                  f_flags := Z.lor ST_NOSUID ST_NODEV |}).

Definition hook_unlinkat (j : junk) (dirfd : Z) (cpath : bytes) (flags res : Z)
  : M client (Z * Z) :=
  if negb (dirfd =? AT_FDCWD) then ret (1, res)
  else if negb (bool_decide (head cpath = Some slash)) then ret (1, res)
  else
    let* rp := realpath_of cpath in
    match rp with
    | None => ret (1, res)
    | Some realpath =>
        let* (s, pinode, fname, _) := ResolvePath rfuel (j_inode j) realpath (j_inode j) [] None in
        p_assert (bool_decide (s = ROk)) ;;;
        let* r := if Files.has_flag flags AT_REMOVEDIR then Rmdir rfuel pinode fname
                  else Unlink rfuel pinode fname in
        ret (0, r)
    end.

Definition hook_stat (j : junk) (cpath : bytes) (st : kstat) (res : Z)
  : M client (Z * Z * kstat) :=
  let* rp := realpath_of cpath in
  match rp with
  | None => ret (1, res, st)
  | Some realpath =>
      let* (s, pinode, fname, _) := ResolvePath rfuel (j_inode j) realpath (j_inode j) [] None in
      if negb (bool_decide (s = ROk)) then ret (- ENOENT, res, st)
      else
        let* (r, inode, stat) := Getstat rfuel pinode fname (j_inode j) (j_stat j) in
        ret (0, r, if r =? 0 then fill_stat inode stat st else st)
  end.

Definition hook_fstat (j : junk) (fd : Z) (st : kstat) (res : Z) : M client (Z * Z * kstat) :=
  if fd <? START_FD then ret (1, res, st)
  else
    let* b := on_files (Files.exist fd) in
    if (b : bool) then
      let* f := on_files (Files.get fd) in
      match f with
      | None => raise NullDeref
      | Some p =>
          let* ffd := on_files (Files.deref p) in
          let* (r, inode, stat) := Getstat rfuel (Files.pinode_ ffd) (Files.fname_ ffd)
                                     (j_inode j) (j_stat j) in
          ret (0, r, if r =? 0 then fill_stat inode stat st else st)
      end
    else ret (0, - EINVAL, st).

(** [st] and [stat_res] are uninitialised locals. *)
Definition hook_access (j : junk) (path : bytes) (st : kstat) (res : Z) : M client (Z * Z) :=
  let* (was_hooked, stat_res, _) := hook_stat j path st (j_inode j) in
  if negb (was_hooked =? 0) then ret (1, res)
  else ret (0, if stat_res =? 0 then 0 else - ENOENT).

Definition hook_read (fd res : Z) : M client (Z * Z) :=
  if fd <? START_FD then ret (1, res) else ret (0, 0).

Definition hook_write (fd res : Z) : M client (Z * Z) :=
  if fd <? START_FD then ret (1, res) else ret (0, 0).

(** [if(flag = SEEK_SET)] assigns 0 and tests it. *)
Definition hook_lseek (fd off flag res : Z) : M client (Z * Z) :=
  if fd <? START_FD then ret (1, res)
  else
    let* fs_fd := on_files (Files.get fd) in
    let flag := SEEK_SET in
    if negb (flag =? 0) then
      if off <? 0 then ret (1, - EINVAL)
      else match fs_fd with
           | None => raise NullDeref
           | Some p => on_files (Files.update p (Files.set_pos (u64 off))) ;;; ret (0, res)
           end
    else if flag =? SEEK_CUR then
      match fs_fd with
      | None => raise NullDeref
      | Some p =>
          on_files (Files.update p (fun o => Files.set_pos (u64 (Files.pos_ o + off)) o)) ;;;
          ret (0, res)
      end
    else ret (1, - EINVAL).

(** ** Directory listings *)

(** [ALIGN(x, 8)] *)
Definition align8 (x : Z) : Z := Z.land (x + 7) (Z.lnot 7).

(** A store into the user's buffer. *)
Definition store (off : Z) (b buf : bytes) : M client bytes :=
  if off + Z.of_nat (length b) <=? Z.of_nat (length buf)
  then ret (write_at (Z.to_nat off) b buf) else raise OutOfBounds.

Definition d_type_of (e : Files.DirEntry) : Z :=
  match Files.dtype_ e with Files.regular => DT_REG | Files.directory => DT_DIR end.

Definition d_ino_of (dir : Files.OpenFile) (e : Files.DirEntry) : Z :=
  u64 (std_hash (Files.path_ dir ++ [slash] ++ Files.name_ e)).

(** One record of [struct linux_dirent] at [written]; [pos] is the incremented
    position. *)
Definition total_size (e : Files.DirEntry) : Z :=
  align8 (18 + Z.of_nat (length (Files.name_ e)) + 3).

Definition put_dirent (dir : Files.OpenFile) (e : Files.DirEntry) (written pos : Z)
    (buf : bytes) : M client bytes :=
  let* buf := store written (le_bytes 8 (d_ino_of dir e)) buf in
  let* buf := store (written + 16) (le_bytes 2 (total_size e)) buf in
  let* buf := store (written + total_size e - 1) [d_type_of e] buf in
  let* buf := store (written + 18) (c_str (Files.name_ e) ++ [0]) buf in
  store (written + 8) (le_bytes 8 pos) buf.

(** One record of [struct linux_dirent64]. *)
Definition total_size64 (e : Files.DirEntry) : Z :=
  align8 (19 + Z.of_nat (length (Files.name_ e)) + 1).

Definition put_dirent64 (dir : Files.OpenFile) (e : Files.DirEntry) (written pos : Z)
    (buf : bytes) : M client bytes :=
  let* buf := store written (le_bytes 8 (d_ino_of dir e)) buf in
  let* buf := store (written + 16) (le_bytes 2 (total_size64 e)) buf in
  let* buf := store (written + 18) [d_type_of e] buf in
  let* buf := store (written + 19) (c_str (Files.name_ e) ++ [0]) buf in
  store (written + 8) (le_bytes 8 pos) buf.

(** The [while (pos < open_dir->size())] loop of both functions. *)
Fixpoint dents_loop (fuel : nat) (size : Files.DirEntry -> Z)
    (put : Files.OpenFile -> Files.DirEntry -> Z -> Z -> bytes -> M client bytes)
    (dir : Files.OpenFile) (count pos written : Z) (buf : bytes) : M client (Z * Z * bytes) :=
  match fuel with
  | O => raise OutOfFuel
  | S fuel' =>
      if pos <? Files.dir_size dir then
        let* de := Files.getdent pos dir in
        if u32 (count - written) <? size de then ret (pos, written, buf)
        else
          let* buf := put dir de written (pos + 1) buf in
          dents_loop fuel' size put dir count (pos + 1) (u32 (written + size de)) buf
      else ret (pos, written, buf)
  end.

Definition list_dents (size : Files.DirEntry -> Z)
    (put : Files.OpenFile -> Files.DirEntry -> Z -> Z -> bytes -> M client bytes)
    (fd count : Z) (buf : bytes) (res : Z) : M client (Z * Z * bytes) :=
  if fd <? START_FD then ret (1, res, buf)
  else
    let* b := on_files (Files.exist fd) in
    if negb b then ret (0, res, buf)
    else
      let* d := on_files (Files.get_dir fd) in
      match d with
      | None => ret (1, - Files.EBADF, buf)
      | Some p =>
          let* dir := on_files (Files.deref p) in
          if Files.dir_size dir <=? Files.pos_ dir then ret (0, 0, buf)
          else
            let* (pos, written, buf) :=
              dents_loop (S (length (Files.entries dir))) size put dir count (Files.pos_ dir) 0 buf in
            if written =? 0 then ret (1, - EINVAL, buf)
            else
              on_files (Files.update p (Files.set_pos pos)) ;;;
              ret (0, written, buf)
      end.

Definition hook_getdents (fd count : Z) (buf : bytes) (res : Z) : M client (Z * Z * bytes) :=
  list_dents total_size put_dirent fd count buf res.

Definition hook_getdents64 (fd count : Z) (buf : bytes) (res : Z) : M client (Z * Z * bytes) :=
  list_dents total_size64 put_dirent64 fd count buf res.

(** ** Dispatch *)

(** A system call with the arguments the table reads, each a [long] or the memory it
    points to. *)
Inductive syscall :=
  | SYS_open (path : bytes) (a1 a2 : Z)
  | SYS_creat (path : bytes) (a1 : Z)
  | SYS_openat (a0 : Z) (path : bytes) (a2 a3 : Z)
  | SYS_close (a0 : Z)
  | SYS_write (a0 : Z)
  | SYS_read (a0 : Z)
  | SYS_lseek (a0 a1 a2 : Z)
  | SYS_fsync (a0 : Z)
  | SYS_stat (path : bytes) (st : kstat)
  | SYS_fstat (a0 : Z) (st : kstat)
  | SYS_mkdirat (a0 : Z) (path : bytes) (a2 : Z)
  | SYS_mkdir (path : bytes) (a1 : Z)
  | SYS_statfs (path : bytes) (sf : kstatfs)
  | SYS_access (path : bytes) (a1 : Z)
  | SYS_unlink (path : bytes)
  | SYS_rmdir (path : bytes)
  | SYS_getdents (a0 : Z) (buf : bytes) (a2 : Z)
  | SYS_getdents64 (a0 : Z) (buf : bytes) (a2 a3 : Z)
  | SYS_other (n : Z).

(** The memory a call leaves behind. *)
Inductive umem := UNone | UStat (st : kstat) | UStatfs (sf : kstatfs) | UBuf (buf : bytes).

Definition no_mem (c : M client (Z * Z)) : M client (Z * Z * umem) :=
  let* (r, res) := c in ret (r, res, UNone).

Definition hook (j : junk) (jst : kstat) (call : syscall) (res : Z) : M client (Z * Z * umem) :=
  match call with
  | SYS_open path a1 a2 => no_mem (hook_openat j AT_FDCWD path (i32 a1) (u32 a2) res)
  | SYS_creat path a1 =>
      no_mem (hook_openat j AT_FDCWD path
                (Z.lor (Z.lor Files.O_WRONLY Files.O_CREAT) Files.O_TRUNC) (u32 a1) res)
  | SYS_openat a0 path a2 a3 => no_mem (hook_openat j (i32 a0) path (i32 a2) (u32 a3) res)
  | SYS_close a0 => no_mem (hook_close (i32 a0) res)
  | SYS_write a0 => no_mem (hook_write (i32 a0) res)
  | SYS_read a0 => no_mem (hook_read (i32 a0) res)
  | SYS_lseek a0 a1 a2 => no_mem (hook_lseek (i32 a0) a1 (i32 a2) res)
  | SYS_fsync a0 => no_mem (hook_fsync (i32 a0) res)
  | SYS_stat path st => let* (r, x, st') := hook_stat j path st res in ret (r, x, UStat st')
  | SYS_fstat a0 st => let* (r, x, st') := hook_fstat j (i32 a0) st res in ret (r, x, UStat st')
  | SYS_mkdirat a0 path a2 => no_mem (hook_mkdirat j (i32 a0) path (u32 a2) res)
  | SYS_mkdir path a1 => no_mem (hook_mkdirat j AT_FDCWD path (u32 a1) res)
  | SYS_statfs path sf => let* (r, x, sf') := hook_statfs path sf res in ret (r, x, UStatfs sf')
  | SYS_access path _ => no_mem (hook_access j path jst res)
  | SYS_unlink path => no_mem (hook_unlinkat j AT_FDCWD path 0 res)
  | SYS_rmdir path => no_mem (hook_unlinkat j AT_FDCWD path AT_REMOVEDIR res)
  | SYS_getdents a0 buf a2 =>
      let* (r, x, buf') := hook_getdents (i32 a0) (i32 a2) buf res in ret (r, x, UBuf buf')
  | SYS_getdents64 a0 buf a2 a3 =>
      let* (r, x, buf') := hook_getdents64 (i32 a0) (i32 a3) buf res in ret (r, x, UBuf buf')
  | SYS_other n =>
      p_assert (negb (n =? NR_fork) && negb (n =? NR_vfork)) ;;;
      ret (1, res, UNone)
  end.

(** [metafs_hook]; a call made while a hook runs goes to the kernel.  The saved and
    restored [errno] is not part of the state. *)
Definition metafs_hook (j : junk) (jst : kstat) (call : syscall) (res : Z)
  : M client (Z * Z * umem) :=
  let* flag := gets reentrance_flag in
  if (flag : bool) then ret (1, res, UNone)
  else
    modify (set_reentrance_flag true) ;;;
    let* r := hook j jst call res in
    modify (set_reentrance_flag false) ;;;
    ret r.

End Hooks.
