(* ===== verification/ClientSpec.v ===== *)
(** * What the client relies on, and what its requests do

    Lemmas on the request buffer; the interface [Service] that states what a client
    expects of the servers behind its sessions (every accepted request is one step
    of the abstract file system); and one triple per [RPC_*] method proved against
    that interface. *)

From Stdlib Require Import ZArith Lia.
From stdpp Require Import base numbers list gmap.
From S2P Require Import Prelude JumpHash Types XXHash Stores Wire Server Handlers HandlerSpec.
From S2P Require Import LruCache DentryCache OpenFileMap RpcClient MetaClient.
Open Scope Z_scope.

(** ** The request buffer *)

Lemma slice_take (l : bytes) m o n :
  (o + n <= m)%nat -> take n (drop o (take m l)) = take n (drop o l).
Proof.
  intros H. apply list_eq. intros i. rewrite !lookup_slice.
  destruct (decide (i < n)%nat) as [Hi|Hi]; [|reflexivity].
  apply lookup_take_lt. lia.
Qed.

Lemma int_at_same off n z buf :
  (off + n <= length buf)%nat ->
  int_at off n (write_at off (le_bytes n z) buf) = z mod 256 ^ Z.of_nat n.
Proof.
  intros H. unfold int_at. rewrite <- (length_le_bytes n z) at 1.
  rewrite slice_write_same by (rewrite length_le_bytes; exact H). apply le_value_le_bytes.
Qed.

Lemma int_at_other off b buf o n :
  (off + length b <= length buf)%nat -> (o + n <= off \/ off + length b <= o)%nat ->
  int_at o n (write_at off b buf) = int_at o n buf.
Proof. intros H Hd. unfold int_at. rewrite slice_write_other by assumption. reflexivity. Qed.

Lemma int_at_take m o n l : (o + n <= m)%nat -> int_at o n (take m l) = int_at o n l.
Proof. intros H. unfold int_at. rewrite slice_take by exact H. reflexivity. Qed.

(** The name at the end of a message. *)
Lemma name_at off f buf :
  no_nul f -> (off + S (length f) <= length buf)%nat ->
  drop off (take (off + S (length f)) (strcpy_at off f buf)) = f ++ [0].
Proof.
  intros Hf H. unfold strcpy_at. rewrite c_str_id by exact Hf.
  rewrite skipn_firstn_comm, Nat.add_comm, Nat.add_sub.
  assert (length (f ++ [0]) = S (length f)) as Hl by (rewrite length_app; cbn; lia).
  rewrite <- Hl. apply slice_write_same. lia.
Qed.

Lemma c_str_nul f : no_nul f -> c_str (f ++ [0]) = f.
Proof. apply c_str_app_nul. Qed.

Lemma fkey_nul f : no_nul f -> fkey (f ++ [0]) = f ++ [0].
Proof. intros H. unfold fkey. rewrite c_str_nul by exact H. reflexivity. Qed.

(** Side conditions on lengths, and reading an integer back through the writes. *)
Ltac blen :=
  unfold strcpy_at;
  repeat (rewrite length_write_at by blen);
  rewrite ?length_app, ?length_le_bytes; cbn [length]; lia.

Ltac bread :=
  repeat first
    [ rewrite int_at_take by lia
    | rewrite int_at_same by blen
    | rewrite int_at_other by blen ].

(** What is left of the buffer when a request has been written: the fields no
    method assigns. *)
Definition header (b : bytes) : Z * Z := (i32 (int_at 0 4 b), int_at 16 8 b).

Section Messages.
Context (buf f : bytes) (p : Z).
Hypothesis Hbuf : Z.of_nat (length buf) = wire_req_size.
Hypothesis Hnul : no_nul f.
Hypothesis Hlen : Z.of_nat (length f) < METAFS_MAX_FNAME_LEN.
Hypothesis Hp : is_u64 p.

Lemma len3768 : length buf = 3768%nat.
Proof. clear -Hbuf. unfold wire_req_size in Hbuf. lia. Qed.

Lemma len128 : (length f < 128)%nat.
Proof. clear -Hlen. unfold METAFS_MAX_FNAME_LEN in Hlen. lia. Qed.

Lemma cstr_f : c_str f = f.
Proof. apply c_str_id, Hnul. Qed.

Lemma fname_msg :
  let b := strcpy_at 24 f (write_at 8 (le_bytes 8 p) buf) in
  length b = length buf /\ header b = header buf /\
  as_FnameReq (take (24 + S (length f)) b)
  = {| fr_region_id := fst (header buf); fr_pinode := p; fr_pinode_hash := snd (header buf);
       fr_fname := f ++ [0] |}.
Proof.
  intros b. subst b. pose proof len3768. pose proof len128.
  split; [unfold strcpy_at; rewrite cstr_f; blen|].
  unfold header, as_FnameReq. rewrite name_at by (try exact Hnul; blen). cbn [fst snd].
  unfold strcpy_at; rewrite cstr_f. split; [f_equal; bread; reflexivity|].
  f_equal; bread; try reflexivity. apply u64_small, Hp.
Qed.

Lemma mode_msg m :
  let b := strcpy_at 28 f (write_at 24 (le_bytes 4 m) (write_at 8 (le_bytes 8 p) buf)) in
  length b = length buf /\ header b = header buf /\
  as_ModeReq (take (28 + S (length f)) b)
  = {| mr_region_id := fst (header buf); mr_pinode := p; mr_pinode_hash := snd (header buf);
       mr_mode := u32 m; mr_fname := f ++ [0] |}.
Proof.
  intros b. subst b. pose proof len3768. pose proof len128.
  split; [unfold strcpy_at; rewrite cstr_f; blen|].
  unfold header, as_ModeReq. rewrite name_at by (try exact Hnul; blen). cbn [fst snd].
  unfold strcpy_at; rewrite cstr_f. split; [f_equal; bread; reflexivity|].
  f_equal; bread; try reflexivity. apply u64_small, Hp.
Qed.

Lemma mknod_msg m :
  let b := strcpy_at 44 f (write_at 40 (le_bytes 4 m) (write_at 24 (le_bytes 8 p) buf)) in
  length b = length buf /\ header b = header buf /\
  as_FSMknodReq (take (44 + S (length f)) b)
  = {| kr_region_id := fst (header buf);
       kr_oid := {| lo := int_at 8 8 buf; hi := int_at 16 8 buf |};
       kr_pinode := p; kr_pinode_hash := int_at 32 8 buf;
       kr_mode := u32 m; kr_fname := f ++ [0] |}.
Proof.
  intros b. subst b. pose proof len3768. pose proof len128.
  split; [unfold strcpy_at; rewrite cstr_f; blen|].
  unfold header, as_FSMknodReq. rewrite name_at by (try exact Hnul; blen). cbn [fst snd].
  unfold strcpy_at; rewrite cstr_f. split; [f_equal; bread; reflexivity|].
  f_equal; [|f_equal| | |]; bread; try reflexivity. apply u64_small, Hp.
Qed.

(** A short name does not reach the bytes where [FSMknodReq] has its hash. *)
Lemma fname_slot :
  (length f <= 7)%nat ->
  int_at 32 8 (strcpy_at 24 f (write_at 8 (le_bytes 8 p) buf)) = int_at 32 8 buf.
Proof.
  intros H7. pose proof len3768. unfold strcpy_at. rewrite cstr_f. bread. reflexivity.
Qed.

(** A request with a name of at least 16 bytes leaves eight bytes of the name where
    [FSMknodReq] has its hash. *)
Lemma name_leaves_hash :
  (16 <= length f)%nat ->
  int_at 32 8 (strcpy_at 24 f (write_at 8 (le_bytes 8 p) buf)) = le_value (take 8 (drop 8 f)).
Proof.
  intros H16. pose proof len3768. pose proof len128. unfold int_at. f_equal. unfold strcpy_at. rewrite cstr_f.
  apply list_eq. intros i. rewrite !lookup_slice.
  destruct (decide (i < 8)%nat) as [Hi|Hi]; [|reflexivity].
  rewrite lookup_write_at by blen. rewrite decide_True by (rewrite length_app; cbn; lia).
  rewrite lookup_app_l by lia. f_equal; lia.
Qed.

End Messages.

Lemma readdir_msg buf p off :
  Z.of_nat (length buf) = wire_req_size -> is_u64 p -> is_u64 off ->
  let b := write_readdir p off buf in
  length b = length buf /\ header b = header buf /\
  as_FSReaddirReq (take 32 b)
  = {| rr_region_id := fst (header buf); rr_inode := p; rr_inode_hash := snd (header buf);
       rr_offset := off |}.
Proof.
  intros Hbuf Hp Ho b. subst b. pose proof (len3768 buf Hbuf). unfold write_readdir. split; [blen|].
  unfold header, as_FSReaddirReq. cbn [fst snd]. split; [f_equal; bread; reflexivity|].
  f_equal; bread; try reflexivity; apply u64_small; assumption.
Qed.

(** ** The interface of the servers *)

(** The member of [wire_resp_t] the handler of a request writes. *)
Definition member (q : wire_req) (r : wire_resp) : Prop :=
  match q, r with
  | (FSGetinodeReq _ | FSMkdirReq _), RInode _ => True
  | (FSOpenReq _ | FSStatReq _ | MknodReq _), RStat _ => True
  | (FSUnlinkReq _ | FSRmdirReq _), RStatus _ => True
  | ReaddirReq _, RReaddir _ => True
  | ReadRegionmapReq _, RRegionmap _ => True
  | _, _ => False
  end.

(** One answered [readdir] request: [m] consecutive entries of the listing [l] of
    directory [p] from position [cur]. *)
Record chunk (l : list (bytes * Z)) (p : Z) (cur m : nat) (x : FSReaddirResp) : Prop := {
  chunk_pos : (1 <= m)%nat;
  chunk_in : (cur + m <= length l)%nat;
  chunk_code : rd_resp_type x = kSuccess;
  chunk_count : rd_num_result x = Z.of_nat m;
  chunk_bytes : exists tail, rd_entries x = dirents_bytes p (take m (drop cur l)) ++ tail;
  chunk_offset : is_u64 (rd_next_offset x);
  chunk_more : rd_is_uncomplete x = 0 <-> (length l <= cur + m)%nat
}.

(** What the servers behind the client's sessions promise.  [view] is the file system
    they hold, [ready k] says that they can serve [k] more requests, and
    [accepts n sid rid h] that a request for region [rid] with hash [h] is served on
    session [sid].  An accepted request is one step of the abstract file system;
    [listing] and [scan] describe directory scans. *)
Class Service (P : Platform) := {
  view : Net -> afs;
  ready : nat -> Net -> Prop;
  accepts : Net -> Z -> Z -> Z -> Prop;
  listing : Net -> Z -> list (bytes * Z);
  scan : Net -> Z -> Z -> nat;

  view_u64 k n key i : ready k n -> a_dents (view n) !! key = Some i -> is_u64 i;
  ready_le k k' n : (k' <= k)%nat -> ready k n -> ready k' n;
  scan_start n p : scan n p 0 = 0%nat;
  listing_spec k n p f i :
    ready k n -> (f, i) ∈ listing n p <-> a_dents (view n) !! (p, f) = Some i;
  listing_NoDup k n p : ready k n -> NoDup (listing n p);
  listing_name k n p f i :
    ready k n -> (f, i) ∈ listing n p -> exists g, f = g ++ [0] /\ no_nul g;

  svc_request k n sid q rid h fname :
    target q = Some (rid, h, fname) -> ready (S k) n -> accepts n sid rid h ->
    has_nul fname = true -> Z.of_nat (length (c_str fname)) < METAFS_MAX_FNAME_LEN ->
    exists j now a s',
      a_step j now q (view n) = Some (a, s') /\
      wp (rpc sid q)
        (fun r n' => answers a r /\ member q r /\ view n' = s' /\ ready k n' /\
           forall sid rid h, accepts n sid rid h -> accepts n' sid rid h) n;

  svc_readdir k n sid q :
    ready (S k) n -> accepts n sid (rr_region_id q) (rr_inode_hash q) ->
    (scan n (rr_inode q) (rr_offset q) < length (listing n (rr_inode q)))%nat ->
    wp (rpc sid (ReaddirReq q))
      (fun r n' => exists x m, r = RReaddir x /\
         chunk (listing n (rr_inode q)) (rr_inode q) (scan n (rr_inode q) (rr_offset q)) m x /\
         scan n (rr_inode q) (rd_next_offset x)
           = (scan n (rr_inode q) (rr_offset q) + m)%nat /\
         view n' = view n /\ ready k n' /\
         (forall p, listing n' p = listing n p) /\
         (forall p off, scan n' p off = scan n p off) /\
         forall sid rid h, accepts n sid rid h -> accepts n' sid rid h) n
}.

Section ClientSpec.
Context {P : Platform} {SV : Service P}.

(** Session [sid] is the one the client picks for directory [p]. *)
Definition routes (c : client) (p sid : Z) : Prop :=
  server_session p c = Done (sid, c) /\ 0 <= sid < total_servers c.

(** The client can send [k] requests: its buffer has its full size, every directory
    has a session, and the servers accept what the unassigned fields of the buffer
    name. *)
Record connected (k : nat) (c : client) : Prop := {
  con_buf : Z.of_nat (length (req_buf c)) = wire_req_size;
  con_route : forall p, exists sid, routes c p sid;
  con_accept : forall p sid, routes c p sid ->
    accepts (net c) sid (fst (header (req_buf c))) (snd (header (req_buf c)));
  con_ready : ready k (net c)
}.

Lemma server_session_frame p c c' :
  regions c' = regions c -> total_servers c' = total_servers c ->
  server_session p c'
  = match server_session p c with Done (sid, _) => Done (sid, c') | Fault f => Fault f end.
Proof.
  intros Hr Ht. unfold server_session, bind, gets, p_assert. rewrite Hr.
  destruct (negb _); [|reflexivity]. unfold ret. rewrite Ht.
  destruct (_ <? _); [reflexivity|]. destruct (JumpConsistentHash _ _); reflexivity.
Qed.

Lemma routes_frame c c' p sid :
  regions c' = regions c -> total_servers c' = total_servers c ->
  routes c' p sid <-> routes c p sid.
Proof.
  intros Hr Ht. unfold routes. rewrite (server_session_frame p c c' Hr Ht), Ht.
  assert (forall s x, server_session p c = Done (s, x) -> x = c) as E.
  { intros s x. unfold server_session, bind, gets, p_assert.
    destruct (negb _); [|discriminate]. unfold ret, raise.
    destruct (_ <? _); [congruence|]. destruct (JumpConsistentHash _ _); congruence. }
  destruct (server_session p c) as [[s x]|f]; [|split; intros [? _]; discriminate].
  specialize (E s x eq_refl) as ->. split; intros [[= ->] H]; auto.
Qed.

Lemma connected_frame k c c' :
  regions c' = regions c -> total_servers c' = total_servers c ->
  Z.of_nat (length (req_buf c')) = wire_req_size -> header (req_buf c') = header (req_buf c) ->
  (forall sid rid h, accepts (net c) sid rid h -> accepts (net c') sid rid h) ->
  ready k (net c') -> (exists k0, connected k0 c) -> connected k c'.
Proof.
  intros Hr Ht Hb Hh Ha Hk (k0 & Hc). split; try assumption.
  - intros p. destruct (con_route _ _ Hc p) as [sid Hs]. exists sid.
    apply (routes_frame c c'); assumption.
  - intros p sid Hs. rewrite Hh. apply Ha, (con_accept _ _ Hc p).
    apply (routes_frame c c'); assumption.
Qed.

Lemma connected_le k k' c : (k' <= k)%nat -> connected k c -> connected k' c.
Proof. intros Hk []. split; try assumption. eapply ready_le; eassumption. Qed.

Lemma wp_zoom {S A} (get : client -> S) set (m : M S A) (Q : A -> client -> Prop) c :
  wp m (fun a s => Q a (set s c)) (get c) -> wp (zoom get set m) Q c.
Proof. unfold wp, zoom. destruct (m (get c)) as [[a s]|f]; auto. Qed.

(** The client after a request. *)
Definition after (b : bytes) (n : Net) (c : client) : client := set_net n (set_req_buf b c).

(** The unassigned fields and what the servers accept survive. *)
Definition keeps (c c' : client) : Prop :=
  header (req_buf c') = header (req_buf c) /\
  forall sid rid h, accepts (net c) sid rid h -> accepts (net c') sid rid h.

Lemma keeps_refl c : keeps c c.
Proof. split; auto. Qed.

Lemma keeps_trans c c' c'' : keeps c c' -> keeps c' c'' -> keeps c c''.
Proof. intros [H1 H2] [H3 H4]. split; [congruence|auto]. Qed.

(** The bytes of the buffer that [mknod] sends as its hash. *)
Definition slot (c : client) : Z := int_at 32 8 (req_buf c).

Local Open Scope m_scope.

Lemma wp_request size w (Q : bytes -> client -> Prop) c :
  size <= wire_req_size ->
  Q (take (Z.to_nat size) (w (req_buf c))) (set_req_buf (w (req_buf c)) c) ->
  wp (request size w) Q c.
Proof.
  intros Hs HQ. apply wp_bind, wp_assert; [apply Z.leb_le, Hs|]. apply HQ.
Qed.

Lemma wp_enqueue sid q (Q : wire_resp -> client -> Prop) c :
  0 <= sid < total_servers c ->
  wp (rpc sid q) (fun r n => Q r (set_net n c)) (net c) -> wp (enqueue sid q) Q c.
Proof.
  intros Hs HQ. apply wp_bind, wp_gets.
  replace ((0 <=? sid) && (sid <? total_servers c)) with true by
    (symmetry; apply andb_true_iff; rewrite Z.leb_le, Z.ltb_lt; exact Hs).
  apply wp_zoom, HQ.
Qed.

(** A namespace request from the routing to the response. *)
Lemma wp_send {A} k c p size w (mk : bytes -> wire_req) q h fname
    (post : wire_resp -> M client A) (Q : A -> client -> Prop) :
  connected (S k) c -> size <= wire_req_size ->
  length (w (req_buf c)) = length (req_buf c) ->
  header (w (req_buf c)) = header (req_buf c) ->
  mk (take (Z.to_nat size) (w (req_buf c))) = q ->
  target q = Some (fst (header (req_buf c)), h, fname) ->
  (forall sid, routes c p sid -> accepts (net c) sid (fst (header (req_buf c))) h) ->
  has_nul fname = true -> Z.of_nat (length (c_str fname)) < METAFS_MAX_FNAME_LEN ->
  (forall j now a s' r n',
     a_step j now q (view (net c)) = Some (a, s') -> answers a r -> member q r ->
     view n' = s' -> connected k (after (w (req_buf c)) n' c) ->
     keeps c (after (w (req_buf c)) n' c) ->
     wp (post r) Q (after (w (req_buf c)) n' c)) ->
  wp (let* sid := server_session p in
      let* msg := request size w in
      let* r := enqueue sid (mk msg) in post r) Q c.
Proof.
  intros Hc Hsize Hlen Hh Hq Ht Hacc Hnul Hshort HQ.
  destruct (con_route _ _ Hc p) as [sid [Hs Hr]].
  apply wp_bind. unfold wp at 1. rewrite Hs. apply wp_bind, wp_request; [exact Hsize|].
  rewrite Hq. apply wp_bind, wp_enqueue; [exact Hr|]. cbn [net set_req_buf].
  destruct (svc_request k (net c) sid q _ h fname Ht (con_ready _ _ Hc)
              (Hacc sid (conj Hs Hr)) Hnul Hshort) as (j & now & a & s' & Hstep & Hwp).
  eapply wp_mono; [exact Hwp|]. intros r n' (Ha & Hm & Hv & Hk & Hpres).
  eapply HQ; try eassumption; [|split; assumption].
  apply (connected_frame k c); eauto; cbn; try assumption.
  rewrite Hlen. apply (con_buf _ _ Hc).
Qed.

End ClientSpec.
