(* ===== verification/RpcSpec.v ===== *)
(** * Triples of the RPC methods

    Each [RPC_*] method of a connected client, against the interface [Service]: the
    code and the out parameters it returns are those of the abstract file system,
    and the client can go on with one request less. *)

From Stdlib Require Import ZArith Lia.
From stdpp Require Import base numbers list gmap.
From S2P Require Import Prelude JumpHash Types XXHash Stores Wire Server Handlers HandlerSpec.
From S2P Require Import LruCache DentryCache OpenFileMap RpcClient MetaClient ClientSpec.
Open Scope Z_scope.

Section RpcSpec.
Context {P : Platform} {SV : Service P}.
Local Open Scope m_scope.

(** A file name that fits the request. *)
Definition good_name (f : bytes) : Prop :=
  no_nul f /\ Z.of_nat (length f) < METAFS_MAX_FNAME_LEN.

(** The directory entry of [f] in [p]. *)
Definition entry (s : afs) (p : Z) (f : bytes) : option Z := a_dents s !! (p, f ++ [0]).

Lemma good_name_slice f :
  good_name f ->
  has_nul (f ++ [0]) = true /\ Z.of_nat (length (c_str (f ++ [0]))) < METAFS_MAX_FNAME_LEN.
Proof.
  intros [H1 H2]. split; [apply has_nul_app_nul|]. rewrite c_str_nul by exact H1. exact H2.
Qed.

Lemma name_size f o :
  good_name f -> 0 <= o <= 100 -> o + len1 f <= wire_req_size /\
  forall n, o = Z.of_nat n -> Z.to_nat (o + len1 f) = (n + S (length f))%nat.
Proof.
  intros [_ H] Ho. unfold len1, wire_req_size, METAFS_MAX_FNAME_LEN in *. split; [lia|].
  intros n ->. lia.
Qed.

(** What the methods do to the client apart from its buffer and the servers:
    nothing. *)
Definition sent (k : nat) (c c' : client) : Prop :=
  connected k c' /\ keeps c c' /\ exists b n, c' = after b n c.

Section Calls.
Context (k : nat) (c : client) (p : Z) (f : bytes).
Hypothesis Hc : connected (S k) c.
Hypothesis Hf : good_name f.
Hypothesis Hp : is_u64 p.

(** The requests with the fields of [FnameReq]. *)
Lemma wp_fname {A} (mk : FnameReq -> wire_req) (post : wire_resp -> M client A)
    (Q : A -> client -> Prop) :
  (forall r, target (mk r) = Some (fr_region_id r, fr_pinode_hash r, fr_fname r)) ->
  (forall j now a s' r c',
     a_step j now (mk {| fr_region_id := fst (header (req_buf c)); fr_pinode := p;
                         fr_pinode_hash := snd (header (req_buf c));
                         fr_fname := f ++ [0] |}) (view (net c)) = Some (a, s') ->
     answers a r -> member (mk (as_FnameReq [])) r -> view (net c') = s' -> sent k c c' ->
     req_buf c' = strcpy_at 24 f (write_at 8 (le_bytes 8 p) (req_buf c)) ->
     wp (post r) Q c') ->
  (forall x y r, member (mk x) r -> member (mk y) r) ->
  wp (let* sid := server_session p in
      let* msg := request (24 + len1 f)
        (fun b => strcpy_at 24 f (write_at 8 (le_bytes 8 p) b)) in
      let* r := enqueue sid (mk (as_FnameReq msg)) in post r) Q c.
Proof.
  intros Ht HQ Hm. destruct (name_size f 24 Hf ltac:(lia)) as [Hs Hn].
  destruct (fname_msg (req_buf c) f p (con_buf _ _ Hc) (proj1 Hf) (proj2 Hf) Hp)
    as (H1 & H2 & H3).
  destruct (good_name_slice f Hf) as [Hnul Hshort].
  eapply (wp_send k c p _ _ (fun m => mk (as_FnameReq m))); try eassumption.
  - rewrite (Hn 24%nat eq_refl), H3. reflexivity.
  - rewrite Ht. reflexivity.
  - intros sid Hr. apply (con_accept _ _ Hc p), Hr.
  - intros j now a s' r n' Hstep Ha Hmem Hv Hcon Hkeep. eapply HQ; try eassumption.
    + eapply Hm, Hmem.
    + split; [exact Hcon|]. split; [exact Hkeep|]. eauto.
    + reflexivity.
Qed.

(** The requests with the fields of [ModeReq]. *)
Lemma wp_mode {A} m (mk : ModeReq -> wire_req) (post : wire_resp -> M client A)
    (Q : A -> client -> Prop) :
  (forall r, target (mk r) = Some (mr_region_id r, mr_pinode_hash r, mr_fname r)) ->
  (forall j now a s' r c',
     a_step j now (mk {| mr_region_id := fst (header (req_buf c)); mr_pinode := p;
                         mr_pinode_hash := snd (header (req_buf c)); mr_mode := u32 m;
                         mr_fname := f ++ [0] |}) (view (net c)) = Some (a, s') ->
     answers a r -> member (mk (as_ModeReq [])) r -> view (net c') = s' -> sent k c c' ->
     wp (post r) Q c') ->
  (forall x y r, member (mk x) r -> member (mk y) r) ->
  wp (let* sid := server_session p in
      let* msg := request (28 + len1 f)
        (fun b => strcpy_at 28 f (write_at 24 (le_bytes 4 m) (write_at 8 (le_bytes 8 p) b))) in
      let* r := enqueue sid (mk (as_ModeReq msg)) in post r) Q c.
Proof.
  intros Ht HQ Hm. destruct (name_size f 28 Hf ltac:(lia)) as [Hs Hn].
  destruct (mode_msg (req_buf c) f p (con_buf _ _ Hc) (proj1 Hf) (proj2 Hf) Hp m)
    as (H1 & H2 & H3).
  destruct (good_name_slice f Hf) as [Hnul Hshort].
  eapply (wp_send k c p _ _ (fun m => mk (as_ModeReq m))); try eassumption.
  - rewrite (Hn 28%nat eq_refl), H3. reflexivity.
  - rewrite Ht. reflexivity.
  - intros sid Hr. apply (con_accept _ _ Hc p), Hr.
  - intros j now a s' r n' Hstep Ha Hmem Hv Hcon Hkeep. eapply HQ; try eassumption.
    + eapply Hm, Hmem.
    + split; [exact Hcon|]. split; [exact Hkeep|]. eauto.
Qed.

Lemma wp_RPC_Getinode i0 (Q : RespType * Z -> client -> Prop) :
  (forall c', sent k c c' -> view (net c') = view (net c) ->
     ((length f <= 7)%nat -> slot c' = slot c) ->
     Q (match entry (view (net c)) p f with Some i => (kSuccess, i) | None => (kENOENT, i0) end)
       c') ->
  wp (RPC_Getinode p f i0) Q c.
Proof.
  intros HQ. apply wp_fname; [reflexivity| |auto].
  intros j now a s' r c' Hstep Ha Hm Hv Hc' Hbuf. cbn [a_step fr_pinode fr_fname] in Hstep.
  assert ((length f <= 7)%nat -> slot c' = slot c) as Hslot.
  { unfold slot. rewrite Hbuf. exact (fname_slot (req_buf c) f p (con_buf _ _ Hc) (proj1 Hf)). }
  rewrite fkey_nul in Hstep by apply Hf. unfold entry in HQ. destruct r; try contradiction.
  destruct (a_dents _ !! _) as [i|]; injection Hstep as <- <-; cbn in Ha.
  - destruct Ha as [-> ->]. rewrite decide_True by reflexivity. apply wp_ret, HQ; assumption.
  - rewrite Ha, decide_False by discriminate. apply wp_ret, HQ; assumption.
Qed.

(** The stat record a lookup finds. *)
Definition found (s : afs) (q : Z) (g : bytes) : option (Z * metafs_stat_t) :=
  match entry s q g with
  | Some i => match a_stats s !! i with Some st => Some (i, st) | None => None end
  | None => None
  end.

Lemma wp_RPC_Getstat i0 s0 (Q : RespType * Z * metafs_stat_t -> client -> Prop) :
  (forall c', sent k c c' -> view (net c') = view (net c) ->
     req_buf c' = strcpy_at 24 f (write_at 8 (le_bytes 8 p) (req_buf c)) ->
     Q (match found (view (net c)) p f with
        | Some (i, st) => (kSuccess, i, st)
        | None => (kENOENT, i0, s0)
        end) c') ->
  wp (RPC_Getstat p f i0 s0) Q c.
Proof.
  intros HQ. apply wp_fname; [reflexivity| |auto].
  intros j now a s' r c' Hstep Ha Hm Hv Hc' Hbuf. cbn [a_step fr_pinode fr_fname] in Hstep.
  rewrite fkey_nul in Hstep by apply Hf. unfold found, entry in HQ. destruct r; try contradiction.
  destruct (a_dents _ !! _) as [i|]; [destruct (a_stats _ !! i) as [st|]|];
    injection Hstep as <- <-; cbn in Ha.
  - rewrite Ha. cbn [st_resp_type]. rewrite decide_True by reflexivity. apply wp_ret, HQ; assumption.
  - rewrite Ha, decide_False by discriminate. apply wp_ret, HQ; assumption.
  - rewrite Ha, decide_False by discriminate. apply wp_ret, HQ; assumption.
Qed.

(** [unlink] removes any entry, [rmdir] a directory. *)
Lemma wp_RPC_Unlink (Q : RespType -> client -> Prop) :
  (forall c', sent k c c' ->
     match entry (view (net c)) p f with
     | Some i => view (net c') = a_remove p (f ++ [0]) i (view (net c)) -> Q kSuccess c'
     | None => view (net c') = view (net c) -> Q kENOENT c'
     end) ->
  wp (RPC_Unlink p f) Q c.
Proof.
  intros HQ. apply wp_fname; [reflexivity| |auto].
  intros j now a s' r c' Hstep Ha Hm Hv Hc' _. cbn [a_step fr_pinode fr_fname] in Hstep.
  rewrite fkey_nul in Hstep by apply Hf. specialize (HQ c' Hc'). unfold entry in HQ.
  destruct r; try contradiction.
  destruct (a_dents _ !! _) as [i|]; injection Hstep as <- <-; cbn in Ha; subst;
    apply wp_ret, HQ, Hv.
Qed.

Lemma wp_RPC_Rmdir (Q : RespType -> client -> Prop) :
  (forall c', sent k c c' ->
     match entry (view (net c)) p f with
     | Some i =>
         if is_directory i
         then view (net c') = a_remove p (f ++ [0]) i (view (net c)) -> Q kSuccess c'
         else view (net c') = view (net c) -> Q kENOENT c'
     | None => view (net c') = view (net c) -> Q kENOENT c'
     end) ->
  wp (RPC_Rmdir p f) Q c.
Proof.
  intros HQ. apply wp_fname; [reflexivity| |auto].
  intros j now a s' r c' Hstep Ha Hm Hv Hc' _. cbn [a_step fr_pinode fr_fname] in Hstep.
  rewrite fkey_nul in Hstep by apply Hf. specialize (HQ c' Hc'). unfold entry in HQ.
  destruct r; try contradiction.
  destruct (a_dents _ !! _) as [i|]; [destruct (is_directory i)|];
    injection Hstep as <- <-; cbn in Ha; subst; apply wp_ret, HQ, Hv.
Qed.

(** The state after a new entry: the allocated inode [i] and a stat record with the
    mode that was sent. *)
Definition created (s s' : afs) (i m : Z) : Prop :=
  exists st, mode st = u32 m /\
    s' = {| a_dents := <[(p, f ++ [0]) := i]> (a_dents s);
            a_stats := <[i := st]> (a_stats s); a_next := u64 (a_next s + 1) |}.

Definition refused (s s' : afs) : Prop :=
  s' = {| a_dents := a_dents s; a_stats := a_stats s; a_next := u64 (a_next s + 1) |}.

Lemma wp_RPC_Mkdir m i0 (Q : RespType * Z -> client -> Prop) :
  (forall c', sent k c c' ->
     match entry (view (net c)) p f with
     | Some _ => refused (view (net c)) (view (net c')) -> Q (kEXIST, i0) c'
     | None => let i := Z.lor (a_next (view (net c))) inode_prefix_msb in
               created (view (net c)) (view (net c')) i m -> Q (kSuccess, i) c'
     end) ->
  wp (RPC_Mkdir p f m i0) Q c.
Proof.
  intros HQ. apply wp_mode; [reflexivity| |auto].
  intros j now a s' r c' Hstep Ha Hm Hv Hc'. cbn [a_step mr_pinode mr_fname mr_mode] in Hstep.
  rewrite fkey_nul in Hstep by apply Hf. unfold a_create in Hstep.
  specialize (HQ c' Hc'). unfold entry in HQ. destruct r; try contradiction.
  destruct (a_dents _ !! _) as [i|]; injection Hstep as <- <-; cbn in Ha.
  - rewrite Ha, decide_False by discriminate. apply wp_ret, HQ, Hv.
  - destruct Ha as [-> ->]. rewrite decide_True by reflexivity.
    apply wp_ret, HQ. eexists. split; [|exact Hv]. reflexivity.
Qed.

(** [mknod] reads its hash from bytes of the buffer that other requests write. *)
Lemma wp_RPC_Mknod m i0 s0 (Q : RespType * Z * metafs_stat_t -> client -> Prop) :
  (forall sid, routes c p sid ->
     accepts (net c) sid (fst (header (req_buf c))) (int_at 32 8 (req_buf c))) ->
  (forall c', sent k c c' ->
     match entry (view (net c)) p f with
     | Some _ => refused (view (net c)) (view (net c')) -> Q (kEXIST, i0, s0) c'
     | None => created (view (net c)) (view (net c')) (a_next (view (net c))) m ->
               forall st, Q (kSuccess, a_next (view (net c)), st) c'
     end) ->
  wp (RPC_Mknod p f m i0 s0) Q c.
Proof.
  intros Hacc HQ. destruct (name_size f 44 Hf ltac:(lia)) as [Hs Hn].
  destruct (mknod_msg (req_buf c) f p (con_buf _ _ Hc) (proj1 Hf) (proj2 Hf) Hp m)
    as (H1 & H2 & H3).
  destruct (good_name_slice f Hf) as [Hnul Hshort].
  eapply (wp_send k c p _ _ (fun m => MknodReq (as_FSMknodReq m))); try eassumption.
  - rewrite (Hn 44%nat eq_refl), H3. reflexivity.
  - reflexivity.
  - intros j now a s' r n' Hstep Ha Hmem Hv Hcon Hkeep.
    cbn [a_step kr_pinode kr_fname kr_mode kr_oid] in Hstep.
    rewrite fkey_nul in Hstep by apply Hf. unfold a_create in Hstep.
    specialize (HQ _ (conj Hcon (conj Hkeep (ex_intro _ _ (ex_intro _ _ eq_refl))))).
    unfold entry in HQ. destruct r; try contradiction.
    destruct (a_dents _ !! _) as [i|]; injection Hstep as <- <-; cbn in Ha.
    + rewrite Ha, decide_False by discriminate. apply wp_ret, HQ, Hv.
    + destruct Ha as [-> ->]. rewrite decide_True by reflexivity.
      apply wp_ret, HQ. eexists. split; [|exact Hv]. reflexivity.
Qed.

(** [open] may stamp the stat record; the entry and the mode stay. *)
Lemma wp_RPC_Open m i0 s0 (Q : RespType * Z * metafs_stat_t -> client -> Prop) :
  (forall c' st', sent k c c' ->
     match found (view (net c)) p f with
     | Some (i, st) => mode st' = mode st ->
         view (net c') = {| a_dents := a_dents (view (net c));
                            a_stats := <[i := st']> (a_stats (view (net c)));
                            a_next := a_next (view (net c)) |} -> Q (kSuccess, i, st') c'
     | None => view (net c') = view (net c) -> Q (kENOENT, i0, s0) c'
     end) ->
  wp (RPC_Open p f m i0 s0) Q c.
Proof.
  intros HQ. apply wp_mode; [reflexivity| |auto].
  intros j now a s' r c' Hstep Ha Hm Hv Hc'. cbn [a_step mr_pinode mr_fname mr_mode] in Hstep.
  rewrite fkey_nul in Hstep by apply Hf. unfold found, entry in HQ. destruct r; try contradiction.
  destruct (a_dents _ !! _) as [i|]; [destruct (a_stats _ !! i) as [st|] eqn:Est|].
  - destruct (opens_for_write _); injection Hstep as <- <-; cbn in Ha; subst r;
      cbn [st_resp_type st_inode st_stat]; rewrite decide_True by reflexivity;
      apply wp_ret, HQ; try assumption; try reflexivity.
    rewrite Hv, (insert_id _ _ _ Est). destruct (view (net c)); reflexivity.
  - injection Hstep as <- <-. cbn in Ha. rewrite Ha, decide_False by discriminate.
    apply wp_ret, HQ; assumption.
  - injection Hstep as <- <-. cbn in Ha. rewrite Ha, decide_False by discriminate.
    apply wp_ret, HQ; [exact s0|assumption|assumption].
Qed.

End Calls.

(** ** Directory scans *)

(** The entry [RPC_Readdir] adds for an entry of the listing. *)
Definition dir_entry (e : bytes * Z) : Files.DirEntry :=
  {| Files.name_ := c_str (fst e);
     Files.dtype_ := if Z.land (snd e) inode_prefix_msb =? 0 then Files.regular
                     else Files.directory;
     Files.dinode_ := snd e |}.

Definition add_all (es : list (bytes * Z)) (dir : Files.OpenFile) : Files.OpenFile :=
  Files.set_entries (Files.entries dir ++ map dir_entry es) dir.

Definition named (e : bytes * Z) : Prop :=
  (exists g, fst e = g ++ [0] /\ no_nul g) /\ is_u64 (snd e).

Lemma add_all_nil dir : add_all [] dir = dir.
Proof. unfold add_all. cbn. rewrite app_nil_r. destruct dir; reflexivity. Qed.

Lemma add_all_app es es' dir : add_all es' (add_all es dir) = add_all (es ++ es') dir.
Proof.
  unfold add_all. cbn. unfold Files.set_entries. cbn. rewrite map_app, app_assoc. reflexivity.
Qed.

(** The parser of the entries recovers them. *)
Lemma add_entries_spec q es tail skip ptr dir c :
  Forall named es -> drop skip ptr = drop 8 (dirents_bytes q es ++ tail) ->
  add_entries (length es) skip ptr dir c = Done (add_all es dir, c).
Proof.
  revert skip ptr dir. induction es as [|[nm i] es IH]; intros skip ptr dir Hall Hptr.
  { rewrite add_all_nil. reflexivity. }
  apply Forall_cons in Hall as [[(g & Hg & Hnul) Hi] Hall]. cbn [fst snd] in Hg, Hi. subst nm.
  assert (drop skip ptr = g ++ 0 :: (le_bytes 8 i ++ dirents_bytes q es ++ tail)) as E.
  { rewrite Hptr. unfold dirents_bytes. cbn [map concat]. unfold dirent_bytes at 1.
    cbn [fst snd]. rewrite <- !app_assoc. rewrite drop_app_length' by (rewrite length_le_bytes; reflexivity).
    reflexivity. }
  cbn [length add_entries]. rewrite E, has_nul_app_nul. cbn [negb].
  rewrite c_str_app_nul by exact Hnul.
  assert (forall X, drop (S (length g)) (g ++ 0 :: X) = X) as Hd.
  { intros X. change (g ++ 0 :: X) with (g ++ [0] ++ X). rewrite app_assoc.
    apply drop_app_length'. rewrite length_app. cbn. lia. }
  rewrite Hd. assert (forall X, take 8 (le_bytes 8 i ++ X) = le_bytes 8 i) as Ht.
  { intros X. apply take_app_length'. rewrite length_le_bytes. reflexivity. }
  rewrite Ht, le_value_le_bytes.
  replace (length (le_bytes 8 i ++ dirents_bytes q es ++ tail) <? 8)%nat with false by
    (symmetry; apply Nat.ltb_ge; rewrite length_app, length_le_bytes; lia).
  change (256 ^ Z.of_nat 8) with (2 ^ 64). rewrite (Z.mod_small i) by exact Hi.
  rewrite IH; [|exact Hall|].
  - f_equal. f_equal. change ((g ++ [0], i) :: es) with ([(g ++ [0], i)] ++ es).
    rewrite <- add_all_app. f_equal. unfold add_all, Files.dir_add. cbn [map]. unfold dir_entry.
    cbn [fst snd]. rewrite c_str_nul by exact Hnul. reflexivity.
  - rewrite <- drop_drop, Hd. change 16%nat with (8 + 8)%nat. rewrite <- drop_drop.
    rewrite drop_app_length' by (rewrite length_le_bytes; reflexivity). reflexivity.
Qed.

Lemma sent_trans k k' c c' c'' : sent k c c' -> sent k' c' c'' -> sent k' c c''.
Proof.
  intros (_ & K & b & n & ->) (H & K' & b' & n' & ->). split; [exact H|].
  split; [exact (keeps_trans _ _ _ K K')|]. exists b', n'. reflexivity.
Qed.

Lemma wp_readdir_loop fuel k c cur off q sid msg dir :
  let l := listing (net c) q in
  is_u64 q -> routes c q sid -> (cur < length l)%nat -> (length l - cur <= fuel)%nat ->
  connected (k + (length l - cur)) c -> scan (net c) q off = cur ->
  as_FSReaddirReq msg = {| rr_region_id := fst (header (req_buf c)); rr_inode := q;
                           rr_inode_hash := snd (header (req_buf c)); rr_offset := off |} ->
  wp (readdir_loop fuel sid q msg dir)
    (fun r c' => r = (kSuccess, add_all (drop cur l) dir) /\
       view (net c') = view (net c) /\ sent k c c') c.
Proof.
  intros l Hq. subst l. revert k c cur off msg dir.
  induction fuel as [|fuel IH]; intros k c cur off msg dir Hr Hcur Hfuel Hc Hscan Hmsg; [lia|].
  set (l := listing (net c) q) in *.
  cbn [readdir_loop]. rewrite Hmsg. apply wp_bind, wp_enqueue; [apply Hr|].
  eapply wp_mono.
  { apply (svc_readdir (k + (length l - cur - 1)) (net c) sid); cbn.
    - eapply ready_le; [|exact (con_ready _ _ Hc)]. lia.
    - exact (con_accept _ _ Hc _ _ Hr).
    - fold l. lia. }
  cbn [rr_inode rr_offset]. fold l. rewrite Hscan.
  intros r n' (x & m & -> & Hx & Hnext & Hv & Hk & Hl & Hs & Hacc).
  destruct Hx as [H1 H2 H3 H4 (tail & H5) H6 H7]. rewrite decide_True by exact H3.
  rewrite H4. replace (Z.of_nat m <? 0) with false by (symmetry; apply Z.ltb_ge; lia).
  apply wp_bind, wp_ret, wp_bind. rewrite Nat2Z.id.
  set (es := take m (drop cur l)) in *.
  assert (length es = m) as Hes by (unfold es; rewrite length_take, length_drop; lia).
  assert (Forall named es) as Hnamed.
  { apply Forall_forall. intros [nm i] Hin.
    assert ((nm, i) ∈ l) as Hin'.
    { apply list_elem_of_lookup in Hin as [o Ho]. unfold es in Ho.
      apply lookup_take_Some in Ho as [Ho _]. rewrite lookup_drop in Ho.
      apply list_elem_of_lookup. eauto. }
    split; cbn.
    - eapply listing_name; [exact (con_ready _ _ Hc)|exact Hin'].
    - eapply view_u64; [exact (con_ready _ _ Hc)|].
      eapply (listing_spec _ (net c)); [exact (con_ready _ _ Hc)|exact Hin']. }
  unfold wp at 1. rewrite <- Hes.
  rewrite (add_entries_spec q es tail) by (try exact Hnamed; rewrite H5; reflexivity).
  assert (connected (k + (length l - cur - 1)) (set_net n' c)) as Hc'.
  { apply (connected_frame _ c); cbn; eauto. apply (con_buf _ _ Hc). }
  destruct (Z.eqb_spec (rd_is_uncomplete x) 0) as [Hu|Hu].
  - apply H7 in Hu. apply wp_ret. split; [|split; [exact Hv|]].
    + f_equal. f_equal. unfold es. apply take_ge. rewrite length_drop. lia.
    + split; [eapply connected_le; [|exact Hc']; lia|]. split; [split; [reflexivity|exact Hacc]|].
      exists (req_buf c), n'. destruct c; reflexivity.
  - assert (cur + m < length l)%nat as Hlt by (destruct H7; lia).
    apply wp_bind, wp_request; [unfold FSReaddirReq_size, wire_req_size; lia|].
    destruct (readdir_msg (req_buf c) q (rd_next_offset x) (con_buf _ _ Hc) Hq H6) as (B1 & B2 & B3).
    set (c1 := set_req_buf _ _).
    assert (listing (net c1) q = l) as Hl1 by apply Hl.
    assert (connected (k + (length l - cur - 1)) c1) as Hc1.
    { apply (connected_frame _ (set_net n' c)); cbn [c1 set_req_buf set_net regions total_servers req_buf net]; eauto.
      rewrite B1. apply (con_buf _ _ Hc). }
    eapply wp_mono.
    { apply (IH k c1 (cur + m)%nat (rd_next_offset x)); rewrite ?Hl1.
      - apply (routes_frame c c1); [reflexivity|reflexivity|exact Hr].
      - lia.
      - lia.
      - eapply connected_le; [|exact Hc1]. lia.
      - cbn. rewrite Hs, Hnext. reflexivity.
      - cbn [req_buf c1 set_req_buf set_net]. fold c1. rewrite B2. exact B3. }
    cbn beta. rewrite Hl1. intros r c' (-> & Hv' & Hsent). split; [|split].
    + rewrite add_all_app. unfold es. rewrite <- drop_drop, take_drop. reflexivity.
    + rewrite Hv'. exact Hv.
    + eapply sent_trans; [|exact Hsent]. split; [exact Hc1|].
      split; [split; [exact B2|exact Hacc]|].
      exists (write_readdir q (rd_next_offset x) (req_buf c)), n'. destruct c; reflexivity.
Qed.

(** A complete scan: every entry of a directory that has one, once and in order. *)
Lemma wp_RPC_Readdir fuel k c q dir :
  let l := listing (net c) q in
  is_u64 q -> (0 < length l <= fuel)%nat -> connected (k + length l) c ->
  wp (RPC_Readdir fuel q dir)
    (fun r c' => r = (kSuccess, add_all l dir) /\ view (net c') = view (net c) /\ sent k c c') c.
Proof.
  intros l Hq Hl Hc. destruct (con_route _ _ Hc q) as [sid Hr].
  apply wp_bind. unfold wp at 1. rewrite (proj1 Hr).
  apply wp_bind, wp_request; [unfold FSReaddirReq_size, wire_req_size; lia|].
  destruct (readdir_msg (req_buf c) q 0 (con_buf _ _ Hc) Hq) as (B1 & B2 & B3);
    [unfold is_u64; lia|].
  set (c1 := set_req_buf _ _).
  assert (connected (k + length l) c1) as Hc1.
  { apply (connected_frame _ c); cbn [c1 set_req_buf regions total_servers req_buf net]; eauto.
    - rewrite B1. apply (con_buf _ _ Hc).
    - apply (con_ready _ _ Hc). }
  eapply wp_mono.
  { apply (wp_readdir_loop fuel k c1 0 0); try assumption.
    - apply (routes_frame c c1); [reflexivity|reflexivity|exact Hr].
    - exact (proj1 Hl).
    - rewrite Nat.sub_0_r. exact (proj2 Hl).
    - rewrite Nat.sub_0_r. exact Hc1.
    - apply scan_start.
    - cbn [req_buf c1 set_req_buf]. fold c1. rewrite B2. exact B3. }
  cbn beta. intros r c' (-> & Hv & Hs). split; [reflexivity|]. split; [exact Hv|].
  eapply sent_trans; [|exact Hs]. split; [exact Hc1|].
  split; [split; [exact B2|auto]|].
  exists (write_readdir q 0 (req_buf c)), (net c). destruct c; reflexivity.
Qed.

End RpcSpec.
