(* ===== verification/PathSpec.v ===== *)
(** * Path resolution

    The components of a path, the walk over directory entries that resolution means,
    and the proof that [ResolvePath] computes it whether its answers come from the
    dentry cache or from the servers. *)

From Stdlib Require Import ZArith Lia.
From stdpp Require Import base numbers list gmap.
From S2P Require Import Prelude JumpHash Types XXHash Stores Wire Server Handlers HandlerSpec.
From S2P Require Import LruCache DentryCache OpenFileMap RpcClient MetaClient ClientSpec RpcSpec.
Open Scope Z_scope.

(** ** Components *)

Definition emit (cur : bytes) : list bytes := match cur with [] => [] | _ => [cur] end.

(** The non-empty parts between slashes; [cur] is the part being read. *)
Fixpoint components_from (cur s : bytes) : list bytes :=
  match s with
  | [] => emit cur
  | b :: s' => if b =? slash then emit cur ++ components_from [] s'
               else components_from (cur ++ [b]) s'
  end.

Definition components (s : bytes) : list bytes := components_from [] s.

Definition no_slash (s : bytes) : Prop := Forall (fun b => b <> slash) s.

Lemma components_from_app cur s t :
  no_slash s -> components_from cur (s ++ t) = components_from (cur ++ s) t.
Proof.
  intros H. revert cur. induction H as [|b s Hb Hs IH]; intros cur; cbn.
  - rewrite app_nil_r. reflexivity.
  - destruct (Z.eqb_spec b slash); [contradiction|]. rewrite IH, <- app_assoc. reflexivity.
Qed.

Lemma components_from_slash cur s :
  components_from cur (slash :: s) = emit cur ++ components s.
Proof. reflexivity. Qed.

Lemma components_slash s : components (slash :: s) = components s.
Proof. reflexivity. Qed.

Lemma components_name s t :
  no_slash s -> components (s ++ slash :: t) = emit s ++ components t.
Proof. intros H. unfold components. rewrite components_from_app by exact H. reflexivity. Qed.

Lemma components_last s : no_slash s -> components s = emit s.
Proof.
  intros H. unfold components. rewrite <- (app_nil_r s) at 1.
  rewrite components_from_app by exact H. reflexivity.
Qed.

Lemma components_from_snoc cur s t :
  components_from cur (s ++ slash :: t) = components_from cur s ++ components t.
Proof.
  revert cur. induction s as [|b s IH]; intros cur; cbn [app components_from].
  - reflexivity.
  - destruct (b =? slash).
    + rewrite IH, app_assoc. reflexivity.
    + apply IH.
Qed.

Lemma components_app s t : components (s ++ slash :: t) = components s ++ components t.
Proof. apply components_from_snoc. Qed.

(** A slash at the end does not matter. *)
Lemma components_trailing s : components (s ++ [slash]) = components s.
Proof. rewrite components_app. cbn. apply app_nil_r. Qed.

(** ** Searching for slashes *)

Lemma find_slash_spec s from i :
  s !! i = Some slash -> (from <= i)%nat ->
  (forall j, (from <= j < i)%nat -> s !! j <> Some slash) -> find_slash s from = Some i.
Proof.
  intros Hi Hle Hmin. unfold find_slash.
  assert (list_find (fun b => b = slash) (drop from s) = Some ((i - from)%nat, slash)) as ->.
  { apply list_find_Some. rewrite lookup_drop. split; [|split; [reflexivity|]].
    - rewrite <- Hi. f_equal. lia.
    - intros j y Hj Hlt ->. rewrite lookup_drop in Hj. apply (Hmin (from + j)%nat); [lia|exact Hj]. }
  cbn. f_equal. lia.
Qed.

Lemma rfind_slash_spec s i :
  s !! i = Some slash -> (forall j, (i < j)%nat -> s !! j <> Some slash) ->
  rfind_slash s = Some i.
Proof.
  intros Hi Hmax. unfold rfind_slash. pose proof (lookup_lt_Some _ _ _ Hi) as Hlt.
  assert (list_find (fun b => b = slash) (reverse s) = Some ((length s - S i)%nat, slash)) as ->.
  { apply list_find_Some. split; [|split; [reflexivity|]].
    - rewrite reverse_lookup by lia. rewrite <- Hi. f_equal. lia.
    - intros j y Hj Hlt' ->. rewrite reverse_lookup in Hj by lia.
      apply (Hmax (length s - S j)%nat); [lia|exact Hj]. }
  cbn. f_equal. lia.
Qed.

(** A path as its directory part and its last component. *)
Lemma split_last_slash s :
  head s = Some slash -> last s <> Some slash ->
  exists d f, s = d ++ slash :: f /\ no_slash f /\ f <> [].
Proof.
  intros Hh Hl.
  assert (forall s', (exists x, x ∈ s' /\ x = slash) ->
    exists d f, s' = d ++ slash :: f /\ no_slash f) as Hex.
  { induction s' as [|b s' IH]; intros (x & Hin & ->); [inversion Hin|].
    destruct (decide (slash ∈ s')) as [Hs|Hs].
    - destruct IH as (d & f & -> & Hf); [eauto|]. exists (b :: d), f. auto.
    - apply elem_of_cons in Hin as [<-|Hin]; [|contradiction].
      exists [], s'. split; [reflexivity|]. apply Forall_forall. intros y Hy ->. contradiction. }
  destruct (Hex s) as (d & f & -> & Hf).
  { exists slash. split; [|reflexivity]. destruct s; [discriminate|]. injection Hh as ->. left. }
  exists d, f. do 2 (split; [auto|]). intros ->. apply Hl. rewrite last_snoc. reflexivity.
Qed.

Lemma split_first_slash (t : bytes) :
  exists name s, t = name ++ s /\ no_slash name /\ (s = [] \/ head s = Some slash).
Proof.
  induction t as [|b t (name & s & -> & Hn & Hs)].
  { exists [], []. split; [reflexivity|]. split; [constructor|auto]. }
  destruct (decide (b = slash)) as [->|Hb].
  - exists [], (slash :: name ++ s). split; [reflexivity|]. split; [constructor|auto].
  - exists (b :: name), s. split; [reflexivity|]. split; [constructor; assumption|exact Hs].
Qed.

Lemma components_head name s :
  no_slash name -> s = [] \/ head s = Some slash ->
  components (slash :: name ++ s) = emit name ++ components s.
Proof.
  intros Hn Hs. rewrite components_slash. destruct Hs as [->|Hs].
  - rewrite app_nil_r, components_last, app_nil_r by exact Hn. reflexivity.
  - destruct s as [|b s]; [discriminate|]. injection Hs as ->.
    rewrite components_slash. apply components_name, Hn.
Qed.

Lemma components_length s : (length (components s) <= length s)%nat.
Proof.
  assert (forall cur, (length (components_from cur s) <= length cur + length s)%nat) as H.
  { induction s as [|b s IH]; intros cur; cbn.
    - destruct cur; cbn; lia.
    - destruct (b =? slash).
      + rewrite length_app. specialize (IH []). cbn in IH. destruct cur; cbn; lia.
      + specialize (IH (cur ++ [b])). rewrite length_app in IH. cbn in IH. lia. }
  apply (H []).
Qed.

(** ** Resolution *)

Section PathSpec.
Context {P : Platform} {SV : Service P}.

(** The directory reached from [p] through the entries named [cs]. *)
Fixpoint walk (s : afs) (p : Z) (cs : list bytes) : option Z :=
  match cs with
  | [] => Some p
  | f :: cs' => match entry s p f with Some i => walk s i cs' | None => None end
  end.

(** What the client has cached is what the servers hold. *)
Definition cache_ok (c : client) : Prop :=
  Lru.Inv (Dentry.cache_ (dentry_cache c)) /\
  forall d f v, is_u64 d -> Dentry.cached (dentry_cache c) d f = Some v ->
    entry (view (net c)) d f = Some (Dentry.inode v).

Lemma cache_ok_new c n : dentry_cache c = Dentry.new n -> 0 <= n < 2 ^ 63 -> cache_ok c.
Proof.
  intros Hd Hn. split; rewrite Hd; [apply Lru.Inv_new; lia|]. intros d f v _ H. discriminate.
Qed.

(** The client after some lookups: cache, buffer and servers may differ. *)
Definition moved (k : nat) (c c' : client) : Prop :=
  connected k c' /\ cache_ok c' /\ view (net c') = view (net c) /\ keeps c c' /\
  exists d b n, c' = set_dentry_cache d (after b n c).

Lemma moved_refl k c : connected k c -> cache_ok c -> moved k c c.
Proof.
  intros H1 H2. do 3 (split; [auto|]). split; [apply keeps_refl|].
  exists (dentry_cache c), (req_buf c), (net c). destruct c; reflexivity.
Qed.

Lemma moved_trans k k' c c' c'' : moved k c c' -> moved k' c' c'' -> moved k' c c''.
Proof.
  intros (_ & _ & Hv & K & d & b & n & ->) (H1 & H2 & Hv' & K' & d' & b' & n' & ->).
  do 2 (split; [assumption|]). split; [rewrite Hv'; exact Hv|].
  split; [exact (keeps_trans _ _ _ K K')|]. exists d', b', n'. reflexivity.
Qed.

Lemma moved_sent k c c' : sent k c c' -> cache_ok c -> view (net c') = view (net c) -> moved k c c'.
Proof.
  intros (Hc & K & b & n & ->) [H1 H2] Hv. split; [exact Hc|].
  split; [|split; [exact Hv|split; [exact K|]]].
  - split; [exact H1|]. intros d f v Hd Hf. rewrite Hv. apply H2; assumption.
  - exists (dentry_cache c), b, n. destruct c; reflexivity.
Qed.

Lemma moved_cache k c d :
  connected k c -> Lru.Inv (Dentry.cache_ d) ->
  (forall d' f v, is_u64 d' -> Dentry.cached d d' f = Some v ->
     entry (view (net c)) d' f = Some (Dentry.inode v)) ->
  moved k c (set_dentry_cache d c).
Proof.
  intros Hc Hd Hok. split; [|split; [|split; [|split]]].
  - apply (connected_frame k c); cbn; try reflexivity; try apply Hc; eauto.
  - split; assumption.
  - reflexivity.
  - split; [reflexivity|auto].
  - exists d, (req_buf c), (net c). destruct c; reflexivity.
Qed.

Lemma moved_view k c c' : moved k c c' -> view (net c') = view (net c).
Proof. intros H. apply H. Qed.

Local Open Scope m_scope.

(** One component: from the cache or from a server. *)
Lemma wp_lookup {A} k rfuel junk c p f (found : Z -> M client A) (missing : M client A)
    (Q : A -> client -> Prop) :
  connected (S k) c -> cache_ok c -> is_u64 p -> good_name f ->
  (forall c', moved k c c' -> ((length f <= 7)%nat -> slot c' = slot c) ->
     match entry (view (net c)) p f with
     | Some i => wp (found i) Q c'
     | None => wp missing Q c'
     end) ->
  wp (let* (s, value) := on_dentry (Dentry.Get p f {| Dentry.inode := junk |}) in
      match s with
      | Dentry.Ok => found (Dentry.inode value)
      | Dentry.NotFound =>
          let* (res, i) := RPC_Getinode p f (Dentry.inode value) in
          let* again := handle_rpc_resp rfuel res in
          let* (res, i) := if (again : bool) then RPC_Getinode p f i else ret (res, i) in
          if decide (res = kSuccess) then
            on_dentry (Dentry.Put p f {| Dentry.inode := i |}) ;;; found i
          else missing
      end) Q c.
Proof.
  intros Hc Hok Hp Hf HQ. apply wp_bind, wp_zoom, Dentry.wp_Get; [apply Hok|].
  intros d Hd Hsame.
  assert (moved (S k) c (set_dentry_cache d c)) as Hm.
  { apply moved_cache; [exact Hc|exact Hd|]. intros d' g v Hd'. rewrite Hsame. apply Hok, Hd'. }
  destruct (Dentry.cached (dentry_cache c) p f) as [v|] eqn:E.
  - apply (proj2 Hok) in E; [|exact Hp]. rewrite E in HQ. apply HQ.
    + split; [eapply connected_le; [|apply Hm]; lia|]. apply Hm.
    + reflexivity.
  - set (c1 := set_dentry_cache d c) in *.
    apply wp_bind, (wp_RPC_Getinode k c1 p f); [apply Hm|exact Hf|exact Hp|].
    intros c2 Hs Hv Hslot. change (view (net c1)) with (view (net c)) in *.
    assert (moved k c c2) as Hm2.
    { eapply moved_trans; [exact Hm|]. apply moved_sent; [exact Hs|apply Hm|exact Hv]. }
    specialize (HQ c2) as HQ2. destruct (entry (view (net c)) p f) as [i|] eqn:Ei.
    + apply wp_bind, wp_ret, wp_bind, wp_ret. rewrite decide_True by reflexivity.
      apply wp_bind, wp_zoom, Dentry.wp_Put; [apply Hm2|exact Hp|]. intros d' Hd' Hput.
      specialize (HQ (set_dentry_cache d' c2)). apply HQ; [|exact Hslot]. eapply moved_trans; [exact Hm2|].
      apply moved_cache; [apply Hm2|exact Hd'|]. intros q g w Hq Hw.
      destruct (Hput q g w Hq Hw) as [(-> & -> & ->)|Hw'].
      * rewrite (moved_view _ _ _ Hm2). exact Ei.
      * apply Hm2; assumption.
    + apply wp_bind, wp_ret, wp_bind, wp_ret. rewrite decide_False by discriminate.
      apply HQ2; assumption.
Qed.

Definition short (f : bytes) : Prop := (length f <= 7)%nat.

(** The loop from the slash at the end of [A]; [seg] is what is left before the last
    slash. *)
Lemma wp_resolve_loop fuel rfuel junk k A seg f path c p depth :
  path = A ++ seg ++ slash :: f -> seg = [] \/ head seg = Some slash ->
  (length seg < fuel)%nat -> Forall good_name (components seg) ->
  connected (k + length (components seg)) c -> cache_ok c -> is_u64 p -> is_i32 depth ->
  wp (resolve_loop fuel rfuel junk path (length A + length seg) (length A) p depth)
    (fun r c' => moved k c c' /\ (Forall short (components seg) -> slot c' = slot c) /\
       r = match walk (view (net c)) p (components seg) with
           | Some q => Some (q, i32 (depth + Z.of_nat (length (components seg))))
           | None => None
           end) c.
Proof.
  revert A seg c p depth.
  induction fuel as [|fuel IH]; intros A seg c p depth Hpath Hseg Hfuel Hgood Hc Hok Hp Hdepth;
    [lia|].
  cbn [resolve_loop]. destruct Hseg as [->|Hseg].
  { cbn [length]. rewrite Nat.add_0_r, Nat.ltb_irrefl. apply wp_ret. cbn in Hc |- *.
    rewrite Nat.add_0_r in Hc. rewrite Z.add_0_r, i32_small by exact Hdepth.
    split; [apply moved_refl; assumption|]. split; reflexivity. }
  destruct seg as [|b t]; [discriminate|]. injection Hseg as ->.
  destruct (split_first_slash t) as (name & s & -> & Hname & Hs).
  set (now := (length A + S (length name))%nat).
  replace (length A <? _)%nat with true by (symmetry; apply Nat.ltb_lt; cbn; lia).
  assert (path = (A ++ slash :: name) ++ s ++ slash :: f) as Hpath'.
  { rewrite Hpath, <- !app_assoc. cbn [app]. rewrite <- ?app_assoc. reflexivity. }
  assert (length (A ++ slash :: name) = now) as Hnow by (rewrite length_app; reflexivity).
  assert (length A + length (slash :: name ++ s) = now + length s)%nat as Hfin.
  { subst now. cbn. rewrite length_app. lia. }
  assert (path !! now = Some slash) as Hat.
  { rewrite Hpath', lookup_app_r, Hnow, Nat.sub_diag by lia.
    destruct Hs as [->|Hs]; [reflexivity|]. destruct s; [discriminate|]. exact Hs. }
  rewrite (find_slash_spec path (S (length A)) now); [|exact Hat|subst now; lia|].
  2:{ intros i Hi Hx. rewrite Hpath in Hx. rewrite lookup_app_r in Hx by lia.
      cbn [app] in Hx. destruct (i - length A)%nat as [|m] eqn:Em; [lia|].
      change (((name ++ s) ++ slash :: f) !! m = Some slash) in Hx.
      rewrite <- app_assoc, lookup_app_l in Hx by (subst now; lia).
      unfold no_slash in Hname. rewrite Forall_lookup in Hname. exact (Hname m _ Hx eq_refl). }
  rewrite components_head in Hgood, Hc |- * by assumption.
  rewrite Hfin, <- Hnow. cbn [length app] in Hfuel. rewrite length_app in Hfuel.
  destruct (Nat.ltb_spec 1 (length (A ++ slash :: name) - length A)) as [Hne|He].
  - assert (emit name = [name]) as En.
    { destruct name; [|reflexivity]. exfalso. rewrite length_app in Hne. cbn in Hne. lia. }
    rewrite En in *. cbn [app length] in *. apply Forall_cons in Hgood as [Hg Hgood].
    assert (substr path (S (length A)) (length (A ++ slash :: name) - length A - 1) = name)
      as Hsub.
    { unfold substr. rewrite Hpath. replace (S (length A)) with (length A + 1)%nat by lia.
      rewrite <- drop_drop, drop_app_length. cbn.
      rewrite length_app. cbn. replace (length A + S (length name) - length A - 1)%nat
        with (length name) by lia.
      rewrite <- app_assoc. apply take_app_length. }
    rewrite Hsub. rewrite Nat.add_succ_r in Hc.
    apply (wp_lookup (k + length (components s)) rfuel junk c p name
      (fun i => resolve_loop fuel rfuel junk path (length (A ++ slash :: name) + length s)
                  (length (A ++ slash :: name)) i (i32 (depth + 1))) (ret None));
      try assumption.
    intros c' Hm Hslot. cbn [walk]. destruct (entry (view (net c)) p name) as [i|] eqn:Ei.
    + assert (is_u64 i) as Hi by (eapply view_u64; [exact (con_ready _ _ Hc)|exact Ei]).
      eapply wp_mono.
      { apply (IH (A ++ slash :: name) s c' i (i32 (depth + 1)));
          try assumption; try apply Hm; try apply i32_range; lia. }
      cbn beta. intros r c2 (Hm2 & Hslot2 & ->). rewrite (moved_view _ _ _ Hm). split.
      { eapply moved_trans; [exact Hm|exact Hm2]. }
      split.
      { intros [Hsn Hss]%Forall_cons. rewrite Hslot2 by exact Hss. apply Hslot, Hsn. }
      destruct (walk _ _ _); [|reflexivity]. do 2 f_equal. rewrite i32_add_l. f_equal. lia.
    + apply wp_ret. split; [|split; [|reflexivity]].
      * split; [eapply connected_le; [|apply Hm]; lia|]. apply Hm.
      * intros [Hsn _]%Forall_cons. apply Hslot, Hsn.
  - assert (name = []) as ->.
    { destruct name; [reflexivity|]. exfalso. rewrite length_app in He. cbn in He. lia. }
    cbn [emit app] in *. apply IH; try assumption. cbn in Hfuel. lia.
Qed.

(** What resolving a path gives: the code, the parent directory and the name.  A
    path without components is the root. *)
Definition resolves (s : afs) (path : bytes) (p0 : Z) (f0 : bytes) : PathStatus * Z * bytes :=
  match components path with
  | [] => (ROk, fs_root_inode, [])
  | cs => match walk s 0 (removelast cs) with
          | Some q => (ROk, q, List.last cs [])
          | None => (RCorruption, p0, f0)
          end
  end.

Lemma resolves_snoc s path p0 f0 ds f :
  components path = ds ++ [f] ->
  resolves s path p0 f0
  = match walk s 0 ds with Some q => (ROk, q, f) | None => (RCorruption, p0, f0) end.
Proof.
  unfold resolves. intros ->. destruct (ds ++ [f]) eqn:E; [destruct ds; discriminate|].
  rewrite <- E, removelast_last, last_last. reflexivity.
Qed.

Lemma wp_ResolvePath_rec m n rfuel junk path p0 f0 depth c :
  (length path <= n)%nat -> head path = Some slash -> Forall good_name (components path) ->
  connected (m + length path) c -> cache_ok c ->
  wp (ResolvePath_rec n rfuel junk path p0 f0 depth)
    (fun r c' => moved m c c' /\ (Forall short (removelast (components path)) -> slot c' = slot c) /\
       fst r = resolves (view (net c)) path p0 f0) c.
Proof.
  revert path. induction n as [|n IH]; intros path Hn Hh Hgood Hc Hok.
  { destruct path; [discriminate|cbn in Hn; lia]. }
  destruct path as [|b rest]; [discriminate|]. injection Hh as ->.
  cbn [ResolvePath_rec]. rewrite Z.eqb_refl. cbn [negb].
  destruct (Nat.eqb_spec (length (slash :: rest)) 1) as [H1|H1].
  { apply wp_ret. destruct rest; [|discriminate].
    split; [apply moved_refl; [eapply connected_le; [|exact Hc]; lia|exact Hok]|].
    split; reflexivity. }
  case_bool_decide as Hl.
  - (* a trailing slash *)
    destruct (exists_last (l := slash :: rest)) as (s' & x & E); [discriminate|].
    assert (x = slash) as -> by (rewrite E, last_snoc in Hl; congruence).
    rewrite E in *. rewrite length_app in *. cbn [length] in *.
    replace (length s' + 1 - 1)%nat with (length s') by lia. rewrite take_app_length.
    rewrite components_trailing in Hgood. unfold resolves. rewrite components_trailing.
    apply IH; try assumption; try lia.
    + destruct s'; [exfalso; cbn in H1; lia|]. injection E as -> _. reflexivity.
    + eapply connected_le; [|exact Hc]. lia.
  - destruct (split_last_slash (slash :: rest) eq_refl Hl) as (d & f & E & Hf & Hne).
    rewrite E in *. unfold Internal_ResolvePath.
    rewrite (rfind_slash_spec _ (length d)).
    2:{ rewrite lookup_app_r, Nat.sub_diag by lia. reflexivity. }
    2:{ intros i Hi Hx. rewrite lookup_app_r in Hx by lia.
        destruct (i - length d)%nat as [|o] eqn:Eo; [lia|].
        change (f !! o = Some slash) in Hx.
        unfold no_slash in Hf. rewrite Forall_lookup in Hf. exact (Hf o _ Hx eq_refl). }
    assert (components (d ++ slash :: f) = components d ++ [f]) as Ecs.
    { rewrite components_app, (components_last f) by exact Hf. destruct f; [contradiction|reflexivity]. }
    assert (d = [] \/ head d = Some slash) as Hd.
    { destruct d; [auto|right]. injection E as -> _. reflexivity. }
    rewrite Ecs in Hgood. apply Forall_app in Hgood as [Hgood _].
    pose proof (components_length d) as Hcl. rewrite length_app in *. cbn [length] in *.
    apply wp_bind. eapply wp_mono.
    { apply (wp_resolve_loop (S (length d + S (length f))) rfuel junk m [] d f
               (d ++ slash :: f) c 0 0); try assumption; try reflexivity.
      - lia.
      - eapply connected_le; [|exact Hc]. lia.
      - unfold is_u64. lia.
      - unfold is_i32. lia. }
    cbn beta. intros r c' (Hm & Hslot & ->). rewrite Ecs, removelast_last, (resolves_snoc _ _ _ _ _ _ Ecs).
    destruct (walk _ 0 (components d)); apply wp_ret; (split; [exact Hm|]); (split; [exact Hslot|]); [|reflexivity].
    cbn [fst]. do 2 f_equal. change (slash :: f) with ([slash] ++ f). rewrite app_assoc.
    apply drop_app_length'. rewrite length_app. cbn. lia.
Qed.

End PathSpec.
