(* ===== verification/Deliver.v ===== *)
(** * Clients against servers

    The [Platform] whose sessions lead to the server threads of [Handlers.v], and the
    proof that a thread that holds its region discharges the interface [Service]:
    what the client's theorems assume of the servers is what the handlers do. *)

From Stdlib Require Import ZArith Lia.
From stdpp Require Import base numbers list gmap.
From S2P Require Import Prelude JumpHash Types XXHash Stores Wire Server Handlers HandlerSpec.
From S2P Require Import LruCache DentryCache OpenFileMap RpcClient MetaClient ClientSpec RpcSpec.
Open Scope Z_scope.

Section Emits.
Context {KV : MetaKV} {RK : RocksDB}.

(** Every response a computation enqueues satisfies [K]. *)
Definition emits {A} (K : wire_resp -> Prop) (c : M world A) : Prop :=
  forall w a w', c w = Done (a, w') -> exists l, outbox w' = outbox w ++ l /\ Forall K l.

Lemma emits_ret {A} K (a : A) : emits K (ret a).
Proof. intros w x w' [= <- <-]. exists []. rewrite app_nil_r. auto. Qed.

Lemma emits_raise {A} K f : emits K (raise f : M world A).
Proof. intros w x w'. discriminate. Qed.

Lemma emits_bind {A B} K (c : M world A) (k : A -> M world B) :
  emits K c -> (forall a, emits K (k a)) -> emits K (bind c k).
Proof.
  intros Hc Hk w b w' H. apply bind_Done in H as (a & w1 & H1 & H2).
  destruct (Hc _ _ _ H1) as (l1 & E1 & F1), (Hk _ _ _ _ H2) as (l2 & E2 & F2).
  exists (l1 ++ l2). rewrite E2, E1, app_assoc. split; [reflexivity|]. apply Forall_app. auto.
Qed.

Lemma emits_gets {A} K (f : world -> A) : emits K (gets f).
Proof. intros w x w' [= <- <-]. exists []. rewrite app_nil_r. auto. Qed.

Lemma emits_upd_ctx K f : emits K (upd_ctx f).
Proof. intros w x w' [= <- <-]. exists []. rewrite app_nil_r. auto. Qed.

Lemma emits_upd_glob K f : emits K (upd_glob f).
Proof. intros w x w' [= <- <-]. exists []. rewrite app_nil_r. auto. Qed.

Lemma emits_response (K : wire_resp -> Prop) r : K r -> emits K (enqueue_response r).
Proof. intros HK w x w' [= <- <-]. exists [r]. auto. Qed.

Ltac emit :=
  repeat first
    [ progress intros
    | apply emits_bind
    | apply emits_ret | apply emits_raise | apply emits_gets | apply emits_upd_ctx
    | apply emits_upd_glob
    | solve [apply emits_response; exact I]
    | assumption
    | match goal with
      | |- emits _ (when_ ?b _) => unfold when_
      | |- emits _ (p_assert _) => unfold p_assert
      | |- emits _ (if ?b then _ else _) => destruct b
      | |- emits _ (match ?x with _ => _ end) => destruct x
      end ].

Lemma emits_region_at K rid : emits K (region_at rid).
Proof. unfold region_at. emit. Qed.

Lemma emits_fresh K fuel : emits K (fresh_region_id fuel).
Proof.
  induction fuel as [|fuel IH]; cbn [fresh_region_id]; [apply emits_raise|].
  unfold jump_target. emit.
Qed.

Lemma emits_maybe_split K fuel rid : emits K (maybe_split fuel rid).
Proof.
  pose proof (emits_region_at K rid). pose proof (emits_fresh K fuel).
  unfold maybe_split, check_region_and_split, upd_region. emit.
Qed.

Lemma emits_log K j rid del p f st i : emits K (log_if_split j rid del p f st i).
Proof.
  pose proof (emits_region_at K rid).
  unfold log_if_split, log_op, upd_region, log_put. emit.
Qed.

Lemma emits_status K r : emits K (check_region_status r).
Proof. unfold check_region_status. emit. Qed.

Lemma emits_convert K st : emits K (convert_status_to_resptype st).
Proof. unfold convert_status_to_resptype. emit. Qed.

(** A client request is answered with its own member of the union. *)
Lemma serve_emits fuel j now old q :
  client_target q <> None -> emits (member q) (serve fuel j now old q).
Proof.
  intros Hq.
  assert (forall rid, emits (member q) (region_at rid)) by (intros; apply emits_region_at).
  assert (forall r, emits (member q) (check_region_status r)) by (intros; apply emits_status).
  assert (forall st, emits (member q) (convert_status_to_resptype st))
    by (intros; apply emits_convert).
  assert (forall rid, emits (member q) (maybe_split fuel rid)) by (intros; apply emits_maybe_split).
  assert (forall rid del p f st i, emits (member q) (log_if_split j rid del p f st i))
    by (intros; apply emits_log).
  destruct q; try contradiction; cbn [serve];
    unfold fs_open_handler, fs_unlink_handler, fs_stat_handler, fs_mknod_handler,
      fs_mkdir_handler, fs_rmdir_handler, fs_readdir_handler, fs_getinode_handler,
      fname_slice, kv_get, kv_put, kv_num_add, upd_region, copy_entries.
  all: repeat first
    [ progress emit
    | apply emits_fresh
    | match goal with H : forall _, emits _ _ |- _ => solve [apply H] end
    | match goal with H : forall _ _ _ _ _ _, emits _ _ |- _ => solve [apply H] end ].
Qed.

End Emits.

(** ** The platform *)

(** The server threads by session, and the number of calls made so far. *)
Record site_net `{KV : MetaKV} `{RK : RocksDB} := {
  calls : nat;
  sites : gmap Z world
}.

Section Deliver.
Context {KV : MetaKV} {RK : RocksDB}.
(** The fuel of the split target search; uninitialised values, clock and old response
    buffer of each call; [rand] and [std::hash]. *)
Context (fuel : nat) (env : nat -> junk * Z * stale) (rnd : nat -> Z) (hash : bytes -> Z).

(** A request runs on the thread of its session.  eRPC takes exactly one response per
    request: [enqueue_response] asserts that the slot has none yet. *)
Definition deliver (sid : Z) (q : wire_req) : M site_net wire_resp :=
  fun n =>
    match sites n !! sid with
    | None => Fault OutOfBounds
    | Some w =>
        let '(j, now, old) := env (calls n) in
        match serve fuel j now old q w with
        | Fault f => Fault f
        | Done (_, w') =>
            match drop (length (outbox w)) (outbox w') with
            | [r] => Done (r, {| calls := S (calls n); sites := <[sid := w']> (sites n) |})
            | _ => Fault AssertFailed
            end
        end
    end.

#[local] Instance server_platform : Platform :=
  {| Net := site_net; rpc := deliver; RpcClient.rand := rnd; std_hash := hash |}.

Lemma deliver_one n sid q w w' r :
  sites n !! sid = Some w ->
  (let '(j, now, old) := env (calls n) in serve fuel j now old q w) = Done (tt, w') ->
  outbox w' = outbox w ++ [r] ->
  deliver sid q n = Done (r, {| calls := S (calls n); sites := <[sid := w']> (sites n) |}).
Proof.
  intros Hw Hrun Ho. unfold deliver. rewrite Hw.
  destruct (env (calls n)) as [[j now] old]. rewrite Hrun, Ho, drop_app_length. reflexivity.
Qed.

(** ** The interface holds *)

Context {KVL : MetaKVLaws KV} {RKL : RocksDBLaws RK}.
(** The thread on session [s0] holds region [rid]; its inodes are below [limit]. *)
Context (s0 rid limit : Z).

Definition empty_afs : afs := {| a_dents := ∅; a_stats := ∅; a_next := 0 |}.

(** Keys and inodes as the handlers make them. *)
Definition keyed (s : afs) : Prop :=
  forall p f i, a_dents s !! (p, f) = Some i ->
    (exists g, f = g ++ [0] /\ no_nul g) /\ is_u64 i.

Record holds (k : nat) (w : world) (r : ServerRegion) : Prop := {
  h_region : region_is w rid r;
  h_end : key_hi (end_key r) < 2 ^ 56;
  h_counted : counted w r;
  h_wf : afs_wf limit (abs w);
  h_keyed : keyed (abs w);
  h_kv : kv_num r + Z.of_nat k <= region_split_threshold;
  h_next : a_next (abs w) + Z.of_nat k < limit;
  h_room : room (metadb (ctx w)) (2 * k)
}.

Definition at_site {A} (n : site_net) (d : A) (f : world -> A) : A :=
  match sites n !! s0 with Some w => f w | None => d end.

Lemma keyed_step j now q s a s' :
  a_step j now q s = Some (a, s') -> 0 <= a_next s < 2 ^ 63 -> keyed s -> keyed s'.
Proof.
  intros Hstep Hn Hk.
  assert (forall p g i st, is_u64 i ->
    keyed {| a_dents := <[(p, fkey g) := i]> (a_dents s); a_stats := <[i := st]> (a_stats s);
             a_next := u64 (a_next s + 1) |}) as Hins.
  { intros p g i st Hi p' f' i' H'. cbn in H'. apply lookup_insert_Some in H' as [[E <-]|[_ H']].
    - injection E as <- <-. split; [|exact Hi]. exists (c_str g). split; [reflexivity|].
      apply c_str_no_nul.
    - exact (Hk _ _ _ H'). }
  assert (forall p g i, keyed (a_remove p g i s)) as Hrem.
  { intros p g i p' f' i' H'. cbn in H'. apply lookup_delete_Some in H' as [_ H'].
    exact (Hk _ _ _ H'). }
  assert (is_u64 (a_next s)) as H1 by (unfold is_u64; lia).
  assert (is_u64 (Z.lor (a_next s) inode_prefix_msb)) as H2
    by (rewrite lor_msb_add by exact Hn; unfold is_u64; lia).
  destruct q; try discriminate; cbn [a_step] in Hstep; unfold a_create in Hstep;
    injection Hstep as Hs; repeat case_match; injection Hs as _ <-; auto;
    intros p' f' i' H'; exact (Hk _ _ _ H').
Qed.

Lemma length_dir_list db p : (length (dir_list db p) <= size (dents db))%nat.
Proof.
  set (g := fun e : bytes * Z => ((p, fst e), snd e)).
  assert (map g (dir_list db p) ⊆+ map_to_list (dents db)) as Hsub.
  { apply NoDup_submseteq.
    - apply NoDup_fmap_2; [|apply dir_list_NoDup]. intros [f i] [f' i']. unfold g. cbn. congruence.
    - intros [k i] Hin. apply list_elem_of_fmap in Hin as ([f i'] & [= -> ->] & Hin).
      apply elem_of_map_to_list, dir_list_spec, Hin. }
  apply submseteq_length in Hsub. rewrite length_map, length_map_to_list in Hsub. exact Hsub.
Qed.

Lemma holds_le k k' w r : (k' <= k)%nat -> holds k w r -> holds k' w r.
Proof. intros Hk []. split; try assumption; try lia. eapply room_le; [|eassumption]. lia. Qed.

Lemma holds_admissible k w r h fname :
  holds (S k) w r -> check_is_blong_to_region r h = true -> has_nul fname = true ->
  Z.of_nat (length (c_str fname)) < METAFS_MAX_FNAME_LEN -> admissible w rid h fname r.
Proof.
  intros [Hr _ [Hst Hnum] _ _ Hkv _ _] Hb Hn Hl. split; try assumption.
  - left. split; [exact Hst|]. lia.
  - unfold is_i32, region_split_threshold in *. lia.
Qed.

(** One served request. *)
Lemma holds_serve k w r j now old q h fname :
  target q = Some (rid, h, fname) -> holds (S k) w r ->
  check_is_blong_to_region r h = true -> has_nul fname = true ->
  Z.of_nat (length (c_str fname)) < METAFS_MAX_FNAME_LEN ->
  exists a s' w' r' x,
    a_step j now q (abs w) = Some (a, s') /\ serve fuel j now old q w = Done (tt, w') /\
    abs w' = s' /\ outbox w' = outbox w ++ [x] /\ answers a x /\ member q x /\
    holds k w' r' /\ start_key r' = start_key r /\ end_key r' = end_key r /\ glob w' = glob w.
Proof.
  intros Ht Hh Hb Hnul Hshort.
  pose proof (holds_admissible _ _ _ _ _ Hh Hb Hnul Hshort) as Hadm.
  destruct Hh as [Hr Hend [Hst Hnum] Hwf Hkeyed Hkv Hnext Hroom].
  destruct (a_step_target j now q (abs w) _ _ _ Ht) as (a & s' & Hstep).
  pose proof (serve_wp fuel limit j now old q w r rid h fname a s' Ht Hadm Hwf
                (room_le _ 2 (2 * S k) ltac:(lia) Hroom) Hstep)
    as Hwp.
  apply wp_Done in Hwp as ([] & w' & Hrun & [Habs (x & Ho & Hx) Hg (lid & Hr') _]).
  destruct (a_step_bounds _ _ _ _ _ _ _ Hwf Hstep) as [Hn Hd]. unfold kv_delta in *.
  destruct (serve_emits fuel j now old q) with (w := w) (a := tt) (w' := w') as (l & El & Fl);
    [destruct q; discriminate|exact Hrun|].
  rewrite Ho in El. apply app_inv_head in El. subst l. apply Forall_cons in Fl as [Fx _].
  pose proof (wf_limit _ _ Hwf) as Hlim.
  set (r1 := set_log_id lid _) in Hr'.
  assert (kv_num r1 = Z.of_nat (size (a_dents s'))) as Hk1.
  { unfold r1. cbn [kv_num set_log_id set_kv_num]. rewrite i32_small; [lia|].
    unfold is_i32, region_split_threshold in *. lia. }
  exists a, s', w', r1, x. do 6 (split; [assumption|]). split; [|split; [reflexivity|split; [reflexivity|exact Hg]]].
  split.
  - exact Hr'.
  - exact Hend.
  - split; [exact Hst|]. rewrite Habs. exact Hk1.
  - rewrite Habs. eapply a_step_wf; [exact Ht|exact Hshort|exact Hwf|lia|exact Hstep].
  - rewrite Habs. eapply keyed_step; [exact Hstep|lia|exact Hkeyed].
  - lia.
  - rewrite Habs. lia.
  - apply (serve_spends fuel j now old q rid h fname Ht w tt w' Hrun).
    eapply room_le; [|exact Hroom]. lia.
Qed.

Definition thread_accepts (n : site_net) (sid r' h : Z) : Prop :=
  sid = s0 /\ r' = rid /\
  exists w r, sites n !! s0 = Some w /\ region_is w rid r /\
    check_is_blong_to_region r h = true.

Definition thread_ready (k : nat) (n : site_net) : Prop :=
  exists w r, sites n !! s0 = Some w /\ holds k w r.

(** The bounds of the region do not move. *)
Lemma accepts_step n w w' r r' m sid r0 h :
  sites n !! s0 = Some w -> region_is w rid r -> region_is w' rid r' ->
  start_key r' = start_key r -> end_key r' = end_key r ->
  thread_accepts n sid r0 h ->
  thread_accepts {| calls := m; sites := <[s0 := w']> (sites n) |} sid r0 h.
Proof.
  intros Hw Hr Hr' Hs He (-> & -> & w1 & r1 & Hw1 & Hr1 & Hb).
  rewrite Hw in Hw1. injection Hw1 as <-.
  assert (r1 = r) as -> by (unfold region_is in *; congruence).
  split; [reflexivity|]. split; [reflexivity|]. exists w', r'.
  split; [apply lookup_insert_eq|]. split; [exact Hr'|].
  unfold check_is_blong_to_region in *. rewrite Hs, He. exact Hb.
Qed.

Lemma thread_request k n sid q rid' h fname :
  target q = Some (rid', h, fname) -> thread_ready (S k) n -> thread_accepts n sid rid' h ->
  has_nul fname = true -> Z.of_nat (length (c_str fname)) < METAFS_MAX_FNAME_LEN ->
  exists j now a s',
    a_step j now q (at_site n empty_afs abs) = Some (a, s') /\
    wp (deliver sid q)
      (fun r n' => answers a r /\ member q r /\ at_site n' empty_afs abs = s' /\
         thread_ready k n' /\
         forall sid rid h, thread_accepts n sid rid h -> thread_accepts n' sid rid h) n.
Proof.
  intros Ht (w & r & Hw & Hh) Hacc Hnul Hshort.
  pose proof Hacc as (-> & -> & w1 & r1 & Hw1 & Hr1 & Hb).
  rewrite Hw in Hw1. injection Hw1 as <-.
  assert (r1 = r) as -> by (pose proof (h_region _ _ _ Hh); unfold region_is in *; congruence).
  destruct (env (calls n)) as [[j now] old] eqn:Eenv.
  destruct (holds_serve k w r j now old q h fname Ht Hh Hb Hnul Hshort)
    as (a & s' & w' & r' & x & Hstep & Hrun & Habs & Ho & Hx & Hm & Hh' & Hs & He & _).
  exists j, now, a, s'. unfold at_site at 1. rewrite Hw. split; [exact Hstep|].
  apply wp_Done. eexists _, _. split.
  { apply (deliver_one n s0 q w w' x Hw); [|exact Ho]. rewrite Eenv. exact Hrun. }
  do 2 (split; [assumption|]). split.
  { unfold at_site. cbn [sites]. rewrite lookup_insert_eq. exact Habs. }
  split.
  - exists w', r'. split; [apply lookup_insert_eq|exact Hh'].
  - intros sid r0 h0. apply (accepts_step n w w' r r'); try assumption; try apply Hh'.
Qed.

Lemma thread_readdir k n sid q :
  thread_ready (S k) n -> thread_accepts n sid (rr_region_id q) (rr_inode_hash q) ->
  let at_cursor n p off := at_site n 0%nat (fun w => cursor (metadb (ctx w)) p off) in
  let at_list n p := at_site n [] (fun w => dir_list (metadb (ctx w)) p) in
  (at_cursor n (rr_inode q) (rr_offset q) < length (at_list n (rr_inode q)))%nat ->
  wp (deliver sid (ReaddirReq q))
    (fun r n' => exists x m, r = RReaddir x /\
       chunk (at_list n (rr_inode q)) (rr_inode q) (at_cursor n (rr_inode q) (rr_offset q)) m x /\
       at_cursor n (rr_inode q) (rd_next_offset x)
         = (at_cursor n (rr_inode q) (rr_offset q) + m)%nat /\
       at_site n' empty_afs abs = at_site n empty_afs abs /\ thread_ready k n' /\
       (forall p, at_list n' p = at_list n p) /\
       (forall p off, at_cursor n' p off = at_cursor n p off) /\
       forall sid rid h, thread_accepts n sid rid h -> thread_accepts n' sid rid h) n.
Proof.
  intros (w & r & Hw & Hh) (-> & Hrid & w1 & r1 & Hw1 & Hr1 & Hb) at_cursor at_list Hlt.
  rewrite Hw in Hw1. injection Hw1 as <-.
  assert (r1 = r) as -> by (pose proof (h_region _ _ _ Hh); unfold region_is in *; congruence).
  unfold at_list, at_cursor, at_site in Hlt |- *. rewrite Hw in Hlt |- *.
  destruct (env (calls n)) as [[j now] old] eqn:Eenv.
  pose proof (readdir_wp limit w q (old_readdir old) r) as Hwp. rewrite Hrid in Hwp.
  assert (quiet r) as Hq.
  { destruct Hh as [_ _ [Hst Hnum] _ _ Hkv _ _]. left. split; [exact Hst|]. lia. }
  specialize (Hwp Hr1 Hq Hb (h_wf _ _ _ Hh)).
  apply wp_Done in Hwp as ([] & w' & Hrun & x & -> & _ & Hmore).
  destruct (Hmore Hlt) as (m & [B1 B2 B3 B4 B5 B6 B7]).
  apply wp_Done. eexists _, _. split.
  { apply (deliver_one n s0 _ w (push (RReaddir x) w) (RReaddir x) Hw); [|reflexivity].
    rewrite Eenv. exact Hrun. }
  cbn [sites]. rewrite lookup_insert_eq. exists x, m. split; [reflexivity|].
  split; [|split; [exact B5|split; [reflexivity|]]].
  - destruct B4 as (E1 & E2 & E3 & E4). split; try assumption.
    + rewrite length_take, length_drop in E1. lia.
    + eexists. rewrite <- E4, take_drop. reflexivity.
    + apply B6. pose proof (length_dir_list (metadb (ctx w)) (rr_inode q)) as Hsz.
      destruct Hh as [_ _ [_ Hnum] _ _ Hkv _ _]. unfold region_split_threshold in Hkv.
      change (dents (metadb (ctx w))) with (a_dents (abs w)) in Hsz. lia.
    + rewrite B7, B5. reflexivity.
  - split; [|split; [reflexivity|split; [reflexivity|]]].
    + exists (push (RReaddir x) w), r. split; [apply lookup_insert_eq|].
      apply (holds_le (S k)); [lia|]. destruct Hh. split; assumption.
    + intros sid r0 h0. apply (accepts_step n w _ r r); try assumption; reflexivity.
Qed.

(** The thread on session [s0] is a service. *)
Definition thread_service : Service server_platform.
Proof.
  refine {| view := fun n : @Net server_platform => at_site n empty_afs abs;
            ready := thread_ready : nat -> @Net server_platform -> Prop;
            accepts := thread_accepts : @Net server_platform -> _;
            listing := fun (n : @Net server_platform) p =>
                         at_site n [] (fun w => dir_list (metadb (ctx w)) p);
            scan := fun (n : @Net server_platform) p off =>
                      at_site n 0%nat (fun w => cursor (metadb (ctx w)) p off) |}.
  - intros k n [p f] i (w & r & Hw & Hh). unfold at_site. rewrite Hw. intros H.
    apply (h_keyed _ _ _ Hh p f i H).
  - intros k k' n Hk (w & r & Hw & Hh). exists w, r. split; [exact Hw|].
    apply (holds_le k); assumption.
  - intros n p. unfold at_site. destruct (sites n !! s0); [apply cursor_start|reflexivity].
  - intros k n p f i (w & r & Hw & _). unfold at_site. rewrite Hw. apply dir_list_spec.
  - intros k n p (w & r & Hw & _). unfold at_site. rewrite Hw. apply dir_list_NoDup.
  - intros k n p f i (w & r & Hw & Hh). unfold at_site. rewrite Hw. intros H.
    apply dir_list_spec in H. apply (h_keyed _ _ _ Hh p f i H).
  - exact thread_request.
  - exact thread_readdir.
Defined.

End Deliver.
