(* ===== verification/TypedRuns.v ===== *)
(** * Sessions of typed requests

    A server thread from its start through a session of client requests: the session runs to its
    end and the state and the responses stay inside their C types.  The termination comes from the
    refinement of the handlers (HandlerSpec.v, Deliver.v), the types from Typing.v. *)

From Stdlib Require Import ZArith Lia.
From stdpp Require Import base numbers list gmap strings.
From S2P Require Import Prelude JumpHash Types XXHash Stores Wire Server Handlers HandlerSpec Sample Typing.
From S2P Require Import RpcClient MetaClient ClientSpec Deliver.
Open Scope Z_scope.

Module TypedRuns.
Import Typing.

(** A client request to region [rid] with its hash in [lo..hi], or a request for the region map. *)
Definition session_call (rid lo hi : Z) (c : call) : Prop :=
  match snd c with
  | ReaddirReq r => rr_region_id r = rid /\ lo <= rr_inode_hash r <= hi
  | ReadRegionmapReq _ => True
  | _ => for_region rid lo hi c
  end.

Section Total.
Context {KV : MetaKV} {RK : RocksDB} {KVL : MetaKVLaws KV} {RKL : RocksDBLaws RK}.
Context (fuel : nat) (rid limit : Z).

Lemma holds_push k w r x : holds rid limit k w r -> holds rid limit k (push x w) r.
Proof. intros []. split; assumption. Qed.

Lemma regions_push x w : size (global_region_map (glob (push x w))) = size (global_region_map (glob w)).
Proof. reflexivity. Qed.

(** One request of a session is answered once. *)
Lemma session_step k w r c : holds rid limit (S k) w r -> (size (global_region_map (glob w)) <= 92)%nat ->
  session_call rid (key_hi (start_key r)) (key_hi (end_key r)) c ->
  exists w' r' x, (let '(j, now, old, q) := c in serve fuel j now old q w) = Done (tt, w') /\
    outbox w' = outbox w ++ [x] /\ holds rid limit k w' r' /\ start_key r' = start_key r /\ end_key r' = end_key r /\
    glob w' = glob w /\ alloc_inode (ctx w) <= alloc_inode (ctx w').
Proof.
  intros Hh Hmap Hc. destruct c as [[[j now] old] q]. pose proof (holds_le rid limit (S k) k w r ltac:(lia) Hh) as Hk.
  assert ((exists h fname, target q = Some (rid, h, fname) /\ key_hi (start_key r) <= h <= key_hi (end_key r) /\
    has_nul fname = true /\ Z.of_nat (length (c_str fname)) < METAFS_MAX_FNAME_LEN) ->
    exists w' r' x, serve fuel j now old q w = Done (tt, w') /\ outbox w' = outbox w ++ [x] /\
      holds rid limit k w' r' /\
      start_key r' = start_key r /\ end_key r' = end_key r /\ glob w' = glob w /\
      alloc_inode (ctx w) <= alloc_inode (ctx w')) as Hname.
  { intros (h & fname & Ht & Hr & Hnul & Hlen).
    assert (check_is_blong_to_region r h = true) as Hb
      by (unfold check_is_blong_to_region; apply andb_true_iff; rewrite !Z.leb_le; exact Hr).
    destruct (holds_serve fuel rid limit k w r j now old q h fname Ht Hh Hb Hnul Hlen)
      as (a & s' & w' & r' & x & Hstep & Hrun & <- & Ho & _ & _ & Hh' & Hs & He & Hg).
    destruct (a_step_bounds limit j now q (abs w) a (abs w') (h_wf _ _ _ _ _ Hh) Hstep) as [[Hn _] _].
    exists w', r', x. auto 10. }
  destruct q as [| | | | | |q| |cid| | |]; cbn [session_call snd] in Hc; try (apply Hname; exact Hc);
    try (destruct Hc as (h & fname & Ht & _); discriminate Ht).
  - destruct Hc as [Hrid Hr]. destruct Hh as [Hreg _ [Hst Hnum] Hwf _ Hkv _ _].
    assert (wp (fs_readdir_handler q (old_readdir old)) (fun _ w' => exists x, w' = push (RReaddir x) w) w) as Hwp.
    { eapply wp_mono; [apply (readdir_wp limit w q (old_readdir old) r)|].
      - rewrite Hrid. exact Hreg.
      - left. split; [exact Hst|]. lia.
      - unfold check_is_blong_to_region. apply andb_true_iff. rewrite !Z.leb_le. exact Hr.
      - exact Hwf.
      - intros [] w' (x & -> & _). eauto. }
    apply wp_Done in Hwp as ([] & w' & Hrun & x & ->). eexists _, r, _. split; [exact Hrun|].
    split; [reflexivity|]. split; [apply holds_push, Hk|]. do 3 (split; [reflexivity|]). apply Z.le_refl.
  - eexists _, r, _. split.
    + cbn [serve]. unfold read_region_map_handler, bind, gets. rewrite length_map, length_map_to_list.
      change regionmap_capacity with 92. rewrite (proj2 (Z.leb_le _ _)) by lia. reflexivity.
    + split; [reflexivity|]. split; [exact (holds_push k w r _ Hk)|]. do 3 (split; [reflexivity|]). apply Z.le_refl.
Qed.

Lemma session_total cs : forall w r, holds rid limit (length cs) w r ->
  (size (global_region_map (glob w)) <= 92)%nat ->
  Forall (session_call rid (key_hi (start_key r)) (key_hi (end_key r))) cs ->
  exists w' r' rs, serve_all fuel cs w = Done (tt, w') /\ outbox w' = outbox w ++ rs /\ length rs = length cs /\
    holds rid limit 0 w' r' /\ alloc_inode (ctx w) <= alloc_inode (ctx w').
Proof.
  induction cs as [|[[[j now] old] q] cs IH]; intros w r Hh Hmap Hcs.
  { exists w, r, []. rewrite app_nil_r. auto using Z.le_refl. }
  apply Forall_cons in Hcs as [Hc Hcs].
  destruct (session_step (length cs) w r _ Hh Hmap Hc) as (w1 & r1 & x & Hrun & Ho & Hh1 & Hs & He & Hg & Hi).
  rewrite <- Hs, <- He in Hcs. rewrite <- Hg in Hmap.
  destruct (IH w1 r1 Hh1 Hmap Hcs) as (w' & r' & rs & Hrun' & Ho' & Hlen & Hh' & Hi').
  exists w', r', (x :: rs). cbn [serve_all length]. unfold bind. rewrite Hrun, Hrun', Ho', Ho, <- app_assoc, Hlen.
  split; [reflexivity|]. split; [reflexivity|]. split; [reflexivity|]. split; [exact Hh'|].
  exact (Z.le_trans _ _ _ Hi Hi').
Qed.

End Total.

Section Boot.
Context {KV : MetaKV} {RK : RocksDB} {KVL : MetaKVLaws KV} {RKL : RocksDBLaws RK} {TS : TypedStore KV}.

Lemma map_insert_size {A} k (v : A) (m : gmap Z A) : (size (map_insert k v m) <= S (size m))%nat.
Proof.
  unfold map_insert. destruct (m !! k) eqn:E; [lia|]. rewrite map_size_insert_None by exact E. lia.
Qed.

Lemma init_regions id fg tid db ldb w w' : init_server_context id fg tid db ldb w = Done (tt, w') ->
  (size (global_region_map (glob w')) <= S (size (global_region_map (glob w))))%nat.
Proof.
  unfold init_server_context, register_region, bind, upd_ctx, upd_glob, modify, gets. intros [= <-].
  apply map_insert_size.
Qed.

(** C17: A server thread of a server with an id below 256 starts on an empty store with room for the
    session, in a process that knows fewer than 92 regions.  It then serves a session of client
    requests (open, mknod, stat, unlink, mkdir, rmdir, getinode, readdir, region map) of at most the
    split threshold in number, whose fields have the types of the messages, whose names are
    terminated and whose hashes lie in the region of the thread.  The whole session runs to its end
    without a fault and with one response per request; all fields of the state of the thread and of
    the process and of the responses are inside their C types, the listing has the size of its array
    and the region map fits in its array; and no counter has wrapped: the region's counter is the
    number of entries and the inode counter is still in the block of the thread. *)
Theorem session_typed fuel id fg tid db ldb cs w
    (Hid : 0 <= id < 256) (Htid : 0 <= tid < 256) (Hrid : 0 <= id * fg /\ id * fg + tid < 2 ^ 20)
    (Hw : typed_world w) (Hempty : region_map (ctx w) = ∅) (Hmap : (size (global_region_map (glob w)) < 92)%nat)
    (Hdb : typed_db db /\ dents db = ∅ /\ stats db = ∅ /\ room db (2 * length cs))
    (Hlen : Z.of_nat (length cs) <= region_split_threshold) (Htyped : Forall typed_call cs)
    (Hcalls : Forall (session_call (id * fg + tid) ((id * fg + tid) * PINODE_HASH_RANGE)
                        ((id * fg + tid + 1) * PINODE_HASH_RANGE - 1)) cs) :
  exists w' rs r,
    bind (init_server_context id fg tid db ldb) (fun _ => serve_all fuel cs) w = Done (tt, w') /\
    outbox w' = outbox w ++ rs /\ length rs = length cs /\ typed_world w' /\
    region_is w' (id * fg + tid) r /\ kv_num r = Z.of_nat (size (dents (metadb (ctx w')))) /\
    init_alloc_inode id tid <= alloc_inode (ctx w') < (id * 256 + tid + 1) * 2 ^ 40.
Proof.
  set (rid := id * fg + tid) in *. destruct Hdb as (Hdb & Hd & Hs & Hroom).
  set (limit := (id * 256 + tid + 1) * 2 ^ 40).
  destruct (init_server_context_spec w id fg tid db ldb) as (w1 & r & Hinit & Hr & Hst & Hk & Hlo & Hhi & Hdb1 & Hn & Ho);
    [lia..|exact Hempty|]. fold rid in Hr, Hlo, Hhi.
  assert (abs w1 = {| a_dents := ∅; a_stats := ∅; a_next := init_alloc_inode id tid |})
    as Habs by (unfold abs; rewrite Hdb1, Hn, Hd, Hs; reflexivity).
  assert (holds rid limit (length cs) w1 r) as Hh.
  { split; rewrite ?Habs; cbn [a_next].
    - exact Hr.
    - rewrite Hhi. unfold PINODE_HASH_RANGE. lia.
    - split; [exact Hst|]. rewrite Habs, Hk. reflexivity.
    - apply afs_wf_boot; assumption.
    - intros p f i. cbn. rewrite lookup_empty. discriminate.
    - lia.
    - rewrite init_alloc_inode_value by assumption. unfold limit, region_split_threshold in *. lia.
    - rewrite Hdb1. exact Hroom. }
  pose proof (init_regions id fg tid db ldb w w1 Hinit) as Hsize. rewrite <- Hlo, <- Hhi in Hcalls.
  destruct (session_total fuel rid limit cs w1 r Hh ltac:(lia) Hcalls) as (w' & r' & rs & Hrun & Ho' & Hl & Hh' & Hi).
  exists w', rs, r'. unfold bind. rewrite Hinit. split; [exact Hrun|]. split; [congruence|]. split; [exact Hl|].
  assert (typed_world w') as Hw'.
  { assert (is_u64 tid) as Hu by (unfold is_u64; lia). pose proof (init_typed id fg tid db ldb w Hu Hdb Hw) as H1.
    unfold partial, wpx in H1. rewrite Hinit in H1. pose proof (serve_all_typed fuel cs w1 Htyped H1) as H2.
    unfold partial, wpx in H2. rewrite Hrun in H2. exact H2. }
  split; [exact Hw'|]. destruct Hh' as [H1 _ [_ H2] _ _ _ H3 _]. split; [exact H1|]. split; [exact H2|].
  split; [lia|]. cbn in H3. unfold limit in H3. lia.
Qed.

End Boot.

(** ** A session *)

Import Sample.

Lemma repeat_spec_elem {A} (x y : A) n : y ∈ repeat x n -> y = x.
Proof. rewrite list_elem_of_In. apply repeat_spec. Qed.

(** A process before its start, and a session of one creation, a listing and a region map. *)
Definition start_world : world :=
  {| ctx := {| thread_id := 0; global_id := 0; alloc_inode := 0; metadb := MapDb.empty : @MetaDb MapDb.kv;
               log_db := SortedLog.empty : @LogDB SortedLog.rocks; region_map := ∅; pinode_table := ∅ |};
     glob := glob0; outbox := [] |}.

Definition calls0 : list call :=
  [(j0, 9, old0, MknodReq mknod_a);
   (j0, 9, old0, ReaddirReq {| rr_region_id := 0; rr_inode := fs_root_inode; rr_inode_hash := 3; rr_offset := 0 |});
   (j0, 9, old0, ReadRegionmapReq 0)].

Lemma calls0_typed : Forall typed_call calls0.
Proof.
  assert (typed_junk j0) as Hj by (repeat split; vm_compute; congruence).
  assert (typed_stale old0) as Ho.
  { repeat split; try (vm_compute; congruence). apply Forall_forall. intros b Hb. apply repeat_spec_elem in Hb as ->.
    unfold is_byte. lia. }
  repeat (apply Forall_cons_2); [..|constructor]; (split; [exact Hj|split; [vm_compute; split; congruence|split;
    [exact Ho|]]]).
  - repeat split; try (vm_compute; congruence). repeat constructor; unfold is_byte; vm_compute; congruence.
  - repeat split; vm_compute; congruence.
  - split; vm_compute; congruence.
Qed.

Lemma empty_typed : typed_map MapDb.empty.
Proof. split; cbn; try (intros *; rewrite lookup_empty; discriminate). reflexivity. Qed.

Lemma start_world_typed : typed_world start_world.
Proof.
  split; [split|split|constructor]; cbn; try (intros *; rewrite lookup_empty; discriminate).
  - repeat split; vm_compute; congruence.
  - exact empty_typed.
  - split; vm_compute; congruence.
  - intros *. rewrite elem_of_nil. contradiction.
Qed.

Lemma session_typed_witness :
  exists w' rs r,
    bind (@init_server_context MapDb.kv SortedLog.rocks 0 1 0 MapDb.empty SortedLog.empty) (fun _ =>
      serve_all 5 calls0) start_world
      = Done (tt, w') /\
    outbox w' = [] ++ rs /\ length rs = 3%nat /\ typed_world w' /\
    region_is w' 0 r /\ kv_num r = Z.of_nat (size (dents (metadb (ctx w')))) /\
    init_alloc_inode 0 0 <= alloc_inode (ctx w') < (0 * 256 + 0 + 1) * 2 ^ 40.
Proof.
  apply (@session_typed MapDb.kv SortedLog.rocks MapDb.laws SortedLog.laws map_typed 5 0 1 0 MapDb.empty SortedLog.empty calls0 start_world); try lia.
  - exact start_world_typed.
  - reflexivity.
  - vm_compute. lia.
  - split; [exact empty_typed|]. split; [reflexivity|]. split; [reflexivity|]. change (6 <= N.to_nat 100000)%nat. lia.
  - vm_compute. discriminate.
  - exact calls0_typed.
  - apply Forall_cons_2; [|apply Forall_cons_2; [|apply Forall_cons_2; [exact I|apply Forall_nil_2]]].
    + eexists _, _. split; [reflexivity|]. split; [vm_compute; split; discriminate|]. split; vm_compute; reflexivity.
    + split; [reflexivity|]. vm_compute. split; discriminate.
Defined.

End TypedRuns.
