(* ===== verification/HookSpec.v ===== *)
(** * What the hooks do

    From the path of a system call to the path inside the file system, and triples
    for [hook_stat] and the creating branch of [hook_openat] against the interface
    [Service]. *)

From Stdlib Require Import ZArith Lia.
From stdpp Require Import base numbers list gmap.
From S2P Require Import Prelude JumpHash Types XXHash Stores Wire Server Handlers HandlerSpec.
From S2P Require Import LruCache DentryCache OpenFileMap RpcClient MetaClient Hooks ClientSpec.
From S2P Require Import RpcSpec PathSpec.
Open Scope Z_scope.

(** ** Paths below the mount point *)

Lemma strncmp_prefix a b : strncmp_eq a (a ++ b) (Z.of_nat (length a)) = true.
Proof.
  unfold strncmp_eq. rewrite length_app. apply bool_decide_eq_true.
  rewrite Z.min_l by lia. rewrite Nat2Z.id, take_app_length, <- app_assoc, take_app_length.
  reflexivity.
Qed.

Lemma drop_slashes s :
  exists t, drop (slashes s) (slash :: s) = slash :: t /\ components t = components s /\
    (length t <= length s)%nat.
Proof.
  induction s as [|b s (t & E & Hc & Hl)]; cbn [slashes].
  - exists []. auto.
  - destruct (Z.eqb_spec b slash) as [->|Hb].
    + exists t. cbn [drop]. rewrite E, components_slash, Hc. cbn. auto.
    + exists (b :: s). auto.
Qed.

Section HookSpec.
Context {P : Platform} {SV : Service P}.
Context (mountdir : bytes) (rfuel : nat).

Lemma wp_realpath rest c (Q : option bytes -> client -> Prop) :
  (forall rp, head rp = Some slash -> components rp = components rest ->
     (length rp <= S (length rest))%nat -> Q (Some rp) c) ->
  wp (realpath_of mountdir (mountdir ++ slash :: rest)) Q c.
Proof.
  intros HQ. unfold realpath_of, mt_dir_len. rewrite strncmp_prefix. cbn [negb orb].
  replace (_ =? _)%nat with false by
    (symmetry; apply Nat.eqb_neq; rewrite length_app; cbn; lia).
  rewrite drop_app_length. cbn [slashes]. rewrite Z.eqb_refl, Nat.add_succ_r.
  apply wp_ret. destruct (drop_slashes rest) as (t & E & Hc & Hl).
  assert (drop (length mountdir + slashes rest) (mountdir ++ slash :: rest) = slash :: t) as ->.
  { rewrite <- drop_drop, drop_app_length. exact E. }
  apply HQ; [reflexivity|rewrite components_slash; exact Hc|cbn; lia].
Qed.

(** A good path: its components fit, and so does its last one. *)
Definition good_path (rest : bytes) : Prop := Forall good_name (components rest).

Lemma good_name_nil : good_name [].
Proof. split; [constructor|]. cbn. unfold METAFS_MAX_FNAME_LEN. lia. Qed.

Lemma walk_u64 k c p cs q :
  ready k (net c) -> is_u64 p -> walk (view (net c)) p cs = Some q -> is_u64 q.
Proof.
  intros Hr. revert p. induction cs as [|f cs IH]; intros p Hp; cbn.
  - intros [= <-]. exact Hp.
  - destruct (entry _ p f) as [i|] eqn:E; [|discriminate]. apply IH.
    eapply view_u64; [exact Hr|exact E].
Qed.

(** What [resolves] gives on success. *)
Lemma resolves_ok k c path p0 f0 p f :
  ready k (net c) -> good_path path ->
  resolves (view (net c)) path p0 f0 = (ROk, p, f) -> is_u64 p /\ good_name f.
Proof.
  intros Hr Hg. unfold good_path in Hg.
  destruct (components path) as [|a l] eqn:E using rev_ind; [|clear IHl].
  - unfold resolves. rewrite E. intros [= <- <-]. split; [|exact good_name_nil].
    vm_compute. split; [discriminate|reflexivity].
  - rewrite (resolves_snoc _ _ _ _ _ _ E). apply Forall_app in Hg as [_ Hg].
    apply Forall_cons in Hg as [Hg _].
    destruct (walk _ 0 l) as [q|] eqn:Ew; [|discriminate]. intros [= <- <-].
    split; [|exact Hg]. eapply walk_u64; [exact Hr| |exact Ew]. unfold is_u64. lia.
Qed.

Lemma resolves_components s path path' p0 f0 :
  components path = components path' -> resolves s path p0 f0 = resolves s path' p0 f0.
Proof. intros E. unfold resolves. rewrite E. reflexivity. Qed.

Local Open Scope m_scope.

(** The common start of the path hooks. *)
Lemma wp_path {A} m rest c j (none : M client A)
    (k : bytes -> PathStatus -> Z -> bytes -> M client A) (Q : A -> client -> Prop) :
  good_path rest -> connected (m + S (length rest)) c -> cache_ok c ->
  (forall rp c' s p f, moved m c c' ->
     (Forall short (removelast (components rest)) -> slot c' = slot c) ->
     resolves (view (net c)) rest (j_inode j) [] = (s, p, f) -> wp (k rp s p f) Q c') ->
  wp (let* rp := realpath_of mountdir (mountdir ++ slash :: rest) in
      match rp with
      | None => none
      | Some realpath =>
          let* (s, pinode, fname, _) :=
            ResolvePath rfuel (j_inode j) realpath (j_inode j) [] None in
          k realpath s pinode fname
      end) Q c.
Proof.
  intros Hg Hc Hok HQ. apply wp_bind, wp_realpath. intros rp Hh Hcs Hlen.
  apply wp_bind. eapply wp_mono.
  { apply (wp_ResolvePath_rec m (length rp)); try assumption; try lia.
    - rewrite Hcs. exact Hg.
    - eapply connected_le; [|exact Hc]. lia. }
  cbn beta. intros [[[s p] f] d] c' (Hm & Hslot & E). cbn [fst] in E.
  rewrite (resolves_components _ rp rest _ _ Hcs) in E. rewrite Hcs in Hslot.
  apply (HQ rp c' s p f Hm Hslot). symmetry. exact E.
Qed.

(** ** [stat] *)

(** The result of [stat] on the path [rest]. *)
Definition stat_result (s : afs) (rest : bytes) (j : junk) (st : kstat) (res : Z)
  : Z * Z * kstat :=
  match resolves s rest (j_inode j) [] with
  | (ROk, p, f) =>
      match found s p f with
      | Some (i, x) => (0, 0, fill_stat i x st)
      | None => (0, - ENOENT, st)
      end
  | _ => (- ENOENT, res, st)
  end.

Lemma wp_Getstat k c p f i0 s0 (Q : Z * Z * metafs_stat_t -> client -> Prop) :
  connected (S k) c -> cache_ok c -> good_name f -> is_u64 p ->
  (forall c', moved k c c' ->
     Q (match found (view (net c)) p f with
        | Some (i, st) => (0, i, st)
        | None => (- ENOENT, i0, s0)
        end) c') ->
  wp (Getstat rfuel p f i0 s0) Q c.
Proof.
  intros Hc Hok Hf Hp HQ. apply wp_bind, (wp_RPC_Getstat k c p f); [assumption..|].
  intros c' Hs Hv _. specialize (HQ c' (moved_sent _ _ _ Hs Hok Hv)).
  destruct (found _ p f) as [[i st]|]; apply wp_bind, wp_ret, wp_bind, wp_ret, wp_ret, HQ.
Qed.

Lemma wp_hook_stat m rest c j st res (Q : Z * Z * kstat -> client -> Prop) :
  good_path rest -> connected (S m + S (length rest)) c -> cache_ok c ->
  (forall c', moved m c c' -> Q (stat_result (view (net c)) rest j st res) c') ->
  wp (hook_stat mountdir rfuel j (mountdir ++ slash :: rest) st res) Q c.
Proof.
  intros Hg Hc Hok HQ. unfold hook_stat.
  apply (wp_path (S m) rest c j (ret (1, res, st)) (fun rp s p f =>
    if negb (bool_decide (s = ROk)) then ret (- ENOENT, res, st)
    else let* (r, inode, stat) := Getstat rfuel p f (j_inode j) (j_stat j) in
         ret (0, r, if r =? 0 then fill_stat inode stat st else st))); try assumption.
  intros rp c' s p f Hm _ E. unfold stat_result in HQ. rewrite E in HQ.
  assert (moved m c c') as Hm'.
  { split; [eapply connected_le; [|apply Hm]; lia|apply Hm]. }
  destruct s; cbn [negb bool_decide]; [|apply wp_ret, HQ, Hm'..].
  destruct (resolves_ok (S m + S (length rest)) c rest _ _ p f (con_ready _ _ Hc) Hg E) as [Hp Hf].
  apply wp_bind, (wp_Getstat m); try assumption; try apply Hm. intros c2 Hm2.
  rewrite (moved_view _ _ _ Hm). specialize (HQ c2 (moved_trans _ _ _ _ _ Hm Hm2)).
  destruct (found _ p f) as [[i x]|]; apply wp_ret, HQ.
Qed.

(** ** Creating a file *)

Lemma walk_extends s s' p cs q :
  a_dents s ⊆ a_dents s' -> walk s p cs = Some q -> walk s' p cs = Some q.
Proof.
  intros Hsub. revert p. induction cs as [|f cs IH]; intros p; cbn; [auto|].
  destruct (entry s p f) as [i|] eqn:E; [|discriminate].
  assert (entry s' p f = Some i) as -> by (eapply lookup_weaken; [exact E|exact Hsub]).
  apply IH.
Qed.

Lemma resolves_extends s s' path p0 f0 p f :
  a_dents s ⊆ a_dents s' -> resolves s path p0 f0 = (ROk, p, f) ->
  resolves s' path p0 f0 = (ROk, p, f).
Proof.
  intros Hsub. destruct (components path) as [|a l] eqn:E using rev_ind; [|clear IHl].
  - unfold resolves. rewrite E. auto.
  - rewrite !(resolves_snoc _ _ _ _ _ _ E). destruct (walk s 0 l) as [q|] eqn:Ew; [|discriminate].
    rewrite (walk_extends _ _ _ _ _ Hsub Ew). auto.
Qed.

Lemma cache_ok_extends c c' :
  cache_ok c -> dentry_cache c' = dentry_cache c ->
  a_dents (view (net c)) ⊆ a_dents (view (net c')) -> cache_ok c'.
Proof.
  intros [H1 H2] Hd Hsub. split; rewrite Hd; [exact H1|]. intros d f v Hd' Hv.
  eapply lookup_weaken; [exact (H2 d f v Hd' Hv)|exact Hsub].
Qed.

Lemma moved_routes k c c' p sid : moved k c c' -> routes c' p sid <-> routes c p sid.
Proof. intros (_ & _ & _ & _ & d & b & n & ->). apply routes_frame; reflexivity. Qed.

(** [Mknod] of a name that is free, when the servers accept the hash that happens to
    be in the buffer. *)
Lemma wp_Mknod k c p f md i0 s0 (Q : Z * Z * metafs_stat_t -> client -> Prop) :
  connected (S k) c -> good_name f -> is_u64 p -> entry (view (net c)) p f = None ->
  (forall sid, routes c p sid -> accepts (net c) sid (fst (header (req_buf c))) (slot c)) ->
  (forall c' st, sent k c c' ->
     created p f (view (net c)) (view (net c')) (a_next (view (net c))) md ->
     Q (0, a_next (view (net c)), st) c') ->
  wp (Mknod rfuel p f md i0 s0) Q c.
Proof.
  intros Hc Hf Hp He Hacc HQ. apply wp_bind, (wp_RPC_Mknod k c p f); try assumption.
  intros c' Hs. rewrite He. intros Hcr st.
  apply wp_bind, wp_ret, wp_bind, wp_ret, wp_ret, HQ; assumption.
Qed.

Lemma wp_add_file o c (Q : Z -> client -> Prop) :
  Files.Inv (ofm_ c) -> Z.of_nat (size (Files.files_ (ofm_ c))) < Files.span ->
  (forall fd ptr t, START_FD <= fd < Files.int_max ->
     Files.files_ (ofm_ c) !! fd = None ->
     Files.files_ t = <[fd := ptr]> (Files.files_ (ofm_ c)) ->
     Files.heap t !! ptr = Some o -> Files.Inv t -> Q fd (set_ofm t c)) ->
  wp (add_file o) Q c.
Proof.
  intros Hi Hsz HQ. unfold add_file. apply wp_bind, wp_zoom. unfold wp at 1. cbn [Files.alloc].
  apply wp_zoom. set (t := {| Files.heap := _ |}).
  assert (Files.Inv t) as Ht by (destruct Hi; split; assumption).
  apply (Files.wp_fresh_insert t (Files.brk (ofm_ c))); [exact Ht|exact Hsz|].
  intros fd t' Hfd Hfree Hfiles Hheap Hi'.
  apply (HQ fd (Files.brk (ofm_ c)) t'); try assumption.
  rewrite Hheap. apply lookup_insert_eq.
Qed.

(** [fd] was free and is now an open regular file for the entry [f] of [p] with the inode [i];
    the other descriptors are as they were. *)
Definition opened_as (t t' : Files.OpenFileMap) (fd i p : Z) (f : bytes) : Prop :=
  Files.files_ t !! fd = None /\
  exists ptr o, Files.files_ t' = <[fd := ptr]> (Files.files_ t) /\ Files.heap t' !! ptr = Some o /\
    Files.type_ o = Files.regular /\ Files.inode_ o = i /\ Files.pinode_ o = p /\
    Files.fname_ o = f /\ Files.pos_ o = 0.

Lemma wp_hook_create m rest c j flags md res p f (Q : Z * Z -> client -> Prop) :
  head mountdir = Some slash -> good_path rest ->
  Forall short (removelast (components rest)) ->
  connected (S m + S (length rest)) c -> cache_ok c ->
  Files.Inv (ofm_ c) -> Z.of_nat (size (Files.files_ (ofm_ c))) < Files.span ->
  Files.has_flag flags Files.O_CREAT = true -> Files.has_flag flags O_DIRECTORY = false ->
  S_ISDIR md = false ->
  resolves (view (net c)) rest (j_inode j) [] = (ROk, p, f) ->
  entry (view (net c)) p f = None ->
  (forall sid, routes c p sid -> accepts (net c) sid (fst (header (req_buf c))) (slot c)) ->
  (forall fd c', START_FD <= fd < Files.int_max ->
     created p f (view (net c)) (view (net c')) (a_next (view (net c))) (Z.lor md S_IFREG) ->
     connected m c' -> cache_ok c' ->
     opened_as (ofm_ c) (ofm_ c') fd (a_next (view (net c))) p f ->
     Q (0, fd) c') ->
  wp (hook_openat mountdir rfuel j AT_FDCWD (mountdir ++ slash :: rest) flags md res) Q c.
Proof.
  intros Hmnt Hg Hshort Hc Hok Hinv Hsz Hcreat Hnodir Hreg E He Hacc HQ.
  unfold hook_openat. rewrite Z.eqb_refl. cbn [negb].
  replace (bool_decide (head (mountdir ++ slash :: rest) = Some slash)) with true by
    (symmetry; apply bool_decide_eq_true; destruct mountdir; [discriminate|exact Hmnt]).
  cbn [negb]. rewrite Hcreat, Hnodir, Hreg. cbn [orb].
  apply (wp_path (S m) rest c j (ret (1, res)) (fun rp s p f =>
    if negb (bool_decide (s = ROk)) then ret (0, - ENOENT)
    else
      let* (r, inode, _) := Mknod rfuel p f (Z.lor md S_IFREG) (j_inode j) (j_stat j) in
      if negb (r =? 0) then ret (0, - EEXIST)
      else let* fd := add_file (Files.new_OpenFile rp flags p f inode Files.regular) in
           ret (0, fd))); try assumption.
  intros rp c1 s p' f' Hm Hslot E'. rewrite E in E'. injection E' as <- <- <-.
  cbn [negb bool_decide].
  destruct (resolves_ok (S m + S (length rest)) c rest _ _ p f (con_ready _ _ Hc) Hg E) as [Hp Hf].
  pose proof (moved_view _ _ _ Hm) as Hv.
  apply wp_bind, (wp_Mknod m c1); try assumption; try apply Hm.
  { rewrite Hv. exact He. }
  { intros sid Hr. rewrite (Hslot Hshort). pose proof Hm as (_ & _ & _ & [K1 K2] & _).
    rewrite K1. apply K2, Hacc. apply (moved_routes (S m) c c1); [exact Hm|exact Hr]. }
  rewrite Hv. intros c2 st Hs (st' & Hmode & Hv2). cbn [Z.eqb negb].
  assert (ofm_ c2 = ofm_ c /\ dentry_cache c2 = dentry_cache c1) as [Ho Hd].
  { destruct Hs as (_ & _ & b & n & ->). destruct Hm as (_ & _ & _ & _ & d & b' & n' & ->). auto. }
  apply wp_bind, wp_add_file; rewrite ?Ho; [assumption..|].
  intros fd ptr t Hfd Hfree Hfiles Hheap Hi. apply wp_ret, HQ.
  - exact Hfd.
  - exists st'. auto.
  - destruct Hs as [Hc2 _].
    apply (connected_frame m c2); try reflexivity; try apply Hc2; eauto.
  - apply (cache_ok_extends c1); [apply Hm|exact Hd|].
    cbn [net set_ofm]. rewrite Hv, Hv2. cbn. apply insert_subseteq. exact He.
  - split; [exact Hfree|]. exists ptr. eexists. split; [exact Hfiles|]. split; [exact Hheap|].
    repeat split; reflexivity.
Qed.

End HookSpec.
