(* ===== verification/DentsSpec.v ===== *)
(** * Directory listings ([hook_getdents64])

    The buffer that [hook_getdents64] fills holds one well-formed
    [struct linux_dirent64] per entry, in order, and the position of the open
    directory moves past the entries that were written. *)

From Stdlib Require Import ZArith Lia.
From stdpp Require Import base numbers list gmap.
From S2P Require Import Prelude Types Wire Handlers LruCache DentryCache OpenFileMap RpcClient.
From S2P Require Import MetaClient Hooks ClientSpec.
Open Scope Z_scope.

Lemma align8_spec x : align8 x = 8 * ((x + 7) / 8).
Proof.
  unfold align8. change 7 with (Z.ones 3) at 2. rewrite <- Z.ldiff_land, Z.ldiff_ones_r by lia.
  rewrite Z.shiftl_mul_pow2, Z.shiftr_div_pow2 by lia. change (2 ^ 3) with 8. lia.
Qed.

Lemma align8_bounds x : x <= align8 x <= x + 7.
Proof.
  rewrite align8_spec. pose proof (Z.div_mod (x + 7) 8). pose proof (Z.mod_pos_bound (x + 7) 8). lia.
Qed.

Section DentsSpec.
Context {P : Platform}.

(** A name a record can hold. *)
Definition fits_record (e : Files.DirEntry) : Prop :=
  no_nul (Files.name_ e) /\ Z.of_nat (length (Files.name_ e)) <= METAFS_MAX_FNAME_LEN.

(** The record of [e] at offset [o], which says that the next position is [pos]. *)
Record record64 (dir : Files.OpenFile) (buf : bytes) (o : nat) (pos : Z) (e : Files.DirEntry)
  : Prop := {
  rec_ino : int_at o 8 buf = d_ino_of dir e;
  rec_off : int_at (o + 8) 8 buf = u64 pos;
  rec_len : int_at (o + 16) 2 buf = total_size64 e;
  rec_type : buf !! (o + 18)%nat = Some (d_type_of e);
  rec_name : take (S (length (Files.name_ e))) (drop (o + 19) buf) = Files.name_ e ++ [0]
}.

(** The records of [es] one after the other. *)
Fixpoint records (dir : Files.OpenFile) (buf : bytes) (o : nat) (pos : Z)
    (es : list Files.DirEntry) : Prop :=
  match es with
  | [] => True
  | e :: es' => record64 dir buf o (pos + 1) e /\
                records dir buf (o + Z.to_nat (total_size64 e)) (pos + 1) es'
  end.

Definition sizes (es : list Files.DirEntry) : Z :=
  foldr (fun e n => total_size64 e + n) 0 es.

Lemma size_bounds e :
  fits_record e ->
  20 + Z.of_nat (length (Files.name_ e)) <= total_size64 e <= 155.
Proof.
  intros [_ H]. unfold total_size64, METAFS_MAX_FNAME_LEN in *.
  pose proof (align8_bounds (19 + Z.of_nat (length (Files.name_ e)) + 1)). lia.
Qed.

(** The bytes below [o] are those of [buf]. *)
Definition same_below (o : nat) (buf buf' : bytes) : Prop :=
  length buf' = length buf /\ take o buf' = take o buf.

Lemma same_below_trans o o' a b c :
  (o <= o')%nat -> same_below o a b -> same_below o' b c -> same_below o a c.
Proof.
  intros Ho [H1 H2] [H3 H4]. split; [congruence|].
  rewrite <- H2. apply (f_equal (take o)) in H4. rewrite !take_take, !Nat.min_l in H4 by lia. exact H4.
Qed.

Lemma same_below_slice o a b x n :
  same_below o a b -> (x + n <= o)%nat -> take n (drop x b) = take n (drop x a).
Proof.
  intros [_ H] Hx. rewrite <- (slice_take b o x n), <- (slice_take a o x n), H by lia. reflexivity.
Qed.

Lemma same_below_lookup o a b x : same_below o a b -> (x < o)%nat -> b !! x = a !! x.
Proof.
  intros [_ H] Hx. rewrite <- (lookup_take_lt b o x), <- (lookup_take_lt a o x), H by lia.
  reflexivity.
Qed.

Lemma record64_below dir a b o pos e w :
  fits_record e -> same_below w a b -> (o + Z.to_nat (total_size64 e) <= w)%nat ->
  record64 dir a o pos e -> record64 dir b o pos e.
Proof.
  intros Hf Hs Hw [R1 R2 R3 R4 R5]. pose proof (size_bounds e Hf) as Hb.
  split; unfold int_at in *.
  - rewrite (same_below_slice w a b) by (try exact Hs; lia). exact R1.
  - rewrite (same_below_slice w a b) by (try exact Hs; lia). exact R2.
  - rewrite (same_below_slice w a b) by (try exact Hs; lia). exact R3.
  - rewrite (same_below_lookup w a b) by (try exact Hs; lia). exact R4.
  - rewrite (same_below_slice w a b) by (try exact Hs; lia). exact R5.
Qed.

Lemma wp_put_bytes off b buf c (Q : bytes -> client -> Prop) :
  0 <= off -> off + Z.of_nat (length b) <= Z.of_nat (length buf) ->
  Q (write_at (Z.to_nat off) b buf) c -> wp (store off b buf) Q c.
Proof.
  intros H0 H HQ. unfold store. replace (_ <=? _) with true by (symmetry; apply Z.leb_le, H).
  exact HQ.
Qed.

Lemma same_below_write o off b buf :
  (off + length b <= length buf)%nat -> (o <= off)%nat ->
  same_below o buf (write_at off b buf).
Proof.
  intros H Ho. split; [apply length_write_at, H|].
  apply (slice_write_other off b buf 0 o H). lia.
Qed.

Lemma wp_put64 dir e w pos buf c (Q : bytes -> client -> Prop) :
  fits_record e -> 0 <= w -> w + total_size64 e <= Z.of_nat (length buf) ->
  (forall buf', same_below (Z.to_nat w) buf buf' -> record64 dir buf' (Z.to_nat w) pos e ->
     Q buf' c) ->
  wp (put_dirent64 dir e w pos buf) Q c.
Proof.
  intros Hf Hw Hfit HQ. pose proof (size_bounds e Hf) as Hb.
  unfold put_dirent64. rewrite c_str_id by apply Hf.
  set (o := Z.to_nat w) in *. set (nm := Files.name_ e) in *.
  apply wp_bind, wp_put_bytes; [lia|blen|].
  apply wp_bind, wp_put_bytes; [lia|blen|].
  apply wp_bind, wp_put_bytes; [lia|blen|].
  apply wp_bind, wp_put_bytes; [lia|blen|].
  apply wp_put_bytes; [lia|blen|].
  replace (Z.to_nat (w + 16)) with (o + 16)%nat by lia.
  replace (Z.to_nat (w + 18)) with (o + 18)%nat by lia.
  replace (Z.to_nat (w + 19)) with (o + 19)%nat by lia.
  replace (Z.to_nat (w + 8)) with (o + 8)%nat by lia. fold o.
  apply HQ.
  - repeat (eapply same_below_trans; [apply Nat.le_refl| |apply same_below_write; [blen|lia]]).
    split; reflexivity.
  - split.
    + bread. unfold d_ino_of. apply u64_idem.
    + bread. reflexivity.
    + bread. apply Z.mod_small. lia.
    + rewrite lookup_write_at by blen. rewrite decide_False by (rewrite length_le_bytes; lia).
      rewrite lookup_write_at by blen. rewrite decide_False by lia.
      rewrite lookup_write_at by blen. rewrite decide_True by (cbn; lia).
      rewrite Nat.sub_diag. reflexivity.
    + rewrite slice_write_other by (try (right; rewrite length_le_bytes; lia); blen).
      fold nm. replace (S (length nm)) with (length (nm ++ [0])) by (rewrite length_app; cbn; lia).
      apply slice_write_same. blen.
Qed.

Lemma sizes_nonneg es : Forall fits_record es -> 0 <= sizes es.
Proof.
  induction 1 as [|e es He _ IH]; [reflexivity|]. pose proof (size_bounds e He).
  change (sizes (e :: es)) with (total_size64 e + sizes es). lia.
Qed.

Lemma sizes_zero es : Forall fits_record es -> sizes es = 0 <-> es = [].
Proof.
  intros Hf. split; [|intros ->; reflexivity]. destruct es as [|e es]; [reflexivity|].
  apply Forall_cons in Hf as [He Hf]. pose proof (size_bounds e He).
  pose proof (sizes_nonneg es Hf). change (sizes (e :: es)) with (total_size64 e + sizes es). lia.
Qed.

(** The loop writes the records of some entries from [pos] on, as many as fit. *)
Lemma wp_dents_loop fuel dir count pos written buf c :
  Forall fits_record (Files.entries dir) -> 0 <= pos <= Files.dir_size dir ->
  Files.dir_size dir < 2 ^ 32 -> Files.dir_size dir - pos < Z.of_nat fuel ->
  0 <= written <= count -> count < 2 ^ 31 -> count <= Z.of_nat (length buf) ->
  wp (dents_loop fuel total_size64 put_dirent64 dir count pos written buf)
    (fun r c' => c' = c /\ exists m buf',
       let es := take m (drop (Z.to_nat pos) (Files.entries dir)) in
       r = (pos + Z.of_nat m, written + sizes es, buf') /\
       length es = m /\ written + sizes es <= count /\
       same_below (Z.to_nat written) buf buf' /\
       records dir buf' (Z.to_nat written) pos es /\
       (forall e, Files.entries dir !! (Z.to_nat pos + m)%nat = Some e ->
          count - (written + sizes es) < total_size64 e)) c.
Proof.
  intros Hall. unfold Files.dir_size.
  revert pos written buf.
  induction fuel as [|fuel IH]; intros pos written buf Hpos Hdir Hfuel Hw Hcount Hbuf; [lia|].
  cbn [dents_loop]. unfold Files.dir_size at 1.
  destruct (Z.ltb_spec pos (Z.of_nat (length (Files.entries dir)))) as [Hlt|Hge].
  2:{ apply wp_ret. split; [reflexivity|]. exists 0%nat, buf. cbn. rewrite !Z.add_0_r.
      split; [reflexivity|]. split; [reflexivity|]. split; [lia|].
      split; [split; reflexivity|]. split; [exact I|]. intros e He.
      apply lookup_lt_Some in He. lia. }
  destruct (lookup_lt_is_Some_2 (Files.entries dir) (Z.to_nat pos)) as [e He]; [lia|].
  assert (fits_record e) as Hfe by (rewrite Forall_lookup in Hall; exact (Hall _ _ He)).
  pose proof (size_bounds e Hfe) as Hb.
  apply wp_bind. unfold wp at 1, Files.getdent.
  assert (u32 pos = pos) as -> by (apply Z.mod_small; lia). rewrite He. cbn [ret].
  assert (u32 (count - written) = count - written) as -> by (apply Z.mod_small; lia).
  destruct (Z.ltb_spec (count - written) (total_size64 e)) as [Hno|Hfit].
  { apply wp_ret. split; [reflexivity|]. exists 0%nat, buf. cbn. rewrite !Z.add_0_r.
    split; [reflexivity|]. split; [reflexivity|]. split; [lia|].
    split; [split; reflexivity|]. split; [exact I|].
    rewrite Nat.add_0_r. intros e' He'. rewrite He in He'. injection He' as <-. lia. }
  apply wp_bind, wp_put64; [exact Hfe|lia|lia|]. intros buf1 Hsame Hrec.
  assert (u32 (written + total_size64 e) = written + total_size64 e) as ->
    by (apply Z.mod_small; lia).
  pose proof (proj1 Hsame) as Hlen1.
  eapply wp_mono; [apply IH; lia|]. cbn beta.
  intros r c' (-> & m & buf' & -> & Hm & Hle & Hsame' & Hrecs & Hnext).
  split; [reflexivity|]. exists (S m), buf'.
  assert (drop (Z.to_nat pos) (Files.entries dir)
          = e :: drop (Z.to_nat (pos + 1)) (Files.entries dir)) as Ed.
  { replace (Z.to_nat (pos + 1)) with (S (Z.to_nat pos)) by lia. apply drop_S, He. }
  rewrite Ed. cbn [take sizes foldr length].
  set (es := take m _) in *. change (foldr (fun e n => total_size64 e + n) 0 es) with (sizes es).
  assert (Z.to_nat (written + total_size64 e) = Z.to_nat written + Z.to_nat (total_size64 e))%nat
    as Eo by lia.
  split; [do 2 f_equal; lia|]. split; [lia|]. split; [lia|]. split; [|split].
  - eapply same_below_trans; [|exact Hsame|exact Hsame']. lia.
  - cbn [records]. rewrite <- Eo. split; [|exact Hrecs].
    eapply record64_below; [exact Hfe|exact Hsame'| |exact Hrec]. lia.
  - intros e' He'. rewrite Z.add_assoc. apply Hnext. rewrite <- He'. f_equal. lia.
Qed.

End DentsSpec.

