(* ===== verification/ClientSample.v ===== *)
(** * A concrete client and server

    One server thread whose root directory (inode 0) has a directory [d], and a client
    connected to it; they run the client model and show that the hypotheses of the
    client's theorems can hold. *)

From Stdlib Require Import ZArith Lia.
From stdpp Require Import base numbers list gmap strings.
From S2P Require Import Prelude JumpHash Types XXHash Stores Wire Server Handlers HandlerSpec.
From S2P Require Import Sample LruCache DentryCache OpenFileMap RpcClient MetaClient Hooks.
From S2P Require Import ClientSpec RpcSpec PathSpec Deliver HookSpec.
Open Scope Z_scope.

Module ClientSample.
Export Sample.

Definition region_d : ServerRegion := set_kv_num 1 region0.

Definition stat_dir : metafs_stat_t := stat_of_mode 7 16877.

(** The thread, with one entry. *)
Definition w_d : world :=
  {| ctx := {| thread_id := 0; global_id := 0; alloc_inode := 3;
               metadb := MapDb.mk {[(0, name "d"%string) := dir_d]} {[dir_d := stat_dir]} 100000;
               log_db := SortedLog.empty; region_map := {[0 := Some region_d]};
               pinode_table := ∅ |};
     glob := glob0; outbox := [] |}.

Lemma wf_w_d : afs_wf (2 ^ 40) (abs w_d).
Proof.
  assert (forall k i, a_dents (abs w_d) !! k = Some i -> k = (0, name "d"%string) /\ i = dir_d)
    as Hd.
  { intros k i. unfold w_d. cbn. rewrite lookup_singleton_Some. naive_solver. }
  assert (forall i st, a_stats (abs w_d) !! i = Some st -> i = dir_d) as Hs.
  { intros i st. unfold w_d. cbn. rewrite lookup_singleton_Some. naive_solver. }
  split.
  - unfold w_d. cbn. lia.
  - intros k i [_ ->]%Hd. vm_compute. eauto.
  - intros k k' i [-> _]%Hd [-> _]%Hd. reflexivity.
  - intros i st ->%Hs. vm_compute. intros [H1 H2]. contradiction.
  - intros k i [-> _]%Hd. vm_compute. discriminate.
Qed.

Lemma holds_w_d k : (k <= 1000)%nat -> holds 0 (2 ^ 40) k w_d region_d.
Proof.
  intros Hk. split.
  - reflexivity.
  - vm_compute. reflexivity.
  - split; vm_compute; reflexivity.
  - exact wf_w_d.
  - intros p f i. unfold w_d. cbn. rewrite lookup_singleton_Some. intros [[= <- <-] <-]. split.
    + exists (text "d"%string). split; [reflexivity|]. repeat constructor. discriminate.
    + vm_compute. split; [discriminate|reflexivity].
  - change (kv_num region_d) with 1. unfold region_split_threshold. lia.
  - change (a_next (abs w_d)) with 3. lia.
  - change (2 * k <= N.to_nat 100000)%nat. lia.
Qed.

(** The platform: nothing is random, and every hash of a path is 0. *)
Definition env0 (n : nat) : junk * Z * stale := (j0, 9, old0).

#[export] Instance platform0 : Platform := server_platform 5 env0 (fun _ => 0) (fun _ => 0).

#[export] Instance service0 : Service platform0 :=
  thread_service 5 env0 (fun _ => 0) (fun _ => 0) 0 0 (2 ^ 40).

Definition all_hashes : ClientRegion :=
  {| c_region_id := 0; c_start_key := mk_RegionKey 0 0; c_end_key := mk_RegionKey 0 1023 |}.

Definition net0 : site_net := {| calls := 0; sites := {[0 := w_d]} |}.

Definition client0 : client :=
  {| c_id := 0; dentry_cache := Dentry.new 100; total_servers := 1;
     regions := [(all_hashes, 0)]; req_buf := repeat 0 (Z.to_nat 3768);
     ofm_ := Files.new_OpenFileMap; net := net0 : @Net platform0; rand_count := 0;
     reentrance_flag := false |}.

Lemma find_all h : 0 <= h < 1024 -> find_region_id (mk_RegionKey 0 h) [(all_hashes, 0)] = 0.
Proof.
  intros Hh. cbn [find_region_id mk_RegionKey key_hi]. rewrite (u64_small h) by (unfold is_u64; lia).
  replace (_ && _) with true; [reflexivity|]. symmetry. apply andb_true_iff.
  rewrite !Z.leb_le. exact (conj (proj1 Hh) (proj1 (Z.lt_succ_r _ 1023) (proj2 Hh))).
Qed.

Lemma session0 c p :
  regions c = [(all_hashes, 0)] -> total_servers c = 1 -> server_session p c = Done (0, c).
Proof.
  intros Hr Ht. unfold server_session, bind, gets. rewrite Hr, (find_all _ (pinode_hash_range p)).
  unfold p_assert. cbn [negb Z.eqb ret]. rewrite Ht. reflexivity.
Qed.

(** Any client with this routing and an all-zero buffer. *)
Lemma connected0 k c :
  regions c = [(all_hashes, 0)] -> total_servers c = 1 ->
  req_buf c = repeat 0 (Z.to_nat 3768) -> net c = net0 -> (k <= 1000)%nat -> connected k c.
Proof.
  intros Hr Ht Hb Hn Hk. split.
  - rewrite Hb, repeat_length. reflexivity.
  - intros p. exists 0. split; [apply session0; assumption|lia].
  - intros p sid [Hs _]. rewrite (session0 c p Hr Ht) in Hs. injection Hs as <-.
    rewrite Hb, Hn. replace (header _) with (0, 0) by (vm_compute; reflexivity).
    do 2 (split; [reflexivity|]). exists w_d, region_d. repeat (split; [reflexivity|]). reflexivity.
  - rewrite Hn. exists w_d, region_d. split; [reflexivity|]. apply holds_w_d, Hk.
Qed.

(** The same client with [d] in its cache. *)
Definition cache_d : Dentry.DentryCache :=
  match Dentry.Put 0 (text "d"%string) {| Dentry.inode := dir_d |} (Dentry.new 100) with
  | Done (_, s) => s
  | Fault _ => Dentry.new 100
  end.

Definition client_d : client := set_dentry_cache cache_d client0.

Lemma cached_d : Dentry.cached cache_d 0 (text "d"%string) = Some {| Dentry.inode := dir_d |}.
Proof. vm_compute. reflexivity. Qed.

Lemma cache_ok_d : cache_ok client_d.
Proof.
  assert (wp (Dentry.Put 0 (text "d"%string) {| Dentry.inode := dir_d |})
    (fun _ s => Lru.Inv (Dentry.cache_ s) /\
       forall d f v, is_u64 d -> Dentry.cached s d f = Some v ->
         d = 0 /\ f = text "d"%string /\ v = {| Dentry.inode := dir_d |}) (Dentry.new 100)) as Hwp.
  { apply Dentry.wp_Put; [apply Lru.Inv_new; lia|unfold is_u64; lia|].
    intros s Hi Hs. split; [exact Hi|]. intros d f v Hd Hv.
    destruct (Hs d f v Hd Hv) as [H|H]; [exact H|discriminate]. }
  destruct (proj1 (wp_Done _ _ _) Hwp) as (r & s & Hrun & Hi & Hs).
  assert (cache_d = s) as E by (unfold cache_d; rewrite Hrun; reflexivity).
  split; cbn [dentry_cache client_d set_dentry_cache]; rewrite E; [exact Hi|].
  intros d f v Hd Hv. destruct (Hs d f v Hd Hv) as (-> & -> & ->). vm_compute. reflexivity.
Qed.

End ClientSample.
