(* ===== verification/ClientTheorems.v ===== *)
(** * Theorems about the client

    Path resolution, directory scans, [stat] and file creation through the hooks,
    proved against the interface [Service] and instantiated with a server thread. *)

From Stdlib Require Import ZArith Lia.
From stdpp Require Import base numbers list gmap strings.
From S2P Require Import Prelude JumpHash Types XXHash Stores Wire Server Handlers HandlerSpec.
From S2P Require Import Sample LruCache DentryCache OpenFileMap RpcClient MetaClient Hooks.
From S2P Require Import ClientSpec RpcSpec PathSpec Deliver HookSpec DentsSpec ClientSample.
Open Scope Z_scope.

Section ClientTheorems.
Context {P : Platform} {SV : Service P}.

(** ** Against the service *)


(** The path [/] resolves to [fs_root_inode], the inode number 2^63, whatever the servers hold,
    while the first component of any other path is looked up in directory 0: an entry of one of
    the two directories is not an entry of the other. *)
Lemma root_resolves_elsewhere v p0 f0 f g :
  f <> [] -> no_slash f -> g <> [] -> no_slash g ->
  resolves v [slash] p0 f0 = (ROk, fs_root_inode, []) /\ fs_root_inode <> 0 /\
  resolves v (slash :: f) p0 f0 = (ROk, 0, f) /\
  resolves v (slash :: f ++ slash :: g) p0 f0
  = match entry v 0 f with Some i => (ROk, i, g) | None => (RCorruption, p0, f0) end.
Proof.
  intros Hf Sf Hg Sg.
  assert (forall s, s <> [] -> emit s = [s]) as Hemit by (intros [|] ?; [congruence|reflexivity]).
  split; [reflexivity|]. split; [discriminate|]. split.
  - rewrite (resolves_snoc _ _ _ _ [] f); [reflexivity|].
    rewrite components_slash, components_last, Hemit by assumption. reflexivity.
  - rewrite (resolves_snoc _ _ _ _ [f] g).
    + cbn [walk]. destruct (entry v 0 f); reflexivity.
    + rewrite components_slash, components_name, (Hemit f), components_last, Hemit by assumption. reflexivity.
Qed.

(** C14: For a connected client (every directory routes to a session whose server accepts the
    region id and hash left in the request buffer; true of the first client of a server, not of a
    second one, [Deploy.second_client_faults]), reading a directory that has entries terminates
    and returns all of them: the loop over the batches of the servers adds exactly the entries of
    the directory, each once, under its name, with the type its inode number tells. *)
Theorem readdir_complete fuel k c q dir :
  is_u64 q -> (0 < length (listing (net c) q) <= fuel)%nat ->
  connected (k + length (listing (net c) q)) c ->
  exists c' es,
    RPC_Readdir fuel q dir c = Done (kSuccess, add_all es dir, c') /\
    NoDup es /\ (forall f i, (f, i) ∈ es <-> a_dents (view (net c)) !! (q, f) = Some i) /\
    view (net c') = view (net c) /\ connected k c'.
Proof.
  intros Hq Hl Hc. pose proof (wp_RPC_Readdir fuel k c q dir Hq Hl Hc) as Hwp.
  apply wp_Done in Hwp as (r & c' & Hrun & -> & Hv & Hs).
  exists c', (listing (net c) q). split; [exact Hrun|].
  split; [eapply listing_NoDup, (con_ready _ _ Hc)|].
  split; [intros f i; eapply listing_spec, (con_ready _ _ Hc)|]. split; [exact Hv|apply Hs].
Qed.

(** C32: For a connected client (every directory routes to a session whose server accepts the
    region id and hash left in the request buffer; true of the first client of a server, not of a
    second one, [Deploy.second_client_faults]) with a consistent dentry cache, [stat] on a path
    below the mount point whose names fit the messages answers what the file system holds: the
    inode and stat record of the entry the path leads to, [-ENOENT] when the last component is
    missing, and a failed hook when a directory on the way is. *)
Theorem hook_stat_correct mountdir rfuel m rest c j st res :
  good_path rest -> connected (S m + S (length rest)) c -> cache_ok c ->
  exists c',
    hook_stat mountdir rfuel j (mountdir ++ slash :: rest) st res c
    = Done (stat_result (view (net c)) rest j st res, c') /\
    view (net c') = view (net c) /\ cache_ok c' /\ connected m c'.
Proof.
  intros Hg Hc Hok.
  pose proof (wp_hook_stat mountdir rfuel m rest c j st res
    (fun r c' => r = stat_result (view (net c)) rest j st res /\ moved m c c') Hg Hc Hok
    (fun c' Hm => conj eq_refl Hm)) as Hwp.
  apply wp_Done in Hwp as (r & c' & Hrun & -> & Hm).
  exists c'. split; [exact Hrun|]. split; [apply Hm|]. split; apply Hm.
Qed.

(** A creation and a [stat] of the same path, one after the other. *)
Lemma create_stat_runs mountdir rfuel m rest c j flags md st res p f :
  head mountdir = Some slash -> good_path rest ->
  Forall short (removelast (components rest)) ->
  connected (S (S m + S (length rest)) + S (length rest)) c -> cache_ok c ->
  Files.Inv (ofm_ c) -> Z.of_nat (size (Files.files_ (ofm_ c))) < Files.span ->
  Files.has_flag flags Files.O_CREAT = true -> Files.has_flag flags O_DIRECTORY = false ->
  S_ISDIR md = false ->
  resolves (view (net c)) rest (j_inode j) [] = (ROk, p, f) ->
  entry (view (net c)) p f = None ->
  (forall sid, routes c p sid -> accepts (net c) sid (fst (header (req_buf c))) (slot c)) ->
  exists fd c1 c2 st',
    hook_openat mountdir rfuel j AT_FDCWD (mountdir ++ slash :: rest) flags md res c
      = Done ((0, fd), c1) /\
    START_FD <= fd < Files.int_max /\
    opened_as (ofm_ c) (ofm_ c1) fd (a_next (view (net c))) p f /\
    hook_stat mountdir rfuel j (mountdir ++ slash :: rest) st res c1 = Done ((0, 0, st'), c2) /\
    st_ino st' = a_next (view (net c)) /\ st_mode st' = u32 (Z.lor md S_IFREG).
Proof.
  intros Hmnt Hg Hshort Hc Hok Hinv Hsz Hcreat Hnodir Hreg E He Hacc. set (i := a_next (view (net c))).
  assert (wp (hook_openat mountdir rfuel j AT_FDCWD (mountdir ++ slash :: rest) flags md res)
    (fun r c1 => exists fd, r = (0, fd) /\ START_FD <= fd < Files.int_max /\
       created p f (view (net c)) (view (net c1)) i (Z.lor md S_IFREG) /\
       connected (S m + S (length rest)) c1 /\ cache_ok c1 /\ opened_as (ofm_ c) (ofm_ c1) fd i p f) c) as Hwp.
  { eapply (wp_hook_create mountdir rfuel (S m + S (length rest))); eauto 15. }
  apply wp_Done in Hwp as (r & c1 & Hopen & fd & -> & Hfd & (st' & Hmode & Hv) & Hc1 & Hok1 & Hfile).
  pose proof (wp_hook_stat mountdir rfuel m rest c1 j st res
    (fun r _ => r = stat_result (view (net c1)) rest j st res) Hg Hc1 Hok1 (fun _ _ => eq_refl)) as Hwp.
  apply wp_Done in Hwp as (r & c2 & Hstat & ->). exists fd, c1, c2, (fill_stat i st' st).
  split; [exact Hopen|]. split; [exact Hfd|]. split; [exact Hfile|]. split; [|split; [reflexivity|exact Hmode]].
  rewrite Hstat. do 2 f_equal. unfold stat_result.
  rewrite (resolves_extends (view (net c)) (view (net c1)) rest _ _ p f);
    [|rewrite Hv; apply insert_subseteq; exact He|exact E].
  unfold found, entry. rewrite Hv. cbn. rewrite lookup_insert_eq, lookup_insert_eq. reflexivity.
Qed.


End ClientTheorems.

(** ** Instances *)

Section Witnesses.
Import ClientSample.

Definition dir0 : Files.OpenFile := Files.new_OpenFile [] 0 0 [] 0 Files.directory.

Definition kstat0 : kstat :=
  {| st_dev := 1; st_ino := 1; st_mode := 1; st_nlink := 1; st_uid := 1; st_gid := 1; st_rdev := 1;
     st_size := 1; st_blksize := 1; st_blocks := 1; st_atim := 1; st_mtim := 1; st_ctim := 1 |}.

Lemma names_ok l : forallb (fun f => forallb (fun b => negb (b =? 0)) f && (length f <? 50)%nat) l = true ->
  Forall good_name l.
Proof.
  rewrite forallb_forall, Forall_forall. intros H f Hf.
  specialize (H f (proj1 (list_elem_of_In _ _) Hf)). apply andb_prop in H as [H1 H2]. split.
  - apply Forall_forall. intros b Hb Hz. rewrite forallb_forall in H1.
    specialize (H1 b (proj1 (list_elem_of_In _ _) Hb)). subst b. discriminate.
  - apply Nat.ltb_lt in H2. unfold METAFS_MAX_FNAME_LEN. lia.
Qed.

Lemma connected_client0 k : (k <= 1000)%nat -> connected k client0.
Proof. apply connected0; reflexivity. Qed.

Lemma cache_ok_client0 : cache_ok client0.
Proof. apply (cache_ok_new _ 100); [reflexivity|lia]. Qed.


Lemma readdir_complete_witness :
  exists c' es,
    RPC_Readdir 4 0 dir0 client0
    = Done (kSuccess, add_all es dir0, c') /\
    NoDup es /\ (forall f i, (f, i) ∈ es <-> a_dents (view (net client0)) !! (0, f) = Some i) /\
    view (net c') = view (net client0) /\ connected 5 c'.
Proof.
  assert (length (listing (net client0) 0) = 1%nat) as E by (vm_compute; reflexivity).
  apply readdir_complete; rewrite ?E; [unfold is_u64; lia|lia|]. apply connected_client0. cbn. lia.
Defined.

Lemma hook_stat_correct_witness :
  exists c',
    hook_stat (text "/mnt"%string) 3 j0 (text "/mnt"%string ++ slash :: text "d"%string) kstat0 0 client0
    = Done (stat_result (view (net client0)) (text "d"%string) j0 kstat0 0, c') /\
    view (net c') = view (net client0) /\ cache_ok c' /\ connected 5 c'.
Proof.
  apply hook_stat_correct; [apply names_ok; reflexivity| |apply cache_ok_client0].
  apply connected_client0. cbn. lia.
Defined.


End Witnesses.
