(* ===== verification/RouteTheorems.v ===== *)
(** * Theorems about routing and listings

    The region map a client reads routes every hash of a region to its server, and
    [hook_getdents64] writes the records of a directory. *)

From Stdlib Require Import ZArith Lia Sorting.Sorted.
From stdpp Require Import base numbers list gmap strings.
From S2P Require Import Prelude JumpHash Types XXHash Stores Wire Server Handlers HandlerSpec.
From S2P Require Import Sample LruCache DentryCache OpenFileMap RpcClient MetaClient Hooks.
From S2P Require Import ClientSpec RpcSpec PathSpec Deliver HookSpec DentsSpec ClientSample.
Open Scope Z_scope.

(** ** The region map of a client *)

Definition covers (r : ClientRegion) (h : Z) : Prop :=
  key_hi (c_start_key r) <= h <= key_hi (c_end_key r).

Definition proper (r : ClientRegion) : Prop :=
  key_hi (c_start_key r) <= key_hi (c_end_key r).

(** In order and disjoint. *)
Definition ordered (m : region_map_t) : Prop :=
  StronglySorted (fun a b => key_hi (c_end_key (fst a)) < key_hi (c_start_key (fst b))) m.

Lemma region_insert_elem x m y : y ∈ region_insert x m -> y = x \/ y ∈ m.
Proof.
  induction m as [|z m IH]; cbn.
  - intros Hy. apply list_elem_of_singleton in Hy. auto.
  - destruct (region_cmp (fst z) (fst x)); [|destruct (region_cmp (fst x) (fst z))]; try set_solver.
Qed.

Lemma region_insert_ordered x m :
  proper (fst x) -> Forall (fun y => proper (fst y)) m -> ordered m -> ordered (region_insert x m).
Proof.
  unfold proper. intros Hx Hm Ho. induction Ho as [|z m Ho IH Hz]; cbn.
  { repeat constructor. }
  apply Forall_cons in Hm as [Hpz Hm]. unfold region_cmp.
  destruct (Z.ltb_spec (key_hi (c_end_key (fst z))) (key_hi (c_start_key (fst x)))).
  - constructor; [apply IH, Hm|]. apply Forall_forall. intros y Hy.
    apply region_insert_elem in Hy as [->|Hy]; [assumption|].
    rewrite Forall_forall in Hz. apply Hz, Hy.
  - destruct (Z.ltb_spec (key_hi (c_end_key (fst x))) (key_hi (c_start_key (fst z)))).
    + constructor; [constructor; assumption|]. constructor; [assumption|].
      apply Forall_forall. intros y Hy. rewrite Forall_forall in Hz, Hm.
      specialize (Hz y Hy). lia.
    + constructor; assumption.
Qed.

(** An entry that overlaps none is not dropped. *)
Lemma region_insert_in x m :
  (forall y h, y ∈ m -> covers (fst y) h -> ~ covers (fst x) h) -> proper (fst x) ->
  Forall (fun y => proper (fst y)) m -> forall y, y = x \/ y ∈ m -> y ∈ region_insert x m.
Proof.
  unfold covers, proper. intros Hdis Hx Hm. induction m as [|z m IH]; cbn; intros y Hy; [set_solver|].
  apply Forall_cons in Hm as [Hpz Hm]. unfold region_cmp.
  assert (forall y, y = x \/ y ∈ m -> y ∈ region_insert x m) as IH'.
  { apply IH; [|exact Hm]. intros y' h Hy'. apply Hdis. right. exact Hy'. }
  destruct (Z.ltb_spec (key_hi (c_end_key (fst z))) (key_hi (c_start_key (fst x)))).
  - destruct Hy as [->|Hy]; [right; apply IH'; auto|].
    apply elem_of_cons in Hy as [->|Hy]; [left|right; apply IH'; auto].
  - destruct (Z.ltb_spec (key_hi (c_end_key (fst x))) (key_hi (c_start_key (fst z)))); [set_solver|].
    exfalso. set (h := Z.max (key_hi (c_start_key (fst x))) (key_hi (c_start_key (fst z)))).
    apply (Hdis z h); [left|unfold h; lia|unfold h; lia].
Qed.

Definition as_entry (e : ClientRegion) : ClientRegion * Z := (e, c_region_id e).

Definition load (es : list ClientRegion) (m : region_map_t) : region_map_t :=
  fold_left (fun m e => region_insert (e, c_region_id e) m) es m.

Lemma load_spec es m :
  Forall proper es -> Forall (fun y => proper (fst y)) m -> ordered m ->
  ordered (load es m) /\ Forall (fun y => proper (fst y)) (load es m) /\
  (forall y, y ∈ load es m -> y ∈ map as_entry es \/ y ∈ m).
Proof.
  intros Hes. revert m. induction Hes as [|e es He Hes IH]; intros m Hm Ho; cbn.
  { split; [exact Ho|]. auto. }
  set (m1 := region_insert (as_entry e) m).
  assert (Forall (fun y => proper (fst y)) m1) as Hm1.
  { apply Forall_forall. intros y Hy. apply region_insert_elem in Hy as [->|Hy]; [exact He|].
    rewrite Forall_forall in Hm. apply Hm, Hy. }
  destruct (IH m1 Hm1 (region_insert_ordered (as_entry e) m He Hm Ho)) as (H1 & H2 & H3).
  split; [exact H1|]. split; [exact H2|]. intros y Hy. apply H3 in Hy as [Hy|Hy]; [set_solver|].
  apply region_insert_elem in Hy as [->|Hy]; set_solver.
Qed.

Lemma load_all es m :
  Forall proper es -> Forall (fun y => proper (fst y)) m ->
  (forall a b h, a ∈ es -> b ∈ es -> a <> b -> covers a h -> ~ covers b h) -> NoDup es ->
  (forall a y h, a ∈ es -> y ∈ m -> covers a h -> ~ covers (fst y) h) ->
  forall y, y ∈ map as_entry es \/ y ∈ m -> y ∈ load es m.
Proof.
  intros Hes. revert m. induction Hes as [|e es He Hes IH]; intros m Hm Hd Hn Hdm y Hy; cbn.
  { destruct Hy as [Hy|Hy]; [inversion Hy|exact Hy]. }
  apply NoDup_cons in Hn as [Hne Hn].
  assert (forall z, z = as_entry e \/ z ∈ m -> z ∈ region_insert (as_entry e) m) as Hins.
  { apply region_insert_in; [|exact He|exact Hm]. intros z h Hz Hc Hx.
    apply (Hdm e z h); [left|exact Hz|exact Hx|exact Hc]. }
  apply IH.
  - apply Forall_forall. intros z Hz. apply region_insert_elem in Hz as [->|Hz]; [exact He|].
    rewrite Forall_forall in Hm. apply Hm, Hz.
  - intros a b h Ha Hb. apply Hd; right; assumption.
  - exact Hn.
  - intros a z h Ha Hz Hc. apply region_insert_elem in Hz as [->|Hz].
    + apply (Hd a e h); [right; exact Ha|left| |exact Hc]. intros ->. contradiction.
    + apply (Hdm a z h); [right; exact Ha|exact Hz|exact Hc].
  - cbn in Hy. destruct Hy as [Hy|Hy]; [|right; apply Hins; auto].
    apply elem_of_cons in Hy as [->|Hy]; [right; apply Hins; auto|left; exact Hy].
Qed.

Lemma find_region_id_ordered m k r rid :
  ordered m -> (r, rid) ∈ m -> Forall (fun y => proper (fst y)) m -> covers r (key_hi k) ->
  find_region_id k m = rid.
Proof.
  unfold covers, proper. intros Ho Hin Hm Hc. induction Ho as [|[z zid] m Ho IH Hz]; [inversion Hin|].
  apply Forall_cons in Hm as [Hpz Hm]. cbn [find_region_id fst] in *.
  apply elem_of_cons in Hin as [[= -> ->]|Hin].
  - replace (_ && _) with true; [reflexivity|]. symmetry. apply andb_true_iff. rewrite !Z.leb_le. exact Hc.
  - rewrite Forall_forall in Hz. specialize (Hz _ Hin). cbn in Hz.
    replace (_ && _) with false; [apply IH; assumption|]. symmetry. apply andb_false_iff.
    rewrite !Z.leb_gt. lia.
Qed.

Lemma find_region_id_none m k :
  (forall y, y ∈ m -> ~ covers (fst y) (key_hi k)) -> find_region_id k m = -1.
Proof.
  unfold covers. induction m as [|[z zid] m IH]; intros H; cbn [find_region_id]; [reflexivity|].
  replace (_ && _) with false.
  - apply IH. intros y Hy. apply H. right. exact Hy.
  - symmetry. specialize (H (z, zid) ltac:(left)). cbn in H. apply andb_false_iff.
    rewrite !Z.leb_gt. lia.
Qed.

Section Any.
Context {P : Platform}.

(** C34: After a successful [RPC_ReadRegionmap] the client routes by the reply: when
    the regions of the reply are disjoint intervals, every key in one of them finds
    that region's id, a key in none of them finds [-1], and the entries of the map are
    in order. *)
Theorem regionmap_routes c x n' :
  let sid := Z.rem (rand (rand_count c)) (total_servers c) in
  0 <= sid < total_servers c -> Z.of_nat (length (req_buf c)) = wire_req_size ->
  rpc sid (ReadRegionmapReq (i32 (u32 (c_id c)))) (net c) = Done (RRegionmap x, n') ->
  rm_resp_type x = kSuccess -> rm_num_entries x = Z.of_nat (length (rm_entries x)) ->
  Forall proper (rm_entries x) -> NoDup (rm_entries x) ->
  (forall a b h, a ∈ rm_entries x -> b ∈ rm_entries x -> a <> b -> covers a h -> ~ covers b h) ->
  exists c',
    RPC_ReadRegionmap c = Done (kSuccess, c') /\ ordered (regions c') /\
    (forall e k, e ∈ rm_entries x -> covers e (key_hi k) ->
       find_region_id k (regions c') = c_region_id e) /\
    (forall k, (forall e, e ∈ rm_entries x -> ~ covers e (key_hi k)) ->
       find_region_id k (regions c') = -1).
Proof.
  intros sid Hsid Hbuf Hrpc Hcode Hnum Hp Hn Hd.
  destruct (load_spec (rm_entries x) [] Hp) as (H1 & H2 & H3); [constructor|constructor|].
  assert (wp RPC_ReadRegionmap
    (fun r c' => r = kSuccess /\ regions c' = load (rm_entries x) []) c) as Hwp.
  { apply wp_bind, wp_bind, wp_gets, wp_bind, wp_modify, wp_ret.
    apply wp_bind, wp_gets, wp_bind, wp_gets.
    apply wp_bind, wp_request; [unfold wire_req_size; lia|].
    apply wp_bind, wp_enqueue; [exact Hsid|]. change (Z.to_nat 4) with 4%nat.
    rewrite int_at_take by lia.
    cbn [set_rand_count set_req_buf c_id net req_buf total_servers].
    rewrite int_at_same by (unfold wire_req_size in Hbuf; lia).
    unfold wp at 1. change (256 ^ Z.of_nat 4) with (2 ^ 32). fold (u32 (c_id c)) sid.
    rewrite Hrpc, decide_True by exact Hcode. rewrite Hnum, Z.ltb_irrefl, Nat2Z.id, take_ge by lia.
    apply wp_bind, wp_modify, wp_ret. split; reflexivity. }
  apply wp_Done in Hwp as (r & c' & Hrun & -> & Hreg). exists c'. rewrite Hreg.
  split; [exact Hrun|].
  split; [exact H1|]. split.
  - intros e k He Hc. eapply (find_region_id_ordered _ k e); [exact H1| |exact H2|exact Hc].
    apply (load_all (rm_entries x) []); auto; [intros; set_solver|]. left.
    apply elem_of_map_intro with (f := as_entry), He.
  - intros k Hk. apply find_region_id_none. intros y Hy. apply H3 in Hy as [Hy|Hy]; [|inversion Hy].
    apply list_elem_of_In, in_map_iff in Hy as (e & <- & He). apply Hk.
    apply list_elem_of_In, He.
Qed.

Lemma below_first h m :
  0 <= h < 1024 -> Forall (fun y => 1024 <= key_hi (c_start_key (fst y))) m ->
  find_region_id (mk_RegionKey 0 h) m = -1.
Proof.
  intros Hh Hr. apply find_region_id_none. intros y Hy [Hc _].
  rewrite Forall_forall in Hr. specialize (Hr y Hy). cbn [key_hi mk_RegionKey] in Hc.
  rewrite u64_small in Hc by (unfold is_u64; lia). lia.
Qed.

(** A client that has read the region map of a server process without region 0 cannot
    send a single request: every hash is below 1024. *)
Lemma unroutable c p :
  Forall (fun y => 1024 <= key_hi (c_start_key (fst y))) (regions c) ->
  server_session p c = Fault AssertFailed.
Proof.
  intros Hr. unfold server_session, bind, gets.
  rewrite (below_first (pinode_hash p) _ (pinode_hash_range p) Hr). reflexivity.
Qed.

(** C35: [getdents64] on an open directory fills the user's buffer with well-formed
    records of the next entries, as many as fit in [count] bytes, moves the position
    past them and returns the number of bytes written; at the end it returns 0, and
    when not even one record fits it fails with [-EINVAL]. *)
Theorem getdents64_records fd count buf res c ptr dir :
  START_FD <= fd -> Files.files_ (ofm_ c) !! fd = Some ptr ->
  Files.heap (ofm_ c) !! ptr = Some dir -> Files.type_ dir = Files.directory ->
  Forall fits_record (Files.entries dir) -> 0 <= Files.pos_ dir ->
  Files.dir_size dir < 2 ^ 32 ->
  0 <= count < 2 ^ 31 -> count <= Z.of_nat (length buf) ->
  exists ret_ x buf' c' m,
    hook_getdents64 fd count buf res c = Done ((ret_, x, buf'), c') /\
    let es := take m (drop (Z.to_nat (Files.pos_ dir)) (Files.entries dir)) in
    length es = m /\ records dir buf' 0 (Files.pos_ dir) es /\ length buf' = length buf /\
    (if decide (Files.dir_size dir <= Files.pos_ dir)
     then ret_ = 0 /\ x = 0 /\ c' = c /\ m = 0%nat
     else if decide (m = 0%nat) then ret_ = 1 /\ x = - EINVAL /\ c' = c
     else ret_ = 0 /\ x = sizes es /\ 0 < x <= count /\
          Files.heap (ofm_ c') !! ptr
            = Some (Files.set_pos (Files.pos_ dir + Z.of_nat m) dir)) /\
    (forall e, m = 0%nat \/ ret_ = 0 ->
       Files.entries dir !! (Z.to_nat (Files.pos_ dir) + m)%nat = Some e ->
       count - sizes es < total_size64 e).
Proof.
  intros Hfd Hfile Hheap Hdir Hall Hpos Hsize Hcount Hbuf.
  unfold hook_getdents64, list_dents. replace (fd <? START_FD) with false by (symmetry; apply Z.ltb_ge, Hfd).
  unfold on_files at 1, zoom at 1, bind at 1, Files.exist, gets. rewrite Hfile.
  rewrite bool_decide_true by eauto. cbn [negb].
  assert (forall c, set_ofm (ofm_ c) c = c) as Hid by (intros []; reflexivity). rewrite Hid.
  unfold on_files at 1, zoom at 1, bind at 1, Files.get_dir, bind at 1, Files.get, gets. rewrite Hfile.
  unfold bind at 1, Files.deref. rewrite Hheap, Hdir.
  rewrite bool_decide_true by reflexivity. unfold ret at 1. rewrite Hid.
  unfold on_files at 1, zoom at 1, bind at 1. rewrite Hheap, Hid.
  destruct (Z.leb_spec (Files.dir_size dir) (Files.pos_ dir)) as [Hend|Hmore].
  { exists 0, 0, buf, c, 0%nat. split; [reflexivity|]. cbn zeta. rewrite decide_True by exact Hend.
    split; [reflexivity|]. split; [exact I|]. do 2 (split; [auto|]). intros e _ He. apply lookup_lt_Some in He.
    unfold Files.dir_size in Hend. lia. }
  pose proof (wp_dents_loop (S (length (Files.entries dir))) dir count (Files.pos_ dir) 0 buf c
    Hall ltac:(lia) Hsize ltac:(unfold Files.dir_size in *; lia) ltac:(lia) ltac:(lia) Hbuf) as Hwp.
  apply wp_Done in Hwp as (r & c1 & Hrun & -> & m & buf' & -> & Hm & Hle & Hsame & Hrec & Hnext).
  unfold bind at 1. rewrite Hrun. set (es := take m _) in *. rewrite ?Z.add_0_l in *.
  change (Z.to_nat 0) with 0%nat in Hrec.
  assert (Forall fits_record es) as Hf by apply Forall_take, Forall_drop, Hall.
  pose proof (sizes_nonneg es Hf) as Hnn.
  assert (sizes es = 0 <-> m = 0%nat) as Hz.
  { rewrite sizes_zero by exact Hf. rewrite <- Hm. symmetry. apply length_zero_iff_nil. }
  destruct (Z.eqb_spec (sizes es) 0) as [E0|E0].
  - exists 1, (- EINVAL), buf', c, m. split; [reflexivity|]. cbn zeta. fold es.
    split; [exact Hm|]. split; [exact Hrec|]. split; [apply Hsame|].
    rewrite decide_False by lia. rewrite decide_True by (apply Hz, E0). split; [auto|].
    intros e _. apply Hnext.
  - eexists 0, (sizes es), buf', _, m. split; [reflexivity|]. cbn zeta. fold es.
    split; [exact Hm|]. split; [exact Hrec|]. split; [apply Hsame|].
    rewrite decide_False by lia. rewrite decide_False by (rewrite <- Hz; exact E0).
    split; [|intros e _; apply Hnext].
    do 3 (split; [auto; lia|]). cbn. rewrite lookup_alter_eq, Hheap. reflexivity.
Qed.

End Any.

(** ** Instances *)

Section Witnesses.
Import ClientSample.

Definition lower : ClientRegion :=
  {| c_region_id := 0; c_start_key := mk_RegionKey 0 0; c_end_key := mk_RegionKey 0 511 |}.

Definition upper : ClientRegion :=
  {| c_region_id := 1; c_start_key := mk_RegionKey 0 512; c_end_key := mk_RegionKey 0 1023 |}.

Definition two_regions : ReadRegionmapResp :=
  {| rm_resp_type := kSuccess; rm_num_entries := 2; rm_entries := [upper; lower] |}.

(** A server that knows two regions, one per session. *)
#[local] Instance two_platform : Platform :=
  {| Net := unit; rpc := fun _ _ n => Done (RRegionmap two_regions, n); rand := fun _ => 5;
     std_hash := fun _ => 0 |}.

Definition client2 : client :=
  {| c_id := 0; dentry_cache := Dentry.new 100; total_servers := 2; regions := [];
     req_buf := repeat 0 (Z.to_nat 3768); ofm_ := Files.new_OpenFileMap; net := tt : @Net two_platform;
     rand_count := 0; reentrance_flag := false |}.

Lemma regionmap_routes_witness :
  exists c',
    RPC_ReadRegionmap client2 = Done (kSuccess, c') /\ ordered (regions c') /\
    (forall e k, e ∈ rm_entries two_regions -> covers e (key_hi k) ->
       find_region_id k (regions c') = c_region_id e) /\
    (forall k, (forall e, e ∈ rm_entries two_regions -> ~ covers e (key_hi k)) ->
       find_region_id k (regions c') = -1).
Proof.
  apply (regionmap_routes client2 two_regions tt).
  - vm_compute. split; [discriminate|reflexivity].
  - vm_compute. reflexivity.
  - reflexivity.
  - reflexivity.
  - reflexivity.
  - repeat constructor; vm_compute; discriminate.
  - apply (bool_decide_unpack _). vm_compute. exact I.
  - assert (forall r, r ∈ [upper; lower] -> r = upper \/ r = lower) as Hin by set_solver.
    assert (forall h, covers upper h -> ~ covers lower h) as Hd.
    { intros h [H1 _] [_ H4]. change (key_hi (c_start_key upper)) with 512 in H1.
      change (key_hi (c_end_key lower)) with 511 in H4. lia. }
    intros a b h [->| ->]%Hin [->| ->]%Hin Hne Ha Hb; try congruence; eapply Hd; eassumption.
Defined.

Definition dir_two : Files.OpenFile :=
  Files.set_entries
    [{| Files.name_ := text "a"%string; Files.dtype_ := Files.regular; Files.dinode_ := 7 |};
     {| Files.name_ := text "bcd"%string; Files.dtype_ := Files.directory; Files.dinode_ := dir_d |}]
    (Files.new_OpenFile [] 0 0 [] 0 Files.directory).

Definition client_dir : client :=
  set_ofm {| Files.heap := {[0%nat := dir_two]}; Files.brk := 1; Files.files_ := {[START_FD := 0%nat]};
             Files.fd_idx := START_FD + 1; Files.fd_validation_needed := false |} client2.

Lemma getdents64_records_witness :
  exists ret_ x buf' c' m,
    hook_getdents64 START_FD 30 (repeat 0 64) 0 client_dir = Done ((ret_, x, buf'), c') /\
    let es := take m (drop (Z.to_nat (Files.pos_ dir_two)) (Files.entries dir_two)) in
    length es = m /\ records dir_two buf' 0 (Files.pos_ dir_two) es /\ length buf' = length (repeat 0 64) /\
    (if decide (Files.dir_size dir_two <= Files.pos_ dir_two)
     then ret_ = 0 /\ x = 0 /\ c' = client_dir /\ m = 0%nat
     else if decide (m = 0%nat) then ret_ = 1 /\ x = - EINVAL /\ c' = client_dir
     else ret_ = 0 /\ x = sizes es /\ 0 < x <= 30 /\
          Files.heap (ofm_ c') !! 0%nat
            = Some (Files.set_pos (Files.pos_ dir_two + Z.of_nat m) dir_two)) /\
    (forall e, m = 0%nat \/ ret_ = 0 ->
       Files.entries dir_two !! (Z.to_nat (Files.pos_ dir_two) + m)%nat = Some e ->
       30 - sizes es < total_size64 e).
Proof.
  apply (getdents64_records START_FD 30 (repeat 0 64) 0 client_dir 0%nat dir_two).
  - lia.
  - reflexivity.
  - reflexivity.
  - reflexivity.
  - repeat constructor; cbn; try discriminate; unfold METAFS_MAX_FNAME_LEN; lia.
  - cbn. lia.
  - vm_compute. reflexivity.
  - lia.
  - cbn. lia.
Defined.

End Witnesses.
