(* ===== verification/Hazards.v ===== *)
(** * Hazards of the client

    Three interactions in which parts that work on their own go wrong together: a file
    name left in the request buffer becomes the hash of the next [mknod], a removed
    directory stays in the dentry cache, and a path that only shares a prefix with the
    mount point is captured.  Smaller observations follow. *)

From Stdlib Require Import ZArith Lia.
From stdpp Require Import base numbers list gmap strings.
From S2P Require Import Prelude JumpHash Types XXHash Stores Wire Server Handlers HandlerSpec.
From S2P Require Import Sample LruCache DentryCache OpenFileMap RpcClient MetaClient Hooks.
From S2P Require Import ClientSpec RpcSpec PathSpec Deliver HookSpec DentsSpec ClientSample.
From S2P Require Import RouteTheorems.
Open Scope Z_scope.

Section Paths.
Context {P : Platform}.

(** A path that has the mount point as a prefix of its first component but is not
    below it is captured: with mount point [/mnt], [open] of [/mntx] answers [-ENOENT]
    instead of going to the kernel, and [unlink] or [rmdir] of it aborts the program. *)
Theorem sibling_prefix_captured rfuel pre b x rest j flags md res c :
  head (pre ++ [b]) = Some slash -> b <> slash -> x <> slash ->
  hook_openat (pre ++ [b]) rfuel j AT_FDCWD ((pre ++ [b]) ++ x :: rest) flags md res c
    = Done ((0, - ENOENT), c) /\
  hook_unlinkat (pre ++ [b]) rfuel j AT_FDCWD ((pre ++ [b]) ++ x :: rest) flags res c
    = Fault AssertFailed.
Proof.
  intros Hh Hb Hx. set (mnt := pre ++ [b]) in *.
  assert (realpath_of mnt (mnt ++ x :: rest) c = Done (Some (b :: x :: rest), c)) as Hr.
  { unfold realpath_of, mt_dir_len. rewrite strncmp_prefix. cbn [negb orb].
    replace (_ =? _)%nat with false by
      (symmetry; apply Nat.eqb_neq; rewrite length_app; cbn; lia).
    rewrite drop_app_length. cbn [slashes]. replace (x =? slash) with false by
      (symmetry; apply Z.eqb_neq, Hx).
    unfold mnt at 1. rewrite length_app. cbn [length]. rewrite Nat.add_0_r, Nat.add_1_r.
    unfold ret. do 3 f_equal. unfold mnt. rewrite <- app_assoc. apply drop_app_length. }
  assert (head (mnt ++ x :: rest) = Some slash) as Hh'.
  { destruct mnt; [discriminate|exact Hh]. }
  assert (forall p0 f0 d, ResolvePath rfuel (j_inode j) (b :: x :: rest) p0 f0 d c
    = Done ((RInvalidArgument, p0, f0, d), c)) as Hres.
  { intros. unfold ResolvePath. cbn [length ResolvePath_rec].
    replace (b =? slash) with false by (symmetry; apply Z.eqb_neq, Hb). reflexivity. }
  split.
  - unfold hook_openat. rewrite Z.eqb_refl, bool_decide_true by exact Hh'. cbn [negb].
    unfold bind at 1. rewrite Hr. unfold bind at 1. rewrite Hres. reflexivity.
  - unfold hook_unlinkat. rewrite Z.eqb_refl, bool_decide_true by exact Hh'. cbn [negb].
    unfold bind at 1. rewrite Hr. unfold bind at 1. rewrite Hres. reflexivity.
Qed.

(** [lseek] never moves a file position: the test of the first branch assigns 0 to the
    flag. *)
Lemma lseek_never_seeks fd off flag res c :
  START_FD <= fd -> hook_lseek fd off flag res c = Done ((1, - EINVAL), c).
Proof.
  intros H. unfold hook_lseek. replace (fd <? START_FD) with false by (symmetry; apply Z.ltb_ge, H).
  unfold on_files, zoom, bind, Files.get, gets. destruct c; reflexivity.
Qed.

(** The count of [getdents64] is not used: the dispatch passes the fourth argument. *)
Lemma getdents64_ignores_count mnt rfuel j jst a0 buf a2 a2' a3 res :
  hook mnt rfuel j jst (SYS_getdents64 a0 buf a2 a3) res
  = hook mnt rfuel j jst (SYS_getdents64 a0 buf a2' a3) res.
Proof. reflexivity. Qed.

End Paths.

Section Cache.
Context {P : Platform} {SV : Service P}.

Lemma wp_Rmdir rfuel k c p f i (Q : Z -> client -> Prop) :
  connected (S k) c -> good_name f -> is_u64 p ->
  entry (view (net c)) p f = Some i -> is_directory i = true ->
  (forall c', sent k c c' -> view (net c') = a_remove p (f ++ [0]) i (view (net c)) -> Q 0 c') ->
  wp (Rmdir rfuel p f) Q c.
Proof.
  intros Hc Hf Hp He Hd HQ. apply wp_bind, (wp_RPC_Rmdir k c p f); try assumption.
  intros c' Hs. rewrite He, Hd. intros Hv.
  apply wp_bind, wp_ret, wp_bind, wp_ret, wp_ret, HQ; assumption.
Qed.

(** Resolution of [/f/g] when [f] is cached. *)
Lemma wp_resolve_cached rfuel junk f g p0 f0 depth v c :
  no_slash f -> f <> [] -> no_slash g -> g <> [] ->
  Lru.Inv (Dentry.cache_ (dentry_cache c)) -> Dentry.cached (dentry_cache c) 0 f = Some v ->
  wp (ResolvePath rfuel junk (slash :: f ++ slash :: g) p0 f0 depth)
    (fun r _ => fst r = (ROk, Dentry.inode v, g)) c.
Proof.
  intros Hf Hf0 Hg Hg0 Hinv Hc. set (path := slash :: f ++ slash :: g).
  assert (length path = S (length f + S (length g))) as Hlen
    by (unfold path; cbn; rewrite length_app; reflexivity).
  assert (path !! S (length f) = Some slash) as Hat.
  { change (path !! S (length f)) with ((f ++ slash :: g) !! length f).
    rewrite lookup_app_r, Nat.sub_diag by lia. reflexivity. }
  unfold ResolvePath. rewrite Hlen. unfold path at 1. cbn [ResolvePath_rec].
  rewrite Z.eqb_refl. cbn [negb]. fold path. rewrite Hlen.
  replace (S _ =? 1)%nat with false by (symmetry; apply Nat.eqb_neq; lia).
  rewrite bool_decide_false.
  2:{ destruct (exists_last Hg0) as (g' & y & ->). unfold path. intros Hl. assert (last (g' ++ [y]) = Some slash) as Hl'.
      { rewrite <- Hl. change (slash :: f ++ slash :: g' ++ [y])
          with ((slash :: f) ++ (slash :: g') ++ [y]). rewrite !app_assoc, !last_snoc. reflexivity. }
      rewrite last_snoc in Hl'. injection Hl' as ->. apply Forall_app in Hg as [_ Hg].
      apply Forall_cons in Hg as [Hg _]. contradiction. }
  unfold Internal_ResolvePath. rewrite (rfind_slash_spec path (S (length f)) Hat).
  2:{ intros i Hi Hx. change (path !! i) with ((slash :: f ++ slash :: g) !! i) in Hx.
      destruct i as [|i]; [lia|]. change ((f ++ slash :: g) !! i = Some slash) in Hx.
      rewrite lookup_app_r in Hx by lia. destruct (i - length f)%nat as [|o] eqn:Eo; [lia|].
      change (g !! o = Some slash) in Hx. unfold no_slash in Hg. rewrite Forall_lookup in Hg.
      exact (Hg o _ Hx eq_refl). }
  apply wp_bind. rewrite Hlen. cbn [resolve_loop].
  replace (0 <? S (length f))%nat with true by reflexivity.
  rewrite (find_slash_spec path 1 (S (length f)) Hat); [|lia|].
  2:{ intros i Hi Hx. destruct i as [|i]; [lia|].
      change ((f ++ slash :: g) !! i = Some slash) in Hx. rewrite lookup_app_l in Hx by lia.
      unfold no_slash in Hf. rewrite Forall_lookup in Hf. exact (Hf i _ Hx eq_refl). }
  rewrite Nat.sub_0_r.
  replace (1 <? S (length f))%nat with true by
    (symmetry; apply Nat.ltb_lt; destruct f; [contradiction|cbn; lia]).
  assert (substr path 1 (S (length f) - 1) = f) as ->.
  { unfold substr, path. cbn [drop]. rewrite Nat.sub_1_r. apply take_app_length. }
  apply wp_bind, wp_zoom, Dentry.wp_Get; [exact Hinv|]. intros d _ _. rewrite Hc.
  rewrite Nat.ltb_irrefl. apply wp_ret, wp_ret. cbn [fst]. f_equal.
  unfold path. cbn [drop]. change (slash :: g) with ([slash] ++ g). rewrite app_assoc.
  apply drop_app_length'. rewrite length_app. cbn. lia.
Qed.

(** Removing a directory does not invalidate the dentry cache: after a successful
    [Rmdir] of [/f] the servers have no such entry, yet a client that had it cached
    goes on resolving [/f/g] to the removed directory. *)
Lemma removed_directory_resolves rfuel junk k f g i p0 f0 depth c :
  connected (S k) c -> cache_ok c -> good_name f -> no_slash f -> f <> [] ->
  no_slash g -> g <> [] ->
  Dentry.cached (dentry_cache c) 0 f = Some {| Dentry.inode := i |} -> is_directory i = true ->
  exists c1 c2 d,
    Rmdir rfuel 0 f c = Done (0, c1) /\
    walk (view (net c1)) 0 [f] = None /\
    ResolvePath rfuel junk (slash :: f ++ slash :: g) p0 f0 depth c1 = Done ((ROk, i, g, d), c2).
Proof.
  intros Hc Hok Hf Hfs Hf0 Hgs Hg0 Hcached Hdir.
  assert (is_u64 0) as H0 by (unfold is_u64; lia).
  pose proof (proj2 Hok 0 f _ H0 Hcached) as He. cbn in He.
  assert (wp (Rmdir rfuel 0 f) (fun r c1 => r = 0 /\ sent k c c1 /\
    view (net c1) = a_remove 0 (f ++ [0]) i (view (net c))) c) as Hwp.
  { apply (wp_Rmdir rfuel k c 0 f i); auto. }
  apply wp_Done in Hwp as (r & c1 & Hrun & -> & Hs & Hv).
  assert (dentry_cache c1 = dentry_cache c) as Hd by (destruct Hs as (_ & _ & b & n & ->); reflexivity).
  pose proof (wp_resolve_cached rfuel junk f g p0 f0 depth {| Dentry.inode := i |} c1) as Hwp.
  rewrite Hd in Hwp. specialize (Hwp Hfs Hf0 Hgs Hg0 (proj1 Hok) Hcached).
  apply wp_Done in Hwp as ([r d] & c2 & Hrun2 & E). cbn [fst Dentry.inode] in E. subst r.
  exists c1, c2, d. split; [exact Hrun|]. split; [|exact Hrun2].
  rewrite Hv. cbn [walk]. unfold entry. cbn. rewrite lookup_delete_eq. reflexivity.
Qed.

End Cache.

(** ** A name in the request buffer *)

Section Buffer.
Context {KV : MetaKV} {RK : RocksDB} {KVL : MetaKVLaws KV} {RKL : RocksDBLaws RK}.
Context (fuel : nat) (env : nat -> junk * Z * stale) (rnd : nat -> Z) (hash : bytes -> Z).
Context (s0 rid limit : Z).

#[local] Instance buf_platform : Platform := server_platform fuel env rnd hash.
#[local] Instance buf_service : Service buf_platform :=
  thread_service fuel env rnd hash s0 rid limit.

Lemma mknod_misrouted j now old q w r h0 :
  region_is w (kr_region_id q) r ->
  check_is_blong_to_region r (kr_pinode_hash q) = false ->
  check_is_blong_to_region r h0 = true ->
  serve fuel j now old (MknodReq q) w
  = serve fuel j now old (with_hash h0 (MknodReq q))
      (push (code_only kUpdateRegionMap old (MknodReq q)) w).
Proof.
  intros Hr Hb Hb0. cbn [serve with_hash].
  etransitivity; [eapply (guarded_out_of_range w _ _ r); eassumption|].
  symmetry. etransitivity; [eapply (guarded_in_range (push _ w) _ _ r); eassumption|reflexivity].
Qed.

(** Two responses to one request: eRPC's assertion fails in the server. *)
Lemma deliver_misrouted k n w r q h0 :
  sites n !! s0 = Some w -> holds rid limit (S k) w r -> kr_region_id q = rid ->
  check_is_blong_to_region r (kr_pinode_hash q) = false ->
  check_is_blong_to_region r h0 = true ->
  has_nul (kr_fname q) = true -> Z.of_nat (length (c_str (kr_fname q))) < METAFS_MAX_FNAME_LEN ->
  deliver fuel env s0 (MknodReq q) n = Fault AssertFailed.
Proof.
  intros Hw Hh Hq Hb Hb0 Hnul Hshort. unfold deliver. rewrite Hw.
  destruct (env (calls n)) as [[j now] old].
  rewrite (mknod_misrouted j now old q w r h0) by (try assumption; rewrite Hq; apply Hh).
  set (w1 := push _ w). assert (holds rid limit (S k) w1 r) as Hh1.
  { destruct Hh. split; assumption. }
  destruct (holds_serve fuel rid limit k w1 r j now old (with_hash h0 (MknodReq q)) h0
              (kr_fname q)) as (a & s' & w' & r' & x & _ & -> & _ & Ho & _); try assumption.
  { cbn. rewrite Hq. reflexivity. }
  rewrite Ho. unfold w1. cbn [outbox push]. rewrite <- app_assoc, drop_app_length. reflexivity.
Qed.

Lemma le_value_top (l : bytes) b :
  length l = 7%nat -> Forall is_byte l -> 1 <= b -> 2 ^ 56 <= le_value (l ++ [b]).
Proof.
  unfold is_byte. intros Hl Hf Hb. do 7 (destruct l as [|? l]; [discriminate|]).
  destruct l; [|discriminate]. repeat (apply Forall_cons in Hf as [? Hf]).
  cbn [app]. unfold le_value. lia.
Qed.

(** Eight bytes of a name are a large number. *)
Lemma name_value f :
  (16 <= length f)%nat -> Forall is_byte f -> no_nul f -> 2 ^ 56 <= le_value (take 8 (drop 8 f)).
Proof.
  intros H16 Hbytes Hnul.
  assert (take 8 (drop 8 f) = take 7 (drop 8 f) ++ take 1 (drop 15 f)) as ->.
  { change 15%nat with (8 + 7)%nat. rewrite <- drop_drop. change 8%nat with (7 + 1)%nat at 1.
    rewrite <- (take_drop 7 (take (7 + 1) (drop 8 f))), take_take, skipn_firstn_comm.
    reflexivity. }
  destruct (drop 15 f) as [|b t] eqn:Ed.
  { apply (f_equal length) in Ed. rewrite length_drop in Ed. cbn in Ed. lia. }
  assert (f !! 15%nat = Some b) as Hb.
  { rewrite <- (Nat.add_0_r 15), <- lookup_drop, Ed. reflexivity. }
  change (take 1 (b :: t)) with [b]. apply le_value_top.
  - rewrite length_take, length_drop. lia.
  - apply Forall_take, Forall_drop, Hbytes.
  - unfold no_nul in Hnul. rewrite Forall_lookup in Hbytes, Hnul.
    pose proof (Hbytes _ _ Hb) as H1. pose proof (Hnul _ _ Hb). unfold is_byte in H1. lia.
Qed.

(** A [mknod] whose hash is no hash of the region. *)
Lemma mknod_aborts k c p g md i st :
  connected (S k) c -> is_u64 p -> good_name g -> 2 ^ 56 <= slot c ->
  RPC_Mknod p g md i st c = Fault AssertFailed.
Proof.
  intros Hc Hp Hg Hslot. destruct (con_route _ _ Hc p) as [sid Hr].
  destruct (con_accept _ _ Hc p sid Hr) as (-> & Hrid & w & rg & Hw & Hrg & Hb).
  destruct (con_ready _ _ Hc) as (w' & rg' & Hw' & Hh).
  rewrite Hw in Hw'. injection Hw' as <-.
  assert (rg' = rg) as -> by (pose proof (h_region _ _ _ _ _ Hh); unfold region_is in *; congruence).
  destruct (name_size g 44 Hg ltac:(lia)) as [Hsz Hto].
  destruct (mknod_msg (req_buf c) g p (con_buf _ _ Hc) (proj1 Hg) (proj2 Hg) Hp md)
    as (_ & _ & Hmsg).
  destruct (good_name_slice g Hg) as [Hnul Hshort].
  assert (check_is_blong_to_region rg (slot c) = false) as Hout.
  { unfold check_is_blong_to_region. apply andb_false_iff. rewrite !Z.leb_gt.
    pose proof (h_end _ _ _ _ _ Hh). lia. }
  unfold RPC_Mknod, bind at 1. rewrite (proj1 Hr). unfold bind at 1, request, bind at 1, p_assert.
  replace (_ <=? wire_req_size) with true by (symmetry; apply Z.leb_le, Hsz).
  unfold ret at 1, bind at 1, modify, gets at 1. cbn [set_req_buf req_buf].
  rewrite (Hto 44%nat eq_refl), Hmsg. unfold bind at 1, enqueue, bind at 1, gets at 1.
  cbn [total_servers set_req_buf]. destruct Hr as [_ Hr].
  replace ((0 <=? s0) && (s0 <? total_servers c)) with true by
    (symmetry; apply andb_true_iff; rewrite Z.leb_le, Z.ltb_lt; exact Hr).
  unfold zoom. cbn [net set_req_buf]. change (rpc s0 ?q) with (deliver fuel env s0 q).
  rewrite (deliver_misrouted k (net c) w rg _ (snd (header (req_buf c)))); auto.
Qed.

(** A file name left in the request buffer becomes the hash of the next [mknod]:
    after a [stat] (of any result) of a name of 16 or more bytes, creating a file makes
    the server answer twice, and the assertion of eRPC stops it. *)
Lemma long_name_breaks_mknod c k p f g md i st i' st' :
  connected (S (S k)) c -> is_u64 p -> good_name f -> good_name g ->
  (16 <= length f)%nat -> Forall is_byte f ->
  exists r c1,
    RPC_Getstat p f i st c = Done (r, c1) /\
    RPC_Mknod p g md i' st' c1 = Fault AssertFailed.
Proof.
  intros Hc Hp Hf Hg H16 Hbytes.
  assert (wp (RPC_Getstat p f i st) (fun _ c1 => sent (S k) c c1 /\
    req_buf c1 = strcpy_at 24 f (write_at 8 (le_bytes 8 p) (req_buf c))) c) as Hwp.
  { apply (wp_RPC_Getstat (S k) c p f); auto. }
  apply wp_Done in Hwp as (r & c1 & Hrun & Hs & Hbuf). exists r, c1. split; [exact Hrun|].
  apply (mknod_aborts k); try assumption; [apply Hs|].
  unfold slot. rewrite Hbuf, name_leaves_hash; try apply Hc; try apply Hf; [|exact H16].
  apply name_value; [assumption..|apply Hf].
Qed.

End Buffer.

(** ** Instances *)

Section Witnesses.
Import ClientSample.

Lemma sibling_prefix_captured_witness :
  hook_openat (text "/mn"%string ++ text "t"%string) 3 j0 AT_FDCWD
    ((text "/mn"%string ++ text "t"%string) ++ text "x"%string) 0 0 0 client0 = Done ((0, - ENOENT), client0) /\
  hook_unlinkat (text "/mn"%string ++ text "t"%string) 3 j0 AT_FDCWD
    ((text "/mn"%string ++ text "t"%string) ++ text "x"%string) 0 0 client0 = Fault AssertFailed.
Proof.
  apply (sibling_prefix_captured 3 (text "/mn"%string) 116 120 [] j0 0 0 0 client0); [reflexivity|discriminate..].
Defined.

Lemma removed_directory_resolves_witness :
  exists c1 c2 d,
    Rmdir 3 0 (text "d"%string) client_d = Done (0, c1) /\
    walk (view (net c1)) 0 [text "d"%string] = None /\
    ResolvePath 3 0 (slash :: text "d"%string ++ slash :: text "g"%string) 0 [] None c1
    = Done ((ROk, dir_d, text "g"%string, d), c2).
Proof.
  apply (removed_directory_resolves 3 0 5 (text "d"%string) (text "g"%string) dir_d).
  - apply connected0; [reflexivity..|lia].
  - apply cache_ok_d.
  - split; [repeat constructor; discriminate|reflexivity].
  - repeat constructor; discriminate.
  - discriminate.
  - repeat constructor; discriminate.
  - discriminate.
  - apply cached_d.
  - reflexivity.
Defined.

Definition long_name : bytes := text "sixteen-byte-name"%string.

Lemma long_name_breaks_mknod_witness :
  exists r c1,
    RPC_Getstat 0 long_name 0 st0 client0 = Done (r, c1) /\
    RPC_Mknod 0 (text "x"%string) 420 0 st0 c1 = Fault AssertFailed.
Proof.
  apply (long_name_breaks_mknod 5 env0 (fun _ => 0) (fun _ => 0) 0 0 (2 ^ 40) client0 5).
  - apply connected0; [reflexivity..|lia].
  - unfold is_u64. lia.
  - split; [repeat constructor; discriminate|reflexivity].
  - split; [repeat constructor; discriminate|reflexivity].
  - cbn. lia.
  - repeat constructor; vm_compute; discriminate.
Defined.

End Witnesses.
