(* ===== verification/Json.v ===== *)
(** * The JSON parser (src/src/common/cJSON.cc)

    The items of cJSON as trees and the parser with its buffer: every read of the
    input is checked against the memory it is made from, every write of an unescaped
    string against the block allocated for it, and every allocation may fail.  The
    C library's [strtod] is modelled on the characters [parse_number] hands to it. *)

From Stdlib Require Import ZArith Lia SpecFloat Ascii.
From stdpp Require Import base numbers list strings.
From S2P Require Import Prelude DoubleArith.
Open Scope Z_scope.

Module Json.

(** ** Items *)

Definition cJSON_Invalid : Z := 0.
Definition cJSON_False : Z := 1.
Definition cJSON_True : Z := 2.
Definition cJSON_NULL : Z := 4.
Definition cJSON_Number : Z := 8.
Definition cJSON_String : Z := 16.
Definition cJSON_Array : Z := 32.
Definition cJSON_Object : Z := 64.
Definition cJSON_Raw : Z := 128.
Definition cJSON_IsReference : Z := 256.
Definition cJSON_StringIsConst : Z := 512.
Definition CJSON_NESTING_LIMIT : nat := 1000.

(** An item with the chain that starts at its [child].  A string is the contents of
    its block without the terminator. *)
Inductive cJSON := mk_cJSON {
  type : Z;
  valuestring : option bytes;
  valueint : Z;
  valuedouble : spec_float;
  string : option bytes;
  child : list cJSON
}.

(** [cJSON_New_Item]: all zeros. *)
Definition new_item : cJSON := mk_cJSON 0 None 0 (S754_zero false) None [].

Definition set_type (t : Z) (i : cJSON) : cJSON :=
  mk_cJSON t (valuestring i) (valueint i) (valuedouble i) (string i) (child i).
Definition set_valuestring (s : option bytes) (i : cJSON) : cJSON :=
  mk_cJSON (type i) s (valueint i) (valuedouble i) (string i) (child i).
Definition set_valueint (n : Z) (i : cJSON) : cJSON :=
  mk_cJSON (type i) (valuestring i) n (valuedouble i) (string i) (child i).
Definition set_valuedouble (d : spec_float) (i : cJSON) : cJSON :=
  mk_cJSON (type i) (valuestring i) (valueint i) d (string i) (child i).
Definition set_string (s : option bytes) (i : cJSON) : cJSON :=
  mk_cJSON (type i) (valuestring i) (valueint i) (valuedouble i) s (child i).
Definition set_child (l : list cJSON) (i : cJSON) : cJSON :=
  mk_cJSON (type i) (valuestring i) (valueint i) (valuedouble i) (string i) l.

(** ** Characters *)

Definition chr (a : ascii) : Z := Z.of_N (N_of_ascii a).
Arguments chr a%_char.

Definition quote : Z := 34.
Definition backslash : Z := 92.

Definition is_digit (c : Z) : bool := (chr "0" <=? c) && (c <=? chr "9").

(** ** [strtod] *)

Fixpoint digits (s : bytes) : bytes :=
  match s with
  | c :: s' => if is_digit c then c :: digits s' else []
  | [] => []
  end.

Definition decimal (ds : bytes) : Z := fold_left (fun n c => 10 * n + (c - chr "0")) ds 0.

(** [m * 10 ^ e], rounded to nearest. *)
Definition scale10 (neg : bool) (m e : Z) : spec_float :=
  if m =? 0 then S754_zero neg
  else if 0 <=? e then
    binary_normalize Double.prec Double.emax ((if neg then -1 else 1) * (m * 10 ^ e)) 0 neg
  else Double.div (S754_finite neg (Z.to_pos m) 0) (S754_finite false (Z.to_pos (10 ^ (- e))) 0).

(** The sign and what follows it. *)
Definition sign (s : bytes) : bool * nat :=
  match s with
  | c :: _ => if c =? chr "-" then (true, 1%nat) else if c =? chr "+" then (false, 1%nat)
              else (false, 0%nat)
  | [] => (false, 0%nat)
  end.

(** The exponent part, if [s] starts with a complete one: its value and length. *)
Definition exponent (s : bytes) : Z * nat :=
  match s with
  | c :: s' =>
      if (c =? chr "e") || (c =? chr "E") then
        let '(neg, k) := sign s' in
        let ds := digits (drop k s') in
        if bool_decide (ds = []) then (0, 0%nat)
        else ((if neg then - decimal ds else decimal ds), (1 + k + length ds)%nat)
      else (0, 0%nat)
  | [] => (0, 0%nat)
  end.

(** The value of the longest prefix that is a decimal number, and its length: 0 if
    there is none. *)
Definition strtod (s : bytes) : spec_float * nat :=
  let '(neg, k) := sign s in
  let ip := digits (drop k s) in
  let s1 := drop (k + length ip) s in
  let fp := match s1 with c :: s2 => if c =? chr "." then digits s2 else [] | [] => [] end in
  let dot := match s1 with c :: _ => if c =? chr "." then 1%nat else 0%nat | [] => 0%nat end in
  if bool_decide (ip ++ fp = []) then (S754_zero false, 0%nat)
  else
    let n := (k + length ip + dot + length fp)%nat in
    let '(e, ne) := exponent (drop n s) in
    (scale10 neg (decimal (ip ++ fp)) (e - Z.of_nat (length fp)), (n + ne)%nat).

(** ** Conversion of a number to [int] *)

Definition INT_MAX : Z := 2 ^ 31 - 1.
Definition INT_MIN : Z := - 2 ^ 31.

(** The saturating conversion of [parse_number], [cJSON_CreateNumber] and
    [cJSON_SetNumberHelper]; a NaN, for which it is undefined, gives 0. *)
Definition saturate (number : spec_float) : Z :=
  if SFleb (Double.of_Z INT_MAX) number then INT_MAX
  else if SFleb number (Double.of_Z INT_MIN) then INT_MIN
  else match Double.trunc number with Some z => z | None => 0 end.

(** ** The parse buffer *)

(** [content] is the memory behind the pointer; [buf_length] is the length the caller
    passed.  [allocs] counts the allocations made so far. *)
Record parse_buffer := {
  content : bytes;
  buf_length : nat;
  offset : nat;
  depth : nat;
  allocs : nat
}.

Definition set_offset (n : nat) (b : parse_buffer) : parse_buffer :=
  {| content := content b; buf_length := buf_length b; offset := n; depth := depth b;
     allocs := allocs b |}.
Definition set_depth (n : nat) (b : parse_buffer) : parse_buffer :=
  {| content := content b; buf_length := buf_length b; offset := offset b; depth := n;
     allocs := allocs b |}.
Definition set_allocs (n : nat) (b : parse_buffer) : parse_buffer :=
  {| content := content b; buf_length := buf_length b; offset := offset b; depth := depth b;
     allocs := n |}.

Definition can_read (size : nat) (b : parse_buffer) : bool := (offset b + size <=? buf_length b)%nat.
Definition can_access_at_index (i : nat) (b : parse_buffer) : bool := (offset b + i <? buf_length b)%nat.

Local Open Scope m_scope.

(** [*(content + p)]. *)
Definition read (p : nat) : M parse_buffer Z :=
  fun b => match content b !! p with Some c => Done (c, b) | None => Fault OutOfBounds end.

(** [buffer_at_offset(input_buffer)[i]]. *)
Definition at_index (i : nat) : M parse_buffer Z :=
  fun b => read (offset b + i) b.

Definition advance (n : nat) : M parse_buffer unit := modify (fun b => set_offset (offset b + n) b).
Definition step_back : M parse_buffer unit := modify (fun b => set_offset (offset b - 1) b).

(** [can_access_at_index(input_buffer, 0) && buffer_at_offset(input_buffer)[0] == c]. *)
Definition next_is (c : Z) : M parse_buffer bool :=
  let* ok := gets (can_access_at_index 0) in
  if ok then let* x := at_index 0 in ret (x =? c) else ret false.

(** [strncmp(content + p, lit, length lit) == 0] for a literal without NUL. *)
Fixpoint strncmp_at (p : nat) (lit : bytes) : M parse_buffer bool :=
  match lit with
  | [] => ret true
  | c :: lit' =>
      let* x := read p in
      if x =? c then strncmp_at (S p) lit' else ret false
  end.

Definition starts_with (lit : bytes) : M parse_buffer bool :=
  let* ok := gets (can_read (length lit)) in
  if ok then let* p := gets offset in strncmp_at p lit else ret false.

Section Parser.
(** Whether the [n]-th allocation, of a given size, succeeds. *)
Context (can_alloc : nat -> nat -> bool).

Definition allocate (size : nat) : M parse_buffer bool :=
  let* n := gets allocs in
  modify (set_allocs (S n)) ;;; ret (can_alloc n size).

Definition sizeof_cJSON : nat := 64.

Definition cJSON_New_Item : M parse_buffer (option cJSON) :=
  let* ok := allocate sizeof_cJSON in
  ret (if ok then Some new_item else None).

(** ** Numbers *)

Definition is_number_char (c : Z) : bool :=
  is_digit c || (c =? chr "+") || (c =? chr "-") || (c =? chr "e") || (c =? chr "E") ||
  (c =? chr ".").

(** The characters copied to [number_c_string], [n] at most. *)
Fixpoint number_chars (n i : nat) : M parse_buffer bytes :=
  match n with
  | O => ret []
  | S n' =>
      let* ok := gets (can_access_at_index i) in
      if negb ok then ret [] else
      let* c := at_index i in
      if is_number_char c then let* s := number_chars n' (S i) in ret (c :: s) else ret []
  end.

Definition parse_number (item : cJSON) : M parse_buffer (option cJSON) :=
  let* s := number_chars 63 0 in
  let '(number, n) := strtod s in
  if (n =? 0)%nat then ret None else
  advance n ;;;
  ret (Some (set_type cJSON_Number (set_valueint (saturate number) (set_valuedouble number item)))).

(** ** Strings *)

(** The digit's value, if it is a hexadecimal digit. *)
Definition hex_digit (c : Z) : option Z :=
  if (chr "0" <=? c) && (c <=? chr "9") then Some (c - chr "0")
  else if (chr "A" <=? c) && (c <=? chr "F") then Some (10 + c - chr "A")
  else if (chr "a" <=? c) && (c <=? chr "f") then Some (10 + c - chr "a")
  else None.

Fixpoint hex4_loop (n p : nat) (h : Z) : M parse_buffer Z :=
  match n with
  | O => ret h
  | S n' =>
      let* c := read p in
      match hex_digit c with
      | Some d => hex4_loop n' (S p) (if (0 <? n')%nat then Z.shiftl (h + d) 4 else h + d)
      | None => ret 0
      end
  end.

Definition parse_hex4 (p : nat) : M parse_buffer Z := hex4_loop 4 p 0.

(** The continuation bytes, from the last to the second, and the rest of the code
    point. *)
Fixpoint utf8_tail (n : nat) (codepoint : Z) (acc : bytes) : Z * bytes :=
  match n with
  | O => (codepoint, acc)
  | S n' => utf8_tail n' (Z.shiftr codepoint 6) (Z.land (Z.lor codepoint 128) 191 :: acc)
  end.

Definition utf8_encode (codepoint : Z) : option bytes :=
  if codepoint <? 128 then Some [Z.land codepoint 127]
  else
    let enc n mark := let '(c, t) := utf8_tail n codepoint [] in
                      Some (Z.land (Z.lor c mark) 255 :: t) in
    if codepoint <? 2048 then enc 1%nat 192
    else if codepoint <? 65536 then enc 2%nat 224
    else if codepoint <=? 1114111 then enc 3%nat 240
    else None.

(** The length of the literal and the bytes it stands for; [None] is the return
    value 0. *)
Definition utf16_literal_to_utf8 (input_pointer input_end : nat)
  : M parse_buffer (option (nat * bytes)) :=
  if (input_end - input_pointer <? 6)%nat then ret None else
  let* first_code := parse_hex4 (input_pointer + 2) in
  if (56320 <=? first_code) && (first_code <=? 57343) then ret None else
  if (55296 <=? first_code) && (first_code <=? 56319) then
    let second_sequence := (input_pointer + 6)%nat in
    if (input_end - second_sequence <? 6)%nat then ret None else
    let* c0 := read second_sequence in
    if negb (c0 =? backslash) then ret None else
    let* c1 := read (second_sequence + 1) in
    if negb (c1 =? chr "u") then ret None else
    let* second_code := parse_hex4 (second_sequence + 2) in
    if (second_code <? 56320) || (57343 <? second_code) then ret None else
    ret (option_map (pair 12%nat) (utf8_encode
      (65536 + Z.lor (Z.shiftl (Z.land first_code 1023) 10) (Z.land second_code 1023))))
  else ret (option_map (pair 6%nat) (utf8_encode first_code)).

(** The search for the closing quote: its position and the number of escapes before
    it. *)
Fixpoint scan_loop (fuel input_end skipped : nat) : M parse_buffer (option (nat * nat)) :=
  match fuel with
  | O => raise OutOfFuel
  | S fuel' =>
      let* len := gets buf_length in
      if negb (input_end <? len)%nat then ret None else
      let* c := read input_end in
      if c =? quote then ret (Some (input_end, skipped)) else
      if c =? backslash then
        if (len <=? input_end + 1)%nat then ret None
        else scan_loop fuel' (input_end + 2) (S skipped)
      else scan_loop fuel' (input_end + 1) skipped
  end.

(** [*output_pointer++ = ...] into a block of [cap] bytes. *)
Definition put (cap : nat) (out bs : bytes) : M parse_buffer bytes :=
  if (length out + length bs <=? cap)%nat then ret (out ++ bs) else raise OutOfBounds.

(** What a two-character escape stands for. *)
Definition unescape (c : Z) : option Z :=
  if c =? chr "b" then Some 8
  else if c =? chr "f" then Some 12
  else if c =? chr "n" then Some 10
  else if c =? chr "r" then Some 13
  else if c =? chr "t" then Some 9
  else if (c =? quote) || (c =? backslash) || (c =? chr "/") then Some c
  else None.

(** The loop through the string literal; on failure, [inr] has the position reached.
    (Its test [input_end - input_pointer < 1] repeats the loop's condition.) *)
Fixpoint unescape_loop (fuel input_pointer input_end cap : nat) (out : bytes)
  : M parse_buffer (bytes + nat) :=
  match fuel with
  | O => raise OutOfFuel
  | S fuel' =>
      if negb (input_pointer <? input_end)%nat then ret (inl out) else
      let* c := read input_pointer in
      if negb (c =? backslash) then
        let* out := put cap out [c] in
        unescape_loop fuel' (input_pointer + 1) input_end cap out
      else
      let* c1 := read (input_pointer + 1) in
      match unescape c1 with
      | Some x =>
          let* out := put cap out [x] in
          unescape_loop fuel' (input_pointer + 2) input_end cap out
      | None =>
          if negb (c1 =? chr "u") then ret (inr input_pointer) else
          let* r := utf16_literal_to_utf8 input_pointer input_end in
          match r with
          | None => ret (inr input_pointer)
          | Some (sequence_length, bs) =>
              let* out := put cap out bs in
              unescape_loop fuel' (input_pointer + sequence_length) input_end cap out
          end
      end
  end.

Definition parse_string (item : cJSON) : M parse_buffer (option cJSON) :=
  let* start := gets offset in
  let fail (p : nat) : M parse_buffer (option cJSON) := modify (set_offset p) ;;; ret None in
  let* c := at_index 0 in
  if negb (c =? quote) then fail (start + 1)%nat else
  let* len := gets buf_length in
  let* r := scan_loop (S len) (start + 1) 0 in
  match r with
  | None => fail (start + 1)%nat
  | Some (input_end, skipped) =>
      let cap := (input_end - start - skipped + 1)%nat in
      let* ok := allocate cap in
      if negb ok then fail (start + 1)%nat else
      let* r := unescape_loop (S len) (start + 1) input_end cap [] in
      match r with
      | inr p => fail p
      | inl out =>
          let* _ := put cap out [0] in
          modify (set_offset (input_end + 1)) ;;;
          ret (Some (set_type cJSON_String (set_valuestring (Some out) item)))
      end
  end.

(** ** Values *)

Fixpoint whitespace_loop (fuel : nat) : M parse_buffer unit :=
  match fuel with
  | O => raise OutOfFuel
  | S fuel' =>
      let* ok := gets (can_access_at_index 0) in
      if negb ok then ret tt else
      let* c := at_index 0 in
      if c <=? 32 then advance 1 ;;; whitespace_loop fuel' else ret tt
  end.

Definition buffer_skip_whitespace : M parse_buffer unit :=
  let* ok := gets (can_access_at_index 0) in
  if negb ok then ret tt else
  let* n := gets buf_length in
  whitespace_loop (S n) ;;;
  let* at_end := gets (fun b => (offset b =? buf_length b)%nat) in
  when_ at_end step_back.

Section Containers.
(** [parse_value] on the elements. *)
Context (parse_elem : cJSON -> M parse_buffer (option cJSON)).

(** What is parsed for each element: its value, or its name and its value. *)
Definition parse_element : M parse_buffer (option cJSON) :=
  let* new := cJSON_New_Item in
  match new with
  | None => ret None
  | Some item => advance 1 ;;; buffer_skip_whitespace ;;; parse_elem item
  end.

Definition parse_member : M parse_buffer (option cJSON) :=
  let* new := cJSON_New_Item in
  match new with
  | None => ret None
  | Some item =>
      advance 1 ;;; buffer_skip_whitespace ;;;
      let* r := parse_string item in
      match r with
      | None => ret None
      | Some item =>
          buffer_skip_whitespace ;;;
          let item := set_valuestring None (set_string (valuestring item) item) in
          let* colon := next_is (chr ":") in
          if negb colon then ret None else
          advance 1 ;;; buffer_skip_whitespace ;;; parse_elem item
      end
  end.

(** The loop over the elements separated by commas. *)
Fixpoint elements_loop (fuel : nat) (one : M parse_buffer (option cJSON)) (acc : list cJSON)
  : M parse_buffer (option (list cJSON)) :=
  match fuel with
  | O => raise OutOfFuel
  | S fuel' =>
      let* r := one in
      match r with
      | None => ret None
      | Some x =>
          buffer_skip_whitespace ;;;
          let* comma := next_is (chr ",") in
          if comma then elements_loop fuel' one (acc ++ [x]) else ret (Some (acc ++ [x]))
      end
  end.

(** The common shape of [parse_array] and [parse_object]: after the opening bracket,
    either the closing one or the elements and the closing one. *)
Definition parse_container (close ty : Z) (one : M parse_buffer (option cJSON)) (item : cJSON)
  : M parse_buffer (option cJSON) :=
  let success (l : list cJSON) : M parse_buffer (option cJSON) :=
    modify (fun b => set_depth (depth b - 1) b) ;;; advance 1 ;;;
    ret (Some (set_child l (set_type ty item))) in
  advance 1 ;;; buffer_skip_whitespace ;;;
  let* empty := next_is close in
  if empty then success [] else
  let* ok := gets (can_access_at_index 0) in
  if negb ok then step_back ;;; ret None else
  step_back ;;;
  let* n := gets buf_length in
  let* r := elements_loop (S n) one [] in
  match r with
  | None => ret None
  | Some l =>
      let* closed := next_is close in
      if closed then success l else ret None
  end.

Definition parse_array (item : cJSON) : M parse_buffer (option cJSON) :=
  let* d := gets depth in
  if (CJSON_NESTING_LIMIT <=? d)%nat then ret None else
  modify (set_depth (S d)) ;;;
  let* c := at_index 0 in
  if negb (c =? chr "[") then ret None else
  parse_container (chr "]") cJSON_Array parse_element item.

Definition parse_object (item : cJSON) : M parse_buffer (option cJSON) :=
  let* d := gets depth in
  if (CJSON_NESTING_LIMIT <=? d)%nat then ret None else
  modify (set_depth (S d)) ;;;
  let* open := next_is (chr "{") in
  if negb open then ret None else
  parse_container (chr "}") cJSON_Object parse_member item.

End Containers.

(** [fuel] bounds the nesting. *)
Fixpoint parse_value (fuel : nat) (item : cJSON) : M parse_buffer (option cJSON) :=
  match fuel with
  | O => raise OutOfFuel
  | S fuel' =>
      let* is_null := starts_with (text "null") in
      if is_null then advance 4 ;;; ret (Some (set_type cJSON_NULL item)) else
      let* is_false := starts_with (text "false") in
      if is_false then advance 5 ;;; ret (Some (set_type cJSON_False item)) else
      let* is_true := starts_with (text "true") in
      if is_true then advance 4 ;;; ret (Some (set_valueint 1 (set_type cJSON_True item))) else
      let* is_string := next_is quote in
      if is_string then parse_string item else
      let* minus := next_is (chr "-") in
      let* digit := (let* ok := gets (can_access_at_index 0) in
                     if ok then let* c := at_index 0 in ret (is_digit c) else ret false) in
      if minus || digit then parse_number item else
      let* is_array := next_is (chr "[") in
      if is_array then parse_array (parse_value fuel') item else
      let* is_object := next_is (chr "{") in
      if is_object then parse_object (parse_value fuel') item else
      ret None
  end.

(** Enough for every input: deeper nesting is refused. *)
Definition nesting_fuel : nat := S CJSON_NESTING_LIMIT.

(** ** The entry points *)

Definition utf8_bom : bytes := [239; 187; 191].

Definition skip_utf8_bom : M parse_buffer unit :=
  let* ok := gets (can_access_at_index 4) in
  if negb ok then ret tt else
  let* p := gets offset in
  let* bom := strncmp_at p utf8_bom in
  when_ bom (advance 3).

(** The item, the position [return_parse_end] is set to and the position in
    [global_error], which is reset by a successful parse. *)
Record parse_result := {
  parsed : option cJSON;
  parse_end : option nat;
  global_error : option nat
}.

Definition parse_body (require_null_terminated : bool) : M parse_buffer (option cJSON) :=
  let* new := cJSON_New_Item in
  match new with
  | None => ret None
  | Some item =>
      skip_utf8_bom ;;; buffer_skip_whitespace ;;;
      let* r := parse_value nesting_fuel item in
      match r with
      | None => ret None
      | Some item =>
          if require_null_terminated then
            buffer_skip_whitespace ;;;
            let* p := gets offset in
            let* len := gets buf_length in
            if (len <=? p)%nat then ret None else
            let* c := at_index 0 in
            ret (if c =? 0 then Some item else None)
          else ret (Some item)
      end
  end.

(** [value] is the memory behind the pointer, [None] for a null pointer. *)
Definition cJSON_ParseWithLengthOpts (value : option bytes) (buffer_length : nat)
    (require_null_terminated : bool) : outcome parse_result :=
  let failed (json : bytes) (b : parse_buffer) :=
    let position := if (offset b <? buf_length b)%nat then offset b else (buf_length b - 1)%nat in
    Done {| parsed := None; parse_end := Some position; global_error := Some position |} in
  match value with
  | None => Done {| parsed := None; parse_end := None; global_error := None |}
  | Some mem =>
      let b := {| content := mem; buf_length := buffer_length; offset := 0; depth := 0;
                  allocs := 0 |} in
      if (buffer_length =? 0)%nat
      then Done {| parsed := None; parse_end := Some 0%nat; global_error := Some 0%nat |}
      else match parse_body require_null_terminated b with
           | Fault f => Fault f
           | Done (None, b) => failed mem b
           | Done (Some item, b) =>
               Done {| parsed := Some item; parse_end := Some (offset b); global_error := None |}
           end
  end.

(** The length passed on is that of the string and its terminator. *)
Definition cJSON_ParseWithOpts (value : option bytes) (require_null_terminated : bool)
  : outcome parse_result :=
  match value with
  | None => Done {| parsed := None; parse_end := None; global_error := None |}
  | Some mem =>
      if has_nul mem
      then cJSON_ParseWithLengthOpts value (length (c_str mem) + 1) require_null_terminated
      else Fault OutOfBounds
  end.

Definition cJSON_Parse (value : option bytes) : outcome parse_result :=
  cJSON_ParseWithOpts value false.

Definition cJSON_ParseWithLength (value : option bytes) (buffer_length : nat)
  : outcome parse_result :=
  cJSON_ParseWithLengthOpts value buffer_length false.

End Parser.
End Json.
