(* ===== verification/JsonPrint.v ===== *)
(** * The JSON printer (src/src/common/cJSON.cc)

    Items are rendered into a buffer that grows on demand.  Every write is checked
    against the memory of the buffer, every allocation may fail, and memory that has
    not been written holds arbitrary bytes.  The conversions of the C library's
    [sprintf] that [print_number] and [print_string_ptr] use are modelled exactly. *)

From Stdlib Require Import ZArith Lia SpecFloat Ascii.
From stdpp Require Import base numbers list strings.
From S2P Require Import Prelude DoubleArith Json.
Open Scope Z_scope.

Module JsonPrint.
Export Json.

(** ** Decimal output of [sprintf] *)

(** The last [n] decimal digits. *)
Fixpoint dec_digits (n : nat) (z : Z) : bytes :=
  match n with
  | O => []
  | S n' => dec_digits n' (z / 10) ++ [chr "0" + z mod 10]
  end.

(** The number of decimal digits of a positive [z]. *)
Fixpoint num_digits (fuel : nat) (z : Z) : nat :=
  match fuel with
  | O => O
  | S fuel' => if z =? 0 then O else S (num_digits fuel' (z / 10))
  end.

(** The least [k >= 1] with [den <= num * 10 ^ k], for [num < den]. *)
Fixpoint leading_zeros (fuel : nat) (num den : Z) : Z :=
  match fuel with
  | O => 1
  | S fuel' => if den <=? num * 10 then 1 else 1 + leading_zeros fuel' (num * 10) den
  end.

(** More than the decimal digits of any finite double, on either side of the point. *)
Definition dec_fuel : nat := 400.

(** The decimal exponent of [num / den]. *)
Definition dec_exponent (num den : Z) : Z :=
  if den <=? num then Z.of_nat (num_digits dec_fuel (num / den)) - 1
  else - leading_zeros dec_fuel num den.

Definition round_half_even (num den : Z) : Z :=
  let q := num / den in
  let r := num mod den in
  if (2 * r <? den) || ((2 * r =? den) && Z.even q) then q else q + 1.

(** [num / den] as [p] significant digits [n] and an exponent [x]: about
    [n * 10 ^ (x - p + 1)]. *)
Definition significant (p : nat) (num den : Z) : Z * Z :=
  let x := dec_exponent num den in
  let k := Z.of_nat p - 1 - x in
  let n := if 0 <=? k then round_half_even (num * 10 ^ k) den
           else round_half_even num (den * 10 ^ (- k)) in
  if n =? 10 ^ Z.of_nat p then (10 ^ (Z.of_nat p - 1), x + 1) else (n, x).

Fixpoint strip_zeros (s : bytes) : bytes :=
  match s with
  | [] => []
  | c :: s' => match strip_zeros s' with
               | [] => if c =? chr "0" then [] else [c]
               | t => c :: t
               end
  end.

Definition fraction (s : bytes) : bytes :=
  match strip_zeros s with [] => [] | t => chr "." :: t end.

(** The [%.pg] conversion of the positive number [num / den]. *)
Definition format_pos (p : nat) (num den : Z) : bytes :=
  let '(n, x) := significant p num den in
  let ds := dec_digits p n in
  if (-4 <=? x) && (x <? Z.of_nat p) then
    if 0 <=? x then take (Z.to_nat x + 1) ds ++ fraction (drop (Z.to_nat x + 1) ds)
    else chr "0" :: fraction (repeat (chr "0") (Z.to_nat (- x - 1)) ++ ds)
  else
    take 1 ds ++ fraction (drop 1 ds) ++ [chr "e"; if x <? 0 then chr "-" else chr "+"] ++
    dec_digits (Nat.max 2 (num_digits dec_fuel (Z.abs x))) (Z.abs x).

(** [sprintf("%1.pg")] of a finite number. *)
Definition format_g (p : nat) (d : spec_float) : bytes :=
  match d with
  | S754_finite s m e =>
      (if s then [chr "-"] else []) ++
      (if 0 <=? e then format_pos p (Zpos m * 2 ^ e) 1 else format_pos p (Zpos m) (2 ^ (- e)))
  | S754_zero s => (if s then [chr "-"] else []) ++ [chr "0"]
  | _ => []
  end.

(** [sprintf("u%04x")] of a byte. *)
Definition hex_char (d : Z) : Z := if d <? 10 then chr "0" + d else chr "a" + (d - 10).

Definition u04x (c : Z) : bytes := [chr "u"; chr "0"; chr "0"; hex_char (c / 16); hex_char (c mod 16)].

(** ** Comparison of doubles *)

Definition DBL_EPSILON : spec_float := S754_finite false 4503599627370496 (-104).

Definition compare_double (a b : spec_float) : bool :=
  let maxVal := if SFltb (SFabs b) (SFabs a) then SFabs a else SFabs b in
  SFleb (SFabs (SFsub Double.prec Double.emax a b)) (Double.mul maxVal DBL_EPSILON).

(** ** The print buffer *)

(** [buffer] is the memory behind the pointer; [p_length] is the size the printer
    goes by.  [reallocate] says whether the hooks have a [realloc]. *)
Record printbuffer := {
  buffer : option bytes;
  p_length : nat;
  p_offset : nat;
  p_depth : nat;
  noalloc : bool;
  format : bool;
  reallocate : bool;
  p_allocs : nat
}.

Definition set_buffer (m : option bytes) (n : nat) (p : printbuffer) : printbuffer :=
  {| buffer := m; p_length := n; p_offset := p_offset p; p_depth := p_depth p;
     noalloc := noalloc p; format := format p; reallocate := reallocate p;
     p_allocs := p_allocs p |}.
Definition set_p_offset (n : nat) (p : printbuffer) : printbuffer :=
  {| buffer := buffer p; p_length := p_length p; p_offset := n; p_depth := p_depth p;
     noalloc := noalloc p; format := format p; reallocate := reallocate p;
     p_allocs := p_allocs p |}.
Definition set_p_depth (n : nat) (p : printbuffer) : printbuffer :=
  {| buffer := buffer p; p_length := p_length p; p_offset := p_offset p; p_depth := n;
     noalloc := noalloc p; format := format p; reallocate := reallocate p;
     p_allocs := p_allocs p |}.
Definition set_p_allocs (n : nat) (p : printbuffer) : printbuffer :=
  {| buffer := buffer p; p_length := p_length p; p_offset := p_offset p; p_depth := p_depth p;
     noalloc := noalloc p; format := format p; reallocate := reallocate p; p_allocs := n |}.

Local Open Scope m_scope.

(** Stores at [buffer + at_]. *)
Definition write (at_ : nat) (bs : bytes) : M printbuffer unit :=
  fun p => match buffer p with
           | Some m => if (at_ + length bs <=? length m)%nat
                       then Done (tt, set_buffer (Some (take at_ m ++ bs ++ drop (at_ + length bs) m))
                                        (p_length p) p)
                       else Fault OutOfBounds
           | None => Fault NullDeref
           end.

Definition p_advance (n : nat) : M printbuffer unit := modify (fun p => set_p_offset (p_offset p + n) p).

Definition update_offset : M printbuffer unit :=
  fun p => match buffer p with
           | None => Done (tt, p)
           | Some m => if has_nul (drop (p_offset p) m)
                       then p_advance (length (c_str (drop (p_offset p) m))) p
                       else Fault OutOfBounds
           end.

Section Printer.
(** Whether the [n]-th allocation, of a given size, succeeds, and what new memory
    holds. *)
Context (can_alloc : nat -> nat -> bool) (fresh : nat -> Z).

(** A block of [n] bytes that starts with [old]. *)
Definition block (n : nat) (old : bytes) : bytes :=
  take n old ++ map fresh (seq (length old) (n - length old)).

Definition p_allocate (size : nat) : M printbuffer bool :=
  let* n := gets p_allocs in
  modify (set_p_allocs (S n)) ;;; ret (can_alloc n size).

(** The [memcpy] of [p->offset + 1] bytes stays inside the old buffer. *)
Definition p_ok (b : bool) : M printbuffer unit := if b then ret tt else raise OutOfBounds.

(** [Some] of the position to write at, or [None] for a null pointer. *)
Definition ensure (needed : nat) : M printbuffer (option nat) :=
  let* p := gets (fun p => p) in
  match buffer p with
  | None => ret None
  | Some m =>
      if (0 <? p_length p)%nat && (p_length p <=? p_offset p)%nat then ret None else
      if INT_MAX <? Z.of_nat needed then ret None else
      let needed := (needed + p_offset p + 1)%nat in
      if (needed <=? p_length p)%nat then ret (Some (p_offset p)) else
      if noalloc p then ret None else
      if (INT_MAX / 2 <? Z.of_nat needed) && (INT_MAX <? Z.of_nat needed) then ret None else
      let newsize := if INT_MAX / 2 <? Z.of_nat needed then Z.to_nat INT_MAX else (needed * 2)%nat in
      let* ok := p_allocate newsize in
      if ok then
        p_ok (reallocate p || (p_offset p + 1 <=? length m)%nat) ;;;
        let old := if reallocate p then m else take (p_offset p + 1) m in
        modify (set_buffer (Some (block newsize old)) newsize) ;;; ret (Some (p_offset p))
      else modify (set_buffer None 0) ;;; ret None
  end.

(** [output_pointer = ensure(...); if (output_pointer == NULL) return false; ...] *)
Definition with_space (needed : nat) (k : nat -> M printbuffer bool) : M printbuffer bool :=
  let* r := ensure needed in
  match r with Some at_ => k at_ | None => ret false end.

(** [if (!c) return false; k]. *)
Definition andthen (c k : M printbuffer bool) : M printbuffer bool :=
  let* ok := c in if ok then k else ret false.

(** ** Scalars *)

(** [strcpy] of a literal. *)
Definition print_literal (needed : nat) (lit : bytes) : M printbuffer bool :=
  with_space needed (fun at_ => write at_ (lit ++ [0]) ;;; ret true).

Definition is_nan_or_inf (d : spec_float) : bool :=
  match d with S754_nan | S754_infinity _ => true | _ => false end.

(** The text of a number: 15 digits if they give back (nearly) the number, else 17. *)
Definition number_text (d : spec_float) : bytes :=
  if is_nan_or_inf d then text "null"
  else
    let s := format_g 15 d in
    let '(test, n) := strtod s in
    if (n =? 0)%nat || negb (compare_double test d) then format_g 17 d else s.

(** [number_buffer] has 26 bytes, and [sprintf] also stores a terminator. *)
Definition print_number (item : cJSON) : M printbuffer bool :=
  let s := number_text (valuedouble item) in
  if (25 <? length s)%nat then raise OutOfBounds else
  with_space (length s + 1) (fun at_ =>
    write at_ (s ++ [0]) ;;; p_advance (length s) ;;; ret true).

(** How many characters the escape adds. *)
Definition extra (c : Z) : nat :=
  if (c =? quote) || (c =? backslash) || (c =? 8) || (c =? 12) || (c =? 10) || (c =? 13) || (c =? 9)
  then 1%nat else if c <? 32 then 5%nat else 0%nat.

Definition escape_characters (s : bytes) : nat := sum_list (map extra s).

(** What is stored for one character, and how far the output pointer moves; the
    [sprintf] stores a terminator behind its text. *)
Definition escaped (c : Z) : bytes * nat :=
  if (31 <? c) && negb (c =? quote) && negb (c =? backslash) then ([c], 1%nat)
  else if c =? backslash then ([backslash; backslash], 2%nat)
  else if c =? quote then ([backslash; quote], 2%nat)
  else if c =? 8 then ([backslash; chr "b"], 2%nat)
  else if c =? 12 then ([backslash; chr "f"], 2%nat)
  else if c =? 10 then ([backslash; chr "n"], 2%nat)
  else if c =? 13 then ([backslash; chr "r"], 2%nat)
  else if c =? 9 then ([backslash; chr "t"], 2%nat)
  else (backslash :: u04x c ++ [0], 6%nat).

Fixpoint escape_loop (s : bytes) (at_ : nat) : M printbuffer unit :=
  match s with
  | [] => ret tt
  | c :: s' => let '(bs, n) := escaped c in write at_ bs ;;; escape_loop s' (at_ + n)
  end.

Definition print_string_ptr (input : option bytes) : M printbuffer bool :=
  match input with
  | None => print_literal 3 [quote; quote]
  | Some block =>
      let s := c_str block in
      let output_length := (length s + escape_characters s)%nat in
      with_space (output_length + 3) (fun at_ =>
        write at_ [quote] ;;;
        (if (escape_characters s =? 0)%nat then write (at_ + 1) s else escape_loop s (at_ + 1)) ;;;
        write (at_ + output_length + 1) [quote; 0] ;;;
        ret true)
  end.

Definition print_string (item : cJSON) : M printbuffer bool := print_string_ptr (valuestring item).

Definition print_raw (item : cJSON) : M printbuffer bool :=
  match valuestring item with
  | None => ret false
  | Some block =>
      let s := c_str block in
      with_space (length s + 1) (fun at_ => write at_ (s ++ [0]) ;;; ret true)
  end.

(** ** Containers *)

(** One turn of the loop of [print_array]: the element and, if there is another one,
    the separator. *)
Definition array_turn (element : M printbuffer bool) (more : bool) : M printbuffer bool :=
  andthen element (
    update_offset ;;;
    if more then
      let* fmt := gets format in
      let sep := if fmt : bool then [chr ","; chr " "] else [chr ","] in
      with_space (length sep + 1) (fun at_ =>
        write at_ (sep ++ [0]) ;;; p_advance (length sep) ;;; ret true)
    else ret true).

Definition print_array (elements : M printbuffer bool) : M printbuffer bool :=
  with_space 1 (fun at_ =>
    write at_ [chr "["] ;;; p_advance 1 ;;;
    modify (fun p => set_p_depth (p_depth p + 1) p) ;;;
    andthen elements (with_space 2 (fun at_ =>
      write at_ [chr "]"; 0] ;;;
      modify (fun p => set_p_depth (p_depth p - 1) p) ;;; ret true))).

Definition tabs (n : nat) : bytes := repeat 9 n.

(** One turn of the loop of [print_object]. *)
Definition object_turn (name : option bytes) (value : M printbuffer bool) (more : bool)
  : M printbuffer bool :=
  let* fmt := gets format in
  andthen
    (if fmt then
       let* d := gets p_depth in
       with_space d (fun at_ => write at_ (tabs d) ;;; p_advance d ;;; ret true)
     else ret true) (
  andthen (print_string_ptr name) (
    update_offset ;;;
    let colon := if fmt : bool then [chr ":"; 9] else [chr ":"] in
    with_space (length colon) (fun at_ =>
      write at_ colon ;;; p_advance (length colon) ;;;
      andthen value (
        update_offset ;;;
        let sep := (if more : bool then [chr ","] else []) ++ (if fmt : bool then [10] else []) in
        with_space (length sep + 1) (fun at_ =>
          write at_ (sep ++ [0]) ;;; p_advance (length sep) ;;; ret true))))).

Definition print_object (members : M printbuffer bool) : M printbuffer bool :=
  let* fmt := gets format in
  let open := if fmt : bool then [chr "{"; 10] else [chr "{"] in
  with_space (length open + 1) (fun at_ =>
    write at_ open ;;;
    modify (fun p => set_p_depth (p_depth p + 1) p) ;;; p_advance (length open) ;;;
    andthen members (
      let* d := gets p_depth in
      with_space (if fmt : bool then d + 1 else 2)%nat (fun at_ =>
        write at_ ((if fmt : bool then tabs (d - 1) else []) ++ [chr "}"; 0]) ;;;
        modify (fun p => set_p_depth (p_depth p - 1) p) ;;; ret true))).

(** ** Values *)

Fixpoint print_value (item : cJSON) : M printbuffer bool :=
  let ty := Z.land (type item) 255 in
  if ty =? cJSON_NULL then print_literal 5 (text "null")
  else if ty =? cJSON_False then print_literal 6 (text "false")
  else if ty =? cJSON_True then print_literal 5 (text "true")
  else if ty =? cJSON_Number then print_number item
  else if ty =? cJSON_Raw then print_raw item
  else if ty =? cJSON_String then print_string item
  else if ty =? cJSON_Array then
    print_array ((fix elements (l : list cJSON) : M printbuffer bool :=
      match l with
      | [] => ret true
      | x :: l' => andthen (array_turn (print_value x) (negb (bool_decide (l' = [])))) (elements l')
      end) (child item))
  else if ty =? cJSON_Object then
    print_object ((fix members (l : list cJSON) : M printbuffer bool :=
      match l with
      | [] => ret true
      | x :: l' => andthen (object_turn (string x) (print_value x) (negb (bool_decide (l' = []))))
                     (members l')
      end) (child item))
  else ret false.

(** ** The entry points *)

Definition default_buffer_size : nat := 256.

(** The returned block, or [None] for a null pointer. *)
Definition print (item : cJSON) (fmt has_realloc : bool) : outcome (option bytes) :=
  let start := {| buffer := None; p_length := 0; p_offset := 0; p_depth := 0; noalloc := false;
                  format := fmt; reallocate := has_realloc; p_allocs := 0 |} in
  let body : M printbuffer (option bytes) :=
    let* ok := p_allocate default_buffer_size in
    if negb ok then ret None else
    modify (set_buffer (Some (block default_buffer_size [])) default_buffer_size) ;;;
    let* ok := print_value item in
    if negb ok then ret None else
    update_offset ;;;
    let* p := gets (fun p => p) in
    let size := (p_offset p + 1)%nat in
    let* ok := p_allocate size in
    if negb ok then ret None else
    match buffer p with
    | None => ret None
    | Some m =>
        if has_realloc then ret (Some (block size m))
        else
          let n := Nat.min (p_length p) size in
          if (n <=? length m)%nat
          then ret (Some (take (p_offset p) (block size (take n m)) ++ [0]))
          else raise OutOfBounds
    end in
  match body start with
  | Done (r, _) => Done r
  | Fault f => Fault f
  end.

(** [global_hooks] has its initial value, with [realloc]. *)
Definition cJSON_Print (item : cJSON) : outcome (option bytes) := print item true true.
Definition cJSON_PrintUnformatted (item : cJSON) : outcome (option bytes) := print item false true.

Definition cJSON_PrintBuffered (item : cJSON) (prebuffer : Z) (fmt : bool) : outcome (option bytes) :=
  if prebuffer <? 0 then Done None else
  let n := Z.to_nat prebuffer in
  if negb (can_alloc 0 n) then Done None else
  let p := {| buffer := Some (block n []); p_length := n; p_offset := 0; p_depth := 0;
              noalloc := false; format := fmt; reallocate := true; p_allocs := 1 |} in
  match print_value item p with
  | Done (true, p') => Done (buffer p')
  | Done (false, _) => Done None
  | Fault f => Fault f
  end.

(** The caller's memory afterwards, with the result. *)
Definition cJSON_PrintPreallocated (item : cJSON) (mem : option bytes) (len : Z) (fmt : bool)
  : outcome (bool * option bytes) :=
  if (len <? 0) || bool_decide (mem = None) then Done (false, mem) else
  let p := {| buffer := mem; p_length := Z.to_nat len; p_offset := 0; p_depth := 0;
              noalloc := true; format := fmt; reallocate := true; p_allocs := 0 |} in
  match print_value item p with
  | Done (ok, p') => Done (ok, buffer p')
  | Fault f => Fault f
  end.

End Printer.
End JsonPrint.
