(* ===== verification/JsonSafe.v ===== *)
(** * Memory safety and termination of the JSON parser

    The parser is followed on an arbitrary text that ends in a NUL: no read leaves the
    buffer, no write leaves the block allocated for a string, every loop ends and the
    recursion stays within the nesting limit.  The size computed for a string counts
    the escapes met by the scan for the closing quote, which need not be the escapes
    the unescaping loop meets; [count] relates the two. *)

From Stdlib Require Import ZArith Lia SpecFloat Ascii.
From stdpp Require Import base numbers list strings.
From S2P Require Import Prelude DoubleArith Json.
Open Scope Z_scope.

Module JsonSafe.
Import Json.

(** ** Escapes met by the scan *)

(** The number of escapes the scan counts in a piece of the literal; [st] says whether
    the piece starts with an escaped character. *)
Fixpoint count (st : bool) (l : bytes) : nat :=
  match l with
  | [] => 0
  | c :: l' => if (c =? backslash) && negb st then S (count true l') else count false l'
  end.

Fixpoint state_after (st : bool) (l : bytes) : bool :=
  match l with
  | [] => st
  | c :: l' => state_after ((c =? backslash) && negb st) l'
  end.

Lemma count_app st l l' : count st (l ++ l') = (count st l + count (state_after st l) l')%nat.
Proof.
  revert st; induction l as [|c l IH]; intros st; cbn; [reflexivity|].
  destruct (_ && _); cbn; rewrite IH; reflexivity.
Qed.

Lemma state_after_app st l l' : state_after st (l ++ l') = state_after (state_after st l) l'.
Proof. revert st; induction l as [|c l IH]; intros st; cbn; [reflexivity|]. apply IH. Qed.

(** Escapes do not overlap. *)
Lemma count_half st l : (2 * count st l <= length l + (if st then 0 else 1))%nat.
Proof.
  revert st; induction l as [|c l IH]; intros st; cbn; [destruct st; lia|].
  destruct (_ && _) eqn:E.
  - apply andb_prop in E as [_ Hst]. destruct st; [discriminate|]. specialize (IH true). cbn in *. lia.
  - specialize (IH false). destruct st; cbn in *; lia.
Qed.

Lemma count_le st l : (count st l <= length l)%nat.
Proof. pose proof (count_half st l). destruct l, st; cbn in *; lia. Qed.

(** The piece of the content between two positions. *)
Definition slice (s e : nat) (m : bytes) : bytes := take (e - s) (drop s m).

Lemma slice_split s p e m : (s <= p <= e)%nat -> slice s e m = slice s p m ++ slice p e m.
Proof.
  intros H. unfold slice. rewrite <- (take_drop (p - s) (take (e - s) (drop s m))).
  rewrite take_take, Nat.min_l by lia. f_equal.
  rewrite skipn_firstn_comm, drop_drop. f_equal; [lia|]. f_equal. lia.
Qed.

Lemma length_slice s e m : (length (slice s e m) <= e - s)%nat.
Proof. unfold slice. rewrite length_take. lia. Qed.

Lemma slice_one p m c : m !! p = Some c -> slice p (p + 1) m = [c].
Proof.
  intros H. unfold slice. replace (p + 1 - p)%nat with 1%nat by lia.
  rewrite (drop_S m c p H). reflexivity.
Qed.

Lemma slice_two p m c d :
  m !! p = Some c -> m !! (p + 1)%nat = Some d -> slice p (p + 2) m = [c; d].
Proof.
  intros Hc Hd. rewrite (slice_split p (p + 1)) by lia. rewrite (slice_one p m c Hc).
  replace (p + 2)%nat with (p + 1 + 1)%nat by lia. rewrite (slice_one _ _ _ Hd). reflexivity.
Qed.

(** Escapes counted from [s] to [p]. *)
Definition escapes (m : bytes) (s p : nat) : nat := count false (slice s p m).

Lemma escapes_nil m s : escapes m s s = 0%nat.
Proof. unfold escapes, slice. rewrite Nat.sub_diag. reflexivity. Qed.

Lemma escapes_le m s p q :
  (s <= p <= q)%nat -> (escapes m s p <= escapes m s q <= escapes m s p + (q - p))%nat.
Proof.
  intros H. unfold escapes. rewrite (slice_split s p q) by lia. rewrite count_app.
  pose proof (count_le (state_after false (slice s p m)) (slice p q m)).
  pose proof (length_slice p q m). lia.
Qed.

(** In [n] more characters there are at most [(n + 1) / 2] more escapes. *)
Lemma escapes_half m s p n :
  (s <= p)%nat -> (2 * escapes m s (p + n) <= 2 * escapes m s p + n + 1)%nat.
Proof.
  intros H. unfold escapes. rewrite (slice_split s p (p + n)) by lia. rewrite count_app.
  pose proof (count_half (state_after false (slice s p m)) (slice p (p + n) m)).
  pose proof (length_slice p (p + n) m). destruct (state_after _ _); lia.
Qed.

(** A character that is no backslash is no escape. *)
Lemma escapes_plain m s p c :
  (s <= p)%nat -> m !! p = Some c -> c <> backslash -> escapes m s (p + 1) = escapes m s p.
Proof.
  intros H Hc Hne. unfold escapes. rewrite (slice_split s p (p + 1)) by lia.
  rewrite count_app, (slice_one p m c Hc). cbn.
  replace (c =? backslash) with false by (symmetry; apply Z.eqb_neq, Hne). cbn. lia.
Qed.

(** ** Buffers *)

(** The rest of the buffer is readable and holds a terminator at its end. *)
Record usable (b : parse_buffer) : Prop := {
  us_mem : (buf_length b <= length (content b))%nat;
  us_nul : content b !! (buf_length b - 1)%nat = Some 0;
  us_in : (offset b < buf_length b)%nat
}.

(** What the parser never changes. *)
Definition same_text (b b' : parse_buffer) : Prop :=
  content b' = content b /\ buf_length b' = buf_length b.

(** A step that succeeds leaves a usable buffer at the same depth, further on. *)
Definition progress {A} (b : parse_buffer) (r : option A) (b' : parse_buffer) : Prop :=
  same_text b b' /\
  (is_Some r -> usable b' /\ depth b' = depth b /\ (offset b < offset b')%nat).

Lemma same_text_refl b : same_text b b.
Proof. split; reflexivity. Qed.

Lemma same_text_trans b b' b'' : same_text b b' -> same_text b' b'' -> same_text b b''.
Proof. unfold same_text. intuition congruence. Qed.

Lemma lookup_text b p : usable b -> (p < buf_length b)%nat -> exists c, content b !! p = Some c.
Proof. intros H Hp. apply lookup_lt_is_Some_2. pose proof (us_mem _ H). lia. Qed.

Lemma usable_move b n : usable b -> (n < buf_length b)%nat -> usable (set_offset n b).
Proof. intros [H1 H2 H3] Hn. split; assumption. Qed.

(** A character other than NUL is not the last one. *)
Lemma not_last b p c :
  usable b -> content b !! p = Some c -> c <> 0 -> (p < buf_length b)%nat -> (p + 1 < buf_length b)%nat.
Proof.
  intros H Hc Hne Hp. destruct (Nat.eq_dec p (buf_length b - 1)%nat) as [->|]; [|lia].
  rewrite (us_nul _ H) in Hc. congruence.
Qed.

Lemma wp_read p b c Q : content b !! p = Some c -> Q c b -> wp (read p) Q b.
Proof. intros Hc HQ. unfold wp, read. rewrite Hc. exact HQ. Qed.

Lemma wp_at i b c Q : content b !! (offset b + i)%nat = Some c -> Q c b -> wp (at_index i) Q b.
Proof. intros Hc HQ. unfold wp, at_index, read. rewrite Hc. exact HQ. Qed.

Lemma wp_next_is c b Q :
  usable b ->
  (forall r, (r = true -> content b !! offset b = Some c) -> Q r b) -> wp (next_is c) Q b.
Proof.
  intros Hu HQ. apply wp_bind, wp_gets. unfold can_access_at_index. rewrite Nat.add_0_r.
  pose proof (us_in _ Hu). destruct (Nat.ltb_spec (offset b) (buf_length b)); [|lia].
  destruct (lookup_text b (offset b) Hu) as [x Hx]; [assumption|].
  apply wp_bind. eapply wp_at; [rewrite Nat.add_0_r; exact Hx|]. apply wp_ret, HQ.
  intros E. apply Z.eqb_eq in E. congruence.
Qed.

Lemma wp_strncmp lit p b Q :
  (forall i, (i < length lit)%nat -> is_Some (content b !! (p + i)%nat)) ->
  (forall r, (r = true -> forall i c, lit !! i = Some c -> content b !! (p + i)%nat = Some c) ->
     Q r b) ->
  wp (strncmp_at p lit) Q b.
Proof.
  revert p; induction lit as [|c lit IH]; intros p Hm HQ; cbn [strncmp_at].
  { apply wp_ret, HQ. intros _ i c Hc. discriminate. }
  destruct (Hm 0%nat) as [x Hx]; [cbn; lia|]. rewrite Nat.add_0_r in Hx.
  apply wp_bind. eapply wp_read; [exact Hx|].
  destruct (Z.eqb_spec x c) as [->|].
  - apply IH.
    + intros i Hi. rewrite Nat.add_succ_comm. apply Hm. cbn. lia.
    + intros r Hr. apply HQ. intros E [|i] d Hd; [|cbn in Hd].
      * rewrite Nat.add_0_r. injection Hd as ->. exact Hx.
      * rewrite <- Nat.add_succ_comm. apply Hr; assumption.
  - apply wp_ret, HQ. discriminate.
Qed.

Lemma wp_starts_with lit b Q :
  usable b ->
  (forall r, (r = true -> forall i c, lit !! i = Some c -> content b !! (offset b + i)%nat = Some c) ->
     (r = true -> (offset b + length lit <= buf_length b)%nat) -> Q r b) ->
  wp (starts_with lit) Q b.
Proof.
  intros Hu HQ. apply wp_bind, wp_gets. unfold can_read.
  destruct (Nat.leb_spec (offset b + length lit) (buf_length b)) as [Hl|Hl].
  - apply wp_bind, wp_gets, wp_strncmp; [|auto]. intros i Hi.
    apply lookup_lt_is_Some_2. pose proof (us_mem _ Hu). lia.
  - apply wp_ret, HQ; discriminate.
Qed.

(** ** Strings *)

Lemma hex_digit_range c d : hex_digit c = Some d -> 0 <= d < 16.
Proof.
  unfold hex_digit. repeat case_match; intros [= <-]; zbool; unfold chr in *; cbn in *; lia.
Qed.

(** Four digits give a 16-bit number: [h] holds the digits read, shifted. *)
Lemma wp_hex4_loop n p h b (Q : Z -> parse_buffer -> Prop) :
  (forall i, (i < n)%nat -> is_Some (content b !! (p + i)%nat)) ->
  0 <= h -> (h + 16) * 16 ^ Z.of_nat (n - 1) <= 65535 + (if n is O then 16 else 1) ->
  (forall r, 0 <= r < 65536 -> Q r b) -> wp (hex4_loop n p h) Q b.
Proof.
  revert p h; induction n as [|n IH]; intros p h Hm H0 Hh HQ; cbn [hex4_loop].
  { apply wp_ret, HQ. cbn in Hh. lia. }
  destruct (Hm 0%nat) as [x Hx]; [lia|]. rewrite Nat.add_0_r in Hx.
  apply wp_bind. eapply wp_read; [exact Hx|].
  destruct (hex_digit x) as [d|] eqn:Ed; [|apply wp_ret, HQ; lia].
  apply hex_digit_range in Ed. apply IH; try assumption.
  - intros i Hi. rewrite Nat.add_succ_comm. apply Hm. lia.
  - destruct (0 <? n)%nat; [rewrite Z.shiftl_mul_pow2 by lia|]; lia.
  - cbn [Nat.sub] in Hh. rewrite Nat.sub_0_r in Hh. destruct n as [|n]; cbn [Nat.ltb Nat.leb].
    + cbn in *. lia.
    + rewrite Z.shiftl_mul_pow2 by lia. replace (S n - 1)%nat with n by lia.
      rewrite Nat2Z.inj_succ, Z.pow_succ_r in Hh by lia.
      assert (0 < 16 ^ Z.of_nat n) by (apply Z.pow_pos_nonneg; lia). nia.
Qed.

Lemma wp_parse_hex4 p b (Q : Z -> parse_buffer -> Prop) :
  (p + 4 <= length (content b))%nat -> (forall r, 0 <= r < 65536 -> Q r b) -> wp (parse_hex4 p) Q b.
Proof.
  intros Hp HQ. apply wp_hex4_loop; [|lia|cbn; lia|exact HQ].
  intros i Hi. apply lookup_lt_is_Some_2. lia.
Qed.

Lemma length_utf8_tail n c acc : length (snd (utf8_tail n c acc)) = (n + length acc)%nat.
Proof.
  revert c acc; induction n as [|n IH]; intros c acc; cbn; [reflexivity|]. rewrite IH. cbn. lia.
Qed.

Lemma length_utf8_encode c bs :
  utf8_encode c = Some bs -> (length bs <= if (c <? 65536)%Z then 3 else 4)%nat.
Proof.
  unfold utf8_encode.
  assert (forall n m x, (let '(c, t) := utf8_tail n c [] in Some (Z.land (Z.lor c m) 255 :: t)) = Some x ->
    length x = S n) as Henc.
  { intros n m x. pose proof (length_utf8_tail n c []) as Hl. destruct (utf8_tail n c []) as [c' t].
    intros [= <-]. cbn in *. lia. }
  destruct (Z.ltb_spec c 128); [intros [= <-]; destruct (c <? 65536); cbn; lia|].
  destruct (Z.ltb_spec c 2048); [intros ->%Henc; destruct (c <? 65536); lia|].
  destruct (Z.ltb_spec c 65536); [intros ->%Henc; lia|].
  destruct (c <=? 1114111); [intros ->%Henc; lia|discriminate].
Qed.

(** A literal that is converted lies before the closing quote and yields at most half
    as many bytes as it has. *)
Lemma wp_utf16 p e b (Q : option (nat * bytes) -> parse_buffer -> Prop) :
  (e <= length (content b))%nat -> Q None b ->
  (forall n bs, (n = 6 \/ n = 12)%nat -> (p + n <= e)%nat -> (2 * length bs <= n)%nat ->
     Q (Some (n, bs)) b) ->
  wp (utf16_literal_to_utf8 p e) Q b.
Proof.
  intros He HN HS. unfold utf16_literal_to_utf8.
  destruct (Nat.ltb_spec (e - p) 6); [exact HN|].
  apply wp_bind, wp_parse_hex4; [lia|]. intros first_code Hf.
  destruct (_ && _); [exact HN|]. destruct (_ && _).
  - destruct (Nat.ltb_spec (e - (p + 6)) 6); [exact HN|].
    destruct (lookup_lt_is_Some_2 (content b) (p + 6)) as [c0 Hc0]; [lia|].
    destruct (lookup_lt_is_Some_2 (content b) (p + 6 + 1)) as [c1 Hc1]; [lia|].
    apply wp_bind. eapply wp_read; [exact Hc0|]. destruct (negb _); [exact HN|].
    apply wp_bind. eapply wp_read; [exact Hc1|]. destruct (negb _); [exact HN|].
    apply wp_bind, wp_parse_hex4; [lia|]. intros second_code Hs.
    destruct (_ || _); [exact HN|]. apply wp_ret.
    destruct (utf8_encode _) as [bs|] eqn:Eu; [|exact HN].
    apply length_utf8_encode in Eu. apply HS; [auto|lia|]. destruct (_ <? 65536); lia.
  - apply wp_ret. destruct (utf8_encode _) as [bs|] eqn:Eu; [|exact HN].
    apply length_utf8_encode in Eu. apply HS; [auto|lia|].
    replace (first_code <? 65536) with true in Eu by (symmetry; apply Z.ltb_lt; lia). lia.
Qed.

(** The scan stops at a quote before the terminator and counts the escapes up to it. *)
Lemma wp_scan fuel s p k b (Q : option (nat * nat) -> parse_buffer -> Prop) :
  usable b -> (s <= p)%nat -> (buf_length b - p < fuel)%nat ->
  k = escapes (content b) s p -> state_after false (slice s p (content b)) = false ->
  Q None b ->
  (forall e, (p <= e)%nat -> (e + 1 < buf_length b)%nat -> content b !! e = Some quote ->
     state_after false (slice s e (content b)) = false ->
     Q (Some (e, escapes (content b) s e)) b) ->
  wp (scan_loop fuel p k) Q b.
Proof.
  intros Hu Hs Hf Hk Hst HN HS. revert p k Hs Hf Hk Hst HS.
  induction fuel as [|fuel IH]; intros p k Hs Hf Hk Hst HS; [lia|]. cbn [scan_loop].
  apply wp_bind, wp_gets. destruct (Nat.ltb_spec p (buf_length b)) as [Hp|Hp]; cbn [negb]; [|exact HN].
  destruct (lookup_text b p Hu Hp) as [c Hc]. apply wp_bind. eapply wp_read; [exact Hc|].
  destruct (Z.eqb_spec c quote) as [->|Hq].
  { subst k. apply wp_ret, HS; try assumption; try lia. eapply not_last; eauto. }
  destruct (Z.eqb_spec c backslash) as [->|Hb].
  - destruct (Nat.leb_spec (buf_length b) (p + 1)); [exact HN|].
    destruct (lookup_text b (p + 1) Hu) as [d Hd]; [assumption|].
    assert (slice s (p + 2) (content b) = slice s p (content b) ++ [backslash; d]) as Hsl
      by (rewrite (slice_split s p) by lia; f_equal; apply slice_two; assumption).
    apply IH; try lia.
    + subst k. unfold escapes. rewrite Hsl, count_app, Hst. cbn. rewrite andb_false_r. lia.
    + rewrite Hsl, state_after_app, Hst. cbn. rewrite andb_false_r. reflexivity.
    + intros e He. apply HS. lia.
  - apply IH; try lia.
    + subst k. symmetry. eapply escapes_plain; eauto.
    + rewrite (slice_split s p) by lia. rewrite (slice_one p _ c Hc), state_after_app, Hst. cbn.
      replace (c =? backslash) with false by (symmetry; apply Z.eqb_neq, Hb). reflexivity.
    + intros e He. apply HS. lia.
Qed.

(** The unescaping loop never leaves the block: before the quote, the bytes written are
    at most the characters read less the escapes the scan has counted among them. *)
Lemma wp_unescape fuel s p e cap out b (Q : bytes + nat -> parse_buffer -> Prop) :
  usable b -> (s <= p <= e + 1)%nat -> (e + 1 < buf_length b)%nat -> (e + 1 - p < fuel)%nat ->
  content b !! e = Some quote -> state_after false (slice s e (content b)) = false ->
  (length out + escapes (content b) s p <= p - s)%nat ->
  cap = (e - s + 2 - escapes (content b) s e)%nat ->
  (forall p', Q (inr p') b) ->
  (forall out', (length out' + 1 <= cap)%nat -> Q (inl out') b) ->
  wp (unescape_loop fuel p e cap out) Q b.
Proof.
  intros Hu Hs He Hf Hq Hst Hout Hcap HN HS.
  pose proof (us_mem _ Hu) as Hmem.
  assert (escapes (content b) s (e + 1) = escapes (content b) s e) as Hend.
  { destruct (Nat.le_gt_cases s e); [eapply escapes_plain; eauto; discriminate|].
    unfold escapes, slice. replace (e - s)%nat with 0%nat by lia.
    replace (e + 1 - s)%nat with 0%nat by lia. reflexivity. }
  assert (forall q, (s <= q <= e + 1)%nat ->
    (escapes (content b) s q <= escapes (content b) s (e + 1) <= escapes (content b) s q + (e + 1 - q))%nat)
    as Hmono by (intros q Hq'; apply escapes_le; lia).
  pose proof (Hmono s ltac:(lia)) as Hms.
  pose proof (escapes_nil (content b) s) as Hss.
  revert p out Hs Hf Hout. induction fuel as [|fuel IH]; intros p out Hs Hf Hout; [lia|].
  cbn [unescape_loop]. destruct (Nat.ltb_spec p e) as [Hpe|Hpe]; cbn [negb].
  2:{ apply wp_ret, HS. pose proof (Hmono p ltac:(lia)). lia. }
  destruct (lookup_text b p Hu) as [c Hc]; [lia|]. apply wp_bind. eapply wp_read; [exact Hc|].
  (* one turn that writes [bs] and moves by [n] *)
  assert (forall n bs, (1 <= n)%nat -> (p + n <= e + 1)%nat ->
    (length bs + escapes (content b) s (p + n) <= n + escapes (content b) s p)%nat ->
    wp (bind (put cap out bs) (fun o => unescape_loop fuel (p + n) e cap o)) Q b) as Hturn.
  { intros n bs Hn Hpn Hbs. pose proof (Hmono (p + n)%nat ltac:(lia)).
    apply wp_bind. unfold put.
    replace (length out + length bs <=? cap)%nat with true by (symmetry; apply Nat.leb_le; lia).
    apply wp_ret, IH; [lia|lia|]. rewrite length_app. lia. }
  destruct (Z.eqb_spec c backslash) as [->|Hb]; cbn [negb].
  - destruct (lookup_text b (p + 1) Hu) as [c1 Hc1]; [lia|].
    apply wp_bind. eapply wp_read; [exact Hc1|]. destruct (unescape c1) as [x|].
    + apply Hturn; [lia|lia|]. pose proof (escapes_half (content b) s p 2 ltac:(lia)). cbn. lia.
    + destruct (negb _); [apply HN|]. apply wp_bind, wp_utf16; [lia|apply HN|].
      intros n bs Hn Hpn Hbs. apply Hturn; [lia|lia|].
      pose proof (escapes_half (content b) s p n ltac:(lia)). lia.
  - apply Hturn; [lia|lia|]. rewrite (escapes_plain _ s p c) by (assumption || lia). cbn. lia.
Qed.

Section Safe.
Context (can_alloc : nat -> nat -> bool).

Lemma wp_allocate size b (Q : bool -> parse_buffer -> Prop) :
  (forall r, Q r (set_allocs (S (allocs b)) b)) -> wp (allocate can_alloc size) Q b.
Proof. intros HQ. apply wp_bind, wp_gets, wp_bind, wp_modify, wp_ret, HQ. Qed.

Lemma usable_allocs b n : usable b -> usable (set_allocs n b).
Proof. intros [H1 H2 H3]. split; assumption. Qed.

Lemma wp_parse_string item b :
  usable b -> wp (parse_string can_alloc item) (progress b) b.
Proof.
  intros Hu. pose proof (us_in _ Hu) as Hin.
  assert (forall p b' (Q : option cJSON -> parse_buffer -> Prop), same_text b b' ->
    (forall b'', same_text b b'' -> Q None b'') ->
    wp (bind (modify (set_offset p)) (fun _ => ret None)) Q b') as Hfail.
  { intros p b' Q Hs HQ. apply wp_bind, wp_modify, wp_ret, HQ. exact Hs. }
  assert (forall b', same_text b b' -> progress b (@None cJSON) b') as Hnone.
  { intros b' Hs. split; [exact Hs|]. intros [x Hx]. discriminate. }
  apply wp_bind, wp_gets. destruct (lookup_text b (offset b) Hu Hin) as [c Hc].
  apply wp_bind. eapply wp_at; [rewrite Nat.add_0_r; exact Hc|].
  destruct (negb (c =? quote)); [apply Hfail; [split; reflexivity|exact Hnone]|].
  apply wp_bind, wp_gets, wp_bind. apply (wp_scan _ (offset b + 1)); [exact Hu|lia|lia| | | |].
  - rewrite escapes_nil. reflexivity.
  - unfold slice. rewrite Nat.sub_diag. reflexivity.
  - apply Hfail; [split; reflexivity|exact Hnone].
  - intros e He He1 Hq Hst. apply wp_bind, wp_allocate. intros [|]; cbn [negb].
    2:{ apply Hfail; [split; reflexivity|exact Hnone]. }
    apply wp_bind. set (b1 := set_allocs _ b).
    apply (wp_unescape _ (offset b + 1)); [apply usable_allocs, Hu|lia|exact He1|cbn; lia|exact Hq
      |exact Hst| | | |].
    + rewrite escapes_nil. cbn. lia.
    + cbn [content b1 set_allocs]. pose proof (escapes_half (content b) (offset b + 1) (offset b + 1)
        (e - (offset b + 1)) ltac:(lia)) as Hh.
      replace (offset b + 1 + (e - (offset b + 1)))%nat with e in Hh by lia.
      rewrite escapes_nil in Hh. lia.
    + intros p. apply Hfail; [split; reflexivity|exact Hnone].
    + intros out Hout. apply wp_bind. unfold put.
      replace (length out + length [0] <=? _)%nat with true by (symmetry; apply Nat.leb_le; cbn; lia).
      apply wp_ret, wp_bind, wp_modify, wp_ret. split; [split; reflexivity|]. intros _.
      split; [apply usable_move; [apply usable_allocs, Hu|exact He1]|]. split; [reflexivity|].
      cbn. lia.
Qed.

(** ** Numbers *)

Lemma length_digits s : (length (digits s) <= length s)%nat.
Proof. induction s as [|c s IH]; cbn; [lia|]. destruct (is_digit c); cbn; lia. Qed.

Lemma exponent_length s : (snd (exponent s) <= length s)%nat.
Proof.
  destruct s as [|c s]; cbn; [lia|]. destruct (_ || _); [|cbn; lia].
  assert (snd (sign s) <= length s)%nat as Hs.
  { destruct s as [|d s]; cbn; [lia|]. repeat case_match; cbn; lia. }
  destruct (sign s) as [neg k]. cbn in Hs. case_bool_decide; cbn; [lia|].
  pose proof (length_digits (drop k s)). rewrite length_drop in *. lia.
Qed.

Lemma strtod_length s : (snd (strtod s) <= length s)%nat.
Proof.
  unfold strtod.
  assert (snd (sign s) <= length s)%nat as Hs.
  { destruct s as [|d s]; cbn; [lia|]. repeat case_match; cbn; lia. }
  destruct (sign s) as [neg k]. cbn in Hs.
  pose proof (length_digits (drop k s)) as Hi. rewrite length_drop in Hi.
  set (ip := digits (drop k s)) in *. set (s1 := drop (k + length ip) s).
  assert (length s1 = length s - (k + length ip))%nat as H1 by (unfold s1; rewrite length_drop; lia).
  set (fp := match s1 with [] => _ | _ => _ end).
  set (dot := match s1 with [] => 0%nat | _ => _ end).
  assert (dot + length fp <= length s1)%nat as Hf.
  { unfold fp, dot. destruct s1 as [|c s2]; cbn; [lia|]. destruct (c =? chr ".").
    - pose proof (length_digits s2). lia.
    - cbn. lia. }
  case_bool_decide; [cbn; lia|].
  pose proof (exponent_length (drop (k + length ip + dot + length fp) s)) as He.
  destruct (exponent _) as [e ne]. cbn in *. rewrite length_drop in He. lia.
Qed.

(** The characters copied lie inside the buffer and are not NUL. *)
Lemma wp_number_chars n i b (Q : bytes -> parse_buffer -> Prop) :
  usable b -> (forall s, length s = 0%nat \/ (offset b + i + length s < buf_length b)%nat -> Q s b) ->
  wp (number_chars n i) Q b.
Proof.
  intros Hu. revert i Q; induction n as [|n IH]; intros i Q HQ; cbn [number_chars].
  { apply wp_ret, HQ. auto. }
  apply wp_bind, wp_gets. unfold can_access_at_index.
  destruct (Nat.ltb_spec (offset b + i) (buf_length b)) as [Hi|Hi]; cbn [negb]; [|apply wp_ret, HQ; auto].
  destruct (lookup_text b _ Hu Hi) as [c Hc]. apply wp_bind. eapply wp_at; [exact Hc|].
  destruct (is_number_char c) eqn:En; [|apply wp_ret, HQ; auto].
  assert (offset b + i + 1 < buf_length b)%nat by (eapply not_last; eauto; intros ->; discriminate).
  apply wp_bind, IH. intros s Hs. apply wp_ret, HQ. right. cbn. lia.
Qed.

Lemma wp_parse_number item b : usable b -> wp (parse_number item) (progress b) b.
Proof.
  intros Hu. apply wp_bind, wp_number_chars; [exact Hu|]. intros s Hs.
  pose proof (strtod_length s) as Hn. destruct (strtod s) as [number n]. cbn in Hn.
  destruct (Nat.eqb_spec n 0) as [->|Hn0].
  { apply wp_ret. split; [split; reflexivity|]. intros [x Hx]. discriminate. }
  apply wp_bind, wp_modify, wp_ret. split; [split; reflexivity|]. intros _.
  split; [apply usable_move; [exact Hu|lia]|]. split; [reflexivity|]. cbn. lia.
Qed.

(** ** Whitespace *)

Lemma wp_whitespace_loop fuel b (Q : unit -> parse_buffer -> Prop) :
  (buf_length b <= length (content b))%nat -> (offset b <= buf_length b)%nat ->
  (buf_length b - offset b < fuel)%nat ->
  (forall n, (offset b <= n <= buf_length b)%nat -> Q tt (set_offset n b)) ->
  wp (whitespace_loop fuel) Q b.
Proof.
  intros Hm. revert b Hm Q. induction fuel as [|fuel IH]; intros b Hm Q Ho Hf HQ; [lia|].
  assert (Q tt b) as Hstop.
  { replace b with (set_offset (offset b) b) by (destruct b; reflexivity). apply HQ. lia. }
  cbn [whitespace_loop]. apply wp_bind, wp_gets. unfold can_access_at_index. rewrite Nat.add_0_r.
  destruct (Nat.ltb_spec (offset b) (buf_length b)) as [Hi|Hi]; cbn [negb]; [|exact Hstop].
  destruct (lookup_lt_is_Some_2 (content b) (offset b)) as [c Hc]; [lia|].
  apply wp_bind. eapply wp_at; [rewrite Nat.add_0_r; exact Hc|].
  destruct (c <=? 32); [|exact Hstop].
  apply wp_bind, wp_modify, IH; cbn; try lia. intros n Hn. apply (HQ n). lia.
Qed.

Lemma wp_skip b (Q : unit -> parse_buffer -> Prop) :
  usable b ->
  (forall n, (offset b <= n < buf_length b)%nat -> Q tt (set_offset n b)) ->
  wp buffer_skip_whitespace Q b.
Proof.
  intros Hu HQ. pose proof (us_in _ Hu). pose proof (us_mem _ Hu).
  apply wp_bind, wp_gets. unfold can_access_at_index. rewrite Nat.add_0_r.
  destruct (Nat.ltb_spec (offset b) (buf_length b)); [|lia]. cbn [negb].
  apply wp_bind, wp_gets, wp_bind, wp_whitespace_loop; try lia. intros n Hn.
  apply wp_bind, wp_gets. cbn [offset buf_length set_offset].
  apply wp_when; intros E.
  - apply Nat.eqb_eq in E. apply wp_modify.
    apply (HQ (n - 1)%nat). lia.
  - apply Nat.eqb_neq in E. apply HQ. lia.
Qed.

(** ** Containers *)

Lemma progress_none {A} b b' : same_text b b' -> progress b (@None A) b'.
Proof. intros Hs. split; [exact Hs|]. intros [x Hx]. discriminate. Qed.

(** Steps compose: [b1] lies between [b] and the start of the second step. *)
Lemma progress_from {A} b b1 (r : option A) b' :
  same_text b b1 -> depth b1 = depth b -> (offset b <= offset b1)%nat ->
  progress b1 r b' -> progress b r b'.
Proof.
  intros Hs Hd Ho [Hs' H]. split; [eapply same_text_trans; eassumption|].
  intros Hr. destruct (H Hr) as (Hu & Hd' & Ho'). split; [exact Hu|]. split; [congruence|lia].
Qed.

(** What an element is parsed with at depth [d]. *)
Definition steps_at (d : nat) (one : M parse_buffer (option cJSON)) : Prop :=
  forall b, usable b -> (offset b + 1 < buf_length b)%nat -> depth b = d -> wp one (progress b) b.

Lemma wp_advance_skip b (Q : unit -> parse_buffer -> Prop) :
  usable b -> (offset b + 1 < buf_length b)%nat ->
  (forall n, (offset b + 1 <= n < buf_length b)%nat -> Q tt (set_offset n b)) ->
  wp (bind (advance 1) (fun _ => buffer_skip_whitespace)) Q b.
Proof.
  intros Hu Hl HQ. apply wp_bind, wp_modify, wp_skip; [apply usable_move; [exact Hu|lia]|].
  cbn. intros n Hn. apply (HQ n). lia.
Qed.

(** [c] first, then [k]. *)
Lemma wp_seq {A B} (c : M parse_buffer A) (d : A -> M parse_buffer unit) (k : M parse_buffer B) Q b :
  wp (bind c d) (fun _ b' => wp k Q b') b -> wp (bind c (fun a => bind (d a) (fun _ => k))) Q b.
Proof. unfold wp, bind. destruct (c b) as [[a b']|f]; [|auto]. destruct (d a b') as [[[] b'']|f]; auto. Qed.

Section Elements.
Context (parse_elem : cJSON -> M parse_buffer (option cJSON)) (d : nat).
Hypothesis elem_safe : forall item b, usable b -> depth b = d -> wp (parse_elem item) (progress b) b.

Lemma element_safe : steps_at d (parse_element can_alloc parse_elem).
Proof.
  intros b Hu Hl Hd. apply wp_bind, wp_bind, wp_allocate. intros [|]; apply wp_ret.
  2:{ apply wp_ret, progress_none. split; reflexivity. }
  apply wp_seq, wp_advance_skip; [apply usable_allocs, Hu|exact Hl|]. cbn. intros n Hn.
  eapply wp_mono; [apply elem_safe; [|exact Hd]|].
  - apply usable_move; [apply usable_allocs, Hu|cbn; lia].
  - intros r b' Hr. eapply progress_from; [| | |exact Hr]; [split; reflexivity|reflexivity|cbn; lia].
Qed.

Lemma member_safe : steps_at d (parse_member can_alloc parse_elem).
Proof.
  intros b Hu Hl Hd. apply wp_bind, wp_bind, wp_allocate. intros [|]; apply wp_ret.
  2:{ apply wp_ret, progress_none. split; reflexivity. }
  apply wp_seq, wp_advance_skip; [apply usable_allocs, Hu|exact Hl|]. cbn. intros n Hn.
  apply wp_bind. eapply wp_mono; [apply wp_parse_string, usable_move; [apply usable_allocs, Hu|cbn; lia]|].
  intros [item|] b1 [Hs1 H1]; [|apply wp_ret, progress_none, Hs1].
  destruct (H1 ltac:(eauto)) as (Hu1 & Hd1 & Ho1). cbn in Hd1, Ho1.
  apply wp_bind, wp_skip; [exact Hu1|]. intros n2 Hn2.
  assert (usable (set_offset n2 b1)) as Hu2 by (apply usable_move; [exact Hu1|lia]).
  apply wp_bind, wp_next_is; [exact Hu2|]. intros [|] Hcolon; cbn [negb].
  2:{ apply wp_ret, progress_none, Hs1. }
  assert (n2 + 1 < buf_length b1)%nat as Hl2
    by (eapply (not_last (set_offset n2 b1)); [exact Hu2|apply Hcolon; reflexivity|discriminate|cbn; lia]).
  apply wp_seq, wp_advance_skip; [exact Hu2|exact Hl2|]. cbn. intros n3 Hn3.
  eapply wp_mono; [apply elem_safe; [|cbn; congruence]|].
  - apply usable_move; [exact Hu2|cbn; lia].
  - intros r b' Hr. eapply progress_from; [| | |exact Hr]; [exact Hs1|exact Hd1|cbn; lia].
Qed.

End Elements.

Lemma wp_elements_loop fuel d one acc b :
  steps_at d one -> usable b -> (offset b + 1 < buf_length b)%nat -> depth b = d ->
  (buf_length b - offset b < fuel)%nat ->
  wp (elements_loop fuel one acc) (progress b) b.
Proof.
  intros Hone. revert acc b; induction fuel as [|fuel IH]; intros acc b Hu Hl Hd Hf; [lia|].
  cbn [elements_loop]. apply wp_bind. eapply wp_mono; [apply Hone; assumption|].
  intros [x|] b1 [Hs1 H1]; [|apply wp_ret, progress_none, Hs1].
  destruct (H1 ltac:(eauto)) as (Hu1 & Hd1 & Ho1). destruct (Hs1) as [_ Hlen].
  apply wp_bind, wp_skip; [exact Hu1|]. intros n Hn.
  assert (usable (set_offset n b1)) as Hu2 by (apply usable_move; [exact Hu1|lia]).
  apply wp_bind, wp_next_is; [exact Hu2|]. intros [|] Hc.
  - assert (n + 1 < buf_length b1)%nat as Hl2
      by (eapply (not_last (set_offset n b1)); [exact Hu2|apply Hc; reflexivity|discriminate|cbn; lia]).
    eapply wp_mono; [apply IH; [exact Hu2|exact Hl2|cbn; congruence|cbn; lia]|].
    intros r b' Hr. eapply progress_from; [| | |exact Hr]; [exact Hs1|exact Hd1|cbn; lia].
  - apply wp_ret. split; [exact Hs1|]. intros _. split; [exact Hu2|]. split; [exact Hd1|cbn; lia].
Qed.

(** From just after the opening bracket has been seen. *)
Lemma wp_container close ty one item b :
  steps_at (depth b) one -> usable b -> (offset b + 1 < buf_length b)%nat -> close <> 0 ->
  wp (parse_container close ty one item)
     (fun r b' => same_text b b' /\ (is_Some r -> usable b' /\ depth b' = (depth b - 1)%nat /\
        (offset b < offset b')%nat)) b.
Proof.
  intros Hone Hu Hl Hclose. apply wp_seq, wp_advance_skip; [exact Hu|exact Hl|]. intros n Hn.
  assert (usable (set_offset n b)) as Hu1 by (apply usable_move; [exact Hu|lia]).
  assert (forall l b1, same_text b b1 -> usable b1 -> depth b1 = depth b -> (offset b <= offset b1)%nat ->
    content b1 !! offset b1 = Some close ->
    wp (bind (modify (fun b => set_depth (depth b - 1) b)) (fun _ => bind (advance 1) (fun _ =>
          ret (Some (set_child l (set_type ty item))))))
      (fun r b' => same_text b b' /\ (is_Some r -> usable b' /\ depth b' = (depth b - 1)%nat /\
        (offset b < offset b')%nat)) b1) as Hsucc.
  { intros l b1 Hs Hub Hd Ho Hc. apply wp_bind, wp_modify, wp_bind, wp_modify, wp_ret. cbn.
    split; [exact Hs|]. intros _. assert (offset b1 + 1 < buf_length b1)%nat
      by (eapply not_last; eauto; apply us_in, Hub).
    split; [destruct Hub; split; cbn; try assumption; lia|]. split; [congruence|lia]. }
  apply wp_bind, wp_next_is; [exact Hu1|]. intros [|] Hc.
  { apply Hsucc; [split; reflexivity|exact Hu1|reflexivity|cbn; lia|apply Hc; reflexivity]. }
  apply wp_bind, wp_gets. unfold can_access_at_index. cbn [offset buf_length set_offset].
  rewrite Nat.add_0_r. destruct (Nat.ltb_spec n (buf_length b)); [|lia]. cbn [negb].
  apply wp_bind, wp_modify, wp_bind, wp_gets, wp_bind.
  eapply wp_mono; [apply (wp_elements_loop _ (depth b)); [exact Hone|..]|].
  - cbn. apply (usable_move (set_offset n b)); [exact Hu1|cbn; lia].
  - cbn. lia.
  - reflexivity.
  - cbn. lia.
  - intros [l|] b1 [Hs1 H1]; [|apply wp_ret; split; [exact Hs1|intros [? ?]; discriminate]].
    destruct (H1 ltac:(eauto)) as (Hu2 & Hd2 & Ho2). cbn in Hd2, Ho2.
    apply wp_bind, wp_next_is; [exact Hu2|]. intros [|] Hc2.
    + apply Hsucc; [exact Hs1|exact Hu2|exact Hd2|lia|apply Hc2; reflexivity].
    + apply wp_ret. split; [exact Hs1|]. intros [? ?]. discriminate.
Qed.

(** ** Values *)

Lemma wp_literal lit n f b (k : M parse_buffer (option cJSON)) :
  usable b -> length lit = n -> (exists c, last lit = Some c /\ c <> 0) ->
  wp k (progress b) b ->
  wp (bind (starts_with lit) (fun x => if x then bind (advance n) (fun _ => ret (Some f)) else k))
     (progress b) b.
Proof.
  intros Hu Hn (c & Hlast & Hc) Hk. apply wp_bind, wp_starts_with; [exact Hu|].
  intros [|] Hlit Hlen; [|exact Hk]. specialize (Hlit eq_refl). specialize (Hlen eq_refl).
  rewrite last_lookup in Hlast. assert (0 < n)%nat by (destruct lit; cbn in *; [discriminate|lia]).
  assert (offset b + n < buf_length b)%nat as Hin.
  { pose proof (not_last b (offset b + pred (length lit)) c Hu (Hlit _ _ Hlast) Hc ltac:(lia)). lia. }
  apply wp_bind, wp_modify, wp_ret. split; [split; reflexivity|]. intros _.
  split; [apply usable_move; [exact Hu|exact Hin]|]. split; [reflexivity|cbn; lia].
Qed.

(** With [fuel] left at depth [d], the nesting limit is met before the fuel ends. *)
Definition deep_enough (fuel d : nat) : Prop :=
  (d <= CJSON_NESTING_LIMIT < fuel + d)%nat.

Lemma wp_array fuel item b :
  (forall item b, usable b -> deep_enough fuel (depth b) ->
     wp (parse_value can_alloc fuel item) (progress b) b) ->
  usable b -> content b !! offset b = Some (chr "[") -> deep_enough (S fuel) (depth b) ->
  wp (parse_array can_alloc (parse_value can_alloc fuel) item) (progress b) b.
Proof.
  intros IH Hu Hc Hd. apply wp_bind, wp_gets.
  destruct (Nat.leb_spec CJSON_NESTING_LIMIT (depth b)).
  { apply wp_ret, progress_none. split; reflexivity. }
  apply wp_bind, wp_modify, wp_bind. eapply wp_at; [rewrite Nat.add_0_r; exact Hc|].
  rewrite Z.eqb_refl. cbn [negb].
  eapply wp_mono; [apply wp_container|].
  - apply element_safe. intros i b' Hu' Hd'. apply IH; [exact Hu'|]. rewrite Hd'.
    cbn. unfold deep_enough in *. lia.
  - destruct Hu; split; assumption.
  - cbn. eapply not_last; [exact Hu|exact Hc|discriminate|apply us_in, Hu].
  - discriminate.
  - cbn. intros r b' [Hs H1]. split; [exact Hs|]. intros Hr. destruct (H1 Hr) as (? & Hd' & ?).
    split; [assumption|]. split; [lia|assumption].
Qed.

Lemma wp_object fuel item b :
  (forall item b, usable b -> deep_enough fuel (depth b) ->
     wp (parse_value can_alloc fuel item) (progress b) b) ->
  usable b -> deep_enough (S fuel) (depth b) ->
  wp (parse_object can_alloc (parse_value can_alloc fuel) item) (progress b) b.
Proof.
  intros IH Hu Hd. apply wp_bind, wp_gets.
  destruct (Nat.leb_spec CJSON_NESTING_LIMIT (depth b)).
  { apply wp_ret, progress_none. split; reflexivity. }
  set (b1 := set_depth (S (depth b)) b).
  assert (usable b1) as Hu1 by (destruct Hu; split; assumption).
  apply wp_bind, wp_modify, wp_bind, wp_next_is; [exact Hu1|]. intros [|] Hc; cbn [negb].
  2:{ apply wp_ret, progress_none. split; reflexivity. }
  eapply wp_mono; [apply (wp_container _ _ _ _ b1)|].
  - apply member_safe. intros i b' Hu' Hd'. apply IH; [exact Hu'|]. rewrite Hd'.
    cbn. unfold deep_enough in *. lia.
  - exact Hu1.
  - eapply not_last; [exact Hu1|apply Hc; reflexivity|discriminate|apply us_in, Hu1].
  - discriminate.
  - cbn. intros r b' [Hs H1]. split; [exact Hs|]. intros Hr. destruct (H1 Hr) as (? & Hd' & ?).
    split; [assumption|]. split; [lia|assumption].
Qed.

Lemma wp_parse_value fuel item b :
  usable b -> deep_enough fuel (depth b) -> wp (parse_value can_alloc fuel item) (progress b) b.
Proof.
  revert item b; induction fuel as [|fuel IH]; intros item b Hu Hd; [unfold deep_enough in Hd; lia|].
  cbn [parse_value].
  apply wp_literal; [exact Hu|reflexivity|eexists; split; [reflexivity|discriminate]|].
  apply wp_literal; [exact Hu|reflexivity|eexists; split; [reflexivity|discriminate]|].
  apply wp_literal; [exact Hu|reflexivity|eexists; split; [reflexivity|discriminate]|].
  apply wp_bind, wp_next_is; [exact Hu|]. intros [|] _; [apply wp_parse_string, Hu|].
  apply wp_bind, wp_next_is; [exact Hu|]. intros minus _.
  pose proof (us_in _ Hu) as Hin. destruct (lookup_text b _ Hu Hin) as [c Hc].
  apply wp_bind, wp_bind, wp_gets. unfold can_access_at_index at 1. rewrite Nat.add_0_r.
  destruct (Nat.ltb_spec (offset b) (buf_length b)); [|lia].
  apply wp_bind. eapply wp_at; [rewrite Nat.add_0_r; exact Hc|]. apply wp_ret.
  destruct (_ || _); [apply wp_parse_number, Hu|].
  apply wp_bind, wp_next_is; [exact Hu|]. intros [|] Harr.
  { apply wp_array; auto. }
  apply wp_bind, wp_next_is; [exact Hu|]. intros [|] _; [apply wp_object; auto|].
  apply wp_ret, progress_none. split; reflexivity.
Qed.

(** ** The whole text *)

Lemma wp_bom b (Q : unit -> parse_buffer -> Prop) :
  usable b -> (forall n, (offset b <= n < buf_length b)%nat -> Q tt (set_offset n b)) ->
  wp skip_utf8_bom Q b.
Proof.
  intros Hu HQ. pose proof (us_in _ Hu). pose proof (us_mem _ Hu).
  assert (Q tt b) as Hstop.
  { replace b with (set_offset (offset b) b) by (destruct b; reflexivity). apply HQ. lia. }
  apply wp_bind, wp_gets. unfold can_access_at_index.
  destruct (Nat.ltb_spec (offset b + 4) (buf_length b)); cbn [negb]; [|exact Hstop].
  apply wp_bind, wp_gets, wp_bind, wp_strncmp.
  - intros i Hi. apply lookup_lt_is_Some_2. cbn in Hi. lia.
  - intros r _. apply wp_when; intros _; [|exact Hstop]. apply wp_modify, HQ. lia.
Qed.

Lemma wp_parse_body req b :
  usable b -> depth b = 0%nat ->
  wp (parse_body can_alloc req) (fun r b' => same_text b b' /\ (is_Some r -> usable b')) b.
Proof.
  intros Hu Hd. apply wp_bind, wp_bind, wp_allocate. intros [|]; apply wp_ret.
  2:{ apply wp_ret. split; [split; reflexivity|]. intros [? ?]. discriminate. }
  set (b0 := set_allocs _ b). assert (usable b0) as Hu0 by apply usable_allocs, Hu.
  apply wp_bind, wp_bom; [exact Hu0|]. intros n Hn.
  apply wp_bind, wp_skip; [apply usable_move; [exact Hu0|lia]|]. intros n' Hn'. cbn in Hn'.
  apply wp_bind. eapply wp_mono; [apply wp_parse_value|].
  - apply usable_move; [apply usable_move; [exact Hu0|lia]|exact (proj2 Hn')].
  - cbn. rewrite Hd. unfold deep_enough, nesting_fuel. lia.
  - intros [item|] b1 [Hs H1]; [|apply wp_ret; split; [exact Hs|intros [? ?]; discriminate]].
    destruct (H1 ltac:(eauto)) as (Hu1 & _ & _).
    destruct req; [|apply wp_ret; auto].
    apply wp_bind, wp_skip; [exact Hu1|]. intros m Hm.
    apply wp_bind, wp_gets, wp_bind, wp_gets. cbn [offset buf_length set_offset].
    destruct (Nat.leb_spec (buf_length b1) m); [lia|].
    assert (usable (set_offset m b1)) as Hu2 by (apply usable_move; [exact Hu1|lia]).
    destruct (lookup_text b1 m Hu1) as [c Hc]; [lia|].
    apply wp_bind. eapply wp_at; [cbn; rewrite Nat.add_0_r; exact Hc|]. apply wp_ret.
    split; [exact Hs|]. intros _. exact Hu2.
Qed.

Lemma c_str_lookup m : has_nul m = true -> m !! length (c_str m) = Some 0.
Proof.
  induction m as [|c m IH]; cbn; [discriminate|]. destruct (Z.eqb_spec c 0) as [->|]; [reflexivity|].
  exact IH.
Qed.

End Safe.

(** C12: Parsing a NUL-terminated text is safe and total, whatever the text is and
    whichever allocations fail: no byte outside the text and its terminator is read, no
    byte outside a block allocated for a string is written, all loops and the recursion
    end within the nesting limit; the parse ends inside the text, and an error position
    is reported exactly when there is no result. *)
Theorem parse_safe can_alloc mem req :
  has_nul mem = true ->
  exists r e, cJSON_ParseWithOpts can_alloc (Some mem) req = Done r /\
    parse_end r = Some e /\ (e <= length (c_str mem))%nat /\
    (parsed r = None <-> global_error r = Some e) /\
    (is_Some (parsed r) <-> global_error r = None).
Proof.
  intros Hn. unfold cJSON_ParseWithOpts. rewrite Hn. unfold cJSON_ParseWithLengthOpts.
  rewrite Nat.add_1_r. cbn [Nat.eqb]. set (b := Build_parse_buffer _ _ _ _ _).
  pose proof (c_str_lookup mem Hn) as Hl.
  assert (usable b) as Hu.
  { split; cbn; [apply lookup_lt_Some in Hl; lia|rewrite Nat.sub_0_r; exact Hl|lia]. }
  pose proof (wp_parse_body can_alloc req b Hu eq_refl) as Hwp.
  destruct (proj1 (wp_Done _ _ _) Hwp) as (r & b' & -> & [_ Hlen] & Hr).
  destruct r as [item|].
  - destruct (Hr ltac:(eauto)) as [_ _ Hin]. rewrite Hlen in Hin. cbn in Hin.
    eexists _, _. split; [reflexivity|]. cbn. split; [reflexivity|]. split; [lia|].
    split; split; intros; try discriminate; eauto.
  - eexists _, _. split; [reflexivity|]. cbn. split; [reflexivity|]. rewrite Hlen. cbn.
    split; [destruct (Nat.leb_spec (offset b') (length (c_str mem))); lia|].
    split; split; intros; try discriminate; eauto. destruct H. discriminate.
Qed.

(** An object in a text of 7 characters, the last of which is a comma. *)
Definition unfinished : bytes := [chr "{"; quote; chr "a"; quote; chr ":"; chr "1"; chr ","].

Lemma parse_safe_witness :
  exists r e, cJSON_ParseWithOpts (fun n _ => (n <? 3)%nat) (Some (unfinished ++ [0])) true = Done r /\
    parse_end r = Some e /\ (e <= length (c_str (unfinished ++ [0%Z])))%nat /\
    (parsed r = None <-> global_error r = Some e) /\
    (is_Some (parsed r) <-> global_error r = None).
Proof. apply parse_safe. reflexivity. Defined.

(** Without a terminator the parser can read past its buffer: after a comma that ends
    the buffer, [parse_object] looks for the next name without checking that there is a
    character left. *)
Lemma unfinished_object_overread :
  cJSON_ParseWithLength (fun _ _ => true) (Some unfinished) (length unfinished) = Fault OutOfBounds.
Proof. vm_compute. reflexivity. Qed.

End JsonSafe.
