(* ===== verification/JsonNum.v ===== *)
(** * Integers in JSON texts

    An integer of at most 15 digits is printed as its decimal digits, read back as the
    same double and converted to [int] without loss when it fits. *)

From Stdlib Require Import ZArith Lia SpecFloat Ascii.
From stdpp Require Import base numbers list strings.
From S2P Require Import Prelude DoubleArith Json JsonPrint.
Open Scope Z_scope.

Module JsonNum.
Import JsonPrint.

(** ** Decimal digits *)

(** [k] is the number of digits of [n]. *)
Definition has_digits (k : nat) (n : Z) : Prop :=
  (0 < k)%nat /\ 10 ^ (Z.of_nat k - 1) <= n < 10 ^ Z.of_nat k.

Lemma pow10_pos k : 0 <= k -> 0 < 10 ^ k.
Proof. intros. apply Z.pow_pos_nonneg; lia. Qed.

Lemma has_digits_div k n : (1 < k)%nat -> has_digits k n -> has_digits (k - 1) (n / 10).
Proof.
  intros Hk [_ [H1 H2]]. split; [lia|].
  replace (Z.of_nat (k - 1)) with (Z.of_nat k - 1) by lia. split.
  - apply Z.div_le_lower_bound; [lia|]. rewrite <- Z.pow_succ_r by lia.
    replace (Z.succ (Z.of_nat k - 1 - 1)) with (Z.of_nat k - 1) by lia. exact H1.
  - apply Z.div_lt_upper_bound; [lia|]. rewrite <- Z.pow_succ_r by lia.
    replace (Z.succ (Z.of_nat k - 1)) with (Z.of_nat k) by lia. exact H2.
Qed.

Lemma num_digits_spec fuel k n : has_digits k n -> (k < fuel)%nat -> num_digits fuel n = k.
Proof.
  revert k n; induction fuel as [|fuel IH]; intros k n Hd Hf; [lia|]. cbn [num_digits].
  pose proof Hd as [Hk [H1 H2]]. pose proof (pow10_pos (Z.of_nat k - 1) ltac:(lia)).
  destruct (Z.eqb_spec n 0) as [->|]; [lia|].
  destruct (Nat.eq_dec k 1%nat) as [->|Hk1].
  - replace (n / 10) with 0 by (symmetry; apply Z.div_small; cbn in H2; lia).
    destruct fuel; [lia|]. reflexivity.
  - rewrite (IH (k - 1)%nat); [lia|apply has_digits_div; [lia|exact Hd]|lia].
Qed.

(** Every positive number below [10 ^ m] has at most [m] digits. *)
Lemma has_digits_ex m n : 1 <= n < 10 ^ Z.of_nat m -> exists k, has_digits k n /\ (k <= m)%nat.
Proof.
  induction m as [|m IH]; intros [H1 H2]; [cbn in H2; lia|].
  destruct (Z.ltb_spec n (10 ^ Z.of_nat m)) as [H|H].
  - destruct IH as (k & Hk & Hm); [lia|]. exists k. split; [exact Hk|lia].
  - exists (S m). split; [|lia]. split; [lia|].
    replace (Z.of_nat (S m) - 1) with (Z.of_nat m) by lia. lia.
Qed.

Lemma length_dec_digits k n : length (dec_digits k n) = k.
Proof. revert n; induction k; intros n; cbn; [reflexivity|]. rewrite length_app, IHk. cbn. lia. Qed.

Lemma is_digit_spec d : 0 <= d < 10 -> is_digit (chr "0" + d) = true.
Proof.
  intros H. unfold is_digit. apply andb_true_iff. rewrite !Z.leb_le.
  change (chr "0") with 48. change (chr "9") with 57. lia.
Qed.

Lemma dec_digits_are_digits k n : Forall (fun c => is_digit c = true) (dec_digits k n).
Proof.
  revert n; induction k as [|k IH]; intros n; cbn; [constructor|]. apply Forall_app. split; [apply IH|].
  constructor; [|constructor]. apply is_digit_spec, Z.mod_pos_bound. lia.
Qed.

Lemma digits_all s rest :
  Forall (fun c => is_digit c = true) s -> (head rest = None \/ exists c, head rest = Some c /\ is_digit c = false) ->
  digits (s ++ rest) = s.
Proof.
  intros Hs Hr. induction Hs as [|c s Hc Hs IH]; cbn.
  - destruct rest as [|c rest]; [reflexivity|]. destruct Hr as [Hr|(d & [= ->] & Hd)]; [discriminate|].
    cbn. rewrite Hd. reflexivity.
  - rewrite Hc, IH. reflexivity.
Qed.

Lemma decimal_app s c : decimal (s ++ [c]) = 10 * decimal s + (c - chr "0").
Proof. unfold decimal. rewrite fold_left_app. reflexivity. Qed.

Lemma decimal_dec_digits k n : 0 <= n -> decimal (dec_digits k n) = n mod 10 ^ Z.of_nat k.
Proof.
  revert n; induction k as [|k IH]; intros n Hn.
  { cbn. rewrite Z.mod_1_r. reflexivity. }
  cbn [dec_digits]. rewrite decimal_app, IH by (apply Z.div_pos; lia).
  rewrite Nat2Z.inj_succ, Z.pow_succ_r by lia.
  rewrite (Z.rem_mul_r n 10) by (try apply Z.pow_nonzero; lia). lia.
Qed.

(** Trailing zeros. *)
Lemma dec_digits_shift k j n :
  0 <= n -> dec_digits (k + j) (n * 10 ^ Z.of_nat j) = dec_digits k n ++ repeat (chr "0") j.
Proof.
  intros Hn. induction j as [|j IH].
  { rewrite Z.pow_0_r, Z.mul_1_r, Nat.add_0_r, app_nil_r. reflexivity. }
  rewrite Nat.add_succ_r. cbn [dec_digits].
  replace (n * 10 ^ Z.of_nat (S j)) with (n * 10 ^ Z.of_nat j * 10)
    by (rewrite Nat2Z.inj_succ, Z.pow_succ_r by lia; ring).
  rewrite Z.div_mul, Z.mod_mul by lia. rewrite IH, <- app_assoc. f_equal.
  rewrite Z.add_0_r. change [chr "0"] with (repeat (chr "0") 1). rewrite <- repeat_app.
  f_equal. lia.
Qed.

Lemma strip_repeat j : strip_zeros (repeat (chr "0") j) = [].
Proof. induction j as [|j IH]; cbn; [reflexivity|]. rewrite IH. reflexivity. Qed.

(** ** Printing *)

(** The decimal text of an integer. *)
Definition nat_text (n : Z) : bytes :=
  if n =? 0 then [chr "0"] else dec_digits (num_digits dec_fuel n) n.

Definition int_text (n : Z) : bytes :=
  if n <? 0 then chr "-" :: nat_text (- n) else nat_text n.

Definition max15 : Z := 10 ^ 15.

Lemma round_exact q D : 0 < D -> round_half_even (q * D) D = q.
Proof.
  intros HD. unfold round_half_even. rewrite Z.div_mul, Z.mod_mul by lia.
  replace (2 * 0 <? D) with true by (symmetry; apply Z.ltb_lt; lia). reflexivity.
Qed.

Lemma format_int n D :
  1 <= n < max15 -> 0 < D -> format_pos 15 (n * D) D = nat_text n.
Proof.
  intros Hn HD. destruct (has_digits_ex 15 n Hn) as (k & Hk & Hk15).
  assert (num_digits dec_fuel n = k) as Hnd by (apply num_digits_spec; [exact Hk|unfold dec_fuel; lia]).
  pose proof Hk as [Hk0 [Hlo Hhi]].
  unfold format_pos, significant, dec_exponent.
  replace (D <=? n * D) with true by (symmetry; apply Z.leb_le; nia).
  rewrite Z.div_mul, Hnd by lia.
  replace (Z.of_nat 15 - 1 - (Z.of_nat k - 1)) with (Z.of_nat (15 - k)) by lia.
  replace (0 <=? Z.of_nat (15 - k)) with true by (symmetry; apply Z.leb_le; lia).
  replace (n * D * 10 ^ Z.of_nat (15 - k)) with (n * 10 ^ Z.of_nat (15 - k) * D) by ring.
  rewrite round_exact by exact HD.
  replace (n * 10 ^ Z.of_nat (15 - k) =? 10 ^ Z.of_nat 15) with false.
  2:{ symmetry. apply Z.eqb_neq. replace (Z.of_nat 15) with (Z.of_nat k + Z.of_nat (15 - k)) by lia.
      rewrite Z.pow_add_r by lia. pose proof (pow10_pos (Z.of_nat (15 - k)) ltac:(lia)). nia. }
  replace ((-4 <=? Z.of_nat k - 1) && (Z.of_nat k - 1 <? Z.of_nat 15)) with true
    by (symmetry; apply andb_true_iff; rewrite Z.leb_le, Z.ltb_lt; lia).
  replace (0 <=? Z.of_nat k - 1) with true by (symmetry; apply Z.leb_le; lia).
  replace (Z.to_nat (Z.of_nat k - 1) + 1)%nat with k by lia.
  replace 15%nat with (k + (15 - k))%nat at 1 3 by lia. rewrite dec_digits_shift by lia.
  rewrite take_app_length' by (rewrite length_dec_digits; reflexivity).
  rewrite drop_app_length' by (rewrite length_dec_digits; reflexivity).
  unfold fraction. rewrite strip_repeat, app_nil_r. unfold nat_text.
  replace (n =? 0) with false by (symmetry; apply Z.eqb_neq; lia). rewrite Hnd. reflexivity.
Qed.

Lemma max15_lt : max15 < 2 ^ 53.
Proof. reflexivity. Qed.

Lemma format_of_Z n : 1 <= n < max15 -> format_g 15 (Double.of_Z n) = nat_text n.
Proof.
  intros Hn. pose proof max15_lt. destruct (Double.of_Z_exact n) as (m & e & -> & _ & He & Hm); [lia|].
  cbn [format_g app]. destruct (Z.leb_spec 0 e) as [H0|H0].
  - replace e with 0 in * by lia. rewrite Hm, !Z.mul_1_r. rewrite <- (Z.mul_1_r n) at 1.
    apply format_int; lia.
  - rewrite Hm. apply format_int; [exact Hn|apply Z.pow_pos_nonneg; lia].
Qed.

(** Rounding is symmetric. *)
Lemma binary_round_aux_opp m e l :
  binary_round_aux Double.prec Double.emax true m e l
  = SFopp (binary_round_aux Double.prec Double.emax false m e l).
Proof.
  unfold binary_round_aux. destruct (shr_fexp _ _ m e l) as [r1 e1].
  destruct (shr_fexp _ _ (round_nearest_even _ _) e1 loc_Exact) as [r2 e2].
  destruct (shr_m r2); try reflexivity. destruct (e2 <=? _); reflexivity.
Qed.

Lemma of_Z_opp n : 0 < n -> Double.of_Z (- n) = SFopp (Double.of_Z n).
Proof.
  intros Hn. destruct n as [|p|p]; try lia. change (- Z.pos p) with (Z.neg p).
  unfold Double.of_Z, binary_normalize, binary_round. destruct (shl_align _ _ _) as [mz ez].
  apply binary_round_aux_opp.
Qed.

Lemma format_g_opp p m e : format_g p (S754_finite true m e) = chr "-" :: format_g p (S754_finite false m e).
Proof. reflexivity. Qed.

Lemma format_int_text n : - max15 < n < max15 -> format_g 15 (Double.of_Z n) = int_text n.
Proof.
  intros Hn. unfold int_text. destruct (Z.ltb_spec n 0) as [H|H].
  - rewrite <- (format_of_Z (- n)) by lia. rewrite <- (Z.opp_involutive n) at 1.
    rewrite of_Z_opp by lia. pose proof max15_lt.
    destruct (Double.of_Z_exact (- n)) as (m & e & -> & _); [lia|]. apply format_g_opp.
  - destruct (Z.eq_dec n 0) as [->|]; [reflexivity|]. apply format_of_Z. lia.
Qed.

(** ** Reading back *)

Lemma nat_text_spec n :
  0 <= n < max15 -> exists k, nat_text n = dec_digits k n /\ (0 < k <= 15)%nat /\ n < 10 ^ Z.of_nat k.
Proof.
  intros Hn. unfold nat_text. destruct (Z.eqb_spec n 0) as [->|H0].
  - exists 1%nat. split; [reflexivity|]. split; [lia|reflexivity].
  - destruct (has_digits_ex 15 n) as (k & Hk & Hk15); [unfold max15 in Hn; lia|].
    pose proof Hk as [Hk0 [_ Hhi]].
    exists k. rewrite (num_digits_spec dec_fuel k n Hk) by (unfold dec_fuel; lia).
    split; [reflexivity|]. split; [lia|exact Hhi].
Qed.

Lemma digit_not_sign c : is_digit c = true -> (c =? chr "-") = false /\ (c =? chr "+") = false.
Proof.
  unfold is_digit. intros H. apply andb_true_iff in H as [H1%Z.leb_le H2%Z.leb_le].
  change (chr "0") with 48 in H1. change (chr "9") with 57 in H2.
  split; apply Z.eqb_neq; [change (chr "-") with 45|change (chr "+") with 43]; lia.
Qed.

(** A run of digits after an optional sign. *)
Lemma strtod_digits (neg : bool) k n :
  (0 < k)%nat -> 0 <= n < 10 ^ Z.of_nat k ->
  strtod ((if neg then [chr "-"] else []) ++ dec_digits k n)
  = (scale10 neg n 0, (length (if neg then [chr "-"] else []) + k)%nat).
Proof.
  intros Hk Hn. set (pre := if neg then [chr "-"] else []).
  pose proof (dec_digits_are_digits k n) as Hd.
  assert (exists c t, dec_digits k n = c :: t /\ is_digit c = true) as (c & t & Ec & Hc).
  { pose proof (length_dec_digits k n). destruct (dec_digits k n) as [|c t]; [cbn in *; lia|].
    apply Forall_cons in Hd as [Hc _]. eauto. }
  assert (sign (pre ++ dec_digits k n) = (neg, length pre)) as Hsign.
  { unfold pre. destruct neg; [reflexivity|]. rewrite Ec. cbn.
    destruct (digit_not_sign c Hc) as [-> ->]. reflexivity. }
  unfold strtod. rewrite Hsign, drop_app_length.
  assert (digits (dec_digits k n) = dec_digits k n) as Edig.
  { rewrite <- (app_nil_r (dec_digits k n)) at 1. apply digits_all; [exact Hd|]. left. reflexivity. }
  rewrite Edig. replace (drop (length pre + length (dec_digits k n)) (pre ++ dec_digits k n)) with (@nil Z)
    by (symmetry; apply drop_ge; rewrite length_app; lia).
  cbn [length]. rewrite app_nil_r, bool_decide_false by (rewrite Ec; discriminate).
  rewrite !Nat.add_0_r, drop_ge by (rewrite length_app; lia). cbn [exponent fst snd].
  rewrite decimal_dec_digits, Z.mod_small by lia. rewrite length_dec_digits. cbn.
  rewrite Nat.add_0_r. reflexivity.
Qed.

Lemma strtod_int_text n :
  - max15 < n < max15 -> strtod (int_text n) = (Double.of_Z n, length (int_text n)).
Proof.
  intros Hn. unfold int_text. destruct (Z.ltb_spec n 0) as [H|H].
  - destruct (nat_text_spec (- n)) as (k & -> & Hk & Hlt); [lia|].
    pose proof (strtod_digits true k (- n) ltac:(lia) ltac:(lia)) as Hs. cbn [app length] in Hs.
    rewrite Hs. cbn [length]. rewrite length_dec_digits. f_equal. unfold scale10.
    replace (- n =? 0) with false by (symmetry; apply Z.eqb_neq; lia). cbn [Z.leb Z.compare].
    rewrite Z.pow_0_r. replace (-1 * (- n * 1)) with n by lia. destruct n; try lia. reflexivity.
  - destruct (nat_text_spec n) as (k & -> & Hk & Hlt); [lia|].
    pose proof (strtod_digits false k n ltac:(lia) ltac:(lia)) as Hs. cbn [app length] in Hs.
    rewrite Hs, length_dec_digits. f_equal. unfold scale10.
    destruct (Z.eqb_spec n 0) as [->|]; [reflexivity|]. cbn [Z.leb Z.compare].
    rewrite Z.pow_0_r. replace (1 * (n * 1)) with n by lia. reflexivity.
Qed.

Lemma length_int_text n : - max15 < n < max15 -> (1 <= length (int_text n) <= 16)%nat.
Proof.
  intros Hn. unfold int_text. destruct (Z.ltb_spec n 0).
  - destruct (nat_text_spec (- n)) as (k & -> & Hk & _); [lia|]. cbn. rewrite length_dec_digits. lia.
  - destruct (nat_text_spec n) as (k & -> & Hk & _); [lia|]. rewrite length_dec_digits. lia.
Qed.

(** ** The test for the second attempt *)

Lemma SFabs_of_Z n : - max15 < n < max15 -> n <> 0 ->
  exists m e, SFabs (Double.of_Z n) = S754_finite false m e /\ -52 <= e <= 0 /\ 2 ^ 52 <= Zpos m < 2 ^ 53.
Proof.
  intros Hn H0. pose proof max15_lt. destruct (Z.ltb_spec n 0).
  - rewrite <- (Z.opp_involutive n), of_Z_opp by lia.
    destruct (Double.of_Z_exact (- n)) as (m & e & -> & Hm & He & _); [lia|]. exists m, e. auto.
  - destruct (Double.of_Z_exact n) as (m & e & -> & Hm & He & _); [lia|]. exists m, e. auto.
Qed.

Lemma SFsub_self s m e : SFsub Double.prec Double.emax (S754_finite s m e) (S754_finite s m e) = S754_zero false.
Proof.
  unfold SFsub. rewrite Z.min_id. set (x := cond_Zopp s _). rewrite Z.sub_diag. reflexivity.
Qed.

Lemma compare_double_refl n :
  - max15 < n < max15 -> compare_double (Double.of_Z n) (Double.of_Z n) = true.
Proof.
  intros Hn. destruct (Z.eq_dec n 0) as [->|H0]; [reflexivity|].
  destruct (SFabs_of_Z n Hn H0) as (m & e & Ea & He & Hm). unfold compare_double. rewrite Ea.
  assert (SFsub Double.prec Double.emax (Double.of_Z n) (Double.of_Z n) = S754_zero false) as ->.
  { destruct (Double.of_Z n); try discriminate Ea. apply SFsub_self. }
  destruct (SFltb _ _);
  (unfold Double.mul, DBL_EPSILON, SFmul; cbn [xorb];
   destruct (Double.binary_round_aux_spec (m * 4503599627370496) (e + -104) loc_Exact) as (mm & ee & -> & _);
   [lia| |reflexivity];
   assert (Zpos (digits2_pos (m * 4503599627370496)) <= 106) by (apply Double.digits2_pos_le; lia); lia).
Qed.

(** An integer of at most 15 digits is printed as its decimal text. *)
Lemma number_text_int n : - max15 < n < max15 -> number_text (Double.of_Z n) = int_text n.
Proof.
  intros Hn. unfold number_text.
  replace (is_nan_or_inf (Double.of_Z n)) with false.
  2:{ destruct (Z.eq_dec n 0) as [->|H0]; [reflexivity|].
      destruct (SFabs_of_Z n Hn H0) as (m & e & Ea & _). destruct (Double.of_Z n); try discriminate Ea.
      reflexivity. }
  rewrite format_int_text, strtod_int_text, compare_double_refl by exact Hn.
  pose proof (length_int_text n Hn). destruct (Nat.eqb_spec (length (int_text n)) 0); [lia|reflexivity].
Qed.

(** ** Conversion to [int] *)

(** Full mantissas compare like the numbers. *)
Lemma compare_full m e m' e' :
  2 ^ 52 <= Zpos m < 2 ^ 53 -> 2 ^ 52 <= Zpos m' < 2 ^ 53 -> -52 <= e <= 0 -> -52 <= e' <= 0 ->
  SFleb (S754_finite false m e) (S754_finite false m' e')
  = (Zpos m * 2 ^ (e + 52) <=? Zpos m' * 2 ^ (e' + 52)).
Proof.
  intros Hm Hm' He He'. unfold SFleb, SFcompare.
  change (PosDef.Pos.compare_cont Eq m m') with (m ?= m')%positive.
  destruct (Z.compare_spec e e') as [->|H|H].
  - destruct (Pos.compare_spec m m') as [->|H|H]; symmetry.
    + apply Z.leb_le. lia.
    + apply Z.leb_le. apply Z.mul_le_mono_nonneg_r; [apply Z.pow_nonneg; lia|lia].
    + apply Z.leb_gt. apply Z.mul_lt_mono_pos_r; [apply Z.pow_pos_nonneg; lia|lia].
  - symmetry. apply Z.leb_le. replace (e' + 52) with (e' - e + (e + 52)) by lia.
    rewrite (Z.pow_add_r 2 (e' - e)), Z.mul_assoc by lia. apply Z.mul_le_mono_nonneg_r; [apply Z.pow_nonneg; lia|].
    assert (2 ^ 1 <= 2 ^ (e' - e)) by (apply Z.pow_le_mono_r; lia). nia.
  - symmetry. apply Z.leb_gt. replace (e + 52) with (e - e' + (e' + 52)) by lia.
    rewrite (Z.pow_add_r 2 (e - e')), Z.mul_assoc by lia. apply Z.mul_lt_mono_pos_r; [apply Z.pow_pos_nonneg; lia|].
    assert (2 ^ 1 <= 2 ^ (e - e')) by (apply Z.pow_le_mono_r; lia). nia.
Qed.

Lemma SFleb_of_Z a b : 1 <= a < 2 ^ 53 -> 1 <= b < 2 ^ 53 -> SFleb (Double.of_Z a) (Double.of_Z b) = (a <=? b).
Proof.
  intros Ha Hb. destruct (Double.of_Z_exact a Ha) as (m & e & -> & Hm & He & E).
  destruct (Double.of_Z_exact b Hb) as (m' & e' & -> & Hm' & He' & E').
  rewrite compare_full, E, E', <- !Z.mul_assoc, <- !Z.pow_add_r by lia.
  replace (- e + (e + 52)) with 52 by lia. replace (- e' + (e' + 52)) with 52 by lia.
  destruct (Z.leb_spec a b); [apply Z.leb_le|apply Z.leb_gt]; nia.
Qed.

Lemma trunc_of_Z n : 1 <= n < 2 ^ 53 -> Double.trunc (Double.of_Z n) = Some n.
Proof.
  intros Hn. destruct (Double.of_Z_exact n Hn) as (m & e & -> & _ & He & E). cbn [Double.trunc].
  destruct (Z.leb_spec 0 e).
  - replace e with 0 in * by lia. f_equal. rewrite E, Z.pow_0_r. lia.
  - f_equal. rewrite E, Z.div_mul; [reflexivity|]. apply Z.pow_nonzero; lia.
Qed.

Lemma SFleb_opp m e m' e' :
  SFleb (S754_finite true m e) (S754_finite true m' e') = SFleb (S754_finite false m' e') (S754_finite false m e).
Proof.
  unfold SFleb, SFcompare. change (PosDef.Pos.compare_cont Eq m m') with (m ?= m')%positive.
  change (PosDef.Pos.compare_cont Eq m' m) with (m' ?= m)%positive. rewrite (Z.compare_antisym e' e).
  destruct (Z.compare e' e); cbn; try reflexivity.
  rewrite (Pos.compare_antisym m' m). destruct (Pos.compare m' m); reflexivity.
Qed.

(** Out of range, the conversion takes the nearest [int]. *)
Definition clamp (n : Z) : Z := Z.max INT_MIN (Z.min INT_MAX n).

Lemma saturate_negative n : 1 <= n < 2 ^ 53 -> saturate (Double.of_Z (- n)) = clamp (- n).
Proof.
  intros Hn. rewrite of_Z_opp by lia. pose proof (trunc_of_Z n Hn) as Ht.
  pose proof (SFleb_of_Z (2 ^ 31) n ltac:(lia) Hn) as Hle.
  assert (Double.of_Z INT_MIN = SFopp (Double.of_Z (2 ^ 31))) as Emin by (apply (of_Z_opp (2 ^ 31)); lia).
  unfold saturate, clamp. rewrite Emin.
  destruct (Double.of_Z_exact n Hn) as (m & e & Em & _). destruct (Double.of_Z_exact (2 ^ 31)) as (m' & e' & Em' & _); [lia|].
  rewrite Em, Em' in *. cbn [SFopp negb] in *. rewrite SFleb_opp, Hle.
  assert (SFleb (Double.of_Z INT_MAX) (S754_finite true m e) = false) as -> by reflexivity.
  change INT_MIN with (- 2 ^ 31). change INT_MAX with (2 ^ 31 - 1).
  destruct (Z.leb_spec (2 ^ 31) n); [lia|].
  cbn [Double.trunc] in *. injection Ht as ->. lia.
Qed.

Lemma saturate_positive n : 1 <= n < 2 ^ 53 -> saturate (Double.of_Z n) = clamp n.
Proof.
  intros Hn. unfold saturate, clamp. rewrite SFleb_of_Z by (unfold INT_MAX; lia).
  assert (SFleb (Double.of_Z n) (Double.of_Z INT_MIN) = false) as ->.
  { destruct (Double.of_Z_exact n Hn) as (m & e & -> & _). reflexivity. }
  rewrite trunc_of_Z by exact Hn. change INT_MIN with (- 2 ^ 31). change INT_MAX with (2 ^ 31 - 1).
  destruct (Z.leb_spec (2 ^ 31 - 1) n); lia.
Qed.

Lemma saturate_clamp n : - max15 < n < max15 -> saturate (Double.of_Z n) = clamp n.
Proof.
  intros Hn. pose proof max15_lt. destruct (Z.lt_trichotomy n 0) as [H'|[->|H']].
  - rewrite <- (Z.opp_involutive n). apply saturate_negative. lia.
  - reflexivity.
  - apply saturate_positive. lia.
Qed.

End JsonNum.
