(* ===== verification/JsonText.v ===== *)
(** * JSON values, their items and their texts

    [json] are the values a configuration can hold; [item_of] is the item cJSON
    represents one with and [render] its text, compact or formatted.  The parser turns
    the text into the item. *)

From Stdlib Require Import ZArith Lia SpecFloat Ascii.
From stdpp Require Import base numbers list strings.
From S2P Require Import Prelude DoubleArith Json JsonPrint JsonSafe JsonNum.
Open Scope Z_scope.

Module JsonText.
Export JsonPrint JsonNum.

(** ** Values *)

Inductive json :=
  | JNull
  | JBool (b : bool)
  | JInt (n : Z)
  | JString (s : bytes)
  | JArray (l : list json)
  | JObject (l : list (bytes * json)).

Section Induction.
Context (P : json -> Prop).
Hypothesis H_null : P JNull.
Hypothesis H_bool : forall b, P (JBool b).
Hypothesis H_int : forall n, P (JInt n).
Hypothesis H_string : forall s, P (JString s).
Hypothesis H_array : forall l, Forall P l -> P (JArray l).
Hypothesis H_object : forall l, Forall (fun kv => P (snd kv)) l -> P (JObject l).

Fixpoint json_nested_ind (j : json) : P j :=
  match j with
  | JNull => H_null
  | JBool b => H_bool b
  | JInt n => H_int n
  | JString s => H_string s
  | JArray l => H_array l
      ((fix go (l : list json) : Forall P l :=
          match l with
          | [] => Forall_nil_2 P
          | x :: l' => Forall_cons_2 P x l' (json_nested_ind x) (go l')
          end) l)
  | JObject l => H_object l
      ((fix go (l : list (bytes * json)) : Forall (fun kv => P (snd kv)) l :=
          match l with
          | [] => Forall_nil_2 _
          | x :: l' => Forall_cons_2 _ x l' (json_nested_ind (snd x)) (go l')
          end) l)
  end.

End Induction.

(** The item of a value, under a name inside an object. *)
Fixpoint item_of (name : option bytes) (j : json) : cJSON :=
  match j with
  | JNull => mk_cJSON cJSON_NULL None 0 (S754_zero false) name []
  | JBool true => mk_cJSON cJSON_True None 1 (S754_zero false) name []
  | JBool false => mk_cJSON cJSON_False None 0 (S754_zero false) name []
  | JInt n => mk_cJSON cJSON_Number None (saturate (Double.of_Z n)) (Double.of_Z n) name []
  | JString s => mk_cJSON cJSON_String (Some s) 0 (S754_zero false) name []
  | JArray l => mk_cJSON cJSON_Array None 0 (S754_zero false) name (map (item_of None) l)
  | JObject l =>
      mk_cJSON cJSON_Object None 0 (S754_zero false) name
        (map (fun kv => item_of (Some (fst kv)) (snd kv)) l)
  end.

Lemma string_item_of name j : string (item_of name j) = name.
Proof. destruct j as [|[]| | | |]; reflexivity. Qed.

(** Bytes of a C string. *)
Definition good_bytes (s : bytes) : Prop := Forall (fun c => 0 < c < 256) s.

Lemma good_of_bool (s : bytes) : forallb (fun c => (0 <? c) && (c <? 256)) s = true -> good_bytes s.
Proof.
  intros H. apply Forall_forall. intros c Hc. apply list_elem_of_In in Hc.
  rewrite forallb_forall in H. specialize (H c Hc). zbool. lia.
Qed.

Lemma good_no_nul s : good_bytes s -> no_nul s.
Proof. intros H. eapply Forall_impl; [exact H|]. cbn. lia. Qed.

(** Strings are C strings and integers have at most 15 digits. *)
Inductive good : json -> Prop :=
  | good_null : good JNull
  | good_bool b : good (JBool b)
  | good_int n : - max15 < n < max15 -> good (JInt n)
  | good_string s : good_bytes s -> good (JString s)
  | good_array l : Forall good l -> good (JArray l)
  | good_object l : Forall (fun kv => good_bytes (fst kv) /\ good (snd kv)) l -> good (JObject l).

(** [good] of a concrete value. *)
Ltac prove_good :=
  let Hint := fresh in
  assert (forall n, (- max15 <? n) && (n <? max15) = true -> good (JInt n)) as Hint
    by (intros ? ?; constructor; zbool; lia);
  repeat first
    [ apply Forall_nil_2 | apply Forall_cons_2 | split
    | apply good_of_bool; vm_compute; reflexivity
    | apply Hint; vm_compute; reflexivity
    | apply good_object | apply good_array | apply good_null | apply good_bool | apply good_string ].

(** The nesting of arrays and objects. *)
Fixpoint height (j : json) : nat :=
  match j with
  | JArray l => S (list_max (map height l))
  | JObject l => S (list_max (map (fun kv => height (snd kv)) l))
  | _ => 0
  end.

(** ** Texts *)

Definition esc (c : Z) : bytes := take (snd (escaped c)) (fst (escaped c)).

Definition string_text (s : bytes) : bytes := quote :: flat_map esc s ++ [quote].

(** Elements separated by [sep]. *)
Fixpoint joined (sep : bytes) (l : list bytes) : bytes :=
  match l with
  | [] => []
  | [x] => x
  | x :: l' => x ++ sep ++ joined sep l'
  end.

(** The members of an object: a comma after each but the last, and in formatted text
    each on a line of its own. *)
Fixpoint lines (fmt : bool) (l : list bytes) : bytes :=
  let newline := if fmt then [10] else [] in
  match l with
  | [] => []
  | [x] => x ++ newline
  | x :: l' => x ++ [chr ","] ++ newline ++ lines fmt l'
  end.

Definition separator (fmt : bool) : bytes := if fmt then [chr ","; chr " "] else [chr ","].

(** [d] is the nesting outside the value. *)
Fixpoint render (fmt : bool) (d : nat) (j : json) : bytes :=
  match j with
  | JNull => text "null"
  | JBool true => text "true"
  | JBool false => text "false"
  | JInt n => int_text n
  | JString s => string_text s
  | JArray l => [chr "["] ++ joined (separator fmt) (map (render fmt (S d)) l) ++ [chr "]"]
  | JObject l =>
      [chr "{"] ++ (if fmt then [10] else []) ++
      lines fmt (map (fun kv =>
        (if fmt then tabs (S d) else []) ++ string_text (fst kv) ++ [chr ":"] ++
        (if fmt then [9] else []) ++ render fmt (S d) (snd kv)) l) ++
      (if fmt then tabs d else []) ++ [chr "}"]
  end.

(** ** What the parser sees *)

Definition text_of (b : parse_buffer) : bytes := take (buf_length b) (content b).

(** The buffer holds [pre ++ s] and the offset is after [pre]. *)
Record sees (b : parse_buffer) (pre s : bytes) : Prop := {
  se_text : text_of b = pre ++ s;
  se_offset : offset b = length pre;
  se_mem : (buf_length b <= length (content b))%nat
}.

(** Appends nested to the right. *)
Ltac flatten :=
  repeat first [rewrite <- app_assoc | progress cbn [app]];
  repeat match goal with
  | H : sees _ _ _ |- _ => first [rewrite <- app_assoc in H | progress cbn [app] in H]
  end.

Lemma sees_length b pre s : sees b pre s -> buf_length b = (length pre + length s)%nat.
Proof.
  intros [Ht Ho Hm]. apply (f_equal length) in Ht. unfold text_of in Ht.
  rewrite length_take, length_app in Ht. lia.
Qed.

Lemma sees_lookup b pre s i c :
  sees b pre s -> s !! i = Some c -> content b !! (length pre + i)%nat = Some c.
Proof.
  intros Hs Hi. pose proof (se_text _ _ _ Hs) as Ht.
  assert ((pre ++ s) !! (length pre + i)%nat = Some c) as Hl by (rewrite lookup_app_r by lia;
    replace (length pre + i - length pre)%nat with i by lia; exact Hi).
  rewrite <- Ht in Hl. unfold text_of in Hl. apply lookup_take_Some in Hl as [Hl _]. exact Hl.
Qed.

Lemma sees_move b pre t s : sees b pre (t ++ s) -> sees (set_offset (length pre + length t) b) (pre ++ t) s.
Proof.
  intros [Ht Ho Hm]. split; [|cbn; rewrite length_app; reflexivity|exact Hm].
  rewrite <- app_assoc. exact Ht.
Qed.

(** Running [c] from [b] yields [x] and reaches [rest] at the same depth. *)
Definition reaches {A} (b : parse_buffer) (pre rest : bytes) (x : A) (r : A) (b' : parse_buffer) : Prop :=
  r = x /\ sees b' pre rest /\ depth b' = depth b.

Lemma wp_advance b pre t s (Q : unit -> parse_buffer -> Prop) n :
  sees b pre (t ++ s) -> n = length t ->
  (forall b', sees b' (pre ++ t) s -> depth b' = depth b -> Q tt b') -> wp (advance n) Q b.
Proof.
  intros Hs -> HQ. apply wp_modify, HQ; [|reflexivity].
  rewrite (se_offset _ _ _ Hs). apply sees_move, Hs.
Qed.

Lemma sees_can_access b pre c s : sees b pre (c :: s) -> can_access_at_index 0 b = true.
Proof.
  intros Hs. unfold can_access_at_index. apply Nat.ltb_lt.
  rewrite (sees_length _ _ _ Hs), (se_offset _ _ _ Hs). cbn. lia.
Qed.

Lemma sees_at b pre c s (Q : Z -> parse_buffer -> Prop) :
  sees b pre (c :: s) -> Q c b -> wp (at_index 0) Q b.
Proof.
  intros Hs HQ. eapply JsonSafe.wp_at; [|exact HQ]. rewrite (se_offset _ _ _ Hs).
  eapply sees_lookup; [exact Hs|reflexivity].
Qed.

Lemma wp_next b pre c s x (Q : bool -> parse_buffer -> Prop) :
  sees b pre (c :: s) -> Q (c =? x) b -> wp (next_is x) Q b.
Proof.
  intros Hs HQ. apply wp_bind, wp_gets. rewrite (sees_can_access _ _ _ _ Hs).
  apply wp_bind. eapply sees_at; [exact Hs|]. apply wp_ret, HQ.
Qed.

(** A literal is recognised, and a text that starts differently is not. *)
Lemma wp_strncmp_true b n lit (Q : bool -> parse_buffer -> Prop) :
  (forall i c, lit !! i = Some c -> content b !! (n + i)%nat = Some c) -> Q true b ->
  wp (strncmp_at n lit) Q b.
Proof.
  revert n; induction lit as [|c lit IH]; intros n Hl HQ; cbn [strncmp_at]; [exact HQ|].
  apply wp_bind. eapply JsonSafe.wp_read; [rewrite <- (Nat.add_0_r n); apply Hl; reflexivity|].
  rewrite Z.eqb_refl. apply IH; [|exact HQ]. intros i d Hd. rewrite Nat.add_succ_comm. apply Hl, Hd.
Qed.

Lemma wp_starts b pre lit rest (Q : bool -> parse_buffer -> Prop) :
  sees b pre (lit ++ rest) -> Q true b -> wp (starts_with lit) Q b.
Proof.
  intros Hs HQ. apply wp_bind, wp_gets. unfold can_read.
  rewrite (sees_length _ _ _ Hs), (se_offset _ _ _ Hs), length_app.
  replace (_ <=? _)%nat with true by (symmetry; apply Nat.leb_le; lia).
  apply wp_bind, wp_gets. rewrite (se_offset _ _ _ Hs). apply wp_strncmp_true; [|exact HQ].
  intros i c Hc. eapply sees_lookup; [exact Hs|]. apply lookup_app_l_Some, Hc.
Qed.

Lemma wp_starts_not b pre c s x lit (Q : bool -> parse_buffer -> Prop) :
  sees b pre (c :: s) -> (c =? x) = false -> Q false b -> wp (starts_with (x :: lit)) Q b.
Proof.
  intros Hs Hc HQ. apply wp_bind, wp_gets. destruct (can_read _ _); [|exact HQ].
  apply wp_bind, wp_gets. cbn [strncmp_at]. apply wp_bind. eapply JsonSafe.wp_read.
  - rewrite (se_offset _ _ _ Hs), <- (Nat.add_0_r (length pre)).
    eapply sees_lookup; [exact Hs|reflexivity].
  - rewrite Hc. exact HQ.
Qed.

(** Whitespace before a character that is none. *)
Definition blank (s : bytes) : Prop := Forall (fun c => c <= 32) s.

Lemma wp_whitespace fuel b pre ws c s (Q : unit -> parse_buffer -> Prop) :
  sees b pre (ws ++ c :: s) -> blank ws -> 32 < c -> (length ws < fuel)%nat ->
  (forall b', sees b' (pre ++ ws) (c :: s) -> depth b' = depth b -> Q tt b') ->
  wp (whitespace_loop fuel) Q b.
Proof.
  intros Hs Hw Hc. revert fuel b pre Hs. induction Hw as [|w ws Hw Hws IH]; intros fuel b pre Hs Hf HQ;
    (destruct fuel as [|fuel]; [lia|]); cbn [whitespace_loop app] in *; apply wp_bind, wp_gets;
    rewrite (sees_can_access _ _ _ _ Hs); cbn [negb]; apply wp_bind; (eapply sees_at; [exact Hs|]).
  - replace (c <=? 32) with false by (symmetry; apply Z.leb_gt, Hc). apply wp_ret, HQ; [|reflexivity].
    rewrite app_nil_r. exact Hs.
  - replace (w <=? 32) with true by (symmetry; apply Z.leb_le, Hw).
    apply wp_bind. eapply (wp_advance _ _ [w]); [exact Hs|reflexivity|]. intros b' Hs' Hd'.
    eapply IH; [exact Hs'|cbn in Hf; lia|]. intros b'' Hs'' Hd''. rewrite <- app_assoc in Hs''.
    apply HQ; [exact Hs''|congruence].
Qed.

Lemma wp_skip_to b pre ws c s (Q : unit -> parse_buffer -> Prop) :
  sees b pre (ws ++ c :: s) -> blank ws -> 32 < c ->
  (forall b', sees b' (pre ++ ws) (c :: s) -> depth b' = depth b -> Q tt b') ->
  wp buffer_skip_whitespace Q b.
Proof.
  intros Hs Hw Hc HQ. apply wp_bind, wp_gets.
  assert (can_access_at_index 0 b = true) as ->.
  { unfold can_access_at_index. apply Nat.ltb_lt.
    rewrite (sees_length _ _ _ Hs), (se_offset _ _ _ Hs), length_app. cbn. lia. }
  cbn [negb]. apply wp_bind, wp_gets, wp_bind. eapply wp_whitespace; try eassumption.
  { rewrite (sees_length _ _ _ Hs), length_app. cbn. lia. }
  intros b' Hs' Hd'. apply wp_bind, wp_gets.
  replace (_ =? _)%nat with false; [apply HQ; assumption|]. symmetry. apply Nat.eqb_neq.
  rewrite (sees_length _ _ _ Hs'), (se_offset _ _ _ Hs'). cbn. lia.
Qed.

(** ** Strings *)

(** The text [t] at position [p]. *)
Definition holds_at (b : parse_buffer) (p : nat) (t : bytes) : Prop :=
  (forall i c, t !! i = Some c -> content b !! (p + i)%nat = Some c) /\
  (p + length t <= buf_length b)%nat.

Lemma holds_at_app b p t u : holds_at b p (t ++ u) -> holds_at b p t /\ holds_at b (p + length t) u.
Proof.
  intros [H Hl]. rewrite length_app in Hl. split; (split; [|lia]).
  - intros i c Hc. apply H, lookup_app_l_Some, Hc.
  - intros i c Hc. rewrite <- Nat.add_assoc. apply H. rewrite lookup_app_r by lia.
    replace (length t + i - length t)%nat with i by lia. exact Hc.
Qed.

Lemma holds_at_cons b p c t : holds_at b p (c :: t) ->
  content b !! p = Some c /\ (p < buf_length b)%nat /\ holds_at b (p + 1) t.
Proof.
  intros H. pose proof H as [H1 H2]. cbn in H2. split; [|split; [lia|apply (holds_at_app b p [c] t H)]].
  rewrite <- (Nat.add_0_r p). apply H1. reflexivity.
Qed.

Lemma sees_holds b pre s : sees b pre s -> holds_at b (length pre) s.
Proof.
  intros Hs. split; [intros i c Hc; eapply sees_lookup; eassumption|].
  rewrite (sees_length _ _ _ Hs). lia.
Qed.

Lemma wp_read_at b p c t (Q : Z -> parse_buffer -> Prop) : holds_at b p (c :: t) -> Q c b -> wp (read p) Q b.
Proof. intros H HQ. eapply JsonSafe.wp_read; [apply (holds_at_cons _ _ _ _ H)|exact HQ]. Qed.

(** The three kinds of escapes. *)
Lemma esc_cases c :
  0 < c < 256 ->
  (esc c = [c] /\ (c =? quote) = false /\ (c =? backslash) = false) \/
  (exists x, esc c = [backslash; x] /\ unescape x = Some c) \/
  (esc c = backslash :: u04x c /\ c < 32).
Proof.
  intros Hc. unfold esc, escaped.
  destruct (_ && _) eqn:E.
  { zbool. left. split; [reflexivity|]. split; apply Z.eqb_neq; assumption. }
  right. destruct (Z.eqb_spec c backslash) as [->|Hb]; [left; eexists; split; reflexivity|].
  destruct (Z.eqb_spec c quote) as [->|Hq]; [left; eexists; split; reflexivity|].
  destruct (Z.eqb_spec c 8) as [->|]; [left; eexists; split; reflexivity|].
  destruct (Z.eqb_spec c 12) as [->|]; [left; eexists; split; reflexivity|].
  destruct (Z.eqb_spec c 10) as [->|]; [left; eexists; split; reflexivity|].
  destruct (Z.eqb_spec c 13) as [->|]; [left; eexists; split; reflexivity|].
  destruct (Z.eqb_spec c 9) as [->|]; [left; eexists; split; reflexivity|].
  right. split; [reflexivity|]. cbn in E. rewrite !andb_true_r in E. zbool. lia.
Qed.

Lemma hex_char_spec d : 0 <= d < 16 ->
  hex_digit (hex_char d) = Some d /\ (hex_char d =? quote) = false /\ (hex_char d =? backslash) = false.
Proof.
  intros H. assert (exists n, d = Z.of_nat n /\ (n < 16)%nat) as (n & -> & Hn)
    by (exists (Z.to_nat d); lia).
  do 16 (destruct n as [|n]; [repeat split; reflexivity|]). lia.
Qed.

(** How many escapes the scan counts for a character. *)
Definition skips (c : Z) : nat := if (length (esc c) =? 1)%nat then 0 else 1.

Lemma scan_plain fuel b p c t k (Q : option (nat * nat) -> parse_buffer -> Prop) :
  holds_at b p (c :: t) -> (c =? quote) = false -> (c =? backslash) = false ->
  wp (scan_loop fuel (p + 1) k) Q b -> wp (scan_loop (S fuel) p k) Q b.
Proof.
  intros H Hq Hb HQ. pose proof (holds_at_cons _ _ _ _ H) as (_ & Hlt & _). cbn [scan_loop].
  apply wp_bind, wp_gets. replace (p <? buf_length b)%nat with true by (symmetry; apply Nat.ltb_lt, Hlt).
  cbn [negb]. apply wp_bind. eapply wp_read_at; [exact H|]. rewrite Hq, Hb. exact HQ.
Qed.

Lemma scan_escape fuel b p x t k (Q : option (nat * nat) -> parse_buffer -> Prop) :
  holds_at b p (backslash :: x :: t) -> wp (scan_loop fuel (p + 2) (S k)) Q b ->
  wp (scan_loop (S fuel) p k) Q b.
Proof.
  intros H HQ. pose proof (holds_at_cons _ _ _ _ H) as (_ & Hlt & H2).
  pose proof (holds_at_cons _ _ _ _ H2) as (_ & Hlt2 & _). cbn [scan_loop].
  apply wp_bind, wp_gets. replace (p <? buf_length b)%nat with true by (symmetry; apply Nat.ltb_lt, Hlt).
  cbn [negb]. apply wp_bind. eapply wp_read_at; [exact H|]. cbn [Z.eqb].
  replace (buf_length b <=? p + 1)%nat with false by (symmetry; apply Nat.leb_gt, Hlt2). exact HQ.
Qed.

Lemma u04x_hex c : 0 < c < 32 -> exists h l, u04x c = [chr "u"; chr "0"; chr "0"; h; l] /\
  hex_digit h = Some (c / 16) /\ hex_digit l = Some (c mod 16) /\
  (h =? quote) = false /\ (h =? backslash) = false /\ (l =? quote) = false /\ (l =? backslash) = false.
Proof.
  intros Hc. exists (hex_char (c / 16)), (hex_char (c mod 16)). split; [reflexivity|].
  destruct (hex_char_spec (c / 16)) as (H1 & H2 & H3); [Z.div_mod_to_equations; lia|].
  destruct (hex_char_spec (c mod 16)) as (H4 & H5 & H6); [apply Z.mod_pos_bound; lia|]. auto 10.
Qed.

(** The scan over one character and over a whole string. *)
Lemma scan_char fuel b p c t k (Q : option (nat * nat) -> parse_buffer -> Prop) :
  0 < c < 256 -> holds_at b p (esc c ++ t) -> (length (esc c) <= fuel)%nat ->
  (forall f, (fuel - length (esc c) <= f)%nat -> wp (scan_loop f (p + length (esc c)) (k + skips c)) Q b) ->
  wp (scan_loop fuel p k) Q b.
Proof.
  intros Hc H Hf HQ. unfold skips in HQ.
  destruct (esc_cases c Hc) as [(E & Hq & Hb)|[(x & E & _)|(E & Hlt)]]; rewrite E in *; cbn [length Nat.eqb app] in *.
  - rewrite Nat.add_0_r in HQ. destruct fuel as [|fuel]; [lia|].
    eapply scan_plain; [exact H|exact Hq|exact Hb|]. apply HQ. lia.
  - destruct fuel as [|fuel]; [lia|]. eapply scan_escape; [exact H|].
    replace (S k) with (k + 1)%nat by lia. apply HQ. lia.
  - destruct (u04x_hex c ltac:(lia)) as (h & l & Eu & _ & _ & Hh1 & Hh2 & Hl1 & Hl2). rewrite Eu in *.
    cbn [length app Nat.eqb] in *. do 6 (destruct fuel as [|fuel]; [lia|]).
    eapply scan_escape; [exact H|].
    apply holds_at_cons in H as (_ & _ & H). apply holds_at_cons in H as (_ & _ & H).
    replace (p + 1 + 1)%nat with (p + 2)%nat in H by lia.
    eapply scan_plain; [exact H|reflexivity|reflexivity|]. apply holds_at_cons in H as (_ & _ & H).
    eapply scan_plain; [exact H|reflexivity|reflexivity|]. apply holds_at_cons in H as (_ & _ & H).
    eapply scan_plain; [exact H|exact Hh1|exact Hh2|]. apply holds_at_cons in H as (_ & _ & H).
    eapply scan_plain; [exact H|exact Hl1|exact Hl2|].
    replace (p + 2 + 1 + 1 + 1 + 1)%nat with (p + 6)%nat by lia.
    replace (S k) with (k + 1)%nat by lia. apply HQ. lia.
Qed.

Lemma scan_string s fuel b p t k (Q : option (nat * nat) -> parse_buffer -> Prop) :
  good_bytes s -> holds_at b p (flat_map esc s ++ quote :: t) -> (length (flat_map esc s) < fuel)%nat ->
  Q (Some (p + length (flat_map esc s), k + sum_list (map skips s))%nat) b ->
  wp (scan_loop fuel p k) Q b.
Proof.
  intros Hs. revert fuel p k. induction Hs as [|c s Hc Hs IH]; intros fuel p k H Hf HQ.
  - destruct fuel as [|fuel]; [cbn in Hf; lia|]. cbn [flat_map app] in H.
    pose proof (holds_at_cons _ _ _ _ H) as (_ & Hlt & _). cbn [scan_loop].
    apply wp_bind, wp_gets. replace (p <? buf_length b)%nat with true by (symmetry; apply Nat.ltb_lt, Hlt).
    cbn [negb]. apply wp_bind. eapply wp_read_at; [exact H|]. cbn in HQ. rewrite !Nat.add_0_r in HQ.
    apply wp_ret, HQ.
  - cbn [flat_map] in *. rewrite <- app_assoc in H. rewrite length_app in *.
    eapply scan_char; [exact Hc|exact H|lia|]. intros f Hf'.
    apply IH; [apply (holds_at_app _ _ _ _ H)|lia|].
    cbn in HQ. rewrite Nat.add_assoc in HQ. rewrite <- (Nat.add_assoc k). exact HQ.
Qed.

Lemma wp_put cap out bs b (Q : bytes -> parse_buffer -> Prop) :
  (length out + length bs <= cap)%nat -> Q (out ++ bs) b -> wp (put cap out bs) Q b.
Proof.
  intros H HQ. unfold put. replace (_ <=? cap)%nat with true by (symmetry; apply Nat.leb_le, H).
  apply wp_ret, HQ.
Qed.

(** The literal of a control character. *)
Lemma wp_control b p c t e (Q : option (nat * bytes) -> parse_buffer -> Prop) :
  0 < c < 32 -> holds_at b p (backslash :: u04x c ++ t) -> (p + 6 <= e)%nat ->
  Q (Some (6%nat, [c])) b -> wp (utf16_literal_to_utf8 p e) Q b.
Proof.
  intros Hc H He HQ. destruct (u04x_hex c Hc) as (h & l & Eu & Hh & Hl & _). rewrite Eu in H.
  unfold utf16_literal_to_utf8. replace (e - p <? 6)%nat with false by (symmetry; apply Nat.ltb_ge; lia).
  apply holds_at_cons in H as (_ & _ & H). apply holds_at_cons in H as (_ & _ & H).
  replace (p + 1 + 1)%nat with (p + 2)%nat in H by lia.
  apply wp_bind. unfold parse_hex4. cbn [hex4_loop].
  apply wp_bind. eapply wp_read_at; [exact H|]. cbn [hex_digit]. change (hex_digit (chr "0")) with (Some 0).
  apply holds_at_cons in H as (_ & _ & H). replace (p + 2 + 1)%nat with (S (p + 2)) in H by lia.
  cbn [Nat.ltb Nat.leb]. apply wp_bind. eapply wp_read_at; [exact H|]. change (hex_digit (chr "0")) with (Some 0).
  apply holds_at_cons in H as (_ & _ & H). replace (S (p + 2) + 1)%nat with (S (S (p + 2))) in H by lia.
  apply wp_bind. eapply wp_read_at; [exact H|]. rewrite Hh.
  apply holds_at_cons in H as (_ & _ & H). replace (S (S (p + 2)) + 1)%nat with (S (S (S (p + 2)))) in H by lia.
  apply wp_bind. eapply wp_read_at; [exact H|]. rewrite Hl.
  change (Z.shiftl (Z.shiftl (0 + 0) 4 + 0) 4) with 0. rewrite Z.shiftl_mul_pow2 by lia.
  apply wp_ret. replace ((0 + c / 16) * 2 ^ 4 + c mod 16) with c by (Z.div_mod_to_equations; lia).
  replace ((56320 <=? c) && (c <=? 57343)) with false
    by (symmetry; apply andb_false_iff; left; apply Z.leb_gt; lia).
  replace ((55296 <=? c) && (c <=? 56319)) with false
    by (symmetry; apply andb_false_iff; left; apply Z.leb_gt; lia).
  apply wp_ret. unfold utf8_encode. replace (c <? 128) with true by (symmetry; apply Z.ltb_lt; lia).
  change 127 with (Z.ones 7). rewrite Z.land_ones, Z.mod_small by lia. exact HQ.
Qed.

Lemma unescape_char fuel b p c t e cap out (Q : bytes + nat -> parse_buffer -> Prop) :
  0 < c < 256 -> holds_at b p (esc c ++ t) -> (p + length (esc c) <= e)%nat ->
  (length out < cap)%nat -> (p + length (esc c) <= buf_length b)%nat ->
  wp (unescape_loop fuel (p + length (esc c)) e cap (out ++ [c])) Q b ->
  wp (unescape_loop (S fuel) p e cap out) Q b.
Proof.
  intros Hc H He Hcap Hb HQ. cbn [unescape_loop].
  destruct (esc_cases c Hc) as [(E & Hq & Hb')|[(x & E & Hx)|(E & Hlt)]]; rewrite E in *; cbn [length app] in *;
    (replace (p <? e)%nat with true by (symmetry; apply Nat.ltb_lt; lia)); cbn [negb];
    apply wp_bind; (eapply wp_read_at; [exact H|]).
  - rewrite Hb'. cbn [negb]. apply wp_bind, wp_put; [cbn; lia|exact HQ].
  - cbn [Z.eqb negb]. rewrite Z.eqb_refl. cbn [negb].
    apply holds_at_cons in H as (_ & _ & H). apply wp_bind. eapply wp_read_at; [exact H|].
    rewrite Hx. apply wp_bind, wp_put; [cbn; lia|exact HQ].
  - rewrite Z.eqb_refl. cbn [negb].
    pose proof H as H'. apply holds_at_cons in H' as (_ & _ & H').
    apply wp_bind. eapply wp_read_at; [exact H'|]. change (unescape (chr "u")) with (@None Z).
    rewrite Z.eqb_refl. cbn [negb].
    apply wp_bind. eapply wp_control; [|exact H|cbn in *; lia|]; [lia|].
    apply wp_bind, wp_put; [cbn; lia|exact HQ].
Qed.

Lemma length_esc c : 0 < c < 256 -> (1 <= length (esc c))%nat /\ (1 + skips c <= length (esc c))%nat.
Proof.
  intros Hc. unfold skips. destruct (esc_cases c Hc) as [(-> & _)|[(x & -> & _)|(-> & _)]]; cbn; lia.
Qed.

Lemma length_flat_esc s :
  good_bytes s -> (length s + sum_list (map skips s) <= length (flat_map esc s))%nat.
Proof.
  induction 1 as [|c s Hc Hs IH]; cbn; [lia|]. rewrite length_app.
  pose proof (length_esc c Hc). lia.
Qed.

Lemma unescape_string s fuel b p t cap out (Q : bytes + nat -> parse_buffer -> Prop) :
  good_bytes s -> holds_at b p (flat_map esc s ++ t) -> (length (flat_map esc s) < fuel)%nat ->
  (length out + length s <= cap)%nat -> Q (inl (out ++ s)) b ->
  wp (unescape_loop fuel p (p + length (flat_map esc s)) cap out) Q b.
Proof.
  intros Hs. revert fuel p out. induction Hs as [|c s Hc Hs IH]; intros fuel p out H Hf Hcap HQ;
    (destruct fuel as [|fuel]; [lia|]).
  - cbn [flat_map length unescape_loop]. rewrite Nat.add_0_r, Nat.ltb_irrefl. cbn [negb].
    rewrite app_nil_r in HQ. apply wp_ret, HQ.
  - cbn [flat_map] in *. rewrite <- app_assoc in H. rewrite length_app in *. cbn [length] in Hcap.
    pose proof (length_esc c Hc) as [Hl _]. pose proof (holds_at_app _ _ _ _ H) as [[_ H1] H2].
    eapply unescape_char; [exact Hc|exact H|lia|lia|exact H1|].
    rewrite Nat.add_assoc. apply IH; [exact H2|lia|rewrite length_app; cbn; lia|].
    rewrite <- app_assoc. exact HQ.
Qed.

Section Parse.
Context (can_alloc : nat -> nat -> bool).
Hypothesis always : forall n size, can_alloc n size = true.

Lemma wp_alloc size b (Q : bool -> parse_buffer -> Prop) :
  (forall b', b' = set_allocs (S (allocs b)) b -> Q true b') -> wp (allocate can_alloc size) Q b.
Proof.
  intros HQ. apply wp_bind, wp_gets, wp_bind, wp_modify. rewrite always. apply wp_ret, HQ. reflexivity.
Qed.

Lemma sees_allocs b n pre s : sees b pre s -> sees (set_allocs n b) pre s.
Proof. intros [H1 H2 H3]. split; assumption. Qed.

Lemma parse_string_text s item b pre rest :
  good_bytes s -> sees b pre (string_text s ++ rest) ->
  wp (parse_string can_alloc item)
    (reaches b (pre ++ string_text s) rest (Some (set_type cJSON_String (set_valuestring (Some s) item)))) b.
Proof.
  intros Hg Hs. pose proof (sees_length _ _ _ Hs) as Hlen. pose proof (se_offset _ _ _ Hs) as Ho.
  set (n := length (flat_map esc s)).
  assert (length (string_text s) = n + 2)%nat as Hn
    by (unfold string_text; cbn; rewrite length_app; cbn; unfold n; lia).
  rewrite length_app in Hlen.
  pose proof (sees_holds _ _ _ Hs) as Hh. unfold string_text in Hh. cbn [app] in Hh.
  rewrite <- app_assoc in Hh. cbn [app] in Hh.
  apply wp_bind, wp_gets. unfold string_text in Hs. cbn [app] in Hs.
  apply wp_bind. eapply sees_at; [exact Hs|]. rewrite Z.eqb_refl. cbn [negb].
  apply holds_at_cons in Hh as (_ & _ & Hh). rewrite Ho.
  apply wp_bind, wp_gets, wp_bind. eapply scan_string; [exact Hg|exact Hh|fold n; lia|]. fold n.
  pose proof (length_flat_esc s Hg) as Hfl. fold n in Hfl. set (k := (0 + _)%nat).
  assert (k = sum_list (map skips s)) as Hk by reflexivity. clearbody k.
  apply wp_bind, wp_alloc. intros b1 ->. cbn [negb].
  apply wp_bind. apply (unescape_string s _ _ _ (quote :: rest)); [exact Hg|exact Hh|cbn; fold n; lia|cbn; lia|].
  cbn [app]. apply wp_bind, wp_put; [cbn; lia|]. apply wp_bind, wp_modify, wp_ret.
  split; [reflexivity|]. split; [|reflexivity].
  replace (length pre + 1 + n + 1)%nat with (length pre + length (string_text s))%nat by lia.
  apply (sees_move (set_allocs _ b)), sees_allocs. unfold string_text. cbn [app]. exact Hs.
Qed.

(** ** Numbers *)

(** What follows a value: it does not continue a number. *)
Definition stops (rest : bytes) : Prop := exists c s, rest = c :: s /\ is_number_char c = false.

Lemma int_text_chars n :
  - max15 < n < max15 -> Forall (fun c => is_number_char c = true) (int_text n).
Proof.
  intros Hn. assert (forall k m, Forall (fun c => is_number_char c = true) (dec_digits k m)) as Hd.
  { intros k m. eapply Forall_impl; [apply dec_digits_are_digits|]. intros c Hc.
    unfold is_number_char. cbn beta in Hc. rewrite Hc. reflexivity. }
  unfold int_text. destruct (Z.ltb_spec n 0).
  - destruct (nat_text_spec (- n)) as (k & -> & _); [lia|]. constructor; [reflexivity|apply Hd].
  - destruct (nat_text_spec n) as (k & -> & _); [lia|]. apply Hd.
Qed.

Lemma wp_number_text s rest fuel i b (Q : bytes -> parse_buffer -> Prop) :
  Forall (fun c => is_number_char c = true) s -> stops rest -> (length s < fuel)%nat ->
  holds_at b (offset b + i) (s ++ rest) -> Q s b -> wp (number_chars fuel i) Q b.
Proof.
  intros Hs (c & t & -> & Hc). revert fuel i Q. induction Hs as [|x s Hx Hs IH]; intros fuel i Q Hf H HQ;
    (destruct fuel as [|fuel]; [lia|]); cbn [number_chars app] in *;
    pose proof (holds_at_cons _ _ _ _ H) as (Hl & Hlt & H');
    apply wp_bind, wp_gets; unfold can_access_at_index;
    (replace (_ <? _)%nat with true by (symmetry; apply Nat.ltb_lt, Hlt)); cbn [negb];
    apply wp_bind; (eapply JsonSafe.wp_at; [exact Hl|]).
  - rewrite Hc. apply wp_ret, HQ.
  - rewrite Hx. apply wp_bind. apply IH; [cbn in Hf; lia| |apply wp_ret, HQ].
    replace (offset b + S i)%nat with (offset b + i + 1)%nat by lia. exact H'.
Qed.

Lemma parse_int_text n item b pre rest :
  - max15 < n < max15 -> stops rest -> sees b pre (int_text n ++ rest) ->
  wp (parse_number item)
    (reaches b (pre ++ int_text n) rest
       (Some (set_type cJSON_Number
          (set_valueint (saturate (Double.of_Z n)) (set_valuedouble (Double.of_Z n) item))))) b.
Proof.
  intros Hn Hr Hs. pose proof (length_int_text n Hn) as Hlen. apply wp_bind.
  eapply wp_number_text; [apply int_text_chars, Hn|exact Hr|lia| |].
  { rewrite Nat.add_0_r, (se_offset _ _ _ Hs). apply sees_holds, Hs. }
  rewrite strtod_int_text by exact Hn.
  destruct (Nat.eqb_spec (length (int_text n)) 0); [lia|].
  apply wp_bind. eapply wp_advance; [exact Hs|reflexivity|]. intros b' Hs' Hd'.
  apply wp_ret. split; [reflexivity|]. auto.
Qed.

(** ** Containers *)

(** A value starts with a visible character. *)
Definition starts (t : bytes) : Prop := exists c s, t = c :: s /\ 32 < c.

(** What follows an element: blanks, then a comma or a closing bracket. *)
Definition follows (rest : bytes) : Prop :=
  exists ws c s, rest = ws ++ c :: s /\ blank ws /\ 32 < c /\ is_number_char c = false.

Lemma follows_stops rest : follows rest -> stops rest.
Proof.
  intros (ws & c & s & -> & Hw & Hc & Hn). destruct Hw as [|w ws Hw _]; [exists c, s; auto|].
  exists w, (ws ++ c :: s). split; [reflexivity|]. unfold is_number_char, is_digit.
  repeat (apply orb_false_iff; split); try apply Z.eqb_neq.
  - apply andb_false_iff. left. apply Z.leb_gt. change (chr "0") with 48. lia.
  - change (chr "+") with 43. lia.
  - change (chr "-") with 45. lia.
  - change (chr "e") with 101. lia.
  - change (chr "E") with 69. lia.
  - change (chr ".") with 46. lia.
Qed.

(** One turn of the loop parses the element [x] from its text [t], behind the character
    [o] and blanks. *)
Definition one_parses (d : nat) (one : M parse_buffer (option cJSON)) (x : cJSON) (t : bytes) : Prop :=
  starts t /\
  forall b pre o ws rest, sees b pre (o :: ws ++ t ++ rest) -> blank ws -> follows rest -> depth b = d ->
    wp one (reaches b (pre ++ o :: ws ++ t) rest (Some x)) b.

(** Elements with the blanks before them, separated by commas. *)
Fixpoint sequence (l : list (bytes * bytes)) : bytes :=
  match l with
  | [] => []
  | [(ws, t)] => ws ++ t
  | (ws, t) :: l' => ws ++ t ++ chr "," :: sequence l'
  end.

Lemma comma_follows s : follows (chr "," :: s).
Proof. exists [], (chr ","), s. split; [reflexivity|]. split; [constructor|]. split; reflexivity. Qed.

Lemma elements_text fuel d one xs l acc b pre o wend close rest :
  Forall2 (fun x wt => blank (fst wt) /\ one_parses d one x (snd wt)) xs l -> xs <> [] ->
  sees b pre (o :: sequence l ++ wend ++ close :: rest) -> depth b = d ->
  blank wend -> 32 < close -> is_number_char close = false -> (close =? chr ",") = false ->
  (length xs <= fuel)%nat ->
  wp (elements_loop fuel one acc)
    (reaches b (pre ++ o :: sequence l ++ wend) (close :: rest) (Some (acc ++ xs))) b.
Proof.
  intros Hxs. revert fuel acc b pre o. induction Hxs as [|x [ws t] xs l [Hw [Ht Hone]] Hxs IH];
    intros fuel acc b pre o Hne Hs Hd Hend Hc Hcn Hcomma Hf; [contradiction|].
  destruct fuel as [|fuel]; [cbn in Hf; lia|]. cbn [elements_loop fst snd] in *.
  destruct Hxs as [|x' [ws' t'] xs l Hx' Hxs].
  - cbn [sequence] in *. rewrite <- !app_assoc in Hs. apply wp_bind.
    eapply wp_mono; [apply (Hone b pre o ws (wend ++ close :: rest)); try assumption|].
    { exists wend, close, rest. auto. }
    intros r b1 (-> & Hs1 & Hd1). apply wp_bind.
    eapply wp_skip_to; [exact Hs1|exact Hend|exact Hc|]. intros b2 Hs2 Hd2.
    apply wp_bind. eapply wp_next; [exact Hs2|]. rewrite Hcomma. apply wp_ret.
    split; [reflexivity|]. split; [|congruence].
    rewrite <- !app_assoc in *. cbn [app] in *. rewrite <- !app_assoc in *. exact Hs2.
  - set (l1 := (ws', t') :: l) in *.
    assert (sequence ((ws, t) :: l1) = ws ++ t ++ chr "," :: sequence l1) as Eseq by reflexivity.
    rewrite Eseq in *. rewrite <- !app_assoc in Hs. cbn [app] in Hs. apply wp_bind.
    eapply wp_mono; [apply (Hone b pre o ws (chr "," :: sequence l1 ++ wend ++ close :: rest));
                     try assumption; apply comma_follows|].
    intros r b1 (-> & Hs1 & Hd1). apply wp_bind.
    eapply (wp_skip_to _ _ []); [exact Hs1|constructor|reflexivity|]. rewrite app_nil_r. intros b2 Hs2 Hd2.
    apply wp_bind. eapply wp_next; [exact Hs2|]. rewrite Z.eqb_refl.
    eapply wp_mono; [apply IH; try eassumption; [discriminate|congruence|cbn in *; lia]|].
    intros r b3 (-> & Hs3 & Hd3). split; [rewrite <- app_assoc; reflexivity|]. split; [|congruence].
    replace (pre ++ o :: (ws ++ t ++ chr "," :: sequence l1) ++ wend)
      with ((pre ++ o :: ws ++ t) ++ chr "," :: sequence l1 ++ wend); [exact Hs3|].
    rewrite <- !app_assoc. cbn [app]. rewrite <- !app_assoc. reflexivity.
Qed.

Lemma sees_back b pre o s n :
  sees b (pre ++ [o]) s -> n = (offset b - 1)%nat -> sees (set_offset n b) pre (o :: s).
Proof.
  intros [Ht Ho Hm] ->. split; [|cbn; rewrite Ho, length_app; cbn; lia|exact Hm].
  cbn. unfold text_of in *. cbn. rewrite Ht, <- app_assoc. reflexivity.
Qed.

Definition after_first (l : list (bytes * bytes)) : bytes :=
  match l with [] => [] | _ => chr "," :: sequence l end.

Lemma sequence_cons w t l : sequence ((w, t) :: l) = w ++ t ++ after_first l.
Proof. destruct l; cbn [sequence after_first]; [rewrite app_nil_r|]; reflexivity. Qed.

Lemma length_sequence l :
  Forall (fun wt => starts (snd wt)) l -> (length l <= length (sequence l))%nat.
Proof.
  induction 1 as [|[w t] l (c & s & Et & _) Hl IH]; [cbn; lia|]. cbn [snd] in Et. subst t.
  rewrite sequence_cons, !length_app. unfold after_first. destruct l; cbn [length] in *; lia.
Qed.

(** The closing bracket. *)
Definition close_container (ty : Z) (item : cJSON) (l : list cJSON) : M parse_buffer (option cJSON) :=
  bind (modify (fun b => set_depth (depth b - 1) b)) (fun _ => bind (advance 1) (fun _ =>
    ret (Some (set_child l (set_type ty item))))).

Lemma close_text ty item l b pre close rest :
  sees b pre (close :: rest) ->
  wp (close_container ty item l)
    (fun r b' => r = Some (set_child l (set_type ty item)) /\ sees b' (pre ++ [close]) rest /\
       depth b' = (depth b - 1)%nat) b.
Proof.
  intros Hs. apply wp_bind, wp_modify, wp_bind.
  eapply (wp_advance _ pre [close] rest); [destruct Hs; split; assumption|reflexivity|].
  intros b' Hs' Hd'. apply wp_ret. auto.
Qed.

Section Bracketed.
Context (close : Z) (one : M parse_buffer (option cJSON)) (d : nat).
Hypothesis close_visible : 32 < close.
Hypothesis close_no_number : is_number_char close = false.
Hypothesis close_no_comma : (close =? chr ",") = false.

(** From the first character of the first element. *)
Lemma items_text ty item x xs t l b pre o wend rest :
  Forall2 (fun x wt => blank (fst wt) /\ one_parses d one x (snd wt)) (x :: xs) (([], t) :: l) ->
  sees b pre (o :: sequence (([], t) :: l) ++ wend ++ close :: rest) -> depth b = d -> blank wend ->
  wp (bind (gets buf_length) (fun n => bind (elements_loop (S n) one []) (fun r =>
        match r with
        | None => ret None
        | Some l => bind (next_is close) (fun closed =>
            if closed : bool then close_container ty item l else ret None)
        end)))
    (fun r b' => r = Some (set_child (x :: xs) (set_type ty item)) /\
       sees b' ((pre ++ o :: sequence (([], t) :: l) ++ wend) ++ [close]) rest /\
       depth b' = (d - 1)%nat) b.
Proof.
  intros Hxs Hs Hd Hend. apply wp_bind, wp_gets, wp_bind. eapply wp_mono.
  - eapply elements_text; [exact Hxs|discriminate|exact Hs|..]; try eassumption.
    apply Forall2_length in Hxs as Hll. rewrite Hll.
    assert (Forall (fun wt => starts (snd wt)) (([], t) :: l)) as Hst.
    { clear -Hxs. induction Hxs as [|? ? ? ? [_ [? _]]]; constructor; auto. }
    apply length_sequence in Hst. pose proof (sees_length _ _ _ Hs) as Hlen.
    cbn [length] in Hlen. rewrite length_app in Hlen. lia.
  - intros r b4 (-> & Hs4 & Hd4). cbn [app].
    apply wp_bind. eapply wp_next; [exact Hs4|]. rewrite Z.eqb_refl.
    eapply wp_mono; [apply (close_text _ _ _ _ _ _ _ Hs4)|].
    intros r b' (-> & Hs' & Hd'). split; [reflexivity|]. split; [exact Hs'|congruence].
Qed.

Lemma container_text ty item xs l b pre open wend rest :
  Forall2 (fun x wt => blank (fst wt) /\ one_parses d one x (snd wt)) xs l ->
  Forall (fun wt => forall c s, snd wt = c :: s -> (c =? close) = false) l ->
  sees b pre (open :: sequence l ++ wend ++ close :: rest) -> depth b = d -> blank wend ->
  wp (parse_container close ty one item)
    (fun r b' => r = Some (set_child xs (set_type ty item)) /\
       sees b' (pre ++ open :: sequence l ++ wend ++ [close]) rest /\ depth b' = (d - 1)%nat) b.
Proof.
  intros Hxs Hfirst Hs Hd Hend.
  apply wp_bind. eapply (wp_advance _ pre [open]); [exact Hs|reflexivity|]. intros b1 Hs1 Hd1.
  destruct Hxs as [|x [ws t] xs l [Hw Hx] Hxs].
  - apply wp_bind. eapply wp_skip_to; [exact Hs1|exact Hend|exact close_visible|]. intros b2 Hs2 Hd2.
    apply wp_bind. eapply wp_next; [exact Hs2|]. rewrite Z.eqb_refl. cbn [sequence app].
    eapply wp_mono; [apply (close_text _ _ _ _ _ _ _ Hs2)|]. intros r b' (-> & Hs' & Hd').
    split; [reflexivity|]. split; [|congruence]. rewrite <- !app_assoc in Hs'. exact Hs'.
  - cbn [fst snd] in Hw, Hx. apply Forall_cons in Hfirst as [Hfirst _]. cbn [snd] in Hfirst.
    pose proof (proj1 Hx) as (c & s & Et & Hc).
    rewrite sequence_cons, Et in Hs1. rewrite <- !app_assoc in Hs1. cbn [app] in Hs1.
    apply wp_bind. eapply wp_skip_to; [exact Hs1|exact Hw|exact Hc|]. intros b2 Hs2 Hd2.
    apply wp_bind. eapply wp_next; [exact Hs2|]. rewrite (Hfirst c s Et).
    apply wp_bind, wp_gets. rewrite (sees_can_access _ _ _ _ Hs2). cbn [negb].
    destruct (exists_last (l := (pre ++ [open]) ++ ws)) as (pre2 & o & Epre); [destruct pre; discriminate|].
    rewrite Epre in Hs2.
    apply wp_bind, wp_modify. set (b3 := set_offset _ b2).
    assert (sees b3 pre2 (o :: sequence (([], t) :: l) ++ wend ++ close :: rest)) as Hs3.
    { apply sees_back; [|reflexivity]. rewrite sequence_cons, Et, <- !app_assoc. exact Hs2. }
    eapply wp_mono; [eapply items_text; [|exact Hs3|cbn; congruence|exact Hend]|].
    { constructor; [split; [constructor|exact Hx]|exact Hxs]. }
    intros r b' (-> & Hs' & Hd'). split; [reflexivity|]. split; [|exact Hd'].
    replace (pre ++ open :: sequence ((ws, t) :: l) ++ wend ++ [close])
      with ((pre2 ++ o :: sequence (([], t) :: l) ++ wend) ++ [close]); [exact Hs'|].
    rewrite !sequence_cons.
    replace (pre2 ++ o :: ([] ++ t ++ after_first l) ++ wend)
      with ((pre2 ++ [o]) ++ t ++ after_first l ++ wend) by (rewrite <- !app_assoc; reflexivity).
    rewrite <- Epre, <- !app_assoc. reflexivity.
Qed.

End Bracketed.

(** ** Values *)

Lemma wp_dispatch fuel item b pre c s (Q : option cJSON -> parse_buffer -> Prop) :
  sees b pre (c :: s) -> (c =? chr "n") = false -> (c =? chr "f") = false -> (c =? chr "t") = false ->
  wp (if c =? quote then parse_string can_alloc item
      else if (c =? chr "-") || is_digit c then parse_number item
      else if c =? chr "[" then parse_array can_alloc (parse_value can_alloc fuel) item
      else if c =? chr "{" then parse_object can_alloc (parse_value can_alloc fuel) item
      else ret None) Q b ->
  wp (parse_value can_alloc (S fuel) item) Q b.
Proof.
  intros Hs Hn Hf Ht HQ. cbn [parse_value].
  apply wp_bind. eapply wp_starts_not; [exact Hs|exact Hn|].
  apply wp_bind. eapply wp_starts_not; [exact Hs|exact Hf|].
  apply wp_bind. eapply wp_starts_not; [exact Hs|exact Ht|].
  apply wp_bind. eapply wp_next; [exact Hs|]. destruct (c =? quote); [exact HQ|].
  apply wp_bind. eapply wp_next; [exact Hs|].
  apply wp_bind, wp_bind, wp_gets. rewrite (sees_can_access _ _ _ _ Hs).
  apply wp_bind. eapply sees_at; [exact Hs|]. apply wp_ret.
  destruct (_ || _); [exact HQ|].
  apply wp_bind. eapply wp_next; [exact Hs|]. destruct (c =? chr "["); [exact HQ|].
  apply wp_bind. eapply wp_next; [exact Hs|]. destruct (c =? chr "{"); exact HQ.
Qed.

Lemma int_text_starts n : - max15 < n < max15 ->
  exists c s, int_text n = c :: s /\ ((c =? chr "-") || is_digit c) = true.
Proof.
  intros Hn. unfold int_text. destruct (Z.ltb_spec n 0); [eexists _, _; split; reflexivity|].
  destruct (nat_text_spec n) as (k & -> & Hk & _); [lia|].
  pose proof (dec_digits_are_digits k n) as Hd. pose proof (length_dec_digits k n).
  destruct (dec_digits k n) as [|c s]; [cbn in *; lia|]. apply Forall_cons in Hd as [Hc _].
  exists c, s. split; [reflexivity|]. rewrite Hc. apply orb_true_r.
Qed.

Lemma number_start c : ((c =? chr "-") || is_digit c) = true ->
  32 < c < 58 /\ c <> 44.
Proof.
  unfold is_digit. change (chr "-") with 45. change (chr "0") with 48. change (chr "9") with 57.
  intros [H|H]%orb_true_iff; zbool; lia.
Qed.

(** No text of a value starts with a blank or a closing bracket. *)
Lemma render_starts fmt d j :
  good j -> starts (render fmt d j) /\
  forall c s, render fmt d j = c :: s -> (c =? chr "]") = false /\ (c =? chr "}") = false.
Proof.
  intros Hg. assert (exists c s, render fmt d j = c :: s /\ 32 < c /\ c <> 93 /\ c <> 125) as (c & s & -> & H1 & H2 & H3).
  { destruct Hg as [|[]|n Hn| | |]; try (eexists _, _; split; [reflexivity|split; [reflexivity|split; discriminate]]).
    destruct (int_text_starts n Hn) as (c & s & E & Hc). apply number_start in Hc.
    exists c, s. cbn [render]. split; [exact E|lia]. }
  split; [exists c, s; auto|]. intros c' s' [= <- <-]. split; apply Z.eqb_neq; assumption.
Qed.

(** The items the parser fills in are new but for their name. *)
Definition fresh_item (ty : Z) (name : option bytes) : cJSON :=
  mk_cJSON ty None 0 (S754_zero false) name [].

Definition value_parses (j : json) : Prop :=
  forall fmt dd fuel ty name b pre rest,
    (height j + depth b <= CJSON_NESTING_LIMIT)%nat -> (height j < fuel)%nat ->
    sees b pre (render fmt dd j ++ rest) -> stops rest ->
    wp (parse_value can_alloc fuel (fresh_item ty name))
       (reaches b (pre ++ render fmt dd j) rest (Some (item_of name j))) b.

Lemma literal_text lit fuel item x b pre rest n :
  sees b pre (lit ++ rest) -> n = length lit ->
  wp (bind (advance n) (fun _ => ret (Some x))) (reaches b (pre ++ lit) rest (Some x)) b ->
  (lit = text "null" /\ x = set_type cJSON_NULL item) \/
  (lit = text "false" /\ x = set_type cJSON_False item) \/
  (lit = text "true" /\ x = set_valueint 1 (set_type cJSON_True item)) ->
  wp (parse_value can_alloc (S fuel) item) (reaches b (pre ++ lit) rest (Some x)) b.
Proof.
  intros Hs Hn HQ [[-> ->]|[[-> ->]|[-> ->]]]; subst n; cbn [parse_value];
    apply wp_bind; [eapply wp_starts; [exact Hs|exact HQ]|..];
    (eapply (wp_starts_not _ _ _ _ 110); [exact Hs|reflexivity|]); apply wp_bind.
  - eapply wp_starts; [exact Hs|exact HQ].
  - eapply (wp_starts_not _ _ _ _ 102); [exact Hs|reflexivity|]. apply wp_bind.
    eapply wp_starts; [exact Hs|exact HQ].
Qed.

Lemma advance_text lit x b pre rest n :
  sees b pre (lit ++ rest) -> n = length lit ->
  wp (bind (advance n) (fun _ => ret (Some x))) (reaches b (pre ++ lit) rest (Some (x : cJSON))) b.
Proof.
  intros Hs Hn. apply wp_bind. eapply wp_advance; [exact Hs|exact Hn|]. intros b' Hs' Hd'.
  apply wp_ret. split; [reflexivity|auto].
Qed.

(** An element of an array and a member of an object. *)
Lemma element_parses fuel d fmt dd j :
  good j -> value_parses j -> (height j + d <= CJSON_NESTING_LIMIT)%nat -> (height j < fuel)%nat ->
  one_parses d (parse_element can_alloc (parse_value can_alloc fuel)) (item_of None j) (render fmt dd j).
Proof.
  intros Hg Hj Hh Hf. split; [apply render_starts, Hg|]. intros b pre o ws rest Hs Hw Hr Hd.
  apply wp_bind, wp_bind, wp_alloc. intros b1 ->. apply wp_ret.
  destruct (proj1 (render_starts fmt dd j Hg)) as (c & s & Et & Hc).
  apply wp_bind. eapply (wp_advance _ pre [o]); [apply sees_allocs, Hs|reflexivity|]. intros b1 Hs1 Hd1.
  cbn in Hd1. rewrite Et in Hs1. apply wp_bind.
  eapply wp_skip_to; [exact Hs1|exact Hw|exact Hc|]. intros b2 Hs2 Hd2.
  eapply wp_mono; [eapply (Hj fmt dd fuel 0 None b2 _ rest); [lia|exact Hf|rewrite Et; exact Hs2|apply follows_stops, Hr]|].
  intros r b' (-> & Hs' & Hd'). split; [reflexivity|]. split; [|congruence].
  rewrite <- !app_assoc in Hs'. exact Hs'.
Qed.

Definition member_text (fmt : bool) (d : nat) (k : bytes) (j : json) : bytes :=
  string_text k ++ [chr ":"] ++ (if fmt then [9] else []) ++ render fmt d j.

Lemma member_parses fuel d fmt dd k j :
  good_bytes k -> good j -> value_parses j -> (height j + d <= CJSON_NESTING_LIMIT)%nat -> (height j < fuel)%nat ->
  one_parses d (parse_member can_alloc (parse_value can_alloc fuel)) (item_of (Some k) j) (member_text fmt dd k j).
Proof.
  intros Hk Hg Hj Hh Hf. split; [exists quote, ((flat_map esc k ++ [quote]) ++ [chr ":"] ++ (if fmt then [9] else []) ++ render fmt dd j); split; reflexivity|].
  intros b pre o ws rest Hs Hw Hr Hd.
  apply wp_bind, wp_bind, wp_alloc. intros b1 ->. apply wp_ret.
  apply wp_bind. eapply (wp_advance _ pre [o]); [apply sees_allocs, Hs|reflexivity|]. intros b1 Hs1 Hd1.
  cbn in Hd1. unfold member_text in Hs1. rewrite <- !app_assoc in Hs1. apply wp_bind.
  eapply (wp_skip_to _ _ ws quote); [exact Hs1|exact Hw|reflexivity|]. intros b2 Hs2 Hd2.
  apply wp_bind. eapply wp_mono; [apply (parse_string_text k); [exact Hk|exact Hs2]|].
  intros r b3 (-> & Hs3 & Hd3). cbn [app] in Hs3. apply wp_bind.
  eapply (wp_skip_to _ _ []); [exact Hs3|constructor|reflexivity|]. rewrite app_nil_r. intros b4 Hs4 Hd4.
  apply wp_bind. eapply wp_next; [exact Hs4|]. rewrite Z.eqb_refl. cbn [negb].
  destruct (proj1 (render_starts fmt dd j Hg)) as (c & s & Et & Hc).
  apply wp_bind. eapply (wp_advance _ _ [chr ":"]); [exact Hs4|reflexivity|]. intros b5 Hs5 Hd5.
  rewrite Et in Hs5. apply wp_bind. eapply (wp_skip_to _ _ (if fmt then [9] else [])); [exact Hs5| |exact Hc|].
  { destruct fmt; repeat constructor. discriminate. }
  intros b6 Hs6 Hd6. change (set_valuestring _ _) with (fresh_item cJSON_String (Some k)).
  eapply wp_mono; [eapply (Hj fmt dd fuel _ _ b6 _ rest); [lia|exact Hf|rewrite Et; exact Hs6|apply follows_stops, Hr]|].
  intros r b' (-> & Hs' & Hd'). split; [reflexivity|]. split; [|congruence].
  unfold member_text. flatten. exact Hs'.
Qed.

(** The texts of containers as sequences. *)
Definition spaced (fmt : bool) (ts : list bytes) : list (bytes * bytes) :=
  match ts with
  | [] => []
  | t :: ts' => ([], t) :: map (pair (if fmt then [chr " "] else [])) ts'
  end.

Lemma joined_sequence fmt ts : joined (separator fmt) ts = sequence (spaced fmt ts).
Proof.
  destruct ts as [|t ts]; [reflexivity|]. cbn [spaced]. rewrite sequence_cons. cbn [app].
  revert t; induction ts as [|u ts IH]; intros t; [symmetry; apply app_nil_r|].
  change (joined (separator fmt) (t :: u :: ts)) with (t ++ separator fmt ++ joined (separator fmt) (u :: ts)).
  rewrite IH. cbn [map after_first]. rewrite sequence_cons. destruct fmt; reflexivity.
Qed.

Lemma lines_sequence fmt w ts :
  ts <> [] ->
  (if fmt : bool then [10] else []) ++ lines fmt (map (app w) ts)
  = sequence (map (pair ((if fmt then [10] else []) ++ w)) ts) ++ (if fmt then [10] else []).
Proof.
  intros Hne. induction ts as [|t ts IH]; [contradiction|].
  destruct ts as [|u ts].
  - cbn. flatten. reflexivity.
  - specialize (IH ltac:(discriminate)). cbn [map] in *. rewrite sequence_cons. cbn [after_first].
    change (lines fmt ((w ++ t) :: (w ++ u) :: map (app w) ts))
      with ((w ++ t) ++ [chr ","] ++ (if fmt then [10] else []) ++ lines fmt ((w ++ u) :: map (app w) ts)).
    rewrite IH. flatten. reflexivity.
Qed.

Lemma Forall2_spaced {A} (P : A -> bytes -> Prop) fmt xs ts :
  Forall2 P xs ts -> Forall2 (fun x wt => blank (fst wt) /\ P x (snd wt)) xs (spaced fmt ts).
Proof.
  intros [|x t xs' ts' Hx Hxs]; [constructor|]. constructor; [split; [constructor|exact Hx]|].
  induction Hxs; constructor; [|assumption]. split; [|assumption]. destruct fmt; repeat constructor. discriminate.
Qed.

Lemma Forall2_paired {A} (P : A -> bytes -> Prop) w xs ts :
  blank w -> Forall2 P xs ts -> Forall2 (fun x wt => blank (fst wt) /\ P x (snd wt)) xs (map (pair w) ts).
Proof. intros Hw. induction 1; constructor; auto. Qed.

Lemma list_max_le l n x : (list_max l <= n)%nat -> x ∈ l -> (x <= n)%nat.
Proof. intros H Hx. rewrite list_max_le in H. rewrite Forall_forall in H. apply H, Hx. Qed.

Lemma blank_newline (fmt : bool) : blank (if fmt then [10] else []).
Proof. destruct fmt; repeat constructor. discriminate. Qed.

Lemma blank_tabs (fmt : bool) n : blank (if fmt then tabs n else []).
Proof. destruct fmt; [|constructor]. apply Forall_repeat. lia. Qed.

Lemma spaced_snd (P : bytes -> Prop) fmt ts : Forall P ts -> Forall (fun wt => P (snd wt)) (spaced fmt ts).
Proof.
  intros [|t ts' Ht Hts]; constructor; [exact Ht|]. induction Hts; constructor; assumption.
Qed.

Lemma array_parses l : Forall good l -> Forall value_parses l -> value_parses (JArray l).
Proof.
  intros Hg Hl fmt dd fuel ty name b pre rest Hh Hf Hs Hr. cbn [height] in Hh, Hf.
  destruct fuel as [|fuel]; [lia|]. cbn [render] in *. flatten.
  eapply wp_dispatch; [exact Hs|reflexivity..|].
  change (chr "[" =? quote) with false. change ((chr "[" =? chr "-") || is_digit (chr "[")) with false.
  rewrite Z.eqb_refl. cbn iota.
  apply wp_bind, wp_gets. destruct (Nat.leb_spec CJSON_NESTING_LIMIT (depth b)); [lia|].
  apply wp_bind, wp_modify. set (b1 := set_depth _ b).
  assert (sees b1 pre (chr "[" :: joined (separator fmt) (map (render fmt (S dd)) l) ++ chr "]" :: rest)) as Hs1
    by (destruct Hs; split; assumption).
  apply wp_bind. eapply sees_at; [exact Hs1|]. rewrite Z.eqb_refl. cbn [negb].
  rewrite joined_sequence in *.
  assert (Forall2 (one_parses (S (depth b)) (parse_element can_alloc (parse_value can_alloc fuel)))
            (map (item_of None) l) (map (render fmt (S dd)) l)) as Hall.
  { assert (forall x, x ∈ l -> (height x <= list_max (map height l))%nat) as Hmax.
    { intros x Hx. eapply list_max_le; [reflexivity|]. apply elem_of_map_intro, Hx. }
    clear -Hg Hl Hh Hf Hmax always. set (m := list_max _) in *. clearbody m.
    induction Hl as [|j l Hj Hl IH]; cbn; constructor.
    - apply Forall_cons in Hg as [Hg _]. specialize (Hmax j ltac:(left)).
      apply element_parses; [exact Hg|exact Hj|lia|lia].
    - apply Forall_cons in Hg as [_ Hg]. apply IH; [exact Hg|]. intros x Hx. apply Hmax. right. exact Hx. }
  eapply wp_mono; [apply (container_text (chr "]") _ (S (depth b))) with (wend := [])|].
  - reflexivity.
  - reflexivity.
  - reflexivity.
  - apply Forall2_spaced, Hall.
  - apply (spaced_snd (fun t => forall c s, t = c :: s -> (c =? chr "]") = false)).
    clear -Hg. induction Hg as [|j l Hj Hl IH]; cbn; constructor; [|exact IH].
    intros c s E. apply (proj2 (render_starts fmt (S dd) j Hj) c s E).
  - exact Hs1.
  - reflexivity.
  - constructor.
  - intros r b' (-> & Hs' & Hd'). split; [reflexivity|]. split; [|cbn in Hd'; lia]. flatten. exact Hs'.
Qed.

Lemma render_object (fmt : bool) d l :
  let nl := if fmt then [10] else [] in
  render fmt d (JObject l) =
    chr "{" :: sequence (map (pair (nl ++ if fmt then tabs (S d) else []))
                             (map (fun kv => member_text fmt (S d) (fst kv) (snd kv)) l)) ++
    (nl ++ if fmt then tabs d else []) ++ [chr "}"].
Proof.
  intros nl. cbn [render app]. f_equal. destruct l as [|kv l]; [cbn; rewrite <- app_assoc; reflexivity|].
  set (ts := map (fun kv => member_text fmt (S d) (fst kv) (snd kv)) (kv :: l)).
  replace (map _ (kv :: l)) with (map (app (if fmt then tabs (S d) else [])) ts) by
    (unfold ts; rewrite map_map; reflexivity).
  rewrite app_assoc. fold nl. unfold nl. rewrite lines_sequence by discriminate.
  rewrite <- !app_assoc. reflexivity.
Qed.

Lemma object_parses l :
  Forall (fun kv => good_bytes (fst kv) /\ good (snd kv)) l ->
  Forall (fun kv => value_parses (snd kv)) l -> value_parses (JObject l).
Proof.
  intros Hg Hl fmt dd fuel ty name b pre rest Hh Hf Hs Hr. cbn [height] in Hh, Hf.
  destruct fuel as [|fuel]; [lia|].
  set (nl := if fmt then [10] else []) in *. set (w := nl ++ if fmt then tabs (S dd) else []).
  set (wend := nl ++ if fmt then tabs dd else []).
  set (ts := map (fun kv => member_text fmt (S dd) (fst kv) (snd kv)) l).
  pose proof (render_object fmt dd l) as E. cbv zeta in E. fold nl in E. fold ts w wend in E.
  rewrite E in *. clear E. flatten.
  eapply wp_dispatch; [exact Hs|reflexivity..|].
  change (chr "{" =? quote) with false. change ((chr "{" =? chr "-") || is_digit (chr "{")) with false.
  change (chr "{" =? chr "[") with false. rewrite Z.eqb_refl. cbn iota.
  apply wp_bind, wp_gets. destruct (Nat.leb_spec CJSON_NESTING_LIMIT (depth b)); [lia|].
  apply wp_bind, wp_modify. set (b1 := set_depth _ b).
  assert (sees b1 pre (chr "{" :: sequence (map (pair w) ts) ++ wend ++ chr "}" :: rest)) as Hs1
    by (destruct Hs; split; assumption).
  apply wp_bind. eapply wp_next; [exact Hs1|]. rewrite Z.eqb_refl. cbn [negb].
  assert (Forall2 (one_parses (S (depth b)) (parse_member can_alloc (parse_value can_alloc fuel)))
            (map (fun kv => item_of (Some (fst kv)) (snd kv)) l) ts) as Hall.
  { assert (forall x, x ∈ l -> (height (snd x) <= list_max (map (fun kv => height (snd kv)) l))%nat) as Hmax.
    { intros x Hx. eapply list_max_le; [reflexivity|].
      apply (elem_of_map_intro (fun kv => height (snd kv))), Hx. }
    unfold ts. clear -Hg Hl Hh Hf Hmax always. set (m := list_max _) in *. clearbody m.
    induction Hl as [|j l Hj Hl IH]; cbn; constructor.
    - apply Forall_cons in Hg as [[Hk Hg] _]. specialize (Hmax j ltac:(left)).
      apply member_parses; [exact Hk|exact Hg|exact Hj|lia|lia].
    - apply Forall_cons in Hg as [_ Hg]. apply IH; [exact Hg|]. intros x Hx. apply Hmax. right. exact Hx. }
  eapply wp_mono; [apply (container_text (chr "}") _ (S (depth b))) with (wend := wend)|].
  - reflexivity.
  - reflexivity.
  - reflexivity.
  - apply Forall2_paired; [|exact Hall]. apply Forall_app. split; [apply blank_newline|apply blank_tabs].
  - unfold ts. rewrite map_map. apply Forall_forall. intros [u t] Ht c s Et.
    apply list_elem_of_In, in_map_iff in Ht as (kv & [= <- <-] & _). cbn in Et. injection Et as <- _. reflexivity.
  - exact Hs1.
  - reflexivity.
  - apply Forall_app. split; [apply blank_newline|apply blank_tabs].
  - intros r b' (-> & Hs' & Hd'). split; [reflexivity|]. split; [|cbn in Hd'; lia]. flatten. exact Hs'.
Qed.

Lemma all_values_parse j : good j -> value_parses j.
Proof.
  induction j as [|v|n|s|l IH|l IH] using json_nested_ind; intros Hg; inversion Hg; subst.
  - intros fmt dd [|fuel] ty name b pre rest _ Hf Hs _; [lia|].
    eapply literal_text; [exact Hs|reflexivity|eapply advance_text; [exact Hs|reflexivity]|auto].
  - intros fmt dd [|fuel] ty name b pre rest _ Hf Hs _; [lia|]. destruct v.
    + eapply literal_text; [exact Hs|reflexivity|eapply advance_text; [exact Hs|reflexivity]|auto].
    + eapply literal_text; [exact Hs|reflexivity|eapply advance_text; [exact Hs|reflexivity]|auto].
  - intros fmt dd [|fuel] ty name b pre rest _ Hf Hs Hr; [lia|]. cbn [render] in *.
    destruct (int_text_starts n ltac:(assumption)) as (c & s & E & Hc).
    pose proof (number_start c Hc) as [Hrange _].
    eapply (wp_dispatch _ _ _ _ c (s ++ rest)); [rewrite E in Hs; exact Hs|apply Z.eqb_neq..|].
    + change (chr "n") with 110. lia.
    + change (chr "f") with 102. lia.
    + change (chr "t") with 116. lia.
    + rewrite Hc. replace (c =? quote) with false.
      2:{ symmetry. apply Z.eqb_neq. intros ->. discriminate. }
      eapply wp_mono; [apply (parse_int_text n); [assumption|exact Hr|exact Hs]|]. intros r b' H. exact H.
  - intros fmt dd [|fuel] ty name b pre rest _ Hf Hs Hr; [lia|]. cbn [render] in *.
    eapply wp_dispatch; [exact Hs|reflexivity..|]. rewrite Z.eqb_refl.
    eapply wp_mono; [apply (parse_string_text s); [assumption|exact Hs]|]. intros r b' H. exact H.
  - apply array_parses; [assumption|]. rewrite Forall_forall in *. auto.
  - apply object_parses; [assumption|]. rewrite Forall_forall in *. intros kv Hkv. apply IH; [exact Hkv|].
    apply H0, Hkv.
Qed.

(** ** Whole texts *)

Lemma render_first fmt d j : good j -> exists c s, render fmt d j = c :: s /\ 32 < c < 127.
Proof.
  intros Hg. destruct Hg as [|[]|n Hn| | |]; try (eexists _, _; split; [reflexivity|split; reflexivity]).
  destruct (int_text_starts n Hn) as (c & s & E & Hc). apply number_start in Hc.
  exists c, s. cbn [render]. split; [exact E|lia].
Qed.

Ltac literal_no_nul := solve [repeat first [apply Forall_nil_2 | apply Forall_cons_2; [discriminate|]]].

Lemma no_nul_app s t : no_nul s -> no_nul t -> no_nul (s ++ t).
Proof. intros Hs Ht. apply Forall_app. auto. Qed.

Lemma no_nul_int n : - max15 < n < max15 -> no_nul (int_text n).
Proof. intros Hn. eapply Forall_impl; [apply int_text_chars, Hn|]. intros c Hc ->. discriminate. Qed.

Lemma no_nul_esc c : 0 < c < 256 -> no_nul (esc c).
Proof.
  intros Hc. destruct (esc_cases c Hc) as [[-> _]|[(x & -> & Hx)|[-> Hlt]]].
  - constructor; [lia|constructor].
  - constructor; [discriminate|]. constructor; [|constructor]. intros ->. discriminate.
  - destruct (u04x_hex c ltac:(lia)) as (h & l & -> & Hh & Hl & _).
    do 4 (constructor; [discriminate|]).
    constructor; [intros ->; discriminate|]. constructor; [intros ->; discriminate|constructor].
Qed.

Lemma no_nul_string s : good_bytes s -> no_nul (string_text s).
Proof.
  intros Hs. constructor; [discriminate|]. apply no_nul_app; [|literal_no_nul].
  induction Hs as [|c s Hc Hs IH]; [constructor|]. apply no_nul_app; [apply no_nul_esc, Hc|exact IH].
Qed.

Lemma no_nul_repeat c n : c <> 0 -> no_nul (repeat c n).
Proof. intros Hc. induction n; constructor; auto. Qed.

Lemma no_nul_optional (fmt : bool) s : no_nul s -> no_nul (if fmt then s else []).
Proof. intros Hs. destruct fmt; [exact Hs|constructor]. Qed.

Lemma no_nul_sequence l :
  Forall (fun wt => no_nul (fst wt) /\ no_nul (snd wt)) l -> no_nul (sequence l).
Proof.
  induction 1 as [|[w t] l [Hw Ht] Hl IH]; [constructor|]. rewrite sequence_cons.
  apply no_nul_app; [exact Hw|]. apply no_nul_app; [exact Ht|].
  destruct l; [constructor|]. constructor; [discriminate|exact IH].
Qed.

Lemma no_nul_render fmt j : good j -> forall d, no_nul (render fmt d j).
Proof.
  induction j as [|v|n|s|l IH|l IH] using json_nested_ind; intros Hg d; inversion Hg; subst.
  - literal_no_nul.
  - destruct v; literal_no_nul.
  - apply no_nul_int. assumption.
  - apply no_nul_string. assumption.
  - cbn [render]. constructor; [discriminate|]. rewrite joined_sequence.
    apply no_nul_app; [|literal_no_nul]. apply no_nul_sequence.
    destruct IH as [|j l Hj Hl]; [constructor|]. apply Forall_cons in H0 as [Hgj Hgl].
    constructor; [split; [constructor|apply Hj, Hgj]|].
    induction Hl as [|k l Hk Hl IH]; [constructor|]. apply Forall_cons in Hgl as [Hgk Hgl].
    constructor; [|apply IH; [constructor; constructor; assumption|assumption]].
    split; [apply no_nul_optional; literal_no_nul|apply Hk, Hgk].
  - rewrite render_object. constructor; [discriminate|].
    assert (no_nul (if fmt then [10] else [])) as Hnl by (apply no_nul_optional; literal_no_nul).
    assert (forall n, no_nul (if fmt then tabs n else [])) as Htabs
      by (intros n; apply no_nul_optional, no_nul_repeat; discriminate).
    apply no_nul_app; [apply no_nul_sequence|apply no_nul_app; [apply no_nul_app; auto|literal_no_nul]].
    rewrite map_map. apply Forall_map. rewrite Forall_forall in *. intros kv Hkv.
    destruct (H0 kv Hkv) as [Hk Hv]. split; [apply no_nul_app; auto|].
    apply no_nul_app; [apply no_nul_string, Hk|]. constructor; [discriminate|].
    apply no_nul_app; [apply no_nul_optional; literal_no_nul|apply IH; assumption].
Qed.

Lemma wp_no_bom b c s (Q : unit -> parse_buffer -> Prop) :
  sees b [] (c :: s) -> c < 127 -> Q tt b -> wp skip_utf8_bom Q b.
Proof.
  intros Hs Hc HQ. apply wp_bind, wp_gets. destruct (can_access_at_index 4 b); cbn [negb]; [|exact HQ].
  apply wp_bind, wp_gets, wp_bind. cbn [strncmp_at utf8_bom]. apply wp_bind. eapply JsonSafe.wp_read.
  - rewrite (se_offset _ _ _ Hs). eapply (sees_lookup _ [] _ 0); [exact Hs|reflexivity].
  - destruct (Z.eqb_spec c 239); [lia|]. exact HQ.
Qed.

(** The parser turns the text of a value, compact or formatted, into its item, and stops at its
    end. *)
Lemma parse_render fmt j junk :
  good j -> (height j <= CJSON_NESTING_LIMIT)%nat ->
  cJSON_Parse can_alloc (Some (render fmt 0 j ++ 0 :: junk)) =
    Done {| parsed := Some (item_of None j); parse_end := Some (length (render fmt 0 j));
            global_error := None |}.
Proof.
  intros Hg Hh. unfold cJSON_Parse, cJSON_ParseWithOpts.
  rewrite has_nul_app_nul, c_str_app_nul by apply no_nul_render, Hg.
  unfold cJSON_ParseWithLengthOpts. set (n := length (render fmt 0 j)).
  destruct (Nat.eqb_spec (n + 1) 0); [lia|]. set (b := Build_parse_buffer _ _ _ _ _).
  assert (sees b [] (render fmt 0 j ++ [0])) as Hs.
  { split; [|reflexivity|cbn; rewrite length_app; cbn; lia]. unfold text_of. cbn.
    change (0 :: junk) with ([0] ++ junk). rewrite app_assoc. apply take_app_length'. rewrite length_app. reflexivity. }
  destruct (render_first fmt 0 j Hg) as (c & s & E & Hc).
  assert (wp (parse_body can_alloc false) (reaches b (render fmt 0 j) [0] (Some (item_of None j))) b) as Hwp.
  { apply wp_bind, wp_bind, wp_alloc. intros b1 ->. apply wp_ret. apply sees_allocs with (n := S (allocs b)) in Hs.
    rewrite E in Hs. apply wp_bind. eapply wp_no_bom; [exact Hs|lia|].
    apply wp_bind. eapply (wp_skip_to _ _ []); [exact Hs|constructor|lia|]. intros b2 Hs2 Hd2. apply wp_bind.
    change (([] : bytes) ++ []) with ([] : bytes) in Hs2. cbn in Hd2.
    eapply wp_mono; [apply (all_values_parse j Hg fmt 0%nat _ 0 None b2 [] [0])|].
    - lia.
    - unfold nesting_fuel. lia.
    - rewrite E. exact Hs2.
    - exists 0, []. auto.
    - intros r b' (-> & Hs' & Hd'). apply wp_ret. split; [reflexivity|]. split; [exact Hs'|].
      rewrite Hd', Hd2. reflexivity. }
  destruct (proj1 (wp_Done _ _ _) Hwp) as (r & b' & -> & -> & Hs' & _).
  rewrite (se_offset _ _ _ Hs'). reflexivity.
Qed.

End Parse.

End JsonText.
