(* ===== verification/JsonPrintSpec.v ===== *)
(** * The printer writes the text of a value

    What a print buffer holds, and that [print_value] writes [render] of a value behind it:
    every store stays inside the buffer, whatever the allocator does, and the printer only
    gives up when the text does not fit and the buffer cannot grow. *)

From Stdlib Require Import ZArith Lia SpecFloat Ascii.
From stdpp Require Import base numbers list strings.
From S2P Require Import Prelude DoubleArith Json JsonPrint JsonNum JsonText.
Open Scope Z_scope.

Module JsonPrintSpec.
Export JsonPrint JsonNum JsonText.

Section Printing.
Context (can_alloc : nat -> nat -> bool) (fresh : nat -> Z).

(** The buffer starts with [s]. *)
Record holding (p : printbuffer) (s : bytes) : Prop := {
  ho_memory : exists m, buffer p = Some m /\ (p_length p <= length m)%nat /\ take (length s) m = s;
  ho_fits : (length s <= p_length p)%nat;
  ho_length : Z.of_nat (p_length p) <= INT_MAX
}.

(** The next character goes behind [s], and there is place for one. *)
Record ready (p : printbuffer) (s : bytes) : Prop := {
  re_holding : holding p s;
  re_offset : p_offset p = length s;
  re_place : (length s < p_length p)%nat
}.

(** What no operation changes; the buffer only grows. *)
Record frame (p p' : printbuffer) : Prop := {
  fr_depth : p_depth p' = p_depth p;
  fr_noalloc : noalloc p' = noalloc p;
  fr_format : format p' = format p;
  fr_reallocate : reallocate p' = reallocate p;
  fr_length : (p_length p <= p_length p')%nat
}.

Lemma frame_refl p : frame p p.
Proof. split; reflexivity. Qed.

Lemma frame_trans p p' p'' : frame p p' -> frame p' p'' -> frame p p''.
Proof. intros [] []. split; try congruence. lia. Qed.

(** [n] bytes fit, or the buffer can grow to hold them. *)
Definition room (p : printbuffer) (n : nat) : Prop :=
  (n <= p_length p)%nat \/
  (noalloc p = false /\ (forall k size, can_alloc k size = true) /\ Z.of_nat n <= INT_MAX).

Lemma room_frame p p' n n' : frame p p' -> room p n' -> (n <= n')%nat -> room p' n.
Proof.
  intros [] [H|(Hn & Ha & Hl)] Hle; [left; lia|]. right. split; [congruence|]. split; [exact Ha|lia].
Qed.

(** ** The buffer *)

Lemma length_block n old : length (block fresh n old) = n.
Proof. unfold block. rewrite length_app, length_take, length_map, length_seq. lia. Qed.

Lemma take_block k n old : (k <= n)%nat -> (k <= length old)%nat -> take k (block fresh n old) = take k old.
Proof.
  intros Hn Ho. unfold block. rewrite take_app_le by (rewrite length_take; lia). rewrite take_take. f_equal. lia.
Qed.

Lemma wp_space needed (k : nat -> M printbuffer bool) p s (Q : bool -> printbuffer -> Prop) :
  ready p s ->
  (forall p', ready p' s -> frame p p' -> (length s + needed + 1 <= p_length p')%nat -> wp (k (length s)) Q p') ->
  (~ room p (length s + needed + 1) -> forall p', Q false p') ->
  wp (with_space can_alloc fresh needed k) Q p.
Proof.
  intros [[(m & Hm & Hlm & Ht) Hf Hl] Ho Hp] Hk Hno. apply wp_bind. unfold ensure. apply wp_bind, wp_gets.
  rewrite Hm, Ho. replace (p_length p <=? length s)%nat with false by (symmetry; apply Nat.leb_gt, Hp).
  rewrite andb_false_r. destruct (Z.ltb_spec INT_MAX (Z.of_nat needed)).
  { apply wp_ret, Hno. intros [|(_ & _ & ?)]; lia. }
  destruct (Nat.leb_spec (needed + length s + 1) (p_length p)).
  { apply wp_ret, Hk; [|apply frame_refl|lia]. split; [split|..]; eauto. }
  destruct (noalloc p) eqn:En.
  { apply wp_ret, Hno. intros [|(? & _)]; [lia|congruence]. }
  destruct (_ && _) eqn:Ebig.
  { zbool. apply wp_ret, Hno. intros [|(_ & _ & ?)]; lia. }
  set (newsize := if _ <? _ then _ else _).
  assert ((needed + length s + 1 <= newsize)%nat /\ Z.of_nat newsize <= INT_MAX) as [Hge Hle].
  { unfold newsize. assert (0 <= INT_MAX) by discriminate.
    destruct (Z.ltb_spec (INT_MAX / 2) (Z.of_nat (needed + length s + 1))); cbn [andb] in Ebig; zbool.
    - lia.
    - assert (2 * (INT_MAX / 2) <= INT_MAX) by (apply Z.mul_div_le; lia). lia. }
  clearbody newsize. apply wp_bind, wp_bind, wp_gets, wp_bind, wp_modify, wp_ret.
  destruct (can_alloc _ _) eqn:Ea.
  - apply wp_bind. replace (_ || _) with true by
      (symmetry; apply orb_true_iff; right; apply Nat.leb_le; lia).
    apply wp_ret, wp_bind, wp_modify, wp_ret. set (old := if reallocate p then m else _).
    assert ((length s <= length old)%nat /\ take (length s) old = s) as [Hol Hot].
    { unfold old. destruct (reallocate p); [split; [lia|exact Ht]|].
      rewrite length_take, take_take, (Nat.min_l (length s)) by lia. split; [lia|exact Ht]. }
    apply Hk; [|split; cbn; try reflexivity; lia|cbn; lia].
    split; [split|..]; cbn; try lia. eexists. split; [reflexivity|]. rewrite length_block.
    split; [lia|]. rewrite take_block by lia. exact Hot.
  - apply wp_bind, wp_modify, wp_ret, Hno. intros [|(_ & Ha & _)]; [lia|]. rewrite Ha in Ea. discriminate.
Qed.

Lemma holding_prefix p s t : holding p (s ++ t) -> holding p s.
Proof.
  intros [(m & Hm & Hl & Ht) Hf HL]. rewrite length_app in Hf. split; [|lia|exact HL].
  exists m. split; [exact Hm|]. split; [exact Hl|].
  apply (f_equal (take (length s))) in Ht. rewrite take_take, take_app_length in Ht.
  rewrite Nat.min_l in Ht by (rewrite length_app; lia). exact Ht.
Qed.

(** [p'] differs from [p] in what the buffer holds. *)
Definition rewritten (p p' : printbuffer) : Prop :=
  frame p p' /\ p_length p' = p_length p /\ p_offset p' = p_offset p.

Lemma wp_write p s bs (Q : unit -> printbuffer -> Prop) :
  holding p s -> (length s + length bs <= p_length p)%nat ->
  (forall p', holding p' (s ++ bs) -> rewritten p p' -> Q tt p') ->
  wp (write (length s) bs) Q p.
Proof.
  intros [(m & Hm & Hl & Ht) Hf HL] Hfit HQ. unfold wp, write. rewrite Hm.
  replace (_ <=? _)%nat with true by (symmetry; apply Nat.leb_le; lia). cbn.
  apply HQ; [|split; [split|]; cbn; auto].
  split; cbn; [|rewrite length_app; lia|exact HL]. eexists. split; [reflexivity|]. rewrite Ht. split.
  - rewrite !length_app, length_drop. lia.
  - rewrite app_assoc. apply take_app_length.
Qed.

Lemma wp_p_advance n p s (Q : unit -> printbuffer -> Prop) :
  holding p s -> (p_offset p + n = length s)%nat -> (length s < p_length p)%nat ->
  (forall p', ready p' s -> frame p p' -> p_length p' = p_length p -> Q tt p') -> wp (p_advance n) Q p.
Proof.
  intros [Hm Hf HL] Ho Hp HQ. apply wp_modify, HQ; [|split; reflexivity|reflexivity].
  split; [split|..]; assumption.
Qed.

(** ** Printed text *)

(** [t] and a terminator are behind [s], and the offset is somewhere in [t]. *)
Record wrote (p : printbuffer) (s t : bytes) : Prop := {
  wr_holding : holding p (s ++ t ++ [0]);
  wr_offset : (length s <= p_offset p <= length s + length t)%nat
}.

Lemma wp_update p s t (Q : unit -> printbuffer -> Prop) :
  no_nul t -> wrote p s t ->
  (forall p', ready p' (s ++ t) -> frame p p' -> p' = set_p_offset (length (s ++ t)) p -> Q tt p') ->
  wp update_offset Q p.
Proof.
  intros Hn [[(m & Hm & Hl & Ht) Hf HL] Ho] HQ. rewrite !length_app in Hf. cbn in Hf.
  unfold wp, update_offset. rewrite Hm.
  set (n := (p_offset p - length s)%nat).
  assert (drop (p_offset p) m = drop n t ++ 0 :: drop (length s + length t + 1) m) as ->.
  { rewrite <- (take_drop (length (s ++ t ++ [0])) m) at 1. rewrite Ht.
    rewrite drop_app_le by (rewrite !length_app; cbn; lia).
    rewrite drop_app_ge by lia. fold n. rewrite drop_app_le by lia.
    rewrite <- app_assoc. cbn [app]. do 3 f_equal. rewrite !length_app. cbn. lia. }
  rewrite has_nul_app_nul. rewrite c_str_app_nul by (apply Forall_drop, Hn).
  apply HQ; [|split; reflexivity|f_equal; cbn; rewrite length_drop, length_app; lia].
  assert (p_offset p + length (drop n t) = length (s ++ t))%nat as E by (rewrite length_drop, length_app; lia).
  split; [|exact E|cbn; rewrite length_app; lia]. apply (holding_prefix _ _ [0]). rewrite <- app_assoc.
  split; cbn; [eauto|rewrite !length_app; cbn; lia|exact HL].
Qed.

(** A function that needs room for [n] bytes: it reaches [final], or fails for lack of
    room. *)
Definition post (final : printbuffer -> Prop) (p : printbuffer) (n : nat) (ok : bool) (p' : printbuffer) : Prop :=
  (ok = true /\ final p' /\ frame p p') \/ (ok = false /\ ~ room p n).

(** Write [t] behind [s]; and the same with the offset behind the text. *)
Definition prints (c : M printbuffer bool) (p : printbuffer) (s t : bytes) : Prop :=
  wp c (post (fun p' => wrote p' s t) p (length s + length t + 2)) p.
Definition appends (c : M printbuffer bool) (p : printbuffer) (s t : bytes) : Prop :=
  wp c (post (fun p' => ready p' (s ++ t)) p (length s + length t + 2)) p.

Lemma post_frame F p q n n' ok p' : post F q n ok p' -> frame p q -> (n <= n')%nat -> post F p n' ok p'.
Proof.
  intros [(-> & HF & Hf)|(-> & Hno)] Hpq Hle; [left; eauto using frame_trans|].
  right. split; [reflexivity|]. intros H. apply Hno. eapply room_frame; eassumption.
Qed.

Lemma post_fail F p q n n' p' : ~ room q n -> frame p q -> (n <= n')%nat -> post F p n' false p'.
Proof. intros Hno. apply post_frame. right. auto. Qed.

Lemma room_le p n n' : room p n' -> (n <= n')%nat -> room p n.
Proof. apply room_frame, frame_refl. Qed.

(** A piece of text with the offset moved behind it; [z] is its terminator, if it is
    stored. *)
Lemma wp_piece needed n bs lit z (k : M printbuffer bool) p s (Q : bool -> printbuffer -> Prop) :
  ready p s -> bs = lit ++ z -> n = length lit ->
  (length lit <= needed <= length lit + 1)%nat -> (length z <= 1)%nat ->
  (forall p', ready p' (s ++ lit) -> frame p p' -> wp k Q p') ->
  (~ room p (length s + length lit + 2) -> forall p', Q false p') ->
  wp (with_space can_alloc fresh needed (fun at_ =>
        bind (write at_ bs) (fun _ => bind (p_advance n) (fun _ => k)))) Q p.
Proof.
  intros Hr -> -> Hn Hz Hk Hno. eapply wp_space; [exact Hr| |].
  - intros p1 Hr1 Hf1 Hl1. apply wp_bind.
    apply wp_write; [apply Hr1|rewrite length_app; lia|]. intros p2 Hh2 (Hf2 & Hl2 & Ho2).
    rewrite app_assoc in Hh2. apply holding_prefix in Hh2.
    apply wp_bind. eapply wp_p_advance; [exact Hh2| | |].
    + rewrite Ho2, (re_offset _ _ Hr1), length_app. reflexivity.
    + rewrite length_app. lia.
    + intros p3 Hr3 Hf3 _. apply Hk; [exact Hr3|]. eauto using frame_trans.
  - intros Hroom. apply Hno. intros H. apply Hroom. eapply room_le; [exact H|lia].
Qed.

Lemma literal_prints needed lit p s :
  ready p s -> needed = (length lit + 1)%nat -> prints (print_literal can_alloc fresh needed lit) p s lit.
Proof.
  intros Hr ->. eapply wp_space; [exact Hr| |].
  - intros p1 Hr1 Hf1 Hl1. apply wp_bind.
    apply wp_write; [apply Hr1|rewrite length_app; cbn; lia|]. intros p2 Hh2 (Hf2 & Hl2 & Ho2).
    apply wp_ret. left. split; [reflexivity|]. split; [|eauto using frame_trans].
    split; [exact Hh2|]. rewrite Ho2, (re_offset _ _ Hr1). lia.
  - intros Hroom p'. eapply post_fail; [exact Hroom|apply frame_refl|lia].
Qed.

Lemma number_prints n name p s :
  - max15 < n < max15 -> ready p s ->
  prints (print_number can_alloc fresh (item_of name (JInt n))) p s (int_text n).
Proof.
  intros Hn Hr. unfold print_number. cbn [valuedouble item_of]. rewrite number_text_int by exact Hn.
  pose proof (length_int_text n Hn) as Hlen. destruct (Nat.ltb_spec 25 (length (int_text n))); [lia|].
  eapply wp_space; [exact Hr| |].
  - intros p1 Hr1 Hf1 Hl1. apply wp_bind.
    apply wp_write; [apply Hr1|rewrite length_app; cbn; lia|]. intros p2 Hh2 (Hf2 & Hl2 & Ho2).
    apply wp_bind, wp_modify, wp_ret. left. split; [reflexivity|].
    pose proof (re_offset _ _ Hr1) as Ho1. split; [split|].
    + destruct Hh2. split; assumption.
    + cbn. lia.
    + apply (frame_trans _ p1); [exact Hf1|]. destruct Hf2. split; assumption.
  - intros Hroom p'. eapply post_fail; [exact Hroom|apply frame_refl|lia].
Qed.

(** ** Strings *)

Lemma length_esc_extra c : 0 < c -> length (esc c) = S (extra c).
Proof.
  intros Hc. unfold esc, escaped, extra.
  destruct (Z.eqb_spec c quote) as [->|Hq]; [reflexivity|].
  destruct (Z.eqb_spec c backslash) as [->|Hb]; [reflexivity|]. cbn [negb orb]. rewrite !andb_true_r.
  destruct (Z.eqb_spec c 8) as [->|]; [reflexivity|]. destruct (Z.eqb_spec c 12) as [->|]; [reflexivity|].
  destruct (Z.eqb_spec c 10) as [->|]; [reflexivity|]. destruct (Z.eqb_spec c 13) as [->|]; [reflexivity|].
  destruct (Z.eqb_spec c 9) as [->|]; [reflexivity|]. cbn [orb].
  destruct (Z.ltb_spec 31 c), (Z.ltb_spec c 32); cbn; try reflexivity; lia.
Qed.

Lemma length_escaped_text t : good_bytes t -> length (flat_map esc t) = (length t + escape_characters t)%nat.
Proof.
  unfold escape_characters. induction 1 as [|c t Hc Ht IH]; [reflexivity|].
  cbn. rewrite length_app, IH, length_esc_extra by lia. lia.
Qed.

Lemma no_escapes t : escape_characters t = 0%nat -> good_bytes t -> flat_map esc t = t.
Proof.
  unfold escape_characters. intros H Hg. induction Hg as [|c t Hc Ht IH]; [reflexivity|].
  cbn in *. rewrite IH by lia. pose proof (length_esc_extra c ltac:(lia)).
  destruct (esc_cases c Hc) as [[-> _]|[(x & E & _)|[E _]]]; [reflexivity|rewrite E in *; cbn in *; lia..].
Qed.

(** What the loop stores for a character fits where two more bytes do. *)
Lemma escaped_spec c : 0 < c < 256 ->
  exists z, fst (escaped c) = esc c ++ z /\ (length z <= 1)%nat /\ snd (escaped c) = length (esc c).
Proof.
  intros Hc. exists (drop (snd (escaped c)) (fst (escaped c))). split; [symmetry; apply take_drop|].
  unfold esc, escaped. repeat case_match; cbn; split; try reflexivity; lia.
Qed.

Lemma wp_escape_loop t p s (Q : unit -> printbuffer -> Prop) :
  good_bytes t -> holding p s -> (length s + length (flat_map esc t) + 1 <= p_length p)%nat ->
  (forall p', holding p' (s ++ flat_map esc t) -> rewritten p p' -> Q tt p') ->
  wp (escape_loop t (length s)) Q p.
Proof.
  intros Ht. revert p s. induction Ht as [|c t Hc Ht IH]; intros p s Hh Hl HQ; cbn [escape_loop flat_map] in *.
  - apply wp_ret, HQ; [rewrite app_nil_r; exact Hh|]. split; [apply frame_refl|auto].
  - rewrite length_app in Hl. destruct (escaped_spec c Hc) as (z & Ez & Hz & En).
    destruct (escaped c) as [bs n]. cbn [fst snd] in *. subst bs n.
    apply wp_bind, wp_write; [exact Hh|rewrite length_app; lia|]. intros p1 Hh1 (Hf1 & Hl1 & Ho1).
    rewrite app_assoc in Hh1. apply holding_prefix in Hh1. rewrite <- length_app.
    apply IH; [exact Hh1|rewrite length_app; lia|]. intros p2 Hh2 (Hf2 & Hl2 & Ho2).
    apply HQ; [rewrite app_assoc; exact Hh2|]. split; [eauto using frame_trans|]. split; congruence.
Qed.

Lemma string_prints t p s :
  good_bytes t -> ready p s -> prints (print_string_ptr can_alloc fresh (Some t)) p s (string_text t).
Proof.
  intros Ht Hr. unfold print_string_ptr.
  rewrite c_str_id by (eapply Forall_impl; [exact Ht|]; cbn; lia).
  rewrite <- length_escaped_text by exact Ht. set (L := length (flat_map esc t)).
  assert (length (string_text t) = L + 2)%nat as Hlen
    by (unfold string_text; cbn; rewrite length_app; cbn; unfold L; lia).
  eapply wp_space; [exact Hr| |].
  - intros p1 Hr1 Hf1 Hl1. pose proof (re_offset _ _ Hr1) as Ho1.
    apply wp_bind, wp_write; [apply Hr1|cbn; lia|]. intros p2 Hh2 (Hf2 & Hl2 & Ho2).
    apply wp_bind. replace (length s + 1)%nat with (length (s ++ [quote])) by (rewrite length_app; reflexivity).
    assert (forall p3, holding p3 ((s ++ [quote]) ++ flat_map esc t) -> rewritten p2 p3 ->
      wp (bind (write (length s + L + 1) [quote; 0]) (fun _ => ret true))
        (post (fun p' => wrote p' s (string_text t)) p (length s + length (string_text t) + 2)) p3) as Hend.
    { intros p3 Hh3 (Hf3 & Hl3 & Ho3).
      replace (length s + L + 1)%nat with (length ((s ++ [quote]) ++ flat_map esc t))
        by (rewrite !length_app; cbn; unfold L; lia).
      apply wp_bind, wp_write; [exact Hh3|rewrite !length_app; cbn; fold L; lia|].
      intros p4 Hh4 (Hf4 & Hl4 & Ho4). apply wp_ret. left. split; [reflexivity|].
      split; [|eauto using frame_trans]. split; [|lia].
      unfold string_text. rewrite <- !app_assoc in Hh4. cbn [app] in *. rewrite <- app_assoc. exact Hh4. }
    destruct (Nat.eqb_spec (escape_characters t) 0) as [E|E].
    + rewrite <- (no_escapes t E Ht) at 1.
      apply wp_write; [exact Hh2|rewrite length_app; cbn; fold L; lia|]. exact Hend.
    + apply wp_escape_loop; [exact Ht|exact Hh2|rewrite length_app; cbn; fold L; lia|]. exact Hend.
  - intros Hroom p'. eapply post_fail; [exact Hroom|apply frame_refl|lia].
Qed.

(** ** Containers *)

(** [c] then [k]: [k] runs behind the text of [c]. *)
Lemma wp_prints_then c k p s t (Q : bool -> printbuffer -> Prop) :
  no_nul t -> prints c p s t ->
  (forall p', ready p' (s ++ t) -> frame p p' -> wp k Q p') ->
  (~ room p (length s + length t + 2) -> forall p', Q false p') ->
  wp (andthen c (bind update_offset (fun _ => k))) Q p.
Proof.
  intros Hn Hc Hk Hno. apply wp_bind. eapply wp_mono; [exact Hc|].
  intros ok p1 [(-> & Hw & Hf1)|(-> & Hroom)].
  - apply wp_bind. eapply wp_update; [exact Hn|exact Hw|]. intros p2 Hr2 Hf2 _.
    apply Hk; [exact Hr2|eauto using frame_trans].
  - apply wp_ret, Hno, Hroom.
Qed.

(** The loops over the children. *)
Definition elements : list cJSON -> M printbuffer bool :=
  fix elements (l : list cJSON) : M printbuffer bool :=
    match l with
    | [] => ret true
    | x :: l' => andthen (array_turn can_alloc fresh (print_value can_alloc fresh x) (negb (bool_decide (l' = []))))
                   (elements l')
    end.

Definition members : list cJSON -> M printbuffer bool :=
  fix members (l : list cJSON) : M printbuffer bool :=
    match l with
    | [] => ret true
    | x :: l' => andthen (object_turn can_alloc fresh (string x) (print_value can_alloc fresh x)
                            (negb (bool_decide (l' = []))))
                   (members l')
    end.

Lemma array_turn_appends c (more : bool) p s t :
  no_nul t -> prints c p s t ->
  appends (array_turn can_alloc fresh c more) p s (t ++ if more then separator (format p) else []).
Proof.
  intros Hn Hc. eapply wp_prints_then; [exact Hn|exact Hc| |].
  - intros p1 Hr1 Hf1. destruct more.
    + apply wp_bind, wp_gets. rewrite (fr_format _ _ Hf1). fold (separator (format p)).
      eapply (wp_piece _ _ _ (separator (format p)) [0]); [exact Hr1|reflexivity|reflexivity|lia|cbn; lia| |].
      * intros p2 Hr2 Hf2. apply wp_ret. left. split; [reflexivity|].
        split; [rewrite app_assoc; exact Hr2|eauto using frame_trans].
      * intros Hno p'. eapply post_fail; [exact Hno|exact Hf1|]. rewrite !length_app. lia.
    + apply wp_ret. left. rewrite app_nil_r. auto.
  - intros Hno p'. eapply post_fail; [exact Hno|apply frame_refl|]. rewrite length_app. lia.
Qed.

(** [c] then [k], both appending. *)
Lemma appends_then c k p s t (F : printbuffer -> Prop) n :
  appends c p s t -> (length s + length t + 2 <= n)%nat ->
  (forall p', ready p' (s ++ t) -> frame p p' -> wp k (post F p' n) p') ->
  wp (andthen c k) (post F p n) p.
Proof.
  intros Hc Hn Hk. apply wp_bind. eapply wp_mono; [exact Hc|].
  intros ok p1 [(-> & Hr & Hf1)|(-> & Hno)].
  - eapply wp_mono; [apply Hk; eassumption|]. intros ok p2 H. eapply post_frame; [exact H|exact Hf1|lia].
  - apply wp_ret. eapply post_fail; [exact Hno|apply frame_refl|lia].
Qed.

Definition value_prints (j : json) : Prop :=
  forall name p s, ready p s ->
    prints (print_value can_alloc fresh (item_of name j)) p s (render (format p) (p_depth p) j).

Lemma more_children {A} (f : A -> cJSON) l : bool_decide (map f l = []) = match l with [] => true | _ => false end.
Proof. destruct l; [apply bool_decide_eq_true|apply bool_decide_eq_false]; [reflexivity|discriminate]. Qed.

Lemma elements_appends l p s :
  Forall good l -> Forall value_prints l -> ready p s ->
  appends (elements (map (item_of None) l)) p s
    (joined (separator (format p)) (map (render (format p) (p_depth p)) l)).
Proof.
  intros Hg Hl. revert p s. induction Hl as [|j l Hj Hl IH]; intros p s Hr.
  - apply wp_ret. left. rewrite app_nil_r. auto using frame_refl.
  - apply Forall_cons in Hg as [Hgj Hgl]. cbn [map elements]. rewrite more_children.
    set (sep := separator (format p)). set (R := render (format p) (p_depth p)).
    assert (joined sep (map R (j :: l)) =
              (R j ++ if negb (match l with [] => true | _ => false end) then sep else []) ++
              joined sep (map R l)) as E.
    { destruct l; cbn; rewrite ?app_nil_r, <- ?app_assoc; reflexivity. }
    unfold appends. cbn [map] in E. rewrite E. eapply appends_then.
    + apply array_turn_appends; [apply no_nul_render, Hgj|apply Hj, Hr].
    + rewrite !length_app. fold sep R. lia.
    + intros p1 Hr1 Hf1. specialize (IH Hgl p1 _ Hr1). rewrite (fr_format _ _ Hf1), (fr_depth _ _ Hf1) in IH.
      eapply wp_mono; [exact IH|]. intros ok p2 [(-> & Hr2 & Hf2)|(-> & Hno)].
      * left. split; [reflexivity|]. split; [rewrite app_assoc; exact Hr2|exact Hf2].
      * eapply post_fail; [exact Hno|apply frame_refl|]. fold sep R. rewrite !length_app. lia.
Qed.

(** Inside a container of [p]. *)
Definition deeper (p p' : printbuffer) : Prop := frame (set_p_depth (S (p_depth p)) p) p'.

Lemma deeper_fail F p q n n' p' : ~ room q n -> deeper p q -> (n <= n')%nat -> post F p n' false p'.
Proof.
  intros Hno Hd Hle. right. split; [reflexivity|]. intros H. apply Hno.
  eapply (room_frame (set_p_depth _ p)); [exact Hd|exact H|exact Hle].
Qed.

Lemma deeper_leave p q n : deeper p q -> n = (p_depth q - 1)%nat -> frame p (set_p_depth n q).
Proof. intros [] ->. cbn in *. split; cbn; try assumption. lia. Qed.

Lemma frame_deeper p p1 n : frame p p1 -> n = (p_depth p1 + 1)%nat -> deeper p (set_p_depth n p1).
Proof. intros [] ->. split; cbn; try assumption. lia. Qed.

Lemma ready_depth p s n : ready p s -> ready (set_p_depth n p) s.
Proof. intros [[] ? ?]. split; [split|..]; assumption. Qed.

(** The closing bracket of a container whose text starts behind [s0]. *)
Lemma wp_close needed bs lit p0 p s s0 t :
  ready p s -> deeper p0 p -> bs = lit ++ [0] -> needed = (length lit + 1)%nat ->
  s ++ lit = s0 ++ t -> (length s0 <= length s)%nat ->
  wp (with_space can_alloc fresh needed (fun at_ => bind (write at_ bs) (fun _ =>
        bind (modify (fun p => set_p_depth (p_depth p - 1) p)) (fun _ => ret true))))
     (post (fun p' => wrote p' s0 t) p0 (length s0 + length t + 2)) p.
Proof.
  intros Hr Hd -> -> E Hs. pose proof (f_equal length E) as El. rewrite !length_app in El.
  eapply wp_space; [exact Hr| |].
  - intros p1 Hr1 Hf1 Hl1. apply wp_bind, wp_write; [apply Hr1|rewrite length_app; cbn; lia|].
    intros p2 Hh2 (Hf2 & Hl2 & Ho2). apply wp_bind, wp_modify, wp_ret. left. split; [reflexivity|]. split.
    + rewrite app_assoc, E, <- app_assoc in Hh2. pose proof (re_offset _ _ Hr1) as Ho1.
      split; [destruct Hh2; split; assumption|cbn; lia].
    + apply deeper_leave; [|reflexivity]. unfold deeper in *. eauto using frame_trans.
  - intros Hno p'. eapply deeper_fail; [exact Hno|exact Hd|lia].
Qed.

Lemma array_prints l : Forall good l -> Forall value_prints l -> value_prints (JArray l).
Proof.
  intros Hg Hl name p s Hr. cbn [item_of render]. set (body := joined _ _).
  change (print_value _ _ _) with (print_array can_alloc fresh (elements (map (item_of None) l))).
  eapply (wp_piece _ _ _ [chr "["] []); [exact Hr|reflexivity|reflexivity|cbn; lia|cbn; lia| |].
  - intros p1 Hr1 Hf1. apply wp_bind, wp_modify, wp_bind. set (p2 := set_p_depth _ p1).
    assert (deeper p p2) as Hd2 by (apply frame_deeper; [exact Hf1|reflexivity]).
    pose proof (elements_appends l p2 _ Hg Hl (ready_depth _ _ _ Hr1)) as He.
    rewrite (fr_format _ _ Hd2), (fr_depth _ _ Hd2) in He. eapply wp_mono; [exact He|].
    cbn [p_depth set_p_depth format]. fold body. intros ok p3 [(-> & Hr3 & Hf3)|(-> & Hno)].
    + eapply (wp_close _ _ [chr "]"]); [exact Hr3|exact (frame_trans _ _ _ Hd2 Hf3)|reflexivity|reflexivity| |].
      * rewrite <- !app_assoc. reflexivity.
      * rewrite !length_app. lia.
    + apply wp_ret. eapply deeper_fail; [exact Hno|exact Hd2|]. rewrite !length_app. cbn. lia.
  - intros Hno p'. eapply post_fail; [exact Hno|apply frame_refl|]. rewrite !length_app. cbn. lia.
Qed.

(** *** Objects *)

Definition line_end (fmt more : bool) : bytes := (if more then [chr ","] else []) ++ (if fmt then [10] else []).

Definition member_line (fmt : bool) (d : nat) (k : bytes) (j : json) : bytes :=
  (if fmt then tabs d else []) ++ string_text k ++ [chr ":"] ++ (if fmt then [9] else []) ++ render fmt d j.

Lemma indent_appends p s :
  ready p s ->
  appends (if format p then
             bind (gets p_depth) (fun d => with_space can_alloc fresh d (fun at_ =>
               bind (write at_ (tabs d)) (fun _ => bind (p_advance d) (fun _ => ret true))))
           else ret true) p s (if format p then tabs (p_depth p) else []).
Proof.
  intros Hr. unfold appends. destruct (format p).
  - apply wp_bind, wp_gets. assert (length (tabs (p_depth p)) = p_depth p) as Hl by apply repeat_length.
    eapply (wp_piece _ _ _ (tabs (p_depth p)) []); [exact Hr|symmetry; apply app_nil_r|symmetry; exact Hl|lia|cbn; lia| |].
    + intros p1 Hr1 Hf1. apply wp_ret. left. auto.
    + intros Hno p'. eapply post_fail; [exact Hno|apply frame_refl|lia].
  - apply wp_ret. left. rewrite app_nil_r. auto using frame_refl.
Qed.

Lemma object_turn_appends k j (more : bool) p s :
  good_bytes k -> good j -> value_prints j -> ready p s ->
  appends (object_turn can_alloc fresh (Some k) (print_value can_alloc fresh (item_of (Some k) j)) more) p s
    (member_line (format p) (p_depth p) k j ++ line_end (format p) more).
Proof.
  intros Hk Hg Hj Hr. unfold object_turn. apply wp_bind, wp_gets. set (fmt := format p).
  set (total := member_line _ _ _ _ ++ _).
  assert (length total = length (if fmt then tabs (p_depth p) else []) + length (string_text k) +
            length (if fmt then [chr ":"; 9%Z] else [chr ":"]) + length (render fmt (p_depth p) j) +
            length (line_end fmt more))%nat as Hlen.
  { unfold total, member_line. rewrite !length_app. destruct fmt; cbn [length]; lia. }
  eapply appends_then; [apply indent_appends, Hr|fold fmt; lia|]. intros p1 Hr1 Hf1. fold fmt in Hr1.
  eapply wp_prints_then; [apply no_nul_string, Hk|apply string_prints; [exact Hk|exact Hr1]| |].
  2:{ intros Hno p'. eapply post_fail; [exact Hno|apply frame_refl|]. rewrite !length_app. lia. }
  intros p2 Hr2 Hf2. set (colon := if fmt then [chr ":"; 9%Z] else [chr ":"]) in *.
  eapply (wp_piece _ _ _ colon []); [exact Hr2|symmetry; apply app_nil_r|reflexivity|lia|cbn; lia| |].
  2:{ intros Hno p'. eapply post_fail; [exact Hno|exact Hf2|]. rewrite !length_app. lia. }
  intros p3 Hr3 Hf3. pose proof (Hj (Some k) p3 _ Hr3) as Hv.
  assert (format p3 = fmt) as Ef by (destruct Hf1, Hf2, Hf3; unfold fmt; congruence).
  assert (p_depth p3 = p_depth p) as Ed by (destruct Hf1, Hf2, Hf3; congruence). rewrite Ef, Ed in Hv.
  eapply wp_prints_then; [apply no_nul_render, Hg|exact Hv| |].
  2:{ intros Hno p'. eapply post_fail; [exact Hno|exact (frame_trans _ _ _ Hf2 Hf3)|]. rewrite !length_app. lia. }
  intros p4 Hr4 Hf4. fold (line_end fmt more).
  eapply (wp_piece _ _ _ (line_end fmt more) [0]); [exact Hr4|reflexivity|reflexivity|lia|cbn; lia| |].
  - intros p5 Hr5 Hf5. apply wp_ret. left. split; [reflexivity|]. split; [|eauto using frame_trans].
    unfold total, member_line. rewrite <- !app_assoc in Hr5. rewrite <- !app_assoc.
    unfold colon in Hr5. destruct fmt; exact Hr5.
  - intros Hno p'. eapply post_fail; [exact Hno|eauto using frame_trans|]. rewrite !length_app. lia.
Qed.

Lemma members_appends l p s :
  Forall (fun kv => good_bytes (fst kv) /\ good (snd kv)) l ->
  Forall (fun kv => value_prints (snd kv)) l -> ready p s ->
  appends (members (map (fun kv => item_of (Some (fst kv)) (snd kv)) l)) p s
    (lines (format p) (map (fun kv => member_line (format p) (p_depth p) (fst kv) (snd kv)) l)).
Proof.
  intros Hg Hl. revert p s. induction Hl as [|[k j] l Hj Hl IH]; intros p s Hr.
  - apply wp_ret. left. rewrite app_nil_r. auto using frame_refl.
  - apply Forall_cons in Hg as [[Hk Hgj] Hgl]. cbn [fst snd] in *.
    set (L := fun kv => member_line (format p) (p_depth p) (fst kv) (snd kv)).
    cbn [map members fst snd]. rewrite more_children.
    set (more := negb _).
    assert (lines (format p) (map L ((k, j) :: l)) =
              (L (k, j) ++ line_end (format p) more) ++ lines (format p) (map L l)) as E.
    { unfold more, line_end. destruct l; cbn; [rewrite app_nil_r|rewrite <- !app_assoc]; reflexivity. }
    unfold appends. cbn [map] in E. rewrite E.
    replace (string (item_of (Some k) j)) with (Some k) by (destruct j as [|[]| | | |]; reflexivity).
    eapply appends_then.
    + apply object_turn_appends; [exact Hk|exact Hgj|exact Hj|exact Hr].
    + rewrite !length_app. unfold L. cbn [fst snd]. lia.
    + intros p1 Hr1 Hf1. specialize (IH Hgl p1 _ Hr1). rewrite (fr_format _ _ Hf1), (fr_depth _ _ Hf1) in IH.
      eapply wp_mono; [exact IH|]. intros ok p2 [(-> & Hr2 & Hf2)|(-> & Hno)].
      * left. split; [reflexivity|]. split; [rewrite app_assoc; exact Hr2|exact Hf2].
      * eapply post_fail; [exact Hno|apply frame_refl|]. unfold L. cbn [fst snd]. rewrite !length_app. lia.
Qed.

Lemma object_prints l :
  Forall (fun kv => good_bytes (fst kv) /\ good (snd kv)) l ->
  Forall (fun kv => value_prints (snd kv)) l -> value_prints (JObject l).
Proof.
  intros Hg Hl name p s Hr. cbn [item_of render].
  change (print_value _ _ _) with
    (print_object can_alloc fresh (members (map (fun kv => item_of (Some (fst kv)) (snd kv)) l))).
  set (fmt := format p). set (body := lines fmt _).
  set (open := if fmt then [chr "{"; 10] else [chr "{"]).
  set (lit := (if fmt then tabs (p_depth p) else []) ++ [chr "}"]).
  replace ([chr "{"] ++ _) with (open ++ body ++ lit)
    by (unfold open, lit; destruct fmt; reflexivity).
  unfold print_object. apply wp_bind, wp_gets. fold fmt. fold open.
  eapply wp_space; [exact Hr| |].
  2:{ intros Hno p'. eapply post_fail; [exact Hno|apply frame_refl|]. unfold lit. rewrite !length_app. cbn. lia. }
  intros p1 Hr1 Hf1 Hl1. apply wp_bind, wp_write; [apply Hr1|lia|]. intros p2 Hh2 (Hf2 & Hl2 & Ho2).
  apply wp_bind, wp_modify. set (p3 := set_p_depth _ p2).
  assert (deeper p p3) as Hd3 by (apply frame_deeper; [eauto using frame_trans|reflexivity]).
  apply wp_bind. eapply (wp_p_advance _ _ (s ++ open)); [destruct Hh2; split; assumption| | |].
  { cbn. rewrite Ho2, (re_offset _ _ Hr1), length_app. reflexivity. }
  { cbn. rewrite length_app. lia. }
  intros p4 Hr4 Hf4 _. assert (deeper p p4) as Hd4 by exact (frame_trans _ _ _ Hd3 Hf4).
  apply wp_bind. pose proof (members_appends l p4 _ Hg Hl Hr4) as Hm.
  rewrite (fr_format _ _ Hd4), (fr_depth _ _ Hd4) in Hm. eapply wp_mono; [exact Hm|].
  cbn [format set_p_depth p_depth]. fold fmt. change (lines fmt _) with body.
  intros ok p5 [(-> & Hr5 & Hf5)|(-> & Hno)].
  2:{ apply wp_ret. eapply deeper_fail; [exact Hno|exact Hd4|]. rewrite !length_app. lia. }
  assert (deeper p p5) as Hd5 by exact (frame_trans _ _ _ Hd4 Hf5).
  apply wp_bind, wp_gets. pose proof (fr_depth _ _ Hd5) as Ed. cbn in Ed.
  eapply (wp_close _ _ lit); [exact Hr5|exact Hd5| | | |].
  - unfold lit. rewrite <- app_assoc. rewrite Ed. cbn [Nat.sub]. rewrite Nat.sub_0_r. reflexivity.
  - unfold lit. rewrite length_app, Ed. destruct fmt; [unfold tabs; rewrite repeat_length|]; cbn; lia.
  - rewrite <- !app_assoc. reflexivity.
  - rewrite !length_app. lia.
Qed.

Lemma all_values_print j : good j -> value_prints j.
Proof.
  induction j as [|v|n|t|l IH|l IH] using json_nested_ind; intros Hg; inversion Hg; subst.
  - intros name p s Hr. apply literal_prints; [exact Hr|reflexivity].
  - intros name p s Hr. destruct v; (apply literal_prints; [exact Hr|reflexivity]).
  - intros name p s Hr. apply number_prints; assumption.
  - intros name p s Hr. apply string_prints; assumption.
  - apply array_prints; [assumption|]. rewrite Forall_forall in *. auto.
  - apply object_prints; [assumption|]. rewrite Forall_forall in *. intros kv Hkv. apply IH; [exact Hkv|].
    apply H0, Hkv.
Qed.

(** ** The entry points *)

Lemma start_ready m n d fmt na re k :
  (0 < n)%nat -> (n <= length m)%nat -> Z.of_nat n <= INT_MAX ->
  ready {| buffer := Some m; p_length := n; p_offset := 0; p_depth := d; noalloc := na; format := fmt;
           reallocate := re; p_allocs := k |} [].
Proof.
  intros Hn Hm Hl. split; [split|..]; cbn; try lia. exists m. rewrite take_0. auto.
Qed.

(** The block [print] returns is the text and its terminator. *)
Lemma final_block m t (has_realloc : bool) n :
  take (length t + 1) m = t ++ [0] -> (length t < n <= length m)%nat ->
  (if has_realloc then ret (Some (block fresh (length t + 1) m))
   else
     let k := Nat.min n (length t + 1) in
     if (k <=? length m)%nat
     then ret (Some (take (length t) (block fresh (length t + 1) (take k m)) ++ [0]))
     else raise OutOfBounds) = (ret (Some (t ++ [0])) : M printbuffer (option bytes)).
Proof.
  intros Ht Hn. destruct has_realloc.
  - do 2 f_equal. rewrite <- Ht. rewrite <- (firstn_all (block _ _ _)), length_block. apply take_block; lia.
  - cbv zeta. rewrite Nat.min_r by lia. destruct (Nat.leb_spec (length t + 1) (length m)); [|lia].
    do 3 f_equal. rewrite take_block by (rewrite ?length_take; lia). rewrite take_take, Nat.min_l by lia.
    apply (f_equal (take (length t))) in Ht. rewrite take_take, take_app_length, Nat.min_l in Ht by lia. exact Ht.
Qed.

Lemma print_text fmt has_realloc j :
  (forall k size, can_alloc k size = true) -> good j ->
  Z.of_nat (length (render fmt 0 j)) + 2 <= INT_MAX ->
  print can_alloc fresh (item_of None j) fmt has_realloc = Done (Some (render fmt 0 j ++ [0])).
Proof.
  intros Ha Hg Hl. unfold print. set (t := render fmt 0 j) in *. set (start := Build_printbuffer _ _ _ _ _ _ _ _).
  match goal with |- match ?body start with _ => _ end = _ =>
    assert (wp body (fun r _ => r = Some (t ++ [0])) start) as Hwp end.
  2:{ destruct (proj1 (wp_Done _ _ _) Hwp) as (r & p' & -> & ->). reflexivity. }
  apply wp_bind, wp_bind, wp_gets, wp_bind, wp_modify, wp_ret. rewrite Ha. cbn [negb].
  apply wp_bind, wp_modify. set (p0 := set_buffer _ _ _).
  assert (ready p0 []) as Hr0.
  { apply start_ready; [unfold default_buffer_size; lia|rewrite length_block; lia|discriminate]. }
  apply wp_bind. eapply wp_mono; [exact (all_values_print j Hg None p0 [] Hr0)|].
  change (render (format p0) (p_depth p0) j) with t.
  intros ok p1 [(-> & Hw & _)|(_ & Hno)].
  2:{ exfalso. apply Hno. right. split; [reflexivity|]. split; [exact Ha|cbn [length]; lia]. }
  cbn [negb]. pose proof (wr_holding _ _ _ Hw) as Hh1.
  destruct (ho_memory _ _ Hh1) as (m & Hm & Hlm & Ht). pose proof (ho_fits _ _ Hh1) as Hf1. cbn [app] in *.
  rewrite length_app in *. cbn [length] in *.
  apply wp_bind. eapply wp_update; [apply no_nul_render, Hg|exact Hw|]. intros p2 _ _ ->.
  apply wp_bind, wp_gets, wp_bind, wp_bind, wp_gets, wp_bind, wp_modify, wp_ret. rewrite Ha. cbn [negb].
  cbn [app buffer set_p_offset p_offset p_length]. rewrite Hm.
  change (render _ _ j) with t. rewrite final_block; [apply wp_ret; reflexivity|exact Ht|lia].
Qed.

End Printing.

(** ** Theorems *)

(** C13: Printing the item of a JSON value whose strings are C strings, whose integers have at
    most 15 digits and whose containers nest at most [CJSON_NESTING_LIMIT] deep, formatted or not,
    with or without [realloc], as long as memory can be allocated and the text is shorter than 2 GB,
    gives a NUL-terminated block that [cJSON_Parse] turns back into the same item, with the same
    numbers, strings, names and order of children. *)
Theorem print_parse_roundtrip can_alloc fresh fmt has_realloc j
    (Halloc : forall k size, can_alloc k size = true) (Hgood : good j)
    (Hheight : (height j <= CJSON_NESTING_LIMIT)%nat)
    (Hsize : Z.of_nat (length (render fmt 0 j)) + 2 <= INT_MAX) :
  exists block,
    print can_alloc fresh (item_of None j) fmt has_realloc = Done (Some block) /\
    c_str block = render fmt 0 j /\
    cJSON_Parse can_alloc (Some block) =
      Done {| parsed := Some (item_of None j); parse_end := Some (length (c_str block));
              global_error := None |}.
Proof.
  exists (render fmt 0 j ++ [0]). split; [apply print_text; assumption|].
  assert (c_str (render fmt 0 j ++ [0]) = render fmt 0 j) as E by apply c_str_app_nul, no_nul_render, Hgood.
  split; [exact E|]. rewrite E. apply parse_render; assumption.
Qed.

(** The configuration of a client, with an escape and nested containers. *)
Definition sample : json :=
  JObject [(text "nodes", JArray [JObject [(text "id", JInt 0); (text "up", JBool true)]; JNull]);
           (text "path", JString (text "/mnt/" ++ [quote; 10; 1]));
           (text "offset", JInt (- 31850))].

Lemma sample_good : good sample.
Proof. prove_good. Qed.

Lemma print_parse_roundtrip_witness :
  exists block,
    print (fun _ _ => true) (fun _ => 170) (item_of None sample) true false = Done (Some block) /\
    c_str block = render true 0 sample /\
    cJSON_Parse (fun _ _ => true) (Some block) =
      Done {| parsed := Some (item_of None sample); parse_end := Some (length (c_str block));
              global_error := None |}.
Proof.
  apply (print_parse_roundtrip (fun _ _ => true) (fun _ => 170) true false sample).
  - reflexivity.
  - apply sample_good.
  - apply Nat.leb_le. vm_compute. reflexivity.
  - apply Z.leb_le. vm_compute. reflexivity.
Defined.

(** Printing such a value into memory of the caller stores nothing outside the first [len]
    bytes: if it reports success the memory starts with the text and a terminator, and it succeeds
    whenever [len] exceeds the length of the text by two. *)
Lemma print_preallocated_correct can_alloc fresh fmt j mem len
    (Hgood : good j) (Hlen : 0 < len <= INT_MAX) (Hmem : len <= Z.of_nat (length mem)) :
  exists ok mem',
    cJSON_PrintPreallocated can_alloc fresh (item_of None j) (Some mem) len fmt = Done (ok, mem') /\
    (ok = true -> exists m, mem' = Some m /\ has_nul m = true /\ c_str m = render fmt 0 j) /\
    (Z.of_nat (length (render fmt 0 j)) + 2 <= len -> ok = true).
Proof.
  unfold cJSON_PrintPreallocated. replace (len <? 0) with false by (symmetry; apply Z.ltb_ge; lia).
  rewrite bool_decide_eq_false_2 by discriminate. cbn [orb]. set (p := Build_printbuffer _ _ _ _ _ _ _ _).
  assert (ready p []) as Hr by (apply start_ready; lia).
  pose proof (all_values_print can_alloc fresh j Hgood None p [] Hr) as Hwp.
  change (render (format p) (p_depth p) j) with (render fmt 0 j) in Hwp.
  destruct (proj1 (wp_Done _ _ _) Hwp) as (ok & p' & -> & [(-> & Hw & _)|(-> & Hno)]); eexists _, _;
    (split; [reflexivity|]); split.
  - intros _. destruct (ho_memory _ _ (wr_holding _ _ _ Hw)) as (m & -> & _ & Ht). exists m. cbn [app] in Ht.
    rewrite <- (take_drop (length (render fmt 0 j ++ [0])) m), Ht, <- app_assoc. cbn [app].
    rewrite has_nul_app_nul, c_str_app_nul by apply no_nul_render, Hgood. auto.
  - auto.
  - discriminate.
  - intros Hfit. exfalso. apply Hno. left. cbn. lia.
Qed.

Lemma print_preallocated_correct_witness :
  exists ok mem',
    cJSON_PrintPreallocated (fun _ _ => true) (fun _ => 0) (item_of None sample) (Some (repeat 170 200)) 150 false
      = Done (ok, mem') /\
    (ok = true -> exists m, mem' = Some m /\ has_nul m = true /\ c_str m = render false 0 sample) /\
    (Z.of_nat (length (render false 0 sample)) + 2 <= 150 -> ok = true).
Proof.
  apply (print_preallocated_correct (fun _ _ => true) (fun _ => 0) false sample (repeat 170 200) 150).
  - apply sample_good.
  - split; [reflexivity|discriminate].
  - discriminate.
Defined.

(** Two bytes more than the text are needed even though the text and its terminator only take
    one more. *)
Lemma tight_buffer_refused :
  cJSON_PrintPreallocated (fun _ _ => true) (fun _ => 0) (item_of None (JInt 7)) (Some [170; 170]) 2 false
    = Done (false, Some [170; 170]) /\
  cJSON_PrintPreallocated (fun _ _ => true) (fun _ => 0) (item_of None (JInt 7)) (Some [170; 170; 170]) 3 false
    = Done (true, Some [55; 0; 170]).
Proof. split; vm_compute; reflexivity. Qed.

End JsonPrintSpec.
