(* ===== verification/JsonHooks.v ===== *)
(** * The allocation hooks of cJSON

    cJSON_InitHooks with cJSON_malloc and cJSON_free, and the small accessors beside them
    (src/src/common/cJSON.cc).  The printer grows its buffer with [realloc] when the hooks have one;
    [InitHooks] leaves one only when the memory is the system's, and the text printed is the same. *)

From Stdlib Require Import ZArith Lia.
From stdpp Require Import base numbers list strings.
From S2P Require Import Prelude Json JsonPrint JsonText JsonPrintSpec.
Open Scope Z_scope.

Module JsonHooks.
Export JsonPrintSpec.

(** ** The hooks *)

Section Hooks.
(** Function pointers, with those of the system. *)
Context {F : Type} `{EqDecision F} (malloc free realloc : F).

Record cJSON_Hooks := {
  malloc_fn : option F;
  free_fn : option F
}.

Record internal_hooks := {
  allocate : F;
  deallocate : F;
  reallocate_fn : option F
}.

(** [global_hooks] at the start of the program. *)
Definition global_hooks : internal_hooks := {| allocate := malloc; deallocate := free; reallocate_fn := Some realloc |}.

Definition cJSON_InitHooks (hooks : option cJSON_Hooks) : internal_hooks :=
  match hooks with
  | None => {| allocate := malloc; deallocate := free; reallocate_fn := Some realloc |}
  | Some h =>
      let a := default malloc (malloc_fn h) in
      let d := default free (free_fn h) in
      {| allocate := a; deallocate := d;
         reallocate_fn := if bool_decide (a = malloc) && bool_decide (d = free) then Some realloc else None |}
  end.

(** The functions that a call goes to. *)
Definition cJSON_malloc (h : internal_hooks) : F := allocate h.
Definition cJSON_free (h : internal_hooks) : F := deallocate h.

(** [realloc] is used on memory of [malloc] that goes back to [free], and only then. *)
Lemma init_hooks_realloc hooks : let h := cJSON_InitHooks hooks in
  match reallocate_fn h with
  | Some f => f = realloc /\ cJSON_malloc h = malloc /\ cJSON_free h = free
  | None => cJSON_malloc h <> malloc \/ cJSON_free h <> free
  end.
Proof.
  destruct hooks as [[m f]|]; cbn; [|auto]. case_bool_decide as Hm; [|left; exact Hm]. case_bool_decide as Hf; [cbn; auto|right; exact Hf].
Qed.

(** A null pointer restores the hooks. *)
Lemma init_hooks_reset : cJSON_InitHooks None = global_hooks.
Proof. reflexivity. Qed.

(** Whatever the hooks, an item is printed as the same text. *)
Lemma print_any_hooks can_alloc fresh fmt j hooks : (forall k size, can_alloc k size = true) -> good j ->
  Z.of_nat (length (render fmt 0 j)) + 2 <= INT_MAX ->
  print can_alloc fresh (item_of None j) fmt (bool_decide (is_Some (reallocate_fn (cJSON_InitHooks hooks)))) = Done (Some (render fmt 0 j ++ [0])).
Proof. intros Ha Hg Hl. apply print_text; assumption. Qed.

End Hooks.

(** ** Accessors *)

Definition CJSON_VERSION_MAJOR : nat := 1.
Definition CJSON_VERSION_MINOR : nat := 7.
Definition CJSON_VERSION_PATCH : nat := 14.

(** [sprintf] of numbers that are not negative. *)
Fixpoint decimal_text (fuel n : nat) : bytes :=
  match fuel with
  | O => []
  | S fuel' => if (n <? 10)%nat then [48 + Z.of_nat n] else decimal_text fuel' (n / 10) ++ [48 + Z.of_nat (n mod 10)]
  end.

Definition cJSON_Version : bytes :=
  let d n := decimal_text 20 n in d CJSON_VERSION_MAJOR ++ [46] ++ d CJSON_VERSION_MINOR ++ [46] ++ d CJSON_VERSION_PATCH.

Lemma version_fits : cJSON_Version = text "1.7.14" /\ (length cJSON_Version < 15)%nat.
Proof. split; [reflexivity|vm_compute; lia]. Qed.

(** The position in the text of the last parse, or a null pointer after one that succeeded. *)
Definition cJSON_GetErrorPtr (r : parse_result) : option nat := global_error r.

(** [ENABLE_LOCALES] is not set. *)
Definition get_decimal_point : Z := 46.

End JsonHooks.
