(* ===== verification/JsonItem.v ===== *)
(** * Queries on items

    The part of cJSON that reads items without changing them: the type tests, the access to
    children by index and by name, and the comparison of two items. *)

From Stdlib Require Import ZArith Lia SpecFloat Ascii.
From stdpp Require Import base numbers list strings.
From S2P Require Import Prelude DoubleArith Json JsonPrint JsonNum JsonText.
Open Scope Z_scope.

Module JsonItem.
Export JsonPrint JsonText.

(** ** Types *)

(** The null pointer has no type. *)
Definition has_type (ty : Z) (item : option cJSON) : bool :=
  match item with Some x => Z.land (type x) 255 =? ty | None => false end.

Definition cJSON_IsInvalid (item : option cJSON) : bool := has_type cJSON_Invalid item.
Definition cJSON_IsFalse (item : option cJSON) : bool := has_type cJSON_False item.
Definition cJSON_IsTrue (item : option cJSON) : bool := has_type cJSON_True item.
Definition cJSON_IsNull (item : option cJSON) : bool := has_type cJSON_NULL item.
Definition cJSON_IsNumber (item : option cJSON) : bool := has_type cJSON_Number item.
Definition cJSON_IsString (item : option cJSON) : bool := has_type cJSON_String item.
Definition cJSON_IsArray (item : option cJSON) : bool := has_type cJSON_Array item.
Definition cJSON_IsObject (item : option cJSON) : bool := has_type cJSON_Object item.
Definition cJSON_IsRaw (item : option cJSON) : bool := has_type cJSON_Raw item.

Definition cJSON_IsBool (item : option cJSON) : bool :=
  match item with Some x => negb (Z.land (type x) (Z.lor cJSON_True cJSON_False) =? 0) | None => false end.

Definition cJSON_GetStringValue (item : option cJSON) : option bytes :=
  if cJSON_IsString item then item ≫= valuestring else None.

Definition cJSON_GetNumberValue (item : option cJSON) : spec_float :=
  match item with
  | Some x => if cJSON_IsNumber item then valuedouble x else S754_nan
  | None => S754_nan
  end.

(** ** Names *)

Definition tolower (c : Z) : Z := if (chr "A" <=? c) && (c <=? chr "Z") then c + 32 else c.

(** On the characters before the terminators. *)
Fixpoint strcmp_loop (f : Z -> Z) (s t : bytes) : Z :=
  match s, t with
  | [], [] => 0
  | [], d :: _ => f 0 - f d
  | c :: _, [] => f c - f 0
  | c :: s', d :: t' => if f c =? f d then strcmp_loop f s' t' else f c - f d
  end.

Definition strcmp (s t : bytes) : Z := strcmp_loop (fun c => c) (c_str s) (c_str t).

(** Equal to 0 exactly on equal strings. *)
Lemma strcmp_eq s t : no_nul s -> no_nul t -> (strcmp_loop (fun c => c) s t =? 0) = bool_decide (s = t).
Proof.
  intros Hs. revert t. induction Hs as [|c s Hc Hs IH]; intros [|d t] Ht; cbn [strcmp_loop].
  - reflexivity.
  - apply Forall_cons in Ht as [Hd _]. rewrite bool_decide_eq_false_2 by discriminate. apply Z.eqb_neq. lia.
  - rewrite bool_decide_eq_false_2 by discriminate. apply Z.eqb_neq. lia.
  - apply Forall_cons in Ht as [_ Ht]. destruct (Z.eqb_spec c d) as [->|Hne].
    + rewrite IH by exact Ht. apply bool_decide_ext. split; congruence.
    + rewrite bool_decide_eq_false_2 by congruence. apply Z.eqb_neq. lia.
Qed.

(** Two null pointers are not equal. *)
Definition case_insensitive_strcmp (string1 string2 : option bytes) : Z :=
  match string1, string2 with
  | Some s, Some t => strcmp_loop tolower (c_str s) (c_str t)
  | _, _ => 1
  end.

(** Names are compared without regard to the case of letters. *)
Definition same_name (s t : bytes) : bool := bool_decide (map tolower s = map tolower t).

Lemma tolower_pos c : 0 < c -> 0 < tolower c.
Proof. intros Hc. unfold tolower. destruct (_ && _); lia. Qed.

Lemma strcmp_loop_zero f s t :
  (forall c, 0 < c -> 0 < f c) -> f 0 = 0 -> good_bytes s -> good_bytes t ->
  (strcmp_loop f s t =? 0) = bool_decide (map f s = map f t).
Proof.
  intros Hf H0 Hs. revert t. induction Hs as [|c s Hc Hs IH]; intros t Ht.
  - destruct Ht as [|d t Hd Ht]; cbn; [reflexivity|].
    rewrite bool_decide_eq_false_2 by discriminate. apply Z.eqb_neq. specialize (Hf d). lia.
  - destruct Ht as [|d t Hd Ht]; cbn.
    + rewrite bool_decide_eq_false_2 by discriminate. apply Z.eqb_neq. specialize (Hf c). lia.
    + destruct (Z.eqb_spec (f c) (f d)) as [E|E].
      * rewrite IH by exact Ht. apply bool_decide_ext. rewrite E. split; [intros ->; reflexivity|congruence].
      * rewrite bool_decide_eq_false_2 by congruence. apply Z.eqb_neq. lia.
Qed.

Lemma name_test s t : good_bytes s -> good_bytes t ->
  (case_insensitive_strcmp (Some s) (Some t) =? 0) = same_name s t.
Proof.
  intros Hs Ht. unfold case_insensitive_strcmp. rewrite !c_str_id by (apply good_no_nul; assumption).
  apply strcmp_loop_zero; auto using tolower_pos.
Qed.

(** ** Children *)

Definition cJSON_GetArraySize (array : option cJSON) : Z :=
  match array with Some x => i32 (Z.of_nat (length (child x))) | None => 0 end.

Definition get_array_item (array : option cJSON) (index : nat) : option cJSON :=
  match array with Some x => child x !! index | None => None end.

Definition cJSON_GetArrayItem (array : option cJSON) (index : Z) : option cJSON :=
  if index <? 0 then None else get_array_item array (Z.to_nat index).

(** The loops of [get_object_item]: the case sensitive one also ends at a child without a
    name. *)
Fixpoint find_sensitive (name : bytes) (l : list cJSON) : option cJSON :=
  match l with
  | [] => None
  | x :: l' =>
      match string x with
      | None => Some x
      | Some s => if strcmp name s =? 0 then Some x else find_sensitive name l'
      end
  end.

Fixpoint find_insensitive (name : bytes) (l : list cJSON) : option cJSON :=
  match l with
  | [] => None
  | x :: l' =>
      if case_insensitive_strcmp (Some name) (string x) =? 0 then Some x else find_insensitive name l'
  end.

Definition get_object_item (object : option cJSON) (name : option bytes) (case_sensitive : bool)
  : option cJSON :=
  match object, name with
  | Some o, Some n =>
      match (if case_sensitive then find_sensitive n (child o) else find_insensitive n (child o)) with
      | None => None
      | Some x => match string x with None => None | Some _ => Some x end
      end
  | _, _ => None
  end.

Definition cJSON_GetObjectItem (object : option cJSON) (name : option bytes) : option cJSON :=
  get_object_item object name false.

Definition cJSON_GetObjectItemCaseSensitive (object : option cJSON) (name : option bytes) : option cJSON :=
  get_object_item object name true.

Definition cJSON_HasObjectItem (object : option cJSON) (name : option bytes) : bool :=
  match cJSON_GetObjectItem object name with Some _ => true | None => false end.

(** ** Comparison *)

Definition known_types : list Z :=
  [cJSON_False; cJSON_True; cJSON_NULL; cJSON_Number; cJSON_String; cJSON_Raw; cJSON_Array; cJSON_Object].

Fixpoint compare_arrays (cmp : cJSON -> cJSON -> bool) (l l' : list cJSON) : bool :=
  match l, l' with
  | [], [] => true
  | x :: l, y :: l' => cmp x y && compare_arrays cmp l l'
  | _, _ => false
  end.

(** Every child of [a] equals the child of [b] of its name. *)
Definition compare_members (cmp : cJSON -> cJSON -> bool) (a b : cJSON) (case_sensitive : bool) : bool :=
  forallb (fun x => match get_object_item (Some b) (string x) case_sensitive with
                    | Some y => cmp x y
                    | None => false
                    end) (child a).

(** [a] and [b] are different items; two calls on the same item are told apart by
    [cJSON_Compare].  [fuel] bounds the nesting. *)
Fixpoint compare_items (fuel : nat) (case_sensitive : bool) (a b : cJSON) : bool :=
  match fuel with
  | O => false
  | S fuel' =>
      let ty := Z.land (type a) 255 in
      if negb (ty =? Z.land (type b) 255) || cJSON_IsInvalid (Some a) then false else
      if negb (existsb (Z.eqb ty) known_types) then false else
      if (ty =? cJSON_False) || (ty =? cJSON_True) || (ty =? cJSON_NULL) then true
      else if ty =? cJSON_Number then compare_double (valuedouble a) (valuedouble b)
      else if (ty =? cJSON_String) || (ty =? cJSON_Raw) then
        match valuestring a, valuestring b with
        | Some s, Some t => strcmp s t =? 0
        | _, _ => false
        end
      else if ty =? cJSON_Array then
        compare_arrays (compare_items fuel' case_sensitive) (child a) (child b)
      else if ty =? cJSON_Object then
        compare_members (compare_items fuel' case_sensitive) a b case_sensitive &&
        compare_members (compare_items fuel' case_sensitive) b a case_sensitive
      else false
  end.

Fixpoint depth_of (item : cJSON) : nat :=
  S (list_max ((fix depths (l : list cJSON) : list nat :=
                  match l with [] => [] | x :: l' => depth_of x :: depths l' end) (child item))).

(** [same]: the two pointers are equal. *)
Definition cJSON_Compare (same : bool) (a b : option cJSON) (case_sensitive : bool) : bool :=
  match a, b with
  | Some x, Some y =>
      if same then existsb (Z.eqb (Z.land (type x) 255)) known_types
      else compare_items (Nat.max (depth_of x) (depth_of y)) case_sensitive x y
  | _, _ => false
  end.

End JsonItem.
