(* ===== verification/JsonCompare.v ===== *)
(** * Comparison of items

    [cJSON_Compare] on the items of two values decides whether they are the same value up to the
    order of the members of objects, and up to the case of their names if it is told so.  Numbers are compared up to an epsilon, which does not
    confuse integers of at most 15 digits. *)

From Stdlib Require Import ZArith Lia SpecFloat Ascii.
From stdpp Require Import base numbers list strings.
From S2P Require Import Prelude DoubleArith Json JsonPrint JsonNum JsonText JsonItem.
Open Scope Z_scope.

Module JsonCompare.
Export JsonItem.

(** ** Integers *)

Lemma of_Z_shape n :
  - max15 < n < max15 -> n <> 0 ->
  exists p e, Double.of_Z n = S754_finite (n <? 0) p e /\ 2 ^ 52 <= Zpos p < 2 ^ 53 /\ -52 <= e <= -3 /\
    cond_Zopp (n <? 0) (Zpos p) = n * 2 ^ (- e).
Proof.
  intros Hn H0. pose proof max15_lt.
  assert (forall k, 1 <= k < max15 -> exists p e, Double.of_Z k = S754_finite false p e /\ 2 ^ 52 <= Zpos p < 2 ^ 53 /\
    -52 <= e <= -3 /\ Zpos p = k * 2 ^ (- e)) as Hpos.
  { intros k Hk. destruct (Double.of_Z_exact k) as (p & e & E & Hp & He & Hv); [lia|]. exists p, e.
    split; [exact E|]. split; [exact Hp|]. split; [|exact Hv]. split; [lia|].
    assert (k < 2 ^ 50) by (unfold max15 in Hk; lia). destruct (Z.leb_spec e (-3)) as [|Hgt]; [assumption|]. exfalso.
    assert (2 ^ (- e) <= 2 ^ 2) by (apply Z.pow_le_mono_r; lia). assert (0 < 2 ^ (- e)) by (apply Z.pow_pos_nonneg; lia). nia. }
  destruct (Z.ltb_spec n 0).
  - destruct (Hpos (- n)) as (p & e & E & Hp & He & Hv); [lia|]. exists p, e.
    rewrite <- (Z.opp_involutive n), of_Z_opp, E by lia. split; [reflexivity|]. split; [exact Hp|]. split; [exact He|].
    cbn [cond_Zopp]. lia.
  - apply Hpos. lia.
Qed.

Lemma shl_align_value p e e' : e' <= e -> Zpos (fst (shl_align p e e')) = Zpos p * 2 ^ (e - e').
Proof.
  intros He. unfold shl_align. destruct (e' - e) as [|d|d] eqn:E.
  - replace (e - e') with 0 by lia. cbn. lia.
  - lia.
  - cbn [fst]. rewrite Double.pos_iter_xO. do 2 f_equal. lia.
Qed.

(** A multiple of [2^(-e)] is rounded to a number of at least 1. *)
Lemma binary_round_one s q e k :
  -52 <= e <= 0 -> 1 <= k < 2 ^ 52 -> Zpos q = k * 2 ^ (- e) ->
  exists mm ee, SFabs (binary_round Double.prec Double.emax s q e) = S754_finite false mm ee /\ -52 <= ee.
Proof.
  intros He Hk Hq. assert (0 < 2 ^ (- e) <= 2 ^ 52) as Hpow by (split; [apply Z.pow_pos_nonneg|apply Z.pow_le_mono_r]; lia).
  pose proof (Double.digits2_pos_bound q) as [_ Hu].
  assert (Zpos (digits2_pos q) <= 104) as Hd by (apply Double.digits2_pos_le; nia).
  set (d := Zpos (digits2_pos q)) in *. assert (1 <= d) as Hd1 by (unfold d; lia).
  assert (fexp Double.prec Double.emax (d + e) = d + e - 53) as Hf by (unfold fexp, emin, Double.prec, Double.emax; lia).
  assert (exists mz ez, shl_align q e (d + e - 53) = (mz, ez) /\ -1074 <= ez <= 0 /\ Zpos mz < 2 ^ 105 /\
    Double.scaled (Zpos mz) ez = Double.scaled (Zpos q) e) as (mz & ez & Ea & Hez & Hmz & Hsc).
  { unfold shl_align. destruct (d + e - 53 - e) as [|x|x] eqn:Ex.
    - exists q, e. split; [reflexivity|]. split; [lia|]. split; [nia|reflexivity].
    - exists q, e. split; [reflexivity|]. split; [lia|]. split; [nia|reflexivity].
    - assert (Zpos x = 53 - d) as Hx by lia. eexists _, _. split; [reflexivity|]. rewrite Double.pos_iter_xO, Hx.
      split; [lia|]. split.
      + assert (2 ^ d * 2 ^ (53 - d) = 2 ^ 53) as E53 by (rewrite <- Z.pow_add_r by lia; f_equal; lia).
        assert (0 < 2 ^ (53 - d)) by (apply Z.pow_pos_nonneg; lia). nia.
      + unfold Double.scaled. rewrite <- Z.mul_assoc, <- Z.pow_add_r by lia. do 2 f_equal. lia. }
  assert (Zpos (digits2_pos mz) <= 105) by (apply Double.digits2_pos_le; lia).
  assert (Double.scaled 1 0 <= Double.scaled (Zpos mz) ez) as Hone.
  { rewrite Hsc, Hq. unfold Double.scaled. rewrite <- Z.mul_assoc, <- Z.pow_add_r by lia.
    replace (- e + (e + 1074)) with 1074 by lia. rewrite Z.add_0_l. assert (0 < 2 ^ 1074) by (apply Z.pow_pos_nonneg; lia). nia. }
  destruct (Double.binary_round_aux_ge mz ez loc_Exact 1) as (mm & ee & E & Hee & Hmm & Hlo & _); [lia..|exact Hone|].
  exists mm, ee. split.
  - unfold binary_round. fold d. rewrite Hf, Ea. destruct s; [rewrite binary_round_aux_opp|]; rewrite E; reflexivity.
  - destruct (Z.leb_spec (-52) ee) as [|Hlt]; [assumption|]. exfalso. unfold Double.scaled in Hlo.
    assert (2 ^ (ee + 1074) <= 2 ^ 1021) by (apply Z.pow_le_mono_r; lia).
    assert (2 ^ 1074 = 2 ^ 53 * 2 ^ 1021) by (rewrite <- Z.pow_add_r by lia; reflexivity).
    assert (0 < 2 ^ 1021) by (apply Z.pow_pos_nonneg; lia). rewrite Z.add_0_l in Hlo.
    set (X := 2 ^ 1021) in *. set (Y := 2 ^ (ee + 1074)) in *. clearbody X Y. nia.
Qed.

Lemma product_small p e :
  2 ^ 52 <= Zpos p < 2 ^ 53 -> -52 <= e <= -3 ->
  exists mm ee, Double.mul (S754_finite false p e) DBL_EPSILON = S754_finite false mm ee /\ ee <= -54.
Proof.
  intros Hp He. unfold Double.mul, DBL_EPSILON, SFmul. cbn [xorb].
  assert (Zpos (digits2_pos (p * 4503599627370496)) = 105) as Hd by (apply Double.digits2_pos_unique; lia).
  destruct (Double.binary_round_aux_exponent (p * 4503599627370496) (e + -104) loc_Exact) as (mm & ee & -> & Hee & _);
    [lia|lia|]. rewrite Hd in Hee. exists mm, ee. split; [reflexivity|]. lia.
Qed.

Lemma difference_large m n :
  - max15 < m < max15 -> - max15 < n < max15 -> m <> n ->
  exists mm ee, SFabs (SFsub Double.prec Double.emax (Double.of_Z m) (Double.of_Z n)) = S754_finite false mm ee /\ -52 <= ee.
Proof.
  intros Hm Hn Hne. destruct (Z.eq_dec m 0) as [->|Hm0].
  { destruct (of_Z_shape n Hn) as (p & e & -> & _ & He & _); [lia|]. eexists _, _. split; [reflexivity|lia]. }
  destruct (of_Z_shape m Hm Hm0) as (p & e & -> & _ & He & Hp). destruct (Z.eq_dec n 0) as [->|Hn0].
  { eexists _, _. split; [reflexivity|lia]. }
  destruct (of_Z_shape n Hn Hn0) as (p' & e' & -> & _ & He' & Hp'). cbn [SFsub]. set (ez := Z.min e e').
  assert (forall b x, Zpos (fst (shl_align x b ez)) = Zpos x * 2 ^ (b - ez) -> forall s,
    cond_Zopp s (Zpos (fst (shl_align x b ez))) = cond_Zopp s (Zpos x) * 2 ^ (b - ez)) as Hsign
    by (intros b x E []; cbn [cond_Zopp]; lia).
  rewrite !Hsign, Hp, Hp' by (apply shl_align_value; lia). clear Hsign.
  rewrite <- !Z.mul_assoc, <- !Z.pow_add_r by lia.
  replace (- e + (e - ez)) with (- ez) by lia. replace (- e' + (e' - ez)) with (- ez) by lia.
  rewrite <- Z.mul_sub_distr_r. set (z := (m - n) * 2 ^ (- ez)).
  assert (0 < 2 ^ (- ez)) as Hpow by (apply Z.pow_pos_nonneg; lia). unfold max15 in *.
  destruct z as [|q|q] eqn:Ez; unfold z in Ez.
  - nia.
  - apply (binary_round_one false q ez (m - n)); [lia|nia|lia].
  - apply (binary_round_one true q ez (n - m)); [lia|nia|lia].
Qed.

(** The epsilon does not confuse integers. *)
Lemma compare_double_int m n :
  - max15 < m < max15 -> - max15 < n < max15 -> compare_double (Double.of_Z m) (Double.of_Z n) = bool_decide (m = n).
Proof.
  intros Hm Hn. destruct (decide (m = n)) as [->|Hne].
  { rewrite bool_decide_eq_true_2 by reflexivity. apply compare_double_refl, Hn. }
  rewrite bool_decide_eq_false_2 by exact Hne. unfold compare_double.
  destruct (difference_large m n Hm Hn Hne) as (mm & ee & -> & Hee).
  assert (forall k, - max15 < k < max15 -> SFleb (S754_finite false mm ee) (Double.mul (SFabs (Double.of_Z k)) DBL_EPSILON) = false) as Hle.
  { intros k Hk. destruct (Z.eq_dec k 0) as [->|Hk0]; [reflexivity|].
    destruct (of_Z_shape k Hk Hk0) as (p & e & -> & Hp & He & _). cbn [SFabs].
    destruct (product_small p e Hp He) as (mm' & ee' & -> & Hee'). unfold SFleb, SFcompare.
    rewrite (proj2 (Z.compare_gt_iff ee ee')) by lia. reflexivity. }
  destruct (SFltb _ _); apply Hle; assumption.
Qed.

(** ** Values *)

Section Mode.
Context (case_sensitive : bool).

(** What counts of a name in the mode. *)
Definition folded (k : bytes) : bytes := if case_sensitive then k else map tolower k.

(** The same value, up to the order of members and, in the insensitive mode, the case of
    their names. *)
Inductive alike : json -> json -> Prop :=
  | alike_null : alike JNull JNull
  | alike_bool b : alike (JBool b) (JBool b)
  | alike_int n : alike (JInt n) (JInt n)
  | alike_string s : alike (JString s) (JString s)
  | alike_array l l' : Forall2 alike l l' -> alike (JArray l) (JArray l')
  | alike_object l l' :
      (forall k v, (k, v) ∈ l -> exists k' v', (k', v') ∈ l' /\ folded k = folded k' /\ alike v v') ->
      (forall k v', (k, v') ∈ l' -> exists k' v, (k', v) ∈ l /\ folded k = folded k' /\ alike v' v) ->
      alike (JObject l) (JObject l').

(** No object has two members of one name. *)
Inductive distinct : json -> Prop :=
  | distinct_null : distinct JNull
  | distinct_bool b : distinct (JBool b)
  | distinct_int n : distinct (JInt n)
  | distinct_string s : distinct (JString s)
  | distinct_array l : Forall distinct l -> distinct (JArray l)
  | distinct_object l :
      NoDup (map (fun kv => folded (fst kv)) l) -> Forall (fun kv => distinct (snd kv)) l -> distinct (JObject l).

Definition member (kv : bytes * json) : cJSON := item_of (Some (fst kv)) (snd kv).

Lemma strcmp_good s t : good_bytes s -> good_bytes t -> (strcmp s t =? 0) = bool_decide (s = t).
Proof. intros Hs Ht. unfold strcmp. rewrite !c_str_id by auto using good_no_nul. apply strcmp_eq; auto using good_no_nul. Qed.

(** The two searches of [get_object_item] as one. *)
Definition find_named (k : bytes) (l : list cJSON) : option cJSON :=
  if case_sensitive then find_sensitive k l else find_insensitive k l.

Lemma find_named_cons k kv l :
  good_bytes k -> good_bytes (fst kv) ->
  find_named k (member kv :: l) = if bool_decide (folded k = folded (fst kv)) then Some (member kv) else find_named k l.
Proof.
  intros Hk Hkv. unfold find_named, folded. destruct case_sensitive; cbn [find_sensitive find_insensitive];
    unfold member at 1; rewrite string_item_of.
  - rewrite strcmp_good by assumption. reflexivity.
  - rewrite name_test by assumption. reflexivity.
Qed.

Lemma find_member l k :
  good_bytes k -> Forall (fun kv => good_bytes (fst kv)) l -> NoDup (map (fun kv => folded (fst kv)) l) ->
  (forall kv, kv ∈ l -> folded k = folded (fst kv) -> find_named k (map member l) = Some (member kv)) /\
  (forall x, find_named k (map member l) = Some x -> exists kv, kv ∈ l /\ folded k = folded (fst kv) /\ x = member kv).
Proof.
  intros Hk Hl. induction Hl as [|kv' l Hk' Hl IH]; intros Hn.
  { split; [intros kv Hv; inversion Hv|]. unfold find_named. destruct case_sensitive; discriminate. }
  cbn [map] in Hn. apply NoDup_cons in Hn as [Hk'l Hn]. destruct (IH Hn) as [IH1 IH2].
  cbn [map]. rewrite find_named_cons by assumption. case_bool_decide as E.
  - split.
    + intros kv [->|Hv]%elem_of_cons E'; [reflexivity|]. destruct Hk'l. rewrite <- E, E'.
      apply (elem_of_map_intro (fun kv => folded (fst kv)) _ _ Hv).
    + intros x [= <-]. exists kv'. split; [left|]. auto.
  - split.
    + intros kv [->|Hv]%elem_of_cons E'; [contradiction|]. apply IH1; assumption.
    + intros x Hx. destruct (IH2 x Hx) as (kv & Hv & E' & ->). exists kv. split; [right; exact Hv|auto].
Qed.

Lemma get_named name l k :
  get_object_item (Some (item_of name (JObject l))) (Some k) case_sensitive
  = match find_named k (map member l) with
    | None => None
    | Some x => match string x with None => None | Some _ => Some x end
    end.
Proof. reflexivity. Qed.

(** One of the two loops over the members. *)
Lemma compare_members_spec cmp name name' l l' :
  Forall (fun kv => good_bytes (fst kv)) l -> Forall (fun kv => good_bytes (fst kv)) l' ->
  NoDup (map (fun kv => folded (fst kv)) l') ->
  compare_members cmp (item_of name (JObject l)) (item_of name' (JObject l')) case_sensitive = true <->
  (forall kv, kv ∈ l -> exists kv', kv' ∈ l' /\ folded (fst kv) = folded (fst kv') /\ cmp (member kv) (member kv') = true).
Proof.
  intros Hl Hl' Hn. unfold compare_members. rewrite forallb_forall.
  change (child (item_of name (JObject l))) with (map member l). rewrite Forall_forall in Hl. split.
  - intros H kv Hkv. specialize (H (member kv)). rewrite <- list_elem_of_In in H.
    specialize (H (elem_of_map_intro member _ _ Hkv)). unfold member in H at 1. rewrite string_item_of, get_named in H.
    destruct (find_member l' (fst kv) (Hl _ Hkv) Hl' Hn) as [_ H2].
    destruct (find_named _ _) as [y|] eqn:E; [|discriminate]. destruct (H2 y eq_refl) as (kv' & Hv' & E' & ->).
    unfold member in H at 1. rewrite string_item_of in H. eauto.
  - intros H x Hx. apply in_map_iff in Hx as (kv & <- & Hkv). apply list_elem_of_In in Hkv.
    destruct (H kv Hkv) as (kv' & Hv' & E & Hc). destruct (find_member l' (fst kv) (Hl _ Hkv) Hl' Hn) as [H1 _].
    unfold member at 1. rewrite string_item_of, get_named, (H1 kv' Hv' E). unfold member at 1. rewrite string_item_of.
    exact Hc.
Qed.

Lemma compare_arrays_spec cmp l l' : compare_arrays cmp l l' = true <-> Forall2 (fun x y => cmp x y = true) l l'.
Proof.
  revert l'. induction l as [|x l IH]; intros [|y l']; cbn [compare_arrays].
  - split; [constructor|reflexivity].
  - split; [discriminate|]. intros H. inversion H.
  - split; [discriminate|]. intros H. inversion H.
  - rewrite andb_true_iff, Forall2_cons, IH. reflexivity.
Qed.

Lemma alike_object_iff l l' :
  alike (JObject l) (JObject l') <->
  (forall kv, kv ∈ l -> exists kv', kv' ∈ l' /\ folded (fst kv) = folded (fst kv') /\ alike (snd kv) (snd kv')) /\
  (forall kv', kv' ∈ l' -> exists kv, kv ∈ l /\ folded (fst kv') = folded (fst kv) /\ alike (snd kv') (snd kv)).
Proof.
  split.
  - intros H. inversion H as [| | | | |? ? H1 H2]; subst. split; intros [k v] Hv.
    + destruct (H1 k v Hv) as (k' & v' & ? & ? & ?). exists (k', v'). auto.
    + destruct (H2 k v Hv) as (k' & v' & ? & ? & ?). exists (k', v'). auto.
  - intros [H1 H2]. constructor; intros k v Hv.
    + destruct (H1 (k, v) Hv) as ([k' v'] & ? & ? & ?). exists k', v'. auto.
    + destruct (H2 (k, v) Hv) as ([k' v'] & ? & ? & ?). exists k', v'. auto.
Qed.

Lemma alike_array_iff l l' : alike (JArray l) (JArray l') <-> Forall2 alike l l'.
Proof. split; [intros H; inversion H; auto|intros H; constructor; assumption]. Qed.

Definition decides (fuel : nat) (j j' : json) : Prop :=
  forall name name', compare_items fuel case_sensitive (item_of name j) (item_of name' j') = true <-> alike j j'.

Lemma Forall2_decides fuel l l' :
  (forall j j', j ∈ l -> j' ∈ l' -> decides fuel j j') ->
  Forall2 (fun x y => compare_items fuel case_sensitive x y = true) (map (item_of None) l) (map (item_of None) l') <-> Forall2 alike l l'.
Proof.
  revert l'. induction l as [|j l IH]; intros [|j' l'] H; cbn [map].
  - split; constructor.
  - split; intros H'; inversion H'.
  - split; intros H'; inversion H'.
  - assert (decides fuel j j') as Hd by (apply H; left). rewrite !Forall2_cons, (Hd None None). rewrite IH; [reflexivity|]. intros x y Hx Hy. apply H; right; assumption.
Qed.

Lemma members_decide fuel name name' l l' :
  Forall (fun kv => good_bytes (fst kv)) l -> Forall (fun kv => good_bytes (fst kv)) l' -> NoDup (map (fun kv => folded (fst kv)) l') ->
  (forall kv kv', kv ∈ l -> kv' ∈ l' -> decides fuel (snd kv) (snd kv')) ->
  compare_members (compare_items fuel case_sensitive) (item_of name (JObject l)) (item_of name' (JObject l')) case_sensitive = true <->
  (forall kv, kv ∈ l -> exists kv', kv' ∈ l' /\ folded (fst kv) = folded (fst kv') /\ alike (snd kv) (snd kv')).
Proof.
  intros Hl Hl' Hn H. rewrite compare_members_spec by assumption. split; intros Hm kv Hv.
  - destruct (Hm kv Hv) as (kv' & Hv' & E & Hc). exists kv'. split; [exact Hv'|]. split; [exact E|].
    apply (H _ _ Hv Hv' (Some (fst kv)) (Some (fst kv'))), Hc.
  - destruct (Hm kv Hv) as (kv' & Hv' & E & Hc). exists kv'. split; [exact Hv'|]. split; [exact E|].
    apply (H _ _ Hv Hv'), Hc.
Qed.

(** The cases of [compare_items] on items of values. *)
Lemma compare_step fuel name name' j j' :
  compare_items (S fuel) case_sensitive (item_of name j) (item_of name' j') =
    match j, j' with
    | JNull, JNull => true
    | JBool b, JBool b' => bool_decide (b = b')
    | JInt n, JInt n' => compare_double (Double.of_Z n) (Double.of_Z n')
    | JString s, JString s' => strcmp s s' =? 0
    | JArray l, JArray l' => compare_arrays (compare_items fuel case_sensitive) (map (item_of None) l) (map (item_of None) l')
    | JObject l, JObject l' =>
        compare_members (compare_items fuel case_sensitive) (item_of name (JObject l)) (item_of name' (JObject l')) case_sensitive &&
        compare_members (compare_items fuel case_sensitive) (item_of name' (JObject l')) (item_of name (JObject l)) case_sensitive
    | _, _ => false
    end.
Proof. destruct j as [|[]| | | |], j' as [|[]| | | |]; reflexivity. Qed.

Lemma depth_of_children (x : cJSON) : depth_of x = S (list_max (map depth_of (child x))).
Proof. destruct x. reflexivity. Qed.

Definition depth (j : json) : nat := depth_of (item_of None j).

Lemma depth_name name j : depth_of (item_of name j) = depth j.
Proof. destruct j as [|[]| | | |]; reflexivity. Qed.

Lemma child_depth {A} (f : A -> cJSON) (l : list A) x n : (S (list_max (map depth_of (map f l))) <= S n)%nat -> x ∈ l ->
  (depth_of (f x) <= n)%nat.
Proof.
  intros Hl Hx. pose proof (list_max_le _ _ (depth_of (f x)) (le_n _)
    (elem_of_map_intro depth_of _ _ (elem_of_map_intro f _ _ Hx))). lia.
Qed.

Lemma compare_items_decides fuel : forall j j',
  good j -> good j' -> distinct j -> distinct j' -> (depth j <= fuel)%nat -> (depth j' <= fuel)%nat -> decides fuel j j'.
Proof.
  induction fuel as [|fuel IH]; intros j j' Hg Hg' Hd Hd' Hh Hh' name name';
    unfold depth in Hh, Hh'; rewrite depth_of_children in Hh, Hh'; [lia|]. rewrite compare_step.
  destruct j, j'; try (split; [discriminate|intros H; inversion H]).
  - split; [constructor|reflexivity].
  - rewrite bool_decide_eq_true. split; [intros ->; constructor|intros H; inversion H; reflexivity].
  - inversion Hg; inversion Hg'; subst. rewrite compare_double_int, bool_decide_eq_true by assumption.
    split; [intros ->; constructor|intros H'; inversion H'; reflexivity].
  - inversion Hg; inversion Hg'; subst. rewrite strcmp_good, bool_decide_eq_true by assumption.
    split; [intros ->; constructor|intros H'; inversion H'; reflexivity].
  - inversion Hg as [| | | |? Hl|]; inversion Hg' as [| | | |? Hl'|]; inversion Hd as [| | | |? Dl|]; inversion Hd' as [| | | |? Dl'|]; subst.
    rewrite Forall_forall in *. rewrite compare_arrays_spec, alike_array_iff. apply Forall2_decides. intros x y Hx Hy.
    apply IH; auto; [apply (child_depth _ _ _ _ Hh Hx)|apply (child_depth _ _ _ _ Hh' Hy)].
  - inversion Hg as [| | | | |? Hl]; inversion Hg' as [| | | | |? Hl']; inversion Hd as [| | | | |? Nl Dl];
      inversion Hd' as [| | | | |? Nl' Dl']; subst. rewrite Forall_forall in Hl, Hl', Dl, Dl'.
    assert (forall kv kv', kv ∈ l -> kv' ∈ l0 -> decides fuel (snd kv) (snd kv') /\ decides fuel (snd kv') (snd kv)) as H.
    { intros kv kv' H H'. destruct (Hl _ H), (Hl' _ H').
      pose proof (child_depth member _ _ _ Hh H) as Hk. pose proof (child_depth member _ _ _ Hh' H') as Hk'.
      unfold member in Hk, Hk'. rewrite depth_name in Hk, Hk'. split; apply IH; auto. }
    rewrite andb_true_iff, alike_object_iff, !members_decide; [reflexivity|..]; auto;
      try (apply Forall_forall; intros kv Hkv; first [apply (Hl _ Hkv)|apply (Hl' _ Hkv)]);
      intros kv kv' H1 H2; first [exact (proj1 (H _ _ H1 H2))|exact (proj2 (H _ _ H2 H1))].
Qed.

(** A value is the same as itself. *)
Lemma alike_refl j : alike j j.
Proof.
  induction j as [|b|n|s|l IH|l IH] using json_nested_ind; try constructor.
  - induction IH; constructor; assumption.
  - intros k v Hv. rewrite Forall_forall in IH. exists k, v. split; [exact Hv|]. split; [reflexivity|exact (IH _ Hv)].
  - intros k v Hv. rewrite Forall_forall in IH. exists k, v. split; [exact Hv|]. split; [reflexivity|exact (IH _ Hv)].
Qed.

(** C40: [cJSON_Compare] on the items of two values whose strings are C strings, whose integers have
    at most 15 digits and whose objects have no name twice, in either mode: the result is true
    exactly when the values are the same up to the order of the members of objects and, when
    [case_sensitive] is false, up to the case of the letters of their names (two names that differ
    in case only then count as one name twice).  This holds for two different items as well as
    for an item compared with itself, which the code decides by the pointers. *)
Theorem compare_decides same name name' j j' (Hsame : same = true -> j = j')
    (Hgood : good j) (Hgood' : good j') (Hdistinct : distinct j) (Hdistinct' : distinct j') :
  cJSON_Compare same (Some (item_of name j)) (Some (item_of name' j')) case_sensitive = true <-> alike j j'.
Proof.
  destruct same; cbn [cJSON_Compare].
  - destruct (Hsame eq_refl). split; [intros _; apply alike_refl|intros _]. destruct j as [|[]| | | |]; reflexivity.
  - rewrite !depth_name. apply compare_items_decides; auto; lia.
Qed.

End Mode.

Definition first_order : json :=
  JObject [(text "id", JInt 7); (text "list", JArray [JNull; JString (text "x")])].
Definition other_order : json :=
  JObject [(text "List", JArray [JNull; JString (text "x")]); (text "ID", JInt 7)].

(** The two are the same without regard to case only. *)
Lemma compare_decides_witness :
  (cJSON_Compare false (Some (item_of None first_order)) (Some (item_of None other_order)) false = true <->
   alike false first_order other_order) /\
  (cJSON_Compare false (Some (item_of None first_order)) (Some (item_of None other_order)) true = true <->
   alike true first_order other_order).
Proof.
  split; apply (compare_decides _ false None None first_order other_order); try discriminate.
  1, 5: unfold first_order; prove_good.
  1, 4: unfold other_order; prove_good.
  all: apply distinct_object; [apply (bool_decide_unpack _); vm_compute; exact I|]; repeat constructor.
Defined.

(** With a name twice an item is not even equal to a copy of itself. *)
Lemma repeated_name_differs :
  let j := JObject [(text "a", JInt 1); (text "a", JInt 2)] in
  cJSON_Compare false (Some (item_of None j)) (Some (item_of None j)) true = false.
Proof. vm_compute. reflexivity. Qed.

End JsonCompare.
