(* ===== verification/Config.v ===== *)
(** * The configuration files

    [parse_from_str] fills a struct from the text of a JSON object under the control of a
    table of [conf_parser] entries; the server and the client read their configuration with
    it (src/include/util/parser.h, server_parse_config, client_parse_config). *)

From Stdlib Require Import ZArith Lia SpecFloat Ascii.
From stdpp Require Import base numbers list strings gmap.
From S2P Require Import Prelude DoubleArith Json JsonPrint JsonNum JsonText JsonItem.
Open Scope Z_scope.

Module Config.
Export JsonItem.

(** ** The struct *)

(** What a field holds after a store through [setoffval]: an [int], a null pointer, a
    string or an array of strings. *)
Inductive cell :=
  | CInt (n : Z)
  | CNull
  | CStr (s : bytes)
  | CArr (l : list (option bytes)).

(** The fields by their offset; the struct starts zeroed. *)
Abbreviation conf := (gmap nat cell).

Definition int_at (c : conf) (off : nat) : Z := match c !! off with Some (CInt n) => n | _ => 0 end.
Definition str_at (c : conf) (off : nat) : option bytes := match c !! off with Some (CStr s) => Some s | _ => None end.
Definition arr_at (c : conf) (off : nat) : option (list (option bytes)) :=
  match c !! off with Some (CArr l) => Some l | _ => None end.

Record conf_parser := {
  name : bytes;
  off : nat;
  cp_type : Z;
  default_value : option bytes
}.

Local Open Scope m_scope.

Definition setoffval (o : nat) (v : cell) : M conf unit := modify (insert o v).

(** [atoi]: blanks, a sign and digits. *)
Fixpoint skip_blanks (s : bytes) : bytes :=
  match s with
  | c :: s' => if (c =? 32) || ((9 <=? c) && (c <=? 13)) then skip_blanks s' else s
  | [] => []
  end.

Definition atoi (s : bytes) : Z :=
  let s := skip_blanks (c_str s) in
  let '(neg, n) := sign s in
  let v := decimal (digits (drop n s)) in
  i32 (if neg then - v else v).

Section Parser.
(** Which allocations of cJSON and of [safe_alloc] succeed. *)
Context (can_alloc : nat -> nat -> bool) (enough : nat -> bool).

(** A failed allocation is stored through. *)
Definition safe_alloc (size : nat) : M conf unit := if enough size then ret tt else raise NullDeref.

Definition strdump (s : option bytes) : M conf (option bytes) :=
  match s with
  | None => ret None
  | Some b => safe_alloc (length (c_str b) + 1) ;;; ret (Some (c_str b))
  end.

Definition pointer (s : option bytes) : cell := match s with Some b => CStr b | None => CNull end.

(** The copies of the elements of an array, stored from index [i] on. *)
Fixpoint copy_elements (l : list cJSON) (i : nat) (arr : list (option bytes)) : M conf (list (option bytes)) :=
  match l with
  | [] => ret arr
  | ele :: l' =>
      p_assert (cJSON_IsString (Some ele)) ;;;
      let* s := strdump (valuestring ele) in
      if (i <? length arr)%nat then copy_elements l' (S i) (<[i := s]> arr) else raise OutOfBounds
  end.

Definition default_entry (cpr : conf_parser) (dflt : bytes) : M conf unit :=
  if cp_type cpr =? cJSON_Number then setoffval (off cpr) (CInt (atoi dflt))
  else if cp_type cpr =? cJSON_Number then
    let* s := strdump (Some dflt) in setoffval (off cpr) (pointer s)
  else setoffval (off cpr) CNull.

Definition parse_entry (conf_json : cJSON) (cpr : conf_parser) : M conf unit :=
  let obj := cJSON_GetObjectItem (Some conf_json) (Some (name cpr)) in
  match obj with
  | Some x =>
      if negb (Z.land (type x) 255 =? cp_type cpr) then
        p_assert (bool_decide (default_value cpr <> None)) ;;;
        match default_value cpr with Some d => default_entry cpr d | None => ret tt end
      else if cJSON_IsNumber obj then setoffval (off cpr) (CInt (valueint x))
      else if cJSON_IsString obj then
        let* s := strdump (valuestring x) in setoffval (off cpr) (pointer s)
      else if cJSON_IsArray obj then
        let len := cJSON_GetArraySize obj in
        safe_alloc (Z.to_nat ((1 + len) * 8)) ;;;
        let* arr := copy_elements (child x) 0 (repeat None (Z.to_nat (1 + len))) in
        setoffval (off cpr) (CArr arr)
      else ret tt
  | None =>
      p_assert (bool_decide (default_value cpr <> None)) ;;;
      match default_value cpr with Some d => default_entry cpr d | None => ret tt end
  end.

Fixpoint parse_entries (conf_json : cJSON) (cparser : list conf_parser) : M conf unit :=
  match cparser with
  | [] => ret tt
  | cpr :: cparser' => parse_entry conf_json cpr ;;; parse_entries conf_json cparser'
  end.

(** [str] is the memory behind the pointer. *)
Definition parse_from_str (str : bytes) (cparser : list conf_parser) : M conf unit :=
  match cJSON_Parse can_alloc (Some str) with
  | Fault f => raise f
  | Done r =>
      match parsed r with
      | None => raise AssertFailed
      | Some conf_json => parse_entries conf_json cparser
      end
  end.

(** [files] are the contents of the files that can be opened. The buffer has the length of
    the file: nothing is stored behind its last byte. *)
Definition parse_from_file (files : bytes -> option bytes) (fn : bytes) (cparser : list conf_parser) : M conf unit :=
  match files fn with
  | None => raise AssertFailed
  | Some content => safe_alloc (length content) ;;; parse_from_str content cparser
  end.

(** ** The two structs *)

Record server_config := {
  id : Z;
  local_ip : option bytes;
  local_port : Z;
  num_servers : Z;
  server_list : option (list (option bytes));
  server_fg_threads : Z;
  server_bg_threads : Z;
  metakv_pm_space : Z;
  metakv_path : option bytes;
  rocksdb_path : option bytes;
  memcached_ip : option bytes;
  memcached_port : Z
}.

(** The fields at their offsets; the [int] stored in [metakv_pm_space] is the lower half of
    a zeroed [uint64_t]. *)
Definition server_config_of (c : conf) : server_config :=
  {| id := int_at c 0; local_ip := str_at c 8; local_port := int_at c 16; num_servers := int_at c 20;
     server_list := arr_at c 24; server_fg_threads := int_at c 32; server_bg_threads := int_at c 36;
     metakv_pm_space := int_at c 40 mod 2 ^ 32; metakv_path := str_at c 48; rocksdb_path := str_at c 56;
     memcached_ip := str_at c 64; memcached_port := int_at c 72 |}.

Definition server_parser : list conf_parser :=
  [ {| name := text "local_ip"; off := 8; cp_type := cJSON_String; default_value := Some (text "localhost") |};
    {| name := text "local_port"; off := 16; cp_type := cJSON_Number; default_value := Some (text "31851") |};
    {| name := text "num_servers"; off := 20; cp_type := cJSON_Number; default_value := Some (text "1") |};
    {| name := text "server_list"; off := 24; cp_type := cJSON_Array; default_value := None |};
    {| name := text "server_fg_threads"; off := 32; cp_type := cJSON_Number; default_value := Some (text "1") |};
    {| name := text "server_bg_threads"; off := 36; cp_type := cJSON_Number; default_value := Some (text "0") |};
    {| name := text "metakv_pm_space"; off := 40; cp_type := cJSON_Number; default_value := Some (text "8") |};
    {| name := text "metakv_path"; off := 48; cp_type := cJSON_String; default_value := Some (text "/tmp/") |};
    {| name := text "rocksdb_path"; off := 56; cp_type := cJSON_String; default_value := Some (text "/tmp/") |};
    {| name := text "memcached_ip"; off := 64; cp_type := cJSON_String; default_value := Some (text "localhost") |};
    {| name := text "memcached_port"; off := 72; cp_type := cJSON_Number; default_value := Some (text "0") |} ].

Definition server_parse_config (files : bytes -> option bytes) (fn : option bytes) : outcome server_config :=
  match fn with
  | None => Fault AssertFailed
  | Some fn =>
      match (safe_alloc 80 ;;; parse_from_file files fn server_parser) ∅ with
      | Done (_, c) => Done (server_config_of c)
      | Fault f => Fault f
      end
  end.

Record client_config := {
  num_client_threads : Z;
  c_local_ip : option bytes;
  c_num_servers : Z;
  c_server_list : option (list (option bytes));
  c_server_fg_threads : Z;
  c_server_bg_threads : Z;
  mountdir : option bytes;
  mountdir_len : Z;
  c_memcached_ip : option bytes;
  c_memcached_port : Z
}.

Definition client_config_of (c : conf) : client_config :=
  {| num_client_threads := int_at c 0; c_local_ip := str_at c 8; c_num_servers := int_at c 16;
     c_server_list := arr_at c 24; c_server_fg_threads := int_at c 32; c_server_bg_threads := int_at c 36;
     mountdir := str_at c 40; mountdir_len := int_at c 48; c_memcached_ip := str_at c 56;
     c_memcached_port := int_at c 64 |}.

Definition client_parser : list conf_parser :=
  [ {| name := text "client_threads"; off := 0; cp_type := cJSON_Number; default_value := Some (text "1") |};
    {| name := text "local_ip"; off := 8; cp_type := cJSON_String; default_value := Some (text "localhost") |};
    {| name := text "num_servers"; off := 16; cp_type := cJSON_Number; default_value := Some (text "1") |};
    {| name := text "server_list"; off := 24; cp_type := cJSON_Array; default_value := None |};
    {| name := text "server_fg_threads"; off := 32; cp_type := cJSON_Number; default_value := Some (text "1") |};
    {| name := text "server_bg_threads"; off := 36; cp_type := cJSON_Number; default_value := Some (text "0") |};
    {| name := text "mount_dir"; off := 40; cp_type := cJSON_String; default_value := Some (text "/tmp/metafs") |};
    {| name := text "memcached_ip"; off := 56; cp_type := cJSON_String; default_value := Some (text "localhost") |};
    {| name := text "memcached_port"; off := 64; cp_type := cJSON_Number; default_value := Some (text "0") |} ].

(** [strlen] of the mount directory. *)
Definition set_mountdir_len : M conf unit :=
  let* d := gets (fun c => str_at c 40) in
  match d with
  | None => raise NullDeref
  | Some s => setoffval 48 (CInt (i32 (Z.of_nat (length (c_str s)))))
  end.

Definition client_parse_config (files : bytes -> option bytes) (fn : option bytes) : outcome client_config :=
  match fn with
  | None => Fault AssertFailed
  | Some fn =>
      match (safe_alloc 72 ;;; parse_from_file files fn client_parser ;;; set_mountdir_len) ∅ with
      | Done (_, c) => Done (client_config_of c)
      | Fault f => Fault f
      end
  end.

End Parser.

End Config.
