(* ===== verification/ConfigTheorems.v ===== *)
(** * Theorems on the configuration

    What [parse_from_str] stores for the text of a JSON object, entry by entry, and what the
    server and the client make of it. *)

From Stdlib Require Import ZArith Lia SpecFloat Ascii.
From stdpp Require Import base numbers list strings gmap.
From S2P Require Import Prelude DoubleArith Json JsonPrint JsonNum JsonText JsonItem Config.
Open Scope Z_scope.

Module ConfigTheorems.
Export Config.

(** ** The members of an object *)

Fixpoint lookup_member (l : list (bytes * json)) (n : bytes) : option (bytes * json) :=
  match l with
  | [] => None
  | (k, v) :: l' => if same_name n k then Some (k, v) else lookup_member l' n
  end.

Definition item_of_member (kv : bytes * json) : cJSON := item_of (Some (fst kv)) (snd kv).

Lemma get_member nm l n :
  good (JObject l) -> good_bytes n ->
  cJSON_GetObjectItem (Some (item_of nm (JObject l))) (Some n) = item_of_member <$> lookup_member l n.
Proof.
  intros Hg Hn. inversion Hg as [| | | | |l' Hl]; subst. unfold cJSON_GetObjectItem, get_object_item. cbn [item_of child].
  induction Hl as [|[k v] l [Hk Hv] Hl IH]; [reflexivity|]. cbn [map find_insensitive fst snd lookup_member].
  rewrite string_item_of, name_test by assumption. destruct (same_name n k).
  - rewrite string_item_of. reflexivity.
  - apply IH. constructor. exact Hl.
Qed.

(** ** What an entry of the table stores *)

Definition json_type (j : json) : Z :=
  match j with
  | JNull => cJSON_NULL
  | JBool true => cJSON_True
  | JBool false => cJSON_False
  | JInt _ => cJSON_Number
  | JString _ => cJSON_String
  | JArray _ => cJSON_Array
  | JObject _ => cJSON_Object
  end.

Definition strings_of (l : list json) : option (list (option bytes)) :=
  mapM (fun j => match j with JString s => Some (Some s) | _ => None end) l.

(** Numbers are clamped to [int], and the array of strings ends with a null pointer. *)
Definition cell_of (j : json) : option cell :=
  match j with
  | JInt n => Some (CInt (clamp n))
  | JString s => Some (CStr s)
  | JArray l => (fun ss => CArr (ss ++ [None])) <$> strings_of l
  | _ => None
  end.

Definition default_cell (e : conf_parser) : option cell :=
  (fun d => if cp_type e =? cJSON_Number then CInt (atoi d) else CNull) <$> default_value e.

(** The value of the entry's type under its name, or the default; [None] if there is
    neither, or an element of the array is no string. *)
Definition field (l : list (bytes * json)) (e : conf_parser) : option cell :=
  match lookup_member l (name e) with
  | Some (_, j) => if json_type j =? cp_type e then cell_of j else default_cell e
  | None => default_cell e
  end.

Lemma type_item_of n j : Z.land (type (item_of n j)) 255 = json_type j.
Proof. destruct j as [|[]| | | |]; reflexivity. Qed.

Lemma good_member l n k j : good (JObject l) -> lookup_member l n = Some (k, j) -> good_bytes k /\ good j.
Proof.
  intros Hg. inversion Hg as [| | | | |l' Hl]; subst. induction Hl as [|[k' v] l Hk Hl IH]; [discriminate|].
  cbn. destruct (same_name n k'); [intros [= <- <-]; exact Hk|]. apply IH. constructor. exact Hl.
Qed.

Section Loading.
Context (can_alloc : nat -> nat -> bool) (enough : nat -> bool).
Hypothesis alloc_ok : forall k size, can_alloc k size = true.
Hypothesis enough_ok : forall size, enough size = true.

Lemma strdump_ok s c : good_bytes s -> strdump enough (Some s) c = Done (Some s, c).
Proof.
  intros Hs. unfold strdump, safe_alloc. rewrite enough_ok, c_str_id by (apply good_no_nul, Hs). reflexivity.
Qed.

Lemma copy_elements_ok l i arr c :
  Forall good l -> (i + length l <= length arr)%nat ->
  copy_elements enough (map (item_of None) l) i arr c =
    match strings_of l with
    | Some ss => Done (take i arr ++ ss ++ drop (i + length l) arr, c)
    | None => Fault AssertFailed
    end.
Proof.
  intros Hl. revert i arr. induction Hl as [|j l Hj Hl IH]; intros i arr Hlen.
  - cbn. rewrite Nat.add_0_r, take_drop. reflexivity.
  - cbn [map copy_elements]. unfold cJSON_IsString, has_type. rewrite type_item_of.
    destruct Hj as [|[]|n Hn|s Hs|k Hk|k Hk]; try reflexivity.
    cbn [json_type length] in *. rewrite Z.eqb_refl. unfold p_assert.
    rewrite bind_ret_l. cbn [item_of valuestring]. unfold bind at 1. rewrite strdump_ok by exact Hs.
    destruct (Nat.ltb_spec i (length arr)); [|lia]. rewrite IH by (rewrite length_insert; lia).
    unfold strings_of. cbn [mapM]. destruct (mapM _ l) as [ss|]; [|reflexivity]. cbn. do 2 f_equal.
    rewrite (take_S_r _ _ (Some s)) by (apply list_lookup_insert_eq; lia). rewrite <- app_assoc.
    rewrite take_insert_ge, drop_insert_lt by lia. cbn. do 4 f_equal. lia.
Qed.

(** Entries of the types the table supports. *)
Definition supported (e : conf_parser) : Prop :=
  good_bytes (name e) /\ cp_type e ∈ [cJSON_Number; cJSON_String; cJSON_Array].

(** The number of elements is an [int]. *)
Definition small (j : json) : Prop :=
  match j with JArray l => Z.of_nat (length l) < 2 ^ 31 - 1 | _ => True end.

Lemma entry_default e c :
  bind (p_assert (bool_decide (default_value e <> None)))
    (fun _ => match default_value e with Some d => default_entry enough e d | None => ret tt end) c
  = match default_cell e with Some v => Done (tt, <[off e := v]> c) | None => Fault AssertFailed end.
Proof.
  unfold default_cell. destruct (default_value e) as [d|]; cbn.
  - unfold bind. cbn. unfold default_entry. destruct (cp_type e =? cJSON_Number); reflexivity.
  - reflexivity.
Qed.

Lemma parse_entry_ok nm l e c :
  good (JObject l) -> Forall (fun kv => small (snd kv)) l -> supported e ->
  parse_entry enough (item_of nm (JObject l)) e c =
    match field l e with Some v => Done (tt, <[off e := v]> c) | None => Fault AssertFailed end.
Proof.
  intros Hg Hs [Hn Ht]. unfold parse_entry, field. rewrite get_member by assumption.
  destruct (lookup_member l (name e)) as [[k j]|] eqn:El; cbn [fmap option_fmap option_map]; [|apply entry_default].
  unfold item_of_member. cbn [fst snd]. rewrite type_item_of.
  destruct (Z.eqb_spec (json_type j) (cp_type e)) as [E|E]; cbn [negb]; [|apply entry_default].
  assert (small j) as Hsj.
  { clear -Hs El. induction Hs as [|[k' v] l Hv Hs IH]; [discriminate|]. cbn in El.
    destruct (same_name _ k'); [injection El as <- <-; exact Hv|apply IH, El]. }
  destruct (good_member _ _ _ _ Hg El) as [Hk Hj]. unfold cJSON_IsNumber, cJSON_IsString, cJSON_IsArray, has_type.
  rewrite !type_item_of. rewrite <- E in Ht.
  destruct Hj as [|[]|n Hn'|s Hs'|a Ha|o Ho]; cbn [json_type cell_of] in *;
    try (exfalso; clear -Ht; repeat (apply elem_of_cons in Ht as [Ht|Ht]; [discriminate|]); inversion Ht; fail).
  - cbn [item_of valueint]. rewrite saturate_clamp by exact Hn'. reflexivity.
  - change (cJSON_String =? cJSON_Number) with false. rewrite Z.eqb_refl.
    cbn [item_of valuestring]. unfold bind. rewrite strdump_ok by exact Hs'. reflexivity.
  - cbn [small] in Hsj. cbn [item_of child cJSON_GetArraySize]. rewrite length_map, i32_small by (unfold is_i32; lia).
    change (cJSON_Array =? cJSON_Number) with false. change (cJSON_Array =? cJSON_String) with false.
    rewrite Z.eqb_refl. unfold safe_alloc. rewrite enough_ok, bind_ret_l. unfold bind.
    replace (Z.to_nat (1 + Z.of_nat (length a))) with (S (length a)) by lia.
    rewrite copy_elements_ok; [|exact Ha|rewrite repeat_length; lia].
    destruct (strings_of a) as [ss|]; [|reflexivity]. cbn [Nat.add]. rewrite drop_repeat.
    replace (S (length a) - length a)%nat with 1%nat by lia. reflexivity.
Qed.

(** Store the values of the entries, in order. *)
Definition store_all (es : list conf_parser) (vs : list cell) (c : conf) : conf :=
  fold_left (fun c ev => <[off (fst ev) := snd ev]> c) (zip es vs) c.

Lemma parse_entries_ok nm l es c :
  good (JObject l) -> Forall (fun kv => small (snd kv)) l -> Forall supported es ->
  parse_entries enough (item_of nm (JObject l)) es c =
    match mapM (field l) es with Some vs => Done (tt, store_all es vs c) | None => Fault AssertFailed end.
Proof.
  intros Hg Hs Hes. revert c. induction Hes as [|e es He Hes IH]; intros c; [reflexivity|].
  cbn [parse_entries mapM]. unfold bind. rewrite parse_entry_ok by assumption.
  destruct (field l e) as [v|]; [|reflexivity]. rewrite IH. destruct (mapM (field l) es); reflexivity.
Qed.

Lemma parse_object_text fmt l junk es c :
  good (JObject l) -> (height (JObject l) <= CJSON_NESTING_LIMIT)%nat ->
  Forall (fun kv => small (snd kv)) l -> Forall supported es ->
  parse_from_str can_alloc enough (render fmt 0 (JObject l) ++ 0 :: junk) es c =
    match mapM (field l) es with Some vs => Done (tt, store_all es vs c) | None => Fault AssertFailed end.
Proof.
  intros Hg Hh Hs Hes. unfold parse_from_str. rewrite parse_render by assumption. cbn [parsed].
  apply parse_entries_ok; assumption.
Qed.

(** ** The fields of the structs *)

Definition string_field (l : list (bytes * json)) (n : bytes) : option bytes :=
  match lookup_member l n with Some (_, JString s) => Some s | _ => None end.

Definition int_field (l : list (bytes * json)) (n : bytes) (d : Z) : Z :=
  match lookup_member l n with Some (_, JInt k) => clamp k | _ => d end.

Definition list_field (l : list (bytes * json)) (n : bytes) : option (list (option bytes)) :=
  match lookup_member l n with
  | Some (_, JArray a) => (fun ss => ss ++ [None]) <$> strings_of a
  | _ => None
  end.

Lemma number_field l n o d :
  field l {| name := n; off := o; cp_type := cJSON_Number; default_value := Some d |}
  = Some (CInt (int_field l n (atoi d))).
Proof.
  unfold field, int_field. cbn [name cp_type]. destruct (lookup_member l n) as [[k j]|]; [|reflexivity].
  destruct j as [|[]| | | |]; reflexivity.
Qed.

Lemma text_field l n o d :
  field l {| name := n; off := o; cp_type := cJSON_String; default_value := Some d |}
  = Some (pointer (string_field l n)).
Proof.
  unfold field, string_field. cbn [name cp_type]. destruct (lookup_member l n) as [[k j]|]; [|reflexivity].
  destruct j as [|[]| | | |]; reflexivity.
Qed.

Lemma array_field l n o :
  field l {| name := n; off := o; cp_type := cJSON_Array; default_value := None |} = CArr <$> list_field l n.
Proof.
  unfold field, list_field. cbn [name cp_type]. destruct (lookup_member l n) as [[k j]|]; [|reflexivity].
  destruct j as [|[]| | | |]; try reflexivity. cbn [json_type cell_of]. rewrite Z.eqb_refl.
  destruct (strings_of l0); reflexivity.
Qed.

End Loading.

(** The fields of a struct after stores at known offsets. *)
Ltac read_fields := f_equal; first [reflexivity | match goal with |- _ = ?s => destruct s; reflexivity end].

Definition supported_b (e : conf_parser) : bool :=
  forallb (fun c => (0 <? c) && (c <? 256)) (name e) &&
  existsb (Z.eqb (cp_type e)) [cJSON_Number; cJSON_String; cJSON_Array].

Lemma supported_all es : forallb supported_b es = true -> Forall supported es.
Proof.
  intros H. apply Forall_forall. intros e He. apply list_elem_of_In in He. rewrite forallb_forall in H.
  specialize (H e He). apply andb_true_iff in H as [Hn Ht]. split; [apply good_of_bool, Hn|].
  apply existsb_exists in Ht as (t & Ht & E). zbool. subst t. apply list_elem_of_In, Ht.
Qed.

(** ** Theorems *)

(** C33: [parse_from_str] on a NUL-terminated text of a JSON object as cJSON prints it, with integers
    of at most 15 digits and as long as memory can be allocated, stores for every entry of the
    table in order the object's value of the entry's name (found without regard to case) if it has
    the entry's type, integers clamped to [int] and arrays of strings ended by a null pointer.
    Otherwise a number entry with a default stores the default, and any other entry with a
    default stores a null pointer in its place: the code tests for a number twice and never copies
    the default of a string ([string_default_lost]).  It fails an assertion exactly if an entry
    has neither a value nor a default, or an array holds something else than strings. *)
Theorem parse_from_str_correct can_alloc enough fmt l junk es c
    (Halloc : forall k size, can_alloc k size = true) (Henough : forall size, enough size = true)
    (Hgood : good (JObject l)) (Hheight : (height (JObject l) <= CJSON_NESTING_LIMIT)%nat)
    (Hsmall : Forall (fun kv => small (snd kv)) l) (Htable : Forall supported es) :
  parse_from_str can_alloc enough (render fmt 0 (JObject l) ++ 0 :: junk) es c =
    match mapM (field l) es with
    | Some vs => Done (tt, store_all es vs c)
    | None => Fault AssertFailed
    end.
Proof. apply parse_object_text; assumption. Qed.

(** A server whose configuration file is a terminated text of a JSON object as cJSON prints it gets
    every field from its member: an absent number is the documented default, an absent string a
    null pointer instead of the default of the table, and without an array of strings under
    [server_list] the start is aborted.  A file without a NUL byte, as the shipped ones, is read
    past its end ([text_file_overread]). *)
Lemma server_config_read can_alloc enough files fn fmt l junk
    (Halloc : forall k size, can_alloc k size = true) (Henough : forall size, enough size = true)
    (Hgood : good (JObject l)) (Hheight : (height (JObject l) <= CJSON_NESTING_LIMIT)%nat)
    (Hsmall : Forall (fun kv => small (snd kv)) l)
    (Hfile : files fn = Some (render fmt 0 (JObject l) ++ 0 :: junk)) :
  server_parse_config can_alloc enough files (Some fn) =
    match list_field l (text "server_list") with
    | None => Fault AssertFailed
    | Some ss => Done
        {| id := 0; local_ip := string_field l (text "local_ip");
           local_port := int_field l (text "local_port") 31851;
           num_servers := int_field l (text "num_servers") 1; server_list := Some ss;
           server_fg_threads := int_field l (text "server_fg_threads") 1;
           server_bg_threads := int_field l (text "server_bg_threads") 0;
           metakv_pm_space := int_field l (text "metakv_pm_space") 8 mod 2 ^ 32;
           metakv_path := string_field l (text "metakv_path");
           rocksdb_path := string_field l (text "rocksdb_path");
           memcached_ip := string_field l (text "memcached_ip");
           memcached_port := int_field l (text "memcached_port") 0 |}
    end.
Proof.
  unfold server_parse_config, parse_from_file. rewrite Hfile. unfold safe_alloc. rewrite !Henough, !bind_ret_l.
  rewrite parse_object_text by (try apply supported_all; try assumption; reflexivity).
  unfold server_parser. cbn [mapM]. rewrite !number_field, !text_field, array_field.
  destruct (list_field l (text "server_list")) as [ss|]; [|reflexivity].
  cbn [fmap option_fmap option_map mbind option_bind mret option_ret]. unfold store_all. cbn [zip zip_with fold_left fst snd off].
  f_equal. unfold server_config_of. read_fields.
Qed.

(** The client likewise; [mountdir_len] is the length of the mount directory, and without a
    [mount_dir] the client dereferences a null pointer although the table has a default. *)
Lemma client_config_read can_alloc enough files fn fmt l junk
    (Halloc : forall k size, can_alloc k size = true) (Henough : forall size, enough size = true)
    (Hgood : good (JObject l)) (Hheight : (height (JObject l) <= CJSON_NESTING_LIMIT)%nat)
    (Hsmall : Forall (fun kv => small (snd kv)) l)
    (Hfile : files fn = Some (render fmt 0 (JObject l) ++ 0 :: junk)) :
  client_parse_config can_alloc enough files (Some fn) =
    match list_field l (text "server_list"), string_field l (text "mount_dir") with
    | None, _ => Fault AssertFailed
    | Some _, None => Fault NullDeref
    | Some ss, Some dir => Done
        {| num_client_threads := int_field l (text "client_threads") 1;
           c_local_ip := string_field l (text "local_ip");
           c_num_servers := int_field l (text "num_servers") 1; c_server_list := Some ss;
           c_server_fg_threads := int_field l (text "server_fg_threads") 1;
           c_server_bg_threads := int_field l (text "server_bg_threads") 0;
           mountdir := Some dir; mountdir_len := i32 (Z.of_nat (length (c_str dir)));
           c_memcached_ip := string_field l (text "memcached_ip");
           c_memcached_port := int_field l (text "memcached_port") 0 |}
    end.
Proof.
  unfold client_parse_config, parse_from_file. rewrite Hfile. unfold safe_alloc. rewrite !Henough, !bind_ret_l.
  unfold bind at 1. rewrite bind_ret_l.
  rewrite parse_object_text by (try apply supported_all; try assumption; reflexivity).
  unfold client_parser. cbn [mapM]. rewrite !number_field, !text_field, array_field.
  destruct (list_field l (text "server_list")) as [ss|]; [|reflexivity].
  cbn [fmap option_fmap option_map mbind option_bind mret option_ret]. unfold store_all. cbn [zip zip_with fold_left fst snd off].
  destruct (string_field l (text "mount_dir")) as [dir|]; [|reflexivity]. cbn [pointer].
  unfold set_mountdir_len, bind, gets. change (str_at _ 40) with (Some dir). cbn iota.
  unfold setoffval, modify. f_equal. unfold client_config_of. read_fields.
Qed.

(** The configurations shipped with the program. *)
Definition server_json : list (bytes * json) :=
  [ (text "local_ip", JString (text "192.168.1.22")); (text "local_port", JInt 31851);
    (text "num_servers", JInt 1); (text "server_list", JArray [JString (text "192.168.1.22:31851")]);
    (text "server_fg_threads", JInt 2); (text "server_bg_threads", JInt 0);
    (text "metakv_pm_space", JInt 8); (text "metakv_path", JString (text "/mnt/pmem01/"));
    (text "rocksdb_path", JString (text "/tmp/")); (text "memcached_ip", JString (text "localhost"));
    (text "memcached_port", JInt 11211) ].

Definition client_json : list (bytes * json) :=
  [ (text "client_threads", JInt 1); (text "local_ip", JString (text "192.168.1.22"));
    (text "num_servers", JInt 1); (text "server_list", JArray [JString (text "192.168.1.22:31851")]);
    (text "server_fg_threads", JInt 2); (text "server_bg_threads", JInt 0);
    (text "mount_dir", JString (text "/tmp/metafs")); (text "memcached_ip", JString (text "localhost"));
    (text "memcached_port", JInt 11211) ].

Lemma server_json_good : good (JObject server_json).
Proof. prove_good. Qed.

Lemma client_json_good : good (JObject client_json).
Proof. prove_good. Qed.

Ltac prove_small := repeat first [apply Forall_nil_2 | apply Forall_cons_2; [first [exact I | reflexivity]|]].

Lemma parse_from_str_correct_witness :
  parse_from_str (fun _ _ => true) (fun _ => true) (render true 0 (JObject client_json) ++ [0]) client_parser ∅ =
    match mapM (field client_json) client_parser with
    | Some vs => Done (tt, store_all client_parser vs ∅)
    | None => Fault AssertFailed
    end.
Proof.
  apply (parse_from_str_correct (fun _ _ => true) (fun _ => true) true client_json [] client_parser ∅); try reflexivity.
  - apply client_json_good.
  - apply Nat.leb_le. reflexivity.
  - prove_small.
  - apply supported_all. reflexivity.
Defined.

Lemma server_config_read_witness :
  server_parse_config (fun _ _ => true) (fun _ => true)
    (fun _ => Some (render true 0 (JObject server_json) ++ [0])) (Some (text "server.json")) = Done
        {| id := 0; local_ip := Some (text "192.168.1.22"); local_port := 31851; num_servers := 1;
           server_list := Some [Some (text "192.168.1.22:31851"); None];
           server_fg_threads := 2; server_bg_threads := 0; metakv_pm_space := 8;
           metakv_path := Some (text "/mnt/pmem01/"); rocksdb_path := Some (text "/tmp/");
           memcached_ip := Some (text "localhost"); memcached_port := 11211 |}.
Proof.
  rewrite (server_config_read (fun _ _ => true) (fun _ => true) _ (text "server.json") true server_json []);
    try reflexivity.
  - apply server_json_good.
  - apply Nat.leb_le. reflexivity.
  - prove_small.
Defined.

Lemma client_config_read_witness :
  client_parse_config (fun _ _ => true) (fun _ => true)
    (fun _ => Some (render true 0 (JObject client_json) ++ [0])) (Some (text "client.json")) = Done
        {| num_client_threads := 1; c_local_ip := Some (text "192.168.1.22"); c_num_servers := 1;
           c_server_list := Some [Some (text "192.168.1.22:31851"); None];
           c_server_fg_threads := 2; c_server_bg_threads := 0; mountdir := Some (text "/tmp/metafs");
           mountdir_len := 11; c_memcached_ip := Some (text "localhost"); c_memcached_port := 11211 |}.
Proof.
  rewrite (client_config_read (fun _ _ => true) (fun _ => true) _ (text "client.json") true client_json []);
    try reflexivity.
  - apply client_json_good.
  - apply Nat.leb_le. reflexivity.
  - prove_small.
Defined.

(** *** Defects *)

(** The buffer of [parse_from_file] has no terminator: the [strlen] of [cJSON_Parse] runs out of
    it for every text file. *)
Lemma text_file_overread can_alloc enough files fn content es c :
  files fn = Some content -> enough (length content) = true -> has_nul content = false ->
  parse_from_file can_alloc enough files fn es c = Fault OutOfBounds.
Proof.
  intros Hf He Hn. unfold parse_from_file, safe_alloc. rewrite Hf, He, bind_ret_l.
  unfold parse_from_str, cJSON_Parse, cJSON_ParseWithOpts. rewrite Hn. reflexivity.
Qed.

(** The default of a string is never stored: the second test of [cJSON_Number] should be one of
    [cJSON_String]. *)
Lemma string_default_lost can_alloc enough (Halloc : forall k size, can_alloc k size = true)
    (Henough : forall size, enough size = true) :
  exists c, parse_from_str can_alloc enough (text "{}" ++ [0])
              [{| name := text "local_ip"; off := 8; cp_type := cJSON_String;
                  default_value := Some (text "localhost") |}] ∅ = Done (tt, c) /\
            str_at c 8 = None.
Proof.
  eexists. split.
  - change (text "{}" ++ [0]) with (render false 0 (JObject []) ++ 0 :: []).
    rewrite (parse_object_text _ _ Halloc Henough); [reflexivity|prove_good|apply Nat.leb_le; reflexivity| |].
    + constructor.
    + apply supported_all. reflexivity.
  - reflexivity.
Qed.

End ConfigTheorems.
