(* ===== verification/JsonHeap.v ===== *)
(** * Items in memory

    The part of cJSON that builds and changes items: they are nodes with [next], [prev] and
    [child] pointers, and the [prev] of the first child points to the last one.  Memory is
    explicit, so that sharing, use after free and double free are visible. *)

From Stdlib Require Import ZArith Lia SpecFloat Ascii.
From stdpp Require Import base numbers list strings gmap fin_sets.
From S2P Require Import Prelude DoubleArith Json JsonPrint JsonItem.
Open Scope Z_scope.

Module JsonHeap.
Export JsonItem.

(** ** Memory *)

Abbreviation addr := positive.
Abbreviation ptr := (option positive).

(** The fields of an item but for the links. *)
Record data := {
  d_type : Z;
  d_valuestring : ptr;
  d_valueint : Z;
  d_valuedouble : spec_float;
  d_string : ptr
}.

Record node := {
  n_next : ptr;
  n_prev : ptr;
  n_child : ptr;
  n_data : data
}.

(** The allocated items and string blocks; [h_allocs] counts the allocations. *)
Record heap := {
  items : gmap addr node;
  blocks : gmap addr bytes;
  h_allocs : nat
}.

Definition set_items (m : gmap addr node) (h : heap) : heap :=
  {| items := m; blocks := blocks h; h_allocs := h_allocs h |}.
Definition set_blocks (m : gmap addr bytes) (h : heap) : heap :=
  {| items := items h; blocks := m; h_allocs := h_allocs h |}.

Definition set_next (p : ptr) (n : node) : node :=
  {| n_next := p; n_prev := n_prev n; n_child := n_child n; n_data := n_data n |}.
Definition set_prev (p : ptr) (n : node) : node :=
  {| n_next := n_next n; n_prev := p; n_child := n_child n; n_data := n_data n |}.
Definition set_child_ptr (p : ptr) (n : node) : node :=
  {| n_next := n_next n; n_prev := n_prev n; n_child := p; n_data := n_data n |}.
Definition set_data (f : data -> data) (n : node) : node :=
  {| n_next := n_next n; n_prev := n_prev n; n_child := n_child n; n_data := f (n_data n) |}.

Definition with_type (t : Z) (d : data) : data :=
  {| d_type := t; d_valuestring := d_valuestring d; d_valueint := d_valueint d;
     d_valuedouble := d_valuedouble d; d_string := d_string d |}.
Definition with_valuestring (p : ptr) (d : data) : data :=
  {| d_type := d_type d; d_valuestring := p; d_valueint := d_valueint d;
     d_valuedouble := d_valuedouble d; d_string := d_string d |}.
Definition with_number (i : Z) (v : spec_float) (d : data) : data :=
  {| d_type := d_type d; d_valuestring := d_valuestring d; d_valueint := i; d_valuedouble := v;
     d_string := d_string d |}.
Definition with_string (p : ptr) (d : data) : data :=
  {| d_type := d_type d; d_valuestring := d_valuestring d; d_valueint := d_valueint d;
     d_valuedouble := d_valuedouble d; d_string := p |}.

Definition zero_node : node :=
  {| n_next := None; n_prev := None; n_child := None;
     n_data := {| d_type := 0; d_valuestring := None; d_valueint := 0; d_valuedouble := S754_zero false;
                  d_string := None |} |}.

Local Open Scope m_scope.

(** A read or a store through a null or a dangling pointer. *)
Definition load (p : ptr) : M heap node :=
  fun h => match p with
           | None => Fault NullDeref
           | Some a => match items h !! a with Some n => Done (n, h) | None => Fault OutOfBounds end
           end.

Definition store (p : ptr) (f : node -> node) : M heap unit :=
  let* n := load p in
  match p with Some a => modify (fun h => set_items (<[a := f n]> (items h)) h) | None => ret tt end.

Definition read_block (p : ptr) : M heap bytes :=
  fun h => match p with
           | None => Fault NullDeref
           | Some a => match blocks h !! a with Some s => Done (s, h) | None => Fault OutOfBounds end
           end.

(** [free]: of a block or an item that is allocated, nothing for a null pointer. *)
Definition free_block (p : ptr) : M heap unit :=
  fun h => match p with
           | None => Done (tt, h)
           | Some a => match blocks h !! a with
                       | Some _ => Done (tt, set_blocks (delete a (blocks h)) h)
                       | None => Fault OutOfBounds
                       end
           end.

Definition free_item (p : ptr) : M heap unit :=
  fun h => match p with
           | None => Done (tt, h)
           | Some a => match items h !! a with
                       | Some _ => Done (tt, set_items (delete a (items h)) h)
                       | None => Fault OutOfBounds
                       end
           end.

Definition is_reference (t : Z) : bool := negb (Z.land t cJSON_IsReference =? 0).
Definition is_const_key (t : Z) : bool := negb (Z.land t cJSON_StringIsConst =? 0).

(** A new address. *)
Definition new_addr (h : heap) : addr := fresh (dom (items h) ∪ dom (blocks h)).

Section Heap.
(** Whether the [n]-th allocation, of a given size, succeeds. *)
Context (can_alloc : nat -> nat -> bool).

Definition try_alloc (size : nat) : M heap bool :=
  fun h => Done (can_alloc (h_allocs h) size,
                 {| items := items h; blocks := blocks h; h_allocs := S (h_allocs h) |}).

Definition New_Item : M heap ptr :=
  let* ok := try_alloc sizeof_cJSON in
  if ok then
    let* a := gets new_addr in
    modify (fun h => set_items (<[a := zero_node]> (items h)) h) ;;; ret (Some a)
  else ret None.

Definition cJSON_strdup (string : ptr) : M heap ptr :=
  match string with
  | None => ret None
  | Some _ =>
      let* s := read_block string in
      let* ok := try_alloc (length (c_str s) + 1) in
      if ok then
        let* a := gets new_addr in
        modify (fun h => set_blocks (<[a := c_str s]> (blocks h)) h) ;;; ret (Some a)
      else ret None
  end.

(** [fuel] bounds the items reached. *)
Fixpoint cJSON_Delete (fuel : nat) (item : ptr) : M heap unit :=
  match item, fuel with
  | None, _ => ret tt
  | Some _, O => raise OutOfFuel
  | Some _, S fuel' =>
      let* n := load item in
      let t := d_type (n_data n) in
      when_ (negb (is_reference t) && bool_decide (n_child n <> None)) (cJSON_Delete fuel' (n_child n)) ;;;
      when_ (negb (is_reference t)) (free_block (d_valuestring (n_data n))) ;;;
      when_ (negb (is_const_key t)) (free_block (d_string (n_data n))) ;;;
      free_item item ;;;
      cJSON_Delete fuel' (n_next n)
  end.

(** ** The list of children *)

Definition suffix_object (prev item : ptr) : M heap unit :=
  store prev (set_next item) ;;; store item (set_prev prev).

Definition create_reference (item : ptr) : M heap ptr :=
  match item with
  | None => ret None
  | Some _ =>
      let* reference := New_Item in
      match reference with
      | None => ret None
      | Some _ =>
          let* n := load item in
          store reference (fun _ => n) ;;;
          store reference (set_data (with_string None)) ;;;
          store reference (set_data (fun d => with_type (Z.lor (d_type d) cJSON_IsReference) d)) ;;;
          store reference (fun n => set_next None (set_prev None n)) ;;;
          ret reference
      end
  end.

Definition add_item_to_array (array item : ptr) : M heap bool :=
  if bool_decide (item = None) || bool_decide (array = None) || bool_decide (array = item) then ret false else
  let* a := load array in
  match n_child a with
  | None =>
      store array (set_child_ptr item) ;;;
      store item (set_prev item) ;;; store item (set_next None) ;;; ret true
  | Some _ =>
      let* c := load (n_child a) in
      when_ (bool_decide (n_prev c <> None))
        (suffix_object (n_prev c) item ;;;
         let* a := load array in store (n_child a) (set_prev item)) ;;;
      ret true
  end.

Definition cJSON_AddItemToArray (array item : ptr) : M heap bool := add_item_to_array array item.

Definition add_item_to_object (object string item : ptr) (constant_key : bool) : M heap bool :=
  if bool_decide (object = None) || bool_decide (string = None) || bool_decide (item = None)
     || bool_decide (object = item) then ret false else
  let* n := load item in
  let t := d_type (n_data n) in
  let* key := (if constant_key then ret (string, Z.lor t cJSON_StringIsConst)
               else let* k := cJSON_strdup string in ret (k, Z.land t (Z.lnot cJSON_StringIsConst))) in
  let '(new_key, new_type) := key in
  if negb constant_key && bool_decide (new_key = None) then ret false else
  when_ (negb (is_const_key t)) (free_block (d_string (n_data n))) ;;;
  store item (set_data (with_string new_key)) ;;;
  store item (set_data (with_type new_type)) ;;;
  add_item_to_array object item.

Definition cJSON_AddItemToObject (object string item : ptr) : M heap bool :=
  add_item_to_object object string item false.
Definition cJSON_AddItemToObjectCS (object string item : ptr) : M heap bool :=
  add_item_to_object object string item true.

Definition cJSON_AddItemReferenceToArray (array item : ptr) : M heap bool :=
  if bool_decide (array = None) then ret false else
  let* r := create_reference item in add_item_to_array array r.

Definition cJSON_AddItemReferenceToObject (object string item : ptr) : M heap bool :=
  if bool_decide (object = None) || bool_decide (string = None) then ret false else
  let* r := create_reference item in add_item_to_object object string r false.

(** The walk along [next]. *)
Fixpoint nth_child (child : ptr) (index : nat) : M heap ptr :=
  match child, index with
  | None, _ => ret None
  | Some _, O => ret child
  | Some _, S i => let* n := load child in nth_child (n_next n) i
  end.

Definition array_item (array : ptr) (index : nat) : M heap ptr :=
  match array with
  | None => ret None
  | Some _ => let* a := load array in nth_child (n_child a) index
  end.

Definition cJSON_DetachItemViaPointer (parent item : ptr) : M heap ptr :=
  if bool_decide (parent = None) || bool_decide (item = None) then ret None else
  let* p := load parent in
  let* i := load item in
  when_ (bool_decide (item <> n_child p)) (store (n_prev i) (set_next (n_next i))) ;;;
  let* i := load item in
  when_ (bool_decide (n_next i <> None)) (store (n_next i) (set_prev (n_prev i))) ;;;
  let* p := load parent in
  let* i := load item in
  (if bool_decide (item = n_child p) then store parent (set_child_ptr (n_next i))
   else when_ (bool_decide (n_next i = None)) (store (n_child p) (set_prev (n_prev i)))) ;;;
  store item (set_prev None) ;;; store item (set_next None) ;;;
  ret item.

Definition cJSON_DetachItemFromArray (array : ptr) (which : Z) : M heap ptr :=
  if which <? 0 then ret None else
  let* item := array_item array (Z.to_nat which) in cJSON_DetachItemViaPointer array item.

Definition cJSON_DeleteItemFromArray (fuel : nat) (array : ptr) (which : Z) : M heap unit :=
  let* item := cJSON_DetachItemFromArray array which in cJSON_Delete fuel item.

Definition cJSON_InsertItemInArray (array : ptr) (which : Z) (newitem : ptr) : M heap bool :=
  if which <? 0 then ret false else
  let* after_inserted := array_item array (Z.to_nat which) in
  match after_inserted with
  | None => add_item_to_array array newitem
  | Some _ =>
      store newitem (set_next after_inserted) ;;;
      let* x := load after_inserted in
      store newitem (set_prev (n_prev x)) ;;;
      store after_inserted (set_prev newitem) ;;;
      let* a := load array in
      (if bool_decide (after_inserted = n_child a) then store array (set_child_ptr newitem)
       else let* n := load newitem in store (n_prev n) (set_next newitem)) ;;;
      ret true
  end.

(** The replacement takes the links of the item. *)
Definition take_links (parent item replacement : ptr) : M heap unit :=
  let* i := load item in
  store replacement (set_next (n_next i)) ;;;
  store replacement (set_prev (n_prev i)) ;;;
  let* r := load replacement in
  when_ (bool_decide (n_next r <> None)) (store (n_next r) (set_prev replacement)) ;;;
  let* p := load parent in
  (if bool_decide (n_child p = item) then
     let* c := load (n_child p) in
     when_ (bool_decide (n_prev c = n_child p)) (store replacement (set_prev replacement)) ;;;
     store parent (set_child_ptr replacement)
   else
     let* r := load replacement in
     when_ (bool_decide (n_prev r <> None)) (store (n_prev r) (set_next replacement)) ;;;
     let* r := load replacement in
     when_ (bool_decide (n_next r = None)) (store (n_child p) (set_prev replacement))) ;;;
  store item (set_next None) ;;; store item (set_prev None).

Definition cJSON_ReplaceItemViaPointer (fuel : nat) (parent item replacement : ptr) : M heap bool :=
  if bool_decide (parent = None) || bool_decide (replacement = None) || bool_decide (item = None) then ret false else
  if bool_decide (replacement = item) then ret true else
  take_links parent item replacement ;;;
  cJSON_Delete fuel item ;;; ret true.

Definition cJSON_ReplaceItemInArray (fuel : nat) (array : ptr) (which : Z) (newitem : ptr) : M heap bool :=
  if which <? 0 then ret false else
  let* item := array_item array (Z.to_nat which) in cJSON_ReplaceItemViaPointer fuel array item newitem.

End Heap.
End JsonHeap.
