(* ===== verification/JsonHeapSpec.v ===== *)
(** * The children of an item form a list

    [children h a L]: the nodes [L] are the children of [a], linked both ways, with the [prev]
    of the first pointing to the last.  The operations on arrays are operations on [L]. *)

From Stdlib Require Import ZArith Lia SpecFloat Ascii.
From stdpp Require Import base numbers list strings gmap fin_sets.
From S2P Require Import Prelude DoubleArith Json JsonPrint JsonItem JsonHeap.
Open Scope Z_scope.

Module JsonHeapSpec.
Export JsonHeap.

(** The element before index [i], around the end. *)
Definition before (L : list addr) (i : nat) : ptr := match i with O => last L | S k => L !! k end.

Record ring (h : heap) (L : list addr) : Prop := {
  ri_nodup : NoDup L;
  ri_links : forall i x, L !! i = Some x ->
    exists n, items h !! x = Some n /\ n_next n = L !! S i /\ n_prev n = before L i
}.

Record children (h : heap) (a : addr) (L : list addr) : Prop := {
  ch_parent : exists n, items h !! a = Some n /\ n_child n = head L;
  ch_ring : ring h L;
  ch_outside : a ∉ L
}.

(** ** Memory accesses *)

Lemma wp_load a n h (Q : node -> heap -> Prop) : items h !! a = Some n -> Q n h -> wp (load (Some a)) Q h.
Proof. intros E HQ. unfold wp, load. rewrite E. exact HQ. Qed.

Lemma wp_store a n f h (Q : unit -> heap -> Prop) :
  items h !! a = Some n -> Q tt (set_items (alter f a (items h)) h) -> wp (store (Some a) f) Q h.
Proof.
  intros E HQ. unfold store. apply wp_bind. eapply wp_load; [exact E|]. apply wp_modify.
  replace (<[a := f n]> (items h)) with (alter f a (items h)); [exact HQ|].
  apply map_eq. intros b. rewrite lookup_alter, lookup_insert. destruct (decide (a = b)) as [<-|]; [|reflexivity].
  rewrite E. reflexivity.
Qed.

(** A node after a store at [a]. *)
Definition touch (f : node -> node) (a b : addr) (n : node) : node := if decide (a = b) then f n else n.

Lemma lookup_after (f : node -> node) a b (m : gmap addr node) n :
  m !! b = Some n -> alter f a m !! b = Some (touch f a b n).
Proof.
  intros E. unfold touch. rewrite lookup_alter. destruct (decide (a = b)) as [<-|]; rewrite E; reflexivity.
Qed.

(** The links after a store of one of them. *)
Section Touch.
Context (p : ptr) (a b : addr) (n : node).

Lemma next_set_next : n_next (touch (set_next p) a b n) = if decide (a = b) then p else n_next n.
Proof. unfold touch. destruct (decide (a = b)); reflexivity. Qed.
Lemma next_set_prev : n_next (touch (set_prev p) a b n) = n_next n.
Proof. unfold touch. destruct (decide (a = b)); reflexivity. Qed.
Lemma next_set_child : n_next (touch (set_child_ptr p) a b n) = n_next n.
Proof. unfold touch. destruct (decide (a = b)); reflexivity. Qed.
Lemma prev_set_next : n_prev (touch (set_next p) a b n) = n_prev n.
Proof. unfold touch. destruct (decide (a = b)); reflexivity. Qed.
Lemma prev_set_prev : n_prev (touch (set_prev p) a b n) = if decide (a = b) then p else n_prev n.
Proof. unfold touch. destruct (decide (a = b)); reflexivity. Qed.
Lemma prev_set_child : n_prev (touch (set_child_ptr p) a b n) = n_prev n.
Proof. unfold touch. destruct (decide (a = b)); reflexivity. Qed.
Lemma child_set_next : n_child (touch (set_next p) a b n) = n_child n.
Proof. unfold touch. destruct (decide (a = b)); reflexivity. Qed.
Lemma child_set_prev : n_child (touch (set_prev p) a b n) = n_child n.
Proof. unfold touch. destruct (decide (a = b)); reflexivity. Qed.
Lemma child_set_child : n_child (touch (set_child_ptr p) a b n) = if decide (a = b) then p else n_child n.
Proof. unfold touch. destruct (decide (a = b)); reflexivity. Qed.

End Touch.

Create Rewrite HintDb links.
#[export] Hint Rewrite next_set_next next_set_prev next_set_child prev_set_next prev_set_prev prev_set_child
  child_set_next child_set_prev child_set_child : links.

(** The node behind a pointer after stores. *)
Ltac lookup_node := cbn [items set_items]; repeat first [eassumption | eapply lookup_after].

(** Read the links, and decide which of the stores concern a node. *)
Ltac links :=
  autorewrite with links;
  repeat match goal with
  | |- context [decide (?x = ?y)] =>
      first [rewrite (decide_True (P := x = y)) by congruence | rewrite (decide_False (P := x = y)) by congruence]
  end.
Ltac decide_stores := links; try first [reflexivity | congruence]; repeat (case_decide; simplify_eq; try done); try (cbn in *; congruence).

Lemma head_Some (L : list addr) x : L !! 0%nat = Some x -> head L = Some x.
Proof. destruct L; [discriminate|]. auto. Qed.

(** A list with [x] put at index [i]. *)
Definition insert_at (i : nat) (x : addr) (L : list addr) : list addr := take i L ++ x :: drop i L.

Lemma lookup_insert_at i x L j : (i <= length L)%nat ->
  insert_at i x L !! j = if decide (j < i)%nat then L !! j else if decide (j = i) then Some x else L !! (j - 1)%nat.
Proof.
  intros Hi. unfold insert_at. destruct (decide (j < i)%nat).
  - rewrite lookup_app_l by (rewrite length_take; lia). apply lookup_take_lt. assumption.
  - rewrite lookup_app_r by (rewrite length_take; lia). rewrite length_take, Nat.min_l by lia.
    destruct (decide (j = i)) as [->|]; [rewrite Nat.sub_diag; reflexivity|].
    destruct (j - i)%nat as [|k] eqn:E; [lia|]. rewrite lookup_cons_ne_0 by discriminate. cbn [Nat.pred]. rewrite lookup_drop. f_equal. lia.
Qed.

Lemma length_insert_at i x L : (i <= length L)%nat -> length (insert_at i x L) = S (length L).
Proof. intros Hi. unfold insert_at. rewrite length_app, length_take. cbn. rewrite length_drop. lia. Qed.

Lemma NoDup_insert_at i x L : NoDup L -> x ∉ L -> NoDup (insert_at i x L).
Proof.
  intros HL Hx. unfold insert_at. rewrite <- Permutation_middle, take_drop. constructor; assumption.
Qed.

Lemma elem_insert_at i x L y : y ∈ insert_at i x L <-> y = x \/ y ∈ L.
Proof. unfold insert_at. rewrite <- Permutation_middle, take_drop, elem_of_cons. reflexivity. Qed.

Section Ops.
Context (h : heap) (a : addr) (L : list addr).
Hypothesis Hch : children h a L.

Lemma ring_node i x : L !! i = Some x ->
  exists n, items h !! x = Some n /\ n_next n = L !! S i /\ n_prev n = before L i.
Proof. apply (ri_links _ _ (ch_ring _ _ _ Hch)). Qed.

Lemma ring_index i j x : L !! i = Some x -> L !! j = Some x -> i = j.
Proof. apply NoDup_lookup, (ri_nodup _ _ (ch_ring _ _ _ Hch)). Qed.

(** A node that is no child and has no sibling after it. *)
Definition loose (x : addr) : Prop := x <> a /\ (x ∉ L) /\ exists n, items h !! x = Some n.

(** Data and children never change. *)
Definition same_contents (h' : heap) : Prop :=
  forall x n, items h !! x = Some n -> exists n', items h' !! x = Some n' /\ n_data n' = n_data n /\
    (x <> a -> n_child n' = n_child n).

Lemma same_contents_refl h' : same_contents (set_items (items h) h').
Proof. intros x n Hn. eauto. Qed.

Lemma same_contents_alter f b m h' :
  (forall n, n_data (f n) = n_data n) -> (forall n, b <> a -> n_child (f n) = n_child n) ->
  same_contents (set_items m h') -> same_contents (set_items (alter f b m) h').
Proof.
  intros Hd Hc H x n Hn. destruct (H x n Hn) as (n' & Hn' & Ed & Ec). eexists. split; [apply lookup_after, Hn'|].
  unfold touch. destruct (decide (b = x)) as [->|]; [|auto]. rewrite Hd. split; [exact Ed|]. intros Hx. rewrite Hc by exact Hx. auto.
Qed.

(** Items that do not take part keep their links. *)
Definition untouched (extra : list addr) (h' : heap) : Prop :=
  blocks h' = blocks h /\ forall x, x ∉ a :: L ++ extra -> items h' !! x = items h !! x.

Lemma outside_spec (ex : list addr) y : y ∉ a :: L ++ ex -> y <> a /\ (y ∉ L) /\ (y ∉ ex).
Proof. intros [H1 H2]%not_elem_of_cons. apply not_elem_of_app in H2 as [H2 H3]. auto. Qed.

(** Data, children and the nodes that take no part, after stores. *)
Ltac contents :=
  cbn [items set_items]; repeat (apply same_contents_alter; [reflexivity|intros; first [reflexivity | congruence]|]);
  apply same_contents_refl.
Ltac others :=
  split; [reflexivity|]; let u := fresh "u" in let Hout := fresh "Hout" in
  let Ha := fresh "Hua" in let HL := fresh "HuL" in let Hx := fresh "Hux" in
  intros u Hout; apply outside_spec in Hout as (Ha & HL & Hx); cbn [items set_items];
  rewrite !lookup_alter_ne;
    [reflexivity
    |intros ->; first [apply Ha; reflexivity | apply Hx; left | apply HL; eapply list_elem_of_lookup_2; eassumption]..].

Lemma append_first x :
  L = [] -> loose x ->
  wp (add_item_to_array (Some a) (Some x))
     (fun r h' => r = true /\ children h' a [x] /\ same_contents h' /\ untouched [x] h') h.
Proof.
  intros -> (Hxa & _ & nx & Hnx). destruct (ch_parent _ _ _ Hch) as (na & Hna & Hc). cbn in Hc.
  unfold add_item_to_array. rewrite !bool_decide_eq_false_2 by congruence. cbn [orb].
  apply wp_bind. eapply wp_load; [exact Hna|]. rewrite Hc.
  apply wp_bind. eapply wp_store; [exact Hna|]. apply wp_bind. eapply wp_store; [lookup_node|].
  apply wp_bind. eapply wp_store; [lookup_node|]. apply wp_ret. split; [reflexivity|].
  split; [|split].
  - split.
    + eexists. split; [lookup_node|]. decide_stores.
    + split; [apply NoDup_singleton|]. intros [|i] y [= <-].
      eexists. split; [lookup_node|]. decide_stores; auto.
    + intros ?%list_elem_of_singleton. congruence.
  - contents.
  - others.
Qed.

Lemma child_allocated i x : L !! i = Some x -> x <> a.
Proof. intros Hx ->. apply (ch_outside _ _ _ Hch). eapply list_elem_of_lookup_2, Hx. Qed.

Lemma loose_child i x y : loose x -> L !! i = Some y -> y <> x.
Proof. intros (_ & Hx & _) Hy ->. apply Hx. eapply list_elem_of_lookup_2, Hy. Qed.

(** Appending behind the last child; the new item has no sibling after it. *)
Lemma append_last x :
  L <> [] -> loose x -> (forall n, items h !! x = Some n -> n_next n = None) ->
  wp (add_item_to_array (Some a) (Some x))
     (fun r h' => r = true /\ children h' a (L ++ [x]) /\ same_contents h' /\ untouched [x] h') h.
Proof.
  intros HL Hlo Hnone. pose proof Hlo as (Hxa & HxL & nx & Hnx). specialize (Hnone nx Hnx).
  destruct (ch_parent _ _ _ Hch) as (na & Hna & Hc).
  destruct (lookup_lt_is_Some_2 L 0) as [f Hf]; [destruct L; [contradiction|cbn; lia]|].
  destruct (lookup_lt_is_Some_2 L (length L - 1)) as [z Hz]; [destruct L; [contradiction|cbn; lia]|].
  destruct (ring_node _ _ Hf) as (nf & Hnf & Hnextf & Hprevf). cbn in Hprevf.
  destruct (ring_node _ _ Hz) as (nz & Hnz & Hnextz & Hprevz).
  assert (last L = Some z) as Hlast by (rewrite last_lookup, <- Hz; f_equal; lia).
  rewrite Hlast in Hprevf. rewrite (head_Some L f Hf) in Hc.
  pose proof (child_allocated _ _ Hf) as Hfa. pose proof (child_allocated _ _ Hz) as Hza.
  pose proof (loose_child _ _ _ Hlo Hf) as Hfx. pose proof (loose_child _ _ _ Hlo Hz) as Hzx.
  unfold add_item_to_array. rewrite !bool_decide_eq_false_2 by congruence. cbn [orb].
  apply wp_bind. eapply wp_load; [exact Hna|]. rewrite Hc. apply wp_bind. eapply wp_load; [exact Hnf|].
  rewrite Hprevf. rewrite bool_decide_eq_true_2 by discriminate. cbn [when_].
  apply wp_bind, wp_bind. unfold suffix_object.
  apply wp_bind. eapply wp_store; [exact Hnz|]. eapply wp_store; [lookup_node|].
  apply wp_bind. eapply wp_load; [lookup_node|]. links. rewrite Hc.
  eapply wp_store; [lookup_node|]. apply wp_ret. split; [reflexivity|]. split; [|split].
  - split.
    + eexists. split; [lookup_node|]. decide_stores. rewrite Hc. destruct L; [contradiction|]. symmetry. exact (head_Some _ _ Hf).
    + split; [apply NoDup_app; split; [apply (ch_ring _ _ _ Hch)|split; [|apply NoDup_singleton]]; set_solver|].
      intros i y [[Hi Hy]|[-> <-]]%lookup_snoc_Some.
      * destruct (ring_node _ _ Hy) as (n & Hn & Hnext & Hprev). eexists. split; [lookup_node|].
        assert (y <> x) by (intros ->; eapply (loose_child _ _ _ Hlo Hy); reflexivity).
        assert (z = y <-> i = (length L - 1)%nat) as Ez by (split; [intros <-; eapply ring_index; eassumption|congruence]).
        assert (f = y <-> i = 0%nat) as Ef by (split; [intros <-; eapply ring_index; eassumption|congruence]).
        split; autorewrite with links.
        -- destruct (decide (S i = length L)) as [E|E].
           ++ rewrite E, list_lookup_middle by reflexivity. rewrite (decide_True (P := z = y)) by (apply Ez; lia).
              decide_stores.
           ++ rewrite lookup_app_l by lia. rewrite (decide_False (P := z = y)) by (rewrite Ez; lia). decide_stores.
        -- destruct i as [|i]; cbn [before] in *.
           ++ rewrite last_snoc, (decide_True (P := f = y)) by (apply Ef; reflexivity). decide_stores.
           ++ rewrite lookup_app_l by lia. rewrite (decide_False (P := f = y)) by (rewrite Ef; lia). decide_stores.
      * eexists. split; [lookup_node|]. split.
        -- rewrite lookup_ge_None_2 by (rewrite length_app; cbn; lia). decide_stores.
        -- destruct (length L) as [|k] eqn:EL; [apply nil_length_inv in EL; contradiction|]. cbn [before].
           rewrite lookup_app_l by lia. replace k with (S k - 1)%nat by lia. rewrite Hz. decide_stores.
    + intros [?|?%list_elem_of_singleton]%elem_of_app; [apply (ch_outside _ _ _ Hch); assumption|congruence].
  - contents.
  - others.
Qed.

(** The walk finds the child at an index. *)
Lemma wp_nth k i (Q : ptr -> heap -> Prop) : Q (L !! (k + i)%nat) h -> wp (nth_child (L !! k) i) Q h.
Proof.
  revert k. induction i as [|i IH]; intros k HQ; destruct (L !! k) as [y|] eqn:Ey.
  - rewrite Nat.add_0_r, Ey in HQ. exact HQ.
  - rewrite Nat.add_0_r, Ey in HQ. exact HQ.
  - cbn. destruct (ring_node _ _ Ey) as (n & Hn & Hnext & _). apply wp_bind. eapply wp_load; [exact Hn|].
    rewrite Hnext. apply IH. rewrite Nat.add_succ_r in HQ. exact HQ.
  - cbn. apply wp_ret. rewrite lookup_ge_None_2 in HQ; [exact HQ|]. apply lookup_ge_None in Ey. lia.
Qed.

Lemma wp_array_item i (Q : ptr -> heap -> Prop) : Q (L !! i) h -> wp (array_item (Some a) i) Q h.
Proof.
  intros HQ. destruct (ch_parent _ _ _ Hch) as (na & Hna & Hc). apply wp_bind. eapply wp_load; [exact Hna|].
  rewrite Hc. replace (head L) with (L !! 0%nat) by (destruct L; reflexivity). apply wp_nth. exact HQ.
Qed.

Lemma lookup_delete_at i k : delete i L !! k = if decide (k < i)%nat then L !! k else L !! S k.
Proof.
  destruct (decide (k < i)%nat); [apply list_lookup_delete_lt; assumption|].
  apply list_lookup_delete_ge. lia.
Qed.

Lemma elem_delete i y : y ∈ delete i L -> y ∈ L.
Proof.
  intros (k & Hk)%list_elem_of_lookup. rewrite lookup_delete_at in Hk.
  destruct (decide (k < i)%nat); eapply list_elem_of_lookup_2, Hk.
Qed.

(** Nodes of the list are equal iff their indices are. *)
Lemma same_index i j x y : L !! i = Some x -> L !! j = Some y -> x = y <-> i = j.
Proof. intros Hx Hy. split; [intros ->; eapply ring_index; eassumption|congruence]. Qed.

Lemma last_index z : last L = Some z -> L !! (length L - 1)%nat = Some z.
Proof. intros H. rewrite last_lookup in H. rewrite <- H. f_equal. lia. Qed.

Lemma last_insert_at i x : (i < length L)%nat -> last (insert_at i x L) = last L.
Proof.
  intros Hi. rewrite !last_lookup, length_insert_at, lookup_insert_at by lia.
  rewrite decide_False, decide_False by lia. f_equal. lia.
Qed.

Lemma ring_insert h' i x nx' :
  (i < length L)%nat -> x ∉ L -> items h' !! x = Some nx' -> n_next nx' = L !! i -> n_prev nx' = before L i ->
  (forall j u n, L !! j = Some u -> items h !! u = Some n ->
     exists n', items h' !! u = Some n' /\ n_next n' = (if decide (S j = i) then Some x else n_next n) /\
                n_prev n' = (if decide (j = i) then Some x else n_prev n)) ->
  ring h' (insert_at i x L).
Proof.
  intros Hi Hx Hnx Hnext Hprev Hold. split; [apply NoDup_insert_at; [apply (ch_ring _ _ _ Hch)|exact Hx]|].
  intros j u Hu. rewrite !lookup_insert_at in * by lia. destruct (decide (j < i)%nat) as [Hlt|Hge].
  - destruct (ring_node _ _ Hu) as (n & Hn & Hn1 & Hn2). destruct (Hold _ _ _ Hu Hn) as (n' & Hn' & E1 & E2).
    exists n'. split; [exact Hn'|]. rewrite E1, E2. rewrite (decide_False (P := j = i)) by lia. split.
    + repeat case_decide; try lia; [reflexivity|exact Hn1].
    + rewrite Hn2. destruct j as [|j]; cbn [before]; [symmetry; apply last_insert_at, Hi|].
      rewrite lookup_insert_at by lia. rewrite decide_True by lia. reflexivity.
  - destruct (decide (j = i)) as [->|Hne].
    + injection Hu as <-. exists nx'. split; [exact Hnx|]. rewrite Hnext, Hprev. split.
      * rewrite !decide_False by lia. f_equal. lia.
      * destruct i as [|i]; cbn [before]; [symmetry; apply last_insert_at, Hi|].
        rewrite lookup_insert_at by lia. rewrite decide_True by lia. reflexivity.
    + destruct (ring_node _ _ Hu) as (n & Hn & Hn1 & Hn2). destruct (Hold _ _ _ Hu Hn) as (n' & Hn' & E1 & E2).
      exists n'. split; [exact Hn'|]. rewrite E1, E2, !(decide_False (P := S j = i)), !(decide_False (P := (S j < i)%nat)) by lia.
      rewrite (decide_False (P := S (j - 1) = i)) by lia. split; [rewrite Hn1; f_equal; lia|].
      destruct j as [|j]; [lia|]. cbn [before]. replace (S j - 1)%nat with j in * by lia.
      rewrite lookup_insert_at by lia. destruct (decide (j < i)%nat); [lia|].
      destruct (decide (j = i)); [reflexivity|]. rewrite Hn2. destruct j as [|j]; [lia|]. cbn. f_equal. lia.
Qed.

Lemma insert_middle i x y :
  L !! i = Some y -> loose x ->
  wp (cJSON_InsertItemInArray (Some a) (Z.of_nat i) (Some x))
     (fun r h' => r = true /\ children h' a (insert_at i x L) /\ same_contents h' /\ untouched [x] h') h.
Proof.
  intros Hy Hlo. pose proof Hlo as (Hxa & HxL & nx & Hnx).
  pose proof (lookup_lt_Some _ _ _ Hy) as Hi. destruct (ch_parent _ _ _ Hch) as (na & Hna & Hc).
  destruct (ring_node _ _ Hy) as (ny & Hny & Hnexty & Hprevy).
  pose proof (child_allocated _ _ Hy) as Hya. pose proof (loose_child _ _ _ Hlo Hy) as Hyx.
  unfold cJSON_InsertItemInArray. destruct (Z.ltb_spec (Z.of_nat i) 0); [lia|]. rewrite Nat2Z.id.
  apply wp_bind, wp_array_item. rewrite Hy.
  apply wp_bind. eapply wp_store; [exact Hnx|]. apply wp_bind. eapply wp_load; [lookup_node|].
  links. rewrite Hprevy.
  apply wp_bind. eapply wp_store; [lookup_node|]. apply wp_bind. eapply wp_store; [lookup_node|].
  apply wp_bind. eapply wp_load; [lookup_node|]. links. rewrite Hc.
  replace (head L) with (L !! 0%nat) by (destruct L; reflexivity). rewrite <- Hy.
  destruct i as [|i].
  - rewrite bool_decide_eq_true_2 by reflexivity. apply wp_bind. eapply wp_store; [lookup_node|]. apply wp_ret.
    split; [reflexivity|]. split; [split|split].
    + eexists. split; [lookup_node|]. decide_stores.
    + eapply (ring_insert _ 0 x); [exact Hi|exact HxL|lookup_node|decide_stores..|].
      intros j u n Hu Hn. pose proof (same_index _ _ _ _ Hy Hu).
      pose proof (child_allocated _ _ Hu). pose proof (loose_child _ _ _ Hlo Hu).
      eexists. split; [lookup_node|]. split; decide_stores; exfalso; intuition congruence.
    + rewrite elem_insert_at. intros [?|?]; [congruence|]. apply (ch_outside _ _ _ Hch). assumption.
    + contents.
    + others.
  - destruct (lookup_lt_is_Some_2 L i) as [w Hw]; [lia|]. cbn [before] in *.
    pose proof (same_index _ _ _ _ Hy Hw) as Hyw. assert (y <> w) by (rewrite Hyw; lia).
    pose proof (child_allocated _ _ Hw) as Hwa. pose proof (loose_child _ _ _ Hlo Hw) as Hwx.
    destruct (ring_node _ _ Hw) as (nw & Hnw & _ & _).
    rewrite bool_decide_eq_false_2.
    2:{ intros E. rewrite Hy in E. symmetry in E. pose proof (ring_index _ _ _ Hy E). lia. }
    apply wp_bind, wp_bind. eapply wp_load; [lookup_node|].
    links. rewrite Hw.
    eapply wp_store; [lookup_node|]. apply wp_ret.
    split; [reflexivity|]. split; [split|split].
    + eexists. split; [lookup_node|]. destruct L; [discriminate|]. decide_stores.
    + eapply (ring_insert _ (S i) x); [exact Hi|exact HxL|lookup_node|decide_stores..|].
      intros j u n Hu Hn. pose proof (same_index _ _ _ _ Hy Hu). pose proof (same_index _ _ _ _ Hw Hu).
      pose proof (child_allocated _ _ Hu). pose proof (loose_child _ _ _ Hlo Hu).
      eexists. split; [lookup_node|]. split; decide_stores; exfalso; intuition congruence.
    + rewrite elem_insert_at. intros [?|?]; [congruence|]. apply (ch_outside _ _ _ Hch). assumption.
    + contents.
    + others.
Qed.

Lemma last_delete_at i :
  (i < length L)%nat -> (1 < length L)%nat -> last (delete i L) = if decide (S i = length L) then before L i else last L.
Proof.
  intros Hi Hl. rewrite !last_lookup, length_delete by (apply lookup_lt_is_Some_2, Hi). rewrite lookup_delete_at.
  destruct (decide (S i = length L)) as [E|E].
  - rewrite decide_True by lia. destruct i as [|i]; [lia|]. cbn [before]. f_equal. lia.
  - rewrite decide_False by lia. f_equal. lia.
Qed.

Lemma ring_delete h' i :
  (i < length L)%nat ->
  (forall j u n, j <> i -> L !! j = Some u -> items h !! u = Some n ->
     exists n', items h' !! u = Some n' /\ n_next n' = (if decide (S j = i) then L !! S i else n_next n) /\
       n_prev n' = (if decide (j = S i \/ (j = 0 /\ S i = length L))%nat then before L i else n_prev n)) ->
  ring h' (delete i L).
Proof.
  intros Hi Hold. split; [eapply sublist_NoDup; [apply (ch_ring _ _ _ Hch)|apply sublist_delete]|].
  intros k u Hu. pose proof (lookup_lt_Some _ _ _ Hu) as Hk.
  rewrite length_delete in Hk by (apply lookup_lt_is_Some_2, Hi).
  rewrite !lookup_delete_at in *. destruct (decide (k < i)%nat) as [Hlt|Hge].
  - destruct (ring_node _ _ Hu) as (n & Hn & Hn1 & Hn2). destruct (Hold k _ _ ltac:(lia) Hu Hn) as (n' & Hn' & E1 & E2).
    exists n'. split; [exact Hn'|]. rewrite E1, E2, Hn1, Hn2. split.
    + repeat case_decide; try lia; f_equal; lia.
    + destruct k as [|k]; cbn [before].
      * rewrite last_delete_at by lia. repeat case_decide; try lia; reflexivity.
      * rewrite decide_False, lookup_delete_at, decide_True by lia. reflexivity.
  - destruct (ring_node _ _ Hu) as (n & Hn & Hn1 & Hn2). destruct (Hold (S k) _ _ ltac:(lia) Hu Hn) as (n' & Hn' & E1 & E2).
    exists n'. split; [exact Hn'|]. rewrite E1, E2, Hn1, Hn2. split.
    + rewrite !decide_False by lia. reflexivity.
    + cbn [before]. destruct (decide (k = i)) as [->|Hne].
      * rewrite decide_True by lia. destruct i as [|i]; cbn [before].
        -- rewrite last_delete_at by lia. rewrite decide_False by lia. reflexivity.
        -- rewrite lookup_delete_at, decide_True by lia. reflexivity.
      * rewrite decide_False by lia. destruct k as [|k]; [lia|]. cbn [before].
        rewrite lookup_delete_at, decide_False by lia. reflexivity.
Qed.

Definition detached (i : nat) (y : addr) (r : ptr) (h' : heap) : Prop :=
  r = Some y /\ children h' a (delete i L) /\
  (exists n, items h' !! y = Some n /\ n_next n = None /\ n_prev n = None) /\
  same_contents h' /\ untouched [] h'.

(** The links of the children after stores, by their indices. *)
Ltac nat_lia :=
  repeat match goal with
  | H : _ <> _ :> positive |- _ => clear H
  | H : _ <-> _ |- _ => clear H
  end; exfalso; lia.
Ltac relinked :=
  let j := fresh "j" in let u := fresh "u" in let n := fresh "n" in
  let Hj := fresh "Hj" in let Hu := fresh "Hu" in let Hn := fresh "Hn" in
  intros j u n Hj Hu Hn; pose proof (child_allocated _ _ Hu); pose proof (lookup_lt_Some _ _ _ Hu);
  repeat match goal with
  | H : L !! _ = Some ?x |- _ =>
      lazymatch x with u => fail | _ => pose proof (same_index _ _ _ _ H Hu); pose proof (lookup_lt_Some _ _ _ H); revert H end
  end; intros;
  try match goal with Hl : loose _ |- _ => pose proof (loose_child _ _ _ Hl Hu) end;
  eexists; split; [lookup_node|]; autorewrite with links;
  repeat match goal with
  | E : ?b = u <-> ?k = j |- context [decide (?b = u)] =>
      destruct (decide (k = j));
      [rewrite !(decide_True (P := b = u)) by (apply E; assumption)
      |rewrite !(decide_False (P := b = u)) by (rewrite E; assumption)]; try nat_lia; clear E
  | |- context [decide (?b = u)] => rewrite !(decide_False (P := b = u)) by congruence
  end; split; repeat case_decide; try nat_lia; cbn [before] in *; try congruence.

Ltac detached_by i :=
  apply wp_ret; split; [reflexivity|]; split;
  [split;
    [eexists; split; [lookup_node|]
    |eapply (ring_delete _ i); [assumption|relinked]
    |intros ?%elem_delete; eapply (ch_outside _ _ _ Hch); eassumption]
  |split; [eexists; split; [lookup_node|]; split; decide_stores|split; [contents|others]]].

Lemma detach_first y :
  L !! 0%nat = Some y -> wp (cJSON_DetachItemViaPointer (Some a) (Some y)) (detached 0 y) h.
Proof.
  intros Hy. pose proof (lookup_lt_Some _ _ _ Hy) as Hi. destruct (ch_parent _ _ _ Hch) as (na & Hna & Hc).
  destruct (ring_node _ _ Hy) as (ny & Hny & Hnexty & Hprevy). pose proof (child_allocated _ _ Hy) as Hya.
  rewrite (head_Some _ _ Hy) in Hc.
  unfold cJSON_DetachItemViaPointer. rewrite !bool_decide_eq_false_2 by discriminate. cbn [orb].
  apply wp_bind. eapply wp_load; [exact Hna|]. apply wp_bind. eapply wp_load; [exact Hny|]. rewrite Hc, Hnexty, Hprevy.
  rewrite bool_decide_eq_false_2 by congruence. apply wp_bind, wp_ret.
  apply wp_bind. eapply wp_load; [exact Hny|]. rewrite Hnexty, Hprevy.
  destruct (L !! 1%nat) as [v|] eqn:Hv.
  - destruct (ring_node _ _ Hv) as (nv & Hnv & _ & _). pose proof (child_allocated _ _ Hv) as Hva.
    pose proof (same_index _ _ _ _ Hy Hv) as Hyv. assert (y <> v) by (rewrite Hyv; lia).
    rewrite bool_decide_eq_true_2 by discriminate. apply wp_bind. eapply wp_store; [exact Hnv|].
    apply wp_bind. eapply wp_load; [lookup_node|]. apply wp_bind. eapply wp_load; [lookup_node|].
    links. rewrite Hc, Hnexty. rewrite bool_decide_eq_true_2 by reflexivity.
    apply wp_bind. eapply wp_store; [lookup_node|].
    apply wp_bind. eapply wp_store; [lookup_node|]. apply wp_bind. eapply wp_store; [lookup_node|].
    detached_by 0%nat. destruct L as [|? [|? ?]]; [discriminate..|]. decide_stores.
  - rewrite bool_decide_eq_false_2 by congruence. apply wp_bind, wp_ret.
    apply wp_bind. eapply wp_load; [exact Hna|]. apply wp_bind. eapply wp_load; [exact Hny|].
    rewrite Hc, Hnexty. rewrite bool_decide_eq_true_2 by reflexivity.
    apply wp_bind. eapply wp_store; [lookup_node|].
    apply wp_bind. eapply wp_store; [lookup_node|]. apply wp_bind. eapply wp_store; [lookup_node|].
    apply lookup_ge_None in Hv. detached_by 0%nat. destruct L as [|? [|? ?]]; [discriminate| |cbn in *; lia]. decide_stores.
Qed.

Lemma detach_later i y :
  L !! S i = Some y -> wp (cJSON_DetachItemViaPointer (Some a) (Some y)) (detached (S i) y) h.
Proof.
  intros Hy. pose proof (lookup_lt_Some _ _ _ Hy) as Hi. destruct (ch_parent _ _ _ Hch) as (na & Hna & Hc).
  destruct (ring_node _ _ Hy) as (ny & Hny & Hnexty & Hprevy). pose proof (child_allocated _ _ Hy) as Hya.
  destruct (lookup_lt_is_Some_2 L 0) as [f Hf]; [lia|]. destruct (lookup_lt_is_Some_2 L i) as [w Hw]; [lia|].
  rewrite (head_Some _ _ Hf) in Hc. cbn [before] in Hprevy. rewrite Hw in Hprevy.
  destruct (ring_node _ _ Hw) as (nw & Hnw & _ & _). destruct (ring_node _ _ Hf) as (nf & Hnf & _ & _).
  pose proof (child_allocated _ _ Hw) as Hwa. pose proof (child_allocated _ _ Hf) as Hfa.
  pose proof (same_index _ _ _ _ Hy Hw) as Eyw. assert (y <> w) by (rewrite Eyw; lia).
  pose proof (same_index _ _ _ _ Hy Hf) as Eyf. assert (y <> f) by (rewrite Eyf; lia).
  unfold cJSON_DetachItemViaPointer. rewrite !bool_decide_eq_false_2 by discriminate. cbn [orb].
  apply wp_bind. eapply wp_load; [exact Hna|]. apply wp_bind. eapply wp_load; [exact Hny|]. rewrite Hc, Hprevy.
  rewrite bool_decide_eq_true_2 by congruence. apply wp_bind. eapply wp_store; [exact Hnw|].
  apply wp_bind. eapply wp_load; [lookup_node|]. links. rewrite Hnexty, Hprevy.
  destruct (L !! S (S i)) as [v|] eqn:Hv.
  - destruct (ring_node _ _ Hv) as (nv & Hnv & _ & _). pose proof (child_allocated _ _ Hv) as Hva.
    pose proof (same_index _ _ _ _ Hy Hv) as Eyv. assert (y <> v) by (rewrite Eyv; lia).
    pose proof (same_index _ _ _ _ Hw Hv) as Ewv. assert (w <> v) by (rewrite Ewv; lia).
    rewrite bool_decide_eq_true_2 by discriminate. apply wp_bind. eapply wp_store; [lookup_node|].
    apply wp_bind. eapply wp_load; [lookup_node|]. apply wp_bind. eapply wp_load; [lookup_node|].
    links. rewrite Hc, Hnexty. rewrite bool_decide_eq_false_2 by congruence.
    rewrite bool_decide_eq_false_2 by discriminate. apply wp_bind, wp_ret.
    apply wp_bind. eapply wp_store; [lookup_node|]. apply wp_bind. eapply wp_store; [lookup_node|].
    detached_by (S i). destruct L as [|? [|? ?]]; [discriminate..|]. decide_stores.
  - rewrite bool_decide_eq_false_2 by congruence. apply wp_bind, wp_ret.
    apply wp_bind. eapply wp_load; [lookup_node|]. apply wp_bind. eapply wp_load; [lookup_node|].
    links. rewrite Hc, Hnexty. rewrite bool_decide_eq_false_2 by congruence.
    rewrite bool_decide_eq_true_2 by reflexivity. rewrite Hprevy. apply wp_bind. eapply wp_store; [lookup_node|].
    apply wp_bind. eapply wp_store; [lookup_node|]. apply wp_bind. eapply wp_store; [lookup_node|].
    pose proof Hv as Hlen. apply lookup_ge_None in Hlen. detached_by (S i). destruct L as [|? [|? ?]]; [discriminate..|]. decide_stores.
Qed.

(** *** Replacement *)

(** Which element has the one at index [i] before it. *)
Lemma before_is i k y : L !! i = Some y -> (k < length L)%nat ->
  before L k = Some y <-> (k = S i \/ (k = 0 /\ S i = length L))%nat.
Proof.
  intros Hy Hk. pose proof (lookup_lt_Some _ _ _ Hy). destruct k as [|k]; cbn [before].
  - rewrite last_lookup. split; [|intros [?|[_ E]]; [lia|rewrite <- E; exact Hy]].
    intros E. pose proof (ring_index _ _ _ Hy E). lia.
  - split; [|intros [[= ->]|?]; [exact Hy|lia]]. intros E. pose proof (ring_index _ _ _ Hy E). lia.
Qed.

Lemma before_insert i k x : (i < length L)%nat -> (k < length L)%nat ->
  before (<[i := x]> L) k = if decide (k = S i \/ (k = 0 /\ S i = length L))%nat then Some x else before L k.
Proof.
  intros Hi Hk. destruct k as [|k]; cbn [before].
  - rewrite !last_lookup, length_insert. destruct (decide _) as [H|H].
    + rewrite list_lookup_insert; rewrite decide_True by lia; reflexivity.
    + apply list_lookup_insert_ne. lia.
  - destruct (decide _) as [H|H].
    + rewrite list_lookup_insert. rewrite decide_True by lia. reflexivity.
    + apply list_lookup_insert_ne. lia.
Qed.

Lemma NoDup_replace i x : x ∉ L -> NoDup (<[i := x]> L).
Proof.
  intros Hx. apply NoDup_alt. intros j k u Hj Hk. apply list_lookup_insert_Some in Hj, Hk.
  destruct Hj as [(-> & -> & _)|[Hij Hj]], Hk as [(E & E' & _)|[Hik Hk]]; subst; try reflexivity.
  - exfalso. apply Hx. eapply list_elem_of_lookup_2, Hk.
  - exfalso. apply Hx. eapply list_elem_of_lookup_2, Hj.
  - eapply ring_index; eassumption.
Qed.

Lemma outside_replace i x : a <> x -> a ∉ <[i := x]> L.
Proof.
  intros Hx (k & Hk)%list_elem_of_lookup. apply list_lookup_insert_Some in Hk as [(_ & ? & _)|[_ Hk]]; [congruence|].
  apply (ch_outside _ _ _ Hch). eapply list_elem_of_lookup_2, Hk.
Qed.

Lemma ring_replace h' i x y nx' :
  L !! i = Some y -> x ∉ L -> items h' !! x = Some nx' -> n_next nx' = L !! S i ->
  n_prev nx' = (if decide (length L = 1%nat) then Some x else before L i) ->
  (forall j u n, j <> i -> L !! j = Some u -> items h !! u = Some n ->
     exists n', items h' !! u = Some n' /\ n_next n' = (if decide (S j = i) then Some x else n_next n) /\
       n_prev n' = (if decide (j = S i \/ (j = 0 /\ S i = length L))%nat then Some x else n_prev n)) ->
  ring h' (<[i := x]> L).
Proof.
  intros Hy Hx Hnx Hnext Hprev Hold. pose proof (lookup_lt_Some _ _ _ Hy) as Hi.
  split; [apply NoDup_replace, Hx|].
  intros j u Hu. pose proof (lookup_lt_Some _ _ _ Hu) as Hj. rewrite length_insert in Hj.
  rewrite before_insert by assumption. destruct (decide (i = j)) as [<-|Hne].
  - rewrite list_lookup_insert_eq in Hu by exact Hi. injection Hu as <-. exists nx'. split; [exact Hnx|].
    rewrite Hnext, Hprev. split; [rewrite list_lookup_insert_ne by lia; reflexivity|].
    repeat case_decide; try lia; reflexivity.
  - rewrite list_lookup_insert_ne in Hu by exact Hne. destruct (ring_node _ _ Hu) as (n & Hn & Hn1 & Hn2).
    destruct (Hold j _ _ ltac:(congruence) Hu Hn) as (n' & Hn' & E1 & E2). exists n'. split; [exact Hn'|].
    rewrite E1, E2, Hn1, Hn2. split; [|reflexivity].
    destruct (decide (S j = i)) as [<-|]; [rewrite list_lookup_insert_eq by exact Hi|rewrite list_lookup_insert_ne by lia]; reflexivity.
Qed.

(** What [take_links] does for the child [y] at index [i]. *)
Definition replaced (i : nat) (x y : addr) (h' : heap) : Prop :=
  children h' a (<[i := x]> L) /\
  (exists n, items h' !! y = Some n /\ n_next n = None) /\ same_contents h' /\ untouched [x] h'.

Ltac replaced_by :=
  split;
  [split;
    [eexists; split; [lookup_node|]; decide_stores
    |eapply ring_replace; [eassumption|assumption|lookup_node|decide_stores|decide_stores; cbn [before]; congruence|relinked]
    |apply outside_replace; congruence]
  |split; [eexists; split; [lookup_node|]; decide_stores|split; [contents|others]]].

Lemma replace_first x y :
  L !! 0%nat = Some y -> loose x -> wp (take_links (Some a) (Some y) (Some x)) (fun _ => replaced 0 x y) h.
Proof.
  intros Hy Hlo. pose proof Hlo as (Hxa & HxL & nx & Hnx). pose proof (lookup_lt_Some _ _ _ Hy) as Hi.
  destruct (ch_parent _ _ _ Hch) as (na & Hna & Hc). rewrite (head_Some _ _ Hy) in Hc.
  destruct (ring_node _ _ Hy) as (ny & Hny & Hnexty & Hprevy). pose proof (child_allocated _ _ Hy) as Hya.
  pose proof (loose_child _ _ _ Hlo Hy) as Hyx.
  unfold take_links. apply wp_bind. eapply wp_load; [exact Hny|]. rewrite Hnexty, Hprevy.
  apply wp_bind. eapply wp_store; [exact Hnx|]. apply wp_bind. eapply wp_store; [lookup_node|].
  apply wp_bind. eapply wp_load; [lookup_node|]. links.
  destruct (L !! 1%nat) as [v|] eqn:Hv.
  - destruct (ring_node _ _ Hv) as (nv & Hnv & _ & _). pose proof (child_allocated _ _ Hv) as Hva.
    pose proof (loose_child _ _ _ Hlo Hv) as Hvx. pose proof (lookup_lt_Some _ _ _ Hv) as Hlen.
    pose proof (same_index _ _ _ _ Hy Hv) as Hyv. assert (y <> v) by (rewrite Hyv; lia).
    assert (last L <> Some y) as Hlast.
    { rewrite last_lookup. intros E. pose proof (ring_index _ _ _ Hy E). lia. }
    rewrite bool_decide_eq_true_2 by discriminate. apply wp_bind. eapply wp_store; [lookup_node|].
    apply wp_bind. eapply wp_load; [lookup_node|]. links. rewrite Hc. rewrite bool_decide_eq_true_2 by reflexivity.
    apply wp_bind, wp_bind. eapply wp_load; [lookup_node|]. links. rewrite Hprevy. cbn [before].
    rewrite bool_decide_eq_false_2 by exact Hlast. apply wp_bind, wp_ret. eapply wp_store; [lookup_node|].
    apply wp_bind. eapply wp_store; [lookup_node|]. eapply wp_store; [lookup_node|].
    assert (length L <> 1%nat) by lia. replaced_by.
    destruct L; [discriminate|reflexivity].
  - pose proof Hv as Hlen. apply lookup_ge_None in Hlen.
    assert (last L = Some y) as Hlast by (rewrite last_lookup, <- Hy; f_equal; lia).
    rewrite bool_decide_eq_false_2 by congruence. apply wp_bind, wp_ret.
    apply wp_bind. eapply wp_load; [lookup_node|]. links. rewrite Hc. rewrite bool_decide_eq_true_2 by reflexivity.
    apply wp_bind, wp_bind. eapply wp_load; [lookup_node|]. links. rewrite Hprevy. cbn [before].
    rewrite bool_decide_eq_true_2 by exact Hlast. apply wp_bind. eapply wp_store; [lookup_node|].
    eapply wp_store; [lookup_node|].
    apply wp_bind. eapply wp_store; [lookup_node|]. eapply wp_store; [lookup_node|].
    assert (length L = 1%nat) by lia. replaced_by. destruct L; [discriminate|reflexivity].
Qed.

Lemma replace_later i x y :
  L !! S i = Some y -> loose x -> wp (take_links (Some a) (Some y) (Some x)) (fun _ => replaced (S i) x y) h.
Proof.
  intros Hy Hlo. pose proof Hlo as (Hxa & HxL & nx & Hnx). pose proof (lookup_lt_Some _ _ _ Hy) as Hi.
  destruct (ch_parent _ _ _ Hch) as (na & Hna & Hc).
  destruct (ring_node _ _ Hy) as (ny & Hny & Hnexty & Hprevy). pose proof (child_allocated _ _ Hy) as Hya.
  pose proof (loose_child _ _ _ Hlo Hy) as Hyx.
  destruct (lookup_lt_is_Some_2 L 0) as [f Hf]; [lia|]. destruct (lookup_lt_is_Some_2 L i) as [w Hw]; [lia|].
  rewrite (head_Some _ _ Hf) in Hc. cbn [before] in Hprevy. rewrite Hw in Hprevy.
  destruct (ring_node _ _ Hw) as (nw & Hnw & _ & _). destruct (ring_node _ _ Hf) as (nf & Hnf & _ & _).
  pose proof (child_allocated _ _ Hw) as Hwa. pose proof (child_allocated _ _ Hf) as Hfa.
  pose proof (loose_child _ _ _ Hlo Hw) as Hwx. pose proof (loose_child _ _ _ Hlo Hf) as Hfx.
  pose proof (same_index _ _ _ _ Hy Hw) as Eyw. assert (y <> w) by (rewrite Eyw; lia).
  pose proof (same_index _ _ _ _ Hy Hf) as Eyf. assert (y <> f) by (rewrite Eyf; lia).
  clear Eyw Eyf. assert (length L <> 1%nat) by lia.
  unfold take_links. apply wp_bind. eapply wp_load; [exact Hny|]. rewrite Hnexty, Hprevy.
  apply wp_bind. eapply wp_store; [exact Hnx|]. apply wp_bind. eapply wp_store; [lookup_node|].
  apply wp_bind. eapply wp_load; [lookup_node|]. links.
  destruct (L !! S (S i)) as [v|] eqn:Hv.
  - destruct (ring_node _ _ Hv) as (nv & Hnv & _ & _). pose proof (child_allocated _ _ Hv) as Hva.
    pose proof (loose_child _ _ _ Hlo Hv) as Hvx.
    pose proof (same_index _ _ _ _ Hy Hv) as Eyv. assert (y <> v) by (rewrite Eyv; lia).
    pose proof (same_index _ _ _ _ Hw Hv) as Ewv. assert (w <> v) by (rewrite Ewv; lia). clear Eyv Ewv.
    rewrite bool_decide_eq_true_2 by discriminate. apply wp_bind. eapply wp_store; [lookup_node|].
    apply wp_bind. eapply wp_load; [lookup_node|]. links. rewrite Hc. rewrite bool_decide_eq_false_2 by congruence.
    apply wp_bind, wp_bind. eapply wp_load; [lookup_node|]. links. rewrite bool_decide_eq_true_2 by discriminate.
    apply wp_bind. eapply wp_store; [lookup_node|]. apply wp_bind. eapply wp_load; [lookup_node|]. links.
    rewrite bool_decide_eq_false_2 by discriminate. apply wp_ret.
    apply wp_bind. eapply wp_store; [lookup_node|]. eapply wp_store; [lookup_node|].
    replaced_by. destruct L; [discriminate|]. rewrite Hc. symmetry. exact Hf.
  - pose proof Hv as Hlen. apply lookup_ge_None in Hlen.
    rewrite bool_decide_eq_false_2 by congruence. apply wp_bind, wp_ret.
    apply wp_bind. eapply wp_load; [lookup_node|]. links. rewrite Hc. rewrite bool_decide_eq_false_2 by congruence.
    apply wp_bind, wp_bind. eapply wp_load; [lookup_node|]. links. rewrite bool_decide_eq_true_2 by discriminate.
    apply wp_bind. eapply wp_store; [lookup_node|]. apply wp_bind. eapply wp_load; [lookup_node|]. links.
    rewrite bool_decide_eq_true_2 by reflexivity. eapply wp_store; [lookup_node|].
    apply wp_bind. eapply wp_store; [lookup_node|]. eapply wp_store; [lookup_node|].
    replaced_by. destruct L; [discriminate|]. rewrite Hc. symmetry. exact Hf.
Qed.

End Ops.



(** ** Sequences of operations *)

(** Operations on the array [a]: the item at the end, at an index, and the removal of the item
    at an index. *)
Inductive array_op :=
  | Append (x : addr)
  | InsertAt (i : Z) (x : addr)
  | DetachAt (i : Z).

Local Open Scope m_scope.

(** What the call returns: success, or the detached item. *)
Definition run_op (a : addr) (op : array_op) : M heap (bool + ptr) :=
  match op with
  | Append x => let* r := cJSON_AddItemToArray (Some a) (Some x) in ret (inl r)
  | InsertAt i x => let* r := cJSON_InsertItemInArray (Some a) i (Some x) in ret (inl r)
  | DetachAt i => let* r := cJSON_DetachItemFromArray (Some a) i in ret (inr r)
  end.

(** The specification: the children and the items that are in no list. *)
Definition spec_op (op : array_op) (s : list addr * gset addr) : option ((bool + ptr) * (list addr * gset addr)) :=
  let '(L, D) := s in
  match op with
  | Append x => if decide (x ∈ D) then Some (inl true, (L ++ [x], D ∖ {[x]})) else None
  | InsertAt i x =>
      if decide (x ∈ D) then
        if i <? 0 then Some (inl false, s)
        else if (Z.to_nat i <? length L)%nat then Some (inl true, (insert_at (Z.to_nat i) x L, D ∖ {[x]}))
        else Some (inl true, (L ++ [x], D ∖ {[x]}))
      else None
  | DetachAt i =>
      if i <? 0 then Some (inr None, s)
      else match L !! Z.to_nat i with
           | Some y => Some (inr (Some y), (delete (Z.to_nat i) L, D ∪ {[y]}))
           | None => Some (inr None, s)
           end
  end.

Fixpoint run_ops (a : addr) (ops : list array_op) : M heap (list (bool + ptr)) :=
  match ops with
  | [] => ret []
  | op :: ops' => let* r := run_op a op in let* rs := run_ops a ops' in ret (r :: rs)
  end.

Fixpoint spec_ops (ops : list array_op) (s : list addr * gset addr)
  : option (list (bool + ptr) * (list addr * gset addr)) :=
  match ops with
  | [] => Some ([], s)
  | op :: ops' =>
      match spec_op op s with
      | Some (r, s') =>
          match spec_ops ops' s' with Some (rs, s'') => Some (r :: rs, s'') | None => None end
      | None => None
      end
  end.

(** The memory implements the abstract state. *)
Record array_state (h : heap) (a : addr) (s : list addr * gset addr) : Prop := {
  as_children : children h a (fst s);
  as_loose : forall x, x ∈ snd s -> x <> a /\ (x ∉ fst s) /\ exists n, items h !! x = Some n /\ n_next n = None
}.

(** No operation changes what an item holds, or the children of another item. *)
Definition contents_kept (a : addr) (h h' : heap) : Prop :=
  blocks h' = blocks h /\
  forall x n, items h !! x = Some n -> exists n', items h' !! x = Some n' /\ n_data n' = n_data n /\
    (x <> a -> n_child n' = n_child n).

Lemma contents_kept_refl a h : contents_kept a h h.
Proof. split; [reflexivity|]. eauto. Qed.

Lemma contents_kept_trans a h h1 h2 : contents_kept a h h1 -> contents_kept a h1 h2 -> contents_kept a h h2.
Proof.
  intros [B1 H1] [B2 H2]. split; [congruence|]. intros x n Hn. destruct (H1 x n Hn) as (n1 & Hn1 & E1 & C1).
  destruct (H2 x n1 Hn1) as (n2 & Hn2 & E2 & C2). exists n2. split; [exact Hn2|]. split; [congruence|].
  intros Hx. rewrite C2, C1 by exact Hx. reflexivity.
Qed.

Lemma append_child h a L x :
  children h a L -> loose h a L x -> (forall n, items h !! x = Some n -> n_next n = None) ->
  wp (add_item_to_array (Some a) (Some x))
     (fun r h' => r = true /\ children h' a (L ++ [x]) /\ same_contents h a h' /\ untouched h a L [x] h') h.
Proof.
  intros Hch Hlo Hn. destruct L as [|f L]; [apply append_first; auto|apply append_last; auto; discriminate].
Qed.

(** A new child leaves the loose items. *)
Lemma attached_state h a L D x L' h' :
  array_state h a (L, D) -> x ∈ D -> (forall y, y ∈ L' <-> y = x \/ y ∈ L) ->
  children h' a L' -> untouched h a L [x] h' -> array_state h' a (L', D ∖ {[x]}).
Proof.
  intros [_ Hlo] Hx HL' Hch [_ Hun]. split; [exact Hch|]. cbn [fst snd] in *. intros y Hy.
  apply elem_of_difference in Hy as [Hy Hyx]. apply not_elem_of_singleton in Hyx.
  destruct (Hlo y Hy) as (Hya & HyL & n & Hn & Hnone). split; [exact Hya|]. split; [rewrite HL'; intros [?|?]; contradiction|].
  exists n. split; [|exact Hnone]. rewrite Hun; [exact Hn|].
  rewrite not_elem_of_cons, not_elem_of_app, list_elem_of_singleton. auto.
Qed.

Lemma kept h a L ex h' : same_contents h a h' -> untouched h a L ex h' -> contents_kept a h h'.
Proof. intros Hc [Hb _]. split; assumption. Qed.

Lemma state_loose h a L D x :
  array_state h a (L, D) -> x ∈ D -> loose h a L x /\ forall n, items h !! x = Some n -> n_next n = None.
Proof.
  intros [_ Hlo] Hx. destruct (Hlo x Hx) as (Hxa & HxL & n & Hn & Hnone).
  split; [split; [exact Hxa|split; [exact HxL|eauto]]|]. intros n' E. congruence.
Qed.

Definition refined (a : addr) (h : heap) (r : bool + ptr) (s' : list addr * gset addr) (r' : bool + ptr)
    (h' : heap) : Prop := r' = r /\ array_state h' a s' /\ contents_kept a h h'.

Lemma refined_skip a h r s : array_state h a s -> refined a h r s r h.
Proof. intros Hst. split; [reflexivity|]. split; [exact Hst|apply contents_kept_refl]. Qed.

(** Both ways to attach a loose item. *)
Lemma attached_refines h a L D x L' (c : M heap bool) :
  array_state h a (L, D) -> x ∈ D -> (forall y, y ∈ L' <-> y = x \/ y ∈ L) ->
  wp c (fun r h' => r = true /\ children h' a L' /\ same_contents h a h' /\ untouched h a L [x] h') h ->
  wp (let* r := c in ret (inl r)) (refined a h (inl true) (L', D ∖ {[x]})) h.
Proof.
  intros Hst Hx HL' Hc. apply wp_bind. eapply wp_mono; [exact Hc|].
  intros r h' (-> & Hch' & Hcon & Hun). apply wp_ret. split; [reflexivity|].
  split; [eapply attached_state; eassumption|eapply kept; eassumption].
Qed.

Lemma elem_snoc L x (y : addr) : y ∈ L ++ [x] <-> y = x \/ y ∈ L.
Proof. rewrite elem_of_app, list_elem_of_singleton. tauto. Qed.

Lemma detached_refines h a L D i y :
  array_state h a (L, D) -> L !! i = Some y ->
  wp (let* r := cJSON_DetachItemViaPointer (Some a) (Some y) in ret (inr r))
     (refined a h (inr (Some y)) (delete i L, D ∪ {[y]})) h.
Proof.
  intros Hst Hy. pose proof (as_children _ _ _ Hst) as Hch. cbn [fst] in Hch.
  assert (wp (cJSON_DetachItemViaPointer (Some a) (Some y)) (detached h a L i y) h) as Hwp.
  { destruct i; [apply detach_first|apply detach_later]; assumption. }
  apply wp_bind. eapply wp_mono; [exact Hwp|]. intros r h' (-> & Hch' & (n & Hn & Hnx & _) & Hc & Hun). apply wp_ret.
  split; [reflexivity|]. split; [|eapply kept; eassumption]. split; [exact Hch'|]. cbn [fst snd].
  pose proof (list_elem_of_lookup_2 _ _ _ Hy) as HyL.
  intros x [Hx| ->%elem_of_singleton]%elem_of_union.
  - destruct (as_loose _ _ _ Hst x Hx) as (Hxa & HxL & n' & Hn' & Hnone). cbn [fst] in HxL.
    split; [exact Hxa|]. split; [intros Hd; apply HxL; eapply elem_delete, Hd|].
    exists n'. split; [|exact Hnone]. rewrite (proj2 Hun); [exact Hn'|].
    rewrite not_elem_of_cons, app_nil_r. auto.
  - split; [intros ->; apply (ch_outside _ _ _ Hch), HyL|]. split; [|eauto].
    intros Hd. apply list_elem_of_lookup in Hd as (k & Hk). rewrite lookup_delete_at in Hk.
    destruct (decide (k < i)%nat); pose proof (ring_index _ _ _ Hch _ _ _ Hy Hk); lia.
Qed.

Lemma array_op_refines h a op s r s' :
  array_state h a s -> spec_op op s = Some (r, s') -> wp (run_op a op) (refined a h r s') h.
Proof.
  intros Hst Hop. destruct s as [L D]. pose proof (as_children _ _ _ Hst) as Hch. cbn [fst] in Hch.
  destruct op as [x|i x|i]; cbn [spec_op run_op] in *.
  - destruct (decide (x ∈ D)) as [Hx|]; [|discriminate]. injection Hop as <- <-.
    destruct (state_loose _ _ _ _ _ Hst Hx) as [Hlo Hnone].
    eapply attached_refines; [exact Hst|exact Hx|apply elem_snoc|]. apply append_child; assumption.
  - destruct (decide (x ∈ D)) as [Hx|]; [|discriminate].
    destruct (state_loose _ _ _ _ _ Hst Hx) as [Hlo Hnone]. unfold cJSON_InsertItemInArray.
    destruct (Z.ltb_spec i 0) as [|Hpos].
    { injection Hop as <- <-. apply refined_skip, Hst. }
    destruct (Nat.ltb_spec (Z.to_nat i) (length L)) as [Hi|Hi]; injection Hop as <- <-.
    + destruct (lookup_lt_is_Some_2 L (Z.to_nat i) Hi) as [y Hy].
      pose proof (insert_middle h a L Hch _ x y Hy Hlo) as Hwp. rewrite Z2Nat.id in Hwp by exact Hpos.
      unfold cJSON_InsertItemInArray in Hwp. destruct (Z.ltb_spec i 0); [lia|].
      eapply attached_refines; [exact Hst|exact Hx|apply elem_insert_at|exact Hwp].
    + eapply attached_refines; [exact Hst|exact Hx|apply elem_snoc|]. apply wp_bind, (wp_array_item h a L Hch).
      rewrite lookup_ge_None_2 by exact Hi. apply append_child; assumption.
  - unfold cJSON_DetachItemFromArray. destruct (Z.ltb_spec i 0).
    { injection Hop as <- <-. apply refined_skip, Hst. }
    apply wp_bind, wp_bind, (wp_array_item h a L Hch).
    destruct (L !! Z.to_nat i) as [y|] eqn:Hy; injection Hop as <- <-; [|apply refined_skip, Hst].
    pose proof (detached_refines _ _ _ _ _ _ Hst Hy) as Hwp. unfold wp, bind in Hwp |- *.
    destruct (cJSON_DetachItemViaPointer _ _ h) as [[r h']|]; exact Hwp.
Qed.

Lemma run_ops_refines h a ops s rs s' :
  array_state h a s -> spec_ops ops s = Some (rs, s') ->
  wp (run_ops a ops) (fun rs' h' => rs' = rs /\ array_state h' a s' /\ contents_kept a h h') h.
Proof.
  revert h s rs s'. induction ops as [|op ops IH]; intros h s rs s' Hst Hs; cbn in Hs.
  - injection Hs as <- <-. apply wp_ret. auto using contents_kept_refl.
  - destruct (spec_op op s) as [[r s1]|] eqn:E1; [|discriminate].
    destruct (spec_ops ops s1) as [[rs1 s2]|] eqn:E2; [|discriminate]. injection Hs as <- <-.
    apply wp_bind. eapply wp_mono; [eapply array_op_refines; eassumption|]. intros r' h1 (-> & Hst1 & Hk1).
    apply wp_bind. eapply wp_mono; [eapply IH; eassumption|]. intros rs' h2 (-> & Hst2 & Hk2).
    apply wp_ret. split; [reflexivity|]. eauto using contents_kept_trans.
Qed.

(** ** Theorem *)

(** C19: The doubly linked children of an item implement a list: any sequence of
    [cJSON_AddItemToArray], [cJSON_InsertItemInArray] and [cJSON_DetachItemFromArray] with items
    that are in no list returns what the operations on the list return, ends with the children
    linked in the order of the resulting list, and changes neither the values nor the strings of
    any item nor the children of another one. *)
Theorem array_ops_refine h a s ops rs s' (Hstate : array_state h a s) (Hspec : spec_ops ops s = Some (rs, s')) :
  exists h', run_ops a ops h = Done (rs, h') /\ array_state h' a s' /\ contents_kept a h h'.
Proof.
  destruct (proj1 (wp_Done _ _ _) (run_ops_refines _ _ _ _ _ _ Hstate Hspec)) as (rs' & h' & Hrun & -> & Hst & Hk).
  eauto.
Qed.

(** An empty array and three items. *)
Definition four_items : heap :=
  {| items := list_to_map [(1%positive, zero_node); (2%positive, zero_node); (3%positive, zero_node); (4%positive, zero_node)];
     blocks := ∅; h_allocs := 0 |}.

Lemma array_ops_refine_witness :
  exists h', run_ops 1 [Append 2; Append 3; InsertAt 1 4; DetachAt 0; InsertAt 9 2; DetachAt 5] four_items
    = Done ([inl true; inl true; inl true; inr (Some 2%positive); inl true; inr None], h') /\
    array_state h' 1 ([4; 3; 2], ({[2; 3; 4]} ∖ {[2]} ∖ {[3]} ∖ {[4]} ∪ {[2]}) ∖ {[2]})%positive /\
    contents_kept 1 four_items h'.
Proof.
  apply (array_ops_refine four_items 1 ([], {[2; 3; 4]}%positive)).
  - split; [split|].
    + eexists. split; reflexivity.
    + split; [constructor|]. intros i x Hx. discriminate.
    + apply not_elem_of_nil.
    + cbn [fst snd]. intros x Hx. assert (x = 2 \/ x = 3 \/ x = 4)%positive as [-> | [-> | ->]] by set_solver;
        (split; [discriminate|split; [apply not_elem_of_nil|eexists; split; reflexivity]]).
  - vm_compute. reflexivity.
Defined.

End JsonHeapSpec.
