(* ===== verification/JsonTree.v ===== *)
(** * Trees of items

    An item owns its children, unless it is a reference, and its strings, unless they are
    marked as not its own.  [cJSON_Delete] frees exactly what an item and the siblings after
    it own. *)

From Stdlib Require Import ZArith Lia SpecFloat Ascii.
From stdpp Require Import base numbers list strings gmap fin_sets.
From S2P Require Import Prelude DoubleArith Json JsonPrint JsonItem JsonHeap JsonHeapSpec.
Open Scope Z_scope.

Module JsonTree.
Export JsonHeapSpec.

Inductive tree := Tree (r : addr) (d : data) (kids : list tree).

Definition root (t : tree) : addr := match t with Tree r _ _ => r end.

(** The string blocks an item owns. *)
Definition own_blocks (d : data) : list addr :=
  (if negb (is_reference (d_type d)) then option_list (d_valuestring d) else []) ++
  (if negb (is_const_key (d_type d)) then option_list (d_string d) else []).

Fixpoint addrs (t : tree) : list addr := match t with Tree r _ kids => r :: flat_map addrs kids end.
Fixpoint owned (t : tree) : list addr := match t with Tree _ d kids => own_blocks d ++ flat_map owned kids end.

(** The memory holds the trees as siblings, the last without a next one. *)
Inductive forest (h : heap) : list tree -> Prop :=
  | forest_nil : forest h []
  | forest_cons r d kids ts n :
      items h !! r = Some n -> n_data n = d -> n_next n = root <$> head ts ->
      (if is_reference (d_type d) then kids = [] else n_child n = root <$> head kids) ->
      forest h kids -> forest h ts -> forest h (Tree r d kids :: ts).

(** [h'] is [h] without the items [A] and the blocks [B]. *)
Record freed (h : heap) (A B : list addr) (h' : heap) : Prop := {
  fr_items : forall x, items h' !! x = if decide (x ∈ A) then None else items h !! x;
  fr_blocks : forall x, blocks h' !! x = if decide (x ∈ B) then None else blocks h !! x;
  fr_allocs : h_allocs h' = h_allocs h
}.

Lemma freed_nil h : freed h [] [] h.
Proof. split; intros; try reflexivity; rewrite decide_False by apply not_elem_of_nil; reflexivity. Qed.

Lemma freed_app h A B h1 A' B' h2 : freed h A B h1 -> freed h1 A' B' h2 -> freed h (A ++ A') (B ++ B') h2.
Proof.
  intros [Hi Hb Ha] [Hi' Hb' Ha']. split; [| |congruence]; intros x.
  - rewrite Hi', Hi. repeat case_decide; set_solver.
  - rewrite Hb', Hb. repeat case_decide; set_solver.
Qed.

(** Freeing the blocks an item owns. *)
Lemma wp_free_block (own : bool) p h (Q : unit -> heap -> Prop) :
  let B := if own then option_list p else [] in
  (forall b, b ∈ B -> is_Some (blocks h !! b)) ->
  (forall h', freed h [] B h' -> Q tt h') -> wp (when_ own (free_block p)) Q h.
Proof.
  intros B HB HQ. apply wp_when; intros Ho; subst own; cbn in B; [|apply HQ, freed_nil].
  unfold wp, free_block. destruct p as [b|]; [|apply HQ, freed_nil].
  destruct (HB b) as [s Hs]; [left|]. rewrite Hs. apply HQ. split; intros; cbn; try reflexivity.
  rewrite lookup_delete. repeat case_decide; try reflexivity; set_solver.
Qed.

Lemma wp_free_item r h (Q : unit -> heap -> Prop) :
  is_Some (items h !! r) -> (forall h', freed h [r] [] h' -> Q tt h') -> wp (free_item (Some r)) Q h.
Proof.
  intros [n Hn] HQ. unfold wp, free_item. rewrite Hn. apply HQ. split; intros; cbn; try reflexivity.
  rewrite lookup_delete. repeat case_decide; try reflexivity; set_solver.
Qed.

Lemma delete_forest h ts :
  forest h ts -> forall h0 fuel,
  (forall x, x ∈ flat_map addrs ts -> items h0 !! x = items h !! x) ->
  NoDup (flat_map addrs ts) -> NoDup (flat_map owned ts) ->
  (forall b, b ∈ flat_map owned ts -> is_Some (blocks h0 !! b)) ->
  (length (flat_map addrs ts) <= fuel)%nat ->
  wp (cJSON_Delete fuel (root <$> head ts)) (fun _ h' => freed h0 (flat_map addrs ts) (flat_map owned ts) h') h0.
Proof.
  induction 1 as [|r d kids ts n Hn Hd Hnext Hchild Hk IHk Hts IHts]; intros h0 fuel Hsame HA HB Hblocks Hfuel.
  - destruct fuel; apply wp_ret, freed_nil.
  - cbn [head fmap option_fmap option_map root flat_map addrs owned] in *.
    destruct fuel as [|fuel]; [cbn in Hfuel; lia|]. cbn [length app] in *. rewrite length_app in Hfuel.
    apply NoDup_cons in HA as [Hr HA]. apply NoDup_app in HA as (HAk & HAd & HAt).
    rewrite not_elem_of_app in Hr. destruct Hr as [Hrk Hrt].
    rewrite <- app_assoc in *. apply NoDup_app in HB as (HBo & HBd & HB). apply NoDup_app in HB as (HBk & HBkd & HBt).
    cbn [cJSON_Delete]. apply wp_bind. eapply wp_load; [rewrite Hsame by set_solver; exact Hn|]. rewrite Hd.
    apply wp_bind. apply (wp_mono _ (fun _ h1 => freed h0 (flat_map addrs kids) (flat_map owned kids) h1)).
    { destruct (is_reference (d_type d)) eqn:Eref; cbn [negb andb].
      - subst kids. apply wp_ret, freed_nil.
      - rewrite Hchild. apply wp_when; intros E.
        + apply IHk; [intros x Hx; apply Hsame; set_solver|assumption..| |lia]. intros b Hb. apply Hblocks. set_solver.
        + apply bool_decide_eq_false in E. destruct kids; [apply freed_nil|]. cbn in E. destruct E. discriminate. }
    intros [] h1 Hf1. unfold own_blocks in *. set (B1 := if negb (is_reference _) then _ else _) in *.
    set (B2 := if negb (is_const_key _) then _ else _) in *. apply NoDup_app in HBo as (HB1 & HB12 & HB2).
    apply wp_bind, wp_free_block.
    { fold B1. intros b Hb. rewrite (fr_blocks _ _ _ _ Hf1), decide_False by set_solver. apply Hblocks. set_solver. }
    fold B1. intros h2 Hf2. apply wp_bind, wp_free_block.
    { fold B2. intros b Hb. rewrite (fr_blocks _ _ _ _ Hf2), decide_False by set_solver.
      rewrite (fr_blocks _ _ _ _ Hf1), decide_False by set_solver. apply Hblocks. set_solver. }
    fold B2. intros h3 Hf3. pose proof (freed_app _ _ _ _ _ _ _ (freed_app _ _ _ _ _ _ _ Hf1 Hf2) Hf3) as Hf.
    rewrite !app_nil_r in Hf.
    apply wp_bind, wp_free_item.
    { rewrite (fr_items _ _ _ _ Hf), decide_False by exact Hrk. rewrite Hsame by set_solver. eauto. }
    intros h4 Hf4. pose proof (freed_app _ _ _ _ _ _ _ Hf Hf4) as Hf'. rewrite Hnext.
    eapply wp_mono; [apply IHts; [|exact HAt|exact HBt| |lia]|].
    + intros x Hx. rewrite (fr_items _ _ _ _ Hf'), decide_False by set_solver. apply Hsame. set_solver.
    + intros b Hb. rewrite (fr_blocks _ _ _ _ Hf'), decide_False by set_solver. apply Hblocks. set_solver.
    + intros [] h' Hf5. pose proof (freed_app _ _ _ _ _ _ _ Hf' Hf5) as [E1 E2 E3]. split; [| |exact E3]; intros x.
      * rewrite E1. apply decide_ext. set_solver.
      * rewrite E2. apply decide_ext. set_solver.
Qed.

(** ** Replacement *)

Lemma forest_frame h h' ts :
  forest h ts -> (forall x, x ∈ flat_map addrs ts -> items h' !! x = items h !! x) -> forest h' ts.
Proof.
  induction 1 as [|r d kids ts n Hn Hd Hnext Hchild Hk IHk Hts IHts]; intros Hsame; [constructor|].
  cbn [flat_map addrs app] in Hsame. econstructor; try eassumption.
  - rewrite Hsame by left. exact Hn.
  - apply IHk. intros x Hx. apply Hsame. right. apply elem_of_app. auto.
  - apply IHts. intros x Hx. apply Hsame. right. apply elem_of_app. auto.
Qed.

(** The item and what it owns, whatever its siblings. *)
Definition subtree (h : heap) (t : tree) : Prop :=
  match t with
  | Tree r d kids =>
      exists n, items h !! r = Some n /\ n_data n = d /\
        (if is_reference (d_type d) then kids = [] else n_child n = root <$> head kids) /\ forest h kids
  end.

Lemma subtree_alone h t : subtree h t -> (exists n, items h !! root t = Some n /\ n_next n = None) -> forest h [t].
Proof.
  destruct t as [r d kids]. intros (n & Hn & Hd & Hc & Hf) (n' & Hn' & Hnext). cbn in Hn'. simplify_eq.
  econstructor; try eassumption; [reflexivity|constructor].
Qed.

Lemma children_frame h h' a L :
  children h a L -> (forall x, x ∈ a :: L -> items h' !! x = items h !! x) -> children h' a L.
Proof.
  intros [(n & Hn & Hc) [Hnd Hlinks] Ha] Hsame. split; [|split; [exact Hnd|]|exact Ha].
  - exists n. split; [rewrite Hsame by left; exact Hn|exact Hc].
  - intros i x Hx. destruct (Hlinks i x Hx) as (m & Hm & Hm1). exists m. split; [|exact Hm1].
    rewrite Hsame; [exact Hm|right; eapply list_elem_of_lookup_2, Hx].
Qed.

(** The old item is an owner of its own and of nothing of the array's or the replacement's. *)
Record replaceable (h : heap) (a : addr) (L : list addr) (i : nat) (t : tree) (x : addr) : Prop := {
  rp_children : children h a L;
  rp_index : L !! i = Some (root t);
  rp_loose : loose h a L x;
  rp_tree : subtree h t;
  rp_addrs : NoDup (addrs t);
  rp_apart : forall u, u ∈ addrs t -> u <> root t -> u ∉ a :: L ++ [x];
  rp_blocks : NoDup (owned t);
  rp_allocated : forall b, b ∈ owned t -> is_Some (blocks h !! b)
}.

(** After the links are taken, the old tree stands alone. *)
Lemma taken_alone h a L i t x h1 :
  replaceable h a L i t x -> replaced h a L i x (root t) h1 -> forest h1 [t].
Proof.
  intros H (Hch & Hy & Hc & Hun). apply subtree_alone; [|exact Hy].
  pose proof (rp_tree _ _ _ _ _ _ H) as Ht. pose proof (rp_apart _ _ _ _ _ _ H) as Hap.
  pose proof (rp_children _ _ _ _ _ _ H) as Hch0. pose proof (rp_index _ _ _ _ _ _ H) as Hi.
  pose proof (rp_addrs _ _ _ _ _ _ H) as Hnd.
  destruct t as [r d kids]. destruct Ht as (n & Hn & Hd & Hk & Hf). cbn [root addrs] in *.
  destruct (Hc r n Hn) as (n1 & Hn1 & Hd1 & Hc1).
  assert (r <> a) as Hra by (intros ->; apply (ch_outside _ _ _ Hch0); eapply list_elem_of_lookup_2, Hi).
  exists n1. split; [exact Hn1|]. split; [congruence|]. rewrite Hc1 by exact Hra. split; [exact Hk|].
  apply (forest_frame h); [exact Hf|]. intros u Hu. apply NoDup_cons in Hnd as [Hr _].
  apply (proj2 Hun), Hap; [right; exact Hu|]. intros ->. contradiction.
Qed.

Lemma replace_correct fuel h a L i t x :
  replaceable h a L i t x -> (length (addrs t) <= fuel)%nat ->
  wp (cJSON_ReplaceItemInArray fuel (Some a) (Z.of_nat i) (Some x))
     (fun r h' => r = true /\ children h' a (<[i := x]> L) /\
        (forall u, u ∈ addrs t -> items h' !! u = None) /\ (forall b, b ∈ owned t -> blocks h' !! b = None) /\
        (forall u n, u ∉ addrs t -> items h !! u = Some n ->
           exists n', items h' !! u = Some n' /\ n_data n' = n_data n /\ (u <> a -> n_child n' = n_child n)) /\
        (forall b, b ∉ owned t -> blocks h' !! b = blocks h !! b)) h.
Proof.
  intros H Hfuel. pose proof (rp_children _ _ _ _ _ _ H) as Hch. pose proof (rp_index _ _ _ _ _ _ H) as Hi.
  pose proof (rp_loose _ _ _ _ _ _ H) as Hlo. pose proof (loose_child _ _ _ _ _ _ Hlo Hi) as Hyx.
  unfold cJSON_ReplaceItemInArray. destruct (Z.ltb_spec (Z.of_nat i) 0); [lia|]. rewrite Nat2Z.id.
  apply wp_bind, (wp_array_item h a L Hch). rewrite Hi. unfold cJSON_ReplaceItemViaPointer.
  rewrite !bool_decide_eq_false_2 by congruence. cbn [orb].
  assert (wp (take_links (Some a) (Some (root t)) (Some x)) (fun _ => replaced h a L i x (root t)) h) as Hwp.
  { destruct i; [apply replace_first|apply replace_later]; assumption. }
  apply wp_bind. eapply wp_mono; [exact Hwp|]. intros [] h1 Hrep.
  pose proof (taken_alone _ _ _ _ _ _ _ H Hrep) as Hf1. destruct Hrep as (Hch1 & _ & Hc1 & Hb1 & _).
  assert (flat_map addrs [t] = addrs t) as EA by (cbn; apply app_nil_r).
  assert (flat_map owned [t] = owned t) as EB by (cbn; apply app_nil_r).
  apply wp_bind. eapply wp_mono; [apply (delete_forest h1 [t] Hf1 h1 fuel)|]; rewrite ?EA, ?EB.
  - reflexivity.
  - apply (rp_addrs _ _ _ _ _ _ H).
  - apply (rp_blocks _ _ _ _ _ _ H).
  - rewrite Hb1. apply (rp_allocated _ _ _ _ _ _ H).
  - exact Hfuel.
  - intros [] h' [Ei Eb _]. apply wp_ret. split; [reflexivity|].
    assert (forall u, u ∈ a :: <[i := x]> L -> u ∉ addrs t) as Hkeep.
    { intros u Hu Ht. assert (u <> root t) as Hur.
      { intros ->. apply elem_of_cons in Hu as [E|Hu].
        - apply (ch_outside _ _ _ Hch). rewrite <- E. eapply list_elem_of_lookup_2, Hi.
        - apply list_elem_of_lookup in Hu as (k & Hk). apply list_lookup_insert_Some in Hk as [(_ & E & _)|[Hne Hk]];
            [congruence|]. apply Hne. eapply (ring_index h a L Hch); eassumption. }
      apply (rp_apart _ _ _ _ _ _ H u Ht Hur). apply elem_of_cons in Hu as [->|Hu]; [left|right].
      apply elem_of_app. apply list_elem_of_lookup in Hu as (k & Hk).
      apply list_lookup_insert_Some in Hk as [(_ & -> & _)|[_ Hk]]; [right; left|left; eapply list_elem_of_lookup_2, Hk]. }
    split; [|split; [|split; [|split]]].
    + apply (children_frame h1); [exact Hch1|]. intros u Hu. rewrite Ei, decide_False by (apply Hkeep, Hu). reflexivity.
    + intros u Hu. rewrite Ei, decide_True by exact Hu. reflexivity.
    + intros b Hb. rewrite Eb, decide_True by exact Hb. reflexivity.
    + intros u n Hu Hn. rewrite Ei, decide_False by exact Hu. apply Hc1, Hn.
    + intros b Hb. rewrite Eb, decide_False by exact Hb. congruence.
Qed.

(** ** Theorem *)

(** C30: [cJSON_Delete] of a list of items frees every item of their trees and every string they
    own exactly once, and nothing else: children of references and constant keys stay. *)
Theorem delete_frees_owned h ts fuel
    (Hforest : forest h ts) (Haddrs : NoDup (flat_map addrs ts)) (Howned : NoDup (flat_map owned ts))
    (Hblocks : forall b, b ∈ flat_map owned ts -> is_Some (blocks h !! b))
    (Hfuel : (length (flat_map addrs ts) <= fuel)%nat) :
  exists h', cJSON_Delete fuel (root <$> head ts) h = Done (tt, h') /\
    freed h (flat_map addrs ts) (flat_map owned ts) h'.
Proof.
  assert (wp (cJSON_Delete fuel (root <$> head ts)) (fun _ => freed h (flat_map addrs ts) (flat_map owned ts)) h) as Hwp
    by (apply (delete_forest h); auto).
  destruct (proj1 (wp_Done _ _ _) Hwp) as ([] & h' & Hrun & Hf). eauto.
Qed.

(** An object with a string under a name of its own, and a reference under a constant key. *)
Definition owner : data :=
  {| d_type := cJSON_Object; d_valuestring := None; d_valueint := 0; d_valuedouble := S754_zero false; d_string := None |}.
Definition named : data :=
  {| d_type := cJSON_String; d_valuestring := Some 11%positive; d_valueint := 0; d_valuedouble := S754_zero false;
     d_string := Some 12%positive |}.
Definition shared : data :=
  {| d_type := Z.lor (Z.lor cJSON_String cJSON_IsReference) cJSON_StringIsConst; d_valuestring := Some 13%positive;
     d_valueint := 0; d_valuedouble := S754_zero false; d_string := Some 14%positive |}.

Definition small_heap : heap :=
  {| items := list_to_map
       [(1%positive, {| n_next := None; n_prev := None; n_child := Some 2%positive; n_data := owner |});
        (2%positive, {| n_next := Some 3%positive; n_prev := Some 3%positive; n_child := None; n_data := named |});
        (3%positive, {| n_next := None; n_prev := Some 2%positive; n_child := None; n_data := shared |})];
     blocks := list_to_map
       [(11%positive, text "value"); (12%positive, text "name"); (13%positive, text "other"); (14%positive, text "key")];
     h_allocs := 0 |}.

Definition small_tree : tree := Tree 1 owner [Tree 2 named []; Tree 3 shared []].

Lemma delete_frees_owned_witness :
  exists h', cJSON_Delete 3 (Some 1%positive) small_heap = Done (tt, h') /\
    freed small_heap [1; 2; 3]%positive [11; 12]%positive h'.
Proof.
  apply (delete_frees_owned small_heap [small_tree] 3).
  - repeat (econstructor; [reflexivity..| |]); constructor.
  - vm_compute. apply (bool_decide_unpack _). vm_compute. exact I.
  - vm_compute. apply (bool_decide_unpack _). vm_compute. exact I.
  - intros b Hb. cbn in Hb. repeat (apply elem_of_cons in Hb as [->|Hb]; [eexists; reflexivity|]). inversion Hb.
  - reflexivity.
Defined.

End JsonTree.
