(* ===== verification/JsonBuild.v ===== *)
(** * Constructors and copies of items

    The functions that create items, add them to objects, find, detach and replace them by
    name, and copy them. *)

From Stdlib Require Import ZArith Lia SpecFloat Ascii.
From stdpp Require Import base numbers list strings gmap fin_sets.
From S2P Require Import Prelude DoubleArith Json JsonPrint JsonItem JsonHeap.
Open Scope Z_scope.

Module JsonBuild.
Export JsonHeap.

Local Open Scope m_scope.

Section Build.
Context (can_alloc : nat -> nat -> bool).

(** ** Constructors *)

(** A new item, if there is memory for it, with its fields set by [f]. *)
Definition create (f : data -> data) : M heap ptr :=
  let* item := New_Item can_alloc in
  match item with
  | None => ret None
  | Some _ => store item (set_data f) ;;; ret item
  end.

Definition cJSON_CreateNull : M heap ptr := create (with_type cJSON_NULL).
Definition cJSON_CreateTrue : M heap ptr := create (with_type cJSON_True).
Definition cJSON_CreateFalse : M heap ptr := create (with_type cJSON_False).
Definition cJSON_CreateBool (boolean : bool) : M heap ptr :=
  create (with_type (if boolean then cJSON_True else cJSON_False)).
Definition cJSON_CreateNumber (num : spec_float) : M heap ptr :=
  create (fun d => with_number (saturate num) num (with_type cJSON_Number d)).
Definition cJSON_CreateArray : M heap ptr := create (with_type cJSON_Array).
Definition cJSON_CreateObject : M heap ptr := create (with_type cJSON_Object).

(** [cJSON_CreateString] and [cJSON_CreateRaw]: the item is deleted when its string cannot be
    copied. *)
Definition create_text (ty : Z) (string : ptr) : M heap ptr :=
  let* item := New_Item can_alloc in
  match item with
  | None => ret None
  | Some _ =>
      store item (set_data (with_type ty)) ;;;
      let* s := cJSON_strdup can_alloc string in
      store item (set_data (with_valuestring s)) ;;;
      match s with
      | None => cJSON_Delete 1 item ;;; ret None
      | Some _ => ret item
      end
  end.

Definition cJSON_CreateString (string : ptr) : M heap ptr := create_text cJSON_String string.
Definition cJSON_CreateRaw (raw : ptr) : M heap ptr := create_text cJSON_Raw raw.

Definition cJSON_CreateStringReference (string : ptr) : M heap ptr :=
  create (fun d => with_valuestring string (with_type (Z.lor cJSON_String cJSON_IsReference) d)).

(** An object or array whose children belong to another item. *)
Definition create_child_reference (ty : Z) (child : ptr) : M heap ptr :=
  let* item := create (with_type (Z.lor ty cJSON_IsReference)) in
  match item with
  | None => ret None
  | Some _ => store item (set_child_ptr child) ;;; ret item
  end.

Definition cJSON_CreateObjectReference (child : ptr) : M heap ptr := create_child_reference cJSON_Object child.
Definition cJSON_CreateArrayReference (child : ptr) : M heap ptr := create_child_reference cJSON_Array child.

(** ** New members *)

(** The item is deleted when it cannot be added; it has no children. *)
Definition add_new (make : M heap ptr) (object name : ptr) : M heap ptr :=
  let* item := make in
  let* ok := add_item_to_object can_alloc object name item false in
  if ok : bool then ret item else cJSON_Delete 1 item ;;; ret None.

Definition cJSON_AddNullToObject (object name : ptr) : M heap ptr := add_new cJSON_CreateNull object name.
Definition cJSON_AddTrueToObject (object name : ptr) : M heap ptr := add_new cJSON_CreateTrue object name.
Definition cJSON_AddFalseToObject (object name : ptr) : M heap ptr := add_new cJSON_CreateFalse object name.
Definition cJSON_AddBoolToObject (object name : ptr) (boolean : bool) : M heap ptr :=
  add_new (cJSON_CreateBool boolean) object name.
Definition cJSON_AddNumberToObject (object name : ptr) (number : spec_float) : M heap ptr :=
  add_new (cJSON_CreateNumber number) object name.
Definition cJSON_AddStringToObject (object name string : ptr) : M heap ptr :=
  add_new (cJSON_CreateString string) object name.
Definition cJSON_AddRawToObject (object name raw : ptr) : M heap ptr := add_new (cJSON_CreateRaw raw) object name.
Definition cJSON_AddObjectToObject (object name : ptr) : M heap ptr := add_new cJSON_CreateObject object name.
Definition cJSON_AddArrayToObject (object name : ptr) : M heap ptr := add_new cJSON_CreateArray object name.

(** ** Arrays of numbers and strings *)

(** The loop of the four functions: [p] is the last item added, and the array is deleted when
    the next one cannot be created. *)
Fixpoint fill_array (fuel : nat) (a p : ptr) (makes : list (M heap ptr)) : M heap ptr :=
  match makes with
  | [] =>
      let* n := load a in
      when_ (bool_decide (n_child n <> None)) (store (n_child n) (set_prev p)) ;;; ret a
  | make :: makes' =>
      let* n := make in
      match n with
      | None => cJSON_Delete fuel a ;;; ret None
      | Some _ =>
          (if bool_decide (p = None) then store a (set_child_ptr n) else suffix_object p n) ;;;
          fill_array fuel a n makes'
      end
  end.

Definition create_array_of (makes : list (M heap ptr)) : M heap ptr :=
  let* a := cJSON_CreateArray in
  match a with
  | None => ret None
  | Some _ => fill_array (S (length makes)) a None makes
  end.

(** The first [count] numbers behind the pointer; reading further is out of bounds. *)
Definition array_makes {A} (make : A -> M heap ptr) (l : list A) (count : nat) : list (M heap ptr) :=
  map (fun i => match l !! i with Some x => make x | None => raise OutOfBounds end) (seq 0 count).

Definition create_array {A} (make : A -> M heap ptr) (numbers : option (list A)) (count : Z) : M heap ptr :=
  match numbers with
  | None => ret None
  | Some l => if count <? 0 then ret None else create_array_of (array_makes make l (Z.to_nat count))
  end.

Definition cJSON_CreateIntArray (numbers : option (list Z)) (count : Z) : M heap ptr :=
  create_array (fun n => cJSON_CreateNumber (Double.of_Z n)) numbers count.
(** A [float] is a double already. *)
Definition cJSON_CreateFloatArray (numbers : option (list spec_float)) (count : Z) : M heap ptr :=
  create_array cJSON_CreateNumber numbers count.
Definition cJSON_CreateDoubleArray (numbers : option (list spec_float)) (count : Z) : M heap ptr :=
  create_array cJSON_CreateNumber numbers count.
Definition cJSON_CreateStringArray (strings : option (list ptr)) (count : Z) : M heap ptr :=
  create_array cJSON_CreateString strings count.

(** ** Values *)

Definition cJSON_SetNumberHelper (object : ptr) (number : spec_float) : M heap spec_float :=
  store object (set_data (with_number (saturate number) number)) ;;; ret number.

(** [strcpy] into the old block when the new string is not longer, which leaves the rest of the
    block as it was. *)
Definition cJSON_SetValuestring (object valuestring : ptr) : M heap ptr :=
  let* n := load object in
  let d := n_data n in
  if (Z.land (d_type d) cJSON_String =? 0) || is_reference (d_type d) then ret None else
  let* new := read_block valuestring in
  let* old := read_block (d_valuestring d) in
  if (length (c_str new) <=? length (c_str old))%nat then
    match d_valuestring d with
    | Some b => modify (fun h => set_blocks (<[b := c_str new ++ 0 :: drop (S (length (c_str new))) old]> (blocks h)) h) ;;;
                ret (Some b)
    | None => ret None
    end
  else
    let* copy := cJSON_strdup can_alloc valuestring in
    match copy with
    | None => ret None
    | Some _ =>
        free_block (d_valuestring d) ;;;
        store object (set_data (with_valuestring copy)) ;;; ret copy
    end.

(** ** Access by name *)

(** The loops of [get_object_item] over the links; [fuel] bounds the children. *)
Fixpoint find_child (fuel : nat) (name : ptr) (case_sensitive : bool) (child : ptr) : M heap ptr :=
  match child, fuel with
  | None, _ => ret None
  | Some _, O => raise OutOfFuel
  | Some _, S fuel' =>
      let* n := load child in
      match d_string (n_data n) with
      | None => if case_sensitive then ret None else find_child fuel' name case_sensitive (n_next n)
      | Some _ =>
          let* s := read_block (d_string (n_data n)) in
          let* t := read_block name in
          let differ := if case_sensitive then strcmp t s else case_insensitive_strcmp (Some t) (Some s) in
          if differ =? 0 then ret child else find_child fuel' name case_sensitive (n_next n)
      end
  end.

Definition object_item (fuel : nat) (object name : ptr) (case_sensitive : bool) : M heap ptr :=
  if bool_decide (object = None) || bool_decide (name = None) then ret None else
  let* o := load object in find_child fuel name case_sensitive (n_child o).

Definition detach_by_name (fuel : nat) (case_sensitive : bool) (object string : ptr) : M heap ptr :=
  let* to_detach := object_item fuel object string case_sensitive in
  cJSON_DetachItemViaPointer object to_detach.

Definition cJSON_DetachItemFromObject (fuel : nat) (object string : ptr) : M heap ptr :=
  detach_by_name fuel false object string.
Definition cJSON_DetachItemFromObjectCaseSensitive (fuel : nat) (object string : ptr) : M heap ptr :=
  detach_by_name fuel true object string.
Definition cJSON_DeleteItemFromObject (fuel : nat) (object string : ptr) : M heap unit :=
  let* item := cJSON_DetachItemFromObject fuel object string in cJSON_Delete fuel item.
Definition cJSON_DeleteItemFromObjectCaseSensitive (fuel : nat) (object string : ptr) : M heap unit :=
  let* item := cJSON_DetachItemFromObjectCaseSensitive fuel object string in cJSON_Delete fuel item.

(** The copy of the name is stored even if it is a null pointer. *)
Definition replace_item_in_object (fuel : nat) (object string replacement : ptr) (case_sensitive : bool) : M heap bool :=
  if bool_decide (replacement = None) || bool_decide (string = None) then ret false else
  let* r := load replacement in
  let t := d_type (n_data r) in
  when_ (negb (is_const_key t)) (free_block (d_string (n_data r))) ;;;
  let* key := cJSON_strdup can_alloc string in
  store replacement (set_data (with_string key)) ;;;
  store replacement (set_data (fun d => with_type (Z.land (d_type d) (Z.lnot cJSON_StringIsConst)) d)) ;;;
  let* item := object_item fuel object string case_sensitive in
  cJSON_ReplaceItemViaPointer fuel object item replacement.

Definition cJSON_ReplaceItemInObject (fuel : nat) (object string newitem : ptr) : M heap bool :=
  replace_item_in_object fuel object string newitem false.
Definition cJSON_ReplaceItemInObjectCaseSensitive (fuel : nat) (object string newitem : ptr) : M heap bool :=
  replace_item_in_object fuel object string newitem true.

(** ** Copies *)

(** [goto fail] with an item allocated. *)
Definition fail_copy (fuel : nat) (newitem : ptr) : M heap ptr := cJSON_Delete fuel newitem ;;; ret None.

(** A copy of a string that is there. *)
Definition copy_string (const : bool) (s : ptr) (newitem : ptr) (set : ptr -> data -> data) : M heap bool :=
  match s with
  | None => ret true
  | Some _ =>
      let* c := (if const then ret s else cJSON_strdup can_alloc s) in
      store newitem (set_data (set c)) ;;;
      ret (bool_decide (c <> None))
  end.

Section Children.
Context (fuel : nat) (dup : ptr -> M heap ptr) (newitem : ptr).

(** The walk over the children with the last copy, [last]; [n] bounds them. *)
Fixpoint copy_children (n : nat) (child last : ptr) : M heap ptr :=
  match child, n with
  | None, _ =>
      let* x := load newitem in
      when_ (bool_decide (n_child x <> None)) (store (n_child x) (set_prev last)) ;;; ret newitem
  | Some _, O => raise OutOfFuel
  | Some _, S n' =>
      let* newchild := dup child in
      match newchild with
      | None => fail_copy fuel newitem
      | Some _ =>
          (if bool_decide (last <> None) then
             store last (set_next newchild) ;;; store newchild (set_prev last)
           else store newitem (set_child_ptr newchild)) ;;;
          let* c := load child in
          copy_children n' (n_next c) newchild
      end
  end.

End Children.

(** [fuel] bounds the items of the tree. *)
Fixpoint cJSON_Duplicate (fuel : nat) (recurse : bool) (item : ptr) : M heap ptr :=
  match item, fuel with
  | None, _ => ret None
  | Some _, O => raise OutOfFuel
  | Some _, S fuel' =>
      let* newitem := New_Item can_alloc in
      match newitem with
      | None => ret None
      | Some _ =>
          let* n := load item in
          let d := n_data n in
          store newitem (set_data (fun e => with_number (d_valueint d) (d_valuedouble d)
            (with_type (Z.land (d_type d) (Z.lnot cJSON_IsReference)) e))) ;;;
          let* ok := copy_string false (d_valuestring d) newitem with_valuestring in
          if negb ok then fail_copy (S fuel') newitem else
          let* ok := copy_string (is_const_key (d_type d)) (d_string d) newitem with_string in
          if negb ok then fail_copy (S fuel') newitem else
          if recurse then copy_children (S fuel') (cJSON_Duplicate fuel' true) newitem fuel' (n_child n) None
          else ret newitem
      end
  end.

End Build.
End JsonBuild.
