(* ===== verification/JsonCopy.v ===== *)
(** * Copies of items

    [cJSON_Duplicate] with [recurse]: the copy is a tree of new items with new strings that
    reads like the original, properly linked; and when memory runs out half way, everything
    allocated so far is freed. *)

From Stdlib Require Import ZArith Lia SpecFloat Ascii.
From stdpp Require Import base numbers list strings gmap fin_sets.
From S2P Require Import Prelude DoubleArith Json JsonPrint JsonItem JsonHeap JsonHeapSpec JsonTree JsonBuild.
Open Scope Z_scope.

Module JsonCopy.
Export JsonTree JsonBuild.

Section Induction.
Context (P : tree -> Prop).
Hypothesis H : forall r d kids, Forall P kids -> P (Tree r d kids).

Fixpoint tree_nested_ind (t : tree) : P t :=
  match t with
  | Tree r d kids => H r d kids
      ((fix go (l : list tree) : Forall P l :=
          match l with
          | [] => Forall_nil_2 P
          | x :: l' => Forall_cons_2 P x l' (tree_nested_ind x) (go l')
          end) kids)
  end.

End Induction.

(** ** Standing trees *)

(** Children linked as [ring], but for the [prev] of the first. *)
Record chain (h : heap) (L : list addr) : Prop := {
  cn_nodup : NoDup L;
  cn_links : forall i x, L !! i = Some x ->
    exists n, items h !! x = Some n /\ n_next n = L !! S i /\ (i <> 0%nat -> n_prev n = before L i)
}.

Lemma ring_chain h L : ring h L -> chain h L.
Proof.
  intros [Hn Hl]. split; [exact Hn|]. intros i x Hx. destruct (Hl i x Hx) as (n & H1 & H2 & H3).
  exists n. auto.
Qed.

(** An item without references, its children properly linked, down the tree. *)
Fixpoint stands (h : heap) (t : tree) : Prop :=
  match t with
  | Tree r d kids =>
      (exists n, items h !! r = Some n /\ n_data n = d /\ n_child n = root <$> head kids) /\
      is_reference (d_type d) = false /\ ring h (map root kids) /\
      (fix all (l : list tree) : Prop := match l with [] => True | x :: l' => stands h x /\ all l' end) kids
  end.

Lemma stands_kids h r d kids :
  stands h (Tree r d kids) <->
  (exists n, items h !! r = Some n /\ n_data n = d /\ n_child n = root <$> head kids) /\
  is_reference (d_type d) = false /\ ring h (map root kids) /\ Forall (stands h) kids.
Proof.
  cbn [stands]. do 3 apply and_iff_compat_l. induction kids as [|x kids IH].
  - split; [constructor|auto].
  - rewrite Forall_cons, <- IH. reflexivity.
Qed.

Lemma chain_tail h x L : chain h (x :: L) -> chain h L.
Proof.
  intros [Hn Hl]. apply NoDup_cons in Hn as [_ Hn]. split; [exact Hn|].
  intros i y Hy. destruct (Hl (S i) y Hy) as (n & H1 & H2 & H3). exists n. split; [exact H1|]. split; [exact H2|].
  intros Hi. rewrite H3 by discriminate. destruct i; [contradiction|]. reflexivity.
Qed.

Lemma forest_from h ts : chain h (map root ts) -> Forall (subtree h) ts -> forest h ts.
Proof.
  intros Hc Hs. induction Hs as [|[r d kids] ts (n & Hn & Hd & Hk & Hf) Hs IH]; [constructor|].
  destruct (cn_links _ _ Hc 0 r eq_refl) as (n' & Hn' & Hnext & _). simplify_eq.
  econstructor; [exact Hn|reflexivity| |exact Hk|exact Hf|].
  - rewrite Hnext. destruct ts; reflexivity.
  - apply IH. eapply chain_tail, Hc.
Qed.

Lemma stands_subtree h t : stands h t -> subtree h t.
Proof.
  induction t as [r d kids IH] using tree_nested_ind. rewrite stands_kids.
  intros ((n & Hn & Hd & Hk) & Href & Hring & Hks). exists n. rewrite Href. split; [exact Hn|].
  split; [exact Hd|]. split; [exact Hk|]. apply forest_from; [apply ring_chain, Hring|].
  rewrite Forall_forall in *. auto.
Qed.

Lemma forest_of h ts : chain h (map root ts) -> Forall (stands h) ts -> forest h ts.
Proof. intros Hc Hs. apply forest_from; [exact Hc|]. eapply Forall_impl; [exact Hs|apply stands_subtree]. Qed.

(** A tree stands as long as its nodes are the same, but for the links of its root. *)
Lemma stands_frame h h' t :
  stands h t -> NoDup (addrs t) ->
  (forall x, x ∈ addrs t -> x <> root t -> items h' !! x = items h !! x) ->
  (forall n, items h !! root t = Some n ->
     exists n', items h' !! root t = Some n' /\ n_data n' = n_data n /\ n_child n' = n_child n) ->
  stands h' t.
Proof.
  revert h h'. induction t as [r d kids IH] using tree_nested_ind. intros h h'. rewrite !stands_kids. cbn [addrs root].
  intros ((n & Hn & Hd & Hk) & Href & [Hnd Hl] & Hks) Hdup Hsame Hroot. apply NoDup_cons in Hdup as [Hr Hdup].
  assert (forall x, x ∈ flat_map addrs kids -> items h' !! x = items h !! x) as Hsame'.
  { intros x Hx. apply Hsame; [right; exact Hx|]. intros ->. contradiction. }
  assert (forall k, k ∈ kids -> forall x, x ∈ addrs k -> x ∈ flat_map addrs kids) as Hin.
  { intros k Hk' x Hx. apply list_elem_of_In, in_flat_map. exists k. split; apply list_elem_of_In; assumption. }
  assert (forall k, root k ∈ addrs k) as Hra by (intros [? ? ?]; left).
  split; [|split; [exact Href|split]].
  - destruct (Hroot n Hn) as (n' & Hn' & Ed & Ec). exists n'. split; [exact Hn'|]. split; congruence.
  - split; [exact Hnd|]. intros i x Hx. destruct (Hl i x Hx) as (m & Hm & Hm').
    exists m. split; [|exact Hm']. rewrite <- Hm. apply Hsame'.
    apply list_elem_of_lookup_2, list_elem_of_In, in_map_iff in Hx as (k & <- & Hkin).
    eapply Hin; [apply list_elem_of_In, Hkin|apply Hra].
  - assert (Forall (fun k => NoDup (addrs k)) kids) as Hdk.
    { clear -Hdup. induction kids as [|k kids IHk]; [constructor|]. cbn in Hdup. apply NoDup_app in Hdup as (Hk & _ & Hrest).
      constructor; auto. }
    rewrite Forall_forall in *. intros k Hkin. apply (IH k Hkin h h').
    + apply Hks, Hkin.
    + apply Hdk, Hkin.
    + intros x Hx _. apply Hsame'. eapply Hin; eassumption.
    + intros m Hm. exists m. split; [|auto]. rewrite Hsame'; [exact Hm|]. eapply Hin; [exact Hkin|apply Hra].
Qed.

Lemma root_addrs t : root t ∈ addrs t.
Proof. destruct t. left. Qed.

Lemma elem_flat_map ks k x : k ∈ ks -> x ∈ addrs k -> x ∈ flat_map addrs ks.
Proof. intros Hk Hx. apply list_elem_of_In, in_flat_map. exists k. split; apply list_elem_of_In; assumption. Qed.

Lemma kid_nodup ks k : NoDup (flat_map addrs ks) -> k ∈ ks -> NoDup (addrs k).
Proof.
  induction ks as [|k' ks IH]; intros Hn Hk; [inversion Hk|]. cbn in Hn. apply NoDup_app in Hn as (Hk' & _ & Hks).
  apply elem_of_cons in Hk as [->|Hk]; auto.
Qed.

(** The root of a tree is below no other one. *)
Lemma root_apart ks k k' : NoDup (flat_map addrs ks) -> k ∈ ks -> k' ∈ ks -> root k' ∈ addrs k -> root k' = root k.
Proof.
  induction ks as [|k0 ks IH]; intros Hn Hk Hk' Hr; [inversion Hk|]. cbn in Hn. apply NoDup_app in Hn as (_ & Hd & Hks).
  apply elem_of_cons in Hk as [->|Hk], Hk' as [->|Hk']; auto.
  - exfalso. eapply Hd; [exact Hr|]. eapply elem_flat_map; [exact Hk'|apply root_addrs].
  - exfalso. eapply Hd; [apply root_addrs|]. eapply elem_flat_map; eassumption.
Qed.

(** Changing the links of roots keeps the trees. *)
Lemma stands_relink h h' ks :
  NoDup (flat_map addrs ks) -> Forall (stands h) ks ->
  (forall x, x ∈ flat_map addrs ks -> items h' !! x = items h !! x \/
     (x ∈ map root ks /\ forall n, items h !! x = Some n ->
        exists n', items h' !! x = Some n' /\ n_data n' = n_data n /\ n_child n' = n_child n)) ->
  Forall (stands h') ks.
Proof.
  intros Hn Hs Hx. rewrite Forall_forall in *. intros k Hk. apply (stands_frame h).
  - apply Hs, Hk.
  - eapply kid_nodup; eassumption.
  - intros x Hxk Hne. destruct (Hx x) as [E|[Hr _]]; [eapply elem_flat_map; eassumption|exact E|].
    exfalso. apply Hne. apply list_elem_of_In, in_map_iff in Hr as (k' & <- & Hk'%list_elem_of_In).
    eapply root_apart; eassumption.
  - intros n Hr. destruct (Hx (root k)) as [E|[_ H]]; [eapply elem_flat_map; [exact Hk|apply root_addrs]| |apply H, Hr].
    exists n. rewrite E. auto.
Qed.

Lemma stands_allocated h t x : stands h t -> x ∈ addrs t -> is_Some (items h !! x).
Proof.
  induction t as [r d kids IH] using tree_nested_ind. rewrite stands_kids. intros ((n & Hn & _) & _ & _ & Hks) Hx.
  cbn in Hx. apply elem_of_cons in Hx as [->|Hx]; [eauto|].
  apply list_elem_of_In, in_flat_map in Hx as (k & Hk%list_elem_of_In & Hx%list_elem_of_In).
  rewrite Forall_forall in *. eauto.
Qed.

(** ** Readings *)

(** The string behind a pointer. *)
Definition text_at (h : heap) (p : ptr) : option bytes := p ≫= fun b => c_str <$> blocks h !! b.

(** The value an item stands for. *)
Fixpoint reading (h : heap) (t : tree) : cJSON :=
  match t with
  | Tree _ d kids =>
      mk_cJSON (d_type d) (text_at h (d_valuestring d)) (d_valueint d) (d_valuedouble d)
        (text_at h (d_string d)) (map (reading h) kids)
  end.

(** The strings an item points to are allocated. *)
Definition texts_there (h : heap) (d : data) : Prop :=
  (forall b, d_valuestring d = Some b -> is_Some (blocks h !! b)) /\
  (forall b, d_string d = Some b -> is_Some (blocks h !! b)).

Fixpoint readable (h : heap) (t : tree) : Prop :=
  match t with
  | Tree _ d kids =>
      texts_there h d /\
      (fix all (l : list tree) : Prop := match l with [] => True | x :: l' => readable h x /\ all l' end) kids
  end.

Lemma readable_kids h r d kids : readable h (Tree r d kids) <-> texts_there h d /\ Forall (readable h) kids.
Proof.
  cbn [readable]. apply and_iff_compat_l. induction kids as [|x kids IH].
  - split; [constructor|auto].
  - rewrite Forall_cons, <- IH. reflexivity.
Qed.

(** [h'] is [h] with the new items [A] and the new blocks [B]. *)
Record grown (h : heap) (A B : list addr) (h' : heap) : Prop := {
  gr_items : forall x, items h !! x = if decide (x ∈ A) then None else items h' !! x;
  gr_blocks : forall x, blocks h !! x = if decide (x ∈ B) then None else blocks h' !! x
}.

Lemma grown_nil h : grown h [] [] h.
Proof. split; intros; rewrite decide_False by apply not_elem_of_nil; reflexivity. Qed.

Lemma grown_app h A B h1 A' B' h2 : grown h A B h1 -> grown h1 A' B' h2 -> grown h (A ++ A') (B ++ B') h2.
Proof.
  intros [Hi Hb] [Hi' Hb']. split; intros x.
  - rewrite Hi, Hi'. repeat case_decide; try reflexivity; rewrite ?elem_of_app in *; tauto.
  - rewrite Hb, Hb'. repeat case_decide; try reflexivity; rewrite ?elem_of_app in *; tauto.
Qed.

(** What was there stays there. *)
Lemma grown_item h A B h' x n : grown h A B h' -> items h !! x = Some n -> items h' !! x = Some n /\ x ∉ A.
Proof. intros [Hi _] Hx. rewrite Hi in Hx. destruct (decide (x ∈ A)); [discriminate|auto]. Qed.

Lemma grown_block h A B h' x s : grown h A B h' -> blocks h !! x = Some s -> blocks h' !! x = Some s /\ x ∉ B.
Proof. intros [_ Hb] Hx. rewrite Hb in Hx. destruct (decide (x ∈ B)); [discriminate|auto]. Qed.

(** Everything is where it was. *)
Definition extends (h h' : heap) : Prop :=
  (forall x n, items h !! x = Some n -> items h' !! x = Some n) /\
  (forall x s, blocks h !! x = Some s -> blocks h' !! x = Some s).

Lemma extends_refl h : extends h h.
Proof. split; auto. Qed.

Lemma extends_trans h h1 h2 : extends h h1 -> extends h1 h2 -> extends h h2.
Proof. intros [H1 H2] [H3 H4]. split; auto. Qed.

Lemma grown_extends h A B h' : grown h A B h' -> extends h h'.
Proof. intros Hg. split; intros x y Hx; [eapply grown_item in Hx as [? _]|eapply grown_block in Hx as [? _]]; eassumption. Qed.

Lemma chain_extends h h' L : chain h L -> extends h h' -> chain h' L.
Proof.
  intros [Hn Hl] [He _]. split; [exact Hn|]. intros i x Hx. destruct (Hl i x Hx) as (n & H1 & H2).
  exists n. split; [apply He, H1|exact H2].
Qed.

Lemma stands_extends h h' t : extends h h' -> stands h t -> stands h' t.
Proof.
  intros He. induction t as [r d kids IH] using tree_nested_ind. rewrite !stands_kids.
  intros ((n & Hn & Hd & Hk) & Href & [Hnd Hl] & Hks). pose proof (proj1 He) as Hi.
  split; [exists n; auto|]. split; [exact Href|]. split.
  - split; [exact Hnd|]. intros i x Hx. destruct (Hl i x Hx) as (m & Hm & Hm'). exists m. auto.
  - rewrite Forall_forall in *. auto.
Qed.

Lemma text_extends h h' p : extends h h' -> (forall b, p = Some b -> is_Some (blocks h !! b)) -> text_at h' p = text_at h p.
Proof.
  intros [_ He] Hp. destruct p as [b|]; [|reflexivity]. destruct (Hp b eq_refl) as [s Hs].
  cbn. rewrite (He _ _ Hs), Hs. reflexivity.
Qed.

Lemma readable_extends h h' t : extends h h' -> readable h t -> readable h' t.
Proof.
  intros He. induction t as [r d kids IH] using tree_nested_ind. rewrite !readable_kids. intros [[H1 H2] Hks].
  pose proof (proj2 He) as Hb. split.
  - split; intros b E; [destruct (H1 b E) as [s Hs]|destruct (H2 b E) as [s Hs]]; eauto.
  - rewrite Forall_forall in *. auto.
Qed.

Lemma reading_extends h h' t : extends h h' -> readable h t -> reading h' t = reading h t.
Proof.
  intros He. induction t as [r d kids IH] using tree_nested_ind. rewrite readable_kids. intros [[H1 H2] Hks].
  cbn [reading]. rewrite !(text_extends h h') by assumption. f_equal.
  apply map_ext_in. intros k Hk%list_elem_of_In. rewrite Forall_forall in *. auto.
Qed.

(** ** Allocation *)

Section Copy.
Context (can_alloc : nat -> nat -> bool).

Lemma new_addr_fresh h : items h !! new_addr h = None /\ blocks h !! new_addr h = None.
Proof.
  pose proof (is_fresh (dom (items h) ∪ dom (blocks h))) as Hf. fold (new_addr h) in Hf.
  rewrite not_elem_of_union, !not_elem_of_dom in Hf. exact Hf.
Qed.

Definition unchanged (h h' : heap) : Prop := items h' = items h /\ blocks h' = blocks h.

Lemma unchanged_grown h h' : unchanged h h' -> grown h [] [] h'.
Proof. intros [Ei Eb]. split; intros; rewrite decide_False by apply not_elem_of_nil; congruence. Qed.

(** The allocator refused a request. *)
Definition refused : Prop := exists i size, can_alloc i size = false.

Lemma wp_New_Item h (Q : ptr -> heap -> Prop) :
  (refused -> forall h', unchanged h h' -> Q None h') ->
  (forall a h', items h !! a = None -> items h' = <[a := zero_node]> (items h) -> blocks h' = blocks h -> Q (Some a) h') ->
  wp (New_Item can_alloc) Q h.
Proof.
  intros Hn Hs. unfold New_Item, try_alloc, wp, bind. cbn. destruct (can_alloc _ _) eqn:Hca; cbn.
  - apply Hs; [|reflexivity|reflexivity]. apply (new_addr_fresh (Build_heap (items h) (blocks h) _)).
  - apply Hn; [do 2 eexists; exact Hca|split; reflexivity].
Qed.

Lemma wp_strdup b s h (Q : ptr -> heap -> Prop) :
  blocks h !! b = Some s ->
  (refused -> forall h', unchanged h h' -> Q None h') ->
  (forall c h', blocks h !! c = None -> items h' = items h -> blocks h' = <[c := c_str s]> (blocks h) -> Q (Some c) h') ->
  wp (cJSON_strdup can_alloc (Some b)) Q h.
Proof.
  intros Hb Hn Hs. unfold cJSON_strdup, read_block, try_alloc, wp, bind. cbn. rewrite Hb. cbn.
  destruct (can_alloc _ _) eqn:Hca; cbn.
  - apply Hs; [|reflexivity|reflexivity]. apply (new_addr_fresh (Build_heap (items h) (blocks h) _)).
  - apply Hn; [do 2 eexists; exact Hca|split; reflexivity].
Qed.

(** ** A copy under construction *)

(** The item [a] with fields [d] and the children [ks], which with their strings are all that
    was added to [h]. *)
Record building (h : heap) (a : addr) (d : data) (ks : list tree) (h' : heap) : Prop := {
  bu_grown : grown h (a :: flat_map addrs ks) (own_blocks d ++ flat_map owned ks) h';
  bu_addrs : NoDup (a :: flat_map addrs ks);
  bu_owned : NoDup (own_blocks d ++ flat_map owned ks);
  bu_node : items h' !! a = Some {| n_next := None; n_prev := None; n_child := root <$> head ks; n_data := d |};
  bu_ref : is_reference (d_type d) = false;
  bu_chain : chain h' (map root ks);
  bu_kids : Forall (stands h') ks;
  bu_blocks : forall b, b ∈ own_blocks d ++ flat_map owned ks -> is_Some (blocks h' !! b)
}.

Lemma building_forest h a d ks h' : building h a d ks h' -> forest h' [Tree a d ks].
Proof.
  intros H. econstructor; [apply (bu_node _ _ _ _ _ H)|reflexivity|reflexivity| | |constructor].
  - rewrite (bu_ref _ _ _ _ _ H). reflexivity.
  - apply forest_of; [apply (bu_chain _ _ _ _ _ H)|apply (bu_kids _ _ _ _ _ H)].
Qed.

(** Giving up frees all of it. *)
Lemma wp_fail h a d ks h' fuel (Q : ptr -> heap -> Prop) :
  building h a d ks h' -> (length (flat_map addrs ks) < fuel)%nat ->
  (forall h'', grown h [] [] h'' -> Q None h'') -> wp (fail_copy fuel (Some a)) Q h'.
Proof.
  intros H Hfuel HQ.
  assert (flat_map addrs [Tree a d ks] = a :: flat_map addrs ks) as EA by (cbn; rewrite app_nil_r; reflexivity).
  assert (flat_map owned [Tree a d ks] = own_blocks d ++ flat_map owned ks) as EB by (cbn; rewrite app_nil_r; reflexivity).
  apply wp_bind. eapply wp_mono; [apply (delete_forest h' [Tree a d ks] (building_forest _ _ _ _ _ H) h' fuel)|];
    rewrite ?EA, ?EB.
  - reflexivity.
  - apply (bu_addrs _ _ _ _ _ H).
  - apply (bu_owned _ _ _ _ _ H).
  - apply (bu_blocks _ _ _ _ _ H).
  - cbn. lia.
  - intros [] h'' [Hi Hb _]. apply wp_ret, HQ. destruct (bu_grown _ _ _ _ _ H) as [Gi Gb].
    split; intros x; rewrite decide_False by apply not_elem_of_nil.
    + rewrite Gi, Hi. reflexivity.
    + rewrite Gb, Hb. reflexivity.
Qed.

Lemma building_new h a h' :
  items h !! a = None -> items h' = <[a := zero_node]> (items h) -> blocks h' = blocks h ->
  building h a (n_data zero_node) [] h'.
Proof.
  intros Ha Hi Hb. split; cbn.
  - split; intros x.
    + rewrite Hi. destruct (decide (x = a)) as [->|Hne].
      * rewrite decide_True by left. exact Ha.
      * rewrite decide_False by set_solver. rewrite lookup_insert_ne by congruence. reflexivity.
    + rewrite decide_False by apply not_elem_of_nil. rewrite Hb. reflexivity.
  - apply NoDup_singleton.
  - constructor.
  - rewrite Hi, lookup_insert_eq. reflexivity.
  - reflexivity.
  - split; [constructor|]. intros i x Hx. discriminate.
  - constructor.
  - intros b Hb'. inversion Hb'.
Qed.

(** Changing a field, with the new blocks [B]. *)
Lemma building_data h a d f B h1 h' :
  building h a d [] h1 -> own_blocks (f d) ≡ₚ B ++ own_blocks d -> is_reference (d_type (f d)) = false ->
  items h' = alter (set_data f) a (items h1) ->
  (forall x, blocks h1 !! x = if decide (x ∈ B) then None else blocks h' !! x) ->
  (forall b, b ∈ B -> is_Some (blocks h' !! b)) -> NoDup B ->
  building h a (f d) [] h'.
Proof.
  intros [[Gi Gb] HA HB Hn Href Hc Hk Hbl] Hown Href' Hi Hblk Hnew HBd. cbn [flat_map] in *. rewrite !app_nil_r in *.
  split; cbn [flat_map]; rewrite ?app_nil_r.
  - split; intros x.
    + rewrite Gi, Hi. destruct (decide (x ∈ [a])) as [|Hx]; [reflexivity|].
      rewrite lookup_alter_ne; [reflexivity|]. intros ->. apply Hx. left.
    + assert (x ∈ own_blocks (f d) <-> x ∈ B \/ x ∈ own_blocks d) by (rewrite Hown, elem_of_app; reflexivity).
      rewrite Gb, Hblk. repeat case_decide; try reflexivity; tauto.
  - exact HA.
  - rewrite Hown. apply NoDup_app. split; [exact HBd|]. split; [|exact HB].
    intros b Hb Hb'. destruct (Hbl b Hb') as [v Hv]. rewrite Hblk, decide_True in Hv by exact Hb. discriminate.
  - rewrite Hi, lookup_alter_eq, Hn. reflexivity.
  - exact Href'.
  - split; [constructor|]. intros i x Hx. discriminate.
  - constructor.
  - intros b Hb. rewrite Hown in Hb. apply elem_of_app in Hb as [Hb|Hb]; [apply Hnew, Hb|].
    destruct (Hbl b Hb) as [v Hv]. rewrite Hblk in Hv. destruct (decide (b ∈ B)); [discriminate|eauto].
Qed.

(** Blocks only come. *)
Definition blocks_stay (h h' : heap) : Prop := forall x s, blocks h !! x = Some s -> blocks h' !! x = Some s.

Lemma wp_copy_string (const : bool) p (upd : ptr -> data -> data) h a d h1 (Q : bool -> heap -> Prop) :
  building h a d [] h1 ->
  upd None d = d -> (forall q, d_type (upd q d) = d_type d) ->
  (forall c, own_blocks (upd (Some c) d) ≡ₚ (if const then [] else [c]) ++ own_blocks d) ->
  (forall b, p = Some b -> is_Some (blocks h1 !! b)) ->
  (forall q h', building h a (upd q d) [] h' -> blocks_stay h1 h' -> text_at h' q = text_at h1 p ->
     (forall b, q = Some b -> is_Some (blocks h' !! b)) -> Q true h') ->
  (refused -> forall h', building h a d [] h' -> Q false h') ->
  wp (copy_string can_alloc const p (Some a) upd) Q h1.
Proof.
  intros Hb Hnone Htype Hown Hp Hok Hno. unfold copy_string. destruct p as [b|].
  2:{ apply wp_ret. apply (Hok None); [rewrite Hnone; exact Hb|intros x s; auto|reflexivity|discriminate]. }
  destruct (Hp b eq_refl) as [s Hs]. pose proof (bu_node _ _ _ _ _ Hb) as Hn. pose proof (bu_ref _ _ _ _ _ Hb) as Href.
  apply wp_bind. destruct const.
  - apply wp_ret. apply wp_bind. eapply wp_store; [exact Hn|]. apply wp_ret.
    rewrite bool_decide_eq_true_2 by discriminate. apply (Hok (Some b)).
    + apply (building_data _ _ d (upd (Some b)) [] h1);
        [exact Hb|apply Hown|rewrite Htype; exact Href|reflexivity| |intros ? H; inversion H|constructor].
      intros x. rewrite decide_False by apply not_elem_of_nil. reflexivity.
    + intros x s' Hx. exact Hx.
    + reflexivity.
    + intros b' [= <-]. cbn. eauto.
  - eapply wp_strdup; [exact Hs| |].
    + intros Hrf h2 [Hi2 Hb2]. apply wp_bind. eapply wp_store; [rewrite Hi2; exact Hn|]. apply wp_ret.
      rewrite bool_decide_eq_false_2 by (intros H; apply H; reflexivity). apply (Hno Hrf).
      rewrite <- Hnone. apply (building_data _ _ d (upd None) [] h1);
        [exact Hb|rewrite Hnone; reflexivity|rewrite Htype; exact Href|cbn; rewrite Hi2; reflexivity|
        |intros ? H; inversion H|constructor].
      intros x. cbn. rewrite decide_False, Hb2 by apply not_elem_of_nil. reflexivity.
    + intros c h2 Hc Hi2 Hb2. apply wp_bind. eapply wp_store; [rewrite Hi2; exact Hn|]. apply wp_ret.
      rewrite bool_decide_eq_true_2 by discriminate. apply (Hok (Some c)).
      * apply (building_data _ _ d (upd (Some c)) [c] h1);
          [exact Hb|apply Hown|rewrite Htype; exact Href|cbn; rewrite Hi2; reflexivity|..]; cbn.
        -- intros x. rewrite Hb2. destruct (decide (x = c)) as [->|Hne].
           ++ rewrite decide_True by left. exact Hc.
           ++ rewrite decide_False by set_solver. rewrite lookup_insert_ne by congruence. reflexivity.
        -- intros b' ->%list_elem_of_singleton. rewrite Hb2, lookup_insert_eq. eauto.
        -- apply NoDup_singleton.
      * intros x s' Hx. cbn. rewrite Hb2. rewrite lookup_insert_ne by congruence. exact Hx.
      * cbn. rewrite Hb2, lookup_insert_eq, Hs. cbn. rewrite c_str_id by apply c_str_no_nul. reflexivity.
      * intros b' [= <-]. cbn. rewrite Hb2, lookup_insert_eq. eauto.
Qed.

(** *** A finished copy *)

Record copied (h : heap) (t t' : tree) (h' : heap) : Prop := {
  co_grown : grown h (addrs t') (owned t') h';
  co_addrs : NoDup (addrs t');
  co_owned : NoDup (owned t');
  co_blocks : forall b, b ∈ owned t' -> is_Some (blocks h' !! b);
  co_stands : stands h' t';
  co_readable : readable h' t';
  co_alone : exists n, items h' !! root t' = Some n /\ n_next n = None;
  co_reading : reading h' t' = reading h t;
  co_length : length (addrs t') = length (addrs t)
}.

Lemma grown_alter h A B h' f b : grown h A B h' -> b ∈ A -> grown h A B (set_items (alter f b (items h')) h').
Proof.
  intros [Gi Gb] Hb. split; [|exact Gb]. intros x. rewrite Gi. destruct (decide (x ∈ A)) as [|Hx]; [reflexivity|].
  cbn. rewrite lookup_alter_ne; [reflexivity|]. intros ->. contradiction.
Qed.

(** The addresses of a finished copy are new to the one under construction. *)
Lemma building_apart h a d ks h1 k k' h2 :
  building h a d ks h1 -> copied h1 k k' h2 ->
  NoDup (a :: flat_map addrs (ks ++ [k'])) /\ NoDup (own_blocks d ++ flat_map owned (ks ++ [k'])).
Proof.
  intros Hb Hc. rewrite !flat_map_app. cbn [flat_map]. rewrite !app_nil_r. destruct (co_grown _ _ _ _ Hc) as [Gi Gb].
  split.
  - rewrite app_comm_cons. apply NoDup_app. split; [apply (bu_addrs _ _ _ _ _ Hb)|]. split; [|apply (co_addrs _ _ _ _ Hc)].
    intros x Hx Hx'. assert (items h1 !! x = None) as E by (rewrite Gi, decide_True by exact Hx'; reflexivity).
    apply elem_of_cons in Hx as [->|Hx]; [rewrite (bu_node _ _ _ _ _ Hb) in E; discriminate|].
    apply list_elem_of_In, in_flat_map in Hx as (j & Hj%list_elem_of_In & Hx%list_elem_of_In).
    pose proof (bu_kids _ _ _ _ _ Hb) as Hk. rewrite Forall_forall in Hk.
    destruct (stands_allocated _ _ _ (Hk j Hj) Hx). congruence.
  - rewrite app_assoc. apply NoDup_app. split; [apply (bu_owned _ _ _ _ _ Hb)|]. split; [|apply (co_owned _ _ _ _ Hc)].
    intros b Hx Hx'. assert (blocks h1 !! b = None) as E by (rewrite Gb, decide_True by exact Hx'; reflexivity).
    destruct (bu_blocks _ _ _ _ _ Hb b Hx). congruence.
Qed.

(** What both leave for the new children. *)
Lemma building_both h a d ks h1 k k' h2 :
  building h a d ks h1 -> copied h1 k k' h2 ->
  grown h (a :: flat_map addrs (ks ++ [k'])) (own_blocks d ++ flat_map owned (ks ++ [k'])) h2 /\
  chain h2 (map root ks) /\ Forall (stands h2) (ks ++ [k']) /\
  (forall b, b ∈ own_blocks d ++ flat_map owned (ks ++ [k']) -> is_Some (blocks h2 !! b)) /\
  items h2 !! a = Some {| n_next := None; n_prev := None; n_child := root <$> head ks; n_data := d |}.
Proof.
  intros Hb Hc. pose proof (grown_extends _ _ _ _ (co_grown _ _ _ _ Hc)) as He.
  split; [|split; [|split; [|split]]].
  - pose proof (grown_app _ _ _ _ _ _ _ (bu_grown _ _ _ _ _ Hb) (co_grown _ _ _ _ Hc)) as Hg.
    rewrite !flat_map_app. cbn [flat_map]. rewrite !app_nil_r. rewrite app_assoc. exact Hg.
  - eapply chain_extends; [apply (bu_chain _ _ _ _ _ Hb)|exact He].
  - apply Forall_app. split; [|constructor; [apply (co_stands _ _ _ _ Hc)|constructor]].
    eapply Forall_impl; [apply (bu_kids _ _ _ _ _ Hb)|]. intros t. apply stands_extends, He.
  - intros b. rewrite !flat_map_app. cbn [flat_map]. rewrite app_nil_r, app_assoc. intros [Hx|Hx]%elem_of_app.
    + destruct (bu_blocks _ _ _ _ _ Hb b Hx) as [s Hs]. rewrite (proj2 He _ _ Hs). eauto.
    + apply (co_blocks _ _ _ _ Hc), Hx.
  - apply (proj1 He), (bu_node _ _ _ _ _ Hb).
Qed.

Lemma attach_first h a d h1 k k' h2 (Q : unit -> heap -> Prop) :
  building h a d [] h1 -> copied h1 k k' h2 ->
  (forall h3, building h a d [k'] h3 -> blocks h3 = blocks h2 -> Q tt h3) ->
  wp (store (Some a) (set_child_ptr (Some (root k')))) Q h2.
Proof.
  intros Hb Hc HQ. destruct (building_apart _ _ _ _ _ _ _ _ Hb Hc) as [HA HB].
  destruct (building_both _ _ _ _ _ _ _ _ Hb Hc) as (Hg & _ & Hst & Hbl & Hn). cbn [app] in *.
  eapply wp_store; [exact Hn|]. apply HQ; [|reflexivity].
  assert (forall x, x ∈ addrs k' -> x <> a) as Hxa.
  { intros x Hx ->. apply NoDup_cons in HA as [HA _]. apply HA. cbn. rewrite app_nil_r. exact Hx. }
  split; try assumption.
  - apply grown_alter; [exact Hg|left].
  - cbn. rewrite lookup_alter_eq, Hn. reflexivity.
  - apply (bu_ref _ _ _ _ _ Hb).
  - destruct (co_alone _ _ _ _ Hc) as (n & Hr & Hnext). split; [apply NoDup_singleton|].
    intros [|i] x [= <-]. exists n. cbn. rewrite lookup_alter_ne; [|intros E; eapply Hxa; [apply root_addrs|congruence]].
    split; [exact Hr|]. split; [exact Hnext|]. intros []. reflexivity.
  - apply (stands_relink h2).
    + apply NoDup_cons in HA as [_ HA]. exact HA.
    + exact Hst.
    + intros x Hx. left. cbn. rewrite lookup_alter_ne; [reflexivity|]. intros <-.
      cbn in Hx. rewrite app_nil_r in Hx. eapply Hxa; [exact Hx|reflexivity].
Qed.

(** Linking a new node behind the last one. *)
Lemma chain_snoc h L z x n :
  chain h L -> last L = Some z -> x ∉ L -> items h !! x = Some n -> n_next n = None ->
  chain (set_items (alter (set_prev (Some z)) x (alter (set_next (Some x)) z (items h))) h) (L ++ [x]).
Proof.
  intros [Hnd Hl] Hz Hx Hn Hnext. rewrite last_lookup in Hz.
  assert (z <> x) by (intros ->; apply Hx; eapply list_elem_of_lookup_2, Hz).
  split.
  { apply NoDup_app. split; [exact Hnd|]. split; [|apply NoDup_singleton]. intros y Hy ->%list_elem_of_singleton. contradiction. }
  intros i y [[Hi Hy]|[-> <-]]%lookup_snoc_Some.
  - destruct (Hl i y Hy) as (m & Hm & Hm1 & Hm2).
    assert (y <> x) by (intros ->; apply Hx; eapply list_elem_of_lookup_2, Hy).
    eexists. split; [lookup_node|]. autorewrite with links. split.
    + destruct (decide (S i = length L)) as [E|E].
      * rewrite E, list_lookup_middle by reflexivity. replace (pred (length L)) with i in Hz by lia.
        rewrite decide_True by congruence. reflexivity.
      * rewrite lookup_app_l by lia. rewrite decide_False; [exact Hm1|]. intros ->.
        pose proof (NoDup_lookup _ _ _ _ Hnd Hy Hz). lia.
    + intros Hi0. rewrite decide_False by congruence. rewrite (Hm2 Hi0). destruct i as [|i]; [lia|].
      cbn. rewrite lookup_app_l by lia. reflexivity.
  - eexists. split; [lookup_node|]. autorewrite with links. rewrite (decide_False (P := z = x)) by congruence.
    rewrite decide_True by reflexivity. split.
    + rewrite lookup_ge_None_2 by (rewrite length_app; cbn; lia). exact Hnext.
    + intros Hne. destruct (length L) as [|k] eqn:EL; [contradiction|]. cbn. rewrite lookup_app_l by lia.
      symmetry. exact Hz.
Qed.

Lemma attach_next h a d ks h1 k k' h2 z (Q : unit -> heap -> Prop) :
  building h a d ks h1 -> copied h1 k k' h2 -> last (map root ks) = Some z ->
  (forall h3, building h a d (ks ++ [k']) h3 -> blocks h3 = blocks h2 -> Q tt h3) ->
  wp (bind (store (Some z) (set_next (Some (root k')))) (fun _ => store (Some (root k')) (set_prev (Some z)))) Q h2.
Proof.
  intros Hb Hc Hz HQ. destruct (building_apart _ _ _ _ _ _ _ _ Hb Hc) as [HA HB].
  destruct (building_both _ _ _ _ _ _ _ _ Hb Hc) as (Hg & Hch & Hst & Hbl & Hn).
  destruct (co_alone _ _ _ _ Hc) as (nk & Hk & Hnext).
  assert (z ∈ map root ks) as Hzin by (rewrite last_lookup in Hz; eapply list_elem_of_lookup_2, Hz).
  assert (exists nz, items h2 !! z = Some nz) as (nz & Hnz).
  { apply list_elem_of_lookup in Hzin as (i & Hi). destruct (cn_links _ _ Hch i z Hi) as (m & Hm & _). eauto. }
  apply NoDup_cons in HA as [Ha HA].
  assert (forall x, x ∈ map root (ks ++ [k']) -> x ∈ flat_map addrs (ks ++ [k'])) as Hroots.
  { intros x Hx. apply list_elem_of_In, in_map_iff in Hx as (j & <- & Hj%list_elem_of_In).
    eapply elem_flat_map; [exact Hj|apply root_addrs]. }
  assert (root k' ∈ map root (ks ++ [k'])) as Hkin by (rewrite map_app; apply elem_of_app; right; left).
  assert (z ∈ map root (ks ++ [k'])) as Hzin' by (rewrite map_app; apply elem_of_app; left; exact Hzin).
  assert (root k' ∉ map root ks) as Hkout.
  { intros Hin. rewrite flat_map_app in HA. apply NoDup_app in HA as (_ & Hd & _).
    apply list_elem_of_In, in_map_iff in Hin as (j & E & Hj%list_elem_of_In).
    apply (Hd (root j)); [eapply elem_flat_map; [exact Hj|apply root_addrs]|]. rewrite E. cbn. rewrite app_nil_r. apply root_addrs. }
  apply wp_bind. eapply wp_store; [exact Hnz|]. eapply wp_store; [lookup_node|]. apply HQ; [|reflexivity].
  split; try assumption.
  - apply (grown_alter _ _ _ (set_items (alter (set_next (Some (root k'))) z (items h2)) h2)).
    + apply grown_alter; [exact Hg|right; apply Hroots, Hzin'].
    + right. apply Hroots, Hkin.
  - constructor; [exact Ha|exact HA].
  - assert (z <> a) by (intros ->; apply Ha, Hroots, Hzin'). assert (root k' <> a) by (intros <-; apply Ha, Hroots, Hkin).
    cbn. rewrite !lookup_alter_ne by assumption. rewrite Hn. destruct ks; [discriminate|reflexivity].
  - apply (bu_ref _ _ _ _ _ Hb).
  - rewrite map_app. exact (chain_snoc _ _ _ _ _ Hch Hz Hkout Hk Hnext).
  - apply (stands_relink h2); [exact HA|exact Hst|]. intros x Hx. cbn.
    destruct (decide (x = z)) as [->|Hxz]; [right|destruct (decide (x = root k')) as [->|Hxk]; [right|left]].
    + split; [exact Hzin'|]. intros n Hn'. eexists. split; [lookup_node|]. unfold touch. repeat case_decide; auto.
    + split; [exact Hkin|]. intros n Hn'. eexists. split; [lookup_node|]. unfold touch. repeat case_decide; auto.
    + rewrite !lookup_alter_ne by congruence. reflexivity.
Qed.

(** Closing the ring. *)
Lemma chain_close h L f z :
  chain h L -> head L = Some f -> last L = Some z -> ring (set_items (alter (set_prev (Some z)) f (items h)) h) L.
Proof.
  intros [Hnd Hl] Hf Hz. assert (L !! 0%nat = Some f) as Hf0 by (destruct L; exact Hf).
  split; [exact Hnd|]. intros i x Hx. destruct (Hl i x Hx) as (m & Hm & Hm1 & Hm2).
  eexists. split; [lookup_node|]. autorewrite with links. split; [exact Hm1|]. destruct i as [|i].
  - rewrite decide_True by congruence. symmetry. exact Hz.
  - rewrite decide_False; [apply Hm2; discriminate|]. intros ->. pose proof (NoDup_lookup _ _ _ _ Hnd Hx Hf0). lia.
Qed.

Lemma wp_finish h a d ks h1 (Q : ptr -> heap -> Prop) :
  building h a d ks h1 ->
  (forall h2, building h a d ks h2 -> ring h2 (map root ks) -> blocks h2 = blocks h1 -> Q (Some a) h2) ->
  wp (bind (load (Some a)) (fun x => bind (when_ (bool_decide (n_child x <> None))
        (store (n_child x) (set_prev (root <$> last ks)))) (fun _ => ret (Some a)))) Q h1.
Proof.
  intros Hb HQ. apply wp_bind. eapply wp_load; [apply (bu_node _ _ _ _ _ Hb)|]. cbn [n_child].
  destruct ks as [|k ks]; cbn [head fmap option_fmap option_map].
  { rewrite bool_decide_eq_false_2 by (intros H; apply H; reflexivity). apply wp_bind, wp_ret, wp_ret.
    apply HQ; [exact Hb| |reflexivity]. split; [constructor|]. intros i x Hx. discriminate. }
  rewrite bool_decide_eq_true_2 by discriminate. set (ks1 := k :: ks) in *.
  destruct (last ks1) as [l|] eqn:El; [|unfold ks1 in El; apply last_None in El; discriminate].
  cbn [fmap option_fmap option_map].
  assert (last (map root ks1) = Some (root l)) as Hlast by (rewrite fmap_last, El; reflexivity).
  pose proof (chain_close _ _ (root k) _ (bu_chain _ _ _ _ _ Hb) eq_refl Hlast) as Hring.
  destruct (cn_links _ _ (bu_chain _ _ _ _ _ Hb) 0 (root k) eq_refl) as (nk & Hnk & _).
  pose proof (bu_addrs _ _ _ _ _ Hb) as HA. apply NoDup_cons in HA as [Ha HA].
  assert (root k ∈ flat_map addrs ks1) as Hk by (eapply elem_flat_map; [left|apply root_addrs]).
  apply wp_bind. eapply wp_store; [exact Hnk|]. apply wp_ret. apply HQ; [|exact Hring|reflexivity].
  destruct Hb as [Bg Ba Bo Bn Br Bc Bk Bb]. split; try assumption.
  - apply grown_alter; [exact Bg|right; exact Hk].
  - cbn. rewrite lookup_alter_ne; [exact Bn|]. intros E. apply Ha. rewrite <- E. exact Hk.
  - apply ring_chain, Hring.
  - apply (stands_relink h1); [exact HA|exact Bk|]. intros x Hx. cbn. destruct (decide (x = root k)) as [->|Hne].
    + right. split; [left|]. intros n Hn. eexists. split; [lookup_node|]. unfold touch. case_decide; auto.
    + left. rewrite lookup_alter_ne by congruence. reflexivity.
Qed.

(** The copy of a child, in any memory that extends the one the original was read in. *)
Definition dups (h : heap) (dup : ptr -> M heap ptr) (k : tree) : Prop :=
  forall h1, extends h h1 ->
    wp (dup (Some (root k)))
       (fun r h2 => (r = None /\ refused /\ grown h1 [] [] h2) \/ (exists k', r = Some (root k') /\ copied h1 k k' h2)) h1.

(** The children copied so far read like the first ones of the original. *)
Record half_way (h : heap) (done ks : list tree) (h1 : heap) : Prop := {
  hw_readable : Forall (readable h1) ks;
  hw_reading : map (reading h1) ks = map (reading h) done;
  hw_length : length (flat_map addrs ks) = length (flat_map addrs done)
}.

(** Reading depends on the strings only. *)
Lemma reading_same h h' t : blocks h' = blocks h -> readable h t -> readable h' t /\ reading h' t = reading h t.
Proof.
  intros Hb. induction t as [r d kids IH] using tree_nested_ind. rewrite !readable_kids.
  intros [[T1 T2] Hks]. rewrite Forall_forall in Hks, IH. split; [split; [split; rewrite Hb; assumption|]|].
  - apply Forall_forall. intros x Hx. apply IH; auto.
  - cbn [reading]. unfold text_at. rewrite Hb. f_equal. apply map_ext_in. intros x Hx%list_elem_of_In. apply IH; auto.
Qed.

Lemma readings_same h h' ts :
  (forall t, readable h t -> readable h' t /\ reading h' t = reading h t) -> Forall (readable h) ts ->
  Forall (readable h') ts /\ map (reading h') ts = map (reading h) ts.
Proof.
  intros Hs Hr. rewrite Forall_forall in Hr. split.
  - apply Forall_forall. intros t Ht. apply Hs; auto.
  - apply map_ext_in. intros t Ht%list_elem_of_In. apply Hs; auto.
Qed.

Lemma readings_extend h h' ts :
  extends h h' -> Forall (readable h) ts -> Forall (readable h') ts /\ map (reading h') ts = map (reading h) ts.
Proof. intros He. apply readings_same. intros t Ht. split; [eapply readable_extends|apply reading_extends]; eassumption. Qed.

Lemma half_way_step h done ks h1 k k' h2 h3 :
  extends h h1 -> readable h k ->
  half_way h done ks h1 -> copied h1 k k' h2 -> blocks h3 = blocks h2 -> half_way h (done ++ [k]) (ks ++ [k']) h3.
Proof.
  intros He Hrk [Hr Hm Hl] Hc Hb. pose proof (grown_extends _ _ _ _ (co_grown _ _ _ _ Hc)) as He2.
  destruct (readings_extend _ _ _ He2 Hr) as [Hr2 Hm2].
  destruct (readings_same h2 h3 ks (fun t => reading_same h2 h3 t Hb) Hr2) as [Hr3 Hm3].
  destruct (reading_same h2 h3 k' Hb (co_readable _ _ _ _ Hc)) as [Hr' Hm'].
  split.
  - apply Forall_app. auto.
  - rewrite !map_app, Hm3, Hm2, Hm. cbn [map]. rewrite Hm', (co_reading _ _ _ _ Hc), (reading_extends h h1) by assumption.
    reflexivity.
  - rewrite !flat_map_app, !length_app, Hl. cbn. rewrite !app_nil_r, (co_length _ _ _ _ Hc). reflexivity.
Qed.

Lemma half_way_same h done ks h1 h2 : blocks h2 = blocks h1 -> half_way h done ks h1 -> half_way h done ks h2.
Proof.
  intros Hb [Hr Hm Hl]. destruct (readings_same h1 h2 ks (fun t => reading_same h1 h2 t Hb) Hr) as [Hr2 Hm2].
  split; [exact Hr2|congruence|exact Hl].
Qed.

Lemma building_extends h a d ks h1 : building h a d ks h1 -> extends h h1.
Proof. intros Hb. eapply grown_extends, (bu_grown _ _ _ _ _ Hb). Qed.

Lemma building_still h a d ks h1 h2 : building h a d ks h1 -> grown h1 [] [] h2 -> building h a d ks h2.
Proof.
  intros [Bg Ba Bo Bn Br Bc Bk Bb] Hg. pose proof (grown_extends _ _ _ _ Hg) as He. split; try assumption.
  - pose proof (grown_app _ _ _ _ _ _ _ Bg Hg) as H. rewrite !app_nil_r in H. exact H.
  - apply He, Bn.
  - eapply chain_extends; eassumption.
  - eapply Forall_impl; [exact Bk|]. intros t. apply stands_extends, He.
  - intros b Hb. destruct (Bb b Hb) as [s Hs]. exists s. apply He, Hs.
Qed.

(** Linking a copy behind those made so far. *)
Lemma wp_attach h a d ks h1 k k' h2 (Q : unit -> heap -> Prop) :
  building h a d ks h1 -> copied h1 k k' h2 ->
  (forall h3, building h a d (ks ++ [k']) h3 -> blocks h3 = blocks h2 -> Q tt h3) ->
  wp (if bool_decide (root <$> last ks <> None)
      then bind (store (root <$> last ks) (set_next (Some (root k')))) (fun _ => store (Some (root k')) (set_prev (root <$> last ks)))
      else store (Some a) (set_child_ptr (Some (root k')))) Q h2.
Proof.
  intros Hb Hc HQ. destruct (last ks) as [l|] eqn:El; cbn [fmap option_fmap option_map].
  - rewrite bool_decide_eq_true_2 by discriminate. eapply attach_next; [exact Hb|exact Hc| |exact HQ].
    rewrite fmap_last, El. reflexivity.
  - rewrite bool_decide_eq_false_2 by (intros H; apply H; reflexivity). apply last_None in El as ->.
    eapply attach_first; [exact Hb|exact Hc|exact HQ].
Qed.

Lemma wp_copy_children h a d dup fuel todo : forall n done ks h1 (Q : ptr -> heap -> Prop),
  building h a d ks h1 -> half_way h done ks h1 -> forest h todo -> Forall (readable h) todo -> Forall (dups h dup) todo ->
  (length (flat_map addrs (done ++ todo)) < fuel)%nat -> (length todo <= n)%nat ->
  (refused -> forall h2, grown h [] [] h2 -> Q None h2) ->
  (forall ks2 h2, building h a d ks2 h2 -> ring h2 (map root ks2) -> half_way h (done ++ todo) ks2 h2 ->
     blocks_stay h1 h2 -> Q (Some a) h2) ->
  wp (copy_children fuel dup (Some a) n (root <$> head todo) (root <$> last ks)) Q h1.
Proof.
  induction todo as [|k todo IH]; intros n done ks h1 Q Hb Hh Hf Hr Hd Hfuel Hn HNone HSome.
  - assert (copy_children fuel dup (Some a) n None (root <$> last ks) =
      bind (load (Some a)) (fun x => bind (when_ (bool_decide (n_child x <> None))
        (store (n_child x) (set_prev (root <$> last ks)))) (fun _ => ret (Some a)))) as E by (destruct n; reflexivity).
    cbn [head fmap option_fmap option_map]. rewrite E. eapply wp_finish; [exact Hb|]. intros h2 Hb2 Hring Hbl.
    apply (HSome ks); [exact Hb2|exact Hring| |].
    + rewrite app_nil_r. eapply half_way_same; eassumption.
    + unfold blocks_stay. rewrite Hbl. auto.
  - destruct n as [|n]; [cbn in Hn; lia|]. apply Forall_cons in Hr as [Hrk Hr], Hd as [Hdk Hd].
    pose proof (building_extends _ _ _ _ _ Hb) as He.
    cbn [head fmap option_fmap option_map copy_children]. apply wp_bind. eapply wp_mono; [apply (Hdk h1 He)|].
    intros r h2 [(-> & Hrf & Hg)|(k' & -> & Hc)].
    + eapply wp_fail; [eapply building_still; eassumption| |exact (HNone Hrf)].
      rewrite (hw_length _ _ _ _ Hh). rewrite flat_map_app, length_app in Hfuel. lia.
    + apply wp_bind. eapply wp_attach; [exact Hb|exact Hc|]. intros h3 Hb3 Hbl.
      inversion Hf as [|r d0 kids ts nk Hnk _ Hnext _ _ Hft]; subst. cbn [root].
      apply wp_bind. eapply wp_load; [apply (building_extends _ _ _ _ _ Hb3), Hnk|]. rewrite Hnext.
      replace (Some (root k')) with (root <$> last (ks ++ [k'])) by (rewrite last_snoc; reflexivity).
      rewrite cons_middle, app_assoc in Hfuel. cbn in Hn. apply (IH n (done ++ [Tree r d0 kids])); try assumption.
      * eapply half_way_step; eassumption.
      * lia.
      * intros ks2 h4 Hb4 Hring4 Hh4 Hst. apply (HSome ks2 h4 Hb4 Hring4); [rewrite cons_middle, app_assoc; exact Hh4|].
        intros x s Hx. apply Hst. rewrite Hbl. apply (grown_extends _ _ _ _ (co_grown _ _ _ _ Hc)), Hx.
Qed.

Lemma type_kept t : is_reference t = false -> Z.land t (Z.lnot cJSON_IsReference) = t.
Proof.
  unfold is_reference. rewrite negb_false_iff, Z.eqb_eq. intros H. rewrite <- Z.ldiff_land.
  rewrite <- (Z.lxor_0_r t) at 2. rewrite <- H. apply Z.bits_inj'. intros i Hi.
  rewrite Z.ldiff_spec, Z.lxor_spec, Z.land_spec. destruct (Z.testbit t i), (Z.testbit cJSON_IsReference i); reflexivity.
Qed.

Lemma text_stay h h' p : blocks_stay h h' -> (forall b, p = Some b -> is_Some (blocks h !! b)) -> text_at h' p = text_at h p.
Proof.
  intros Hs Hp. destruct p as [b|]; [|reflexivity]. destruct (Hp b eq_refl) as [s E]. cbn. rewrite E, (Hs _ _ E). reflexivity.
Qed.

(** The item just made, with the number and the two strings copied. *)
Lemma wp_copy_strings h a d h1 fuel rest (Q : ptr -> heap -> Prop) :
  building h a (n_data zero_node) [] h1 -> extends h h1 -> texts_there h d -> is_reference (d_type d) = false -> (0 < fuel)%nat ->
  (refused -> forall h2, grown h [] [] h2 -> Q None h2) ->
  (forall d2 h2, building h a d2 [] h2 -> texts_there h2 d2 ->
     reading h2 (Tree a d2 []) = reading h (Tree a d []) -> wp rest Q h2) ->
  wp (bind (store (Some a) (set_data (fun e => with_number (d_valueint d) (d_valuedouble d)
            (with_type (Z.land (d_type d) (Z.lnot cJSON_IsReference)) e)))) (fun _ =>
      bind (copy_string can_alloc false (d_valuestring d) (Some a) with_valuestring) (fun ok =>
      if negb ok then fail_copy fuel (Some a) else
      bind (copy_string can_alloc (is_const_key (d_type d)) (d_string d) (Some a) with_string) (fun ok =>
      if negb ok then fail_copy fuel (Some a) else rest)))) Q h1.
Proof.
  intros Hb He [T1 T2] Href Hfuel HNone HSome. rewrite (type_kept _ Href).
  set (f := fun e => with_number _ _ (with_type (d_type d) e)).
  apply wp_bind. eapply wp_store; [apply (bu_node _ _ _ _ _ Hb)|].
  assert (building h a (f (n_data zero_node)) [] (set_items (alter (set_data f) a (items h1)) h1)) as Hb1.
  { eapply (building_data _ _ _ f []); [exact Hb| |exact Href|reflexivity| | |constructor].
    - unfold own_blocks, f. cbn. repeat case_match; reflexivity.
    - intros x. reflexivity.
    - intros b Hb0. inversion Hb0. }
  set (d1 := f _) in *. set (h2 := set_items _ h1) in *.
  assert (forall p, (forall b, p = Some b -> is_Some (blocks h !! b)) -> forall b, p = Some b -> is_Some (blocks h1 !! b)) as Hup.
  { intros p Hp b E. destruct (Hp b E) as [s Hs]. exists s. apply He, Hs. }
  apply wp_bind. eapply (wp_copy_string _ _ with_valuestring _ _ d1); [exact Hb1|reflexivity|reflexivity| |apply Hup, T1| |].
  { intros c. unfold own_blocks. cbn. rewrite Href. cbn. case_match; reflexivity. }
  2:{ intros Hrf h3 Hb3. cbn [negb]. eapply wp_fail; [exact Hb3|exact Hfuel|exact (HNone Hrf)]. }
  intros q h3 Hb3 Hst3 Hq Hqb. cbn [negb].
  apply wp_bind. eapply (wp_copy_string _ _ with_string _ _ (with_valuestring q d1)); [exact Hb3|reflexivity|reflexivity| | | |].
  { intros c. unfold own_blocks. cbn. destruct (is_const_key (d_type d)); cbn.
    - reflexivity.
    - rewrite app_nil_r. apply Permutation_app_comm. }
  { intros b E. destruct (Hup _ T2 b E) as [s Hs]. exists s. apply Hst3, Hs. }
  2:{ intros Hrf h4 Hb4. cbn [negb]. eapply wp_fail; [exact Hb4|exact Hfuel|exact (HNone Hrf)]. }
  intros q' h4 Hb4 Hst4 Hq' Hqb'. cbn [negb]. apply (HSome _ _ Hb4).
  - split; cbn; [|exact Hqb']. intros b E. destruct (Hqb b E) as [s Hs]. exists s. apply Hst4, Hs.
  - cbn -[text_at]. f_equal.
    + rewrite (text_stay h3 h4), Hq by assumption. apply (text_extends h h1); assumption.
    + rewrite Hq', (text_stay h1 h3 _ Hst3 (Hup _ T2)). apply (text_extends h h1); assumption.
Qed.

Lemma kid_size ks k : k ∈ ks -> (length (addrs k) <= length (flat_map addrs ks))%nat.
Proof.
  induction ks as [|k' ks IH]; intros Hk; [inversion Hk|]. cbn. rewrite length_app.
  apply elem_of_cons in Hk as [->|Hk]; [lia|]. specialize (IH Hk). lia.
Qed.

Lemma kids_size ks : (length ks <= length (flat_map addrs ks))%nat.
Proof. induction ks as [|[r d kids] ks IH]; [auto|]. cbn. rewrite length_app. lia. Qed.

Lemma building_copied h r d kids a d2 ks h2 h3 :
  texts_there h2 d2 -> reading h2 (Tree a d2 []) = reading h (Tree a d []) ->
  building h a d2 ks h3 -> ring h3 (map root ks) -> half_way h kids ks h3 -> blocks_stay h2 h3 ->
  copied h (Tree r d kids) (Tree a d2 ks) h3.
Proof.
  intros [T1 T2] Hread [Bg Ba Bo Bn Br Bc Bk Bb] Hring [H1 H2 H3] Hst. split; try assumption.
  - apply stands_kids. split; [eauto|]. auto.
  - apply readable_kids. split; [|exact H1].
    split; intros b E; [destruct (T1 b E) as [s Hs]|destruct (T2 b E) as [s Hs]]; exists s; apply Hst, Hs.
  - eauto.
  - cbn [reading map] in *. rewrite (text_stay h2 h3), (text_stay h2 h3) by assumption. rewrite H2.
    injection Hread as -> -> -> -> ->. reflexivity.
  - cbn. rewrite H3. reflexivity.
Qed.

Lemma wp_duplicate t : forall fuel h,
  stands h t -> readable h t -> NoDup (addrs t) -> (length (addrs t) <= fuel)%nat ->
  dups h (cJSON_Duplicate can_alloc fuel true) t.
Proof.
  induction t as [r d kids IH] using tree_nested_ind. intros fuel h0 Hs0 Hr0 Hdup Hfuel h He.
  apply (stands_extends _ _ _ He) in Hs0. apply (readable_extends _ _ _ He) in Hr0. clear h0 He.
  rewrite stands_kids in Hs0. destruct Hs0 as ((n & Hn & Hd & Hc) & Href & Hring & Hks).
  apply readable_kids in Hr0 as [Ht Hrk].
  cbn [addrs length] in Hfuel. destruct fuel as [|fuel]; [lia|]. cbn [root cJSON_Duplicate].
  apply wp_bind, wp_New_Item; [intros Hrf h1 Hu; apply wp_ret; left; auto using unchanged_grown|].
  intros a h1 Ha Hi Hbl. pose proof (building_new _ _ _ Ha Hi Hbl) as Hb.
  pose proof (building_extends _ _ _ _ _ Hb) as He.
  apply wp_bind. eapply wp_load; [apply He, Hn|]. rewrite Hd.
  apply (wp_copy_strings h a d h1 (S fuel)); [exact Hb|exact He|exact Ht|exact Href|lia|auto|].
  intros d2 h2 Hb2 Ht2 Hread. rewrite Hc.
  change (@None addr) with (root <$> last (@nil tree)).
  apply NoDup_cons in Hdup as [_ Hdup].
  eapply (wp_copy_children h a d2 _ (S fuel) kids fuel []); [exact Hb2|split; constructor| |exact Hrk| | | | |].
  - apply forest_of; [apply ring_chain, Hring|exact Hks].
  - rewrite Forall_forall in *. intros k Hk. apply IH; auto.
    + eapply kid_nodup; eassumption.
    + pose proof (kid_size _ _ Hk). lia.
  - cbn [app]. lia.
  - pose proof (kids_size kids). lia.
  - auto.
  - intros ks2 h3 Hb3 Hring3 Hh Hst. right. exists (Tree a d2 ks2). split; [reflexivity|].
    apply (building_copied h r d kids a d2 ks2 h2 h3); assumption.
Qed.

(** C15: A recursive [cJSON_Duplicate] ([recurse] is true) of a tree without references returns
    either a tree of new items with new strings, linked as the code requires, which reads like the
    original, the rest of the memory being as before; or NULL, only if the allocator refuses
    some request, with everything allocated on the way freed again. *)
Theorem duplicate_copies fuel h t
    (Hstands : stands h t) (Hreadable : readable h t) (Haddrs : NoDup (addrs t)) (Hfuel : (length (addrs t) <= fuel)%nat) :
  exists r h', cJSON_Duplicate can_alloc fuel true (Some (root t)) h = Done (r, h') /\
    ((r = None /\ refused /\ grown h [] [] h') \/ (exists t', r = Some (root t') /\ copied h t t' h')).
Proof. apply (proj1 (wp_Done _ _ _) (wp_duplicate t fuel h Hstands Hreadable Haddrs Hfuel h (extends_refl h))). Qed.

End Copy.

(** An object with a string under a name of its own and one under a constant key. *)
Definition keyed : data :=
  {| d_type := Z.lor cJSON_String cJSON_StringIsConst; d_valuestring := Some 13%positive;
     d_valueint := 0; d_valuedouble := S754_zero false; d_string := Some 14%positive |}.
Definition source_heap : heap :=
  {| items := list_to_map
       [(1%positive, {| n_next := None; n_prev := None; n_child := Some 2%positive; n_data := owner |});
        (2%positive, {| n_next := Some 3%positive; n_prev := Some 3%positive; n_child := None; n_data := named |});
        (3%positive, {| n_next := None; n_prev := Some 2%positive; n_child := None; n_data := keyed |})];
     blocks := list_to_map
       [(11%positive, text "value"); (12%positive, text "name"); (13%positive, text "other"); (14%positive, text "key")];
     h_allocs := 0 |}.
Definition source_tree : tree := Tree 1 owner [Tree 2 named []; Tree 3 keyed []].

Lemma source_ring : ring source_heap [2; 3]%positive.
Proof.
  split; [apply (bool_decide_unpack _); vm_compute; exact I|].
  intros [|[|i]] x [= <-]; eexists; split; [reflexivity..|split; reflexivity|reflexivity|split; reflexivity].
Qed.

Lemma leaf_stands h r d n :
  items h !! r = Some n -> n_data n = d -> n_child n = None -> is_reference (d_type d) = false -> stands h (Tree r d []).
Proof.
  intros Hn Hd Hc Href. apply stands_kids. split; [eauto|]. split; [exact Href|]. split; [|constructor].
  split; [constructor|]. intros i x Hx. discriminate.
Qed.

Lemma source_stands : stands source_heap source_tree.
Proof.
  apply stands_kids. split; [eexists; split; [reflexivity|split; reflexivity]|]. split; [reflexivity|].
  split; [exact source_ring|]. apply Forall_cons_2; [|apply Forall_cons_2; [|constructor]]; (eapply leaf_stands; reflexivity).
Qed.

Lemma source_readable : readable source_heap source_tree.
Proof. repeat split; intros b [= <-]; eexists; reflexivity. Qed.

Lemma duplicate_copies_witness :
  exists t' h', cJSON_Duplicate (fun _ _ => true) 3 true (Some 1%positive) source_heap = Done (Some (root t'), h') /\
    copied source_heap source_tree t' h'.
Proof.
  destruct (duplicate_copies (fun _ _ => true) 3 source_heap source_tree) as (r & h' & Hrun & [(-> & (i & s & H) & _)|(t' & -> & Hc)]).
  - exact source_stands.
  - exact source_readable.
  - apply (bool_decide_unpack _). vm_compute. exact I.
  - apply le_n.
  - discriminate H.
  - exists t', h'. split; [exact Hrun|exact Hc].
Defined.

End JsonCopy.
