(* ===== verification/JsonMinify.v ===== *)
(** * Minified JSON (src/src/common/cJSON.cc)

    [cJSON_Minify] rewrites a NUL-terminated text in place, through a pointer it reads at and one
    it writes at.  The theorems: it stays inside the text and computes what an automaton over the
    characters computes, and it turns the formatted text of a value into the unformatted one
    unless a string ends in a backslash. *)

From Stdlib Require Import ZArith Lia Ascii.
From stdpp Require Import base numbers list strings.
From S2P Require Import Prelude Json JsonPrint JsonText.
Open Scope Z_scope.
Local Open Scope m_scope.

Module JsonMinify.
Export Json JsonPrint JsonText.

(** ** The code *)

(** The text, and the offsets [json] (or [*input]) and [into] (or [*output]). *)
Record cursors := { mem : bytes; json_off : nat; into_off : nat }.

Definition json_at (i : nat) : M cursors Z :=
  fun s => match mem s !! (json_off s + i)%nat with Some c => Done (c, s) | None => Fault OutOfBounds end.

Definition into_set (i : nat) (c : Z) : M cursors unit :=
  fun s => if (into_off s + i <? length (mem s))%nat
           then Done (tt, {| mem := <[(into_off s + i)%nat := c]> (mem s); json_off := json_off s; into_off := into_off s |})
           else Fault OutOfBounds.

Definition json_add (n : nat) : M cursors unit :=
  modify (fun s => {| mem := mem s; json_off := json_off s + n; into_off := into_off s |}).
Definition into_add (n : nat) : M cursors unit :=
  modify (fun s => {| mem := mem s; json_off := json_off s; into_off := into_off s + n |}).

Fixpoint oneline_loop (fuel : nat) : M cursors unit :=
  match fuel with
  | O => raise OutOfFuel
  | S fuel' =>
      let* c := json_at 0 in
      if c =? 0 then ret tt else
      if c =? 10 then json_add 1 else
      json_add 1 ;;; oneline_loop fuel'
  end.

Definition skip_oneline_comment (fuel : nat) : M cursors unit := json_add 2 ;;; oneline_loop fuel.

Fixpoint multiline_loop (fuel : nat) : M cursors unit :=
  match fuel with
  | O => raise OutOfFuel
  | S fuel' =>
      let* c := json_at 0 in
      if c =? 0 then ret tt else
      let* close := (if c =? chr "*" then let* c1 := json_at 1 in ret (c1 =? chr "/") else ret false) in
      if close : bool then json_add 2 else
      json_add 1 ;;; multiline_loop fuel'
  end.

Definition skip_multiline_comment (fuel : nat) : M cursors unit := json_add 2 ;;; multiline_loop fuel.

Fixpoint string_loop (fuel : nat) : M cursors unit :=
  match fuel with
  | O => raise OutOfFuel
  | S fuel' =>
      let* c := json_at 0 in
      if c =? 0 then ret tt else
      into_set 0 c ;;;
      if c =? quote then into_set 0 quote ;;; json_add 1 ;;; into_add 1 else
      let* c1 := (if c =? backslash then json_at 1 else ret 0) in
      when_ ((c =? backslash) && (c1 =? quote)) (into_set 1 c1 ;;; json_add 1 ;;; into_add 1) ;;;
      json_add 1 ;;; into_add 1 ;;; string_loop fuel'
  end.

Definition minify_string (fuel : nat) : M cursors unit :=
  let* c := json_at 0 in
  into_set 0 c ;;; json_add 1 ;;; into_add 1 ;;; string_loop fuel.

Definition is_blank (c : Z) : bool := (c =? 32) || (c =? 9) || (c =? 13) || (c =? 10).

Fixpoint minify_loop (fuel : nat) : M cursors unit :=
  match fuel with
  | O => raise OutOfFuel
  | S fuel' =>
      let* c := json_at 0 in
      if c =? 0 then ret tt else
      (if is_blank c then json_add 1 else
       if c =? chr "/" then
         let* c1 := json_at 1 in
         if c1 =? chr "/" then skip_oneline_comment fuel' else
         if c1 =? chr "*" then skip_multiline_comment fuel' else json_add 1
       else if c =? quote then minify_string fuel'
       else into_set 0 c ;;; json_add 1 ;;; into_add 1) ;;;
      minify_loop fuel'
  end.

(** The text afterwards; every turn reads a character, so [length] and one are enough turns. *)
Definition cJSON_Minify (json : option bytes) : outcome (option bytes) :=
  match json with
  | None => Done None
  | Some text =>
      match (minify_loop (S (length text)) ;;; into_set 0 0) {| mem := text; json_off := 0; into_off := 0 |} with
      | Done (_, s) => Done (Some (mem s))
      | Fault f => Fault f
      end
  end.

(** ** What it computes *)

Inductive mode := Outside | Oneline | Multiline | Inside.

Fixpoint minified (m : mode) (s : bytes) : bytes :=
  match s with
  | [] => []
  | c :: s' =>
      match m with
      | Outside =>
          if is_blank c then minified Outside s' else
          if c =? chr "/" then
            match s' with
            | c1 :: s'' =>
                if c1 =? chr "/" then minified Oneline s'' else
                if c1 =? chr "*" then minified Multiline s'' else minified Outside s'
            | [] => []
            end
          else if c =? quote then c :: minified Inside s'
          else c :: minified Outside s'
      | Oneline => minified (if c =? 10 then Outside else Oneline) s'
      | Multiline =>
          match s' with
          | c1 :: s'' => if (c =? chr "*") && (c1 =? chr "/") then minified Outside s'' else minified Multiline s'
          | [] => []
          end
      | Inside =>
          if c =? quote then c :: minified Outside s' else
          match s' with
          | c1 :: s'' =>
              if (c =? backslash) && (c1 =? quote) then c :: c1 :: minified Inside s'' else c :: minified Inside s'
          | [] => [c]
          end
      end
  end.

(** ** In place *)

Section InPlace.
Context (N : nat) (tail : bytes).

(** The output so far, a gap, the [N] characters of the text not yet read and what follows its NUL. *)
Record view (out gap rest : bytes) (s : cursors) : Prop := {
  vw_mem : mem s = out ++ gap ++ rest ++ 0 :: tail;
  vw_into : into_off s = length out;
  vw_json : json_off s = (length out + length gap)%nat;
  vw_nul : no_nul rest;
  vw_size : (length out + length gap + length rest = N)%nat
}.

(** The same with the next character written but neither pointer moved. *)
Record written (out : bytes) (c : Z) (gap rest : bytes) (s : cursors) : Prop := {
  wr_mem : mem s = out ++ c :: gap ++ rest ++ 0 :: tail;
  wr_into : into_off s = length out;
  wr_json : json_off s = (length out + length gap)%nat;
  wr_nul : no_nul rest;
  wr_size : (length out + length gap + S (length rest) = N)%nat
}.

Lemma wp_json_at out gap rest s i c (Q : Z -> cursors -> Prop) :
  view out gap rest s -> (rest ++ [0]) !! i = Some c -> Q c s -> wp (json_at i) Q s.
Proof.
  intros [Hm _ Hj _ _] Hc HQ. unfold wp, json_at.
  replace (mem s !! _) with (Some c); [exact HQ|]. symmetry.
  rewrite Hm, Hj, app_assoc, <- length_app, lookup_app_r, Nat.add_comm, Nat.add_sub by lia.
  rewrite cons_middle, app_assoc. rewrite lookup_app_l; [exact Hc|]. apply lookup_lt_Some in Hc. exact Hc.
Qed.

Lemma wp_json_next out c gap rest s x (Q : Z -> cursors -> Prop) :
  written out c gap rest s -> (rest ++ [0]) !! 0%nat = Some x -> Q x s -> wp (json_at 1) Q s.
Proof.
  intros [Hm _ Hj _ _] Hc HQ. unfold wp, json_at. replace (mem s !! _) with (Some x); [exact HQ|]. symmetry.
  rewrite Hm, Hj, (cons_middle c), app_assoc, app_assoc, lookup_app_r by (rewrite !length_app; cbn; lia).
  replace (_ - _)%nat with 0%nat by (rewrite !length_app; cbn; lia). destruct rest; exact Hc.
Qed.

Lemma wp_json_skip out gap t rest s n (Q : unit -> cursors -> Prop) :
  view out gap (t ++ rest) s -> n = length t -> (forall s', view out (gap ++ t) rest s' -> Q tt s') -> wp (json_add n) Q s.
Proof.
  intros [Hm Hi Hj Hn Hs] -> HQ. apply wp_modify, HQ. apply Forall_app in Hn as [_ Hn].
  rewrite length_app in Hs. split; cbn; rewrite ?length_app; try assumption; [|lia..].
  rewrite Hm, <- !app_assoc. reflexivity.
Qed.

Lemma wp_into_at out s i c X (Q : unit -> cursors -> Prop) :
  mem s = out ++ X -> into_off s = length out -> (i < length X)%nat ->
  (Q tt {| mem := out ++ <[i := c]> X; json_off := json_off s; into_off := into_off s |}) ->
  wp (into_set i c) Q s.
Proof.
  intros Hm Hi Hlt HQ. unfold wp, into_set. rewrite Hm, Hi, length_app.
  destruct (Nat.ltb_spec (length out + i) (length out + length X)); [|lia].
  rewrite insert_app_r. rewrite Hi in HQ. exact HQ.
Qed.

Lemma wp_write_first out gap c rest s (Q : unit -> cursors -> Prop) :
  view out gap (c :: rest) s ->
  (forall gap' s', written out c gap' rest s' -> Q tt s') -> wp (into_set 0 c) Q s.
Proof.
  intros [Hm Hi Hj Hn Hs] HQ. apply Forall_cons in Hn as [_ Hn]. eapply wp_into_at; [exact Hm|exact Hi| |].
  { rewrite !length_app. cbn. lia. }
  destruct gap as [|g gap]; [apply (HQ [])|apply (HQ (gap ++ [c]))]; (split; cbn in *; [|assumption|..|assumption|]).
  - reflexivity.
  - exact Hj.
  - exact Hs.
  - rewrite <- app_assoc. reflexivity.
  - rewrite length_app. cbn. lia.
  - rewrite length_app. cbn. lia.
Qed.

Lemma wp_write_again out c gap rest s (Q : unit -> cursors -> Prop) :
  written out c gap rest s -> (forall s', written out c gap rest s' -> Q tt s') -> wp (into_set 0 c) Q s.
Proof.
  intros [Hm Hi Hj Hn Hs] HQ. eapply wp_into_at; [exact Hm|exact Hi|cbn; lia|]. apply HQ. split; assumption || reflexivity.
Qed.

Lemma wp_move out c gap rest s (Q : unit -> cursors -> Prop) :
  written out c gap rest s -> (forall s', view (out ++ [c]) gap rest s' -> Q tt s') ->
  wp (json_add 1 ;;; into_add 1) Q s.
Proof.
  intros [Hm Hi Hj Hn Hs] HQ. apply wp_bind, wp_modify, wp_modify, HQ.
  split; cbn; rewrite ?length_app; cbn; try assumption; [|lia..]. rewrite Hm, <- app_assoc. reflexivity.
Qed.

Lemma wp_move_then out c gap rest k s (Q : unit -> cursors -> Prop) :
  written out c gap rest s -> (forall s', view (out ++ [c]) gap rest s' -> wp k Q s') ->
  wp (json_add 1 ;;; into_add 1 ;;; k) Q s.
Proof. intros Hw HQ. eapply (wp_move _ _ _ _ _ (fun _ => wp k Q) Hw HQ). Qed.

(** An escaped quote is written whole before the pointers move. *)
Lemma wp_write_second out c gap c1 rest s (Q : unit -> cursors -> Prop) :
  written out c gap (c1 :: rest) s -> (forall gap' s', written (out ++ [c]) c1 gap' rest s' -> Q tt s') ->
  wp (into_set 1 c1 ;;; json_add 1 ;;; into_add 1) Q s.
Proof.
  intros [Hm Hi Hj Hn Hs] HQ. apply Forall_cons in Hn as [_ Hn]. cbn [length] in Hs.
  apply wp_bind. eapply wp_into_at; [exact Hm|exact Hi|rewrite !length_cons, !length_app; cbn; lia|].
  apply wp_bind, wp_modify, wp_modify.
  destruct gap as [|g gap]; [apply (HQ [])|apply (HQ (gap ++ [c1]))];
    (split; cbn in *; rewrite <- ?app_assoc, ?length_app; cbn; [reflexivity|lia|lia|assumption|lia]).
Qed.

(** Where a part of the text in mode [m] ends. *)
Definition reached (m : mode) (out rest : bytes) (s : cursors) : Prop :=
  exists out' gap' rest', view out' gap' rest' s /\ out' ++ minified Outside rest' = out ++ minified m rest /\
    (length rest' <= length rest)%nat.

Lemma reached_from m m' out out' rest rest' s :
  reached m' out' rest' s -> out' ++ minified m' rest' = out ++ minified m rest -> (length rest' <= length rest)%nat ->
  reached m out rest s.
Proof. intros (o & g & r & Hv & E & Hl) E' Hl'. exists o, g, r. split; [exact Hv|]. split; [rewrite E; exact E'|lia]. Qed.

Lemma reached_end m out gap s : view out gap [] s -> reached m out [] s.
Proof. intros Hv. exists out, gap, []. destruct m; auto. Qed.

Lemma peek (rest : bytes) : (rest ++ [0]) !! 0%nat = Some (default 0 (head rest)).
Proof. destruct rest; reflexivity. Qed.

Lemma wp_oneline fuel : forall out gap rest s,
  view out gap rest s -> (length rest < fuel)%nat -> wp (oneline_loop fuel) (fun _ => reached Oneline out rest) s.
Proof.
  induction fuel as [|fuel IH]; intros out gap rest s Hv Hf; [lia|]. cbn [oneline_loop]. apply wp_bind.
  destruct rest as [|c rest].
  { eapply wp_json_at; [exact Hv|reflexivity|]. apply wp_ret. eapply reached_end, Hv. }
  eapply wp_json_at; [exact Hv|reflexivity|]. pose proof (vw_nul _ _ _ _ Hv) as Hn. apply Forall_cons in Hn as [Hc _].
  cbn in Hf. rewrite (proj2 (Z.eqb_neq c 0) Hc). destruct (c =? 10) eqn:E.
  - eapply (wp_json_skip _ _ [c]); [exact Hv|reflexivity|]. intros s' Hv'. exists out, (gap ++ [c]), rest.
    split; [exact Hv'|]. split; [cbn; rewrite E; reflexivity|cbn; lia].
  - apply wp_bind. eapply (wp_json_skip _ _ [c]); [exact Hv|reflexivity|]. intros s' Hv'.
    eapply wp_mono; [apply (IH _ _ _ _ Hv'); lia|]. intros [] s2 Hr. eapply reached_from; [exact Hr| |cbn; lia].
    cbn. rewrite E. reflexivity.
Qed.

Lemma wp_multiline fuel : forall out gap rest s,
  view out gap rest s -> (length rest < fuel)%nat -> wp (multiline_loop fuel) (fun _ => reached Multiline out rest) s.
Proof.
  induction fuel as [|fuel IH]; intros out gap rest s Hv Hf; [lia|]. cbn [multiline_loop]. apply wp_bind.
  destruct rest as [|c rest].
  { eapply wp_json_at; [exact Hv|reflexivity|]. apply wp_ret. eapply reached_end, Hv. }
  eapply wp_json_at; [exact Hv|reflexivity|]. pose proof (vw_nul _ _ _ _ Hv) as Hn. apply Forall_cons in Hn as [Hc _].
  cbn in Hf. rewrite (proj2 (Z.eqb_neq c 0) Hc).
  set (close := match rest with c1 :: _ => (c =? chr "*") && (c1 =? chr "/") | [] => false end).
  apply wp_bind. eapply (wp_mono _ (fun b s' => b = close /\ s' = s)).
  { unfold close. destruct (c =? chr "*").
    - apply wp_bind. eapply (wp_json_at _ _ _ _ 1); [exact Hv|apply peek|]. apply wp_ret.
      destruct rest; split; reflexivity.
    - apply wp_ret. destruct rest; auto. }
  intros ? ? [-> ->]. destruct close eqn:E; unfold close in E; clear close.
  - destruct rest as [|c1 rest]; [discriminate|]. eapply (wp_json_skip _ _ [c; c1]); [exact Hv|reflexivity|].
    intros s' Hv'. do 3 eexists. split; [exact Hv'|]. split; [cbn; rewrite E; reflexivity|cbn; lia].
  - apply wp_bind. eapply (wp_json_skip _ _ [c]); [exact Hv|reflexivity|]. intros s' Hv'.
    eapply wp_mono; [apply (IH _ _ _ _ Hv'); lia|]. intros [] s2 Hr. eapply reached_from; [exact Hr| |cbn; lia].
    destruct rest as [|c1 rest]; [reflexivity|]. cbn. rewrite E. reflexivity.
Qed.

Lemma wp_string fuel : forall out gap rest s,
  view out gap rest s -> (length rest < fuel)%nat -> wp (string_loop fuel) (fun _ => reached Inside out rest) s.
Proof.
  induction fuel as [|fuel IH]; intros out gap rest s Hv Hf; [lia|]. cbn [string_loop]. apply wp_bind.
  destruct rest as [|c rest].
  { eapply wp_json_at; [exact Hv|reflexivity|]. apply wp_ret. eapply reached_end, Hv. }
  eapply wp_json_at; [exact Hv|reflexivity|]. pose proof (vw_nul _ _ _ _ Hv) as Hn. apply Forall_cons in Hn as [Hc _].
  cbn in Hf. rewrite (proj2 (Z.eqb_neq c 0) Hc). apply wp_bind. eapply wp_write_first; [exact Hv|]. intros gap1 s1 Hw1.
  destruct (Z.eqb_spec c quote) as [->|Hq].
  { apply wp_bind. eapply wp_write_again; [exact Hw1|]. intros s2 Hw2. eapply wp_move; [exact Hw2|]. intros s3 Hv3.
    do 3 eexists. split; [exact Hv3|]. split; [rewrite <- app_assoc; reflexivity|cbn; lia]. }
  apply Z.eqb_neq in Hq. set (c1 := default 0 (head rest)).
  apply wp_bind. eapply (wp_mono _ (fun x s' => (c =? backslash) && (x =? quote) = (c =? backslash) && (c1 =? quote) /\
    ((c =? backslash) = true -> x = c1) /\ s' = s1)).
  { destruct (c =? backslash); [|apply wp_ret; split; [reflexivity|split; [discriminate|reflexivity]]].
    eapply wp_json_next; [exact Hw1|apply peek|]. auto. }
  intros x ? (Ex & Hx & ->). rewrite Ex.
  assert (forall out' gap' t c' s', written out' c' gap' t s' -> (length t <= length rest)%nat ->
    (out' ++ [c']) ++ minified Inside t = out ++ minified Inside (c :: rest) ->
    wp (json_add 1 ;;; into_add 1 ;;; string_loop fuel) (fun _ => reached Inside out (c :: rest)) s') as Hgo.
  { intros out' gap' t c' s' Hw Ht Eo. eapply wp_move_then; [exact Hw|]. intros s2 Hv2.
    eapply wp_mono; [apply (IH _ _ _ _ Hv2); lia|]. intros [] s3 Hr. eapply reached_from; [exact Hr|exact Eo|cbn; lia]. }
  cbn [minified] in Hgo. rewrite Hq in Hgo. apply wp_bind, wp_when; intros E.
  - apply andb_prop in E as [Eb Eq]. rewrite (Hx Eb). destruct rest as [|c2 rest]; [discriminate|]. change ((c2 =? quote) = true) in Eq.
    eapply wp_write_second; [exact Hw1|]. intros gap2 s2 Hw2. eapply Hgo; [exact Hw2|cbn; lia|].
    rewrite Eb, Eq. cbn. rewrite <- !app_assoc. reflexivity.
  - eapply Hgo; [exact Hw1|lia|]. rewrite <- app_assoc. destruct rest as [|c2 rest]; [reflexivity|].
    change ((c =? backslash) && (c2 =? quote) = false) in E. rewrite E. reflexivity.
Qed.

(** One turn of the outer loop. *)
Lemma minify_turn fuel out gap c rest s :
  view out gap (c :: rest) s -> (length rest < fuel)%nat ->
  wp (if is_blank c then json_add 1 else
      if c =? chr "/" then
        let* c1 := json_at 1 in
        if c1 =? chr "/" then skip_oneline_comment fuel else
        if c1 =? chr "*" then skip_multiline_comment fuel else json_add 1
      else if c =? quote then minify_string fuel
      else into_set 0 c ;;; json_add 1 ;;; into_add 1)
     (fun _ s' => exists out' gap' rest', view out' gap' rest' s' /\
        out' ++ minified Outside rest' = out ++ minified Outside (c :: rest) /\ (length rest' <= length rest)%nat) s.
Proof.
  intros Hv Hf. cbn [minified]. destruct (is_blank c).
  { eapply (wp_json_skip _ _ [c]); [exact Hv|reflexivity|]. intros s' Hv'. eauto 10. }
  destruct (c =? chr "/").
  { apply wp_bind. eapply (wp_json_at _ _ _ _ 1); [exact Hv|apply peek|]. destruct rest as [|c1 rest].
    - eapply (wp_json_skip _ _ [c]); [exact Hv|reflexivity|]. intros s' Hv'. eauto 10.
    - change (default 0 (head (c1 :: rest))) with c1. cbn in Hf. destruct (c1 =? chr "/"); [|destruct (c1 =? chr "*")].
      + apply wp_bind. eapply (wp_json_skip _ _ [c; c1]); [exact Hv|reflexivity|]. intros s' Hv'.
        eapply wp_mono; [apply (wp_oneline fuel _ _ _ _ Hv'); lia|]. intros [] s2 (o & g & r & H1 & H2 & H3).
        exists o, g, r. split; [exact H1|]. split; [exact H2|cbn; lia].
      + apply wp_bind. eapply (wp_json_skip _ _ [c; c1]); [exact Hv|reflexivity|]. intros s' Hv'.
        eapply wp_mono; [apply (wp_multiline fuel _ _ _ _ Hv'); lia|]. intros [] s2 (o & g & r & H1 & H2 & H3).
        exists o, g, r. split; [exact H1|]. split; [exact H2|cbn; lia].
      + eapply (wp_json_skip _ _ [c]); [exact Hv|reflexivity|]. intros s' Hv'. eauto 10. }
  destruct (c =? quote).
  - apply wp_bind. eapply wp_json_at; [exact Hv|reflexivity|]. apply wp_bind. eapply wp_write_first; [exact Hv|].
    intros gap1 s1 Hw. eapply wp_move_then; [exact Hw|]. intros s2 Hv2.
    eapply wp_mono; [apply (wp_string fuel _ _ _ _ Hv2); lia|]. intros [] s3 (o & g & r & H1 & H2 & H3).
    exists o, g, r. split; [exact H1|]. split; [rewrite H2, <- app_assoc; reflexivity|exact H3].
  - apply wp_bind. eapply wp_write_first; [exact Hv|]. intros gap1 s1 Hw. eapply wp_move; [exact Hw|]. intros s2 Hv2.
    do 3 eexists. split; [exact Hv2|]. split; [rewrite <- app_assoc; reflexivity|lia].
Qed.

Lemma wp_minify_loop fuel : forall out gap rest s,
  view out gap rest s -> (length rest < fuel)%nat ->
  wp (minify_loop fuel) (fun _ s' => exists gap', view (out ++ minified Outside rest) gap' [] s') s.
Proof.
  induction fuel as [|fuel IH]; intros out gap rest s Hv Hf; [lia|]. cbn [minify_loop]. apply wp_bind.
  destruct rest as [|c rest].
  { eapply wp_json_at; [exact Hv|reflexivity|]. apply wp_ret. exists gap. rewrite app_nil_r. exact Hv. }
  eapply wp_json_at; [exact Hv|reflexivity|]. pose proof (vw_nul _ _ _ _ Hv) as Hn. apply Forall_cons in Hn as [Hc _].
  cbn in Hf. rewrite (proj2 (Z.eqb_neq c 0) Hc). apply wp_bind.
  eapply wp_mono; [apply (minify_turn fuel out gap c rest s Hv); lia|].
  intros [] s2 (out' & gap' & rest' & Hv' & E & Hl). rewrite <- E. apply (IH _ _ _ _ Hv'). lia.
Qed.

End InPlace.

(** ** Formatted text *)

(** No string of a value ends in a backslash. *)
Definition no_final_backslash (s : bytes) : Prop := last s <> Some backslash.

Inductive tame : json -> Prop :=
  | tame_null : tame JNull
  | tame_bool b : tame (JBool b)
  | tame_int n : tame (JInt n)
  | tame_string s : no_final_backslash s -> tame (JString s)
  | tame_array l : Forall tame l -> tame (JArray l)
  | tame_object l : Forall (fun kv => no_final_backslash (fst kv) /\ tame (snd kv)) l -> tame (JObject l).

(** The text [t], outside strings, becomes [u] whatever follows it. *)
Definition reduces (t u : bytes) : Prop := forall rest, minified Outside (t ++ rest) = u ++ minified Outside rest.

Lemma reduces_app t u t' u' : reduces t u -> reduces t' u' -> reduces (t ++ t') (u ++ u').
Proof. intros H H' rest. rewrite <- !app_assoc, H, H'. reflexivity. Qed.

Lemma reduces_nil : reduces [] [].
Proof. intros rest. reflexivity. Qed.

Lemma reduces_blank t : forallb is_blank t = true -> reduces t [].
Proof.
  intros H rest. induction t as [|c t IH]; [reflexivity|]. cbn in H. apply andb_prop in H as [Hc H].
  cbn [app minified]. rewrite Hc. apply IH, H.
Qed.

Definition is_plain (c : Z) : bool := negb (is_blank c) && negb (c =? chr "/") && negb (c =? quote).

Lemma reduces_plain t : forallb is_plain t = true -> reduces t t.
Proof.
  intros H rest. induction t as [|c t IH]; [reflexivity|]. cbn in H. apply andb_prop in H as [Hc H].
  unfold is_plain in Hc. apply andb_prop in Hc as [Hc Hq]. apply andb_prop in Hc as [Hb Hs].
  apply negb_true_iff in Hb, Hs, Hq. cbn [app minified]. rewrite Hb, Hs, Hq. cbn. f_equal. apply IH, H.
Qed.

Lemma inside_plain c X : (c =? quote) = false -> (c =? backslash) = false -> minified Inside (c :: X) = c :: minified Inside X.
Proof. intros Hq Hb. cbn [minified]. rewrite Hq, Hb. destruct X; reflexivity. Qed.

Lemma inside_plains t X :
  Forall (fun c => (c =? quote) = false /\ (c =? backslash) = false) t -> minified Inside (t ++ X) = t ++ minified Inside X.
Proof.
  intros H. induction H as [|c t [Hq Hb] _ IH]; [reflexivity|]. cbn [app]. rewrite inside_plain, IH by assumption. reflexivity.
Qed.

Lemma inside_backslash X : head X <> Some quote -> minified Inside (backslash :: X) = backslash :: minified Inside X.
Proof.
  intros H. cbn [minified]. destruct X as [|c X]; [reflexivity|].
  replace ((backslash =? backslash) && (c =? quote)) with false; [reflexivity|].
  symmetry. apply Z.eqb_neq. intros ->. apply H. reflexivity.
Qed.

Lemma inside_quoted X : minified Inside (backslash :: quote :: X) = backslash :: quote :: minified Inside X.
Proof. reflexivity. Qed.

Lemma esc_head c X : 0 < c < 256 -> head (esc c ++ X) <> Some quote.
Proof.
  intros Hc. destruct (esc_cases c Hc) as [(-> & Hq & _)|[(x & -> & _)|[-> _]]]; cbn; intros [= E]; [|discriminate..].
  subst. discriminate.
Qed.

Lemma inside_u04x c X : 0 < c < 32 -> minified Inside (backslash :: u04x c ++ X) = backslash :: u04x c ++ minified Inside X.
Proof.
  intros Hc. destruct (u04x_hex c Hc) as (h & l & -> & _ & _ & H1 & H2 & H3 & H4). cbn [app]. rewrite inside_backslash by discriminate.
  f_equal. apply (inside_plains [chr "u"; chr "0"; chr "0"; h; l]).
  repeat (apply Forall_cons_2; [split; first [assumption|reflexivity]|]). constructor.
Qed.

Lemma inside_char c X :
  0 < c < 256 -> (c = backslash -> head X <> Some quote) -> minified Inside (esc c ++ X) = esc c ++ minified Inside X.
Proof.
  intros Hc Hend. destruct (esc_cases c Hc) as [(-> & Hq & Hb)|[(x & -> & Hx)|[-> Hlt]]].
  - apply inside_plain; assumption.
  - cbn [app]. destruct (Z.eqb_spec x quote) as [->|Hq]; [apply inside_quoted|].
    rewrite inside_backslash by (cbn; congruence). f_equal.
    destruct (Z.eqb_spec x backslash) as [->|Hb]; [|apply inside_plain; apply Z.eqb_neq; assumption].
    apply inside_backslash, Hend. change (Some backslash = Some c) in Hx. congruence.
  - apply inside_u04x. lia.
Qed.

Lemma inside_string s X :
  good_bytes s -> no_final_backslash s ->
  minified Inside (flat_map esc s ++ quote :: X) = flat_map esc s ++ quote :: minified Outside X.
Proof.
  intros Hg. induction Hg as [|c s Hc Hg IH]; intros Hl; [reflexivity|]. cbn [flat_map]. rewrite <- !app_assoc.
  rewrite inside_char; [|exact Hc|].
  - f_equal. apply IH. intros E. apply Hl. destruct s; [discriminate|exact E].
  - intros ->. destruct s as [|c' s]; [destruct Hl; reflexivity|]. apply Forall_cons in Hg as [Hc' _].
    cbn [flat_map]. rewrite <- app_assoc. apply esc_head, Hc'.
Qed.

Lemma reduces_string s : good_bytes s -> no_final_backslash s -> reduces (string_text s) (string_text s).
Proof.
  intros Hg Hl rest. unfold string_text. cbn [app minified]. change (is_blank quote) with false.
  change (quote =? chr "/") with false. change (quote =? quote) with true. cbn. f_equal.
  rewrite <- app_assoc. cbn. rewrite inside_string by assumption. rewrite <- app_assoc. reflexivity.
Qed.

Lemma reduces_sequence l l' :
  Forall2 (fun wt wt' => forallb is_blank (fst wt) = true /\ fst wt' = [] /\ reduces (snd wt) (snd wt')) l l' ->
  reduces (sequence l) (sequence l').
Proof.
  intros H. induction H as [|[w t] [w' t'] l l' (Hw & Hw' & Ht) H IH]; [apply reduces_nil|].
  cbn [fst snd] in *. subst w'. rewrite !sequence_cons. apply (reduces_app w []); [apply reduces_blank, Hw|].
  apply reduces_app; [exact Ht|]. destruct H; [apply reduces_nil|]. cbn [after_first].
  apply (reduces_app [chr ","] [chr ","]); [apply reduces_plain; reflexivity|exact IH].
Qed.

Definition value_reduces (j : json) : Prop := forall d d', reduces (render true d j) (render false d' j).

Lemma reduces_array l : Forall value_reduces l -> value_reduces (JArray l).
Proof.
  intros H d d'. cbn [render]. apply (reduces_app [chr "["] [chr "["]); [apply reduces_plain; reflexivity|].
  apply reduces_app; [|apply reduces_plain; reflexivity]. rewrite !joined_sequence. apply reduces_sequence.
  destruct H as [|j l Hj H]; [constructor|]. cbn [map spaced]. apply Forall2_cons. split.
  { split; [reflexivity|]. split; [reflexivity|apply Hj]. }
  induction H as [|j' l Hj' H IH]; [constructor|]. cbn [map]. apply Forall2_cons. split; [|exact IH].
  split; [reflexivity|]. split; [reflexivity|apply Hj'].
Qed.

Lemma blank_tabs_only n : forallb is_blank (tabs n) = true.
Proof. induction n as [|n IH]; [reflexivity|]. cbn. exact IH. Qed.

Lemma reduces_object l :
  Forall (fun kv => good_bytes (fst kv) /\ no_final_backslash (fst kv) /\ value_reduces (snd kv)) l -> value_reduces (JObject l).
Proof.
  intros H d d'. rewrite !render_object. cbn [app].
  apply (reduces_app [chr "{"] [chr "{"]); [apply reduces_plain; reflexivity|]. apply reduces_app.
  - apply reduces_sequence. induction H as [|[k j] l (Hg & Hl & Hj) H IH]; [constructor|]. cbn [map]. constructor; [|exact IH].
    cbn [fst snd]. split; [apply (blank_tabs_only (S d))|]. split; [reflexivity|]. unfold member_text.
    apply reduces_app; [apply reduces_string; assumption|]. apply (reduces_app [chr ":"] [chr ":"]); [apply reduces_plain; reflexivity|].
    apply (reduces_app [9] []); [apply reduces_blank; reflexivity|apply Hj].
  - apply (reduces_app (10 :: tabs d) []); [apply reduces_blank, (blank_tabs_only d)|apply reduces_plain; reflexivity].
Qed.

Lemma number_plain c : is_number_char c = true -> is_plain c = true.
Proof.
  unfold is_number_char, is_plain, is_blank, is_digit, quote. change (chr "0") with 48. change (chr "9") with 57.
  change (chr "+") with 43. change (chr "-") with 45. change (chr "e") with 101. change (chr "E") with 69.
  change (chr ".") with 46. change (chr "/") with 47. intros H. rewrite !orb_true_iff in H.
  assert (43 <= c <= 57 /\ c <> 47 \/ c = 101 \/ c = 69) as Hc by (decompose [or] H; zbool; lia).
  rewrite !andb_true_iff, !negb_true_iff, !orb_false_iff, !Z.eqb_neq. lia.
Qed.

Lemma all_values_reduce j : good j -> tame j -> value_reduces j.
Proof.
  induction j as [| | | |l IH|l IH] using json_nested_ind; intros Hg Ht.
  - intros d d'. apply reduces_plain. reflexivity.
  - intros d d'. destruct b; apply reduces_plain; reflexivity.
  - inversion Hg as [| |? Hn| | |]; subst. intros d d'. apply reduces_plain, forallb_forall.
    intros c Hc%list_elem_of_In. pose proof (int_text_chars n Hn) as H. rewrite Forall_forall in H. apply number_plain, H, Hc.
  - inversion Hg; inversion Ht; subst. intros d d'. apply reduces_string; assumption.
  - inversion Hg as [| | | |? Hgl|]; inversion Ht as [| | | |? Htl|]; subst. apply reduces_array.
    rewrite Forall_forall in *. auto.
  - inversion Hg as [| | | | |? Hgl]; inversion Ht as [| | | | |? Htl]; subst. apply reduces_object.
    rewrite Forall_forall in *. intros kv Hkv. destruct (Hgl kv Hkv), (Htl kv Hkv). auto.
Qed.

(** ** Theorems *)

Lemma minify_text t tail :
  no_nul t ->
  exists gap, cJSON_Minify (Some (t ++ 0 :: tail)) = Done (Some (minified Outside t ++ 0 :: gap ++ tail)) /\
    (length (minified Outside t) + length gap = length t)%nat.
Proof.
  intros Hn. unfold cJSON_Minify. set (s0 := {| mem := t ++ 0 :: tail; json_off := 0; into_off := 0 |}).
  assert (view (length t) tail [] [] t s0) as Hv by (split; try reflexivity; exact Hn).
  assert (wp (minify_loop (S (length (t ++ 0 :: tail))) ;;; into_set 0 0)
    (fun _ s' => exists gap, mem s' = minified Outside t ++ 0 :: gap ++ tail /\
       (length (minified Outside t) + length gap = length t)%nat) s0) as Hwp.
  { apply wp_bind. eapply wp_mono; [eapply wp_minify_loop; [exact Hv|rewrite length_app; lia]|].
    intros [] s1 (gap & [Hm Hi _ _ Hs]). cbn [app length] in *. eapply wp_into_at; [exact Hm|exact Hi|rewrite length_app; cbn; lia|].
    destruct gap as [|g gap]; [exists []|exists (gap ++ [0])]; cbn in *; rewrite <- ?app_assoc, ?length_app; cbn; split; auto; lia. }
  apply wp_Done in Hwp as ([] & s' & -> & gap & -> & Hl). eauto.
Qed.

Lemma no_nul_minified n : forall t m, (length t <= n)%nat -> no_nul t -> no_nul (minified m t).
Proof.
  induction n as [|n IH]; intros t m Hl Hn; (destruct t as [|c t]; [destruct m; constructor|]); [cbn in Hl; lia|].
  apply Forall_cons in Hn as [Hc Hn]. cbn in Hl.
  assert (forall m, no_nul (minified m t)) as H1 by (intros; apply IH; [lia|exact Hn]).
  assert (forall c1 t', t = c1 :: t' -> c1 <> 0 /\ forall m, no_nul (minified m t')) as H2.
  { intros c1 t' ->. apply Forall_cons in Hn as [Hc1 Hn]. split; [exact Hc1|]. intros m'. apply IH; [cbn in Hl; lia|exact Hn]. }
  assert (forall c1 t' m, t = c1 :: t' -> no_nul (minified m t') /\ c1 <> 0) as H3 by (intros; split; eapply H2; eassumption).
  cbn [minified]. destruct t as [|c1 t]; repeat case_match;
    repeat first [exact (H1 _) | exact (proj1 (H3 c1 t _ eq_refl)) | apply Forall_nil_2
      | apply Forall_cons_2; [first [exact Hc|exact (proj2 (H3 c1 t m eq_refl))]|]].
Qed.

Lemma c_str_split mem : has_nul mem = true -> exists tail, mem = c_str mem ++ 0 :: tail.
Proof.
  induction mem as [|b mem IH]; [discriminate|]. cbn. destruct (Z.eqb_spec b 0) as [->|]; [eauto|].
  intros H. destruct (IH H) as [tail E]. exists tail. cbn. f_equal. exact E.
Qed.



(** C36: Minifying the formatted text of a value gives its unformatted text, for values
    whose strings are C strings and whose integers have at most 15 digits, when no string or name in
    the value ends in a backslash. *)
Theorem minify_unformats j tail (Hgood : good j) (Htame : tame j) :
  exists mem', cJSON_Minify (Some (render true 0 j ++ 0 :: tail)) = Done (Some mem') /\ c_str mem' = render false 0 j.
Proof.
  assert (no_nul (render true 0 j)) as Hn by (apply no_nul_render, Hgood).
  destruct (minify_text _ tail Hn) as (gap & Hrun & _). eexists. split; [exact Hrun|].
  pose proof (all_values_reduce j Hgood Htame 0%nat 0%nat []) as E. rewrite !app_nil_r in E. rewrite E.
  apply c_str_app_nul, no_nul_render, Hgood.
Qed.

Definition pair_of (a b : bytes) : json := JObject [(text "a b", JArray [JString a; JInt 7; JString b])].

Lemma minify_unformats_witness :
  exists mem', cJSON_Minify (Some (render true 0 (pair_of (text "c:/d e") [quote; backslash; quote]) ++ [0])) = Done (Some mem') /\
    c_str mem' = render false 0 (pair_of (text "c:/d e") [quote; backslash; quote]).
Proof.
  apply (minify_unformats (pair_of (text "c:/d e") [quote; backslash; quote]) []).
  - unfold pair_of. prove_good.
  - unfold pair_of. repeat first [apply Forall_nil_2 | apply Forall_cons_2 | split | apply tame_object | apply tame_array
      | apply tame_string | apply tame_int | discriminate].
Defined.

(** A string that ends in a backslash is taken to go on: the next one loses its blank. *)
Lemma final_backslash_eats_blanks :
  exists mem', cJSON_Minify (Some (render true 0 (JArray [JString [backslash]; JString (text "a b")]) ++ [0])) = Done (Some mem') /\
    c_str mem' <> render false 0 (JArray [JString [backslash]; JString (text "a b")]) /\
    c_str mem' = [91; 34; 92; 92; 34; 44; 32; 34] ++ text "ab" ++ [34; 93].
Proof. eexists. split; [vm_compute; reflexivity|]. vm_compute. split; [discriminate|reflexivity]. Qed.

End JsonMinify.
