(* ===== verification/Sessions.v ===== *)
(** * Sessions between processes

    What the constructor of RpcClient (src/include/rpc/rpc_client.h) and split_region_thread
    (src/src/server/metafs_server.cc) do before they send a request: open a session to every thread
    of every server, run the event loop until the session management handler has been called for
    each of them, check that they are connected and allocate the message buffers.

    eRPC is a parameter, the class [Erpc]; [ErpcLaws] states what its documentation (rpc.h of eRPC)
    says of session creation and of the event loop. *)

From Stdlib Require Import ZArith Lia.
From stdpp Require Import base numbers list gmap strings.
From S2P Require Import Prelude.
Open Scope Z_scope.

Module Sessions.

(** ** eRPC *)

Inductive SmEventType := kConnected | kConnectFailed | kDisconnected | kDisconnectFailed.

(** A call of the session management handler; [ev_no_error] is [sm_err_type == kNoError]. *)
Record sm_event := {
  ev_session : Z;
  ev_type : SmEventType;
  ev_no_error : bool
}.

(** [create_session] gives the number of the session or a negative error.
    [run_event_loop_once] gives the calls of the session management handler made in this turn.
    [alloc_msg_buffer_or_die] gives a buffer with unspecified content or throws. *)
Class Erpc := {
  Rpc : Type;
  create_session : bytes -> Z -> Rpc -> Z * Rpc;
  run_event_loop_once : Rpc -> list sm_event * Rpc;
  is_connected : Z -> Rpc -> bool;
  alloc_msg_buffer_or_die : nat -> Rpc -> option bytes * Rpc
}.

(** [can_open r l]: the threads of [l] listen, and sessions to them can be opened, one after the
    other.  Such a session gets a number not in use and is [pending] until its one call of the
    handler, which tells that it is connected; [patience] bounds the turns of the event loop without
    a call while a session is pending. *)
Class ErpcLaws (E : Erpc) := {
  can_open : Rpc -> list (bytes * Z) -> Prop;
  endpoint : Rpc -> Z -> option (bytes * Z);
  pending : Rpc -> list Z;
  patience : Rpc -> nat;

  create_law uri tid l r : can_open r ((uri, tid) :: l) ->
    let '(n, r') := create_session uri tid r in
    can_open r' l /\ endpoint r n = None /\ endpoint r' n = Some (uri, tid) /\
    (forall m, m <> n -> endpoint r' m = endpoint r m) /\
    pending r' ≡ₚ n :: pending r /\ (forall m, is_connected m r = true -> is_connected m r' = true);

  loop_law l r : can_open r l ->
    let '(evs, r') := run_event_loop_once r in
    can_open r' l /\ pending r ≡ₚ map ev_session evs ++ pending r' /\ (forall m, endpoint r' m = endpoint r m) /\
    Forall (fun e => ev_type e = kConnected /\ ev_no_error e = true /\ is_connected (ev_session e) r' = true) evs /\
    (forall m, is_connected m r = true -> is_connected m r' = true) /\
    (pending r = [] \/ evs <> [] \/ patience r' < patience r)%nat;

  alloc_law size l r : can_open r l ->
    let '(b, r') := alloc_msg_buffer_or_die size r in
    can_open r' l /\ (forall m, b = Some m -> length m = size) /\ (forall m, endpoint r' m = endpoint r m) /\
    (forall m, is_connected m r = true -> is_connected m r' = true)
}.

Definition MAX_MSG_BUF_WINDOW : nat := 8.

(** [sizeof(wire_req_t)], of which [SendRegionReq] is the largest member, and
    [sizeof(wire_resp_t)], of which [FSReaddirResp] is. *)
Definition sizeof_wire_req : nat := 3768.
Definition sizeof_wire_resp : nat := 3736.

Section Sessions.
Context {E : Erpc}.
Local Open Scope m_scope.

(** The part of [client_context] and of [split_region_thread_context] that sessions use. *)
Record session_context := {
  num_sm_resps_ : Z;
  session_num_vec_ : list Z;
  rpc_ : Rpc
}.

Definition set_num_sm_resps (n : Z) (c : session_context) : session_context :=
  {| num_sm_resps_ := n; session_num_vec_ := session_num_vec_ c; rpc_ := rpc_ c |}.
Definition set_session_num_vec (v : list Z) (c : session_context) : session_context :=
  {| num_sm_resps_ := num_sm_resps_ c; session_num_vec_ := v; rpc_ := rpc_ c |}.
Definition set_rpc (r : Rpc) (c : session_context) : session_context :=
  {| num_sm_resps_ := num_sm_resps_ c; session_num_vec_ := session_num_vec_ c; rpc_ := r |}.

(** A call of eRPC. *)
Definition on_rpc {A} (f : Rpc -> A * Rpc) : M session_context A :=
  let* r := gets rpc_ in
  let '(a, r') := f r in
  modify (set_rpc r') ;;; ret a.

(** ** The session management handler *)

(** The last index at which the vector holds the number, or its size. *)
Definition session_index (session_num : Z) (vec : list Z) : nat :=
  fold_left (fun session_idx i => if bool_decide (vec !! i = Some session_num) then i else session_idx)
    (seq 0 (length vec)) (length vec).

(** [rt_assert] throws. *)
Definition client_basic_sm_handler (e : sm_event) : M session_context unit :=
  let* n := gets num_sm_resps_ in
  modify (set_num_sm_resps (i32 (n + 1))) ;;;
  if negb (ev_no_error e) then raise Thrown else
  match ev_type e with
  | kConnected | kDisconnected =>
      let* vec := gets session_num_vec_ in
      if (session_index (ev_session e) vec <? length vec)%nat then ret tt else raise Thrown
  | _ => raise Thrown
  end.

(** The split thread has its own copy. *)
Definition st_basic_sm_handler (e : sm_event) : M session_context unit := client_basic_sm_handler e.

(** ** Opening the sessions *)

Definition server_uri (server_list : option (list (option bytes))) (i : nat) : outcome bytes :=
  match server_list with
  | None => Fault NullDeref
  | Some l =>
      match l !! i with
      | None => Fault OutOfBounds
      | Some None => Fault NullDeref
      | Some (Some uri) => Done uri
      end
  end.

Definition lift {S A} (o : outcome A) : M S A := match o with Done a => ret a | Fault f => raise f end.

Section Loops.
Context (server_list : option (list (option bytes))) (fg : nat).

(** The inner loop from [j] on, [n] turns. *)
Fixpoint connect_threads (i j n : nat) : M session_context unit :=
  match n with
  | O => ret tt
  | S n' =>
      let* uri := lift (server_uri server_list i) in
      let session_id := (i * fg + j)%nat in
      let* vec := gets session_num_vec_ in
      let* num := on_rpc (create_session uri (u8 (Z.of_nat j))) in
      (if (session_id <? length vec)%nat then modify (set_session_num_vec (<[session_id := num]> vec)) else raise OutOfBounds) ;;;
      connect_threads i (S j) n'
  end.

Fixpoint connect_servers (i n : nat) : M session_context unit :=
  match n with
  | O => ret tt
  | S n' => connect_threads i 0 fg ;;; connect_servers (S i) n'
  end.

(** [p_assert(false, "erpc not connected")] unless every session of server [i] is connected. *)
Fixpoint check_threads (i j n : nat) : M session_context unit :=
  match n with
  | O => ret tt
  | S n' =>
      let* c := gets (fun c => c) in
      match session_num_vec_ c !! (i * fg + j)%nat with
      | None => raise OutOfBounds
      | Some num => p_assert (is_connected num (rpc_ c)) ;;; check_threads i (S j) n'
      end
  end.

Fixpoint check_servers (i n : nat) : M session_context unit :=
  match n with
  | O => ret tt
  | S n' => check_threads i 0 fg ;;; check_servers (S i) n'
  end.

End Loops.

Fixpoint handle_all (handler : sm_event -> M session_context unit) (evs : list sm_event) : M session_context unit :=
  match evs with
  | [] => ret tt
  | e :: evs' => handler e ;;; handle_all handler evs'
  end.

(** [while(num_sm_resps_ != total) rpc_->run_event_loop_once();] *)
Fixpoint wait_sessions (fuel : nat) (handler : sm_event -> M session_context unit) (total : Z) : M session_context unit :=
  match fuel with
  | O => raise OutOfFuel
  | S fuel' =>
      let* n := gets num_sm_resps_ in
      if n =? total then ret tt else
      let* evs := on_rpc run_event_loop_once in
      handle_all handler evs ;;; wait_sessions fuel' handler total
  end.

(** The windows, each with a request and a response buffer. *)
Fixpoint alloc_req_resp_msg_buffers (n : nat) : M session_context (list (bytes * bytes)) :=
  match n with
  | O => ret []
  | S n' =>
      let* req := on_rpc (alloc_msg_buffer_or_die sizeof_wire_req) in
      let* resp := on_rpc (alloc_msg_buffer_or_die sizeof_wire_resp) in
      match req, resp with
      | Some req, Some resp => let* l := alloc_req_resp_msg_buffers n' in ret ((req, resp) :: l)
      | _, _ => raise Thrown
      end
  end.

(** Sessions to every thread of every server.  [resize] to a negative number throws. *)
Definition connect_all (fuel : nat) (handler : sm_event -> M session_context unit)
    (server_list : option (list (option bytes))) (num_servers server_fg_threads total : Z)
  : M session_context (list (bytes * bytes)) :=
  let fg := Z.to_nat server_fg_threads in
  if total <? 0 then raise Thrown else
  modify (set_session_num_vec (repeat 0 (Z.to_nat total))) ;;;
  connect_servers server_list fg 0 (Z.to_nat num_servers) ;;;
  wait_sessions fuel handler total ;;;
  check_servers fg 0 (Z.to_nat num_servers) ;;;
  alloc_req_resp_msg_buffers MAX_MSG_BUF_WINDOW.

(** The constructor of [RpcClient] and the start of [split_region_thread], from the fresh eRPC
    object of the thread. *)
Definition RpcClient_new (fuel : nat) (server_list : option (list (option bytes)))
    (num_servers server_fg_threads total_servers : Z) : M session_context (list (bytes * bytes)) :=
  connect_all fuel client_basic_sm_handler server_list num_servers server_fg_threads total_servers.

Definition split_thread_sessions (fuel : nat) (server_list : option (list (option bytes)))
    (num_servers server_fg_threads : Z) : M session_context (list (bytes * bytes)) :=
  connect_all fuel st_basic_sm_handler server_list num_servers server_fg_threads
    (i32 (num_servers * server_fg_threads)).

Definition new_context (r : Rpc) : session_context :=
  {| num_sm_resps_ := 0; session_num_vec_ := []; rpc_ := r |}.

End Sessions.

(** ** Every session comes up *)

Lemma session_index_found n vec : n ∈ vec -> (session_index n vec < length vec)%nat.
Proof.
  intros Hn. unfold session_index.
  assert (forall l idx, Forall (fun i => i < length vec)%nat l ->
    (idx < length vec)%nat \/ Exists (fun i => vec !! i = Some n) l ->
    (fold_left (fun idx i => if bool_decide (vec !! i = Some n) then i else idx) l idx < length vec)%nat) as Hfold.
  { induction l as [|i l IH]; intros idx Hl H; cbn [fold_left].
    - destruct H as [H|H]; [exact H|inversion H].
    - apply Forall_cons in Hl as [Hi Hl]. apply IH; [exact Hl|]. case_bool_decide; [left; exact Hi|].
      rewrite Exists_cons in H. tauto. }
  apply Hfold; [apply Forall_forall; intros i Hi; apply elem_of_seq in Hi; lia|]. right.
  apply list_elem_of_lookup in Hn as [i Hi]. apply Exists_exists. exists i. split; [|exact Hi].
  apply elem_of_seq. apply lookup_lt_Some in Hi. lia.
Qed.

Lemma take_insert_S {A} k (x : A) l : (k < length l)%nat -> take (S k) (<[k := x]> l) = take k l ++ [x].
Proof.
  intros Hk. rewrite (take_S_r _ _ x) by (apply list_lookup_insert_eq, Hk). rewrite take_insert_ge by lia. reflexivity.
Qed.

(** The threads in the order in which sessions to them are opened. *)
Definition targets (uris : list bytes) (fg : nat) : list (bytes * Z) :=
  mjoin (map (fun uri => map (fun j => (uri, Z.of_nat j)) (seq 0 fg)) uris).

Lemma targets_cons uri uris fg : targets (uri :: uris) fg = map (fun j => (uri, Z.of_nat j)) (seq 0 fg) ++ targets uris fg.
Proof. reflexivity. Qed.

Lemma targets_lookup uris fg i j uri : uris !! i = Some uri -> (j < fg)%nat -> targets uris fg !! (i * fg + j)%nat = Some (uri, Z.of_nat j).
Proof.
  revert i. induction uris as [|u uris IH]; intros [|i] Hi Hj; try discriminate Hi; rewrite targets_cons.
  - injection Hi as ->. cbn. rewrite lookup_app_l by (rewrite length_map, length_seq; exact Hj). rewrite list_lookup_fmap, lookup_seq_lt by exact Hj. reflexivity.
  - rewrite lookup_app_r by (rewrite length_map, length_seq; lia). rewrite length_map, length_seq. replace (S i * fg + j - fg)%nat with (i * fg + j)%nat by lia.
    apply IH; [exact Hi|exact Hj].
Qed.

Lemma targets_length uris fg : length (targets uris fg) = (length uris * fg)%nat.
Proof. induction uris as [|u uris IH]; [reflexivity|]. rewrite targets_cons, length_app, length_map, length_seq, IH. reflexivity. Qed.

Section Connected.
Context {E : Erpc} {EL : ErpcLaws E}.

Lemma wp_on_rpc {A} (f : Rpc -> A * Rpc) (Q : A -> session_context -> Prop) c :
  Q (fst (f (rpc_ c))) (set_rpc (snd (f (rpc_ c))) c) -> wp (on_rpc f) Q c.
Proof.
  intros H. apply wp_bind, wp_gets. destruct (f (rpc_ c)) as [a r]. apply wp_bind, wp_modify, wp_ret, H.
Qed.

Context (uris : list bytes) (fg : nat).
Context (Hfg : (fg <= 256)%nat).
Local Abbreviation N := (length uris * fg)%nat.
Local Abbreviation servers := (Some (map Some uris ++ [None])).

(** The first [k] sessions are open and none is reported. *)
Record opened (k : nat) (c : session_context) : Prop := {
  op_none : num_sm_resps_ c = 0;
  op_length : length (session_num_vec_ c) = N;
  op_unique : NoDup (take k (session_num_vec_ c));
  op_known : Forall (fun n => is_Some (endpoint (rpc_ c) n)) (take k (session_num_vec_ c));
  op_pending : pending (rpc_ c) ≡ₚ take k (session_num_vec_ c);
  op_can_open : can_open (rpc_ c) (drop k (targets uris fg));
  op_leads i j uri : uris !! i = Some uri -> (j < fg)%nat -> (i * fg + j < k)%nat ->
    exists n, session_num_vec_ c !! (i * fg + j)%nat = Some n /\ endpoint (rpc_ c) n = Some (uri, Z.of_nat j)
}.

Lemma opened_step i j uri k c n r' :
  uris !! i = Some uri -> (j < fg)%nat -> k = (i * fg + j)%nat -> opened k c ->
  create_session uri (u8 (Z.of_nat j)) (rpc_ c) = (n, r') ->
  (k < length (session_num_vec_ c))%nat /\
  opened (S k) (set_session_num_vec (<[k := n]> (session_num_vec_ c)) (set_rpc r' c)).
Proof.
  intros Hi Hj Hk Ho Hc. pose proof (lookup_lt_Some _ _ _ Hi) as Hlt.
  assert (k < length (session_num_vec_ c))%nat as Hin by (rewrite (op_length _ _ Ho); nia).
  assert (u8 (Z.of_nat j) = Z.of_nat j) as Eu by (apply Z.mod_small; lia). rewrite Eu in Hc.
  destruct Ho as [O1 O2 O3 O4 O5 Oa O6]. rewrite (drop_S _ (uri, Z.of_nat j)) in Oa by (rewrite Hk; apply targets_lookup; assumption).
  pose proof (create_law uri (Z.of_nat j) _ (rpc_ c) Oa) as Hlaw.
  rewrite Hc in Hlaw. destruct Hlaw as (Hacc & Hnew & Hend & Hold & Hp & _).
  split; [exact Hin|]. split; cbn [set_session_num_vec set_rpc num_sm_resps_ session_num_vec_ rpc_];
    rewrite ?take_insert_S by exact Hin.
  - exact O1.
  - rewrite length_insert. exact O2.
  - apply NoDup_app. split; [exact O3|]. split; [|apply NoDup_singleton]. intros x Hx ->%list_elem_of_singleton.
    rewrite Forall_forall in O4. destruct (O4 _ Hx). congruence.
  - apply Forall_app. split; [|repeat constructor; eauto]. eapply Forall_impl; [exact O4|]. intros m Hm. cbn in Hm |- *.
    destruct (decide (m = n)) as [->|Hne]; [eauto|]. rewrite Hold by exact Hne. exact Hm.
  - rewrite Hp, O5. apply Permutation_cons_append.
  - exact Hacc.
  - intros i' j' uri' Hi' Hj' Hlt'. destruct (decide (i' * fg + j' = k)%nat) as [Ek|Hne].
    + assert (i' = i) as -> by nia. assert (j' = j) as -> by lia. exists n. rewrite Ek.
      split; [apply list_lookup_insert_eq, Hin|]. congruence.
    + destruct (O6 i' j' uri' Hi' Hj' ltac:(lia)) as (m & Hm & He). exists m.
      rewrite list_lookup_insert_ne by congruence. split; [exact Hm|]. rewrite Hold; [exact He|]. intros ->. congruence.
Qed.

Lemma uri_of i uri : uris !! i = Some uri -> server_uri servers i = Done uri.
Proof.
  intros Hi. unfold server_uri. pose proof (lookup_lt_Some _ _ _ Hi) as Hlt.
  rewrite lookup_app_l by (rewrite length_map; exact Hlt). rewrite list_lookup_fmap, Hi. reflexivity.
Qed.

Lemma wp_connect_threads i uri n : forall j c,
  uris !! i = Some uri -> (j + n = fg)%nat -> opened (i * fg + j) c ->
  wp (connect_threads servers fg i j n) (fun _ c' => opened (i * fg + fg) c') c.
Proof.
  induction n as [|n IH]; intros j c Hi Hj Ho; cbn [connect_threads].
  - apply wp_ret. replace fg with j at 2 by lia. exact Ho.
  - apply wp_bind. rewrite (uri_of _ _ Hi). apply wp_ret. apply wp_bind, wp_gets. apply wp_bind, wp_on_rpc.
    destruct (create_session uri (u8 (Z.of_nat j)) (rpc_ c)) as [num r'] eqn:Ec. cbn [fst snd].
    destruct (opened_step i j uri _ c num r' Hi ltac:(lia) eq_refl Ho Ec) as [Hk Ho'].
    apply wp_bind. apply Nat.ltb_lt in Hk. rewrite Hk. apply wp_modify. apply IH; [exact Hi|lia|].
    rewrite Nat.add_succ_r. exact Ho'.
Qed.

Lemma wp_connect_servers n : forall i c,
  (i + n = length uris)%nat -> opened (i * fg) c ->
  wp (connect_servers servers fg i n) (fun _ c' => opened N c') c.
Proof.
  induction n as [|n IH]; intros i c Hi Ho; cbn [connect_servers].
  - apply wp_ret. replace (length uris) with i by lia. exact Ho.
  - destruct (lookup_lt_is_Some_2 uris i) as [uri Hu]; [lia|]. apply wp_bind.
    eapply wp_mono; [apply (wp_connect_threads i uri fg 0); [exact Hu|reflexivity|rewrite Nat.add_0_r; exact Ho]|].
    intros [] c' Ho'. apply IH; [lia|]. replace (S i * fg)%nat with (i * fg + fg)%nat by lia. exact Ho'.
Qed.

(** The sessions that are not [pending] any more are connected, and counted. *)
Record waiting (c0 c : session_context) : Prop := {
  wa_vec : session_num_vec_ c = session_num_vec_ c0;
  wa_endpoint n : endpoint (rpc_ c) n = endpoint (rpc_ c0) n;
  wa_can_open : can_open (rpc_ c) [];
  wa_count : num_sm_resps_ c + Z.of_nat (length (pending (rpc_ c))) = Z.of_nat (length (session_num_vec_ c0));
  wa_pending n : n ∈ pending (rpc_ c) -> n ∈ session_num_vec_ c0;
  wa_connected n : n ∈ session_num_vec_ c0 -> n ∈ pending (rpc_ c) \/ is_connected n (rpc_ c) = true
}.

Lemma opened_waiting c : opened N c -> waiting c c.
Proof.
  intros [O1 O2 O3 O4 O5 Oa O6]. rewrite take_ge in O5 by lia. split; auto.
  - rewrite drop_ge in Oa by (rewrite targets_length; lia). exact Oa.
  - rewrite O1, O5. reflexivity.
  - intros n. rewrite O5. auto.
  - intros n. rewrite O5. auto.
Qed.

(** The handler accepts the calls of one turn. *)
Lemma wp_handle_all evs : forall c,
  Forall (fun e => ev_type e = kConnected /\ ev_no_error e = true /\ ev_session e ∈ session_num_vec_ c) evs ->
  0 <= num_sm_resps_ c -> num_sm_resps_ c + Z.of_nat (length evs) < 2 ^ 31 ->
  wp (handle_all client_basic_sm_handler evs)
    (fun _ c' => c' = set_num_sm_resps (num_sm_resps_ c + Z.of_nat (length evs)) c) c.
Proof.
  induction evs as [|e evs IH]; intros c Hevs H0 Hn; cbn [handle_all length] in *.
  { apply wp_ret. rewrite Z.add_0_r. destruct c; reflexivity. }
  apply Forall_cons in Hevs as [(Ht & He & Hs) Hevs]. apply wp_bind, wp_bind, wp_gets, wp_bind, wp_modify.
  rewrite He, Ht. cbn [negb]. apply wp_bind, wp_gets. apply session_index_found, Nat.ltb_lt in Hs.
  cbn [set_num_sm_resps session_num_vec_]. rewrite Hs. apply wp_ret.
  rewrite i32_small by (unfold is_i32; lia).
  eapply wp_mono; [apply IH; cbn [set_num_sm_resps num_sm_resps_ session_num_vec_]; [exact Hevs|lia|lia]|].
  intros [] c' ->. unfold set_num_sm_resps. cbn [num_sm_resps_ session_num_vec_ rpc_]. f_equal. lia.
Qed.

(** One turn of the event loop. *)
Lemma wp_turn c0 c : Z.of_nat (length (session_num_vec_ c0)) < 2 ^ 31 -> 0 <= num_sm_resps_ c -> waiting c0 c ->
  wp (let* evs := on_rpc run_event_loop_once in handle_all client_basic_sm_handler evs)%M
    (fun _ c' => waiting c0 c' /\ 0 <= num_sm_resps_ c' /\
       (pending (rpc_ c) = [] \/ length (pending (rpc_ c')) < length (pending (rpc_ c)) \/
        length (pending (rpc_ c')) = length (pending (rpc_ c)) /\ patience (rpc_ c') < patience (rpc_ c))%nat) c.
Proof.
  intros Hsize H0 [W1 W2 Wa W3 W4 W5]. apply wp_bind, wp_on_rpc. pose proof (loop_law [] (rpc_ c) Wa) as Hlaw.
  destruct (run_event_loop_once (rpc_ c)) as [evs r']. destruct Hlaw as (Hacc & Hp & He & Hevs & Hkeep & Hprog). cbn [fst snd].
  assert (length (pending (rpc_ c)) = length evs + length (pending r'))%nat as Hlen
    by (rewrite Hp, length_app, length_map; reflexivity).
  eapply wp_mono; [apply wp_handle_all; cbn [set_rpc num_sm_resps_ session_num_vec_]; [|lia|lia]|].
  { eapply Forall_forall. intros e Hin. rewrite Forall_forall in Hevs. destruct (Hevs e Hin) as (? & ? & _).
    split; [assumption|]. split; [assumption|]. rewrite W1. apply W4. rewrite Hp. apply elem_of_app. left.
    apply elem_of_map_intro, Hin. }
  intros [] c' ->. cbn [set_num_sm_resps set_rpc num_sm_resps_ session_num_vec_ rpc_]. split.
  - split; cbn [set_num_sm_resps set_rpc num_sm_resps_ session_num_vec_ rpc_]; [exact W1|intros n; rewrite He; apply W2|exact Hacc|lia| |].
    + intros n Hn. apply W4. rewrite Hp. apply elem_of_app. right. exact Hn.
    + intros n Hn. destruct (W5 n Hn) as [H|H]; [|right; apply Hkeep, H]. rewrite Hp in H.
      apply elem_of_app in H as [H|H]; [right|left; exact H]. apply list_elem_of_In, in_map_iff in H as (e & <- & H).
      rewrite Forall_forall in Hevs. apply Hevs, list_elem_of_In, H.
  - split; [lia|]. destruct Hprog as [H|[H|H]]; [left; exact H| |].
    + right. left. destruct evs; [contradiction|]. cbn [length] in Hlen. lia.
    + destruct evs; [right; right|right; left]; cbn [length] in Hlen; lia.
Qed.

(** The loop ends when every session has been reported. *)
Lemma wait_ends c0 : Z.of_nat (length (session_num_vec_ c0)) < 2 ^ 31 -> forall p q c,
  (length (pending (rpc_ c)) <= p)%nat -> (patience (rpc_ c) <= q)%nat -> 0 <= num_sm_resps_ c -> waiting c0 c ->
  exists fuel0 c', waiting c0 c' /\ num_sm_resps_ c' = Z.of_nat (length (session_num_vec_ c0)) /\
    forall fuel, (fuel0 <= fuel)%nat ->
      wait_sessions fuel client_basic_sm_handler (Z.of_nat (length (session_num_vec_ c0))) c = Done (tt, c').
Proof.
  intros Hsize p. induction (lt_wf p) as [p _ IHp]. intros q. induction (lt_wf q) as [q _ IHq]. intros c Hp Hq H0 Hw.
  destruct (decide (num_sm_resps_ c = Z.of_nat (length (session_num_vec_ c0)))) as [Eq|Hne].
  { exists 1%nat, c. split; [exact Hw|]. split; [exact Eq|]. intros [|fuel] Hf; [lia|].
    cbn [wait_sessions]. unfold bind, gets. rewrite Eq, Z.eqb_refl. reflexivity. }
  pose proof (wp_turn c0 c Hsize H0 Hw) as Hwp. apply wp_Done in Hwp as ([] & c1 & Hrun & Hw1 & H1 & Hprog).
  assert (pending (rpc_ c) <> []) as Hpend.
  { intros Hnil. apply Hne. pose proof (wa_count _ _ Hw) as Hc. rewrite Hnil in Hc. cbn in Hc. lia. }
  assert (exists fuel0 c', waiting c0 c' /\ num_sm_resps_ c' = Z.of_nat (length (session_num_vec_ c0)) /\
    forall fuel, (fuel0 <= fuel)%nat ->
      wait_sessions fuel client_basic_sm_handler (Z.of_nat (length (session_num_vec_ c0))) c1 = Done (tt, c'))
    as (fuel0 & c' & Hw' & Hn' & Hrest).
  { destruct Hprog as [Hnil|[Hlt|[He Hlt]]]; [contradiction| |].
    - eapply (IHp (length (pending (rpc_ c1)))); [lia|reflexivity|reflexivity|assumption..].
    - eapply (IHq (patience (rpc_ c1))); [lia|lia|reflexivity|assumption..]. }
  exists (S fuel0), c'. split; [exact Hw'|]. split; [exact Hn'|]. intros [|fuel] Hf; [lia|]. cbn [wait_sessions].
  apply Z.eqb_neq in Hne. unfold bind in Hrun |- *. unfold gets at 1. rewrite Hne.
  destruct (on_rpc run_event_loop_once c) as [[evs c2]|f]; [|discriminate]. rewrite Hrun. apply Hrest. lia.
Qed.

Lemma wp_check_threads i n : forall j c (Q : unit -> session_context -> Prop),
  (i < length uris)%nat -> (j + n = fg)%nat -> length (session_num_vec_ c) = N ->
  (forall m, m ∈ session_num_vec_ c -> is_connected m (rpc_ c) = true) -> Q tt c -> wp (check_threads fg i j n) Q c.
Proof.
  induction n as [|n IH]; intros j c Q Hi Hj Hl Hc HQ; cbn [check_threads]; [apply wp_ret, HQ|].
  destruct (lookup_lt_is_Some_2 (session_num_vec_ c) (i * fg + j)) as [m Hm]; [rewrite Hl; nia|].
  apply wp_bind, wp_gets. rewrite Hm. apply wp_bind, wp_assert; [apply Hc, (list_elem_of_lookup_2 _ _ _ Hm)|].
  apply IH; auto. lia.
Qed.

Lemma wp_check_servers n : forall i c (Q : unit -> session_context -> Prop),
  (i + n = length uris)%nat -> length (session_num_vec_ c) = N ->
  (forall m, m ∈ session_num_vec_ c -> is_connected m (rpc_ c) = true) -> Q tt c -> wp (check_servers fg i n) Q c.
Proof.
  induction n as [|n IH]; intros i c Q Hi Hl Hc HQ; cbn [check_servers]; [apply wp_ret, HQ|].
  apply wp_bind, wp_check_threads; auto; [lia|]. apply IH; auto. lia.
Qed.

Context (Hmemory : forall size r, is_Some (fst (alloc_msg_buffer_or_die size r))).

(** Allocating keeps the sessions. *)
Definition same_sessions (c c' : session_context) : Prop :=
  num_sm_resps_ c' = num_sm_resps_ c /\ session_num_vec_ c' = session_num_vec_ c /\
  can_open (rpc_ c') [] /\ (forall n, endpoint (rpc_ c') n = endpoint (rpc_ c) n) /\
  forall n, is_connected n (rpc_ c) = true -> is_connected n (rpc_ c') = true.

(** A buffer of this size that eRPC returned. *)
Definition allocated (size : nat) (m : bytes) : Prop :=
  length m = size /\ exists r, fst (alloc_msg_buffer_or_die size r) = Some m.

Lemma wp_alloc_buffer size c (Q : option bytes -> session_context -> Prop) : can_open (rpc_ c) [] ->
  (forall m c', allocated size m -> same_sessions c c' -> Q (Some m) c') -> wp (on_rpc (alloc_msg_buffer_or_die size)) Q c.
Proof.
  intros Hacc HQ. apply wp_on_rpc. pose proof (alloc_law size [] (rpc_ c) Hacc) as Hlaw. destruct (Hmemory size (rpc_ c)) as [m Hm].
  assert (exists r, fst (alloc_msg_buffer_or_die size r) = Some m) as Hfrom by eauto.
  destruct (alloc_msg_buffer_or_die size (rpc_ c)) as [b r']. cbn [fst snd] in *. subst b. destruct Hlaw as (Ha & Hl & He & Hc).
  apply HQ; [split; [apply Hl; reflexivity|exact Hfrom]|]. repeat split; auto.
Qed.

Definition window_ok (w : bytes * bytes) : Prop := allocated sizeof_wire_req (fst w) /\ allocated sizeof_wire_resp (snd w).

Lemma wp_alloc_windows n : forall c (Q : list (bytes * bytes) -> session_context -> Prop), can_open (rpc_ c) [] ->
  (forall l c', length l = n -> Forall window_ok l -> same_sessions c c' -> Q l c') ->
  wp (alloc_req_resp_msg_buffers n) Q c.
Proof.
  induction n as [|n IH]; intros c Q Hacc HQ; cbn [alloc_req_resp_msg_buffers].
  { apply wp_ret, HQ; [reflexivity|constructor|repeat split; auto]. }
  apply wp_bind, wp_alloc_buffer; [exact Hacc|]. intros m1 c1 Hm1 S1. apply wp_bind, wp_alloc_buffer; [apply S1|]. intros m2 c2 Hm2 S2. apply wp_bind, IH; [apply S2|].
  intros l c3 Hl Hok S3. apply wp_ret, HQ; [cbn; lia|constructor; [split; assumption|exact Hok]|].
  unfold same_sessions in *. destruct S1 as (? & ? & ? & E1 & ?), S2 as (? & ? & ? & E2 & ?), S3 as (? & ? & ? & E3 & ?).
  repeat split; try congruence. auto.
Qed.

Lemma connect_all_runs r : can_open r (targets uris fg) -> pending r = [] -> Z.of_nat N < 2 ^ 31 ->
  exists fuel0 windows c', (forall fuel, (fuel0 <= fuel)%nat ->
      connect_all fuel client_basic_sm_handler servers (Z.of_nat (length uris)) (Z.of_nat fg) (Z.of_nat N) (new_context r)
      = Done (windows, c')) /\
    length windows = MAX_MSG_BUF_WINDOW /\ Forall window_ok windows /\
    length (session_num_vec_ c') = N /\ NoDup (session_num_vec_ c') /\ num_sm_resps_ c' = Z.of_nat N /\
    (forall i j uri, uris !! i = Some uri -> (j < fg)%nat -> exists n,
       session_num_vec_ c' !! (i * fg + j)%nat = Some n /\ endpoint (rpc_ c') n = Some (uri, Z.of_nat j) /\
       is_connected n (rpc_ c') = true) /\ can_open (rpc_ c') [].
Proof.
  intros Hacc Hfresh Hsize. set (c1 := set_session_num_vec (repeat 0 N) (new_context r)).
  assert (opened 0 c1) as Ho1.
  { split; cbn; try (rewrite take_0; constructor); [reflexivity|apply repeat_length|rewrite Hfresh; reflexivity|exact Hacc|lia]. }
  pose proof (wp_connect_servers (length uris) 0 c1 eq_refl Ho1) as Hwp.
  apply wp_Done in Hwp as ([] & c2 & Hconn & Ho2). pose proof (op_length _ _ Ho2) as Hl.
  pose proof (op_unique _ _ Ho2) as Hnd. rewrite take_ge in Hnd by lia.
  destruct (wait_ends c2) with (p := length (pending (rpc_ c2))) (q := patience (rpc_ c2)) (c := c2)
    as (fuel0 & c3 & Hw & Hcount & Hwait);
    [rewrite Hl; exact Hsize|reflexivity|reflexivity|rewrite (op_none _ _ Ho2); lia|apply opened_waiting, Ho2|].
  rewrite Hl in Hcount, Hwait. destruct Hw as [W1 W2 Wa W3 W4 W5].
  assert (forall m, m ∈ session_num_vec_ c3 -> is_connected m (rpc_ c3) = true) as Hall.
  { intros m Hm. rewrite W1 in Hm. destruct (W5 m Hm) as [H|H]; [|exact H].
    assert (pending (rpc_ c3) = []) as Hnil by (apply length_zero_iff_nil; lia). rewrite Hnil in H. inversion H. }
  assert (wp (check_servers fg 0 (length uris) ;;; alloc_req_resp_msg_buffers MAX_MSG_BUF_WINDOW)%M
    (fun l c' => length l = MAX_MSG_BUF_WINDOW /\ Forall window_ok l /\ same_sessions c3 c') c3) as Hwp.
  { apply wp_bind, wp_check_servers; [reflexivity|congruence|exact Hall|]. apply wp_alloc_windows; auto. }
  apply wp_Done in Hwp as (windows & c' & Hfin & Hlw & Hok & (E1 & E2 & Eo & E3 & E4)). exists fuel0, windows, c'. split.
  - intros fuel Hf. unfold connect_all. destruct (Z.ltb_spec (Z.of_nat N) 0); [lia|]. rewrite !Nat2Z.id.
    unfold bind at 1, modify. fold c1. unfold bind at 1. rewrite Hconn. unfold bind at 1. rewrite Hwait by exact Hf. exact Hfin.
  - do 2 (split; [assumption|]). rewrite E1, E2, W1. do 3 (split; [congruence|]). split; [|exact Eo].
    intros i j uri Hi Hj. destruct (op_leads _ _ Ho2 i j uri Hi Hj) as (n & Hn & He).
    { apply lookup_lt_Some in Hi. nia. }
    exists n. split; [exact Hn|]. split; [rewrite E3, W2; exact He|]. apply E4, Hall. rewrite W1. apply (list_elem_of_lookup_2 _ _ _ Hn).
Qed.

(** C25: When every thread of every listed server listens and can take a session, a fresh client and
    the split thread of a server finish opening their sessions after some number of turns of the event
    loop: no exception or assertion, one session per thread, all different and connected, the one at the index
    [server * threads + thread] leading to that thread, and eight windows of full size. *)
Theorem sessions_complete r (Hopen : can_open r (targets uris fg)) (Hfresh : pending r = []) (Hsize : Z.of_nat N < 2 ^ 31) :
  exists fuel0 windows c', (forall fuel, (fuel0 <= fuel)%nat ->
      RpcClient_new fuel servers (Z.of_nat (length uris)) (Z.of_nat fg) (Z.of_nat N) (new_context r) = Done (windows, c') /\
      split_thread_sessions fuel servers (Z.of_nat (length uris)) (Z.of_nat fg) (new_context r) = Done (windows, c')) /\
    length windows = MAX_MSG_BUF_WINDOW /\ Forall window_ok windows /\
    length (session_num_vec_ c') = N /\ NoDup (session_num_vec_ c') /\ num_sm_resps_ c' = Z.of_nat N /\
    (forall i j uri, uris !! i = Some uri -> (j < fg)%nat -> exists n,
       session_num_vec_ c' !! (i * fg + j)%nat = Some n /\ endpoint (rpc_ c') n = Some (uri, Z.of_nat j) /\
       is_connected n (rpc_ c') = true).
Proof.
  destruct connect_all_runs with (r := r) as (fuel0 & windows & c' & Hrun & H1 & H2 & H3 & H4 & H5 & H6 & _); [assumption..|].
  exists fuel0, windows, c'. split; [|auto 10]. intros fuel Hf. split; [apply Hrun, Hf|].
  unfold split_thread_sessions. rewrite <- Nat2Z.inj_mul, i32_small by (unfold is_i32; lia). apply Hrun, Hf.
Qed.

End Connected.

(** An eRPC that reports one session every second turn. *)
Record toy_rpc := {
  t_done : list (bytes * Z);
  t_wait : list (bytes * Z);
  t_ready : bool
}.

Definition toy_number (n : nat) : sm_event := {| ev_session := Z.of_nat n; ev_type := kConnected; ev_no_error := true |}.

Definition toy_loop (r : toy_rpc) : list sm_event * toy_rpc :=
  match t_wait r with
  | [] => ([], r)
  | e :: l =>
      if t_ready r
      then ([toy_number (length (t_done r))], {| t_done := t_done r ++ [e]; t_wait := l; t_ready := false |})
      else ([], {| t_done := t_done r; t_wait := e :: l; t_ready := true |})
  end.

Definition toy_erpc : Erpc :=
  {| Rpc := toy_rpc;
     create_session uri tid r := (Z.of_nat (length (t_done r ++ t_wait r)),
       {| t_done := t_done r; t_wait := t_wait r ++ [(uri, tid)]; t_ready := t_ready r |});
     run_event_loop_once := toy_loop;
     is_connected n r := (0 <=? n) && (n <? Z.of_nat (length (t_done r)));
     alloc_msg_buffer_or_die size r := (Some (repeat 0 size), r) |}.

Definition toy_endpoint (r : toy_rpc) (n : Z) : option (bytes * Z) :=
  if n <? 0 then None else (t_done r ++ t_wait r) !! Z.to_nat n.

Definition toy_pending (r : toy_rpc) : list Z := map Z.of_nat (seq (length (t_done r)) (length (t_wait r))).

Lemma toy_create uri tid (r : toy_rpc) :
  let n := Z.of_nat (length (t_done r ++ t_wait r)) in
  let r' := {| t_done := t_done r; t_wait := t_wait r ++ [(uri, tid)]; t_ready := t_ready r |} in
  toy_endpoint r n = None /\ toy_endpoint r' n = Some (uri, tid) /\
  (forall m, m <> n -> toy_endpoint r' m = toy_endpoint r m) /\ toy_pending r' ≡ₚ n :: toy_pending r.
Proof.
  cbn zeta. unfold toy_endpoint, toy_pending. cbn [t_done t_wait]. rewrite app_assoc.
  destruct (Z.ltb_spec (Z.of_nat (length (t_done r ++ t_wait r))) 0) as [|_]; [lia|]. rewrite Nat2Z.id.
  split; [apply lookup_ge_None; lia|]. split; [rewrite lookup_app_r, Nat.sub_diag by lia; reflexivity|]. split.
  - intros m Hm. destruct (Z.ltb_spec m 0); [reflexivity|].
    destruct (decide (Z.to_nat m < length (t_done r ++ t_wait r))%nat); [apply lookup_app_l; assumption|].
    rewrite !lookup_ge_None_2; [reflexivity|lia|]. rewrite length_app. cbn. lia.
  - rewrite length_app, seq_app, map_app, Permutation_app_comm. cbn. rewrite length_app. reflexivity.
Qed.

Lemma toy_turn (r : toy_rpc) :
  let '(evs, r') := toy_loop r in
  toy_pending r ≡ₚ map ev_session evs ++ toy_pending r' /\ toy_endpoint r' = toy_endpoint r /\
  Forall (fun e => ev_type e = kConnected /\ ev_no_error e = true /\
            (0 <=? ev_session e) && (ev_session e <? Z.of_nat (length (t_done r'))) = true) evs /\
  (length (t_done r) <= length (t_done r'))%nat /\
  (toy_pending r = [] \/ evs <> [] \/ (if t_ready r' then 0 else 1) < (if t_ready r then 0 else 1))%nat.
Proof.
  destruct r as [d [|e l] [|]]; unfold toy_loop, toy_pending, toy_endpoint; cbn.
  1, 2: repeat split; auto.
  - rewrite length_app, Nat.add_1_r. cbn. rewrite <- app_assoc. repeat split; auto.
    apply Forall_singleton. do 2 (split; [reflexivity|]). cbn [toy_number ev_session].
    apply andb_true_iff. rewrite Z.leb_le, Z.ltb_lt. lia.
  - repeat split; auto.
Qed.

Definition toy_laws : ErpcLaws toy_erpc.
Proof.
  refine {| can_open := fun _ _ => True; endpoint := toy_endpoint : @Rpc toy_erpc -> _;
            pending := toy_pending : @Rpc toy_erpc -> _;
            patience := (fun r : toy_rpc => if t_ready r then 0 else 1)%nat : @Rpc toy_erpc -> nat |}.
  - intros uri tid l r _. cbn. destruct (toy_create uri tid r) as (H1 & H2 & H3 & H4). repeat split; auto.
  - intros l r _. cbn. pose proof (toy_turn r) as H. destruct (toy_loop r) as [evs r']. destruct H as (H1 & H2 & H3 & H4 & H5).
    repeat split; auto; [congruence|]. intros m Hm. apply andb_true_iff in Hm as [Ha Hb]. rewrite Ha. apply Z.ltb_lt in Hb. apply Z.ltb_lt. lia.
  - intros size l r _. cbn. repeat split; auto. intros m [= <-]. apply repeat_length.
Defined.

Lemma sessions_complete_witness :
  exists fuel0 windows c', (forall fuel, (fuel0 <= fuel)%nat ->
      @RpcClient_new toy_erpc fuel (Some [Some (text "a:1"); Some (text "b:1"); None]) 2 2 4
        (@new_context toy_erpc {| t_done := []; t_wait := []; t_ready := false |}) = Done (windows, c')) /\
    length windows = MAX_MSG_BUF_WINDOW.
Proof.
  destruct (@sessions_complete toy_erpc toy_laws [text "a:1"; text "b:1"] 2 ltac:(lia)
    (fun size r => ltac:(eauto)) {| t_done := []; t_wait := []; t_ready := false |} I eq_refl eq_refl)
    as (fuel0 & windows & c' & Hrun & Hw & _).
  exists fuel0, windows, c'. split; [|exact Hw]. intros fuel Hf. apply Hrun, Hf.
Defined.

(** Sixteen turns are enough here, and what a turn with an error does. *)
Lemma toy_connects :
  exists windows c, @RpcClient_new toy_erpc 16 (Some [Some (text "a:1"); Some (text "b:1"); None]) 2 2 4
    (@new_context toy_erpc {| t_done := []; t_wait := []; t_ready := false |}) = Done (windows, c) /\
  session_num_vec_ c = [0; 1; 2; 3].
Proof. eexists _, _. split; vm_compute; reflexivity. Qed.

Lemma failed_session_throws {E : Erpc} e c :
  ev_no_error e = false \/ ev_type e = kConnectFailed -> client_basic_sm_handler e c = Fault Thrown.
Proof.
  intros H. unfold client_basic_sm_handler, bind, gets, modify. destruct (ev_no_error e) eqn:He; [|reflexivity].
  destruct H as [H|H]; [discriminate|]. rewrite H. reflexivity.
Qed.

End Sessions.
