(* ===== verification/Startup.v ===== *)
(** * Starting servers and clients

    What runs before the first request: the identifiers handed out by memcached
    (src/include/util/memcached_tool.h), the configuration and the per-thread identifiers of a
    server (init_server_config and init_server_context in metafs_server.cc), and on the client the
    filter on the process and the context built once (preload.cc, init_client_ctx), with the
    sessions of Sessions.v. *)

From Stdlib Require Import ZArith Lia SpecFloat Ascii.
From stdpp Require Import base numbers list strings gmap.
From S2P Require Import Prelude DoubleArith Json JsonNum JsonText JsonItem Config ConfigTheorems Sessions.
Open Scope Z_scope.

Module Startup.
Export Config ConfigTheorems Sessions.

(** ** memcached *)

(** libmemcached: whether a server can be added to the list and pushed, and the atomic increment,
    which fails on a key that is not there. *)
Class Memcached := {
  service : Type;
  mc_add_server : option bytes -> Z -> bool;
  mc_increment : bytes -> Z -> service -> option Z * service
}.

Class MemcachedLaws (MC : Memcached) := {
  counter : service -> bytes -> option Z;
  increment_found s k n d : counter s k = Some n -> 0 <= n + d < 2 ^ 64 ->
    exists s', mc_increment k d s = (Some (n + d), s') /\ counter s' k = Some (n + d) /\
      forall k', k' <> k -> counter s' k' = counter s k'
}.

Section Startup.
Context `{MC : Memcached} (can_alloc : nat -> nat -> bool) (enough : nat -> bool).
Local Open Scope m_scope.

(** The address is copied to a field of 64 bytes. *)
Definition mt_create_ctx (ip : option bytes) (port : Z) : M service unit :=
  p_assert (mc_add_server ip port) ;;;
  if negb (enough 80) then raise NullDeref else
  match ip with
  | None => raise NullDeref
  | Some s => if (length (c_str s) <? 64)%nat then ret tt else raise OutOfBounds
  end.

Definition mt_incr (key : bytes) : M service Z :=
  let* val := (fun s => Done (mc_increment key 1 s)) in
  match val with
  | None => raise AssertFailed
  | Some v => p_assert (negb (v =? 0)) ;;; ret (i32 (i32 v - 1))
  end.

(** *** Values *)

(** The results of libmemcached that [mt_get] distinguishes. *)
Inductive memcached_return := MEMCACHED_SUCCESS | MEMCACHED_NOTFOUND | MEMCACHED_OTHER.

Section Values.
Context (memcached_set : bytes -> bytes -> service -> memcached_return * service)
        (memcached_get : bytes -> service -> option bytes * memcached_return).

(** [len] bytes are read from [value]; the arguments are C strings and buffers, null when [None]. *)
Definition mt_set (key value : option bytes) (len : Z) : M service unit :=
  match key, value with
  | Some k, Some v =>
      p_assert (0 <? len) ;;;
      if (length v <? Z.to_nat len)%nat then raise OutOfBounds else
      let* rc := (fun s => Done (memcached_set (c_str k) (take (Z.to_nat len) v) s)) in
      match rc with MEMCACHED_SUCCESS => ret tt | _ => raise AssertFailed end
  | _, _ => raise AssertFailed
  end.

(** The result, and what [*value] points to if it is asked for. *)
Definition mt_get (key : option bytes) : M service (Z * option bytes) :=
  match key with
  | None => raise AssertFailed
  | Some k =>
      let* r := (fun s => Done (memcached_get (c_str k) s, s)) in
      let '(val, rt) := r in
      match rt with
      | MEMCACHED_SUCCESS => ret (0, val)
      | MEMCACHED_NOTFOUND => ret (1, val)
      | MEMCACHED_OTHER => raise AssertFailed
      end
  end.

(** What was set is found, when the service keeps it. *)
Lemma mt_set_get k v len s :
  (forall key val s0, let '(rc, s1) := memcached_set key val s0 in rc = MEMCACHED_SUCCESS /\ memcached_get key s1 = (Some val, MEMCACHED_SUCCESS)) ->
  0 < len <= Z.of_nat (length v) ->
  exists s', mt_set (Some k) (Some v) len s = Done (tt, s') /\ mt_get (Some k) s' = Done ((0, Some (take (Z.to_nat len) v)), s').
Proof.
  intros Hkeep Hlen. specialize (Hkeep (c_str k) (take (Z.to_nat len) v) s). unfold mt_set, mt_get, bind, p_assert.
  destruct (Z.ltb_spec 0 len); [|lia]. cbn [ret]. destruct (Nat.ltb_spec (length v) (Z.to_nat len)); [lia|].
  destruct (memcached_set _ _ s) as [rc s1]. destruct Hkeep as [-> Hget]. exists s1. split; [reflexivity|]. rewrite Hget. reflexivity.
Qed.

End Values.

(** ** Servers *)

Definition with_id (n : Z) (c : server_config) : server_config :=
  {| id := n; local_ip := local_ip c; local_port := local_port c; num_servers := num_servers c;
     server_list := server_list c; server_fg_threads := server_fg_threads c;
     server_bg_threads := server_bg_threads c; metakv_pm_space := metakv_pm_space c;
     metakv_path := metakv_path c; rocksdb_path := rocksdb_path c; memcached_ip := memcached_ip c;
     memcached_port := memcached_port c |}.

(** [fn] is METAFS_SERVER_CONFIG in the environment. *)
Definition init_server_config (files : bytes -> option bytes) (fn : option bytes) : M service server_config :=
  let* s_cfg := lift (server_parse_config can_alloc enough files fn) in
  p_assert ((server_fg_threads s_cfg <=? 40) && (0 <? server_fg_threads s_cfg)) ;;;
  mt_create_ctx (memcached_ip s_cfg) (memcached_port s_cfg) ;;;
  let* n := mt_incr (text "SERVER_ID") in
  ret (with_id n s_cfg).

(** What [init_server_context] derives from the configuration and the number of the thread. *)
Record thread_names := {
  tn_global_id : Z;
  tn_metadb_path : bytes;
  tn_rocksdb_path : bytes
}.

(** A [std::string] from a null pointer throws. *)
Definition std_string (p : option bytes) : outcome bytes :=
  match p with Some s => Done (c_str s) | None => Fault Thrown end.

Definition server_thread_names (s_cfg : server_config) (thread_id : Z) : outcome thread_names :=
  let global_id := u64 (i32 (id s_cfg * server_fg_threads s_cfg) + thread_id) in
  let number := nat_text (u64 (i32 (Z.shiftl (id s_cfg) 8) + thread_id)) in
  match std_string (metakv_path s_cfg) with
  | Fault f => Fault f
  | Done metadb_path =>
      match std_string (rocksdb_path s_cfg) with
      | Fault f => Fault f
      | Done rocksdb_path =>
          Done {| tn_global_id := global_id;
                  tn_metadb_path := metadb_path ++ text "metafs_metakv_" ++ number;
                  tn_rocksdb_path := rocksdb_path ++ text "metafs_rocksdb_" ++ number |}
      end
  end.

(** ** Clients *)

Definition kUDPPort_Client : Z := 31855.

Section Client.
Context {E : Erpc}.

Record client_setup := {
  cs_cfg : client_config;
  cs_id : Z;
  cs_local_uri : bytes;
  cs_total_servers : Z;
  cs_windows : list (bytes * bytes);
  cs_sessions : session_context
}.

(** [init_client_ctx] up to the end of [METAFS_CLIENT->Init]; [fn] is METAFS_CLIENT_CONFIG and
    [new_rpc] the eRPC object on the address of the client.  The address is copied to a block of
    24 bytes. *)
Definition init_client_ctx (fuel : nat) (new_rpc : bytes -> Rpc) (files : bytes -> option bytes) (fn : option bytes)
  : M service client_setup :=
  let* c_cfg := lift (client_parse_config can_alloc enough files fn) in
  mt_create_ctx (c_memcached_ip c_cfg) (c_memcached_port c_cfg) ;;;
  let* n := mt_incr (text "CLIENT_ID") in
  if negb (enough 24) then raise NullDeref else
  let* ip := lift (std_string (c_local_ip c_cfg)) in
  let local_uri := ip ++ text ":" ++ int_text (i32 (kUDPPort_Client + n)) in
  if (24 <=? length local_uri)%nat then raise OutOfBounds else
  let total_servers := i32 (c_num_servers c_cfg * c_server_fg_threads c_cfg) in
  let* (windows, sessions) :=
    lift (RpcClient_new fuel (c_server_list c_cfg) (c_num_servers c_cfg) (c_server_fg_threads c_cfg) total_servers
            (new_context (new_rpc local_uri))) in
  ret {| cs_cfg := c_cfg; cs_id := n; cs_local_uri := local_uri; cs_total_servers := total_servers;
         cs_windows := windows; cs_sessions := sessions |}.

End Client.

End Startup.

(** ** The preloaded library *)

(** [cmdline[clen - flen - 1] != '/'] is tested only when there is such a character. *)
Definition cmdline_match (filter : option bytes) (cmdline : bytes) : bool :=
  match filter with
  | None => true
  | Some f =>
      let flen := length (c_str f) in
      let clen := length (c_str cmdline) in
      if (clen <? flen)%nat then false
      else if (flen <? clen)%nat && negb (default 0 (c_str cmdline !! (clen - flen - 1)%nat) =? chr "/") then false
      else strcmp (drop (clen - flen) (c_str cmdline)) f =? 0
  end.

(** The statics of [is_process_allowed], [pthread_once] and the hook point. *)
Record preload_state := {
  is_decided : bool;
  result : bool;
  inits : nat;
  hooked : bool
}.

Definition is_process_allowed (filter : option bytes) (cmdline : option bytes) (s : preload_state) : bool * preload_state :=
  if is_decided s then (result s, s) else
  match cmdline with
  | None => (false, s)
  | Some c =>
      let r := cmdline_match filter c in
      (r, {| is_decided := true; result := r; inits := inits s; hooked := hooked s |})
  end.

(** [inits] counts the calls of [init_client_ctx]; [pthread_once] makes at most one. *)
Definition preload (filter argv0 : option bytes) (s : preload_state) : preload_state :=
  let (allowed, s) := is_process_allowed filter argv0 s in
  if negb allowed then s else
  {| is_decided := is_decided s; result := result s;
     inits := if (inits s =? 0)%nat then 1%nat else inits s; hooked := true |}.

(** ** The filter *)

Lemma no_nul_drop n s : no_nul s -> no_nul (drop n s).
Proof. apply Forall_drop. Qed.

(** The command is the filter, or a path that ends in it. *)
Lemma cmdline_match_spec f c :
  cmdline_match (Some f) c = true <-> c_str c = c_str f \/ exists dir, c_str c = dir ++ chr "/" :: c_str f.
Proof.
  unfold cmdline_match, strcmp. rewrite (c_str_id (drop _ _)) by apply no_nul_drop, c_str_no_nul.
  rewrite strcmp_eq by (try apply no_nul_drop; apply c_str_no_nul). set (s := c_str c). set (t := c_str f).
  destruct (Nat.ltb_spec (length s) (length t)) as [Hlt|Hge].
  { split; [discriminate|]. intros [E|[dir E]]; apply (f_equal length) in E; rewrite ?length_app in E; cbn in E; lia. }
  destruct (Nat.ltb_spec (length t) (length s)) as [Hlt|Hle]; cbn [andb].
  2:{ replace (length s - length t)%nat with 0%nat by lia. rewrite drop_0, bool_decide_eq_true. split; [auto|].
      intros [E|[dir E]]; [exact E|]. apply (f_equal length) in E. rewrite length_app in E. cbn in E. lia. }
  destruct (lookup_lt_is_Some_2 s (length s - length t - 1)) as [x Hx]; [lia|]. rewrite Hx. change (default 0 (Some x)) with x.
  assert (s = take (length s - length t - 1) s ++ x :: drop (length s - length t) s) as Es.
  { replace (length s - length t)%nat with (S (length s - length t - 1)) at 2 by lia. symmetry. apply take_drop_middle, Hx. }
  destruct (Z.eqb_spec x (chr "/")) as [->|Hne]; cbn [negb].
  - rewrite bool_decide_eq_true. split.
    + intros E. right. rewrite E in Es. eauto.
    + intros [E|[dir E]]; [rewrite E in Hlt; lia|]. rewrite E, length_app. cbn [length].
      rewrite cons_middle, app_assoc. apply drop_app_length'. rewrite length_app. cbn. lia.
  - split; [discriminate|]. intros [E|[dir E]]; [rewrite E in Hlt; lia|]. exfalso. apply Hne.
    rewrite E, length_app in Hx. cbn [length] in Hx.
    replace (length dir + S (length t) - length t - 1)%nat with (length dir) in Hx by lia.
    rewrite lookup_app_r, Nat.sub_diag in Hx by lia. injection Hx as <-. reflexivity.
Qed.

Definition undecided : preload_state := {| is_decided := false; result := false; inits := 0; hooked := false |}.
Definition decided (r : bool) : preload_state :=
  {| is_decided := true; result := r; inits := if r then 1 else 0; hooked := r |}.

Lemma preload_calls filter calls :
  fold_left (fun s argv0 => preload filter argv0 s) calls undecided =
    match head (omap (fun a => a) calls) with None => undecided | Some c => decided (cmdline_match filter c) end.
Proof.
  induction calls as [|[c|] calls IH]; [reflexivity| |exact IH]. cbn [fold_left omap list_omap head].
  assert (forall a r, preload filter a (decided r) = decided r) as Hstay by (intros a [|]; reflexivity).
  assert (preload filter (Some c) undecided = decided (cmdline_match filter c)) as ->
    by (unfold preload; cbn; destruct (cmdline_match filter c); reflexivity).
  clear IH. induction calls as [|a calls IH]; [reflexivity|]. cbn [fold_left]. rewrite Hstay. exact IH.
Qed.

(** However often the library is loaded in a process, the first command line decides: the
    hooks are installed and the client's context is built, once, exactly when there is no filter or
    the command is the filter or a path that ends in it. *)
Theorem preload_once filter calls :
  let s := fold_left (fun s argv0 => preload filter argv0 s) calls undecided in
  inits s = (if hooked s then 1 else 0)%nat /\
  (hooked s = true <-> exists c, head (omap (fun a => a) calls) = Some c /\
     forall f, filter = Some f -> c_str c = c_str f \/ exists dir, c_str c = dir ++ chr "/" :: c_str f).
Proof.
  rewrite preload_calls. destruct (head _) as [c|]; cbn.
  2:{ split; [reflexivity|]. split; [discriminate|]. intros (c & [=] & _). }
  split; [reflexivity|]. destruct filter as [f|].
  - rewrite cmdline_match_spec. split.
    + intros H. exists c. split; [reflexivity|]. intros f' [= <-]. exact H.
    + intros (c' & [= <-] & H). apply H. reflexivity.
  - split; [|reflexivity]. intros _. exists c. split; [reflexivity|]. discriminate.
Qed.

(** ** Identifiers *)

Section Ids.
Context {MC : Memcached} {Laws : MemcachedLaws MC} (can_alloc : nat -> nat -> bool) (enough : nat -> bool).
Local Open Scope m_scope.

(** Server processes that start one after the other, each with its files and its environment. *)
Fixpoint start_all (l : list ((bytes -> option bytes) * option bytes)) : M service (list server_config) :=
  match l with
  | [] => ret []
  | (files, fn) :: l' =>
      let* c := init_server_config can_alloc enough files fn in
      let* cs := start_all l' in
      ret (c :: cs)
  end.

(** The configuration a process reads passes the checks of [init_server_config]. *)
Record startable (e : (bytes -> option bytes) * option bytes) (c : server_config) : Prop := {
  sa_parsed : server_parse_config can_alloc enough (fst e) (snd e) = Done c;
  sa_threads : 0 < server_fg_threads c <= 40;
  sa_server : mc_add_server (memcached_ip c) (memcached_port c) = true;
  sa_ip : exists ip, memcached_ip c = Some ip /\ (length (c_str ip) < 64)%nat
}.

Lemma wp_mt_incr key s n (Q : Z -> service -> Prop) :
  counter s key = Some n -> 0 <= n < 2 ^ 31 - 1 -> (forall s', counter s' key = Some (n + 1) -> Q n s') -> wp (mt_incr key) Q s.
Proof.
  intros Hc Hn HQ. destruct (increment_found s key n 1 Hc) as (s' & E & Hc' & _); [lia|].
  apply wp_bind. unfold wp at 1. rewrite E. apply wp_bind, wp_assert.
  { apply negb_true_iff, Z.eqb_neq. lia. }
  apply wp_ret.
  rewrite (i32_small (n + 1)) by (unfold is_i32; lia). rewrite i32_small by (unfold is_i32; lia).
  replace (n + 1 - 1) with n by lia. apply HQ, Hc'.
Qed.

Lemma wp_init_server_config e c s n (Q : server_config -> service -> Prop) :
  startable e c -> enough 80 = true -> counter s (text "SERVER_ID") = Some n -> 0 <= n < 2 ^ 31 - 1 ->
  (forall s', counter s' (text "SERVER_ID") = Some (n + 1) -> Q (with_id n c) s') ->
  wp (init_server_config can_alloc enough (fst e) (snd e)) Q s.
Proof.
  intros [Hp Ht Hs (ip & Hip & Hlen)] He Hc Hn HQ. unfold init_server_config. rewrite Hp.
  apply wp_bind, wp_ret. apply wp_bind, wp_assert.
  { apply andb_true_intro. split; [apply Z.leb_le|apply Z.ltb_lt]; lia. }
  apply wp_bind. unfold mt_create_ctx. rewrite Hs, He, Hip. apply wp_bind, wp_assert; [reflexivity|].
  apply Nat.ltb_lt in Hlen. cbn [negb]. rewrite Hlen. apply wp_ret. apply wp_bind. eapply wp_mt_incr; [exact Hc|exact Hn|].
  intros s' Hs'. apply wp_ret, HQ, Hs'.
Qed.

Lemma wp_start_all l cs : forall s n (Q : list server_config -> service -> Prop),
  Forall2 startable l cs -> enough 80 = true -> counter s (text "SERVER_ID") = Some n ->
  0 <= n -> n + Z.of_nat (length cs) < 2 ^ 31 ->
  (forall s', counter s' (text "SERVER_ID") = Some (n + Z.of_nat (length cs)) ->
     Q (imap (fun i c => with_id (n + Z.of_nat i) c) cs) s') ->
  wp (start_all l) Q s.
Proof.
  intros s n Q H. revert s n Q. induction H as [|e c l cs Hc H IH]; intros s n Q He Hs H0 Hn HQ.
  - apply wp_ret, HQ. rewrite Z.add_0_r. exact Hs.
  - destruct e as [files fn]. cbn [start_all]. cbn [length] in *. apply wp_bind.
    apply (wp_init_server_config (files, fn) c s n); [exact Hc|exact He|exact Hs|lia|]. intros s1 Hs1.
    apply wp_bind. apply (IH s1 (n + 1)); [exact He|exact Hs1|lia|lia|]. intros s2 Hs2. apply wp_ret.
    assert (imap (fun i c => with_id (n + Z.of_nat i) c) (c :: cs) =
      with_id n c :: imap (fun i c => with_id (n + 1 + Z.of_nat i) c) cs) as <-.
    { cbn. rewrite Z.add_0_r. f_equal. apply imap_ext. intros i x _. cbn. f_equal. lia. }
    apply HQ. rewrite Hs2. f_equal. lia.
Qed.

Lemma nat_text_inj m n : 0 <= m < max15 -> 0 <= n < max15 -> nat_text m = nat_text n -> m = n.
Proof.
  intros Hm Hn E. destruct (nat_text_spec m Hm) as (k & Em & _ & Hk). destruct (nat_text_spec n Hn) as (k' & En & _ & Hk').
  assert (decimal (nat_text m) = decimal (nat_text n)) as Hd by congruence. rewrite Em, En, !decimal_dec_digits in Hd by lia.
  rewrite !Z.mod_small in Hd by lia. exact Hd.
Qed.

(** The names of a thread, in numbers that fit. *)
Lemma thread_names_of c n tid mdir rdir :
  metakv_path c = Some mdir -> rocksdb_path c = Some rdir -> 0 < server_fg_threads c <= 40 ->
  0 <= n < 2 ^ 23 -> 0 <= tid < server_fg_threads c ->
  server_thread_names (with_id n c) tid = Done
    {| tn_global_id := n * server_fg_threads c + tid;
       tn_metadb_path := c_str mdir ++ text "metafs_metakv_" ++ nat_text (n * 256 + tid);
       tn_rocksdb_path := c_str rdir ++ text "metafs_rocksdb_" ++ nat_text (n * 256 + tid) |}.
Proof.
  intros Hm Hr Hf Hn Ht. unfold server_thread_names. cbn. rewrite Hm, Hr. cbn.
  rewrite Z.shiftl_mul_pow2 by lia. change (2 ^ 8) with 256.
  rewrite (i32_small (n * server_fg_threads c)), (i32_small (n * 256)) by (unfold is_i32; nia).
  rewrite !u64_small by (unfold is_u64; nia). reflexivity.
Qed.

Lemma Done_inj {A} (a b : A) : Done a = Done b -> a = b.
Proof. congruence. Qed.

Lemma pair_unique F i j i' j' : 0 <= j < F -> 0 <= j' < F -> i * F + j = i' * F + j' -> i = i' /\ j = j'.
Proof. intros Hj Hj' E. apply (Z.div_mod_unique F); [left; exact Hj..| |]; lia. Qed.

Lemma started_thread cs F i c j :
  0 < F <= 40 -> Forall (fun c => server_fg_threads c = F) cs ->
  Forall (fun c => is_Some (metakv_path c) /\ is_Some (rocksdb_path c)) cs -> Z.of_nat (length cs) <= 2 ^ 23 ->
  imap (fun i c => with_id (0 + Z.of_nat i) c) cs !! i = Some c -> 0 <= j < F ->
  0 <= Z.of_nat i < 2 ^ 23 /\ (i < length cs)%nat /\
  exists mdir rdir, metakv_path c = Some mdir /\ rocksdb_path c = Some rdir /\
    server_thread_names c j = Done
      {| tn_global_id := Z.of_nat i * F + j;
         tn_metadb_path := c_str mdir ++ text "metafs_metakv_" ++ nat_text (Z.of_nat i * 256 + j);
         tn_rocksdb_path := c_str rdir ++ text "metafs_rocksdb_" ++ nat_text (Z.of_nat i * 256 + j) |}.
Proof.
  intros HF Hthreads Hpaths Hmany Hi Hj. rewrite list_lookup_imap in Hi. destruct (cs !! i) as [c0|] eqn:E; [|discriminate].
  injection Hi as <-. pose proof (lookup_lt_Some _ _ _ E) as Hlt. split; [lia|]. split; [exact Hlt|].
  rewrite Forall_lookup in Hthreads, Hpaths. specialize (Hthreads _ _ E). destruct (Hpaths _ _ E) as [[mdir Hm] [rdir Hr]].
  exists mdir, rdir. split; [exact Hm|]. split; [exact Hr|]. rewrite <- Hthreads. apply thread_names_of; auto; lia.
Qed.

(** C26: Servers that start one after the other, each with the same number of threads, get the
    numbers 0, 1, 2, ... from the shared counter.  The thread [j] of server [i] then has the global
    id [i * threads + j]; two different threads never have the same global id nor, with the same
    directories, the same database files; and the session that a client opens at the index of a
    global id leads to that thread, when the servers are listed in their order and listen. *)
Theorem startup_ids {E : Erpc} {EL : ErpcLaws E} l cs s F uris r
    (HF : 0 < F <= 40) (Hstart : Forall2 startable l cs) (Henough : enough 80 = true)
    (Hcounter : counter s (text "SERVER_ID") = Some 0)
    (Hthreads : Forall (fun c => server_fg_threads c = F) cs)
    (Hpaths : Forall (fun c => is_Some (metakv_path c) /\ is_Some (rocksdb_path c)) cs)
    (Hmany : Z.of_nat (length cs) <= 2 ^ 23) (Huris : length uris = length cs)
    (Hopen : can_open r (targets uris (Z.to_nat F)))
    (Hmemory : forall size r, is_Some (fst (alloc_msg_buffer_or_die size r))) (Hfresh : pending r = []) :
  exists s' cs' fuel0 windows sc,
    start_all l s = Done (cs', s') /\ length cs' = length cs /\
    (forall fuel, (fuel0 <= fuel)%nat ->
       RpcClient_new fuel (Some (map Some uris ++ [None])) (Z.of_nat (length cs)) F (Z.of_nat (length cs) * F)
         (new_context r) = Done (windows, sc)) /\
    (forall i c j, cs' !! i = Some c -> 0 <= j < F -> exists t uri n,
       server_thread_names c j = Done t /\ tn_global_id t = Z.of_nat i * F + j /\ uris !! i = Some uri /\
       session_num_vec_ sc !! Z.to_nat (tn_global_id t) = Some n /\ endpoint (rpc_ sc) n = Some (uri, j)) /\
    (forall i c j t i' c' j' t',
       cs' !! i = Some c -> cs' !! i' = Some c' -> 0 <= j < F -> 0 <= j' < F ->
       server_thread_names c j = Done t -> server_thread_names c' j' = Done t' -> (i, j) <> (i', j') ->
       tn_global_id t <> tn_global_id t' /\
       (metakv_path c = metakv_path c' -> tn_metadb_path t <> tn_metadb_path t') /\
       (rocksdb_path c = rocksdb_path c' -> tn_rocksdb_path t <> tn_rocksdb_path t')).
Proof.
  pose proof (started_thread cs F) as Hst.
  assert (Z.of_nat (length uris * Z.to_nat F) < 2 ^ 31) as Hsize by (rewrite Nat2Z.inj_mul, Z2Nat.id; nia).
  destruct (connect_all_runs uris (Z.to_nat F) ltac:(lia) Hmemory r Hopen Hfresh Hsize)
    as (fuel0 & windows & sc & Hconn & _ & _ & _ & _ & _ & Hvec & _).
  rewrite Nat2Z.inj_mul, Huris, Z2Nat.id in Hconn by lia.
  assert (wp (start_all l) (fun cs' _ => cs' = imap (fun i c => with_id (0 + Z.of_nat i) c) cs) s) as Hwp
    by (eapply wp_start_all; eauto; lia).
  apply wp_Done in Hwp as (cs' & s' & Hrun & ->). do 5 eexists. split; [exact Hrun|]. split; [apply length_imap|].
  split; [exact Hconn|]. split.
  - intros i c j Hi Hj. destruct (Hst i c j) as (Hi0 & Hlt & mdir & rdir & _ & _ & Et); [assumption..|].
    destruct (lookup_lt_is_Some_2 uris i) as [uri Hu]; [lia|].
    destruct (Hvec i (Z.to_nat j) uri Hu ltac:(lia)) as (n & Hn & He & _). rewrite Z2Nat.id in He by lia.
    do 3 eexists. split; [exact Et|]. split; [reflexivity|]. split; [exact Hu|]. split; [|exact He].
    cbn [tn_global_id]. rewrite <- Hn. f_equal. nia.
  - intros i c j t i' c' j' t' Hi Hi' Hj Hj' Ht Ht' Hne.
    destruct (Hst i c j) as (Hi0 & _ & mdir & rdir & Hm & Hr & Et); [assumption..|].
    destruct (Hst i' c' j') as (Hi0' & _ & mdir' & rdir' & Hm' & Hr' & Et'); [assumption..|].
    rewrite Et in Ht. apply Done_inj in Ht as <-. rewrite Et' in Ht'. apply Done_inj in Ht' as <-.
    assert (Z.of_nat i * 256 + j <> Z.of_nat i' * 256 + j') as Hdiff by (intros H; apply Hne; f_equal; lia).
    assert (nat_text (Z.of_nat i * 256 + j) <> nat_text (Z.of_nat i' * 256 + j')) as Htext
      by (intros H; apply Hdiff, nat_text_inj; [unfold max15; lia..|exact H]).
    cbn [tn_global_id tn_metadb_path tn_rocksdb_path]. split; [intros H; apply pair_unique in H as [? ->]; [apply Hne; f_equal; lia|assumption..]|]. rewrite Hm, Hm', Hr, Hr'.
    split; intros [= ->] H; apply app_inv_head, app_inv_head in H; contradiction.
Qed.

End Ids.

(** A memcached that always answers. *)
Definition map_increment (k : bytes) (d : Z) (s : gmap bytes Z) : option Z * gmap bytes Z :=
  match s !! k with
  | None => (None, s)
  | Some n => (Some (u64 (n + d)), <[k := u64 (n + d)]> s)
  end.

Definition map_memcached : Memcached :=
  {| service := gmap bytes Z; mc_add_server := fun _ _ => true; mc_increment := map_increment |}.

Lemma map_increment_found (s : gmap bytes Z) k n d : s !! k = Some n -> 0 <= n + d < 2 ^ 64 ->
  exists s', map_increment k d s = (Some (n + d), s') /\ s' !! k = Some (n + d) /\ forall k', k' <> k -> s' !! k' = s !! k'.
Proof.
  intros Hk Hd. unfold map_increment. rewrite Hk, u64_small by exact Hd. eexists. split; [reflexivity|].
  split; [apply lookup_insert_eq|]. intros k' Hne. apply lookup_insert_ne. congruence.
Qed.

Definition map_memcached_laws : MemcachedLaws map_memcached :=
  {| counter := fun (s : @service map_memcached) k => (s : gmap bytes Z) !! k; increment_found := map_increment_found |}.

(** Two servers of two threads each. *)
Definition server_env : (bytes -> option bytes) * option bytes :=
  (fun _ => Some (render true 0 (JObject server_json) ++ [0]), Some (text "server.json")).

Definition server_cfg : server_config :=
  match server_parse_config (fun _ _ => true) (fun _ => true) (fst server_env) (snd server_env) with
  | Done c => c
  | Fault _ => server_config_of ∅
  end.

Lemma startup_ids_witness :
  exists s' cs' fuel0 windows sc,
    @start_all map_memcached (fun _ _ => true) (fun _ => true) [server_env; server_env] {[text "SERVER_ID" := 0]} = Done (cs', s') /\
    length cs' = 2%nat /\
    (forall fuel, (fuel0 <= fuel)%nat ->
       @RpcClient_new toy_erpc fuel (Some [Some (text "a:1"); Some (text "b:1"); None]) 2 2 4
         (@new_context toy_erpc {| t_done := []; t_wait := []; t_ready := false |}) = Done (windows, sc)).
Proof.
  destruct (@startup_ids map_memcached map_memcached_laws (fun _ _ => true) (fun _ => true) toy_erpc toy_laws
    [server_env; server_env] [server_cfg; server_cfg] {[text "SERVER_ID" := 0]} 2 [text "a:1"; text "b:1"]
    {| t_done := []; t_wait := []; t_ready := false |})
    as (s' & cs' & fuel0 & windows & sc & H1 & H2 & H3 & _).
  - lia.
  - assert (@startable map_memcached (fun _ _ => true) (fun _ => true) server_env server_cfg).
    { split; [vm_compute; reflexivity|vm_compute; split; [reflexivity|discriminate]|reflexivity|].
      exists (text "localhost"). split; [vm_compute; reflexivity|vm_compute; lia]. }
    apply Forall2_cons; split; [assumption|]. apply Forall2_cons; split; [assumption|constructor].
  - reflexivity.
  - reflexivity.
  - repeat constructor.
  - repeat constructor; eexists; vm_compute; reflexivity.
  - cbn. lia.
  - reflexivity.
  - exact I.
  - intros size r. eexists. reflexivity.
  - reflexivity.
  - exists s', cs', fuel0, windows, sc. split; [exact H1|]. split; [exact H2|exact H3].
Defined.

End Startup.
