(* ===== verification/Process.v ===== *)
(** * A server process

    main and init_and_start_loop of src/src/server/metafs_server.cc: the table of request
    handlers, the foreground threads (run_server_thread), and the start of the split thread
    (split_region_thread; the turns of its loop are [split_region_step] of Split.v).  The threads
    run concurrently: the order in which they get through their start is a parameter. *)

From Stdlib Require Import ZArith Lia.
From stdpp Require Import base numbers list strings gmap.
From S2P Require Import Prelude DoubleArith JumpHash Types XXHash Stores Wire Server Handlers HandlerSpec Split.
From S2P Require Import Json JsonText JsonItem Config Sessions Startup Sample.
Open Scope Z_scope.

Module Process.
Export Startup.

(** ** The request handlers *)

Inductive kReqType :=
  | kFSOpenReq | kFSUnlinkReq | kFSStatReq | kFSMknodReq | kFSReaddirReq | kFSMkdirReq | kFSRmdirReq
  | kFSGetinodeReq | kReadRegionmap | kCreateRegionReq | kSendRegionReq | kSendRegionLogReq.

#[export] Instance kReqType_eq_dec : EqDecision kReqType.
Proof. solve_decision. Defined.

(** The type a request is sent with. *)
Definition req_type (q : wire_req) : kReqType :=
  match q with
  | FSOpenReq _ => kFSOpenReq
  | FSUnlinkReq _ => kFSUnlinkReq
  | FSStatReq _ => kFSStatReq
  | MknodReq _ => kFSMknodReq
  | FSMkdirReq _ => kFSMkdirReq
  | FSRmdirReq _ => kFSRmdirReq
  | ReaddirReq _ => kFSReaddirReq
  | FSGetinodeReq _ => kFSGetinodeReq
  | ReadRegionmapReq _ => kReadRegionmap
  | CreateRegion _ => kCreateRegionReq
  | SendRegion _ => kSendRegionReq
  | SendRegionLog _ => kSendRegionLogReq
  end.

Section Process.
Context {KV : MetaKV} {RK : RocksDB} {MC : Memcached} {E : Erpc}.
Local Open Scope m_scope.

(** A handler reads one member of the union; another member is not a message it can read. *)
Definition handler : Type := nat -> junk -> Z -> stale -> wire_req -> M world unit.

(** The calls of [register_req_func], in order. *)
Definition registrations : list (kReqType * handler) :=
  [ (kFSOpenReq, fun fuel j now old q => match q with FSOpenReq r => fs_open_handler j now r (old_stat old) | _ => raise OutOfBounds end);
    (kFSUnlinkReq, fun fuel j now old q => match q with FSUnlinkReq r => fs_unlink_handler j r | _ => raise OutOfBounds end);
    (kFSStatReq, fun fuel j now old q => match q with FSStatReq r => fs_stat_handler j r (old_stat old) | _ => raise OutOfBounds end);
    (kFSMknodReq, fun fuel j now old q => match q with MknodReq r => fs_mknod_handler fuel j r (old_stat old) | _ => raise OutOfBounds end);
    (kFSMkdirReq, fun fuel j now old q => match q with FSMkdirReq r => fs_mkdir_handler fuel j r (old_inode old) | _ => raise OutOfBounds end);
    (kFSRmdirReq, fun fuel j now old q => match q with FSRmdirReq r => fs_rmdir_handler j r | _ => raise OutOfBounds end);
    (kFSReaddirReq, fun fuel j now old q => match q with ReaddirReq r => fs_readdir_handler r (old_readdir old) | _ => raise OutOfBounds end);
    (kFSGetinodeReq, fun fuel j now old q => match q with FSGetinodeReq r => fs_getinode_handler j r (old_inode old) | _ => raise OutOfBounds end);
    (kReadRegionmap, fun fuel j now old q => match q with ReadRegionmapReq _ => read_region_map_handler | _ => raise OutOfBounds end);
    (kCreateRegionReq, fun fuel j now old q => match q with CreateRegion r => s2s_create_region_handler r | _ => raise OutOfBounds end);
    (kSendRegionReq, fun fuel j now old q => match q with SendRegion r => s2s_send_region_handler j r | _ => raise OutOfBounds end);
    (kSendRegionLogReq, fun fuel j now old q => match q with SendRegionLog r => s2s_send_region_log_handler j r | _ => raise OutOfBounds end) ].

(** The handler of a type: the first registration stays, a second one is refused. *)
Fixpoint registered (t : kReqType) (l : list (kReqType * handler)) : option handler :=
  match l with
  | [] => None
  | (t', h) :: l' => if decide (t = t') then Some h else registered t l'
  end.

(** eRPC calls the handler of the type of a request. *)
Definition dispatch (fuel : nat) (j : junk) (now : Z) (old : stale) (q : wire_req) : M world unit :=
  match registered (req_type q) registrations with
  | Some h => h fuel j now old q
  | None => raise NullDeref
  end.

(** ** Threads *)

Definition MAX_FG_THREADS : Z := 10.

(** [DBOpen] and [rocksdb::DB::Open] on a path, which may fail; the eRPC object of a thread. *)
Context (open_metadb : bytes -> option MetaDb) (open_rocksdb : bytes -> option LogDB) (new_rpc : bytes -> Z -> Rpc).

(** Run [c] on the entry [tid] of [s_ctx_arr]. *)
Definition on_thread {A} (tid : Z) (c : M world A) : M cluster A :=
  fun s =>
    match threads s !! tid with
    | None => Fault OutOfBounds
    | Some x =>
        match c {| ctx := x; glob := pglob s; outbox := [] |} with
        | Fault f => Fault f
        | Done (a, w) =>
            Done (a, {| threads := <[tid := ctx w]> (threads s); pglob := glob w; s_ctx := s_ctx s; peers := peers s;
                       st_req := st_req s |})
        end
    end.

(** The start of [run_server_thread]. *)
Definition start_server_thread (s_cfg : server_config) (tid : Z) : M cluster unit :=
  let* t := lift (server_thread_names s_cfg tid) in
  match open_metadb (tn_metadb_path t), open_rocksdb (tn_rocksdb_path t) with
  | Some db, Some ldb => on_thread tid (init_server_context (id s_cfg) (server_fg_threads s_cfg) tid db ldb)
  | _, _ => raise AssertFailed
  end.

(** [run_server_thread]: the requests are those the event loop delivers before its time is over. *)
Definition run_server_thread (fuel : nat) (s_cfg : server_config) (tid : Z) (requests : list call) : M cluster unit :=
  start_server_thread s_cfg tid ;;; on_thread tid (serve_all fuel requests).

Definition set_st_sessions (n : Z) (g : globals) : globals :=
  {| global_region_id := global_region_id g; global_region_map := global_region_map g;
     shared_split_queue := shared_split_queue g; st_sessions := Some n |}.

(** [split_region_thread] up to its loop; the requests of a split are written to the first window. *)
Definition start_split_thread (fuel : nat) (s_cfg : server_config) (uri : bytes) (tid : Z) : M cluster unit :=
  modify (fun s => set_pglob (set_st_sessions (i32 (num_servers s_cfg * server_fg_threads s_cfg)) (pglob s)) s) ;;;
  let* (windows, _) := lift (split_thread_sessions fuel (server_list s_cfg) (num_servers s_cfg)
                               (server_fg_threads s_cfg) (new_context (new_rpc uri tid))) in
  modify (set_st_req (match windows with (req, _) :: _ => req | [] => [] end)).

Definition start_thread (fuel : nat) (s_cfg : server_config) (uri : bytes) (i : nat) : M cluster unit :=
  if Z.of_nat i <? server_fg_threads s_cfg then start_server_thread s_cfg (Z.of_nat i)
  else start_split_thread fuel s_cfg uri (Z.of_nat i).

Fixpoint start_threads (fuel : nat) (s_cfg : server_config) (uri : bytes) (order : list nat) : M cluster unit :=
  match order with
  | [] => ret tt
  | i :: l => start_thread fuel s_cfg uri i ;;; start_threads fuel s_cfg uri l
  end.

(** [init_and_start_loop] until all threads run, [order] being the order in which they start. *)
Definition init_and_start_loop (fuel : nat) (s_cfg : server_config) (order : list nat) : M cluster unit :=
  let* ip := lift (std_string (local_ip s_cfg)) in
  start_threads fuel s_cfg (ip ++ text ":" ++ int_text (local_port s_cfg)) order.

Definition main (can_alloc : nat -> nat -> bool) (enough : nat -> bool) (fuel : nat) (files : bytes -> option bytes)
    (fn : option bytes) (order : list nat) : M (service * cluster) unit :=
  fun '(s, c) =>
    match init_server_config can_alloc enough files fn s with
    | Fault f => Fault f
    | Done (s_cfg, s') =>
        match init_and_start_loop fuel s_cfg order c with
        | Fault f => Fault f
        | Done (_, c') => Done (tt, (s', c'))
        end
    end.

End Process.

(** ** Every request type has its handler *)

Lemma dispatch_serve {KV : MetaKV} {RK : RocksDB} fuel j now old q w :
  dispatch fuel j now old q w = serve fuel j now old q w.
Proof. destruct q; reflexivity. Qed.

(** ** A process whose threads have started *)

Definition initial_region (rid : Z) : ServerRegion :=
  set_region_status Normal
    (new_ServerRegion rid (mk_RegionKey 0 (rid * PINODE_HASH_RANGE)) (mk_RegionKey 0 ((rid + 1) * PINODE_HASH_RANGE - 1))).

Definition initial_client_region (rid : Z) : ClientRegion :=
  {| c_region_id := rid; c_start_key := mk_RegionKey 0 (rid * PINODE_HASH_RANGE);
     c_end_key := mk_RegionKey 0 ((rid + 1) * PINODE_HASH_RANGE - 1) |}.

Section Boot.
Context {KV : MetaKV} {RK : RocksDB} {E : Erpc} {EL : ErpcLaws E}.
Context (open_metadb : bytes -> option MetaDb) (open_rocksdb : bytes -> option LogDB) (new_rpc : bytes -> Z -> Rpc).

Lemma init_server_context_run w id fg tid db ldb :
  0 <= tid -> 0 <= id * fg -> id * fg + tid < 2 ^ 20 -> region_map (ctx w) = ∅ ->
  let rid := id * fg + tid in
  init_server_context id fg tid db ldb w = Done (tt,
    {| ctx := {| thread_id := tid; global_id := rid; alloc_inode := init_alloc_inode id tid; metadb := db; log_db := ldb;
                 region_map := {[rid := Some (initial_region rid)]}; pinode_table := pinode_table (ctx w) |};
       glob := set_global_region_map (map_insert rid (initial_client_region rid) (global_region_map (glob w)))
                 (set_global_region_id (i32 (global_region_id (glob w) + 1)) (glob w));
       outbox := outbox w |}).
Proof.
  intros Htid Hid Hrid Hm rid. assert (u64 (i32 (id * fg) + tid) = rid) as Hu
    by (rewrite (i32_small (id * fg)), u64_small; unfold is_i32, is_u64; lia).
  assert (i32 rid = rid) as Hr by (apply i32_small; unfold is_i32; lia).
  unfold init_server_context, register_region, bind, upd_ctx, upd_glob, modify, gets.
  cbn -[init_alloc_inode i32 u64 PINODE_HASH_RANGE]. rewrite Hu, Hr, Hm. unfold PINODE_HASH_RANGE.
  rewrite (i32_small (rid * 1024)), (i32_small ((rid + 1) * 1024)), (i32_small ((rid + 1) * 1024 - 1))
    by (unfold is_i32; lia).
  unfold map_insert at 1. rewrite lookup_empty, insert_empty. reflexivity.
Qed.

Context (s_cfg : server_config) (uris : list bytes) (ip mdir rdir : bytes).
Local Abbreviation F := (server_fg_threads s_cfg).
Local Abbreviation rid_of i := (id s_cfg * F + Z.of_nat i).

(** The configuration, the stores and the other servers are in order. *)
Record bootable : Prop := {
  bo_id : 0 <= id s_cfg < 256;
  bo_threads : 0 < F <= MAX_FG_THREADS;
  bo_ip : local_ip s_cfg = Some ip;
  bo_metakv : metakv_path s_cfg = Some mdir;
  bo_rocksdb : rocksdb_path s_cfg = Some rdir;
  bo_servers : num_servers s_cfg = Z.of_nat (length uris);
  bo_list : server_list s_cfg = Some (map Some uris ++ [None]);
  bo_many : Z.of_nat (length uris) <= 2 ^ 20;
  bo_can_open uri tid : can_open (new_rpc uri tid) (targets uris (Z.to_nat F));
  bo_memory size r : is_Some (fst (alloc_msg_buffer_or_die size r));
  bo_fresh uri tid : pending (new_rpc uri tid) = [];
  bo_metadb path : is_Some (open_metadb path);
  bo_logdb path : is_Some (open_rocksdb path)
}.

Record started (i : nat) (x : server_context) : Prop := {
  sd_thread : thread_id x = Z.of_nat i;
  sd_global : global_id x = rid_of i;
  sd_inode : alloc_inode x = init_alloc_inode (id s_cfg) (Z.of_nat i);
  sd_region : region_map x = {[rid_of i := Some (initial_region (rid_of i))]};
  sd_stores : exists n, n = nat_text (id s_cfg * 256 + Z.of_nat i) /\
    open_metadb (c_str mdir ++ text "metafs_metakv_" ++ n) = Some (metadb x) /\
    open_rocksdb (c_str rdir ++ text "metafs_rocksdb_" ++ n) = Some (log_db x)
}.

(** The threads of [l] have started. *)
Record booted (l : list nat) (c : cluster) : Prop := {
  bt_started i : i ∈ l -> Z.of_nat i < F -> exists x, threads c !! Z.of_nat i = Some x /\ started i x;
  bt_fresh i : i ∉ l -> Z.of_nat i < F -> exists x, threads c !! Z.of_nat i = Some x /\ region_map x = ∅;
  bt_map k r : global_region_map (pglob c) !! k = Some r <->
    exists i, i ∈ l /\ Z.of_nat i < F /\ k = rid_of i /\ r = initial_client_region k;
  bt_split : st_sessions (pglob c) = if decide (Z.to_nat F ∈ l) then Some (Z.of_nat (length uris) * F) else None;
  bt_buffer : Z.to_nat F ∈ l -> length (st_req c) = sizeof_wire_req
}.

(** The sessions of the split thread come up. *)
Definition sessions_up (fuel : nat) (uri : bytes) : Prop :=
  exists req resp windows sc, length req = sizeof_wire_req /\
    split_thread_sessions fuel (server_list s_cfg) (num_servers s_cfg) F (new_context (new_rpc uri F))
    = Done ((req, resp) :: windows, sc).

Lemma names_of i : bootable -> Z.of_nat i < F ->
  server_thread_names s_cfg (Z.of_nat i) = Done
    {| tn_global_id := rid_of i;
       tn_metadb_path := c_str mdir ++ text "metafs_metakv_" ++ nat_text (id s_cfg * 256 + Z.of_nat i);
       tn_rocksdb_path := c_str rdir ++ text "metafs_rocksdb_" ++ nat_text (id s_cfg * 256 + Z.of_nat i) |}.
Proof.
  intros [Hid Hth _ Hm Hr _ _ _ _ _ _ _ _] Hi. unfold MAX_FG_THREADS in Hth.
  assert (with_id (id s_cfg) s_cfg = s_cfg) as Ecfg by (destruct s_cfg; reflexivity).
  rewrite <- Ecfg at 1. apply thread_names_of; auto; lia.
Qed.

Lemma map_insert_lookup {A} k (v : A) (m : gmap Z A) k' r :
  map_insert k v m !! k' = Some r <-> m !! k' = Some r \/ (k' = k /\ r = v /\ m !! k = None).
Proof.
  unfold map_insert. destruct (m !! k) as [v'|] eqn:Ek; [naive_solver|]. rewrite lookup_insert_Some. naive_solver.
Qed.

Lemma elem_of_rev_iff {A} (x : A) l : x ∈ rev l <-> x ∈ l.
Proof. rewrite !list_elem_of_In. symmetry. apply in_rev. Qed.

(** A foreground thread gets through its start. *)
Lemma wp_start_server_thread l i c : bootable -> booted l c -> i ∉ l -> Z.of_nat i < F ->
  wp (start_server_thread open_metadb open_rocksdb s_cfg (Z.of_nat i)) (fun _ c' => booted (i :: l) c') c.
Proof.
  intros Hb [B1 B2 B3 B4 B5] Hi Hlt. pose proof (bo_id Hb) as Hid. pose proof (bo_threads Hb) as HF. unfold MAX_FG_THREADS in HF.
  apply wp_bind. rewrite (names_of i Hb Hlt). apply wp_ret. cbn [tn_metadb_path tn_rocksdb_path].
  destruct (bo_metadb Hb (c_str mdir ++ text "metafs_metakv_" ++ nat_text (id s_cfg * 256 + Z.of_nat i))) as [db Hdb].
  destruct (bo_logdb Hb (c_str rdir ++ text "metafs_rocksdb_" ++ nat_text (id s_cfg * 256 + Z.of_nat i))) as [ldb Hldb].
  rewrite Hdb, Hldb. destruct (B2 i Hi Hlt) as (x & Hx & Hempty). unfold on_thread, wp. rewrite Hx.
  rewrite init_server_context_run by (cbn; try exact Hempty; nia). cbn [ctx glob].
  split; cbn [threads pglob set_global_region_map global_region_map st_sessions set_global_region_id].
  - intros i' [->|Hin]%elem_of_cons Hlt'.
    + eexists. split; [apply lookup_insert_eq|]. split; try reflexivity. eauto.
    + rewrite lookup_insert_ne by (intros E'; apply Nat2Z.inj in E'; congruence). apply B1; assumption.
  - intros i' Hni Hlt'. rewrite not_elem_of_cons in Hni. destruct Hni as [Hne Hni].
    rewrite lookup_insert_ne by (intros E'; apply Nat2Z.inj in E'; congruence). apply B2; assumption.
  - intros k r. rewrite map_insert_lookup, B3. split.
    + intros [(i' & ? & ? & ? & ?)|(-> & -> & _)]; [exists i'|exists i]; set_solver.
    + intros (i' & [->|Hin]%elem_of_cons & Hlt' & -> & ->); [|left; eauto]. right. split; [reflexivity|]. split; [reflexivity|].
      apply eq_None_not_Some. intros [r' Hr']. apply B3 in Hr' as (i'' & Hin & _ & Ek & _).
      assert (i'' = i) as -> by lia. contradiction.
  - rewrite B4. destruct (decide (Z.to_nat F ∈ l)) as [H|H]; [rewrite decide_True by set_solver; reflexivity|].
    rewrite decide_False; [reflexivity|]. rewrite not_elem_of_cons. split; [lia|exact H].
  - intros [Ei|H]%elem_of_cons; [lia|exact (B5 H)].
Qed.

(** So does the split thread, when its sessions come up. *)
Lemma wp_start_split_thread fuel l uri c : bootable -> booted l c -> Z.to_nat F ∉ l ->
  sessions_up fuel uri ->
  wp (start_split_thread new_rpc fuel s_cfg uri F) (fun _ c' => booted (Z.to_nat F :: l) c') c.
Proof.
  intros Hb [B1 B2 B3 B4 B5] Hnot (req & resp & windows & sc & Hreq & Hres). pose proof (bo_threads Hb) as HF. unfold MAX_FG_THREADS in HF.
  pose proof (bo_many Hb) as Hmany. apply wp_bind, wp_modify, wp_bind.
  rewrite Hres. apply wp_ret, wp_modify.
  rewrite (bo_servers Hb), i32_small by (unfold is_i32; nia).
  split; cbn [threads pglob set_pglob set_st_req st_req set_st_sessions global_region_map st_sessions].
  - intros i [->|Hin]%elem_of_cons Hlt; [lia|]. apply B1; assumption.
  - intros i Hni Hlt. rewrite not_elem_of_cons in Hni. apply B2; [apply Hni|exact Hlt].
  - intros k r'. rewrite B3. split; intros (i & Hin & Hlt & H); exists i; [set_solver|].
    apply elem_of_cons in Hin as [->|Hin]; [lia|]. auto.
  - rewrite decide_True by set_solver. reflexivity.
  - intros _. exact Hreq.
Qed.

Lemma wp_start_threads fuel uri order : forall l c,
  bootable -> booted l c -> NoDup (order ++ l) -> Forall (fun i => i <= Z.to_nat F)%nat order ->
  sessions_up fuel uri ->
  wp (start_threads open_metadb open_rocksdb new_rpc fuel s_cfg uri order) (fun _ c' => booted (rev order ++ l) c') c.
Proof.
  induction order as [|i order IH]; intros l c Hb Hbt Hnd Hle Hs; cbn [start_threads].
  { apply wp_ret. exact Hbt. }
  cbn [app] in Hnd. apply NoDup_cons in Hnd as [Hni Hnd]. apply Forall_cons in Hle as [Hi Hle].
  assert (wp (start_thread open_metadb open_rocksdb new_rpc fuel s_cfg uri i) (fun _ c' => booted (i :: l) c') c) as Hwp.
  { unfold start_thread. destruct (Z.ltb_spec (Z.of_nat i) F) as [Hlt|Hge].
    - apply wp_start_server_thread; auto. set_solver.
    - pose proof (bo_threads Hb). assert (i = Z.to_nat F) as -> by lia. rewrite Z2Nat.id by lia.
      apply wp_start_split_thread; auto. set_solver. }
  apply wp_bind. eapply wp_mono; [exact Hwp|]. intros [] c' Hbt'. cbn [rev]. rewrite <- app_assoc. cbn [app].
  apply IH; auto. rewrite <- Permutation_middle. apply NoDup_cons. auto.
Qed.

Lemma process_boots order c : bootable -> order ≡ₚ seq 0 (S (Z.to_nat F)) ->
  (forall i, Z.of_nat i < F -> exists x, threads c !! Z.of_nat i = Some x /\ region_map x = ∅) ->
  global_region_map (pglob c) = ∅ -> st_sessions (pglob c) = None ->
  exists fuel0, forall fuel, (fuel0 <= fuel)%nat -> exists c',
    init_and_start_loop open_metadb open_rocksdb new_rpc fuel s_cfg order c = Done (tt, c') /\ booted order c'.
Proof.
  intros Hboot Horder Hthreads Hmap Hst.
  pose proof (bo_threads Hboot) as HF. pose proof (bo_many Hboot) as Hmany. unfold MAX_FG_THREADS in HF.
  set (uri := c_str ip ++ text ":" ++ int_text (local_port s_cfg)).
  assert (Z.of_nat (length uris * Z.to_nat F) < 2 ^ 31) as Hsize by (rewrite Nat2Z.inj_mul, Z2Nat.id by lia; nia).
  destruct (connect_all_runs uris (Z.to_nat F) ltac:(lia) (bo_memory Hboot) (new_rpc uri F)
    (bo_can_open Hboot uri F) (bo_fresh Hboot uri F) Hsize) as (fuel0 & windows & sc & Hrun & Hwl & Hok & _).
  exists fuel0. intros fuel Hf.
  assert (booted [] c) as H0.
  { split; [set_solver|auto| |rewrite decide_False by set_solver; exact Hst|set_solver]. intros k r. rewrite Hmap, lookup_empty. set_solver. }
  assert (wp (init_and_start_loop open_metadb open_rocksdb new_rpc fuel s_cfg order)
    (fun _ c' => booted (rev order ++ []) c') c) as Hwp.
  { apply wp_bind. rewrite (bo_ip Hboot). apply wp_ret. apply wp_start_threads; auto.
    - rewrite app_nil_r, Horder. apply NoDup_seq.
    - apply Forall_forall. intros i. rewrite Horder, elem_of_seq. lia.
    - fold uri. unfold sessions_up, split_thread_sessions. rewrite (bo_list Hboot), (bo_servers Hboot), i32_small by (unfold is_i32; nia).
      change st_basic_sm_handler with client_basic_sm_handler. specialize (Hrun fuel Hf).
      rewrite Nat2Z.inj_mul, Z2Nat.id in Hrun by lia.
      destruct windows as [|[req resp] windows]; [discriminate|]. apply Forall_cons in Hok as [[[Hreq _] _] _].
      exists req, resp, windows, sc. split; [exact Hreq|]. rewrite <- Hrun. f_equal. }
  apply wp_Done in Hwp as ([] & c' & Hc & [B1 B2 B3 B4 B5]). rewrite app_nil_r in *. setoid_rewrite elem_of_rev_iff in B1.
  setoid_rewrite elem_of_rev_iff in B2. setoid_rewrite elem_of_rev_iff in B3.
  rewrite elem_of_rev_iff in B5. exists c'. split; [exact Hc|].
  split; [exact B1|exact B2|exact B3| |exact B5]. rewrite B4. apply decide_ext, elem_of_rev_iff.
Qed.

(** C24: A server process starts, whatever the order in which its threads get through their start,
    under the conditions [bootable]: a server id below 256, 1 to 10 foreground threads (the code
    asserts at most 40 only), an address, store paths and a server list of the configured length
    that are present, stores that open, and an eRPC library that can open every session and hands
    out message buffers.  Then no assertion fails and no exception is thrown, each foreground thread
    has its global id, its inode block, the two stores at its own paths and one region, the map
    that clients read holds the regions of these threads and no other, and the split thread has
    its sessions and a request buffer of the size of the messages. *)
Theorem boot_process order c (Hboot : bootable) (Horder : order ≡ₚ seq 0 (S (Z.to_nat F)))
    (Hthreads : forall i, Z.of_nat i < F -> exists x, threads c !! Z.of_nat i = Some x /\ region_map x = ∅)
    (Hmap : global_region_map (pglob c) = ∅) (Hst : st_sessions (pglob c) = None) :
  exists fuel0, forall fuel, (fuel0 <= fuel)%nat -> exists c',
    init_and_start_loop open_metadb open_rocksdb new_rpc fuel s_cfg order c = Done (tt, c') /\
    (forall i, Z.of_nat i < F -> exists x, threads c' !! Z.of_nat i = Some x /\ started i x) /\
    (forall k r, global_region_map (pglob c') !! k = Some r <->
       exists i, Z.of_nat i < F /\ k = rid_of i /\ r = initial_client_region k) /\
    st_sessions (pglob c') = Some (Z.of_nat (length uris) * F) /\ length (st_req c') = sizeof_wire_req.
Proof.
  pose proof (bo_threads Hboot) as HF. destruct (process_boots order c Hboot Horder Hthreads Hmap Hst) as (fuel0 & Hrun).
  exists fuel0. intros fuel Hf. destruct (Hrun fuel Hf) as (c' & Hc & [B1 B2 B3 B4 B5]).
  assert (forall i, i ∈ order <-> (i <= Z.to_nat F)%nat) as Hin by (intros i; rewrite Horder, elem_of_seq; lia).
  exists c'. split; [exact Hc|]. split; [|split; [|split]].
  - intros i Hi. apply B1; [|exact Hi]. apply Hin. lia.
  - intros k r. rewrite B3. split; intros (i & H); exists i; [tauto|]. rewrite Hin. split; [lia|exact H].
  - rewrite B4, decide_True; [reflexivity|]. apply Hin. lia.
  - apply B5, Hin. lia.
Qed.

End Boot.

(** A server of two threads on its own, whose threads start out of order. *)
Definition cfg_two : server_config :=
  {| id := 0; local_ip := Some (text "h"); local_port := 31851; num_servers := 1;
     server_list := Some [Some (text "h:31851"); None]; server_fg_threads := 2; server_bg_threads := 0;
     metakv_pm_space := 8; metakv_path := Some (text "/p/"); rocksdb_path := Some (text "/r/");
     memcached_ip := None; memcached_port := 0 |}.

Import Sample.

Definition process0 : cluster :=
  {| threads := {[0 := ctx0; 1 := ctx0]};
     pglob := {| global_region_id := 0; global_region_map := ∅; shared_split_queue := []; st_sessions := None |};
     s_ctx := None; peers := ∅; st_req := [] |}.

Definition empty_toy (_ : bytes) (_ : Z) : @Rpc toy_erpc := {| t_done := []; t_wait := []; t_ready := false |}.

Lemma boot_process_witness :
  exists fuel0, forall fuel, (fuel0 <= fuel)%nat -> exists c',
    @init_and_start_loop MapDb.kv SortedLog.rocks toy_erpc (fun _ => Some MapDb.empty) (fun _ => Some SortedLog.empty) empty_toy fuel cfg_two
      [1; 2; 0]%nat process0 = Done (tt, c') /\ st_sessions (pglob c') = Some 2.
Proof.
  destruct (@boot_process MapDb.kv SortedLog.rocks toy_erpc toy_laws (fun _ => Some MapDb.empty) (fun _ => Some SortedLog.empty) empty_toy
    cfg_two [text "h:31851"] (text "h") (text "/p/") (text "/r/") [1; 2; 0]%nat process0) as (fuel0 & Hrun).
  - split; try reflexivity; try (vm_compute; split; congruence); try (intros; exact I); eauto. vm_compute. discriminate.
  - apply (bool_decide_unpack _). vm_compute. exact I.
  - intros i Hi. change (server_fg_threads cfg_two) with 2 in Hi. exists ctx0. split; [|reflexivity].
    destruct i as [|[|i]]; [reflexivity|reflexivity|lia].
  - reflexivity.
  - reflexivity.
  - exists fuel0. intros fuel Hf. destruct (Hrun fuel Hf) as (c' & H1 & _ & _ & H2 & _). exists c'. split; [exact H1|exact H2].
Defined.

End Process.
