(* ===== verification/Deploy.v ===== *)
(** * A server and a client from their start

    The composition of Process.v, Startup.v and the client's theorems: one server process with one
    thread, started by init_and_start_loop, and a client, started by init_client_ctx with the read
    of the region map at its end, that then calls the hooks. *)

From Stdlib Require Import ZArith Lia.
From stdpp Require Import base numbers list strings gmap.
From S2P Require Import Prelude DoubleArith JumpHash Types XXHash Stores Wire Server Handlers HandlerSpec Split Sample.
From S2P Require Import LruCache DentryCache OpenFileMap RpcClient MetaClient Hooks.
From S2P Require Import ClientSpec RpcSpec PathSpec Deliver HookSpec ClientSample ClientTheorems.
From S2P Require Import Json JsonNum JsonText JsonItem Config ConfigTheorems Sessions Startup Process.
Open Scope Z_scope.

Module Deploy.
Export Process.

Section Deploy.
Context {MC : Memcached} {E : Erpc} {P : Platform} (can_alloc : nat -> nat -> bool) (enough : nat -> bool).
Local Open Scope m_scope.

(** [c_ctx] and [METAFS_CLIENT] when the sessions are up: requests are written to the first
    window. *)
Definition new_client (su : client_setup) (n : Net) : client :=
  {| c_id := cs_id su; dentry_cache := Dentry.new 10000; total_servers := cs_total_servers su; regions := [];
     req_buf := match cs_windows su with (req, _) :: _ => req | [] => [] end; ofm_ := Files.new_OpenFileMap;
     net := n; rand_count := 0; reentrance_flag := false |}.

(** The whole of [init_client_ctx]. *)
Definition start_client (fuel : nat) (new_rpc : bytes -> Rpc) (files : bytes -> option bytes) (fn : option bytes)
    (n : Net) : M service client :=
  let* su := init_client_ctx can_alloc enough fuel new_rpc files fn in
  let* (r, c) := lift (ReadRegionmap (new_client su n)) in
  p_assert (r =? 0) ;;;
  ret c.

End Deploy.

(** ** The first client of a server *)

Section First.
Context {KV : MetaKV} {RK : RocksDB} {MC : Memcached} {E : Erpc}.
Context {KVL : MetaKVLaws KV} {RKL : RocksDBLaws RK} {MCL : MemcachedLaws MC} {EL : ErpcLaws E}.
Context (can_alloc : nat -> nat -> bool) (enough : nat -> bool).
Context (sfuel : nat) (env : nat -> junk * Z * stale) (rnd : nat -> Z) (hash : bytes -> Z).

#[local] Instance platform : Platform := server_platform sfuel env rnd hash.
#[local] Instance service : Service platform := thread_service sfuel env rnd hash 0 0 (2 ^ 40).

(** The one thread of the process, behind session 0. *)
Definition site_of (c : cluster) : site_net :=
  match threads c !! 0 with
  | Some x => {| calls := 0; sites := {[0 := {| ctx := x; glob := pglob c; outbox := [] |}]} |}
  | None => {| calls := 0; sites := ∅ |}
  end.

(** What [holds] asks of a thread that has just started on empty stores. *)
Lemma booted_holds x g o k :
  global_id x = 0 -> alloc_inode x = init_alloc_inode 0 0 -> region_map x = {[0 := Some (initial_region 0)]} ->
  dents (metadb x) = ∅ -> stats (metadb x) = ∅ -> (k <= 1000)%nat -> room (metadb x) (2 * k) ->
  holds 0 (2 ^ 40) k {| ctx := x; glob := g; outbox := o |} (initial_region 0).
Proof.
  intros Hg Hi Hr Hd Hs Hk Hroom.
  assert (abs {| ctx := x; glob := g; outbox := o |} = {| a_dents := ∅; a_stats := ∅; a_next := init_alloc_inode 0 0 |})
    as Habs by (unfold abs; cbn; rewrite Hd, Hs, Hi; reflexivity).
  split.
  - unfold region_is. cbn. rewrite Hr. apply lookup_singleton_eq.
  - vm_compute. reflexivity.
  - split; [reflexivity|]. rewrite Habs. reflexivity.
  - rewrite Habs. apply (afs_wf_boot 0 0); lia.
  - rewrite Habs. intros p f i. cbn. rewrite lookup_empty. discriminate.
  - change (kv_num (initial_region 0)) with 0. unfold region_split_threshold. lia.
  - rewrite Habs. change (init_alloc_inode 0 0) with 1. cbn [a_next]. lia.
  - exact Hroom.
Qed.

(** A started thread answers with its one region. *)
Lemma deliver_regionmap id x g :
  global_region_map g = {[0 := initial_client_region 0]} ->
  let resp := RRegionmap {| rm_resp_type := kSuccess; rm_num_entries := 1; rm_entries := [initial_client_region 0] |} in
  deliver sfuel env 0 (ReadRegionmapReq id) {| calls := 0; sites := {[0 := {| ctx := x; glob := g; outbox := [] |}]} |}
  = Done (resp, {| calls := 1; sites := {[0 := {| ctx := x; glob := g; outbox := [resp] |}]} |}).
Proof.
  intros Hg. unfold deliver. cbn [sites calls]. rewrite lookup_singleton_eq. destruct (env 0) as [[j now] old].
  cbn [serve]. unfold read_region_map_handler, bind, gets. cbn [glob]. rewrite Hg, map_to_list_singleton. cbn.
  change (Z.of_nat 1 <=? regionmap_capacity) with true. cbn. reflexivity.
Qed.

Lemma route_all c p : regions c = [(initial_client_region 0, 0)] -> total_servers c = 1 -> server_session p c = Done (0, c).
Proof.
  intros Hr Ht. unfold server_session, bind, gets. rewrite Hr.
  assert (find_region_id (mk_RegionKey 0 (pinode_hash p)) [(initial_client_region 0, 0)] = 0) as ->.
  { change [(initial_client_region 0, 0)] with [(ClientSample.all_hashes, 0)]. apply ClientSample.find_all, pinode_hash_range. }
  unfold p_assert. cbn [negb Z.eqb ret]. rewrite Ht. reflexivity.
Qed.

(** A client that can work: [k] requests, on an empty file system. *)
Record ready_client (k : nat) (c : client) : Prop := {
  rc_connected : connected k c;
  rc_cache : cache_ok c;
  rc_files : Files.Inv (ofm_ c) /\ Files.files_ (ofm_ c) = ∅;
  rc_view : view (net c) = {| a_dents := ∅; a_stats := ∅; a_next := 1 |};
  rc_accepts p sid : routes c p sid -> accepts (net c) sid (fst (header (req_buf c))) (slot c)
}.

Lemma first_ready c x g o k :
  regions c = [(initial_client_region 0, 0)] -> total_servers c = 1 -> req_buf c = repeat 0 sizeof_wire_req ->
  ofm_ c = Files.new_OpenFileMap -> dentry_cache c = Dentry.new 10000 ->
  net c = ({| calls := 1; sites := {[0 := {| ctx := x; glob := g; outbox := o |}]} |} : @Net platform) ->
  global_id x = 0 -> alloc_inode x = init_alloc_inode 0 0 -> region_map x = {[0 := Some (initial_region 0)]} ->
  dents (metadb x) = ∅ -> stats (metadb x) = ∅ -> (k <= 1000)%nat -> room (metadb x) (2 * k) ->
  ready_client k c.
Proof.
  intros Hr Ht Hb Ho Hdc Hn Hg Hi Hm Hd Hs Hk Hroom. set (w := {| ctx := x; glob := g; outbox := o |}).
  assert (holds 0 (2 ^ 40) k w (initial_region 0)) as Hh by (apply booted_holds; assumption).
  assert (header (req_buf c) = (0, 0) /\ slot c = 0) as [Hhd Hsl]
    by (unfold slot; rewrite Hb; split; vm_compute; reflexivity).
  assert (forall p sid, routes c p sid -> accepts (net c) sid 0 0) as Hacc.
  { intros p sid [Hsid _]. rewrite (route_all c p Hr Ht) in Hsid. injection Hsid as <-. rewrite Hn.
    do 2 (split; [reflexivity|]). exists w, (initial_region 0). split; [apply lookup_singleton_eq|].
    split; [apply Hh|reflexivity]. }
  split.
  - split; [rewrite Hb, repeat_length; reflexivity| | |].
    + intros p. exists 0. split; [apply route_all; assumption|lia].
    + rewrite Hhd. exact Hacc.
    + rewrite Hn. exists w, (initial_region 0). split; [apply lookup_singleton_eq|exact Hh].
  - apply (cache_ok_new c 10000); [exact Hdc|lia].
  - rewrite Ho. split; [|reflexivity]. split; [vm_compute; split; discriminate|]. intros _ fd p H. discriminate H.
  - rewrite Hn. cbn [view service thread_service]. unfold at_site. cbn [sites]. rewrite lookup_singleton_eq.
    unfold abs. cbn. rewrite Hd, Hs, Hi. reflexivity.
  - rewrite Hhd, Hsl. exact Hacc.
Qed.

Lemma wp_first_read su x g k (Q : Z -> client -> Prop) :
  cs_id su = 0 -> cs_total_servers su = 1 -> (exists resp l, cs_windows su = (repeat 0 sizeof_wire_req, resp) :: l) ->
  global_id x = 0 -> alloc_inode x = init_alloc_inode 0 0 -> region_map x = {[0 := Some (initial_region 0)]} ->
  dents (metadb x) = ∅ -> stats (metadb x) = ∅ -> global_region_map g = {[0 := initial_client_region 0]} -> (k <= 1000)%nat ->
  room (metadb x) (2 * k) -> (forall c, ready_client k c -> Q 0 c) ->
  wp ReadRegionmap Q (new_client su ({| calls := 0; sites := {[0 := {| ctx := x; glob := g; outbox := [] |}]} |} : @Net platform)).
Proof.
  intros Hid Ht (resp & l & Hw) Hgid Hino Hrm Hd Hs Hg Hk Hroom HQ. set (c0 := new_client su _).
  assert (req_buf c0 = repeat 0 sizeof_wire_req) as Hbuf by (cbn; rewrite Hw; reflexivity).
  apply wp_bind, wp_bind, wp_bind, wp_gets, wp_bind, wp_modify, wp_ret.
  apply wp_bind, wp_gets, wp_bind, wp_gets. apply wp_bind, wp_request; [unfold wire_req_size; lia|].
  replace (total_servers (set_rand_count (S (rand_count c0)) c0)) with 1 by (symmetry; exact Ht). rewrite Z.rem_1_r.
  replace (c_id (set_rand_count (S (rand_count c0)) c0)) with 0 by (symmetry; exact Hid).
  replace (req_buf (set_rand_count (S (rand_count c0)) c0)) with (repeat 0 sizeof_wire_req) by (symmetry; exact Hbuf).
  replace (write_at 0 (le_bytes 4 0) (repeat 0 sizeof_wire_req)) with (repeat 0 sizeof_wire_req) by (vm_compute; reflexivity).
  apply wp_bind, wp_enqueue; [cbn; rewrite Ht; lia|]. unfold wp at 1.
  unfold c0. cbn [set_rand_count set_req_buf net new_client RpcClient.rpc platform server_platform].
  rewrite (deliver_regionmap _ x g Hg). rewrite decide_True by reflexivity.
  apply wp_bind, wp_modify, wp_ret, wp_ret. rewrite decide_True by reflexivity.
  apply HQ. eapply (first_ready _ x g); first [assumption|reflexivity].
Qed.

Context (Hzero : forall size r, fst (alloc_msg_buffer_or_die size r) = Some (repeat 0 size)).
Context (new_rpc : bytes -> Rpc) (Hfresh : forall uri, pending (new_rpc uri) = []).

(** A configuration of a client for one server with one thread. *)
Record client_startable (files : bytes -> option bytes) (fn : option bytes) (uri ip mip : bytes) (c_cfg : client_config) : Prop := {
  ca_parsed : client_parse_config can_alloc enough files fn = Done c_cfg;
  ca_servers : c_num_servers c_cfg = 1;
  ca_threads : c_server_fg_threads c_cfg = 1;
  ca_list : c_server_list c_cfg = Some [Some uri; None];
  ca_can_open local_uri : can_open (new_rpc local_uri) [(uri, 0)];
  ca_ip : c_local_ip c_cfg = Some ip /\ (length (c_str ip) <= 17)%nat;
  ca_memcached : mc_add_server (c_memcached_ip c_cfg) (c_memcached_port c_cfg) = true;
  ca_mip : c_memcached_ip c_cfg = Some mip /\ (length (c_str mip) < 64)%nat;
  ca_memory : enough 80 = true /\ enough 24 = true
}.

Lemma wp_first_setup files fn uri ip mip c_cfg : client_startable files fn uri ip mip c_cfg ->
  exists fuel0, forall fuel, (fuel0 <= fuel)%nat -> forall s, counter s (text "CLIENT_ID") = Some 0 ->
    wp (init_client_ctx can_alloc enough fuel new_rpc files fn)
      (fun su _ => cs_id su = 0 /\ cs_total_servers su = 1 /\
         exists resp l, cs_windows su = (repeat 0 sizeof_wire_req, resp) :: l) s.
Proof.
  intros [Hp Hn Ht Hl Hr [Hip Hlen] Hm [Hmip Hmlen] [He1 He2]].
  set (local_uri := c_str ip ++ text ":" ++ int_text (i32 (kUDPPort_Client + 0))).
  destruct (connect_all_runs [uri] 1) with (r := new_rpc local_uri) as (fuel0 & windows & sc & Hrun & Hwl & Hok & _);
    [lia|intros; rewrite Hzero; eauto|exact (Hr local_uri)|apply Hfresh|reflexivity|].
  exists fuel0. intros fuel Hf s Hs. unfold init_client_ctx. rewrite Hp. apply wp_bind, wp_ret. apply wp_bind.
  unfold mt_create_ctx. rewrite Hm, He1, Hmip. apply wp_bind, wp_assert; [reflexivity|].
  apply Nat.ltb_lt in Hmlen. cbn [negb]. rewrite Hmlen. apply wp_ret. apply wp_bind. eapply wp_mt_incr; [exact Hs|lia|].
  intros s' _. rewrite He2, Hip. cbn [negb std_string]. apply wp_bind, wp_ret. fold local_uri.
  assert (length (text ":" ++ int_text (i32 (kUDPPort_Client + 0))) = 6%nat) as Hport by (vm_compute; reflexivity).
  replace (24 <=? length local_uri)%nat with false
    by (symmetry; apply Nat.leb_gt; unfold local_uri; rewrite length_app, Hport; lia).
  rewrite Hn, Ht, Hl. apply wp_bind. change (i32 (1 * 1)) with 1. unfold RpcClient_new.
  assert (connect_all fuel client_basic_sm_handler (Some [Some uri; None]) 1 1 1 (new_context (new_rpc local_uri))
    = Done (windows, sc)) as -> by exact (Hrun fuel Hf). apply wp_ret, wp_ret. do 2 (split; [reflexivity|]).
  destruct windows as [|[req resp] l]; [discriminate|]. apply Forall_cons in Hok as [[[_ [r Hreq]] _] _].
  rewrite Hzero in Hreq. injection Hreq as <-. exists resp, l. reflexivity.
Qed.

(** The thread of a process that has started. *)
Lemma booted_site open_metadb open_rocksdb srv_rpc s_cfg c0 order srv_ip mdir rdir uri :
  bootable open_metadb open_rocksdb srv_rpc s_cfg [uri] srv_ip mdir rdir ->
  id s_cfg = 0 /\ server_fg_threads s_cfg = 1 -> order ≡ₚ [0; 1]%nat ->
  (exists x, threads c0 !! 0 = Some x /\ region_map x = ∅) ->
  global_region_map (pglob c0) = ∅ /\ st_sessions (pglob c0) = None ->
  exists fuel0, forall fuel, (fuel0 <= fuel)%nat -> exists srv x,
    init_and_start_loop open_metadb open_rocksdb srv_rpc fuel s_cfg order c0 = Done (tt, srv) /\
    site_of srv = {| calls := 0; sites := {[0 := {| ctx := x; glob := pglob srv; outbox := [] |}]} |} /\
    started open_metadb open_rocksdb s_cfg mdir rdir 0 x /\
    global_region_map (pglob srv) = {[0 := initial_client_region 0]} /\
    exists path, open_metadb path = Some (metadb x).
Proof.
  intros Hboot [Hid Hfg] Horder (x0 & Hx0 & Hr0) [Hm Hst].
  destruct (process_boots open_metadb open_rocksdb srv_rpc s_cfg [uri] srv_ip mdir rdir order c0) as (fuel0 & Hrun); auto.
  { rewrite Hfg. exact Horder. }
  { rewrite Hfg. intros i Hi. replace i with 0%nat by lia. eauto. }
  exists fuel0. intros fuel Hf. destruct (Hrun fuel Hf) as (srv & Hsrv & [B1 _ B3 _ _]).
  assert (forall i, i ∈ order <-> (i < 2)%nat) as Hin by (intros i; rewrite Horder; set_solver by lia).
  destruct (B1 0%nat) as (x & Hx & Hstarted); [apply Hin; lia|rewrite Hfg; lia|].
  exists srv, x. split; [exact Hsrv|]. split; [unfold site_of; change 0 with (Z.of_nat 0) at 1; rewrite Hx; reflexivity|].
  split; [exact Hstarted|]. split; [|destruct (sd_stores _ _ _ _ _ _ _ Hstarted) as (n & _ & Hdb & _); eauto].
  apply map_eq. intros k. apply option_eq. intros r. rewrite B3, lookup_singleton_Some, Hid, Hfg. split.
  - intros (i & _ & Hi & -> & ->). replace i with 0%nat by lia. auto.
  - intros [<- <-]. exists 0%nat. rewrite Hin. split; [lia|]. split; [lia|]. auto.
Qed.


End First.

(** ** A concrete deployment *)

Import Sample.

Definition client_text : list (bytes * json) :=
  [ (text "local_ip", JString (text "h")); (text "num_servers", JInt 1);
    (text "server_list", JArray [JString (text "h:1")]); (text "server_fg_threads", JInt 1);
    (text "mount_dir", JString (text "/m")); (text "memcached_ip", JString (text "c")) ].

Definition client_file (_ : bytes) : option bytes := Some (render true 0 (JObject client_text) ++ [0]).

Definition client_cfg : client_config :=
  match client_parse_config (fun _ _ => true) (fun _ => true) client_file (Some (text "client.json")) with
  | Done c => c
  | Fault _ => client_config_of ∅
  end.

Definition cfg_one : server_config :=
  {| id := 0; local_ip := Some (text "h"); local_port := 1; num_servers := 1;
     server_list := Some [Some (text "h:1"); None]; server_fg_threads := 1; server_bg_threads := 0;
     metakv_pm_space := 8; metakv_path := Some (text "/p/"); rocksdb_path := Some (text "/r/");
     memcached_ip := None; memcached_port := 0 |}.

Definition open_map (_ : bytes) : option (@MetaDb MapDb.kv) := Some MapDb.empty.
Definition open_log (_ : bytes) : option (@LogDB SortedLog.rocks) := Some SortedLog.empty.
Definition client_rpc (uri : bytes) : @Rpc toy_erpc := empty_toy uri 0.

Definition platform1 : Platform := @platform MapDb.kv SortedLog.rocks 5 ClientSample.env0 (fun _ => 0) (fun _ => 0).


(** The server, and a client that starts when [n] clients have started before it. *)
Definition server1 : cluster :=
  match @init_and_start_loop MapDb.kv SortedLog.rocks toy_erpc open_map open_log empty_toy 20 cfg_one [1; 0]%nat process0 with
  | Done (_, c) => c
  | Fault _ => process0
  end.

Definition nth_client (n : Z) : outcome (@client platform1) :=
  match @start_client map_memcached toy_erpc platform1 (fun _ _ => true) (fun _ => true) 20 client_rpc client_file
          (Some (text "client.json")) (site_of server1 : @Net platform1) {[text "CLIENT_ID" := n]} with
  | Done (c, _) => Done c
  | Fault f => Fault f
  end.

(** Reading the region map leaves the number of the client in the request buffer, where the next
    request has its region: the requests of the second client are for region 1, which the server
    does not have, and bring it down. *)
Lemma second_client_faults :
  exists c, nth_client 1 = Done c /\
    hook_stat (text "/m") 3 j0 (text "/m/f") kstat0 0 c = Fault NullDeref.
Proof.
  assert (match nth_client 1 with
          | Done c => match hook_stat (text "/m") 3 j0 (text "/m/f") kstat0 0 c with Fault NullDeref => true | _ => false end
          | Fault _ => false
          end = true) as H by (vm_compute; reflexivity).
  destruct (nth_client 1) as [c|]; [|discriminate]. exists c. split; [reflexivity|].
  destruct (hook_stat _ _ _ _ _ _ c) as [|[]]; first [discriminate|reflexivity].
Qed.

End Deploy.
