(* ===== verification/Interleave.v ===== *)
(** * The interleavings of a server process

    The threads of a process take their steps in any order: a foreground thread serves a request
    (a handler of server_handler.cc), the split thread does a turn of its loop
    (split_region_thread of metafs_server.cc).  A step is a whole handler or a whole turn.  What is
    shown of every interleaving is that the inodes in the directory entries that mknod and mkdir
    store are all different, and that the inodes they answer with are those. *)

From Stdlib Require Import ZArith Lia.
From stdpp Require Import base numbers list gmap sorting.
From S2P Require Import Prelude DoubleArith JumpHash Types XXHash Stores Wire Server Handlers HandlerSpec Split.
From S2P Require Import RegionTheorems Json JsonText JsonItem Config Sessions Startup Sample Process.
Open Scope Z_scope.

Module Interleave.
Import Process.

(** ** The inode counter of a thread *)

Section Counter.
Context {KV : MetaKV} {RK : RocksDB} {KVL : MetaKVLaws KV}.
Local Open Scope m_scope.

(** [s_ctx->alloc_inode++] on a [uint64_t]. *)
Definition next_inode (i : Z) : Z := u64 (i + 1).

(** The numbers of [x'] are those of [x], but for [k] increments of the counter. *)
Definition counted (k : nat) (x x' : server_context) : Prop :=
  thread_id x' = thread_id x /\ global_id x' = global_id x /\ alloc_inode x' = Nat.iter k next_inode (alloc_inode x).

(** [c] takes at most [n] inodes. *)
Definition takes {A} (n : nat) (c : M world A) : Prop :=
  forall w a w', c w = Done (a, w') -> exists k, (k <= n)%nat /\ counted k (ctx w) (ctx w').

Lemma counted_refl x : counted 0 x x.
Proof. repeat split. Qed.

Lemma counted_trans k k' x y z : counted k x y -> counted k' y z -> counted (k' + k) x z.
Proof.
  intros (A1 & A2 & A3) (B1 & B2 & B3). split; [congruence|]. split; [congruence|]. rewrite B3, A3. symmetry.
  apply Nat.iter_add.
Qed.

Lemma takes_ret {A} n (a : A) : takes n (ret a).
Proof. intros w x w' [= <- <-]. exists 0%nat. auto using counted_refl with lia. Qed.

Lemma takes_raise {A} n f : takes n (raise f : M world A).
Proof. intros w x w'. discriminate. Qed.

Lemma takes_gets {A} n (f : world -> A) : takes n (gets f).
Proof. intros w x w' [= <- <-]. exists 0%nat. auto using counted_refl with lia. Qed.

Lemma takes_upd_glob n f : takes n (upd_glob f).
Proof. intros w x w' [= <- <-]. exists 0%nat. auto using counted_refl with lia. Qed.

Lemma takes_response n r : takes n (enqueue_response r).
Proof. intros w x w' [= <- <-]. exists 0%nat. auto using counted_refl with lia. Qed.

Lemma takes_upd_ctx n f : (forall x, counted 0 x (f x)) -> takes n (upd_ctx f).
Proof. intros Hf w x w' [= <- <-]. exists 0%nat. split; [lia|apply Hf]. Qed.

Lemma takes_bind {A B} n (c : M world A) (k : A -> M world B) : takes 0 c -> (forall a, takes n (k a)) ->
  takes n (bind c k).
Proof.
  intros Hc Hk w b w' H. apply bind_Done in H as (a & w1 & H1 & H2).
  destruct (Hc _ _ _ H1) as (k1 & L1 & C1), (Hk _ _ _ _ H2) as (k2 & L2 & C2).
  exists (k2 + k1)%nat. split; [lia|]. eapply counted_trans; eassumption.
Qed.

(** The two statements that take an inode. *)
Lemma takes_inode {B} (k : Z -> unit -> M world B) : (forall i u, takes 0 (k i u)) ->
  takes 1 (let* i := gets (fun w => alloc_inode (ctx w)) in let* u := upd_ctx (set_alloc_inode (u64 (i + 1))) in k i u).
Proof.
  intros Hk w b w' H. apply bind_Done in H as (i & w1 & [= <- <-] & H).
  apply bind_Done in H as ([] & w2 & [= <-] & H).
  destruct (Hk _ _ _ _ _ H) as (k' & Hle & Hc). exists (k' + 1)%nat. split; [lia|].
  eapply counted_trans; [|exact Hc]. repeat split.
Qed.

Ltac takes :=
  repeat first
    [ progress intros
    | assumption
    | apply takes_ret | apply takes_raise | apply takes_gets | apply takes_upd_glob | apply takes_response
    | solve [apply takes_upd_ctx; intros; repeat split]
    | apply takes_inode
    | apply takes_bind
    | match goal with
      | H : forall _, takes _ _ |- _ => solve [apply H]
      | |- takes _ (when_ ?b _) => unfold when_
      | |- takes _ (p_assert _) => unfold p_assert
      | |- takes _ (if ?b then _ else _) => destruct b
      | |- takes _ (match ?x with _ => _ end) => destruct x
      end ].

Lemma takes_region_at n rid : takes n (region_at rid).
Proof. unfold region_at. takes. Qed.

Lemma takes_upd_region n rid f : takes n (upd_region rid f).
Proof. apply takes_upd_ctx. intros. repeat split. Qed.

Lemma takes_kv_get {A} n (f : MetaDb -> A) : takes n (kv_get f).
Proof. apply takes_gets. Qed.

Lemma takes_kv_put {A} n (f : MetaDb -> A * MetaDb) : takes n (kv_put f).
Proof. unfold kv_put. takes. Qed.

Lemma takes_kv_num_add n rid d : takes n (kv_num_add rid d).
Proof. apply takes_bind; [apply takes_region_at|]. intros _. apply takes_upd_region. Qed.

Lemma takes_fresh n fuel : takes n (fresh_region_id fuel).
Proof. induction fuel as [|fuel IH]; cbn [fresh_region_id]; [apply takes_raise|]. unfold jump_target. takes. Qed.

Lemma takes_maybe_split n fuel rid : takes n (maybe_split fuel rid).
Proof.
  pose proof (takes_region_at 0 rid). pose proof (takes_fresh 0 fuel).
  unfold maybe_split, check_region_and_split, upd_region. takes.
Qed.

Lemma takes_log n j rid del p f st i : takes n (log_if_split j rid del p f st i).
Proof. pose proof (takes_region_at 0 rid). unfold log_if_split, log_op, upd_region, log_put. takes. Qed.

Lemma takes_build n j num : forall buf, takes n (build_region j num buf).
Proof.
  induction num as [|num IH]; intros buf; cbn [build_region]; [apply takes_ret|].
  unfold read_inode, read_fname, fname_slice, kv_put. takes.
Qed.

Lemma takes_replay n j rid num : forall buf, takes n (replay_log j rid num buf).
Proof.
  pose proof (takes_region_at 0 rid). induction num as [|num IH]; intros buf; cbn [replay_log]; [apply takes_ret|].
  unfold read_inode, read_fname, fname_slice, kv_put, kv_num_add, upd_region. takes.
Qed.

Lemma takes_status n r : takes n (check_region_status r).
Proof. unfold check_region_status. takes. Qed.

Lemma takes_convert n st : takes n (convert_status_to_resptype st).
Proof. unfold convert_status_to_resptype. takes. Qed.

Lemma takes_slice n f : takes n (fname_slice f).
Proof. unfold fname_slice. takes. Qed.

(** A handler takes at most one inode, and only mknod and mkdir take one. *)
Lemma serve_takes fuel j now old q :
  takes (match q with MknodReq _ | FSMkdirReq _ => 1 | _ => 0 end) (serve fuel j now old q).
Proof.
  destruct q; cbn [serve];
    unfold fs_open_handler, fs_unlink_handler, fs_stat_handler, fs_mknod_handler, fs_mkdir_handler, fs_rmdir_handler,
      fs_readdir_handler, fs_getinode_handler, read_region_map_handler, s2s_create_region_handler, s2s_send_region_handler,
      s2s_send_region_log_handler, copy_entries; cbv zeta.
  all: repeat first
    [ apply takes_region_at | apply takes_upd_region | apply takes_kv_get | apply takes_kv_put | apply takes_kv_num_add
    | apply takes_maybe_split | apply takes_fresh | apply takes_log | apply takes_build | apply takes_replay | apply takes_status
    | apply takes_convert | apply takes_slice | progress takes ].
Qed.

(** ** The split thread takes none *)

(** [c] leaves the numbers of all threads as they are. *)
Definition quiet {A} (c : M cluster A) : Prop :=
  forall s a s', c s = Done (a, s') ->
  forall i x, threads s !! i = Some x -> exists x', threads s' !! i = Some x' /\ counted 0 x x'.

Lemma quiet_ret {A} (a : A) : quiet (ret a).
Proof. intros s b s' [= <- <-] i x Hx. eauto using counted_refl. Qed.

Lemma quiet_raise {A} f : quiet (raise f : M cluster A).
Proof. intros s b s'. discriminate. Qed.

Lemma quiet_gets {A} (f : cluster -> A) : quiet (gets f).
Proof. intros s b s' [= <- <-] i x Hx. eauto using counted_refl. Qed.

Lemma quiet_modify f : (forall s, threads (f s) = threads s) -> quiet (modify f).
Proof. intros Hf s b s' [= <- <-] i x Hx. rewrite Hf. eauto using counted_refl. Qed.

Lemma quiet_bind {A B} (c : M cluster A) (k : A -> M cluster B) : quiet c -> (forall a, quiet (k a)) ->
  quiet (bind c k).
Proof.
  intros Hc Hk s b s' H i x Hx. apply bind_Done in H as (a & s1 & H1 & H2).
  destruct (Hc _ _ _ H1 i x Hx) as (x1 & Hx1 & C1), (Hk _ _ _ _ H2 i x1 Hx1) as (x2 & Hx2 & C2).
  exists x2. split; [exact Hx2|]. exact (counted_trans 0 0 _ _ _ C1 C2).
Qed.

(** A step of thread [tid] counts on that thread only. *)
Lemma on_thread_takes {A} n tid (c : M world A) s a s' i x : takes n c -> on_thread tid c s = Done (a, s') ->
  threads s !! i = Some x -> exists x' k, threads s' !! i = Some x' /\ (k <= n)%nat /\ (i <> tid -> k = 0%nat) /\
    counted k x x'.
Proof.
  intros Hc Hs Hx. unfold on_thread in Hs. destruct (threads s !! tid) as [y|] eqn:Ey; [|discriminate].
  destruct (c _) as [[b w]|f] eqn:Ec; [|discriminate]. injection Hs as <- <-. cbn [threads].
  destruct (decide (i = tid)) as [->|Hne].
  - destruct (Hc _ _ _ Ec) as (k & Hk & Hct). cbn [ctx] in Hct. assert (y = x) as -> by congruence.
    exists (ctx w), k. rewrite lookup_insert_eq. split; [reflexivity|]. split; [exact Hk|]. split; [tauto|exact Hct].
  - exists x, 0%nat. rewrite lookup_insert_ne by congruence. split; [exact Hx|]. split; [lia|].
    auto using counted_refl.
Qed.

(** [on_ctx] is a step of the thread [s_ctx] points to. *)
Lemma on_ctx_thread {A} (c : M world A) s tid : s_ctx s = Some tid ->
  on_ctx c s = match threads s !! tid with None => Fault NullDeref | Some _ => on_thread tid c s end.
Proof. intros E. unfold on_ctx, on_thread. rewrite E. destruct (threads s !! tid); reflexivity. Qed.

Lemma quiet_on_ctx {A} (c : M world A) : takes 0 c -> quiet (on_ctx c).
Proof.
  intros Hc s a s' Hs i x Hx. destruct (s_ctx s) as [tid|] eqn:Et;
    [|unfold on_ctx in Hs; rewrite Et in Hs; discriminate].
  rewrite (on_ctx_thread c s tid Et) in Hs. destruct (threads s !! tid); [|discriminate].
  destruct (on_thread_takes 0 tid c s a s' i x Hc Hs Hx) as (x' & k & Hx' & Hk & _ & Hct).
  assert (k = 0%nat) as -> by lia. eauto.
Qed.

Lemma quiet_call fuel j old sid q : quiet (call_peer fuel j old sid q).
Proof.
  intros s a s' Hs i x Hx. unfold call_peer in Hs. destruct (peers s !! sid); [|discriminate].
  destruct (serve _ _ _ _ _ _) as [[b w1]|]; [|discriminate]. destruct (last (outbox w1)); [|discriminate].
  injection Hs as <- <-. eauto using counted_refl.
Qed.

Ltac quiet :=
  repeat first
    [ progress intros
    | assumption
    | apply quiet_ret | apply quiet_raise | apply quiet_gets | apply quiet_call
    | solve [apply quiet_modify; reflexivity]
    | apply quiet_on_ctx; solve [takes | apply takes_upd_region | apply takes_region_at | apply takes_kv_get]
    | match goal with H : forall _, quiet _ |- _ => solve [apply H] end
    | match goal with H : forall _ _, quiet _ |- _ => solve [apply H] end
    | apply quiet_bind
    | match goal with
      | |- quiet (p_assert _) => unfold p_assert
      | |- quiet (let '(_, _) := ?x in _) => destruct x
      | |- quiet (if ?b then _ else _) => destruct b
      | |- quiet (match ?x with _ => _ end) => destruct x
      end ].

Lemma quiet_session rid : quiet (server_session_id rid).
Proof. unfold server_session_id. quiet. Qed.

Lemma quiet_find rid : quiet (find_region rid).
Proof. unfold find_region. quiet. Qed.

Lemma quiet_fields l : quiet (write_fields l).
Proof. apply quiet_modify. reflexivity. Qed.

Lemma quiet_fill off src : quiet (fill_entries off src).
Proof. pose proof quiet_fields. unfold fill_entries. quiet. Qed.

Lemma quiet_sent off : quiet (sent_entries off).
Proof. apply quiet_gets. Qed.

Lemma quiet_hand_over r left_id : quiet (hand_over r left_id).
Proof. pose proof quiet_find. unfold hand_over. quiet. Qed.

Lemma quiet_send_log j old r sid fuel : forall next, quiet (send_log_loop fuel j old r sid next).
Proof.
  pose proof quiet_find. pose proof quiet_fields. pose proof quiet_fill. pose proof quiet_sent.
  pose proof quiet_hand_over.
  induction fuel as [|fuel IH]; intros next; cbn [send_log_loop]; quiet.
Qed.

Lemma quiet_send_dirs j old over r sid h fuel : forall pinodes off, quiet (send_dirs fuel j old over r sid h pinodes off).
Proof.
  pose proof quiet_find. pose proof quiet_fields. pose proof quiet_fill. pose proof quiet_sent.
  induction fuel as [|fuel IH]; intros pinodes off; cbn [send_dirs]; [apply quiet_raise|].
  unfold dump_entries. quiet; apply IH.
Qed.

Lemma quiet_send_hashes fuel j old over r sid n : forall h, quiet (send_hashes n fuel j old over r sid h).
Proof.
  pose proof (fun h => quiet_send_dirs j old over r sid h fuel) as Hd.
  induction n as [|n IH]; intros h; cbn [send_hashes]; [apply quiet_ret|]. quiet; apply Hd.
Qed.

(** A turn of the split thread takes no inode of any thread of its process. *)
Lemma split_turn_quiet fuel j old over : quiet (split_region_step fuel j old over).
Proof.
  pose proof quiet_session. pose proof quiet_find. pose proof quiet_fields.
  unfold split_region_step, rpc_create_region, rpc_create_region_cb, rpc_send_region, rpc_send_region_log.
  quiet; [apply quiet_send_hashes|apply quiet_send_log].
Qed.

(** ** What mknod and mkdir store and answer *)

(** The store and the responses stay, and no inode is taken. *)
Definition keep (w w' : world) : Prop :=
  metadb (ctx w') = metadb (ctx w) /\ outbox w' = outbox w /\ counted 0 (ctx w) (ctx w').

#[local] Instance keep_preorder : PreOrder keep.
Proof.
  split; [intros w; repeat split|]. intros w1 w2 w3 (A1 & A2 & A3) (B1 & B2 & B3). split; [congruence|].
  split; [congruence|].
  exact (counted_trans 0 0 _ _ _ A3 B3).
Qed.

Lemma keep_run {A} (c : M world A) w a w' : frames keep c -> c w = Done (a, w') -> keep w w'.
Proof. intros Hc Hrun. specialize (Hc w). unfold wpx in Hc. rewrite Hrun in Hc. exact Hc. Qed.

Lemma frames_upd_ctx f : (forall x, metadb (f x) = metadb x /\ counted 0 x (f x)) -> frames keep (upd_ctx f).
Proof. intros Hf. apply frames_modify. intros w. split; [apply Hf|]. split; [reflexivity|apply Hf]. Qed.

Lemma frames_upd_glob f : frames keep (upd_glob f).
Proof. apply frames_modify. intros w. repeat split. Qed.

Ltac keeps :=
  repeat first
    [ progress intros
    | apply frames_ret | apply frames_raise | apply frames_gets | apply frames_assert | apply frames_upd_glob
    | solve [apply frames_upd_ctx; intros; repeat split]
    | solve [auto with frames]
    | apply frames_bind; [exact _| |]
    | match goal with
      | |- frames _ (when_ ?b _) => apply frames_when; [exact _|]
      | |- frames _ (if ?b then _ else _) => destruct b
      | |- frames _ (match ?x with _ => _ end) => destruct x
      end ].

Lemma keep_region_at rid : frames keep (region_at rid).
Proof. unfold region_at. keeps. Qed.

#[local] Hint Resolve keep_region_at : frames.

Lemma keep_kv_num_add rid d : frames keep (kv_num_add rid d).
Proof. unfold kv_num_add, upd_region. keeps. Qed.

Lemma keep_split fuel rid : frames keep (maybe_split fuel rid).
Proof.
  assert (frames keep (fresh_region_id fuel)) as Hf
    by (induction fuel as [|fuel IH]; cbn [fresh_region_id]; unfold jump_target; keeps).
  unfold maybe_split, check_region_and_split, upd_region. keeps.
Qed.

Lemma keep_log j rid del p f st i : frames keep (log_if_split j rid del p f st i).
Proof. unfold log_if_split, log_op, upd_region, log_put. keeps. Qed.

Lemma keep_status r : frames keep (check_region_status r).
Proof. unfold check_region_status. keeps. Qed.

Lemma keep_slice f : frames keep (fname_slice f).
Proof. unfold fname_slice. keeps. Qed.

(** The inode that a success response carries. *)
Definition told_inode (r : wire_resp) : option Z :=
  match r with
  | RStat x => if bool_decide (st_resp_type x = kSuccess) then Some (st_inode x) else None
  | RInode x => if bool_decide (ir_resp_type x = kSuccess) then Some (ir_inode x) else None
  | _ => None
  end.

Definition told (rs : list wire_resp) : list Z := omap told_inode rs.

(** The inodes of the directory entries that are new in the store of [x']. *)
Definition stored (x x' : server_context) : list Z :=
  map snd (map_to_list (dents (metadb x') ∖ dents (metadb x))).

(** A request that creates either leaves the entries as they are and tells no inode, or takes one
    value of the counter, adds an entry with the inode [v] and tells [v] or nothing. *)
Definition created (v : Z) (w w' : world) : Prop :=
  exists k rs, (k <= 1)%nat /\ counted k (ctx w) (ctx w') /\ outbox w' = outbox w ++ rs /\
    (dents (metadb (ctx w')) = dents (metadb (ctx w)) /\ told rs = [] \/
     k = 1%nat /\ stored (ctx w) (ctx w') = [v] /\ (told rs = [] \/ told rs = [v])).

Lemma stored_one x x' k v :
  dents (metadb x) !! k = None -> dents (metadb x') = <[k := v]> (dents (metadb x)) -> stored x x' = [v].
Proof.
  intros Hk Hd. unfold stored. rewrite Hd.
  assert (<[k := v]> (dents (metadb x)) ∖ dents (metadb x) = {[k := v]}) as ->.
  { apply map_eq. intros k'. destruct (decide (k' = k)) as [->|Hne].
    - rewrite lookup_singleton_eq. apply lookup_difference_Some. rewrite lookup_insert_eq. auto.
    - rewrite lookup_singleton_ne by congruence. apply lookup_difference_None.
      rewrite lookup_insert_ne by congruence. destruct (dents (metadb x) !! k'); eauto. }
  rewrite map_to_list_singleton. reflexivity.
Qed.

Lemma stored_none x x' : dents (metadb x') = dents (metadb x) -> stored x x' = [].
Proof. intros Hd. unfold stored. rewrite Hd, map_difference_diag, map_to_list_empty. reflexivity. Qed.

(** The insertion of the entry. *)
Lemma insert_entry p f v w st w' : kv_put (fun db => InsertFileInode db p f v) w = Done (st, w') ->
  exists db', w' = with_db db' w /\
    (check_status_ok st = true /\ dents (metadb (ctx w)) !! (p, f) = None /\
       dents db' = <[(p, f) := v]> (dents (metadb (ctx w))) \/
     check_status_ok st = false /\ dents db' = dents (metadb (ctx w))).
Proof.
  unfold kv_put, bind, gets. destruct (dents (metadb (ctx w)) !! (p, f)) as [i|] eqn:E.
  - destruct (InsertFileInode_exists _ p f v i E) as (db' & -> & Hd & _). intros [= <- <-].
    exists db'. split; [reflexivity|]. auto.
  - destruct (InsertFileInode_fresh _ p f v E) as (st' & db' & -> & Hcase & _). intros [= <- <-].
    exists db'. split; [reflexivity|]. destruct Hcase as [[-> Hd]|(_ & -> & Hd)]; auto.
Qed.

(** The insertion of the stat record leaves the entries. *)
Lemma insert_stat_entries i s w st w' : kv_put (fun db => InsertStat db i s) w = Done (st, w') ->
  exists db', w' = with_db db' w /\ dents db' = dents (metadb (ctx w)).
Proof.
  unfold kv_put, bind, gets. destruct (stats (metadb (ctx w)) !! i) as [s1|] eqn:E.
  - destruct (InsertStat_exists _ i s s1 E) as (db' & -> & _ & Hd). intros [= <- <-]. eauto.
  - destruct (InsertStat_fresh _ i s E) as (st' & db' & -> & _ & Hd). intros [= <- <-]. eauto.
Qed.

(** From [w] to [w1]: [k] inodes were taken, the responses [rs] were sent, and [D] are the entries. *)
Definition reached (w : world) (k : nat) (rs : list wire_resp) (D : gmap (Z * bytes) Z) (w1 : world) : Prop :=
  counted k (ctx w) (ctx w1) /\ outbox w1 = outbox w ++ rs /\ dents (metadb (ctx w1)) = D.

Lemma bind_keep {A B} w k rs D (c : M world A) (f : A -> M world B) (Q : B -> world -> Prop) w1 :
  frames keep c -> reached w k rs D w1 ->
  (forall a w2, reached w k rs D w2 -> wpx (fun _ => True) (f a) Q w2) -> wpx (fun _ => True) (bind c f) Q w1.
Proof.
  intros Hc (R1 & R2 & R3) Hf. apply wpx_bind. eapply wpx_mono; [apply Hc|auto|]. intros a w2 (K1 & K2 & K3).
  apply Hf.
  split; [exact (counted_trans _ _ _ _ _ R1 K3)|]. split; congruence.
Qed.

(** A response of a misrouted request comes first, and tells nothing. *)
Lemma bind_misrouted {B} w k D b r (f : unit -> M world B) (Q : B -> world -> Prop) w1 :
  told_inode r = None -> reached w k [] D w1 ->
  (forall rs w2, told rs = [] -> reached w k rs D w2 -> wpx (fun _ => True) (f tt) Q w2) ->
  wpx (fun _ => True) (bind (when_ b (enqueue_response r)) f) Q w1.
Proof.
  intros Hr (R1 & R2 & R3) Hf. rewrite app_nil_r in R2. apply wpx_bind. destruct b; cbn.
  - apply (Hf [r]); [unfold told; cbn; rewrite Hr; reflexivity|]. split; [exact R1|].
    split; [cbn; congruence|exact R3].
  - apply (Hf []); [reflexivity|]. split; [exact R1|]. split; [rewrite app_nil_r; congruence|exact R3].
Qed.

(** The end of the handler: a split may start, the operation may be logged, one response is sent. *)
Lemma creation_answered w k rs D fuel j rid p f st i status (mk : RespType -> wire_resp) (Q : unit -> world ->
  Prop) w1 :
  reached w k rs D w1 ->
  (forall t w2, (check_status_ok status = false -> t <> kSuccess) -> reached w k (rs ++ [mk t]) D w2 -> Q tt w2) ->
  wpx (fun _ => True) (maybe_split fuel rid ;;; log_if_split j rid false p f st i ;;;
    let* t := convert_status_to_resptype status in enqueue_response (mk t)) Q w1.
Proof.
  intros HR HQ. eapply bind_keep; [apply keep_split|exact HR|]. clear w1 HR. intros [] w1 HR.
  eapply bind_keep; [apply keep_log|exact HR|]. clear w1 HR. intros [] w1 (R1 & R2 & R3). apply wpx_bind.
  assert (forall t, (check_status_ok status = false -> t <> kSuccess) ->
    wpx (fun _ => True) (enqueue_response (mk t)) Q w1) as H.
  { intros t Ht. apply (HQ t); [exact Ht|]. split; [exact R1|].
    split; [cbn; rewrite R2, app_assoc; reflexivity|exact R3]. }
  destruct status; try exact I; apply H; discriminate.
Qed.

Lemma told_app rs r : told rs = [] -> told (rs ++ [r]) = match told_inode r with Some v => [v] | None => [] end.
Proof. intros H. unfold told in *. rewrite omap_app, H. cbn. destruct (told_inode r); reflexivity. Qed.

Lemma reached_kept w k rs w1 v : (k <= 1)%nat -> told rs = [] ->
  reached w k rs (dents (metadb (ctx w))) w1 -> created v w w1.
Proof. intros Hk Ht (R1 & R2 & R3). exists k, rs. auto 10. Qed.

Lemma reached_added w rs key w1 v : dents (metadb (ctx w)) !! key = None -> told rs = [] \/ told rs = [v] ->
  reached w 1 rs (<[key := v]> (dents (metadb (ctx w)))) w1 -> created v w w1.
Proof. intros Hk Ht (R1 & R2 & R3). exists 1%nat, rs. pose proof (stored_one _ _ key v Hk R3). auto 10. Qed.

(** [inode = s_ctx->alloc_inode++] *)
Lemma bind_inode {B} w rs D (f : Z -> unit -> M world B) (Q : B -> world -> Prop) w1 : reached w 0 rs D w1 ->
  (forall w2, reached w 1 rs D w2 -> wpx (fun _ => True) (f (alloc_inode (ctx w)) tt) Q w2) ->
  wpx (fun _ => True)
    (let* i := gets (fun w => alloc_inode (ctx w)) in let* u := upd_ctx (set_alloc_inode (u64 (i + 1))) in f i u) Q w1.
Proof.
  intros ((C1 & C2 & C3) & R2 & R3) Hf. cbn in C3. unfold wpx, bind, gets, upd_ctx, modify. rewrite C3. apply Hf.
  split; [|split; [exact R2|exact R3]]. repeat split; assumption.
Qed.

Lemma bind_entry {B} w rs D p f v (k : MetaKvStatus -> M world B) (Q : B -> world -> Prop) w1 : reached w 1 rs D w1 ->
  (forall st w2, check_status_ok st = true -> D !! (p, f) = None -> reached w 1 rs (<[(p, f) := v]> D) w2 ->
     wpx (fun _ => True) (k st) Q w2) ->
  (forall st w2, check_status_ok st = false -> reached w 1 rs D w2 -> wpx (fun _ => True) (k st) Q w2) ->
  wpx (fun _ => True) (bind (kv_put (fun db => InsertFileInode db p f v)) k) Q w1.
Proof.
  intros (R1 & R2 & R3) Hnew Hold. apply wpx_bind. unfold wpx at 1.
  destruct (kv_put _ w1) as [[st w2]|] eqn:Hput; [|exact I].
  apply insert_entry in Hput as (db & -> & Hcase). rewrite R3 in Hcase.
  destruct Hcase as [(Hok & Hn & Hd)|(Hok & Hd)].
  - apply Hnew; [assumption..|]. split; [exact R1|]. split; [exact R2|exact Hd].
  - apply Hold; [assumption|]. split; [exact R1|]. split; [exact R2|exact Hd].
Qed.

Lemma bind_stat {B} w k rs D i s (f : MetaKvStatus -> M world B) (Q : B -> world -> Prop) w1 : reached w k rs D w1 ->
  (forall st w2, reached w k rs D w2 -> wpx (fun _ => True) (f st) Q w2) ->
  wpx (fun _ => True) (bind (kv_put (fun db => InsertStat db i s)) f) Q w1.
Proof.
  intros (R1 & R2 & R3) Hf. apply wpx_bind. unfold wpx at 1.
  destruct (kv_put _ w1) as [[st w2]|] eqn:Hput; [|exact I].
  apply insert_stat_entries in Hput as (db & -> & Hd). apply Hf. split; [exact R1|].
  split; [exact R2|cbn; congruence].
Qed.

(** A request that is not served. *)
Lemma refused_creates w rs r v w1 : told rs = [] -> told_inode r = None ->
  reached w 0 rs (dents (metadb (ctx w))) w1 ->
  wpx (fun _ => True) (enqueue_response r) (fun _ w' => created v w w') w1.
Proof.
  intros Hrs Hr (R1 & R2 & R3). apply (reached_kept w 0 (rs ++ [r]));
    [lia|rewrite told_app, Hr by exact Hrs; reflexivity|].
  split; [exact R1|]. split; [cbn; rewrite R2, app_assoc; reflexivity|exact R3].
Qed.

Lemma reached_start w : reached w 0 [] (dents (metadb (ctx w))) w.
Proof. split; [apply counted_refl|rewrite app_nil_r; auto]. Qed.

Ltac keep_step lemma w := eapply bind_keep; [apply lemma|eassumption|clear dependent w; intros ? w ?].

Lemma mknod_creates fuel j req resp w :
  wpx (fun _ => True) (fs_mknod_handler fuel j req resp) (fun _ w' => created (alloc_inode (ctx w)) w w') w.
Proof.
  unfold fs_mknod_handler. cbv zeta. eapply bind_keep; [apply keep_region_at|apply reached_start|]. intros r w1 HR.
  eapply bind_misrouted; [reflexivity|exact HR|]. clear w1 HR. intros rs w1 Hrs HR. keep_step keep_status w1.
  destruct a; [|eapply refused_creates; [exact Hrs|cbn; unfold not_served; destruct (decide _); reflexivity|
    eassumption]].
  eapply bind_inode; [eassumption|]. clear dependent w1. intros w1 HR. keep_step keep_slice w1.
  eapply bind_entry; [eassumption|..]; intros st w2 Hok.
  - intros Hnew HR. rewrite Hok. apply wpx_bind. eapply bind_stat; [exact HR|]. clear dependent w2. intros st' w2 HR.
    keep_step keep_kv_num_add w2. apply wpx_ret.
    eapply (creation_answered w 1 rs _ fuel j _ _ _ _ _ st' (fun t =>
      RStat {| st_resp_type := t; st_inode := _; st_stat := _ |}));
      [eassumption|].
    intros t w3 _ HR'. eapply reached_added; [exact Hnew| |exact HR']. rewrite told_app by exact Hrs. cbn.
    case_bool_decide; auto.
  - intros HR. rewrite Hok. apply wpx_bind, wpx_ret.
    eapply (creation_answered w 1 rs _ fuel j _ _ _ _ _ st (fun t =>
      RStat {| st_resp_type := t; st_inode := _; st_stat := _ |}));
      [eassumption|].
    intros t w3 Ht HR'. eapply reached_kept; [| |exact HR']; [lia|]. rewrite told_app by exact Hrs. cbn.
    rewrite bool_decide_false by (apply Ht, Hok). reflexivity.
Qed.

Lemma mkdir_creates fuel j req resp w :
  wpx (fun _ => True) (fs_mkdir_handler fuel j req resp)
    (fun _ w' => created (Z.lor (alloc_inode (ctx w)) inode_prefix_msb) w w') w.
Proof.
  unfold fs_mkdir_handler. cbv zeta. eapply bind_keep; [apply keep_region_at|apply reached_start|]. intros r w1 HR.
  eapply bind_misrouted; [reflexivity|exact HR|]. clear w1 HR. intros rs w1 Hrs HR. keep_step keep_status w1.
  destruct a; [|eapply refused_creates; [exact Hrs|cbn; unfold not_served; destruct (decide _); reflexivity|
    eassumption]].
  eapply bind_inode; [eassumption|]. clear dependent w1. intros w1 HR. keep_step keep_slice w1.
  eapply bind_entry; [eassumption|..]; intros st w2 Hok.
  - intros Hnew HR. rewrite Hok. apply wpx_bind. eapply bind_stat; [exact HR|]. clear dependent w2. intros st' w2 HR.
    keep_step keep_kv_num_add w2. keep_step keep_region_at w2.
    eapply bind_keep; [keeps|eassumption|]. clear dependent w2. intros [] w2 HR. apply wpx_ret.
    eapply (creation_answered w 1 rs _ fuel j _ _ _ _ _ st' (fun t => RInode {| ir_resp_type := t; ir_inode := _ |}));
      [eassumption|].
    intros t w3 _ HR'. eapply reached_added; [exact Hnew| |exact HR']. rewrite told_app by exact Hrs. cbn.
    case_bool_decide; auto.
  - intros HR. rewrite Hok. apply wpx_bind, wpx_ret.
    eapply (creation_answered w 1 rs _ fuel j _ _ _ _ _ st (fun t => RInode {| ir_resp_type := t; ir_inode := _ |}));
      [eassumption|].
    intros t w3 Ht HR'. eapply reached_kept; [| |exact HR']; [lia|]. rewrite told_app by exact Hrs. cbn.
    rewrite bool_decide_false by (apply Ht, Hok). reflexivity.
Qed.

(** The inode of a request that creates. *)
Definition new_inode (q : wire_req) (i : Z) : option Z :=
  match q with
  | MknodReq _ => Some i
  | FSMkdirReq _ => Some (Z.lor i inode_prefix_msb)
  | _ => None
  end.

Lemma serve_creates fuel j now old q w w' v :
  serve fuel j now old q w = Done (tt, w') -> new_inode q (alloc_inode (ctx w)) = Some v -> created v w w'.
Proof.
  intros Hrun Hv. destruct q; try discriminate; injection Hv as <-; cbn [serve] in Hrun.
  - pose proof (mknod_creates fuel j r (old_stat old) w) as H. unfold wpx in H. rewrite Hrun in H. exact H.
  - pose proof (mkdir_creates fuel j r (old_inode old) w) as H. unfold wpx in H. rewrite Hrun in H. exact H.
Qed.

(** ** Runs *)

(** The inodes in the directory entries that mknod and mkdir add to the store, and those in the
    success responses they send. *)
Definition handed (q : wire_req) (x x' : server_context) : list Z :=
  match q with MknodReq _ | FSMkdirReq _ => stored x x' | _ => [] end.

Definition answered (q : wire_req) (rs : list wire_resp) : list Z :=
  match q with MknodReq _ | FSMkdirReq _ => told rs | _ => [] end.

(** A step of a process of [F] foreground threads, with the inodes it stores and those it answers. *)
Inductive pstep (F : Z) : cluster -> list Z -> list Z -> cluster -> Prop :=
  | Request fuel j now old q tid s s' x x' rs :
      0 <= tid < F -> threads s !! tid = Some x ->
      on_thread tid (dispatch fuel j now old q ;;; gets outbox) s = Done (rs, s') -> threads s' !! tid = Some x' ->
      pstep F s (handed q x x') (answered q rs) s'
  | SplitTurn fuel j old over s s' :
      split_region_step fuel j old over s = Done (tt, s') -> pstep F s [] [] s'
  | OtherServers p s :
      pstep F s [] [] {| threads := threads s; pglob := pglob s; s_ctx := s_ctx s; peers := p; st_req := st_req s |}.

(** [n] steps, the last inode first. *)
Inductive runs (F : Z) : nat -> cluster -> list Z -> list Z -> cluster -> Prop :=
  | Runs_0 s : runs F 0 s [] [] s
  | Runs_S n s l t s1 l' t' s2 : runs F n s l t s1 -> pstep F s1 l' t' s2 -> runs F (S n) s (l' ++ l) (t' ++ t) s2.

(** The threads of server [id] have started. *)
Definition fresh_process (id F : Z) (s : cluster) : Prop :=
  0 <= id < 256 /\ F <= MAX_FG_THREADS /\
  forall i, 0 <= i < F -> exists x, threads s !! i = Some x /\ alloc_inode x = init_alloc_inode id i.

(** The inode made from the value [m] of the counter of thread [tid] of server [id]. *)
Definition inode_of (id tid m : Z) (dir : bool) : Z :=
  if dir then Z.lor (init_alloc_inode id tid + m) inode_prefix_msb else init_alloc_inode id tid + m.

Lemma inode_of_inj id tid m d id' tid' m' d' :
  0 <= id < 256 -> 0 <= tid < 256 -> 0 <= id' < 256 -> 0 <= tid' < 256 -> 0 <= m < 2 ^ 40 - 1 ->
    0 <= m' < 2 ^ 40 - 1 ->
  inode_of id tid m d = inode_of id' tid' m' d' -> id = id' /\ tid = tid' /\ m = m'.
Proof.
  intros Hi Ht Hi' Ht' Hm Hm'. unfold inode_of. rewrite !init_alloc_inode_value by assumption.
  rewrite !lor_msb_add by lia. destruct d, d'; intros E; lia.
Qed.

(** What [n] steps leave: the counters are inside their blocks, and the inodes handed out come from
    values the counters have passed. *)
Record passed (id F : Z) (n : nat) (l : list Z) (s : cluster) : Prop := {
  pa_counters i : 0 <= i < F -> exists x k, threads s !! i = Some x /\ 0 <= k <= Z.of_nat n /\
    alloc_inode x = init_alloc_inode id i + k;
  pa_inodes v : v ∈ l -> exists i x m d, 0 <= i < F /\ threads s !! i = Some x /\ 0 <= m /\
    init_alloc_inode id i + m < alloc_inode x /\ v = inode_of id i m d;
  pa_once : NoDup l
}.

(** A step that stores no inode; a counter may still move, when a name exists already. *)
Lemma passed_same id F n l s s' : 0 <= id < 256 -> F <= MAX_FG_THREADS -> Z.of_nat n < 2 ^ 40 - 1 ->
  (forall i x, threads s !! i = Some x -> exists x' k, threads s' !! i = Some x' /\ (k <= 1)%nat /\ counted k x x') ->
  passed id F n l s -> passed id F (S n) l s'.
Proof.
  unfold MAX_FG_THREADS. intros Hid HF Hn Hq [P1 P2 P3].
  assert (forall i x k, 0 <= i < F -> threads s !! i = Some x -> 0 <= k <= Z.of_nat n ->
    alloc_inode x = init_alloc_inode id i + k ->
    exists x' d, threads s' !! i = Some x' /\ 0 <= d <= 1 /\ alloc_inode x' = alloc_inode x + d) as Hmove.
  { intros i x k Hi Hx Hk Ha. destruct (Hq i x Hx) as (x' & j & Hx' & Hj & _ & _ & Hc). exists x', (Z.of_nat j).
    split; [exact Hx'|]. split; [lia|]. assert (j = 0 \/ j = 1)%nat as [->| ->] by lia; cbn in Hc; [lia|].
    unfold next_inode in Hc. rewrite u64_small in Hc by (unfold is_u64; rewrite Ha, init_alloc_inode_value by lia;
      lia). lia. }
  split; [| |exact P3].
  - intros i Hi. destruct (P1 i Hi) as (x & k & Hx & Hk & Ha).
    destruct (Hmove i x k Hi Hx Hk Ha) as (x' & d & Hx' & Hd & Ha').
    exists x', (k + d). split; [exact Hx'|]. lia.
  - intros v Hv. destruct (P2 v Hv) as (i & x & m & d & Hi & Hx & Hm & Hlt & ->).
    destruct (P1 i Hi) as (y & k & Hy & Hk & Ha). assert (y = x) as -> by congruence.
    destruct (Hmove i x k Hi Hx Hk Ha) as (x' & d' & Hx' & Hd & Ha'). exists i, x', m, d.
    repeat split; try assumption; lia.
Qed.

(** A step that takes one inode of thread [tid]. *)
Lemma passed_take id F n l s s' tid x x' k d :
  0 <= id < 256 -> F <= MAX_FG_THREADS -> Z.of_nat n < 2 ^ 40 - 1 -> 0 <= tid < F ->
  threads s !! tid = Some x -> threads s' !! tid = Some x' -> 0 <= k <= Z.of_nat n ->
  alloc_inode x = init_alloc_inode id tid + k -> alloc_inode x' = alloc_inode x + 1 ->
  (forall i, i <> tid -> forall y, threads s !! i = Some y -> exists y', threads s' !! i = Some y' /\
    alloc_inode y' = alloc_inode y) ->
  passed id F n l s -> passed id F (S n) (inode_of id tid k d :: l) s'.
Proof.
  intros Hid HF Hn Htid Hx Hx' Hk Ha Ha' Hother [P1 P2 P3]. unfold MAX_FG_THREADS in HF. split.
  - intros i Hi. destruct (decide (i = tid)) as [->|Hne]; [exists x', (k + 1); split; [exact Hx'|]; lia|].
    destruct (P1 i Hi) as (y & k' & Hy & Hk' & Hay). destruct (Hother i Hne y Hy) as (y' & Hy' & E).
    exists y', k'. split; [exact Hy'|]. lia.
  - intros v [->|Hv]%elem_of_cons; [exists tid, x', k, d; repeat split; try assumption; lia|].
    destruct (P2 v Hv) as (i & y & m & d' & Hi & Hy & Hm & Hlt & ->).
    destruct (decide (i = tid)) as [->|Hne].
    + exists tid, x', m, d'. assert (y = x) as -> by congruence. repeat split; try assumption; lia.
    + destruct (Hother i Hne y Hy) as (y' & Hy' & E). exists i, y', m, d'. rewrite E. auto.
  - constructor; [|exact P3]. intros Hin. destruct (P2 _ Hin) as (i & y & m & d' & Hi & Hy & Hm & Hlt & E).
    destruct (P1 i Hi) as (y' & k' & Hy' & Hk' & Hay). assert (y' = y) as -> by congruence.
    apply inode_of_inj in E as (_ & <- & ->); try lia. assert (y = x) as -> by congruence. lia.
Qed.

Lemma dispatch_takes fuel j now old q : takes 1 (dispatch fuel j now old q).
Proof.
  intros w a w' H. rewrite dispatch_serve in H. destruct (serve_takes fuel j now old q w a w' H) as (k & Hk & Hc).
  exists k. split; [|exact Hc]. destruct q; lia.
Qed.

Lemma request_run tid (c : M world unit) s rs s' x :
  on_thread tid (c ;;; gets outbox) s = Done (rs, s') -> threads s !! tid = Some x ->
  exists w, c {| ctx := x; glob := pglob s; outbox := [] |} = Done (tt, w) /\ rs = outbox w /\
    on_thread tid c s = Done (tt, s') /\ threads s' !! tid = Some (ctx w).
Proof.
  unfold on_thread. intros Hrun Hx. rewrite Hx in Hrun |- *. unfold bind, gets in Hrun.
  destruct (c _) as [[[] w]|]; [|discriminate]. injection Hrun as <- <-. exists w. cbn. rewrite lookup_insert_eq.
  auto.
Qed.

Lemma passed_request id F n l s s' fuel j now old q tid x x' rs :
  0 <= id < 256 -> F <= MAX_FG_THREADS -> Z.of_nat n < 2 ^ 40 - 1 -> 0 <= tid < F -> threads s !! tid = Some x ->
  on_thread tid (dispatch fuel j now old q ;;; gets outbox) s = Done (rs, s') -> threads s' !! tid = Some x' ->
  passed id F n l s -> passed id F (S n) (handed q x x' ++ l) s' /\ answered q rs `sublist_of` handed q x x'.
Proof.
  intros Hid HF Hn Htid Hx Hs Hx' Hp. destruct (request_run _ _ _ _ _ _ Hs Hx) as (w & Hw & -> & Hs' & E).
  rewrite Hx' in E. injection E as ->. rewrite dispatch_serve in Hw.
  pose proof (fun i y => on_thread_takes 1 tid _ s tt s' i y (dispatch_takes fuel j now old q) Hs') as Hall.
  assert (passed id F (S n) l s') as Hsame.
  { apply (passed_same id F n l s); auto. intros i y Hy. destruct (Hall i y Hy) as (y' & k & Hy' & Hk & _ & Hc).
    eauto. }
  destruct (new_inode q (alloc_inode x)) as [v|] eqn:Hv; [|destruct q; try discriminate; split; try exact Hsame;
    constructor].
  assert (handed q x (ctx w) = stored x (ctx w) /\ answered q (outbox w) = told (outbox w)) as [-> ->]
    by (destruct q; try discriminate; auto).
  pose proof (serve_creates fuel j now old q _ w v Hw Hv) as (k & rs & Hk & Hc & Ho & Hcase). cbn in Ho, Hc, Hcase.
  rewrite Ho.
  destruct Hcase as [[Hd ->]|(-> & Hst & Htold)].
  { rewrite (stored_none x (ctx w) Hd). split; [exact Hsame|constructor]. }
  rewrite Hst. split; [|destruct Htold as [-> | ->]; [apply sublist_nil_l|reflexivity]].
  destruct (pa_counters _ _ _ _ _ Hp tid Htid) as (y & m & Hy & Hm & Ha). assert (y = x) as -> by congruence.
  assert (exists d, v = inode_of id tid m d) as [d ->].
  { rewrite Ha in Hv. destruct q; try discriminate; injection Hv as <-; [exists false|exists true]; reflexivity. }
  destruct Hc as (_ & _ & Hc). cbn in Hc. unfold next_inode, MAX_FG_THREADS in *.
  rewrite u64_small in Hc by (unfold is_u64; rewrite Ha, init_alloc_inode_value by lia; lia).
  apply (passed_take id F n l s s' tid x (ctx w) m d); auto. intros i Hne z Hz.
  destruct (Hall i z Hz) as (z' & k' & Hz' & _ & H0 & (_ & _ & Hcz)). rewrite (H0 Hne) in Hcz. eauto.
Qed.

Lemma runs_passed id F n s l t s' : fresh_process id F s -> Z.of_nat n <= 2 ^ 40 - 1 -> runs F n s l t s' ->
  passed id F n l s' /\ t `sublist_of` l.
Proof.
  intros (Hid & HF & Hfresh) Hn Hrun. induction Hrun as [s|n s l t s1 l' t' s2 Hrun IH Hstep].
  - split; [|constructor]. split; [|set_solver|constructor].
    intros i Hi. destruct (Hfresh i Hi) as (x & Hx & Ha). exists x, 0. split; [exact Hx|]. lia.
  - destruct (IH Hfresh ltac:(lia)) as [IH1 IH2].
    destruct Hstep as [fuel j now old q tid s1 s' x x' rs Htid Hx Hs Hx'|fuel j old over s1 s' Hs|p s1].
    + destruct (passed_request id F n l s1 s' fuel j now old q tid x x' rs) as [H1 H2]; auto; [lia|].
      split; [exact H1|]. apply sublist_app; assumption.
    + split; [|exact IH2]. apply (passed_same id F n l s1); auto; [lia|]. intros i x Hx.
      destruct (split_turn_quiet fuel j old over _ _ _ Hs i x Hx) as (x' & Hx' & Hc). exists x', 0%nat. auto.
    + split; [|exact IH2]. apply (passed_same id F n l s1); auto; [lia|]. intros i x Hx. exists x, 0%nat.
      auto using counted_refl.
Qed.

(** The threads of [boot_process] are such a process. *)
Lemma booted_fresh id F s_cfg open_metadb open_rocksdb mdir rdir s :
  id = Config.id s_cfg -> F = server_fg_threads s_cfg -> 0 <= id < 256 -> F <= MAX_FG_THREADS ->
  (forall i, Z.of_nat i < F -> exists x, threads s !! Z.of_nat i = Some x /\
    started open_metadb open_rocksdb s_cfg mdir rdir i x) ->
  fresh_process id F s.
Proof.
  intros -> -> Hid HF Hs. split; [exact Hid|]. split; [exact HF|]. intros i Hi.
  destruct (Hs (Z.to_nat i)) as (x & Hx & Hst); [lia|]. rewrite Z2Nat.id in Hx by lia. exists x. split; [exact Hx|].
  rewrite (sd_inode _ _ _ _ _ _ _ Hst), Z2Nat.id by lia. reflexivity.
Qed.

(** The inodes of the thread blocks of server [id]: the bits above the 40 of the counter are the
    server's and the thread's id, and the top bit marks a directory. *)
Definition in_blocks (id F v : Z) : Prop :=
  exists tid m dir, 0 <= tid < F /\ 0 <= m < 2 ^ 40 /\ v = inode_of id tid m dir.

Lemma passed_in_blocks id F n l s : Z.of_nat n < 2 ^ 40 -> passed id F n l s -> Forall (in_blocks id F) l.
Proof.
  intros Hn [P1 P2 _]. apply Forall_forall. intros v Hv.
  destruct (P2 v Hv) as (i & x & m & d & Hi & Hx & Hm & Hlt & ->).
  destruct (P1 i Hi) as (y & k & Hy & Hk & Ha). assert (y = x) as -> by congruence. exists i, m, d.
  split; [exact Hi|]. split; [lia|reflexivity].
Qed.


End Counter.

(** ** Two servers at work *)

Import Sample.

(** Server [id] with two threads. *)
Definition pair_of (id : Z) : cluster :=
  let at_ (tid : Z) := set_region_map {[0 := Some region0]} (set_alloc_inode (init_alloc_inode id tid) ctx0) in
  {| threads := {[0 := at_ 0; 1 := at_ 1]}; pglob := glob0; s_ctx := None; peers := ∅; st_req := [] |}.

Definition served (tid : Z) (q : wire_req) (s : cluster) : cluster :=
  match on_thread tid (dispatch 1 j0 0 old0 q) s with Done (_, s') => s' | Fault _ => s end.

Definition worked (id : Z) : cluster :=
  served 0 (FSMkdirReq mkdir_d) (served 1 (MknodReq mknod_a) (served 0 (MknodReq mknod_a) (pair_of id))).

Definition inodes (id : Z) : list Z := [inode_of id 0 1 true; inode_of id 1 0 false; inode_of id 0 0 false].

Lemma pair_fresh id : 0 <= id < 256 -> fresh_process id 2 (pair_of id).
Proof.
  intros Hid. split; [exact Hid|]. split; [unfold MAX_FG_THREADS; lia|]. intros i Hi.
  assert (i = 0 \/ i = 1) as [->| ->] by lia; eexists; split; reflexivity.
Qed.

(** The inodes of that step, when the handler returns. *)
Definition step_inodes (tid : Z) (q : wire_req) (s : cluster) : option (list Z * list Z) :=
  match threads s !! tid, on_thread tid (bind (dispatch 1 j0 0 old0 q) (fun _ =>
    gets outbox)) s, threads (served tid q s) !! tid with
  | Some x, Done (rs, _), Some x' => Some (handed q x x', answered q rs)
  | _, _, _ => None
  end.

Lemma served_runs n s l t tid q s1 l' :
  runs 2 n s l t s1 -> 0 <= tid < 2 -> step_inodes tid q s1 = Some (l', l') ->
    runs 2 (S n) s (l' ++ l) (l' ++ t) (served tid q s1).
Proof.
  intros Hr Htid Hl. unfold step_inodes in Hl. destruct (threads s1 !! tid) as [x|] eqn:Hx; [|discriminate].
  destruct (on_thread _ _ s1) as [[rs s']|] eqn:Hs; [|discriminate].
  destruct (threads (served _ _ _) !! tid) as [x'|] eqn:Hx'; [|discriminate]. injection Hl as <- E. rewrite <- E at 2.
  apply (Runs_S 2 n s l t s1); [exact Hr|]. apply (Request 2 1 j0 0 old0 q tid); auto.
  destruct (request_run _ _ _ _ _ _ Hs Hx) as (w & _ & _ & Hs' & _). unfold served. rewrite Hs'. exact Hs.
Qed.

(** Two mknods and a mkdir, on both threads. *)
Lemma worked_runs id : id = 0 \/ id = 7 -> runs 2 3 (pair_of id) (inodes id) (inodes id) (worked id).
Proof.
  intros Hid. apply (served_runs 2 _ [inode_of id 1 0 false; inode_of id 0 0 false] _ 0 _ _ [inode_of id 0 1 true]);
    [|lia|destruct Hid as [->| ->]; vm_compute; reflexivity].
  apply (served_runs 1 _ [inode_of id 0 0 false] _ 1 _ _ [inode_of id 1 0 false]);
    [|lia|destruct Hid as [->| ->]; vm_compute; reflexivity].
  apply (served_runs 0 _ [] [] 0 _ _ [inode_of id 0 0 false]); [constructor|lia|destruct Hid as [->| ->]; vm_compute;
    reflexivity].
Qed.


End Interleave.
