(* ===== verification/ErpcMsg.v ===== *)
(** * Packets and message buffers of eRPC

    The packet header of pkthdr.h with its bit fields, the message buffers of msg_buffer.h, and the
    functions of rpc.h that size them and move data between packets and buffers
    (src/thirdparty/eRPC/src).  The transport is the InfiniBand one that config.h selects. *)

From Stdlib Require Import ZArith Lia.
From stdpp Require Import base numbers list.
From S2P Require Import Prelude.
Open Scope Z_scope.

Module ErpcMsg.

(** ** Constants *)

Definition kMTU : Z := 3840.
Definition sizeof_pkthdr : Z := 16.
Definition kMaxDataPerPkt : Z := kMTU - sizeof_pkthdr.
Definition k_max_class_size : Z := 8 * 2 ^ 20.
Definition kMaxMsgSize : Z := k_max_class_size - (k_max_class_size / kMaxDataPerPkt) * sizeof_pkthdr.

Definition kSessionCredits : Z := 32.
Definition kSessionReqWindow : Z := 8.

Definition kMsgSizeBits : Z := 24.
Definition kReqNumBits : Z := 44.
Definition kPktNumBits : Z := 14.
Definition kPktHdrMagic : Z := 11.
Definition kInvalidReqType : Z := 255.

(** ** Packet headers *)

Inductive PktType := kReq | kRFR | kExplCR | kResp.

#[export] Instance PktType_eq_dec : EqDecision PktType.
Proof. solve_decision. Defined.

Record pkthdr_t := {
  req_type_ : Z;
  msg_size_ : Z;
  dest_session_num_ : Z;
  pkt_type_ : PktType;
  pkt_num_ : Z;
  req_num_ : Z;
  magic_ : Z
}.

(** A store into a bit field of [n] bits. *)
Definition bits (n z : Z) : Z := z mod 2 ^ n.

(** The header with all fields but the magic number assigned. *)
Definition fill (req_type msg_size dest_session_num : Z) (pkt_type : PktType) (pkt_num req_num magic : Z) : pkthdr_t :=
  {| req_type_ := bits 8 req_type; msg_size_ := bits kMsgSizeBits msg_size; dest_session_num_ := bits 16 dest_session_num;
     pkt_type_ := pkt_type; pkt_num_ := bits kPktNumBits pkt_num; req_num_ := bits kReqNumBits req_num; magic_ := magic |}.

Definition format (req_type msg_size dest_session_num : Z) (pkt_type : PktType) (pkt_num req_num : Z) : pkthdr_t :=
  fill req_type msg_size dest_session_num pkt_type pkt_num req_num kPktHdrMagic.

Definition set_pkt_num (n : Z) (h : pkthdr_t) : pkthdr_t :=
  {| req_type_ := req_type_ h; msg_size_ := msg_size_ h; dest_session_num_ := dest_session_num_ h; pkt_type_ := pkt_type_ h;
     pkt_num_ := bits kPktNumBits n; req_num_ := req_num_ h; magic_ := magic_ h |}.

Definition check_magic (h : pkthdr_t) : bool := magic_ h =? kPktHdrMagic.

(** *** The bytes of a header *)

Definition pkt_type_code (t : PktType) : Z := match t with kReq => 0 | kRFR => 1 | kExplCR => 2 | kResp => 3 end.
Definition pkt_type_of (z : Z) : PktType := if z =? 0 then kReq else if z =? 1 then kRFR else if z =? 2 then kExplCR else kResp.

(** Two bytes of headroom, a 32-bit unit, a 16-bit unit and a 64-bit unit; a unit holds its fields
    from its lowest bit on. *)
Definition pkthdr_bytes (headroom : bytes) (h : pkthdr_t) : bytes :=
  headroom ++ le_bytes 4 (req_type_ h + 2 ^ 8 * msg_size_ h) ++ le_bytes 2 (dest_session_num_ h) ++
  le_bytes 8 (pkt_type_code (pkt_type_ h) + 2 ^ 2 * pkt_num_ h + 2 ^ 16 * req_num_ h + 2 ^ 60 * magic_ h).

Definition field (lo width z : Z) : Z := (z / 2 ^ lo) mod 2 ^ width.

Definition read_pkthdr (s : bytes) : pkthdr_t :=
  let a := le_value (take 4 (drop 2 s)) in
  let d := le_value (take 2 (drop 6 s)) in
  let b := le_value (take 8 (drop 8 s)) in
  {| req_type_ := field 0 8 a; msg_size_ := field 8 24 a; dest_session_num_ := d;
     pkt_type_ := pkt_type_of (field 0 2 b); pkt_num_ := field 2 14 b; req_num_ := field 16 44 b; magic_ := field 60 4 b |}.

Record hdr_ok (h : pkthdr_t) : Prop := {
  ho_type : 0 <= req_type_ h < 2 ^ 8;
  ho_size : 0 <= msg_size_ h < 2 ^ 24;
  ho_dest : 0 <= dest_session_num_ h < 2 ^ 16;
  ho_pkt : 0 <= pkt_num_ h < 2 ^ 14;
  ho_req : 0 <= req_num_ h < 2 ^ 44;
  ho_magic : 0 <= magic_ h < 2 ^ 4
}.

(** A header survives the wire. *)
Lemma pkthdr_roundtrip headroom h : length headroom = 2%nat -> hdr_ok h -> read_pkthdr (pkthdr_bytes headroom h) = h.
Proof.
  intros Hl [H1 H2 H3 H4 H5 H6]. destruct h as [ty sz dst pt pn rn mg]. cbn in *.
  unfold read_pkthdr, pkthdr_bytes. cbn [req_type_ msg_size_ dest_session_num_ pkt_type_ pkt_num_ req_num_ magic_].
  assert (0 <= pkt_type_code pt < 4) as Hc by (destruct pt; cbn; lia).
  set (a := ty + 2 ^ 8 * sz). set (b := pkt_type_code pt + 2 ^ 2 * pn + 2 ^ 16 * rn + 2 ^ 60 * mg).
  assert (0 <= a < 2 ^ 32) as Ha by (subst a; lia). assert (0 <= b < 2 ^ 64) as Hb by (subst b; lia).
  rewrite !(drop_app_ge headroom) by lia. rewrite Hl. change (2 - 2)%nat with 0%nat. change (6 - 2)%nat with 4%nat.
  change (8 - 2)%nat with 6%nat. rewrite drop_0.
  rewrite take_app_length' by (rewrite length_le_bytes; reflexivity).
  rewrite (drop_app_length' _ _ 4) by (rewrite length_le_bytes; reflexivity). rewrite take_app_length' by (rewrite length_le_bytes; reflexivity).
  replace 6%nat with (4 + 2)%nat by reflexivity. rewrite <- drop_drop.
  rewrite (drop_app_length' _ _ 4) by (rewrite length_le_bytes; reflexivity). rewrite (drop_app_length' _ _ 2) by (rewrite length_le_bytes; reflexivity).
  rewrite take_ge by (rewrite length_le_bytes; lia).
  rewrite !le_value_le_bytes. change (256 ^ Z.of_nat 4) with (2 ^ 32). change (256 ^ Z.of_nat 2) with (2 ^ 16).
  change (256 ^ Z.of_nat 8) with (2 ^ 64). rewrite !Z.mod_small by assumption.
  assert (pkt_type_of (pkt_type_code pt) = pt) as Hpt by (destruct pt; reflexivity).
  unfold field. f_equal; [| |etransitivity; [|exact Hpt]; f_equal| | |]; subst a b; change (2 ^ 0) with 1;
    rewrite ?Z.div_1_r; Z.div_mod_to_equations; lia.
Qed.

(** ** Message buffers *)

(** The headers and the data of a buffer; the data array has [max_data_size_] bytes. *)
Record MsgBuffer := {
  max_data_size_ : Z;
  data_size_ : Z;
  max_num_pkts_ : Z;
  num_pkts_ : Z;
  hdrs : list pkthdr_t;
  data : bytes
}.

(** A packet on the wire. *)
Record packet := { p_hdr : pkthdr_t; p_data : bytes }.

Definition data_size_to_num_pkts (data_size : Z) : Z :=
  if data_size <=? kMaxDataPerPkt then 1 else (data_size + kMaxDataPerPkt - 1) / kMaxDataPerPkt.

(** What the memory of a header holds before it is written. *)
Definition blank (magic : Z) : pkthdr_t := fill 0 0 0 kReq 0 0 magic.

(** [alloc_msg_buffer]: [mem] is what the block holds, [None] without huge pages; the constructor
    writes the magic number of the first header. *)
Definition alloc_msg_buffer (mem : option bytes) (max_data_size : Z) : outcome (option MsgBuffer) :=
  if max_data_size <=? 0 then Fault AssertFailed
  else match mem with
  | None => Done None
  | Some m =>
      let n := data_size_to_num_pkts max_data_size in
      Done (Some {| max_data_size_ := max_data_size; data_size_ := max_data_size; max_num_pkts_ := n; num_pkts_ := n;
                    hdrs := blank kPktHdrMagic :: repeat (blank 0) (Z.to_nat n - 1); data := take (Z.to_nat max_data_size) m |})
  end.

(** The buffer that lies on a received packet. *)
Definition fake_msg_buffer (p : packet) (max_data_size : Z) : MsgBuffer :=
  {| max_data_size_ := max_data_size; data_size_ := max_data_size; max_num_pkts_ := 1; num_pkts_ := 1;
     hdrs := [p_hdr p]; data := take (Z.to_nat max_data_size) (p_data p) |}.

Definition set_size (data_size num_pkts : Z) (b : MsgBuffer) : MsgBuffer :=
  {| max_data_size_ := max_data_size_ b; data_size_ := data_size; max_num_pkts_ := max_num_pkts_ b; num_pkts_ := num_pkts;
     hdrs := hdrs b; data := data b |}.

Definition set_hdrs (l : list pkthdr_t) (b : MsgBuffer) : MsgBuffer :=
  {| max_data_size_ := max_data_size_ b; data_size_ := data_size_ b; max_num_pkts_ := max_num_pkts_ b; num_pkts_ := num_pkts_ b;
     hdrs := l; data := data b |}.

Definition set_data (d : bytes) (b : MsgBuffer) : MsgBuffer :=
  {| max_data_size_ := max_data_size_ b; data_size_ := data_size_ b; max_num_pkts_ := max_num_pkts_ b; num_pkts_ := num_pkts_ b;
     hdrs := hdrs b; data := d |}.

(** [resize_msg_buffer] with the assertions of [resize]. *)
Definition resize_msg_buffer (b : MsgBuffer) (new_data_size : Z) : outcome MsgBuffer :=
  let n := data_size_to_num_pkts new_data_size in
  if (new_data_size <=? max_data_size_ b) && (n <=? max_num_pkts_ b) then Done (set_size new_data_size n b)
  else Fault AssertFailed.

(** The first header. *)
Definition get_pkthdr_0 (b : MsgBuffer) : pkthdr_t := match hdrs b with h :: _ => h | [] => blank 0 end.

(** Writing the headers of a message: those after the first are copies of it with their own
    packet number. *)
Definition write_hdrs (h0 : pkthdr_t) (first : Z) (b : MsgBuffer) : MsgBuffer :=
  set_hdrs (h0 :: map (fun i => set_pkt_num (first + Z.of_nat i) h0) (seq 1 (Z.to_nat (num_pkts_ b) - 1))
              ++ drop (Z.to_nat (num_pkts_ b)) (hdrs b)) b.

(** [get_pkt_size] without the header. *)
Definition get_pkt_data_size (b : MsgBuffer) (pkt_idx : Z) : Z :=
  Z.min kMaxDataPerPkt (u64 (data_size_ b - pkt_idx * kMaxDataPerPkt)).

(** The packet that is put on the wire for a buffer and an index. *)
Definition packet_at (b : MsgBuffer) (pkt_idx : Z) : outcome packet :=
  let off := Z.to_nat (pkt_idx * kMaxDataPerPkt) in
  let n := Z.to_nat (get_pkt_data_size b pkt_idx) in
  match hdrs b !! Z.to_nat pkt_idx with
  | Some h => if (off + n <=? length (data b))%nat then Done {| p_hdr := h; p_data := take n (drop off (data b)) |}
              else Fault OutOfBounds
  | None => Fault OutOfBounds
  end.

(** [copy_data_to_msgbuf] *)
Definition copy_data_to_msgbuf (b : MsgBuffer) (pkt_idx : Z) (p : packet) : outcome MsgBuffer :=
  let off := pkt_idx * kMaxDataPerPkt in
  let to_copy := Z.to_nat (Z.min kMaxDataPerPkt (u64 (msg_size_ (p_hdr p) - off))) in
  if (to_copy <=? length (p_data p))%nat && (Z.to_nat off + to_copy <=? length (data b))%nat
  then Done (set_data (write_at (Z.to_nat off) (take to_copy (p_data p)) (data b)) b)
  else Fault OutOfBounds.

(** The wire protocol's number of a response packet as its index in the response. *)
Definition resp_ntoi (pkt_num num_req_pkts : Z) : Z := u64 (pkt_num - (num_req_pkts - 1)).

(** The packets one endpoint sends for a request and its response. *)
Definition wire_pkts (req resp : MsgBuffer) : Z := num_pkts_ req + num_pkts_ resp - 1.

(** *** The layout of a buffer *)

Definition round_up8 (x : Z) : Z := Z.land (x + 7) (Z.lnot 7).

(** The offset of a header from the start of the block: the first one is in front of the data, the
    others are behind it. *)
Definition pkthdr_offset (max_data_size n : Z) : Z :=
  if n =? 0 then 0 else sizeof_pkthdr + round_up8 max_data_size + (n - 1) * sizeof_pkthdr.

Lemma round_up8_spec x : 0 <= x -> x <= round_up8 x < x + 8 /\ round_up8 x mod 8 = 0.
Proof.
  intros Hx. unfold round_up8. rewrite <- Z.ldiff_land. change 7 with (Z.ones 3). rewrite Z.ldiff_ones_r by lia.
  rewrite Z.shiftl_mul_pow2, Z.shiftr_div_pow2 by lia. change (2 ^ 3) with 8. change (Z.ones 3) with 7.
  Z.div_mod_to_equations. lia.
Qed.

(** The headers of a block whose class is a multiple of 8 are inside it, behind the data and apart
    from each other. *)
Lemma headers_fit class max_data_size n :
  0 <= max_data_size -> class mod 8 = 0 -> max_data_size + data_size_to_num_pkts max_data_size * sizeof_pkthdr <= class ->
  0 < n < data_size_to_num_pkts max_data_size ->
  sizeof_pkthdr + max_data_size <= pkthdr_offset max_data_size n /\
  pkthdr_offset max_data_size n + sizeof_pkthdr <= class /\
  pkthdr_offset max_data_size (n + 1) = pkthdr_offset max_data_size n + sizeof_pkthdr.
Proof.
  intros Hm Hc Hfit Hn. destruct (round_up8_spec max_data_size Hm) as [H1 H2]. unfold pkthdr_offset, sizeof_pkthdr in *.
  destruct (Z.eqb_spec n 0); [lia|]. destruct (Z.eqb_spec (n + 1) 0); [lia|]. Z.div_mod_to_equations. lia.
Qed.

End ErpcMsg.
