(* ===== verification/ErpcSlot.v ===== *)
(** * Session slots: the data path of eRPC

    The two ends of a connected session of src/thirdparty/eRPC/src: the client's slots with
    enqueue_request (rpc_req.cc), the responses and credit returns (rpc_resp.cc, rpc_cr.cc), the
    packets sent for credits (rpc_kick.cc), the stall queue and the wheel (rpc_queues.cc) and the
    retransmission (rpc_pkt_loss.cc); the server's slots with the requests (rpc_req.cc), the
    requests for responses (rpc_rfr.cc) and enqueue_response (rpc_resp.cc).

    Time is not part of the state: which packets of the wheel are due, which requests have timed
    out and whether the session is congested are arguments.  A packet is built when the code
    enqueues it for transmission.  Continuations and handlers run in the foreground. *)

From Stdlib Require Import ZArith Lia.
From stdpp Require Import base numbers list.
From S2P Require Import Prelude ErpcMsg.
Open Scope Z_scope.

Module ErpcSlot.
Export ErpcMsg.
Local Open Scope m_scope.

Definition run {S A} (o : outcome A) : M S A := match o with Done a => ret a | Fault f => raise f end.

(** ** The client's end *)

(** The arguments of [enqueue_request]; the tag stands for the continuation and its tag. *)
Record enq_req_args_t := { a_req_type : Z; a_req_msgbuf : MsgBuffer; a_resp_msgbuf : MsgBuffer; a_tag : Z }.

Record cslot := {
  cur_req_num_ : Z;
  tx_msgbuf_ : option MsgBuffer;
  resp_msgbuf_ : MsgBuffer;
  tag_ : Z;
  num_tx_ : Z;
  num_rx_ : Z;
  in_wheel_ : list bool;
  wheel_count_ : Z
}.

(** The session and what the endpoint keeps for it.  The free slots are a stack with its top first,
    [wheel_] holds the packets that are in the timing wheel or its ready queue.  [sent] is what has
    been given to the network, [started] and [conts] are the requests put into slots and the
    continuations run, the latest first. *)
Record client := {
  slots : list cslot;
  credits_ : Z;
  sslot_free_vec_ : list nat;
  enq_req_backlog_ : list enq_req_args_t;
  stallq_ : list nat;
  wheel_ : list (nat * Z);
  active_rpcs : list nat;
  local_session_num_ : Z;
  remote_session_num_ : Z;
  sent : list packet;
  started : list (Z * enq_req_args_t);
  conts : list (Z * Z * bytes)
}.

(** *** Assignments *)

Definition set_progress (tx rx : Z) (s : cslot) : cslot :=
  {| cur_req_num_ := cur_req_num_ s; tx_msgbuf_ := tx_msgbuf_ s; resp_msgbuf_ := resp_msgbuf_ s; tag_ := tag_ s;
     num_tx_ := tx; num_rx_ := rx; in_wheel_ := in_wheel_ s; wheel_count_ := wheel_count_ s |}.

Definition set_wheel (l : list bool) (n : Z) (s : cslot) : cslot :=
  {| cur_req_num_ := cur_req_num_ s; tx_msgbuf_ := tx_msgbuf_ s; resp_msgbuf_ := resp_msgbuf_ s; tag_ := tag_ s;
     num_tx_ := num_tx_ s; num_rx_ := num_rx_ s; in_wheel_ := l; wheel_count_ := n |}.

Definition set_resp (b : MsgBuffer) (s : cslot) : cslot :=
  {| cur_req_num_ := cur_req_num_ s; tx_msgbuf_ := tx_msgbuf_ s; resp_msgbuf_ := b; tag_ := tag_ s;
     num_tx_ := num_tx_ s; num_rx_ := num_rx_ s; in_wheel_ := in_wheel_ s; wheel_count_ := wheel_count_ s |}.

Definition set_tx (o : option MsgBuffer) (s : cslot) : cslot :=
  {| cur_req_num_ := cur_req_num_ s; tx_msgbuf_ := o; resp_msgbuf_ := resp_msgbuf_ s; tag_ := tag_ s;
     num_tx_ := num_tx_ s; num_rx_ := num_rx_ s; in_wheel_ := in_wheel_ s; wheel_count_ := wheel_count_ s |}.

Definition set_slots (l : list cslot) (c : client) : client :=
  {| slots := l; credits_ := credits_ c; sslot_free_vec_ := sslot_free_vec_ c; enq_req_backlog_ := enq_req_backlog_ c;
     stallq_ := stallq_ c; wheel_ := wheel_ c; active_rpcs := active_rpcs c; local_session_num_ := local_session_num_ c;
     remote_session_num_ := remote_session_num_ c; sent := sent c; started := started c; conts := conts c |}.

Definition set_credits (n : Z) (c : client) : client :=
  {| slots := slots c; credits_ := n; sslot_free_vec_ := sslot_free_vec_ c; enq_req_backlog_ := enq_req_backlog_ c;
     stallq_ := stallq_ c; wheel_ := wheel_ c; active_rpcs := active_rpcs c; local_session_num_ := local_session_num_ c;
     remote_session_num_ := remote_session_num_ c; sent := sent c; started := started c; conts := conts c |}.

Definition set_free (l : list nat) (c : client) : client :=
  {| slots := slots c; credits_ := credits_ c; sslot_free_vec_ := l; enq_req_backlog_ := enq_req_backlog_ c;
     stallq_ := stallq_ c; wheel_ := wheel_ c; active_rpcs := active_rpcs c; local_session_num_ := local_session_num_ c;
     remote_session_num_ := remote_session_num_ c; sent := sent c; started := started c; conts := conts c |}.

Definition set_backlog (l : list enq_req_args_t) (c : client) : client :=
  {| slots := slots c; credits_ := credits_ c; sslot_free_vec_ := sslot_free_vec_ c; enq_req_backlog_ := l;
     stallq_ := stallq_ c; wheel_ := wheel_ c; active_rpcs := active_rpcs c; local_session_num_ := local_session_num_ c;
     remote_session_num_ := remote_session_num_ c; sent := sent c; started := started c; conts := conts c |}.

Definition set_queues (stall : list nat) (w : list (nat * Z)) (act : list nat) (c : client) : client :=
  {| slots := slots c; credits_ := credits_ c; sslot_free_vec_ := sslot_free_vec_ c; enq_req_backlog_ := enq_req_backlog_ c;
     stallq_ := stall; wheel_ := w; active_rpcs := act; local_session_num_ := local_session_num_ c;
     remote_session_num_ := remote_session_num_ c; sent := sent c; started := started c; conts := conts c |}.

Definition set_logs (tx : list packet) (st : list (Z * enq_req_args_t)) (co : list (Z * Z * bytes)) (c : client) : client :=
  {| slots := slots c; credits_ := credits_ c; sslot_free_vec_ := sslot_free_vec_ c; enq_req_backlog_ := enq_req_backlog_ c;
     stallq_ := stallq_ c; wheel_ := wheel_ c; active_rpcs := active_rpcs c; local_session_num_ := local_session_num_ c;
     remote_session_num_ := remote_session_num_ c; sent := tx; started := st; conts := co |}.

Definition slot_at (i : nat) : M client cslot :=
  let* l := gets slots in
  match l !! i with Some s => ret s | None => raise OutOfBounds end.

Definition upd_slot (i : nat) (f : cslot -> cslot) : M client unit :=
  modify (fun c => set_slots (alter f i (slots c)) c).

(** A buffer behind a pointer that may be null. *)
Definition deref {S} (o : option MsgBuffer) : M S MsgBuffer := match o with Some b => ret b | None => raise NullDeref end.

Definition transmit (p : packet) : M client unit := modify (fun c => set_logs (p :: sent c) (started c) (conts c) c).

(** *** Sending *)

Definition enqueue_pkt_tx_burst_st (i : nat) (pkt_idx : Z) : M client unit :=
  let* s := slot_at i in
  let* b := deref (tx_msgbuf_ s) in
  let* p := run (packet_at b pkt_idx) in
  transmit p.

Definition enqueue_wheel_req_st (i : nat) (pkt_num : Z) : M client unit :=
  let* s := slot_at i in
  deref (tx_msgbuf_ s) ;;;
  modify (fun c => set_queues (stallq_ c) (wheel_ c ++ [(i, pkt_num)]) (active_rpcs c) c) ;;;
  upd_slot i (fun s => set_wheel (<[Z.to_nat (pkt_num mod kSessionCredits) := true]> (in_wheel_ s)) (wheel_count_ s + 1) s).

Definition can_bypass_wheel (s : cslot) (uncongested : bool) : bool := (wheel_count_ s =? 0) && uncongested.

Fixpoint kick_req_loop (n : nat) (bypass : bool) (i : nat) : M client unit :=
  match n with
  | O => ret tt
  | S n' =>
      let* s := slot_at i in
      (if bypass then enqueue_pkt_tx_burst_st i (num_tx_ s) else enqueue_wheel_req_st i (num_tx_ s)) ;;;
      upd_slot i (fun s => set_progress (num_tx_ s + 1) (num_rx_ s) s) ;;;
      modify (fun c => set_credits (credits_ c - 1) c) ;;;
      kick_req_loop n' bypass i
  end.

Definition kick_req_st (uncongested : bool) (i : nat) : M client unit :=
  let* credits := gets credits_ in
  p_assert (0 <? credits) ;;;
  let* s := slot_at i in
  let* b := deref (tx_msgbuf_ s) in
  let sending := Z.min credits (u64 (num_pkts_ b - num_tx_ s)) in
  kick_req_loop (Z.to_nat sending) (can_bypass_wheel s uncongested) i.

(** [enqueue_rfr_st]: the header is filled from the first header of the response. *)
Definition enqueue_rfr_st (i : nat) (resp_pkthdr : pkthdr_t) : M client unit :=
  let* s := slot_at i in
  let* dest := gets remote_session_num_ in
  transmit {| p_hdr := format (req_type_ resp_pkthdr) 0 dest kRFR (num_tx_ s) (req_num_ resp_pkthdr); p_data := [] |}.

Fixpoint kick_rfr_loop (n : nat) (i : nat) : M client unit :=
  match n with
  | O => ret tt
  | S n' =>
      let* s := slot_at i in
      enqueue_rfr_st i (get_pkthdr_0 (resp_msgbuf_ s)) ;;;
      upd_slot i (fun s => set_progress (num_tx_ s + 1) (num_rx_ s) s) ;;;
      modify (fun c => set_credits (credits_ c - 1) c) ;;;
      kick_rfr_loop n' i
  end.

Definition kick_rfr_st (i : nat) : M client unit :=
  let* credits := gets credits_ in
  let* s := slot_at i in
  let* b := deref (tx_msgbuf_ s) in
  let total := wire_pkts b (resp_msgbuf_ s) in
  p_assert (0 <? credits) ;;;
  p_assert (num_pkts_ b <=? num_rx_ s) ;;;
  p_assert (num_rx_ s <? total) ;;;
  kick_rfr_loop (Z.to_nat (Z.min credits (u64 (total - num_tx_ s)))) i.

Definition req_pkts_pending (i : nat) : M client bool :=
  let* s := slot_at i in
  let* b := deref (tx_msgbuf_ s) in
  ret (num_tx_ s <? num_pkts_ b).

Definition kick (uncongested : bool) (i : nat) : M client unit :=
  let* pending := req_pkts_pending i in
  if pending then kick_req_st uncongested i else kick_rfr_st i.

(** *** Requests *)

Definition enqueue_request (uncongested : bool) (args : enq_req_args_t) : M client unit :=
  let* free := gets sslot_free_vec_ in
  match free with
  | [] => modify (fun c => set_backlog (enq_req_backlog_ c ++ [args]) c)
  | i :: rest =>
      modify (set_free rest) ;;;
      let* s := slot_at i in
      p_assert (negb (bool_decide (is_Some (tx_msgbuf_ s)))) ;;;
      let* dest := gets remote_session_num_ in
      let n := u64 (cur_req_num_ s + kSessionReqWindow) in
      let req := a_req_msgbuf args in
      let h0 := fill (a_req_type args) (data_size_ req) dest kReq 0 n (magic_ (get_pkthdr_0 req)) in
      let req := write_hdrs h0 0 req in
      upd_slot i (fun s => {| cur_req_num_ := n; tx_msgbuf_ := Some req; resp_msgbuf_ := a_resp_msgbuf args; tag_ := a_tag args;
                              num_tx_ := 0; num_rx_ := 0; in_wheel_ := in_wheel_ s; wheel_count_ := wheel_count_ s |}) ;;;
      modify (fun c => set_queues (stallq_ c) (wheel_ c) (active_rpcs c ++ [i]) c) ;;;
      modify (fun c => set_logs (sent c) ((n, args) :: started c) (conts c) c) ;;;
      let* credits := gets credits_ in
      if 0 <? credits then kick_req_st uncongested i
      else modify (fun c => set_queues (stallq_ c ++ [i]) (wheel_ c) (active_rpcs c) c)
  end.

(** *** Receiving *)

Definition in_order_client (s : cslot) (h : pkthdr_t) : bool :=
  if negb (req_num_ h =? cur_req_num_ s) then false
  else if negb (pkt_num_ h =? num_rx_ s) then false
  else if num_tx_ s <=? pkt_num_ h then false
  else negb (default false (in_wheel_ s !! Z.to_nat (pkt_num_ h mod kSessionCredits))).

Definition bump_credits : M client unit :=
  let* n := gets credits_ in
  p_assert (n <? kSessionCredits) ;;;
  modify (set_credits (n + 1)).

Definition process_expl_cr_st (uncongested : bool) (i : nat) (h : pkthdr_t) : M client unit :=
  let* s := slot_at i in
  p_assert (req_num_ h <=? cur_req_num_ s) ;;;
  if negb (in_order_client s h) then ret tt
  else
    bump_credits ;;;
    upd_slot i (fun s => set_progress (num_tx_ s) (num_rx_ s + 1) s) ;;;
    let* pending := req_pkts_pending i in
    when_ pending (kick_req_st uncongested i).

(** The slot is free: the next request of the backlog gets it, and the continuation runs. *)
Definition finish_resp (uncongested : bool) (i : nat) : M client unit :=
  let* s := slot_at i in
  p_assert (wheel_count_ s =? 0) ;;;
  upd_slot i (set_tx None) ;;;
  modify (fun c => set_queues (stallq_ c) (wheel_ c) (filter (fun k => k <> i) (active_rpcs c)) c) ;;;
  let* free := gets sslot_free_vec_ in
  p_assert (length free <? Z.to_nat kSessionReqWindow)%nat ;;;
  modify (set_free (i :: free)) ;;;
  let* backlog := gets enq_req_backlog_ in
  (match backlog with
   | [] => ret tt
   | args :: _ =>
       let* free := gets sslot_free_vec_ in
       p_assert (length free =? 1)%nat ;;;
       enqueue_request uncongested args ;;;
       modify (fun c => set_backlog (tail (enq_req_backlog_ c)) c)
   end) ;;;
  let b := resp_msgbuf_ s in
  modify (fun c => set_logs (sent c) (started c) ((cur_req_num_ s, tag_ s, take (Z.to_nat (data_size_ b)) (data b)) :: conts c) c).

(** The header and the data of a packet that is the whole response. *)
Definition copy_small_resp (b : MsgBuffer) (p : packet) : outcome MsgBuffer :=
  let n := Z.to_nat (msg_size_ (p_hdr p)) in
  if (n <=? length (p_data p))%nat && (n <=? length (data b))%nat
  then Done (set_data (write_at 0 (take n (p_data p)) (data b)) (set_hdrs (p_hdr p :: tail (hdrs b)) b))
  else Fault OutOfBounds.

Definition process_resp_one_st (uncongested : bool) (i : nat) (p : packet) : M client unit :=
  let h := p_hdr p in
  let* s := slot_at i in
  p_assert (req_num_ h <=? cur_req_num_ s) ;;;
  if negb (in_order_client s h) then ret tt
  else
    bump_credits ;;;
    upd_slot i (fun s => set_progress (num_tx_ s) (num_rx_ s + 1) s) ;;;
    if msg_size_ h <=? kMaxDataPerPkt then
      let* b := run (resize_msg_buffer (resp_msgbuf_ s) (msg_size_ h)) in
      let* b := run (copy_small_resp b p) in
      upd_slot i (set_resp b) ;;;
      finish_resp uncongested i
    else
      let* req := deref (tx_msgbuf_ s) in
      (if pkt_num_ h =? num_pkts_ req - 1 then
         let* b := run (resize_msg_buffer (resp_msgbuf_ s) (msg_size_ h)) in
         upd_slot i (set_resp (set_hdrs (h :: tail (hdrs b)) b))
       else ret tt) ;;;
      let* s := slot_at i in
      when_ (negb (num_tx_ s =? wire_pkts req (resp_msgbuf_ s))) (kick_rfr_st i) ;;;
      let* b := run (copy_data_to_msgbuf (resp_msgbuf_ s) (resp_ntoi (pkt_num_ h) (num_pkts_ req)) p) in
      upd_slot i (set_resp b) ;;;
      if negb (num_rx_ s =? wire_pkts req (resp_msgbuf_ s)) then ret tt else finish_resp uncongested i.

(** A packet in [process_comps_st], for this session or another one.  Requests are for the other end. *)
Definition client_rx (uncongested : bool) (p : packet) : M client unit :=
  if negb (check_magic (p_hdr p)) then ret tt
  else
    p_assert (msg_size_ (p_hdr p) <=? kMaxMsgSize) ;;;
    let* here := gets local_session_num_ in
    if negb (dest_session_num_ (p_hdr p) =? here) then ret tt
    else
      let i := Z.to_nat (req_num_ (p_hdr p) mod kSessionReqWindow) in
      match pkt_type_ (p_hdr p) with
      | kResp => process_resp_one_st uncongested i p
      | kExplCR => process_expl_cr_st uncongested i (p_hdr p)
      | kReq | kRFR => raise AssertFailed
      end.

(** *** Queues and packet loss *)

Fixpoint process_stalled (uncongested : bool) (q : list nat) : M client (list nat) :=
  match q with
  | [] => ret []
  | i :: q' =>
      let* credits := gets credits_ in
      if 0 <? credits then kick uncongested i ;;; process_stalled uncongested q'
      else let* r := process_stalled uncongested q' in ret (i :: r)
  end.

Definition process_credit_stall_queue_st (uncongested : bool) : M client unit :=
  let* q := gets stallq_ in
  let* r := process_stalled uncongested q in
  modify (fun c => set_queues r (wheel_ c) (active_rpcs c) c).

Fixpoint remove_one (e : nat * Z) (l : list (nat * Z)) : option (list (nat * Z)) :=
  match l with
  | [] => None
  | x :: l' => if decide (x = e) then Some l' else match remove_one e l' with Some r => Some (x :: r) | None => None end
  end.

(** A packet that leaves the ready queue. *)
Definition process_ready (e : nat * Z) : M client unit :=
  let '(i, n) := e in
  let* s := slot_at i in
  let* b := deref (tx_msgbuf_ s) in
  (if n <? num_pkts_ b then enqueue_pkt_tx_burst_st i n else enqueue_rfr_st i (get_pkthdr_0 (resp_msgbuf_ s))) ;;;
  upd_slot i (fun s => set_wheel (<[Z.to_nat (n mod kSessionCredits) := false]> (in_wheel_ s)) (wheel_count_ s - 1) s) ;;;
  let* w := gets wheel_ in
  match remove_one e w with
  | Some w' => modify (fun c => set_queues (stallq_ c) w' (active_rpcs c) c)
  | None => raise OutOfBounds
  end.

(** [process_wheel_st], [ready] being the packets that are due. *)
Fixpoint process_wheel_st (ready : list (nat * Z)) : M client unit :=
  match ready with
  | [] => ret tt
  | e :: l => process_ready e ;;; process_wheel_st l
  end.

Definition pkt_loss_retransmit_st (uncongested : bool) (i : nat) : M client unit :=
  let* s := slot_at i in
  p_assert (bool_decide (is_Some (tx_msgbuf_ s))) ;;;
  let* credits := gets credits_ in
  let delta := u64 (num_tx_ s - num_rx_ s) in
  p_assert (credits + delta <=? kSessionCredits) ;;;
  if delta =? 0 then ret tt
  else
    let* q := gets stallq_ in
    p_assert (negb (bool_decide (i ∈ q))) ;;;
    if 0 <? wheel_count_ s then ret tt
    else
      modify (set_credits (credits + delta)) ;;;
      upd_slot i (fun s => set_progress (num_rx_ s) (num_rx_ s) s) ;;;
      kick uncongested i.

(** The scan of the active requests, [late] telling which have made no progress for too long. *)
Fixpoint scan_active (uncongested : bool) (late : nat -> bool) (l : list nat) : M client unit :=
  match l with
  | [] => ret tt
  | i :: l' =>
      let* s := slot_at i in
      (if (num_tx_ s =? num_rx_ s) || negb (late i) then ret tt else pkt_loss_retransmit_st uncongested i) ;;;
      scan_active uncongested late l'
  end.

Definition pkt_loss_scan_st (uncongested : bool) (late : nat -> bool) : M client unit :=
  let* l := gets active_rpcs in
  scan_active uncongested late l.

(** ** The server's end *)

(** [s_req_buried] tells that the request buffer has been buried; its sizes stay. *)
Record sslot := {
  s_cur_req_num_ : Z;
  s_tx_msgbuf_ : option MsgBuffer;
  req_msgbuf_ : MsgBuffer;
  s_req_buried : bool;
  s_req_type_ : Z;
  s_num_rx_ : Z;
  sav_num_req_pkts_ : Z
}.

(** [invoked] are the calls of request handlers and [responses] the responses enqueued, the latest
    first. *)
Record server := {
  s_slots : list sslot;
  s_local_session_num_ : Z;
  s_remote_session_num_ : Z;
  s_sent : list packet;
  invoked : list (Z * Z * bytes);
  responses : list (Z * bytes)
}.

Definition sslot_at (i : nat) : M server sslot :=
  let* l := gets s_slots in
  match l !! i with Some s => ret s | None => raise OutOfBounds end.

Definition upd_sslot (i : nat) (f : sslot -> sslot) : M server unit :=
  modify (fun v => {| s_slots := alter f i (s_slots v); s_local_session_num_ := s_local_session_num_ v;
                      s_remote_session_num_ := s_remote_session_num_ v; s_sent := s_sent v; invoked := invoked v;
                      responses := responses v |}).

Definition set_server_logs (tx : list packet) (inv : list (Z * Z * bytes)) (re : list (Z * bytes)) (v : server) : server :=
  {| s_slots := s_slots v; s_local_session_num_ := s_local_session_num_ v; s_remote_session_num_ := s_remote_session_num_ v;
     s_sent := tx; invoked := inv; responses := re |}.

Definition s_transmit (p : packet) : M server unit := modify (fun v => set_server_logs (p :: s_sent v) (invoked v) (responses v) v).

(** [enqueue_pkt_tx_burst_st] at the server *)
Definition s_enqueue_pkt (i : nat) (pkt_idx : Z) : M server unit :=
  let* s := sslot_at i in
  let* b := deref (s_tx_msgbuf_ s) in
  let* p := run (packet_at b pkt_idx) in
  s_transmit p.

Definition enqueue_cr_st (req_pkthdr : pkthdr_t) : M server unit :=
  let* dest := gets s_remote_session_num_ in
  s_transmit {| p_hdr := format (req_type_ req_pkthdr) 0 dest kExplCR (pkt_num_ req_pkthdr) (req_num_ req_pkthdr); p_data := [] |}.

(** A new request in the slot: the response to the previous one is buried. *)
Definition begin_req (h : pkthdr_t) (req : MsgBuffer) (s : sslot) : sslot :=
  {| s_cur_req_num_ := req_num_ h; s_tx_msgbuf_ := None; req_msgbuf_ := req; s_req_buried := false;
     s_req_type_ := s_req_type_ s; s_num_rx_ := 1; sav_num_req_pkts_ := sav_num_req_pkts_ s |}.

Definition set_req (req : MsgBuffer) (rx : Z) (s : sslot) : sslot :=
  {| s_cur_req_num_ := s_cur_req_num_ s; s_tx_msgbuf_ := s_tx_msgbuf_ s; req_msgbuf_ := req; s_req_buried := s_req_buried s;
     s_req_type_ := s_req_type_ s; s_num_rx_ := rx; sav_num_req_pkts_ := sav_num_req_pkts_ s |}.

Definition set_req_type (t : Z) (s : sslot) : sslot :=
  {| s_cur_req_num_ := s_cur_req_num_ s; s_tx_msgbuf_ := s_tx_msgbuf_ s; req_msgbuf_ := req_msgbuf_ s; s_req_buried := s_req_buried s;
     s_req_type_ := t; s_num_rx_ := s_num_rx_ s; sav_num_req_pkts_ := sav_num_req_pkts_ s |}.

(** The whole request is there: its type is kept for [enqueue_response] and the handler is called. *)
Definition invoke (i : nat) (t : Z) : M server unit :=
  let* s := sslot_at i in
  p_assert (s_req_type_ s =? kInvalidReqType) ;;;
  upd_sslot i (set_req_type t) ;;;
  let b := req_msgbuf_ s in
  modify (fun v => set_server_logs (s_sent v) ((s_cur_req_num_ s, t, take (Z.to_nat (data_size_ b)) (data b)) :: invoked v) (responses v) v).

Definition process_small_req_st (i : nat) (p : packet) : M server unit :=
  let h := p_hdr p in
  let* s := sslot_at i in
  if req_num_ h <=? s_cur_req_num_ s then
    if req_num_ h <? s_cur_req_num_ s then ret tt
    else match s_tx_msgbuf_ s with Some _ => s_enqueue_pkt i 0 | None => ret tt end
  else
    p_assert (req_num_ h =? s_cur_req_num_ s + kSessionReqWindow) ;;;
    p_assert (s_req_buried s) ;;;
    upd_sslot i (begin_req h (fake_msg_buffer p (msg_size_ h))) ;;;
    invoke i (req_type_ h).

(** [mem] is the memory of a buffer allocated here. *)
Definition process_large_req_one_st (mem : option bytes) (i : nat) (p : packet) : M server unit :=
  let h := p_hdr p in
  let* s := sslot_at i in
  let next_same := (req_num_ h =? s_cur_req_num_ s) && (pkt_num_ h =? s_num_rx_ s) in
  let first_next := (req_num_ h =? s_cur_req_num_ s + kSessionReqWindow) && (pkt_num_ h =? 0) in
  if negb (next_same || first_next) then
    if negb (req_num_ h =? s_cur_req_num_ s) || (s_num_rx_ s <? pkt_num_ h) then ret tt
    else if negb (pkt_num_ h =? data_size_to_num_pkts (msg_size_ h) - 1) then enqueue_cr_st h
    else match s_tx_msgbuf_ s with Some _ => s_enqueue_pkt i 0 | None => ret tt end
  else
    (if pkt_num_ h =? 0 then
       p_assert (s_req_buried s) ;;;
       let* buf := run (alloc_msg_buffer mem (msg_size_ h)) in
       match buf with
       | None => raise AssertFailed
       | Some b => upd_sslot i (begin_req h b)
       end
     else upd_sslot i (fun s => set_req (req_msgbuf_ s) (s_num_rx_ s + 1) s)) ;;;
    let* s := sslot_at i in
    (if negb (pkt_num_ h =? num_pkts_ (req_msgbuf_ s) - 1) then enqueue_cr_st h else ret tt) ;;;
    let* b := run (copy_data_to_msgbuf (req_msgbuf_ s) (pkt_num_ h) p) in
    upd_sslot i (fun s => set_req b (s_num_rx_ s) s) ;;;
    if negb (s_num_rx_ s =? num_pkts_ b) then ret tt else invoke i (req_type_ h).

Definition process_rfr_st (i : nat) (h : pkthdr_t) : M server unit :=
  let* s := sslot_at i in
  p_assert (req_num_ h <=? s_cur_req_num_ s) ;;;
  if negb ((req_num_ h =? s_cur_req_num_ s) && (pkt_num_ h =? s_num_rx_ s)) then
    if (req_num_ h <? s_cur_req_num_ s) || (s_num_rx_ s <? pkt_num_ h) then ret tt
    else s_enqueue_pkt i (resp_ntoi (pkt_num_ h) (sav_num_req_pkts_ s))
  else
    upd_sslot i (fun s => set_req (req_msgbuf_ s) (s_num_rx_ s + 1) s) ;;;
    s_enqueue_pkt i (resp_ntoi (pkt_num_ h) (sav_num_req_pkts_ s)).

(** [enqueue_response] on a connected session *)
Definition enqueue_response (i : nat) (resp : MsgBuffer) : M server unit :=
  let* s := sslot_at i in
  let* dest := gets s_remote_session_num_ in
  let pkts := num_pkts_ (req_msgbuf_ s) in
  let h0 := fill (s_req_type_ s) (data_size_ resp) dest kResp (pkts - 1) (s_cur_req_num_ s) (magic_ (get_pkthdr_0 resp)) in
  let resp := write_hdrs h0 (pkt_num_ h0) resp in
  p_assert (negb (bool_decide (is_Some (s_tx_msgbuf_ s)))) ;;;
  p_assert (negb (s_req_type_ s =? kInvalidReqType)) ;;;
  upd_sslot i (fun s => {| s_cur_req_num_ := s_cur_req_num_ s; s_tx_msgbuf_ := Some resp; req_msgbuf_ := req_msgbuf_ s;
                           s_req_buried := true; s_req_type_ := kInvalidReqType; s_num_rx_ := s_num_rx_ s;
                           sav_num_req_pkts_ := pkts |}) ;;;
  modify (fun v => set_server_logs (s_sent v) (invoked v)
            ((s_cur_req_num_ s, take (Z.to_nat (data_size_ resp)) (data resp)) :: responses v) v) ;;;
  s_enqueue_pkt i 0.

(** A packet in [process_comps_st], for this session or another one.  Responses are for the other end. *)
Definition server_rx (mem : option bytes) (p : packet) : M server unit :=
  if negb (check_magic (p_hdr p)) then ret tt
  else
    p_assert (msg_size_ (p_hdr p) <=? kMaxMsgSize) ;;;
    let* here := gets s_local_session_num_ in
    if negb (dest_session_num_ (p_hdr p) =? here) then ret tt
    else
      let i := Z.to_nat (req_num_ (p_hdr p) mod kSessionReqWindow) in
      match pkt_type_ (p_hdr p) with
      | kReq => if msg_size_ (p_hdr p) <=? kMaxDataPerPkt then process_small_req_st i p else process_large_req_one_st mem i p
      | kRFR => process_rfr_st i (p_hdr p)
      | kResp | kExplCR => raise AssertFailed
      end.

(** ** New sessions *)

Definition new_cslot (mem : MsgBuffer) (i : nat) : cslot :=
  {| cur_req_num_ := Z.of_nat i; tx_msgbuf_ := None; resp_msgbuf_ := mem; tag_ := 0; num_tx_ := 0; num_rx_ := 0;
     in_wheel_ := repeat false (Z.to_nat kSessionCredits); wheel_count_ := 0 |}.

Definition new_sslot (mem : MsgBuffer) (i : nat) : sslot :=
  {| s_cur_req_num_ := Z.of_nat i; s_tx_msgbuf_ := None; req_msgbuf_ := mem; s_req_buried := true;
     s_req_type_ := kInvalidReqType; s_num_rx_ := 0; sav_num_req_pkts_ := 0 |}.

(** The zeroed memory of a buffer in a slot. *)
Definition null_msgbuf : MsgBuffer :=
  {| max_data_size_ := 0; data_size_ := 0; max_num_pkts_ := 0; num_pkts_ := 0; hdrs := []; data := [] |}.

(** The constructor of [Session]: the slots are popped in order. *)
Definition new_client (here there : Z) : client :=
  {| slots := map (new_cslot null_msgbuf) (seq 0 (Z.to_nat kSessionReqWindow)); credits_ := kSessionCredits;
     sslot_free_vec_ := seq 0 (Z.to_nat kSessionReqWindow); enq_req_backlog_ := []; stallq_ := []; wheel_ := [];
     active_rpcs := []; local_session_num_ := here; remote_session_num_ := there; sent := []; started := []; conts := [] |}.

Definition new_server (here there : Z) : server :=
  {| s_slots := map (new_sslot null_msgbuf) (seq 0 (Z.to_nat kSessionReqWindow)); s_local_session_num_ := here;
     s_remote_session_num_ := there; s_sent := []; invoked := []; responses := [] |}.

End ErpcSlot.
