(* ===== verification/ErpcChunk.v ===== *)
(** * Messages and their packets

    What the packets of a message buffer carry, and how a buffer is filled from them: lemmas on
    [packet_at], [copy_data_to_msgbuf] and [write_hdrs] of ErpcMsg.v. *)

From Stdlib Require Import ZArith Lia.
From stdpp Require Import base numbers list.
From S2P Require Import Prelude ErpcMsg.
Open Scope Z_scope.

Module ErpcChunk.
Import ErpcMsg.

Local Abbreviation K := (Z.to_nat kMaxDataPerPkt).

(** The data of packet [j] of a message. *)
Definition chunk (d : bytes) (j : Z) : bytes := take K (drop (Z.to_nat (j * kMaxDataPerPkt)) d).

(** The message in a buffer. *)
Definition contents (b : MsgBuffer) : bytes := take (Z.to_nat (data_size_ b)) (data b).

Definition size (d : bytes) : Z := Z.of_nat (length d).

(** A buffer whose sizes agree. *)
Record msgbuf_ok (b : MsgBuffer) : Prop := {
  mo_size : 0 <= data_size_ b <= max_data_size_ b;
  mo_max : max_data_size_ b <= kMaxMsgSize;
  mo_pkts : num_pkts_ b = data_size_to_num_pkts (data_size_ b);
  mo_max_pkts : max_num_pkts_ b = data_size_to_num_pkts (max_data_size_ b);
  mo_data : size (data b) = max_data_size_ b;
  mo_hdrs : Z.of_nat (length (hdrs b)) = max_num_pkts_ b
}.

Lemma pkts_pos n : 0 <= n -> 1 <= data_size_to_num_pkts n.
Proof.
  intros Hn. unfold data_size_to_num_pkts. destruct (Z.leb_spec n kMaxDataPerPkt); [lia|].
  unfold kMaxDataPerPkt, kMTU, sizeof_pkthdr in *. Z.div_mod_to_equations. lia.
Qed.

Lemma pkts_spec n : 0 <= n -> (data_size_to_num_pkts n - 1) * kMaxDataPerPkt <= n <= data_size_to_num_pkts n * kMaxDataPerPkt /\
  (n <= kMaxDataPerPkt <-> data_size_to_num_pkts n = 1) /\ (1 < data_size_to_num_pkts n -> (data_size_to_num_pkts n - 1) * kMaxDataPerPkt < n).
Proof.
  intros Hn. unfold data_size_to_num_pkts. destruct (Z.leb_spec n kMaxDataPerPkt);
    unfold kMaxDataPerPkt, kMTU, sizeof_pkthdr in *; [lia|]. Z.div_mod_to_equations. lia.
Qed.

Lemma pkts_mono n m : 0 <= n <= m -> data_size_to_num_pkts n <= data_size_to_num_pkts m.
Proof.
  intros H. unfold data_size_to_num_pkts. destruct (Z.leb_spec n kMaxDataPerPkt), (Z.leb_spec m kMaxDataPerPkt);
    unfold kMaxDataPerPkt, kMTU, sizeof_pkthdr in *; try lia; Z.div_mod_to_equations; lia.
Qed.

(** Two messages have fewer packets than a packet number can count. *)
Lemma pkts_bound n : 0 <= n <= kMaxMsgSize -> data_size_to_num_pkts n < 2 ^ 13.
Proof.
  intros H. unfold data_size_to_num_pkts. destruct (Z.leb_spec n kMaxDataPerPkt); [lia|].
  change kMaxMsgSize with 8353520 in H. unfold kMaxDataPerPkt, kMTU, sizeof_pkthdr in *. Z.div_mod_to_equations. lia.
Qed.

Lemma kMaxMsgSize_bits : kMaxMsgSize < 2 ^ 24.
Proof. reflexivity. Qed.

Lemma bits_small n z : 0 <= z < 2 ^ n -> bits n z = z.
Proof. apply Z.mod_small. Qed.

Lemma size_contents b : msgbuf_ok b -> size (contents b) = data_size_ b.
Proof. intros [H1 H2 H3 H4 H5 H6]. unfold size, contents in *. rewrite length_take. lia. Qed.

(** The number of bytes in a packet, as both sides compute it. *)
Lemma chunk_size d j : 0 <= j < data_size_to_num_pkts (size d) -> size d <= kMaxMsgSize ->
  Z.min kMaxDataPerPkt (u64 (size d - j * kMaxDataPerPkt)) = size (chunk d j).
Proof.
  intros Hj Hd. destruct (pkts_spec (size d)) as (H1 & H2 & H3); [unfold size; lia|].
  change kMaxMsgSize with 8353520 in Hd.
  assert (0 <= size d - j * kMaxDataPerPkt) as Hpos
    by (unfold size, kMaxDataPerPkt, kMTU, sizeof_pkthdr in *; nia).
  rewrite u64_small by (unfold is_u64; unfold kMaxDataPerPkt, kMTU, sizeof_pkthdr in *; lia).
  unfold chunk. unfold size in *. rewrite length_take, length_drop. unfold kMaxDataPerPkt, kMTU, sizeof_pkthdr in *. lia.
Qed.

Lemma packet_at_ok b j h : msgbuf_ok b -> 0 <= j < num_pkts_ b -> hdrs b !! Z.to_nat j = Some h ->
  packet_at b j = Done {| p_hdr := h; p_data := chunk (contents b) j |}.
Proof.
  intros Hb Hj Hh. pose proof (size_contents b Hb) as Hs. destruct Hb as [H1 H2 H3 H4 H5 H6].
  unfold packet_at, get_pkt_data_size. rewrite Hh, <- Hs, chunk_size by (rewrite ?Hs; lia).
  assert (Z.to_nat (j * kMaxDataPerPkt) + Z.to_nat (size (chunk (contents b) j)) <= Z.to_nat (data_size_ b))%nat as Hle.
  { unfold chunk, contents, size. rewrite length_take, length_drop, length_take.
    destruct (pkts_spec (data_size_ b)) as (P1 & _); [lia|]. unfold size in *. unfold kMaxDataPerPkt, kMTU, sizeof_pkthdr in *. lia. }
  destruct (Nat.leb_spec (Z.to_nat (j * kMaxDataPerPkt) + Z.to_nat (size (chunk (contents b) j))) (length (data b)));
    [|unfold size in *; lia].
  f_equal. f_equal. apply list_eq. intros i. rewrite lookup_slice. unfold chunk. rewrite lookup_slice.
  unfold contents, size in *. rewrite Nat2Z.id, length_take, length_drop, length_take.
  destruct (decide (i < K)%nat), (decide (i < _)%nat); try lia.
  - symmetry. apply lookup_take_lt. lia.
  - symmetry. apply lookup_take_ge. lia.
  - reflexivity.
Qed.

(** ** Filling a buffer *)

(** The first [m] packets of the message [q] are in the array [d]. *)
Definition filled (m : Z) (q d : bytes) : Prop :=
  size q <= size d /\ forall i, (i < Z.to_nat (m * kMaxDataPerPkt))%nat -> (i < length q)%nat -> d !! i = q !! i.

Lemma filled_0 q d : size q <= size d -> filled 0 q d.
Proof. intros H. split; [exact H|]. intros i Hi. lia. Qed.

Lemma filled_all q d : filled (data_size_to_num_pkts (size q)) q d -> take (Z.to_nat (size q)) d = q.
Proof.
  intros [H1 H2]. destruct (pkts_spec (size q)) as (P1 & _); [unfold size; lia|]. unfold size in *. apply list_eq. intros i.
  rewrite Nat2Z.id. destruct (decide (i < length q)%nat) as [Hi|Hi].
  - rewrite lookup_take_lt by exact Hi. apply H2; [lia|exact Hi].
  - rewrite lookup_take_ge by lia. symmetry. apply lookup_ge_None. lia.
Qed.

Lemma filled_copy q b j p : size q <= kMaxMsgSize -> msg_size_ (p_hdr p) = size q -> p_data p = chunk q j ->
  0 <= j < data_size_to_num_pkts (size q) -> filled j q (data b) ->
  exists d, copy_data_to_msgbuf b j p = Done (set_data d b) /\ filled (j + 1) q d /\ length d = length (data b).
Proof.
  intros Hq Hm Hp Hj [F1 F2]. unfold copy_data_to_msgbuf. rewrite Hm, chunk_size, Hp by assumption.
  assert (Z.to_nat (size (chunk q j)) = length (chunk q j)) as El by (unfold size; apply Nat2Z.id). rewrite El.
  assert (Z.to_nat (j * kMaxDataPerPkt) + length (chunk q j) <= length q)%nat as Hle.
  { unfold chunk. rewrite length_take, length_drop. destruct (pkts_spec (size q)) as (P1 & _); [unfold size; lia|].
    unfold size in *. unfold kMaxDataPerPkt, kMTU, sizeof_pkthdr in *. lia. }
  unfold size in F1. rewrite Nat.leb_refl. destruct (Nat.leb_spec (Z.to_nat (j * kMaxDataPerPkt) + length (chunk q j)) (length (data b))); [|lia].
  cbn [andb]. rewrite take_ge by lia. eexists. split; [reflexivity|].
  assert (length (write_at (Z.to_nat (j * kMaxDataPerPkt)) (chunk q j) (data b)) = length (data b)) as Hl by (apply length_write_at; lia).
  split; [|exact Hl]. split; [unfold size; lia|]. intros i Hi Hiq. rewrite lookup_write_at by lia. destruct (decide _) as [[D1 D2]|Hd].
  - unfold chunk. rewrite lookup_slice, decide_True; [f_equal; lia|]. unfold chunk in D2. rewrite length_take in D2. lia.
  - apply F2; [|exact Hiq]. unfold chunk in Hd. rewrite length_take, length_drop in Hd. unfold kMaxDataPerPkt, kMTU, sizeof_pkthdr in *. lia.
Qed.

(** A message of one packet. *)
Lemma chunk_single q : size q <= kMaxDataPerPkt -> chunk q 0 = q.
Proof. intros H. unfold chunk. rewrite drop_0. apply take_ge. unfold size in H. lia. Qed.

(** ** Headers *)

Lemma length_write_hdrs h0 first b : msgbuf_ok b -> length (hdrs (write_hdrs h0 first b)) = length (hdrs b).
Proof.
  intros [H1 H2 H3 H4 H5 H6]. pose proof (pkts_pos (data_size_ b)). pose proof (pkts_mono (data_size_ b) (max_data_size_ b)).
  unfold write_hdrs. cbn. rewrite length_app, length_map, length_seq, length_drop. lia.
Qed.

Lemma write_hdrs_ok h0 first b : msgbuf_ok b -> msgbuf_ok (write_hdrs h0 first b).
Proof.
  intros Hb. pose proof (length_write_hdrs h0 first b Hb) as Hl. destruct Hb as [H1 H2 H3 H4 H5 H6]. split; try assumption. rewrite Hl. exact H6.
Qed.

Lemma hdrs_written h0 first b j : 0 <= j < num_pkts_ b -> pkt_num_ h0 = bits kPktNumBits first ->
  hdrs (write_hdrs h0 first b) !! Z.to_nat j = Some (set_pkt_num (first + j) h0).
Proof.
  intros Hj Hh. unfold write_hdrs. cbn [hdrs set_hdrs]. destruct (Z.to_nat j) as [|n] eqn:En.
  - assert (j = 0) as -> by lia. cbn. rewrite Z.add_0_r. unfold set_pkt_num. rewrite <- Hh. destruct h0; reflexivity.
  - rewrite lookup_cons_ne_0 by discriminate. cbn [pred]. rewrite lookup_app_l by (rewrite length_map, length_seq; lia).
    rewrite list_lookup_fmap, lookup_seq_lt by lia. cbn. do 2 f_equal. lia.
Qed.

(** The packets of a buffer whose headers have been written. *)
Lemma packet_written h0 first b j : msgbuf_ok b -> 0 <= j < num_pkts_ b -> pkt_num_ h0 = bits kPktNumBits first ->
  packet_at (write_hdrs h0 first b) j = Done {| p_hdr := set_pkt_num (first + j) h0; p_data := chunk (contents b) j |}.
Proof.
  intros Hb Hj Hh. rewrite (packet_at_ok _ j (set_pkt_num (first + j) h0)); [reflexivity|apply write_hdrs_ok, Hb|exact Hj|].
  apply hdrs_written; assumption.
Qed.

(** ** Resizing *)

Lemma resize_ok b n : msgbuf_ok b -> 0 <= n <= max_data_size_ b ->
  exists b', resize_msg_buffer b n = Done b' /\ msgbuf_ok b' /\ data_size_ b' = n /\ num_pkts_ b' = data_size_to_num_pkts n /\
    max_data_size_ b' = max_data_size_ b /\ data b' = data b /\ hdrs b' = hdrs b.
Proof.
  intros [H1 H2 H3 H4 H5 H6] Hn. unfold resize_msg_buffer. pose proof (pkts_mono n (max_data_size_ b) Hn).
  destruct (Z.leb_spec n (max_data_size_ b)); [|lia]. destruct (Z.leb_spec (data_size_to_num_pkts n) (max_num_pkts_ b)); [|lia].
  eexists. split; [reflexivity|]. repeat split; try assumption; cbn; lia.
Qed.

End ErpcChunk.
