(* ===== verification/ErpcInv.v ===== *)
(** * The invariant of a session

    What holds between the two ends of a session of ErpcSlot.v and the packets between them, under
    a network that loses, repeats, delays and reorders packets. *)

From Stdlib Require Import ZArith Lia.
From stdpp Require Import base numbers list sets.
From S2P Require Import Prelude ErpcMsg ErpcSlot ErpcChunk.
Open Scope Z_scope.

Module ErpcInv.
Export ErpcSlot.
Export ErpcChunk.

Section Inv.

(** The largest response, and the session numbers of the client's and the server's end. *)
Context (cap cs ss : Z).

(** ** Requests and responses *)

(** What the caller of [enqueue_request] provides: buffers in order, the response buffer large
    enough for every response. *)
Record args_ok (a : enq_req_args_t) : Prop := {
  ao_req : msgbuf_ok (a_req_msgbuf a);
  ao_magic : magic_ (get_pkthdr_0 (a_req_msgbuf a)) = kPktHdrMagic;
  ao_resp : msgbuf_ok (a_resp_msgbuf a);
  ao_cap : cap <= max_data_size_ (a_resp_msgbuf a);
  ao_type : 0 <= a_req_type a < kInvalidReqType
}.

(** A response that may be enqueued. *)
Record response_ok (b : MsgBuffer) : Prop := {
  ro_buf : msgbuf_ok b;
  ro_magic : magic_ (get_pkthdr_0 b) = kPktHdrMagic;
  ro_cap : data_size_ b <= cap
}.

Definition request (a : enq_req_args_t) : bytes := contents (a_req_msgbuf a).

(** The numbers of packets of a request and of a response. *)
Definition rqs (a : enq_req_args_t) : Z := data_size_to_num_pkts (size (request a)).
Definition rss (r : bytes) : Z := data_size_to_num_pkts (size r).

Definition slot_of (n : Z) : nat := Z.to_nat (n mod kSessionReqWindow).

(** ** Packets *)

Definition req_packet (n : Z) (a : enq_req_args_t) (k : Z) : packet :=
  {| p_hdr := fill (a_req_type a) (size (request a)) ss kReq k n kPktHdrMagic; p_data := chunk (request a) k |}.

Definition rfr_packet (n : Z) (a : enq_req_args_t) (k : Z) : packet :=
  {| p_hdr := fill (a_req_type a) 0 ss kRFR k n kPktHdrMagic; p_data := [] |}.

Definition cr_packet (n : Z) (a : enq_req_args_t) (k : Z) : packet :=
  {| p_hdr := fill (a_req_type a) 0 cs kExplCR k n kPktHdrMagic; p_data := [] |}.

Definition resp_packet (n : Z) (a : enq_req_args_t) (r : bytes) (j : Z) : packet :=
  {| p_hdr := fill (a_req_type a) (size r) cs kResp (rqs a - 1 + j) n kPktHdrMagic; p_data := chunk r j |}.

(** What the client has sent: packets of requests, and requests for the packets of a response. *)
Inductive c2s_ok (st : list (Z * enq_req_args_t)) (re : list (Z * bytes)) : packet -> Prop :=
  | c2s_req n a k : (n, a) ∈ st -> 0 <= k < rqs a -> c2s_ok st re (req_packet n a k)
  | c2s_rfr n a r k : (n, a) ∈ st -> (n, r) ∈ re -> rqs a <= k < rqs a + rss r - 1 -> c2s_ok st re (rfr_packet n a k).

(** What the server has sent, for packets [k] of request [n] that it has received. *)
Inductive s2c_ok (st : list (Z * enq_req_args_t)) (re : list (Z * bytes)) : Z -> Z -> packet -> Prop :=
  | s2c_cr n a k : (n, a) ∈ st -> 0 <= k < rqs a - 1 -> s2c_ok st re n k (cr_packet n a k)
  | s2c_resp n a r j : (n, a) ∈ st -> (n, r) ∈ re -> 0 <= j < rss r -> s2c_ok st re n (rqs a - 1 + j) (resp_packet n a r j).

(** ** The server's slots *)

Definition nums {A} (l : list (Z * A)) : list Z := map fst l.
Definition handled (l : list (Z * Z * bytes)) : list Z := map (fun x => fst (fst x)) l.

(** The buffer gives the packets of the response. *)
Definition resp_buf (n : Z) (a : enq_req_args_t) (r : bytes) (b : MsgBuffer) : Prop :=
  forall j, 0 <= j < rss r -> packet_at b j = Done (resp_packet n a r j).

(** A slot of the server is unused, receives a request, waits for the response of the handler, or
    has it. *)
Inductive srv_ok (st : list (Z * enq_req_args_t)) (iv : list (Z * Z * bytes)) (re : list (Z * bytes)) (i : nat) (s : sslot) : Prop :=
  | SrvIdle : s_cur_req_num_ s = Z.of_nat i -> s_tx_msgbuf_ s = None -> s_req_buried s = true ->
      s_req_type_ s = kInvalidReqType -> s_num_rx_ s = 0 -> srv_ok st iv re i s
  | SrvRecv a : (s_cur_req_num_ s, a) ∈ st -> s_tx_msgbuf_ s = None -> s_req_buried s = false ->
      s_req_type_ s = kInvalidReqType -> 1 <= s_num_rx_ s < rqs a ->
      data_size_ (req_msgbuf_ s) = size (request a) -> num_pkts_ (req_msgbuf_ s) = rqs a ->
      filled (s_num_rx_ s) (request a) (data (req_msgbuf_ s)) ->
      s_cur_req_num_ s ∉ handled iv -> s_cur_req_num_ s ∉ nums re -> srv_ok st iv re i s
  | SrvPend a : (s_cur_req_num_ s, a) ∈ st -> s_tx_msgbuf_ s = None -> s_req_buried s = false ->
      s_req_type_ s = a_req_type a -> s_num_rx_ s = rqs a -> num_pkts_ (req_msgbuf_ s) = rqs a ->
      s_cur_req_num_ s ∈ handled iv -> s_cur_req_num_ s ∉ nums re -> srv_ok st iv re i s
  | SrvDone a b r : (s_cur_req_num_ s, a) ∈ st -> s_tx_msgbuf_ s = Some b -> s_req_buried s = true ->
      s_req_type_ s = kInvalidReqType -> rqs a <= s_num_rx_ s <= rqs a + rss r - 1 -> sav_num_req_pkts_ s = rqs a ->
      resp_buf (s_cur_req_num_ s) a r b -> s_cur_req_num_ s ∈ handled iv -> (s_cur_req_num_ s, r) ∈ re -> srv_ok st iv re i s.

Record SInv (st : list (Z * enq_req_args_t)) (v : server) : Prop := {
  si_len : length (s_slots v) = 8%nat;
  si_ids : s_local_session_num_ v = ss /\ s_remote_session_num_ v = cs;
  si_slots i s : s_slots v !! i = Some s -> srv_ok st (invoked v) (responses v) i s /\ slot_of (s_cur_req_num_ s) = i /\ 0 <= s_cur_req_num_ s;
  si_once : NoDup (handled (invoked v));
  si_invoked n t d : (n, t, d) ∈ invoked v -> exists a, (n, a) ∈ st /\ t = a_req_type a /\ d = request a;
  si_reached n s : n ∈ handled (invoked v) -> s_slots v !! slot_of n = Some s -> n <= s_cur_req_num_ s;
  si_resp_once : NoDup (nums (responses v));
  si_resp n r : (n, r) ∈ responses v -> size r <= cap /\ n ∈ handled (invoked v);
  si_sent p : p ∈ s_sent v -> exists n k s, s2c_ok st (responses v) n k p /\ s_slots v !! slot_of n = Some s /\
    n <= s_cur_req_num_ s /\ (n = s_cur_req_num_ s -> k < s_num_rx_ s)
}.

(** ** The client's slots *)

(** The server has received as much of request [cur] as the client has been told, or has not seen
    it yet and is done with the one before. *)
Definition linked (re : list (Z * bytes)) (cur rx : Z) (s : sslot) : Prop :=
  s_cur_req_num_ s = cur /\ rx <= s_num_rx_ s \/
  s_cur_req_num_ s = cur - kSessionReqWindow /\ rx = 0 /\ (s_cur_req_num_ s < kSessionReqWindow \/ s_cur_req_num_ s ∈ nums re).

(** The buffer gives the packets of the request. *)
Definition req_buf (n : Z) (a : enq_req_args_t) (b : MsgBuffer) : Prop :=
  num_pkts_ b = rqs a /\ forall k, 0 <= k < rqs a -> packet_at b k = Done (req_packet n a k).

(** A slot of the client is unused, has its last request completed, sends a request, or has a part
    of a response of several packets. *)
Inductive cl_ok (st : list (Z * enq_req_args_t)) (re : list (Z * bytes)) (co : list (Z * Z * bytes)) (i : nat) (c : cslot) (s : sslot) : Prop :=
  | ClNew : cur_req_num_ c = Z.of_nat i -> tx_msgbuf_ c = None -> num_tx_ c = 0 -> num_rx_ c = 0 ->
      s_cur_req_num_ s = cur_req_num_ c -> cl_ok st re co i c s
  | ClIdle a r : (cur_req_num_ c, a) ∈ st -> (cur_req_num_ c, r) ∈ re -> tx_msgbuf_ c = None ->
      num_tx_ c = rqs a + rss r - 1 -> num_rx_ c = num_tx_ c -> s_cur_req_num_ s = cur_req_num_ c -> cl_ok st re co i c s
  | ClReq a b : (cur_req_num_ c, a) ∈ st -> cur_req_num_ c ∉ handled co -> tx_msgbuf_ c = Some b -> req_buf (cur_req_num_ c) a b ->
      resp_msgbuf_ c = a_resp_msgbuf a -> tag_ c = a_tag a -> 0 <= num_rx_ c <= num_tx_ c -> num_rx_ c < rqs a -> num_tx_ c <= rqs a ->
      linked re (cur_req_num_ c) (num_rx_ c) s -> cl_ok st re co i c s
  | ClResp a r b : (cur_req_num_ c, a) ∈ st -> cur_req_num_ c ∉ handled co -> (cur_req_num_ c, r) ∈ re ->
      tx_msgbuf_ c = Some b -> req_buf (cur_req_num_ c) a b -> tag_ c = a_tag a -> rqs a <= num_rx_ c <= num_tx_ c ->
      num_tx_ c <= rqs a + rss r - 1 -> num_rx_ c < rqs a + rss r - 1 ->
      s_cur_req_num_ s = cur_req_num_ c -> num_rx_ c <= s_num_rx_ s ->
      data_size_ (resp_msgbuf_ c) = size r -> num_pkts_ (resp_msgbuf_ c) = rss r ->
      filled (num_rx_ c - rqs a + 1) r (data (resp_msgbuf_ c)) ->
      req_type_ (get_pkthdr_0 (resp_msgbuf_ c)) = a_req_type a -> req_num_ (get_pkthdr_0 (resp_msgbuf_ c)) = cur_req_num_ c ->
      cl_ok st re co i c s.

(** The packets [ks] of slot [i] are in the wheel. *)
Definition wheel_ok (w : list (nat * Z)) (i : nat) (c : cslot) : Prop :=
  exists ks, NoDup ks /\ (forall k, (i, k) ∈ w <-> k ∈ ks) /\
    (forall k, k ∈ ks -> num_rx_ c <= k < num_tx_ c /\ exists b, tx_msgbuf_ c = Some b /\ k < num_pkts_ b) /\
    wheel_count_ c = Z.of_nat (length ks) /\ length (in_wheel_ c) = 32%nat /\
    forall x, (x < 32)%nat -> in_wheel_ c !! x = Some (bool_decide (x ∈ map (fun k => Z.to_nat (k mod kSessionCredits)) ks)).

(** Where the number of a slot is listed: [Q] are the stalled slots, and those of [X] are about to
    send. *)
Record listed (Q X : list nat) (c : client) (i : nat) (s : cslot) : Prop := {
  li_free : i ∈ sslot_free_vec_ c <-> tx_msgbuf_ s = None;
  li_active : i ∈ active_rpcs c <-> tx_msgbuf_ s <> None;
  li_stalled : i ∈ Q -> tx_msgbuf_ s <> None /\ num_tx_ s = 0 /\ num_rx_ s = 0;
  li_waiting : tx_msgbuf_ s <> None -> num_tx_ s = num_rx_ s -> i ∈ Q \/ i ∈ X
}.

(** The packets on their way. *)
Fixpoint outstanding (l : list cslot) : Z := match l with [] => 0 | s :: l' => num_tx_ s - num_rx_ s + outstanding l' end.

Record CInv (Q X : list nat) (c : client) (v : server) : Prop := {
  ci_len : length (slots c) = 8%nat;
  ci_ids : local_session_num_ c = cs /\ remote_session_num_ c = ss;
  ci_slots i s : slots c !! i = Some s -> exists s', s_slots v !! i = Some s' /\ cl_ok (started c) (responses v) (conts c) i s s';
  ci_cur i s : slots c !! i = Some s -> slot_of (cur_req_num_ s) = i /\ 0 <= cur_req_num_ s /\
    cur_req_num_ s < 8 * (Z.of_nat (length (started c)) + 1);
  ci_wheel i s : slots c !! i = Some s -> wheel_ok (wheel_ c) i s;
  ci_listed i s : slots c !! i = Some s -> listed Q X c i s;
  ci_credits : 0 <= credits_ c /\ credits_ c + outstanding (slots c) = kSessionCredits;
  ci_nodup : NoDup (sslot_free_vec_ c) /\ NoDup Q /\ NoDup (wheel_ c);
  ci_range i : i ∈ sslot_free_vec_ c \/ i ∈ Q \/ i ∈ active_rpcs c \/ i ∈ map fst (wheel_ c) -> (i < 8)%nat;
  ci_backlog : Forall args_ok (enq_req_backlog_ c);
  ci_started n a : (n, a) ∈ started c -> args_ok a /\ 8 <= n /\ exists s, slots c !! slot_of n = Some s /\ n <= cur_req_num_ s;
  ci_started_once : NoDup (nums (started c));
  ci_conts_once : NoDup (handled (conts c));
  ci_conts n t d : (n, t, d) ∈ conts c -> exists a, (n, a) ∈ started c /\ t = a_tag a /\ (n, d) ∈ responses v;
  ci_sent p : p ∈ sent c -> c2s_ok (started c) (responses v) p
}.

(** The state of a session and its network: a packet that has been sent can be received at any time
    and any number of times. *)
Record session := { cl : client; sv : server }.

Record Inv (x : session) : Prop := {
  in_client : CInv (stallq_ (cl x)) [] (cl x) (sv x);
  in_server : SInv (started (cl x)) (sv x);
  in_backlog : enq_req_backlog_ (cl x) <> [] -> sslot_free_vec_ (cl x) = []
}.

(** ** A new session *)

Lemma nums_elem {A} n (a : A) l : (n, a) ∈ l -> n ∈ nums l.
Proof. intros H. apply (elem_of_map_intro fst _ _ H). Qed.

Lemma handled_elem n t d l : (n, t, d) ∈ l -> n ∈ handled l.
Proof. intros H. apply (elem_of_map_intro (fun x : Z * Z * bytes => fst (fst x)) _ _ H). Qed.

Lemma nums_inj {A} n (a b : A) l : NoDup (nums l) -> (n, a) ∈ l -> (n, b) ∈ l -> a = b.
Proof. intros Hn Ha Hb. pose proof (NoDup_map_inj fst l (n, a) (n, b) Hn Ha Hb eq_refl). congruence. Qed.

Lemma slot_of_small i : (i < 8)%nat -> slot_of (Z.of_nat i) = i.
Proof. intros H. unfold slot_of, kSessionReqWindow. rewrite Z.mod_small by lia. apply Nat2Z.id. Qed.

Lemma slot_of_next n : 0 <= n -> slot_of (n + kSessionReqWindow) = slot_of n.
Proof. intros H. unfold slot_of, kSessionReqWindow. f_equal. rewrite <- (Z.mul_1_l 8) at 1. apply Z.mod_add. lia. Qed.

Lemma slot_of_lt n : (slot_of n < 8)%nat.
Proof. unfold slot_of, kSessionReqWindow. pose proof (Z.mod_pos_bound n 8). lia. Qed.

Definition new_session : session := {| cl := new_client cs ss; sv := new_server ss cs |}.

Lemma new_slot_lookup {A} (f : nat -> A) i s : map f (seq 0 8) !! i = Some s -> (i < 8)%nat /\ s = f i.
Proof.
  intros H. rewrite list_lookup_fmap in H. destruct (seq 0 8 !! i) as [k|] eqn:E; [|discriminate].
  apply lookup_seq in E as [-> Hi]. injection H as <-. auto.
Qed.

Lemma new_inv : Inv new_session.
Proof.
  split; [split| |]; cbn [cl sv new_session new_client slots started conts sent credits_ enq_req_backlog_ wheel_ sslot_free_vec_ active_rpcs stallq_];
    change (Z.to_nat kSessionReqWindow) with 8%nat; try (intros; exfalso; set_solver); try (constructor; fail); auto.
  - intros i s [Hi ->]%new_slot_lookup. exists (new_sslot null_msgbuf i). cbn. split; [|apply ClNew; reflexivity].
    change (Z.to_nat kSessionReqWindow) with 8%nat. rewrite list_lookup_fmap, lookup_seq_lt by exact Hi. reflexivity.
  - intros i s [Hi ->]%new_slot_lookup. cbn [new_cslot cur_req_num_ length]. rewrite slot_of_small by exact Hi. lia.
  - intros i s [Hi ->]%new_slot_lookup. exists []. split; [constructor|]. split; [set_solver|]. split; [set_solver|].
    split; [reflexivity|]. split; [reflexivity|]. intros x Hx. cbn [new_cslot in_wheel_].
    apply (lookup_replicate_2 (Z.to_nat kSessionCredits) false x Hx).
  - intros i s [Hi ->]%new_slot_lookup. split; cbn; [|set_solver|set_solver|congruence].
    change (Z.to_nat kSessionReqWindow) with 8%nat. rewrite elem_of_seq. split; [reflexivity|lia].
  - split; [unfold kSessionCredits; lia|reflexivity].
  - split; [apply NoDup_seq|]. split; constructor.
  - intros i [H|H]; [apply elem_of_seq in H; lia|set_solver].
  - split; cbn; try (intros; exfalso; set_solver); try (constructor; fail); auto.
    intros i s [Hi ->]%new_slot_lookup. split; [apply SrvIdle; reflexivity|]. cbn. rewrite slot_of_small by exact Hi. lia.
Qed.

End Inv.
End ErpcInv.
