(* ===== verification/ErpcClient.v ===== *)
(** * The client's end keeps the invariant

    The operations of the client in ErpcSlot.v run without a failed assertion from a state in the
    invariant of ErpcInv.v, and end in such a state. *)

From Stdlib Require Import ZArith Lia.
From stdpp Require Import base numbers list sets.
From S2P Require Import Prelude ErpcMsg ErpcSlot ErpcChunk ErpcInv.
Open Scope Z_scope.

Module ErpcClient.
Export ErpcInv.

Lemma alter_at {A} (f : A -> A) (i : nat) (l : list A) (s : A) : l !! i = Some s -> alter f i l = <[i := f s]> l.
Proof. revert i. induction l as [|x l IH]; intros [|i] H; try discriminate; cbn in *; [congruence|]. f_equal. apply IH, H. Qed.

Lemma outstanding_insert l i s s' : l !! i = Some s ->
  outstanding (<[i := s']> l) = outstanding l - (num_tx_ s - num_rx_ s) + (num_tx_ s' - num_rx_ s').
Proof.
  revert i. induction l as [|x l IH]; intros [|i] H; try discriminate; [injection H as ->; cbn; lia|].
  change (<[S i := s']> (x :: l)) with (x :: <[i := s']> l). cbn [outstanding]. rewrite (IH i H). lia.
Qed.

Lemma wp_slot_at i c s (Q : cslot -> client -> Prop) : slots c !! i = Some s -> Q s c -> wp (slot_at i) Q c.
Proof. intros H HQ. unfold slot_at. apply wp_bind, wp_gets. rewrite H. apply wp_ret, HQ. Qed.

Lemma wp_upd_slot i f c s (Q : unit -> client -> Prop) :
  slots c !! i = Some s -> Q tt (set_slots (<[i := f s]> (slots c)) c) -> wp (upd_slot i f) Q c.
Proof. intros H HQ. apply wp_modify. rewrite (alter_at f i (slots c) s H). exact HQ. Qed.

Lemma wp_run {S A} (o : outcome A) a (Q : A -> S -> Prop) s : o = Done a -> Q a s -> wp (run o) Q s.
Proof. intros -> H. exact H. Qed.

Lemma wp_deref {S} (o : option MsgBuffer) b (Q : MsgBuffer -> S -> Prop) s : o = Some b -> Q b s -> wp (deref o) Q s.
Proof. intros -> H. exact H. Qed.

Section Client.
Context (cap cs ss : Z) (v : server).
Local Abbreviation CInv Q X c := (ErpcInv.CInv cap cs ss Q X c v).

(** ** One slot changes *)

(** Everything but slot [i], the credits, the wheel and the packets sent is the same. *)
Record same (i : nat) (c c' : client) : Prop := {
  sa_free : sslot_free_vec_ c' = sslot_free_vec_ c;
  sa_backlog : enq_req_backlog_ c' = enq_req_backlog_ c;
  sa_stallq : stallq_ c' = stallq_ c;
  sa_active : active_rpcs c' = active_rpcs c;
  sa_local : local_session_num_ c' = local_session_num_ c;
  sa_remote : remote_session_num_ c' = remote_session_num_ c;
  sa_started : started c' = started c;
  sa_conts : conts c' = conts c;
  sa_slots j : j <> i -> slots c' !! j = slots c !! j
}.

Lemma same_refl i c : same i c c.
Proof. split; auto. Qed.

Lemma same_trans i c1 c2 c3 : same i c1 c2 -> same i c2 c3 -> same i c1 c3.
Proof. intros [] []. split; try congruence. intros j Hj. rewrite sa_slots1 by exact Hj. auto. Qed.

(** The request in the slot is the same. *)
Record moved (s s' : cslot) : Prop := {
  mv_cur : cur_req_num_ s' = cur_req_num_ s;
  mv_tx : tx_msgbuf_ s' = tx_msgbuf_ s;
  mv_resp : resp_msgbuf_ s' = resp_msgbuf_ s;
  mv_tag : tag_ s' = tag_ s;
  mv_rx : num_rx_ s' = num_rx_ s
}.

(** The invariant after a change of slot [i]. *)
Lemma CInv_slot Q X Q' X' c c' i s s' s0 :
  CInv Q X c -> slots c !! i = Some s -> s_slots v !! i = Some s0 -> same i c c' -> slots c' = <[i := s']> (slots c) ->
  cur_req_num_ s' = cur_req_num_ s -> cl_ok ss (started c) (responses v) (conts c) i s' s0 ->
  NoDup (wheel_ c') -> (forall j k, j <> i -> (j, k) ∈ wheel_ c' <-> (j, k) ∈ wheel_ c) -> wheel_ok (wheel_ c') i s' ->
  listed Q' X' c' i s' -> NoDup Q' -> (forall j, j <> i -> j ∈ Q' <-> j ∈ Q) -> (forall j, j <> i -> j ∈ X -> j ∈ X') ->
  0 <= credits_ c' -> credits_ c' + (num_tx_ s' - num_rx_ s') = credits_ c + (num_tx_ s - num_rx_ s) ->
  (forall p, p ∈ sent c' -> c2s_ok ss (started c) (responses v) p) -> CInv Q' X' c'.
Proof.
  intros HI Hs Hs0 Hsame Hl Hcur Hok Hnd Hw Hwi Hli HQ HQj HXj Hc0 Hc Hsent. pose proof (ci_range _ _ _ _ _ _ _ HI) as Hrange.
  assert (i < 8)%nat as Hi by (apply lookup_lt_Some in Hs; rewrite (ci_len _ _ _ _ _ _ _ HI) in Hs; exact Hs).
  assert (forall j t, slots c' !! j = Some t -> j = i /\ t = s' \/ j <> i /\ slots c !! j = Some t) as Hcase.
  { intros j t Ht. rewrite Hl in Ht. apply list_lookup_insert_Some in Ht as [(-> & -> & _)|[? ?]]; auto. }
  destruct HI as [C1 C2 C3 C4 C5 C6 C7 C8 C9 C10 C11 C12 C13 C14 C15]. destruct Hsame as [E1 E2 E3 E4 E5 E6 E7 E8 E9]. split.
  - rewrite Hl, length_insert. exact C1.
  - rewrite E5, E6. exact C2.
  - intros j t [[-> ->]|[Hj Ht]]%Hcase; rewrite E7, E8; [eauto|auto].
  - intros j t [[-> ->]|[Hj Ht]]%Hcase; rewrite E7; [rewrite Hcur|]; auto.
  - intros j t [[-> ->]|[Hj Ht]]%Hcase; [exact Hwi|]. destruct (C5 j t Ht) as (ks & K1 & K2 & K3). exists ks.
    split; [exact K1|]. split; [|exact K3]. intros k. rewrite Hw by exact Hj. apply K2.
  - intros j t [[-> ->]|[Hj Ht]]%Hcase; [exact Hli|]. destruct (C6 j t Ht) as [L1 L2 L3 L4]. split; rewrite ?E1, ?E4; auto.
    + rewrite HQj by exact Hj. exact L3.
    + intros T1 T2. rewrite HQj by exact Hj. destruct (L4 T1 T2); auto.
  - rewrite Hl, (outstanding_insert _ _ s s' Hs). split; [exact Hc0|]. lia.
  - rewrite E1. split; [apply C8|]. auto.
  - intros j. rewrite E1, E4. intros H. destruct (decide (j = i)) as [->|Hj]; [exact Hi|]. apply C9.
    destruct H as [H|[H|[H|H]]]; [auto|rewrite HQj in H by exact Hj; auto|auto|].
    right; right; right. apply list_elem_of_fmap in H as ([j' k] & -> & H). apply (Hw j' k Hj) in H.
    apply (elem_of_map_intro fst _ _ H).
  - rewrite E2. exact C10.
  - intros n a Ha. rewrite E7 in Ha. destruct (C11 n a Ha) as (A1 & A2 & t & A3 & A4). split; [exact A1|]. split; [exact A2|].
    destruct (decide (slot_of n = i)) as [Ei|Hj]; [|exists t; rewrite E9 by exact Hj; auto].
    exists s'. rewrite Hl, Ei, list_lookup_insert_eq by (rewrite C1; exact Hi). split; [reflexivity|].
    rewrite Hcur. rewrite Ei, Hs in A3. injection A3 as <-. exact A4.
  - rewrite E7. exact C12.
  - rewrite E8. exact C13.
  - intros n t d. rewrite E8, E7. apply C14.
  - intros p Hp. rewrite E7. apply Hsent, Hp.
Qed.

(** ** Windows *)

Lemma cl_window st re co i s s0 : cl_ok ss st re co i s s0 -> 0 <= num_rx_ s <= num_tx_ s.
Proof.
  assert (forall d, 1 <= data_size_to_num_pkts (size d)) as Hp by (intros d; apply pkts_pos; unfold size; lia).
  intros []; unfold rqs, rss in *; try lia; pose proof (Hp (request a)); try pose proof (Hp r); lia.
Qed.

Lemma outstanding_ge l i s : (forall s, s ∈ l -> num_rx_ s <= num_tx_ s) -> l !! i = Some s -> num_tx_ s - num_rx_ s <= outstanding l.
Proof.
  assert (forall l, (forall s, s ∈ l -> num_rx_ s <= num_tx_ s) -> 0 <= outstanding l) as Hpos.
  { clear. induction l as [|x l IH]; intros H; cbn; [lia|]. pose proof (H x ltac:(left)).
    pose proof (IH (fun s Hs => H s (list_elem_of_further _ _ _ Hs))). lia. }
  revert i. induction l as [|x l IH]; intros [|i] H Hi; try discriminate; cbn in *.
  - injection Hi as ->. pose proof (Hpos l (fun s Hs => H s (list_elem_of_further _ _ _ Hs))). lia.
  - pose proof (IH i (fun s Hs => H s (list_elem_of_further _ _ _ Hs)) Hi). pose proof (H x ltac:(left)). lia.
Qed.

Lemma slot_window Q X c i s : CInv Q X c -> slots c !! i = Some s ->
  0 <= num_rx_ s <= num_tx_ s /\ credits_ c + (num_tx_ s - num_rx_ s) <= kSessionCredits.
Proof.
  intros HI Hs. assert (forall j t, slots c !! j = Some t -> 0 <= num_rx_ t <= num_tx_ t) as Hw.
  { intros j t Ht. destruct (ci_slots _ _ _ _ _ _ _ HI j t Ht) as (t0 & _ & Hok). exact (cl_window _ _ _ _ _ _ Hok). }
  split; [exact (Hw i s Hs)|]. destruct (ci_credits _ _ _ _ _ _ _ HI) as [_ <-].
  pose proof (outstanding_ge (slots c) i s) as Ho. assert (num_tx_ s - num_rx_ s <= outstanding (slots c)); [|lia].
  apply Ho; [|exact Hs]. intros t [j Ht]%list_elem_of_lookup. apply (Hw j t Ht).
Qed.

(** ** The wheel *)

Lemma wheel_sent w i s s' : wheel_ok w i s -> num_tx_ s <= num_tx_ s' -> num_rx_ s' = num_rx_ s -> tx_msgbuf_ s' = tx_msgbuf_ s ->
  in_wheel_ s' = in_wheel_ s -> wheel_count_ s' = wheel_count_ s -> wheel_ok w i s'.
Proof.
  intros (ks & K1 & K2 & K3 & K4 & K5 & K6) H1 H2 H3 H4 H5. exists ks. rewrite H2, H3, H4, H5.
  split; [exact K1|]. split; [exact K2|]. split; [|auto]. intros k Hk. destruct (K3 k Hk) as [? ?]. split; [lia|assumption].
Qed.

Lemma wheel_add w i s b : wheel_ok w i s -> tx_msgbuf_ s = Some b -> 0 <= num_rx_ s <= num_tx_ s -> num_tx_ s < num_pkts_ b ->
  wheel_ok (w ++ [(i, num_tx_ s)]) i
    (set_progress (num_tx_ s + 1) (num_rx_ s)
       (set_wheel (<[Z.to_nat (num_tx_ s mod kSessionCredits) := true]> (in_wheel_ s)) (wheel_count_ s + 1) s)).
Proof.
  intros (ks & K1 & K2 & K3 & K4 & K5 & K6) Hb Hw Hlt. exists (ks ++ [num_tx_ s]). cbn [set_progress set_wheel num_tx_ num_rx_ tx_msgbuf_ in_wheel_ wheel_count_].
  split; [|split; [|split; [|split; [|split]]]].
  - apply NoDup_app. split; [exact K1|]. split; [|apply NoDup_singleton]. intros k Hk ->%list_elem_of_singleton. destruct (K3 _ Hk). lia.
  - intros k. rewrite !elem_of_app, K2, !list_elem_of_singleton. split; intros [?|?]; auto; [right; congruence|right; congruence].
  - intros k [Hk| ->%list_elem_of_singleton]%elem_of_app; [destruct (K3 k Hk) as [? ?]; split; [lia|assumption]|].
    split; [lia|eauto].
  - rewrite length_app. cbn. lia.
  - rewrite length_insert. exact K5.
  - intros x Hx. rewrite map_app. set (y := Z.to_nat (num_tx_ s mod kSessionCredits)).
    destruct (decide (x = y)) as [->|Hne].
    + rewrite list_lookup_insert_eq by lia. f_equal. symmetry. apply bool_decide_eq_true. set_solver.
    + rewrite list_lookup_insert_ne by congruence. rewrite K6 by exact Hx. f_equal. apply bool_decide_ext. set_solver.
Qed.

Lemma wheel_new w i s : wheel_ok w i s -> (i, num_tx_ s) ∉ w.
Proof. intros (ks & _ & K2 & K3 & _) H. apply K2 in H. destruct (K3 _ H). lia. Qed.

(** ** Sending *)

Lemma rqs_pos a : 1 <= rqs a.
Proof. apply pkts_pos. unfold size. lia. Qed.

Lemma rss_pos r : 1 <= rss r.
Proof. apply pkts_pos. unfold size. lia. Qed.

(** What is known of a slot with a request. *)
Lemma cl_active st re co i s s0 a b : cl_ok ss st re co i s s0 -> NoDup (nums st) -> tx_msgbuf_ s = Some b -> (cur_req_num_ s, a) ∈ st ->
  req_buf ss (cur_req_num_ s) a b /\ tag_ s = a_tag a /\ (cur_req_num_ s ∉ handled co) /\
  (num_rx_ s < rqs a /\ num_tx_ s <= rqs a /\ resp_msgbuf_ s = a_resp_msgbuf a \/
   (exists r, (cur_req_num_ s, r) ∈ re /\ rqs a <= num_rx_ s < rqs a + rss r - 1 /\ num_tx_ s <= rqs a + rss r - 1 /\
      num_pkts_ (resp_msgbuf_ s) = rss r /\ req_type_ (get_pkthdr_0 (resp_msgbuf_ s)) = a_req_type a /\
      req_num_ (get_pkthdr_0 (resp_msgbuf_ s)) = cur_req_num_ s)).
Proof.
  intros Hok Hnd Hb Ha. destruct Hok as [|? ? ? ? Ht|a' b' Ha' ? Ht ? ? ? ? ? ?|a' r b' Ha' ? ? Ht]; try congruence.
  - assert (a' = a) as -> by (eapply nums_inj; eassumption). assert (b' = b) as -> by congruence. tauto.
  - assert (a' = a) as -> by (eapply nums_inj; eassumption). assert (b' = b) as -> by congruence.
    split; [assumption|]. split; [assumption|]. split; [assumption|]. right. exists r. repeat (split; [assumption || lia|]). assumption.
Qed.

(** The number of packets sent changes. *)
Lemma cl_ok_tx st re co i s s' s0 a b :
  cl_ok ss st re co i s s0 -> NoDup (nums st) -> NoDup (nums re) -> tx_msgbuf_ s = Some b -> (cur_req_num_ s, a) ∈ st -> moved s s' ->
  num_rx_ s <= num_tx_ s' -> (num_rx_ s < rqs a -> num_tx_ s' <= rqs a) ->
  (forall r, (cur_req_num_ s, r) ∈ re -> rqs a <= num_rx_ s -> num_tx_ s' <= rqs a + rss r - 1) ->
  cl_ok ss st re co i s' s0.
Proof.
  intros Hok Hnd Hndr Hb Ha [M1 M2 M3 M4 M5] H1 H2 H3. destruct Hok as [|? ? ? ? Ht|a' b' Ha' ? Ht ? ? ? ? ? ?|a' r b' Ha' ? Hr Ht]; try congruence.
  - assert (a' = a) as -> by (eapply nums_inj; eassumption). eapply (ClReq _ _ _ _ _ _ _ a b'); rewrite ?M1, ?M2, ?M3, ?M4, ?M5; auto; lia.
  - assert (a' = a) as -> by (eapply nums_inj; eassumption). specialize (H3 r Hr). eapply (ClResp _ _ _ _ _ _ _ a r b'); rewrite ?M1, ?M2, ?M3, ?M4, ?M5; auto; lia.
Qed.

Context (Hndr : NoDup (nums (responses v))).

(** A packet that is sent, or put into the wheel, while there are credits. *)
Lemma CInv_sent Q X c c' i s s' a b :
  CInv Q X c -> i ∈ X -> i ∉ Q -> slots c !! i = Some s -> tx_msgbuf_ s = Some b -> (cur_req_num_ s, a) ∈ started c ->
  same i c c' -> slots c' = <[i := s']> (slots c) -> moved s s' -> num_tx_ s' = num_tx_ s + 1 ->
  (num_tx_ s < rqs a \/ (exists r, (cur_req_num_ s, r) ∈ responses v /\ rqs a <= num_rx_ s /\ num_tx_ s < rqs a + rss r - 1)) ->
  NoDup (wheel_ c') -> (forall j k, j <> i -> (j, k) ∈ wheel_ c' <-> (j, k) ∈ wheel_ c) -> wheel_ok (wheel_ c') i s' ->
  0 < credits_ c -> credits_ c' = credits_ c - 1 -> (forall p, p ∈ sent c' -> c2s_ok ss (started c) (responses v) p) -> CInv Q X c'.
Proof.
  intros HI HX HQ Hs Hb Ha Hsame Hl Hm Htx Hmore Hnd Hw Hwi Hc Hc' Hsent. pose proof (slot_window Q X c i s HI Hs) as [Hwin _].
  destruct (ci_slots _ _ _ _ _ _ _ HI i s Hs) as (s0 & Hs0 & Hok). pose proof Hm as [M1 M2 M3 M4 M5].
  eapply (CInv_slot Q X Q X c c' i s s' s0); eauto; try lia; try apply (ci_nodup _ _ _ _ _ _ _ HI); try tauto.
  - eapply cl_ok_tx; eauto; try lia; [apply (ci_started_once _ _ _ _ _ _ _ HI)|intros; destruct Hmore as [?|(r & ? & ? & ?)]; lia|].
    intros r Hr Hge. destruct Hmore as [?|(r' & Hr' & ? & ?)]; [lia|]. assert (r' = r) as -> by (eapply nums_inj; eassumption). lia.
  - destruct (ci_listed _ _ _ _ _ _ _ HI i s Hs) as [L1 L2 L3 L4]. split; rewrite ?(sa_free _ _ _ Hsame), ?(sa_active _ _ _ Hsame), ?M2; auto.
    contradiction.
Qed.

(** The counters after a packet has left: [c1] is the state with the packet sent or in the wheel. *)
Lemma wp_tick Q X i a b c s c1 s1 (K : M client unit) (P : unit -> client -> Prop) :
  CInv Q X c -> i ∈ X -> i ∉ Q -> slots c !! i = Some s -> tx_msgbuf_ s = Some b -> (cur_req_num_ s, a) ∈ started c -> 0 < credits_ c ->
  (num_tx_ s < rqs a \/ (exists r, (cur_req_num_ s, r) ∈ responses v /\ rqs a <= num_rx_ s /\ num_tx_ s < rqs a + rss r - 1)) ->
  same i c c1 -> slots c1 = <[i := s1]> (slots c) -> moved s s1 -> num_tx_ s1 = num_tx_ s -> credits_ c1 = credits_ c ->
  NoDup (wheel_ c1) -> (forall j k, j <> i -> (j, k) ∈ wheel_ c1 <-> (j, k) ∈ wheel_ c) ->
  wheel_ok (wheel_ c1) i (set_progress (num_tx_ s + 1) (num_rx_ s) s1) ->
  (forall p, p ∈ sent c1 -> c2s_ok ss (started c) (responses v) p) ->
  (forall c2 s2, CInv Q X c2 -> same i c c2 -> slots c2 !! i = Some s2 -> moved s s2 -> num_tx_ s2 = num_tx_ s + 1 ->
     credits_ c2 = credits_ c - 1 -> wp K P c2) ->
  wp (upd_slot i (fun s => set_progress (num_tx_ s + 1) (num_rx_ s) s) ;;; modify (fun c => set_credits (credits_ c - 1) c) ;;; K)%M P c1.
Proof.
  intros HI HX HQ Hs Hb Ha Hc Hmore Hsame Hl Hm Htx Hcr Hnd Hw Hwi Hsent HK.
  assert (slots c1 !! i = Some s1) as Hs1 by (rewrite Hl; apply list_lookup_insert_eq, lookup_lt_is_Some; eauto).
  apply wp_bind, (wp_upd_slot i _ c1 s1 _ Hs1), wp_bind, wp_modify. cbn beta. rewrite Hl, list_insert_insert_eq.
  set (s2 := set_progress (num_tx_ s1 + 1) (num_rx_ s1) s1). set (c2 := set_credits _ _).
  assert (slots c2 !! i = Some s2) as Hs2 by (apply list_lookup_insert_eq, lookup_lt_is_Some; eauto).
  assert (moved s s2) as Hm2 by (destruct Hm; split; cbn; assumption). assert (same i c c2) as Hsame2.
  { destruct Hsame as [E1 E2 E3 E4 E5 E6 E7 E8 E9]. split; try assumption. intros j Hj. apply list_lookup_insert_ne. congruence. }
  assert (CInv Q X c2) as HI2.
  { apply (CInv_sent Q X c c2 i s s2 a b); auto; cbn; try lia; try (destruct Hm; lia). unfold s2. rewrite Htx, (mv_rx _ _ Hm). exact Hwi. }
  apply (HK c2 s2); auto; cbn; lia.
Qed.

Definition advanced Q X i c s n (c' : client) : Prop :=
  CInv Q X c' /\ same i c c' /\ exists s', slots c' !! i = Some s' /\ moved s s' /\ num_tx_ s' = num_tx_ s + n.

Lemma advanced_0 Q X i c s : CInv Q X c -> slots c !! i = Some s -> advanced Q X i c s 0 c.
Proof. intros HI Hs. split; [exact HI|]. split; [apply same_refl|]. exists s. split; [exact Hs|]. split; [split; reflexivity|lia]. Qed.

Lemma advanced_S Q X i c s c2 s2 n c' : same i c c2 -> slots c2 !! i = Some s2 -> moved s s2 -> num_tx_ s2 = num_tx_ s + 1 ->
  advanced Q X i c2 s2 (Z.of_nat n) c' -> advanced Q X i c s (Z.of_nat (S n)) c'.
Proof.
  intros Hsame Hs2 Hm Htx (HI3 & Hsame3 & s3 & Hs3 & Hm3 & Htx3). split; [exact HI3|]. split; [eapply same_trans; eassumption|].
  exists s3. split; [exact Hs3|]. split; [destruct Hm, Hm3; split; congruence|]. lia.
Qed.

Lemma wp_kick_req_loop Q X i a b bypass n : forall c s,
  CInv Q X c -> i ∈ X -> i ∉ Q -> slots c !! i = Some s -> tx_msgbuf_ s = Some b -> (cur_req_num_ s, a) ∈ started c ->
  num_tx_ s + Z.of_nat n <= rqs a -> Z.of_nat n <= credits_ c ->
  wp (kick_req_loop n bypass i) (fun _ => advanced Q X i c s (Z.of_nat n)) c.
Proof.
  induction n as [|n IH]; intros c s HI HX HQ Hs Hb Ha Hle Hc; cbn [kick_req_loop]; [apply wp_ret, advanced_0; assumption|].
  pose proof (slot_window Q X c i s HI Hs) as [Hwin _]. destruct (ci_slots _ _ _ _ _ _ _ HI i s Hs) as (s0 & Hs0 & Hok).
  destruct (cl_active _ _ _ _ _ _ a b Hok (ci_started_once _ _ _ _ _ _ _ HI) Hb Ha) as ((Hnp & Hpk) & _).
  assert (forall c2 s2, CInv Q X c2 -> same i c c2 -> slots c2 !! i = Some s2 -> moved s s2 -> num_tx_ s2 = num_tx_ s + 1 ->
    credits_ c2 = credits_ c - 1 -> wp (kick_req_loop n bypass i) (fun _ => advanced Q X i c s (Z.of_nat (S n))) c2) as HK.
  { intros c2 s2 HI2 Hsame Hs2 Hm Htx Hcr. eapply wp_mono; [apply (IH c2 s2); auto|intros ? c3; apply advanced_S; assumption].
    - rewrite (mv_tx _ _ Hm). exact Hb.
    - rewrite (mv_cur _ _ Hm), (sa_started _ _ _ Hsame). exact Ha.
    - lia.
    - lia. }
  apply wp_bind, (wp_slot_at i c s _ Hs), wp_bind. destruct bypass.
  - apply wp_bind, (wp_slot_at i c s _ Hs), wp_bind, (wp_deref _ b _ _ Hb), wp_bind.
    apply (wp_run _ (req_packet ss (cur_req_num_ s) a (num_tx_ s))); [apply Hpk; lia|]. apply wp_modify.
    apply (wp_tick Q X i a b c s _ s); try reflexivity; auto; try lia.
    + split; reflexivity.
    + symmetry. apply list_insert_id, Hs.
    + split; reflexivity.
    + apply (ci_nodup _ _ _ _ _ _ _ HI).
    + eapply wheel_sent; [apply (ci_wheel _ _ _ _ _ _ _ HI i s Hs)|..]; cbn; auto; lia.
    + intros p [->|Hp]%elem_of_cons; [constructor; [exact Ha|lia]|apply (ci_sent _ _ _ _ _ _ _ HI p Hp)].
  - apply wp_bind, (wp_slot_at i c s _ Hs), wp_bind, (wp_deref _ b _ _ Hb), wp_bind, wp_modify.
    apply (wp_upd_slot i _ _ s); [exact Hs|]. eapply (wp_tick Q X i a b c s); try reflexivity; auto; try lia.
    + split; try reflexivity. intros j Hj. apply list_lookup_insert_ne. congruence.
    + split; reflexivity.
    + cbn. apply NoDup_app. split; [apply (ci_nodup _ _ _ _ _ _ _ HI)|]. split; [|apply NoDup_singleton].
      intros x Hx ->%list_elem_of_singleton. exact (wheel_new _ _ _ (ci_wheel _ _ _ _ _ _ _ HI i s Hs) Hx).
    + intros j k Hj. cbn. rewrite elem_of_app, list_elem_of_singleton. split; [intros [H|[= -> ->]]; [exact H|contradiction]|auto].
    + cbn [wheel_ set_queues set_slots]. apply (wheel_add _ _ _ b); auto; [apply (ci_wheel _ _ _ _ _ _ _ HI i s Hs)|lia].
    + apply (ci_sent _ _ _ _ _ _ _ HI).
Qed.

Lemma wp_kick_rfr_loop Q X i a b r n : forall c s,
  CInv Q X c -> i ∈ X -> i ∉ Q -> slots c !! i = Some s -> tx_msgbuf_ s = Some b -> (cur_req_num_ s, a) ∈ started c ->
  (cur_req_num_ s, r) ∈ responses v -> rqs a <= num_rx_ s -> num_tx_ s + Z.of_nat n <= rqs a + rss r - 1 -> Z.of_nat n <= credits_ c ->
  req_type_ (get_pkthdr_0 (resp_msgbuf_ s)) = a_req_type a -> req_num_ (get_pkthdr_0 (resp_msgbuf_ s)) = cur_req_num_ s ->
  wp (kick_rfr_loop n i) (fun _ => advanced Q X i c s (Z.of_nat n)) c.
Proof.
  induction n as [|n IH]; intros c s HI HX HQ Hs Hb Ha Hr Hrx Hle Hc Hty Hnum; cbn [kick_rfr_loop]; [apply wp_ret, advanced_0; assumption|].
  pose proof (slot_window Q X c i s HI Hs) as [Hwin _].
  apply wp_bind, (wp_slot_at i c s _ Hs), wp_bind, wp_bind, (wp_slot_at i c s _ Hs), wp_bind, wp_gets. apply wp_modify.
  apply (wp_tick Q X i a b c s _ s); try reflexivity; auto; try lia.
  - right. exists r. split; [exact Hr|]. lia.
  - split; reflexivity.
  - symmetry. apply list_insert_id, Hs.
  - split; reflexivity.
  - apply (ci_nodup _ _ _ _ _ _ _ HI).
  - eapply wheel_sent; [apply (ci_wheel _ _ _ _ _ _ _ HI i s Hs)|..]; cbn; auto; lia.
  - intros p [->|Hp]%elem_of_cons; [|apply (ci_sent _ _ _ _ _ _ _ HI p Hp)]. rewrite Hty, Hnum, (proj2 (ci_ids _ _ _ _ _ _ _ HI)).
    apply (c2s_rfr ss _ _ (cur_req_num_ s) a r (num_tx_ s)); auto. lia.
  - intros c2 s2 HI2 Hsame Hs2 Hm Htx Hcr. eapply wp_mono; [apply (IH c2 s2); auto|intros ? c3; apply advanced_S; assumption].
    + rewrite (mv_tx _ _ Hm). exact Hb.
    + rewrite (mv_cur _ _ Hm), (sa_started _ _ _ Hsame). exact Ha.
    + rewrite (mv_cur _ _ Hm). exact Hr.
    + rewrite (mv_rx _ _ Hm). exact Hrx.
    + lia.
    + lia.
    + rewrite (mv_resp _ _ Hm). exact Hty.
    + rewrite (mv_resp _ _ Hm), (mv_cur _ _ Hm). exact Hnum.
Qed.

(** ** Kicking a slot *)

(** The slot has sent something. *)
Lemma CInv_running Q i c s : CInv Q [i] c -> slots c !! i = Some s -> num_tx_ s <> num_rx_ s -> CInv Q [] c.
Proof.
  intros HI Hs Hne. destruct HI as [C1 C2 C3 C4 C5 C6 C7 C8 C9 C10 C11 C12 C13 C14 C15]. split; auto. intros j t Ht.
  destruct (C6 j t Ht) as [L1 L2 L3 L4]. split; auto. intros T1 T2. destruct (L4 T1 T2) as [H|H%list_elem_of_singleton]; [auto|].
  subst j. rewrite Hs in Ht. injection Ht as <-. contradiction.
Qed.

Definition kicked Q i c s (c' : client) : Prop :=
  CInv Q [] c' /\ same i c c' /\ exists s', slots c' !! i = Some s' /\ moved s s'.

Lemma advanced_kicked Q i c s n c' : CInv Q [i] c -> slots c !! i = Some s -> 0 < n -> advanced Q [i] i c s n c' -> kicked Q i c s c'.
Proof.
  intros HI Hs Hn (HI' & Hsame & s' & Hs' & Hm & Htx). pose proof (slot_window Q [i] c i s HI Hs) as [Hw _].
  split; [|eauto]. apply (CInv_running Q i c' s' HI' Hs'). rewrite (mv_rx _ _ Hm). lia.
Qed.

Lemma rqs_bound Q X c n a : CInv Q X c -> (n, a) ∈ started c -> rqs a < 2 ^ 13.
Proof.
  intros HI Ha. destruct (ci_started _ _ _ _ _ _ _ HI n a Ha) as [[[B1 B2 B3 B4 B5 B6] _ _ _ _] _]. apply pkts_bound.
  unfold request. rewrite size_contents by (split; assumption). lia.
Qed.

Lemma wp_kick_req_st Q i u c s a b : CInv Q [i] c -> i ∉ Q -> slots c !! i = Some s -> tx_msgbuf_ s = Some b -> (cur_req_num_ s, a) ∈ started c ->
  0 < credits_ c -> num_tx_ s < rqs a -> wp (kick_req_st u i) (fun _ => kicked Q i c s) c.
Proof.
  intros HI HQ Hs Hb Ha Hc Hlt. apply wp_bind, wp_gets, wp_bind, wp_assert; [apply Z.ltb_lt, Hc|].
  apply wp_bind, (wp_slot_at i c s _ Hs), wp_bind, (wp_deref _ b _ _ Hb). pose proof (slot_window Q [i] c i s HI Hs) as [Hwin _].
  destruct (ci_slots _ _ _ _ _ _ _ HI i s Hs) as (s0 & Hs0 & Hok). pose proof (rqs_bound Q [i] c _ a HI Ha) as Hbnd.
  destruct (cl_active _ _ _ _ _ _ a b Hok (ci_started_once _ _ _ _ _ _ _ HI) Hb Ha) as ((Hnp & _) & _).
  rewrite Hnp, u64_small by (unfold is_u64; lia).
  eapply wp_mono; [eapply (wp_kick_req_loop Q [i] i a b); eauto; [left|lia|lia]|].
  intros ? c'. apply advanced_kicked; auto. lia.
Qed.

Lemma wp_kick_rfr_st Q i c s a b r : CInv Q [i] c -> i ∉ Q -> slots c !! i = Some s -> tx_msgbuf_ s = Some b -> (cur_req_num_ s, a) ∈ started c ->
  (cur_req_num_ s, r) ∈ responses v -> size r <= kMaxMsgSize -> 0 < credits_ c -> rqs a <= num_rx_ s -> num_tx_ s < rqs a + rss r - 1 ->
  wp (kick_rfr_st i) (fun _ => kicked Q i c s) c.
Proof.
  intros HI HQ Hs Hb Ha Hr Hsz Hc Hrx Hlt. pose proof (slot_window Q [i] c i s HI Hs) as [Hwin _].
  destruct (ci_slots _ _ _ _ _ _ _ HI i s Hs) as (s0 & Hs0 & Hok).
  destruct (cl_active _ _ _ _ _ _ a b Hok (ci_started_once _ _ _ _ _ _ _ HI) Hb Ha) as ((Hnp & _) & _ & _ & [?|(r' & Hr' & R1 & R2 & R3 & R4 & R5)]); [lia|].
  assert (r' = r) as -> by (eapply nums_inj; eassumption).
  pose proof (rqs_bound Q [i] c _ a HI Ha) as Hbnd. assert (rss r < 2 ^ 13) as Hbnd' by (apply pkts_bound; unfold size in *; lia).
  apply wp_bind, wp_gets, wp_bind, (wp_slot_at i c s _ Hs), wp_bind, (wp_deref _ b _ _ Hb). unfold wire_pkts. rewrite Hnp, R3.
  apply wp_bind, wp_assert; [apply Z.ltb_lt, Hc|]. apply wp_bind, wp_assert; [apply Z.leb_le, Hrx|].
  apply wp_bind, wp_assert; [apply Z.ltb_lt; lia|]. rewrite u64_small by (unfold is_u64; lia).
  eapply wp_mono; [eapply (wp_kick_rfr_loop Q [i] i a b r); eauto; [left|lia|lia]|].
  intros ? c'. apply advanced_kicked; auto. lia.
Qed.

(** There is something to send. *)
Lemma wp_kick Q i u c s a b : (forall n r, (n, r) ∈ responses v -> size r <= kMaxMsgSize) ->
  CInv Q [i] c -> i ∉ Q -> slots c !! i = Some s -> tx_msgbuf_ s = Some b -> (cur_req_num_ s, a) ∈ started c ->
  0 < credits_ c -> num_tx_ s = num_rx_ s -> wp (kick u i) (fun _ => kicked Q i c s) c.
Proof.
  intros Hsz HI HQ Hs Hb Ha Hc Heq. destruct (ci_slots _ _ _ _ _ _ _ HI i s Hs) as (s0 & Hs0 & Hok).
  destruct (cl_active _ _ _ _ _ _ a b Hok (ci_started_once _ _ _ _ _ _ _ HI) Hb Ha) as ((Hnp & _) & _ & _ & Hphase).
  apply wp_bind, wp_bind, (wp_slot_at i c s _ Hs), wp_bind, (wp_deref _ b _ _ Hb), wp_ret. rewrite Hnp.
  destruct Hphase as [?|(r & Hr & R1 & R2 & _)].
  - destruct (Z.ltb_spec (num_tx_ s) (rqs a)); [|lia]. eapply wp_kick_req_st; eauto.
  - destruct (Z.ltb_spec (num_tx_ s) (rqs a)); [lia|]. eapply wp_kick_rfr_st; eauto; lia.
Qed.

(** ** A request gets a slot *)

Lemma cl_ok_mono st st' re re' co i c s : (forall x, x ∈ st -> x ∈ st') -> (forall x, x ∈ re -> x ∈ re') ->
  cl_ok ss st re co i c s -> cl_ok ss st' re' co i c s.
Proof.
  intros Hst Hre H. assert (forall cur rx, linked re cur rx s -> linked re' cur rx s) as Hl.
  { intros cur rx [?|(H1 & H2 & [H3|H3])]; [left; assumption|right; auto|]. right. split; [exact H1|]. split; [exact H2|]. right.
    apply list_elem_of_fmap in H3 as ([n r] & Hn & Hr). cbn in Hn. rewrite Hn. apply (elem_of_map_intro fst _ (n, r)), Hre, Hr. }
  destruct H; [eapply ClNew|eapply ClIdle|eapply ClReq|eapply ClResp]; eauto.
Qed.

Lemma c2s_ok_mono st st' re re' p : (forall x, x ∈ st -> x ∈ st') -> (forall x, x ∈ re -> x ∈ re') -> c2s_ok ss st re p -> c2s_ok ss st' re' p.
Proof. intros Hst Hre []; econstructor; eauto. Qed.

Lemma fill_num t z d ty k n m : set_pkt_num (0 + k) (fill t z d ty 0 n m) = fill t z d ty k n m.
Proof. reflexivity. Qed.

Lemma req_buf_written n a : args_ok cap a ->
  req_buf ss n a (write_hdrs (fill (a_req_type a) (data_size_ (a_req_msgbuf a)) ss kReq 0 n (magic_ (get_pkthdr_0 (a_req_msgbuf a)))) 0 (a_req_msgbuf a)).
Proof.
  intros [Hreq Hmagic _ _ _]. pose proof (size_contents _ Hreq) as Hs. assert (num_pkts_ (a_req_msgbuf a) = rqs a) as Hn.
  { unfold rqs, request. rewrite Hs. apply Hreq. }
  split; [exact Hn|]. intros k Hk. rewrite packet_written by (auto; lia). unfold req_packet. rewrite fill_num, Hmagic. unfold request. rewrite Hs. reflexivity.
Qed.

(** The slot on top of the free ones is unused at both ends. *)
Lemma free_slot Q X c i s : CInv Q X c -> slots c !! i = Some s -> i ∈ sslot_free_vec_ c ->
  tx_msgbuf_ s = None /\ num_tx_ s = num_rx_ s /\ (i ∉ Q) /\
  exists s0, s_slots v !! i = Some s0 /\ linked (responses v) (cur_req_num_ s + kSessionReqWindow) 0 s0.
Proof.
  intros HI Hs Hi. destruct (ci_listed _ _ _ _ _ _ _ HI i s Hs) as [L1 L2 L3 L4]. apply L1 in Hi. split; [exact Hi|].
  destruct (ci_slots _ _ _ _ _ _ _ HI i s Hs) as (s0 & Hs0 & Hok).
  assert (i < 8)%nat as H8 by (apply lookup_lt_Some in Hs; rewrite (ci_len _ _ _ _ _ _ _ HI) in Hs; exact Hs).
  destruct Hok as [E1 E2 E3 E4 E5|a r E1 E2 E3 E4 E5 E6| |]; try congruence;
    (split; [congruence|]; split; [intros HQ; apply L3 in HQ; tauto|]; exists s0; split; [exact Hs0|]; right; unfold kSessionReqWindow;
     split; [lia|]; split; [reflexivity|]).
  - left. lia.
  - right. rewrite E6. apply (nums_elem _ r _ E2).
Qed.

(** The slot and the state once the request is in it. *)
Definition new_request (a : enq_req_args_t) (s : cslot) : cslot :=
  let n := cur_req_num_ s + kSessionReqWindow in
  let req := a_req_msgbuf a in
  {| cur_req_num_ := n;
     tx_msgbuf_ := Some (write_hdrs (fill (a_req_type a) (data_size_ req) ss kReq 0 n (magic_ (get_pkthdr_0 req))) 0 req);
     resp_msgbuf_ := a_resp_msgbuf a; tag_ := a_tag a; num_tx_ := 0; num_rx_ := 0; in_wheel_ := in_wheel_ s; wheel_count_ := wheel_count_ s |}.

Definition begun (a : enq_req_args_t) (i : nat) (rest : list nat) (s : cslot) (c : client) : client :=
  set_logs (sent c) ((cur_req_num_ s + kSessionReqWindow, a) :: started c) (conts c)
    (set_queues (stallq_ c) (wheel_ c) (active_rpcs c ++ [i]) (set_slots (<[i := new_request a s]> (slots c)) (set_free rest c))).

Lemma CInv_begun Q c i rest s a : CInv Q [] c -> slots c !! i = Some s -> sslot_free_vec_ c = i :: rest -> args_ok cap a ->
  CInv Q [i] (begun a i rest s c).
Proof.
  intros HI Hs Hfree Ha. destruct (free_slot Q [] c i s HI Hs ltac:(rewrite Hfree; left)) as (Htx & Heq & HQ & s0 & Hs0 & Hlink).
  pose proof (ci_cur _ _ _ _ _ _ _ HI i s Hs) as (Hslot & Hpos & Hbound).
  destruct HI as [C1 C2 C3 C4 C5 C6 C7 C8 C9 C10 C11 C12 C13 C14 C15]. set (n := cur_req_num_ s + kSessionReqWindow).
  assert (slot_of n = i) as Hsn by (unfold n; rewrite slot_of_next by exact Hpos; exact Hslot).
  assert (i < 8)%nat as Hi by (apply lookup_lt_Some in Hs; lia).
  assert (forall n' a', (n', a') ∈ started c -> slot_of n' = i -> n' <= cur_req_num_ s) as Hmax.
  { intros n' a' Hin E. destruct (C11 n' a' Hin) as (_ & _ & t & Ht & Hle). rewrite E, Hs in Ht. injection Ht as <-. exact Hle. }
  assert (forall a', (n, a') ∉ started c) as Hfresh by (intros a' Hin; pose proof (Hmax n a' Hin Hsn); unfold n, kSessionReqWindow in *; lia).
  assert (forall j t, <[i := new_request a s]> (slots c) !! j = Some t -> j = i /\ t = new_request a s \/ j <> i /\ slots c !! j = Some t) as Hcase.
  { intros j t Ht. apply list_lookup_insert_Some in Ht as [(-> & -> & _)|[? ?]]; auto. }
  unfold begun. fold n. split; cbn [set_logs set_queues set_slots set_free slots credits_ sslot_free_vec_ enq_req_backlog_ stallq_ wheel_ active_rpcs
    local_session_num_ remote_session_num_ sent started conts].
  - rewrite length_insert. exact C1.
  - exact C2.
  - intros j t [[-> ->]|[Hj Ht]]%Hcase.
    + exists s0. split; [exact Hs0|]. eapply (ClReq _ _ _ _ _ _ _ a); [left| |reflexivity|apply req_buf_written, Ha|..]; cbn; try reflexivity; try lia.
      * intros H. apply list_elem_of_fmap in H as ([[n' t'] d'] & E & H). destruct (C14 n' t' d' H) as (a' & Hin & _). cbn in E. subst n'. exact (Hfresh a' Hin).
      * pose proof (rqs_pos a). lia.
      * pose proof (rqs_pos a). lia.
      * exact Hlink.
    + destruct (C3 j t Ht) as (t0 & Ht0 & Hok). exists t0. split; [exact Ht0|]. eapply cl_ok_mono; [| |exact Hok]; [|auto]. intros x Hx. right. exact Hx.
  - intros j t [[-> ->]|[Hj Ht]]%Hcase; cbn [new_request cur_req_num_ length].
    + fold n. split; [exact Hsn|]. unfold n, kSessionReqWindow. lia.
    + destruct (C4 j t Ht) as (? & ? & ?). split; [assumption|]. lia.
  - intros j t [[-> ->]|[Hj Ht]]%Hcase; [|auto]. destruct (C5 i s Hs) as (ks & K1 & K2 & K3 & K4 & K5 & K6).
    assert (ks = []) as -> by (destruct ks as [|k ks]; [reflexivity|]; destruct (K3 k ltac:(left)) as [_ (? & ? & _)]; congruence).
    exists []. split; [exact K1|]. split; [exact K2|]. split; [intros k Hk; set_solver|]. auto.
  - destruct C8 as (Hnd & _). rewrite Hfree in Hnd. apply NoDup_cons in Hnd as [Hnin _].
    intros j t [[-> ->]|[Hj Ht]]%Hcase.
    + split; cbn; [split; [contradiction|discriminate]|split; [discriminate|intros _; set_solver]|contradiction|set_solver].
    + destruct (C6 j t Ht) as [L1 L2 L3 L4]. rewrite Hfree in L1. split; cbn; [|rewrite elem_of_app, list_elem_of_singleton; tauto|exact L3|].
      * rewrite <- L1, elem_of_cons. tauto.
      * intros T1 T2. destruct (L4 T1 T2); [auto|set_solver].
  - rewrite (outstanding_insert _ _ s _ Hs). cbn. lia.
  - destruct C8 as (Hnd & ? & ?). rewrite Hfree in Hnd. apply NoDup_cons in Hnd as [_ Hnd]. auto.
  - intros j [H|[H|[H|H]]]; [apply C9; left; rewrite Hfree; right; exact H|apply C9; auto| |apply C9; auto].
    apply elem_of_app in H as [H| ->%list_elem_of_singleton]; [apply C9; auto|exact Hi].
  - exact C10.
  - intros n' a' [[= -> ->]|Hin]%elem_of_cons.
    + split; [exact Ha|]. split; [unfold n, kSessionReqWindow; lia|]. exists (new_request a s). rewrite Hsn, list_lookup_insert_eq by lia. split; [reflexivity|cbn; lia].
    + destruct (C11 n' a' Hin) as (A1 & A2 & t & A3 & A4). split; [exact A1|]. split; [exact A2|].
      destruct (decide (slot_of n' = i)) as [Ei|Hj]; [|exists t; rewrite list_lookup_insert_ne by congruence; auto].
      exists (new_request a s). rewrite Ei, list_lookup_insert_eq by lia. split; [reflexivity|]. rewrite Ei, Hs in A3. injection A3 as <-. cbn. unfold kSessionReqWindow. lia.
  - cbn. apply NoDup_cons. split; [|exact C12]. intros H. apply list_elem_of_fmap in H as ([n' a'] & E & H). cbn in E. subst n'. exact (Hfresh a' H).
  - exact C13.
  - intros n' t d H. destruct (C14 n' t d H) as (a' & H1 & H2). exists a'. split; [right; exact H1|exact H2].
  - intros p Hp. eapply c2s_ok_mono; [| |exact (C15 p Hp)]; [|auto]. intros x Hx. right. exact Hx.
Qed.

(** A slot that waits for credits. *)
Lemma CInv_stalled i c s : CInv (stallq_ c) [i] c -> slots c !! i = Some s -> tx_msgbuf_ s <> None -> num_tx_ s = 0 -> num_rx_ s = 0 -> i ∉ stallq_ c ->
  CInv (stallq_ c ++ [i]) [] (set_queues (stallq_ c ++ [i]) (wheel_ c) (active_rpcs c) c).
Proof.
  intros HI Hs Htx H1 H2 HQ. assert (i < 8)%nat as Hi by (apply lookup_lt_Some in Hs; rewrite (ci_len _ _ _ _ _ _ _ HI) in Hs; exact Hs).
  destruct HI as [C1 C2 C3 C4 C5 C6 C7 C8 C9 C10 C11 C12 C13 C14 C15]. split; auto.
  - intros j t Ht. destruct (C6 j t Ht) as [L1 L2 L3 L4]. split; auto.
    + intros [H| ->%list_elem_of_singleton]%elem_of_app; [auto|]. cbn in Ht. rewrite Hs in Ht. injection Ht as <-. auto.
    + intros T1 T2. left. destruct (L4 T1 T2) as [H|H%list_elem_of_singleton]; [apply elem_of_app; auto|]. subst j. set_solver.
  - destruct C8 as (? & ? & ?). split; [assumption|]. split; [|assumption]. apply NoDup_app. split; [assumption|].
    split; [|apply NoDup_singleton]. intros x Hx ->%list_elem_of_singleton. contradiction.
  - intros j [H|[H|H]]; [apply C9; auto| |apply C9; auto]. apply elem_of_app in H as [H| ->%list_elem_of_singleton]; [apply C9; auto|exact Hi].
Qed.

Lemma CInv_backlog Q X c l : CInv Q X c -> Forall (args_ok cap) l -> CInv Q X (set_backlog l c).
Proof. intros [C1 C2 C3 C4 C5 C6 C7 C8 C9 C10 C11 C12 C13 C14 C15] Hl. split; auto. intros i s Hs. destruct (C6 i s Hs). split; auto. Qed.

(** What [enqueue_request] does. *)
Definition accepted (a : enq_req_args_t) (c c' : client) : Prop :=
  sslot_free_vec_ c = [] /\ c' = set_backlog (enq_req_backlog_ c ++ [a]) c \/
  exists i rest s, sslot_free_vec_ c = i :: rest /\ slots c !! i = Some s /\ sslot_free_vec_ c' = rest /\
    enq_req_backlog_ c' = enq_req_backlog_ c /\ conts c' = conts c /\ started c' = (cur_req_num_ s + kSessionReqWindow, a) :: started c /\
    (forall j, j <> i -> slots c' !! j = slots c !! j) /\
    exists s', slots c' !! i = Some s' /\ tx_msgbuf_ s' <> None /\ cur_req_num_ s' = cur_req_num_ s + kSessionReqWindow.

Lemma wp_enqueue_request u a c : CInv (stallq_ c) [] c -> args_ok cap a -> Z.of_nat (length (started c)) < 2 ^ 41 ->
  wp (enqueue_request u a) (fun _ c' => CInv (stallq_ c') [] c' /\ accepted a c c') c.
Proof.
  intros HI Ha Hlen. apply wp_bind, wp_gets. destruct (sslot_free_vec_ c) as [|i rest] eqn:Hfree.
  { apply wp_modify. split; [|left; auto]. apply CInv_backlog; [exact HI|]. apply Forall_app. split; [exact (ci_backlog _ _ _ _ _ _ _ HI)|apply Forall_singleton, Ha]. }
  assert (i < 8)%nat as Hi by (apply (ci_range _ _ _ _ _ _ _ HI); left; rewrite Hfree; left).
  destruct (lookup_lt_is_Some_2 (slots c) i) as [s Hs]; [rewrite (ci_len _ _ _ _ _ _ _ HI); exact Hi|].
  destruct (free_slot _ [] c i s HI Hs ltac:(rewrite Hfree; left)) as (Htx & Heq & HQ & _).
  pose proof (ci_cur _ _ _ _ _ _ _ HI i s Hs) as (Hslot & Hpos & Hbound).
  apply wp_bind, wp_modify, wp_bind, (wp_slot_at i _ s); [exact Hs|]. rewrite Htx. apply wp_bind, wp_assert; [reflexivity|].
  apply wp_bind, wp_gets. cbn [remote_session_num_ set_free]. rewrite (proj2 (ci_ids _ _ _ _ _ _ _ HI)).
  rewrite u64_small by (unfold is_u64, kSessionReqWindow; lia). cbv zeta. apply wp_bind, (wp_upd_slot i _ _ s); [exact Hs|].
  apply wp_bind, wp_modify, wp_bind, wp_modify. apply wp_bind, wp_gets.
  change (set_logs _ _ _ _) with (begun a i rest s c). pose proof (CInv_begun _ c i rest s a HI Hs Hfree Ha) as HI1.
  assert (slots (begun a i rest s c) !! i = Some (new_request a s)) as Hs1 by (apply list_lookup_insert_eq, lookup_lt_is_Some; eauto).
  assert (forall j, j <> i -> slots (begun a i rest s c) !! j = slots c !! j) as Hoth by (intros j Hj; apply list_lookup_insert_ne; congruence).
  destruct (Z.ltb_spec 0 (credits_ (begun a i rest s c))) as [Hc|Hc].
  - eapply wp_mono; [eapply (wp_kick_req_st (stallq_ c) i u _ _ a); [exact HI1|exact HQ|exact Hs1|reflexivity|left|exact Hc|]|].
    { cbn. pose proof (rqs_pos a). lia. }
    intros ? c' (HI' & Hsame & s' & Hs' & Hm). rewrite (sa_stallq _ _ _ Hsame). split; [exact HI'|]. right. exists i, rest, s.
    destruct Hsame as [E1 E2 E3 E4 E5 E6 E7 E8 E9]. repeat (split; [assumption || (intros; rewrite E9 by assumption; auto)|]).
    exists s'. split; [exact Hs'|]. rewrite (mv_tx _ _ Hm), (mv_cur _ _ Hm). split; [discriminate|reflexivity].
  - apply wp_modify. split; [apply (CInv_stalled i (begun a i rest s c) (new_request a s)); auto; discriminate|]. right. exists i, rest, s.
    repeat (split; [assumption || reflexivity|]). exists (new_request a s). split; [exact Hs1|]. split; [discriminate|reflexivity].
Qed.

(** ** A packet in order *)

Lemma in_order_spec w i s h : wheel_ok w i s -> 0 <= num_rx_ s -> in_order_client s h = true ->
  req_num_ h = cur_req_num_ s /\ pkt_num_ h = num_rx_ s /\ num_rx_ s < num_tx_ s /\ ((i, num_rx_ s) ∉ w).
Proof.
  intros (ks & K1 & K2 & K3 & K4 & K5 & K6) Hpos H. unfold in_order_client in H.
  destruct (Z.eqb_spec (req_num_ h) (cur_req_num_ s)) as [E1|]; [|discriminate].
  destruct (Z.eqb_spec (pkt_num_ h) (num_rx_ s)) as [E2|]; [|discriminate]. cbn [negb] in H.
  destruct (Z.leb_spec (num_tx_ s) (pkt_num_ h)); [discriminate|]. split; [exact E1|]. split; [exact E2|]. split; [lia|].
  rewrite K6 in H by (unfold kSessionCredits; pose proof (Z.mod_pos_bound (pkt_num_ h) 32); lia). cbn in H.
  apply negb_true_iff, bool_decide_eq_false in H. intros Hin. apply H. apply K2 in Hin. rewrite <- E2 in Hin.
  apply (elem_of_map_intro (fun k => Z.to_nat (k mod kSessionCredits)) _ _ Hin).
Qed.

(** The oldest packet on its way is answered. *)
Lemma wheel_rx w i s s' : wheel_ok w i s -> ((i, num_rx_ s) ∉ w) -> num_rx_ s' = num_rx_ s + 1 -> num_tx_ s' = num_tx_ s ->
  tx_msgbuf_ s' = tx_msgbuf_ s -> in_wheel_ s' = in_wheel_ s -> wheel_count_ s' = wheel_count_ s -> wheel_ok w i s'.
Proof.
  intros (ks & K1 & K2 & K3 & K4 & K5 & K6) Hnot H1 H2 H3 H4 H5. exists ks. rewrite H1, H2, H3, H4, H5.
  split; [exact K1|]. split; [exact K2|]. split; [|auto]. intros k Hk. destruct (K3 k Hk) as [Hr ?]. split; [|assumption].
  assert (k <> num_rx_ s); [|lia]. intros ->. apply Hnot, K2, Hk.
Qed.

Lemma CInv_rx Q c c' i s s' s0 :
  CInv Q [] c -> slots c !! i = Some s -> s_slots v !! i = Some s0 -> same i c c' -> slots c' = <[i := s']> (slots c) ->
  cur_req_num_ s' = cur_req_num_ s -> tx_msgbuf_ s' = tx_msgbuf_ s -> num_rx_ s' = num_rx_ s + 1 -> num_tx_ s' = num_tx_ s ->
  in_wheel_ s' = in_wheel_ s -> wheel_count_ s' = wheel_count_ s -> wheel_ c' = wheel_ c -> sent c' = sent c ->
  credits_ c' = credits_ c + 1 -> num_rx_ s < num_tx_ s -> ((i, num_rx_ s) ∉ wheel_ c) ->
  cl_ok ss (started c) (responses v) (conts c) i s' s0 -> CInv Q [i] c' /\ (i ∉ Q).
Proof.
  intros HI Hs Hs0 Hsame Hl E1 E2 E3 E4 E5 E6 E7 E8 E9 Hlt Hnot Hok. pose proof (slot_window Q [] c i s HI Hs) as [Hwin _].
  destruct (ci_listed _ _ _ _ _ _ _ HI i s Hs) as [L1 L2 L3 L4]. assert (i ∉ Q) as HQ by (intros H; destruct (L3 H) as (_ & ? & _); lia).
  split; [|exact HQ]. pose proof (ci_credits _ _ _ _ _ _ _ HI) as [Hc _]. pose proof (ci_nodup _ _ _ _ _ _ _ HI) as (? & ? & ?).
  eapply (CInv_slot Q [] Q [i] c c' i s s' s0); eauto; rewrite ?E7, ?E8; auto; try tauto; try lia.
  - eapply wheel_rx; eauto. apply (ci_wheel _ _ _ _ _ _ _ HI i s Hs).
  - split; rewrite ?(sa_free _ _ _ Hsame), ?(sa_active _ _ _ Hsame), ?E2; auto; [contradiction|]. intros _ _. right. left.
  - intros j _ Hj. set_solver.
  - apply (ci_sent _ _ _ _ _ _ _ HI).
Qed.

Lemma wp_bump Q X c i s (P : unit -> client -> Prop) : CInv Q X c -> slots c !! i = Some s -> num_rx_ s < num_tx_ s ->
  P tt (set_credits (credits_ c + 1) c) -> wp bump_credits P c.
Proof.
  intros HI Hs Hlt HP. pose proof (slot_window Q X c i s HI Hs) as [_ Hw]. apply wp_bind, wp_gets, wp_bind, wp_assert; [apply Z.ltb_lt; lia|].
  apply wp_modify, HP.
Qed.

(** ** Credit returns *)

Lemma wp_expl_cr u c n a k s s0 h : CInv (stallq_ c) [] c -> (n, a) ∈ started c -> 0 <= k < rqs a - 1 ->
  slots c !! slot_of n = Some s -> s_slots v !! slot_of n = Some s0 -> n <= s_cur_req_num_ s0 -> (n = s_cur_req_num_ s0 -> k < s_num_rx_ s0) ->
  req_num_ h = n -> pkt_num_ h = k ->
  wp (process_expl_cr_st u (slot_of n) h) (fun _ c' => CInv (stallq_ c') [] c' /\ same (slot_of n) c c' /\
    exists s', slots c' !! slot_of n = Some s' /\ cur_req_num_ s' = cur_req_num_ s /\ tx_msgbuf_ s' = tx_msgbuf_ s) c.
Proof.
  intros HI Ha Hk Hs Hs0 Hle Hrx E1 E2. set (i := slot_of n) in *.
  destruct (ci_started _ _ _ _ _ _ _ HI n a Ha) as (_ & _ & s1 & Hs1 & Hn). fold i in Hs1. assert (s1 = s) as -> by congruence.
  apply wp_bind, (wp_slot_at i c s _ Hs), wp_bind, wp_assert; [apply Z.leb_le; lia|].
  pose proof (slot_window _ [] c i s HI Hs) as [Hwin _].
  destruct (in_order_client s h) eqn:Hord; [|apply wp_ret; split; [exact HI|]; split; [apply same_refl|eauto]]. cbn [negb].
  apply (in_order_spec (wheel_ c) i) in Hord as (O1 & O2 & O3 & O4); [|apply (ci_wheel _ _ _ _ _ _ _ HI i s Hs)|lia].
  destruct (ci_slots _ _ _ _ _ _ _ HI i s Hs) as (s0' & Hs0' & Hok). assert (s0' = s0) as -> by congruence.
  assert (exists b, tx_msgbuf_ s = Some b) as [b Hb].
  { destruct Hok as [| |? b ? ? Hb|? ? b ? ? ? Hb]; try lia; eauto. }
  rewrite E1 in O1. rewrite E2 in O2. assert (cur_req_num_ s = n) as Hcur by congruence. rewrite <- Hcur in Ha.
  destruct (cl_active _ _ _ _ _ _ a b Hok (ci_started_once _ _ _ _ _ _ _ HI) Hb Ha) as (Hreq & Htag & Hnc & [(P1 & P2 & P3)|(r & _ & P1 & _)]); [|lia].
  apply wp_bind, (wp_bump _ [] c i s _ HI Hs O3), wp_bind, (wp_upd_slot i _ _ s); [exact Hs|]. cbn [slots set_credits].
  set (s' := set_progress (num_tx_ s) (num_rx_ s + 1) s). set (c1 := set_slots _ _).
  assert (slots c1 !! i = Some s') as Hs' by (apply list_lookup_insert_eq, lookup_lt_is_Some; eauto).
  assert (same i c c1) as Hsame by (split; try reflexivity; intros j Hj; apply list_lookup_insert_ne; congruence).
  assert (s_cur_req_num_ s0 = n /\ num_rx_ s + 1 <= s_num_rx_ s0) as [Hsc Hsr].
  { destruct Hok as [| |? ? ? ? ? ? ? ? ? ? ? [[Hl1 Hl2]|[Hl1 _]]|]; try lia; try congruence; unfold kSessionReqWindow in *; try lia;
      (split; [congruence|]; rewrite O2 in Hrx; lia). }
  destruct (CInv_rx (stallq_ c) c c1 i s s' s0) as [HI1 HQ]; auto.
  { eapply (ClReq _ _ _ _ _ _ _ a b); auto; cbn; try lia. left. split; [congruence|lia]. }
  apply wp_bind, wp_bind, (wp_slot_at i c1 s' _ Hs'), wp_bind, (wp_deref _ b); [exact Hb|]. apply wp_ret.
  rewrite (proj1 Hreq). cbn [num_tx_ s' set_progress]. apply wp_when; intros Hp.
  - apply Z.ltb_lt in Hp. eapply wp_mono; [eapply (wp_kick_req_st (stallq_ c) i u c1 s' a b); eauto; cbn; pose proof (ci_credits _ _ _ _ _ _ _ HI); lia|].
    intros ? c2 (HI2 & Hsame2 & s2 & Hs2 & Hm). rewrite (sa_stallq _ _ _ Hsame2). split; [exact HI2|].
    split; [eapply same_trans; eassumption|]. exists s2. split; [exact Hs2|]. destruct Hm. auto.
  - apply Z.ltb_ge in Hp. split; [apply (CInv_running _ i c1 s' HI1 Hs'); cbn; lia|]. split; [exact Hsame|]. exists s'. auto.
Qed.

End Client.
End ErpcClient.
