(* ===== verification/ErpcReply.v ===== *)
(** * Responses at the client

    [process_resp_one_st] of ErpcSlot.v keeps the invariant: a response packet in order is copied,
    more of the response is asked for, and the request is completed. *)

From Stdlib Require Import ZArith Lia.
From stdpp Require Import base numbers list sets.
From S2P Require Import Prelude ErpcMsg ErpcSlot ErpcChunk ErpcInv ErpcClient.
Open Scope Z_scope.

Module ErpcReply.
Export ErpcClient.

Section Reply.
Context (cap cs ss : Z) (v : server) (Hndr : NoDup (nums (responses v))).
Local Abbreviation CInv Q X c := (ErpcInv.CInv cap cs ss Q X c v).

(** ** The end of a request *)

(** The slot [i] of [c] is free again. *)
Definition released (i : nat) (s : cslot) (c : client) : client :=
  set_free (i :: sslot_free_vec_ c)
    (set_queues (stallq_ c) (wheel_ c) (filter (fun k => k <> i) (active_rpcs c)) (set_slots (<[i := set_tx None s]> (slots c)) c)).

Lemma CInv_released Q c0 c i s0 s a b r t0 :
  CInv Q [] c0 -> slots c0 !! i = Some s0 -> s_slots v !! i = Some t0 -> same i c0 c -> slots c = <[i := s]> (slots c0) ->
  tx_msgbuf_ s0 = Some b -> cur_req_num_ s = cur_req_num_ s0 -> s_cur_req_num_ t0 = cur_req_num_ s0 ->
  (cur_req_num_ s0, a) ∈ started c0 -> (cur_req_num_ s0, r) ∈ responses v ->
  num_tx_ s = rqs a + rss r - 1 -> num_rx_ s = num_tx_ s -> wheel_ c = wheel_ c0 -> wheel_ok (wheel_ c) i s ->
  0 <= credits_ c -> credits_ c = credits_ c0 + (num_tx_ s0 - num_rx_ s0) -> num_rx_ s0 < num_tx_ s0 -> sent c = sent c0 ->
  CInv Q [] (released i s c).
Proof.
  intros HI Hs Ht0 Hsame Hl Hb Hcur Hsc Ha Hr Htx Hrx Hwh Hwi Hc0 Hc Hlt Hsent.
  destruct (ci_listed _ _ _ _ _ _ _ HI i s0 Hs) as [F1 F2 F3 F4]. assert (i ∉ Q) as HQ by (intros H; destruct (F3 H) as (_ & ? & ?); lia).
  destruct HI as [C1 C2 C3 C4 C5 C6 C7 C8 C9 C10 C11 C12 C13 C14 C15]. destruct Hsame as [E1 E2 E3 E4 E5 E6 E7 E8 E9].
  assert (i < 8)%nat as Hi by (apply lookup_lt_Some in Hs; lia).
  assert (slots (released i s c) = <[i := set_tx None s]> (slots c0)) as Hls by (cbn; rewrite Hl; apply list_insert_insert_eq).
  assert (forall j t, slots (released i s c) !! j = Some t -> j = i /\ t = set_tx None s \/ j <> i /\ slots c0 !! j = Some t) as Hcase.
  { intros j t Ht. rewrite Hls in Ht. apply list_lookup_insert_Some in Ht as [(-> & -> & _)|[? ?]]; auto. }
  assert (i ∉ sslot_free_vec_ c0) as Hnf by (intros H; apply F1 in H; congruence).
  unfold released in *. split; cbn [set_logs set_queues set_slots set_free slots credits_ sslot_free_vec_ enq_req_backlog_ stallq_ wheel_
    active_rpcs local_session_num_ remote_session_num_ sent started conts] in *; rewrite ?E1, ?E2, ?E4, ?E5, ?E6, ?E7, ?E8, ?Hwh, ?Hsent.
  - rewrite Hls, length_insert. exact C1.
  - exact C2.
  - intros j t [[-> ->]|[Hj Ht]]%Hcase; [|auto]. exists t0. split; [exact Ht0|]. apply (ClIdle _ _ _ _ _ _ _ a r); cbn; rewrite ?Hcur; auto.
  - intros j t [[-> ->]|[Hj Ht]]%Hcase; [cbn; rewrite Hcur|]; auto.
  - intros j t [[-> ->]|[Hj Ht]]%Hcase; [|auto]. rewrite Hwh in Hwi. destruct Hwi as (ks & K1 & K2 & K3 & K4).
    exists ks. split; [exact K1|]. split; [exact K2|]. split; [|exact K4]. intros k Hk. destruct (K3 k Hk) as [? _]. lia.
  - intros j t [[-> ->]|[Hj Ht]]%Hcase.
    + split; cbn; [split; [reflexivity|left]|rewrite list_elem_of_filter; tauto|contradiction|tauto].
    + destruct (C6 j t Ht) as [L1 L2 L3 L4]. split; cbn; rewrite ?E1, ?E4, ?list_elem_of_filter, ?elem_of_cons; tauto.
  - rewrite Hls, (outstanding_insert _ _ s0 _ Hs). cbn. lia.
  - destruct C8 as (? & ? & ?). split; [apply NoDup_cons; auto|auto].
  - intros j. rewrite elem_of_cons, list_elem_of_filter. intros [[->|H]|[H|[[_ H]|H]]]; auto.
  - exact C10.
  - intros n a' Hin. destruct (C11 n a' Hin) as (A1 & A2 & t & A3 & A4). split; [exact A1|]. split; [exact A2|]. rewrite Hls.
    destruct (decide (slot_of n = i)) as [Ei|Hj]; [|exists t; rewrite list_lookup_insert_ne by congruence; auto].
    exists (set_tx None s). rewrite Ei, list_lookup_insert_eq by lia. split; [reflexivity|]. rewrite Ei, Hs in A3. injection A3 as <-. cbn. lia.
  - exact C12.
  - exact C13.
  - exact C14.
  - exact C15.
Qed.

(** The continuation has run. *)
Definition continued (n t : Z) (d : bytes) (c : client) : client := set_logs (sent c) (started c) ((n, t, d) :: conts c) c.

Lemma CInv_continued Q X c n a d : CInv Q X c -> n ∉ handled (conts c) -> (n, a) ∈ started c -> (n, d) ∈ responses v ->
  (forall j t, slots c !! j = Some t -> tx_msgbuf_ t <> None -> cur_req_num_ t <> n) -> CInv Q X (continued n (a_tag a) d c).
Proof.
  intros [C1 C2 C3 C4 C5 C6 C7 C8 C9 C10 C11 C12 C13 C14 C15] Hn Ha Hd Hne.
  assert (forall j t, slots c !! j = Some t -> tx_msgbuf_ t <> None -> cur_req_num_ t ∉ handled (conts c) ->
    cur_req_num_ t ∉ handled ((n, a_tag a, d) :: conts c)) as Hnew.
  { intros j t Ht Htx Hni [H|H]%elem_of_cons; [exact (Hne j t Ht Htx H)|contradiction]. }
  split; auto.
  - intros i s Hs. destruct (C3 i s Hs) as (s0 & Hs0 & Hok). exists s0. split; [exact Hs0|]. pose proof (Hnew i s Hs) as Hi.
    destruct Hok; [eapply ClNew|eapply ClIdle|eapply ClReq|eapply ClResp]; eauto; apply Hi; congruence || assumption.
  - intros i s Hs. destruct (C6 i s Hs). split; auto.
  - cbn. apply NoDup_cons. auto.
  - intros n' t d' [[= -> -> ->]|H]%elem_of_cons; [eauto|apply C14, H].
Qed.

(** ** What an operation of the client leaves *)

(** Every request that has been put into a slot is completed or in its slot. *)
Definition tracked (c : client) : Prop :=
  forall n a, (n, a) ∈ started c -> n ∈ handled (conts c) \/ exists s, slots c !! slot_of n = Some s /\ cur_req_num_ s = n /\ tx_msgbuf_ s <> None.

Record good (c : client) : Prop := {
  go_inv : CInv (stallq_ c) [] c;
  go_backlog : enq_req_backlog_ c <> [] -> sslot_free_vec_ c = [];
  go_tracked : tracked c
}.

Lemma good_same i c c' s s' : good c -> CInv (stallq_ c') [] c' -> same i c c' -> slots c !! i = Some s -> slots c' !! i = Some s' ->
  cur_req_num_ s' = cur_req_num_ s -> tx_msgbuf_ s' = tx_msgbuf_ s -> good c'.
Proof.
  intros [G1 G2 G3] HI [E1 E2 E3 E4 E5 E6 E7 E8 E9] Hs Hs' Hc Ht. split; [exact HI|rewrite E1, E2; exact G2|].
  intros n a. rewrite E7, E8. intros Hin. destruct (G3 n a Hin) as [H|(t & H1 & H2 & H3)]; [auto|]. right.
  destruct (decide (slot_of n = i)) as [Ei|Hj]; [|exists t; rewrite E9 by exact Hj; auto].
  rewrite Ei in *. assert (t = s) as -> by congruence. exists s'. split; [exact Hs'|]. split; congruence.
Qed.

(** A request enters: those before it stay tracked. *)
Lemma good_accepted a c c' : good c -> CInv (stallq_ c') [] c' -> accepted a c c' -> good c'.
Proof.
  intros [G1 G2 G3] HI [(Hfree & ->)|(i & rest & s & Hfree & Hs & E1 & E2 & E3 & E4 & E5 & s' & Hs' & Htx & Hcur)].
  - split; [exact HI|intros _; exact Hfree|exact G3].
  - split; [exact HI| |].
    + rewrite E1, E2. intros H. apply G2 in H. congruence.
    + destruct (free_slot cap cs ss v _ [] c i s G1 Hs ltac:(rewrite Hfree; left)) as (Hnone & _).
      pose proof (ci_cur _ _ _ _ _ _ _ G1 i s Hs) as (Hslot & Hpos & _).
      intros n a'. rewrite E3, E4. intros [[= -> ->]|Hin]%elem_of_cons.
      * right. exists s'. rewrite slot_of_next, Hslot by exact Hpos. auto.
      * destruct (G3 n a' Hin) as [H|(t & H1 & H2 & H3)]; [auto|]. right. exists t.
        rewrite E5; [auto|]. intros Ei. rewrite Ei in H1. congruence.
Qed.

(** ** [finish_resp] *)

Lemma length_free_lt Q X c i s : CInv Q X c -> slots c !! i = Some s -> tx_msgbuf_ s <> None -> (length (sslot_free_vec_ c) < 8)%nat.
Proof.
  intros HI Hs Htx. destruct (ci_listed _ _ _ _ _ _ _ HI i s Hs) as [L1 _ _ _]. pose proof (ci_nodup _ _ _ _ _ _ _ HI) as (Hnd & _).
  assert (i < 8)%nat as Hi by (apply lookup_lt_Some in Hs; rewrite (ci_len _ _ _ _ _ _ _ HI) in Hs; exact Hs).
  assert (NoDup (i :: sslot_free_vec_ c)) as Hnd' by (apply NoDup_cons; split; [rewrite L1; exact Htx|exact Hnd]).
  assert (length (i :: sslot_free_vec_ c) <= length (seq 0 8))%nat as Hle; [|cbn in Hle; lia].
  apply submseteq_length, NoDup_submseteq; [exact Hnd'|]. intros j Hj. apply elem_of_seq. cbn. split; [lia|].
  apply elem_of_cons in Hj as [->|Hj]; [exact Hi|apply (ci_range _ _ _ _ _ _ _ HI); auto].
Qed.

Lemma wheel_idle w i s : wheel_ok w i s -> num_rx_ s = num_tx_ s -> wheel_count_ s = 0.
Proof. intros (ks & _ & _ & K3 & K4 & _) E. destruct ks as [|k ks]; [exact K4|]. destruct (K3 k ltac:(left)). lia. Qed.

Definition tracked_but (m : Z) (c : client) : Prop :=
  forall n a, (n, a) ∈ started c -> n = m \/ n ∈ handled (conts c) \/ exists s, slots c !! slot_of n = Some s /\ cur_req_num_ s = n /\ tx_msgbuf_ s <> None.

Lemma good_continued c m a d : CInv (stallq_ c) [] c -> (enq_req_backlog_ c <> [] -> sslot_free_vec_ c = []) -> tracked_but m c ->
  m ∉ handled (conts c) -> (m, a) ∈ started c -> (m, d) ∈ responses v ->
  (forall j t, slots c !! j = Some t -> tx_msgbuf_ t <> None -> cur_req_num_ t <> m) -> good (continued m (a_tag a) d c).
Proof.
  intros HI HB HT Hn Ha Hd Hne. split; [apply CInv_continued; assumption|exact HB|].
  intros n' a' Hin. cbn. destruct (HT n' a' Hin) as [->|[H|H]]; [left; left|left; right; exact H|right; exact H].
Qed.

(** From the release of slot [i] on: a request of the backlog enters, and the continuation runs. *)
Lemma wp_finish_tail u i m a d c s : CInv (stallq_ c) [] c -> tracked_but m c -> m ∉ handled (conts c) -> (m, a) ∈ started c ->
  (m, d) ∈ responses v -> Z.of_nat (length (started c)) < 2 ^ 41 -> slots c !! i = Some s -> tx_msgbuf_ s = None -> cur_req_num_ s = m ->
  (enq_req_backlog_ c <> [] -> sslot_free_vec_ c = [i]) ->
  wp (let* backlog := gets enq_req_backlog_ in
      (match backlog with
       | [] => ret tt
       | args :: _ =>
           let* free := gets sslot_free_vec_ in
           p_assert (length free =? 1)%nat ;;;
           enqueue_request u args ;;;
           modify (fun c => set_backlog (tail (enq_req_backlog_ c)) c)
       end) ;;;
      modify (fun c => set_logs (sent c) (started c) ((m, a_tag a, d) :: conts c) c))%M (fun _ => good) c.
Proof.
  intros HI HT Hn Ha Hd Hlen Hs Htx Hcur HB. pose proof (ci_cur _ _ _ _ _ _ _ HI i s Hs) as (Hslot & Hpos & _). rewrite Hcur in Hslot, Hpos.
  assert (forall j t, slots c !! j = Some t -> tx_msgbuf_ t <> None -> cur_req_num_ t <> m) as Hne.
  { intros j t Ht Htn Hm. destruct (ci_cur _ _ _ _ _ _ _ HI j t Ht) as (Hj & _). rewrite Hm, Hslot in Hj. subst j. congruence. }
  apply wp_bind, wp_gets, wp_bind. destruct (enq_req_backlog_ c) as [|args rest] eqn:Hbl.
  { apply wp_ret, wp_modify. apply good_continued; auto. rewrite Hbl. congruence. }
  specialize (HB ltac:(discriminate)). pose proof (ci_backlog _ _ _ _ _ _ _ HI) as Hargs. rewrite Hbl in Hargs. apply Forall_cons in Hargs as [Harg Hrest].
  apply wp_bind, wp_gets. rewrite HB. apply wp_bind, wp_assert; [reflexivity|]. apply wp_bind.
  eapply wp_mono; [apply (wp_enqueue_request cap cs ss v Hndr u args c HI Harg Hlen)|].
  intros ? c' (HI' & [(Hfree & _)|(i' & rest' & s1 & Hfree & Hs1 & E1 & E2 & E3 & E4 & E5 & s' & Hs' & Htx' & Hcur')]); [congruence|].
  assert (i' = i) as -> by congruence. assert (rest' = []) as -> by congruence. assert (s1 = s) as -> by congruence. rewrite Hcur in *.
  apply wp_modify, wp_modify. rewrite E2, Hbl. cbn [tail].
  apply good_continued; cbn; rewrite ?E1, ?E3, ?E4; auto.
  - apply CInv_backlog; assumption.
  - intros n' a'. cbn. rewrite E3, E4. intros [[= -> ->]|Hin]%elem_of_cons.
    + right; right. exists s'. rewrite slot_of_next, Hslot by exact Hpos. auto.
    + destruct (HT n' a' Hin) as [H|[H|(t & H1 & H2 & H3)]]; [auto|auto|]. right; right. exists t.
      rewrite E5; [auto|]. intros Ei. rewrite Ei in H1. congruence.
  - right. exact Ha.
  - intros j t Ht Htn. destruct (decide (j = i)) as [->|Hj].
    + rewrite Hs' in Ht. injection Ht as <-. rewrite Hcur'. unfold kSessionReqWindow. lia.
    + rewrite E5 in Ht by exact Hj. apply (Hne j t Ht Htn).
Qed.

Lemma wp_finish_resp u c0 c i s0 s a b r t0 :
  good c0 -> slots c0 !! i = Some s0 -> s_slots v !! i = Some t0 -> same i c0 c -> slots c = <[i := s]> (slots c0) ->
  tx_msgbuf_ s0 = Some b -> cur_req_num_ s = cur_req_num_ s0 -> s_cur_req_num_ t0 = cur_req_num_ s0 ->
  (cur_req_num_ s0, a) ∈ started c0 -> (cur_req_num_ s0, r) ∈ responses v ->
  num_tx_ s = rqs a + rss r - 1 -> num_rx_ s = num_tx_ s -> wheel_ c = wheel_ c0 -> wheel_ok (wheel_ c) i s ->
  0 <= credits_ c -> credits_ c = credits_ c0 + (num_tx_ s0 - num_rx_ s0) -> num_rx_ s0 < num_tx_ s0 -> sent c = sent c0 ->
  tag_ s = a_tag a -> contents (resp_msgbuf_ s) = r -> Z.of_nat (length (started c0)) < 2 ^ 41 ->
  wp (finish_resp u i) (fun _ c' => good c') c.
Proof.
  intros [HI HB HT] Hs Ht0 Hsame Hl Hb Hcur Hsc Ha Hr Htx Hrx Hwh Hwi Hc0 Hc Hlt Hsent Htag Hresp Hlen.
  pose proof (CInv_released _ c0 c i s0 s a b r t0 HI Hs Ht0 Hsame Hl Hb Hcur Hsc Ha Hr Htx Hrx Hwh Hwi Hc0 Hc Hlt Hsent) as HI1.
  assert (slots c !! i = Some s) as Hsc1 by (rewrite Hl; apply list_lookup_insert_eq, lookup_lt_is_Some; eauto).
  destruct (ci_slots _ _ _ _ _ _ _ HI i s0 Hs) as (t1 & _ & Hok).
  destruct (cl_active ss _ _ _ _ _ _ a b Hok (ci_started_once _ _ _ _ _ _ _ HI) Hb Ha) as (_ & _ & Hnc & _).
  pose proof (ci_cur _ _ _ _ _ _ _ HI i s0 Hs) as (Hslot & _). set (n := cur_req_num_ s0) in *.
  pose proof Hsame as [E1 E2 E3 E4 E5 E6 E7 E8 E9].
  apply wp_bind, (wp_slot_at i c s _ Hsc1), wp_bind, wp_assert; [apply Z.eqb_eq, (wheel_idle _ _ _ Hwi Hrx)|].
  apply wp_bind, (wp_upd_slot i _ c s _ Hsc1), wp_bind, wp_modify, wp_bind, wp_gets. cbn [set_queues set_slots sslot_free_vec_]. rewrite E1.
  pose proof (length_free_lt _ [] c0 i s0 HI Hs ltac:(congruence)) as Hfl. apply wp_bind, wp_assert; [apply Nat.ltb_lt, Hfl|].
  apply wp_bind, wp_modify. rewrite <- E1. change (set_free _ _) with (released i s c). apply wp_bind, wp_gets.
  set (c1 := released i s c) in *. assert (slots c1 !! i = Some (set_tx None s)) as Hs1
    by (cbn; apply list_lookup_insert_eq, lookup_lt_is_Some; eauto).
  assert (forall j, j <> i -> slots c1 !! j = slots c0 !! j) as Hoth
    by (intros j Hj; cbn; rewrite list_lookup_insert_ne by congruence; apply E9, Hj).
  assert (tracked_but n c1) as HT1.
  { intros n' a'. cbn [c1 released set_free set_queues set_slots started conts]. rewrite E7, E8. intros Hin.
    destruct (HT n' a' Hin) as [H|(t & H1 & H2 & H3)]; [auto|]. destruct (decide (slot_of n' = i)) as [Ei|Hj].
    - left. rewrite Ei, Hs in H1. injection H1 as <-. symmetry. exact H2.
    - right; right. exists t. rewrite Hoth by exact Hj. auto. }
  rewrite Hcur, Htag. fold n. change (take _ _) with (contents (resp_msgbuf_ s)). rewrite Hresp.
  apply (wp_finish_tail u i n a r c1 (set_tx None s)); auto.
  - change (stallq_ c1) with (stallq_ c). rewrite E3. exact HI1.
  - change (conts c1) with (conts c). rewrite E8. exact Hnc.
  - change (started c1) with (started c). rewrite E7. exact Ha.
  - change (started c1) with (started c). rewrite E7. exact Hlen.
  - change (enq_req_backlog_ c1) with (enq_req_backlog_ c). change (sslot_free_vec_ c1) with (i :: sslot_free_vec_ c).
    rewrite E1, E2. intros H. rewrite (HB H). reflexivity.
Qed.

(** ** A response packet in order *)

(** What is known when the packet [j] of the response to request [n] is accepted. *)
Lemma resp_in_order c n a r j s t0 h : good c -> (n, a) ∈ started c -> (n, r) ∈ responses v -> 0 <= j ->
  slots c !! slot_of n = Some s -> s_slots v !! slot_of n = Some t0 -> n <= s_cur_req_num_ t0 ->
  (n = s_cur_req_num_ t0 -> rqs a - 1 + j < s_num_rx_ t0) -> req_num_ h = n -> pkt_num_ h = rqs a - 1 + j -> in_order_client s h = true ->
  cur_req_num_ s = n /\ num_rx_ s = rqs a - 1 + j /\ num_rx_ s < num_tx_ s /\ ((slot_of n, num_rx_ s) ∉ wheel_ c) /\
  s_cur_req_num_ t0 = n /\ num_rx_ s < s_num_rx_ t0 /\ cl_ok ss (started c) (responses v) (conts c) (slot_of n) s t0 /\ exists b, tx_msgbuf_ s = Some b.
Proof.
  intros [HI _ _] Ha Hr Hj Hs Ht0 Hle Hrx E1 E2 Hord. pose proof (slot_window cap cs ss v _ [] c _ s HI Hs) as [Hwin _].
  apply (in_order_spec (wheel_ c) (slot_of n)) in Hord as (O1 & O2 & O3 & O4); [|apply (ci_wheel _ _ _ _ _ _ _ HI _ s Hs)|lia].
  destruct (ci_slots _ _ _ _ _ _ _ HI _ s Hs) as (t1 & Ht1 & Hok). assert (t1 = t0) as -> by congruence.
  assert (cur_req_num_ s = n) as Hcur by congruence. assert (num_rx_ s = rqs a - 1 + j) as Hk by congruence.
  assert (s_cur_req_num_ t0 = n) as Hsc.
  { destruct Hok as [| |? ? ? ? ? ? ? ? ? ? ? [[Hl1 Hl2]|[Hl1 _]]|]; try lia; try congruence; unfold kSessionReqWindow in *; lia. }
  split; [exact Hcur|]. split; [exact Hk|]. split; [exact O3|]. split; [exact O4|]. split; [exact Hsc|]. split; [rewrite Hk; auto|].
  split; [exact Hok|]. destruct Hok as [| |? b ? ? Hb|? ? b ? ? ? Hb]; try lia; eauto.
Qed.

Lemma copy_small_ok b p r : msgbuf_ok b -> data_size_ b = size r -> msg_size_ (p_hdr p) = size r -> p_data p = r ->
  exists b', copy_small_resp b p = Done b' /\ contents b' = r.
Proof.
  intros [B1 B2 B3 B4 B5 B6] Hsz Hm Hp. unfold copy_small_resp. rewrite Hm, Hp. unfold size in *. rewrite Nat2Z.id, Nat.leb_refl.
  destruct (Nat.leb_spec (length r) (length (data b))); [|lia]. cbn [andb]. eexists. split; [reflexivity|].
  unfold contents. cbn. rewrite Hsz, Nat2Z.id, (take_ge r (length r)) by lia. unfold write_at. rewrite take_0. cbn [app]. apply take_app_length'. reflexivity.
Qed.

(** A response of one packet. *)
Lemma wp_small_resp u c n a r s t0 p : good c -> (n, a) ∈ started c -> (n, r) ∈ responses v -> size r <= cap -> cap <= kMaxMsgSize -> size r <= kMaxDataPerPkt ->
  Z.of_nat (length (started c)) < 2 ^ 41 ->
  slots c !! slot_of n = Some s -> s_slots v !! slot_of n = Some t0 -> n <= s_cur_req_num_ t0 ->
  (n = s_cur_req_num_ t0 -> rqs a - 1 < s_num_rx_ t0) -> req_num_ (p_hdr p) = n -> pkt_num_ (p_hdr p) = rqs a - 1 ->
  msg_size_ (p_hdr p) = size r -> p_data p = r -> wp (process_resp_one_st u (slot_of n) p) (fun _ => good) c.
Proof.
  intros HG Ha Hr Hcap Hmax Hone Hlen Hs Ht0 Hle Hrx E1 E2 E3 E4. pose proof HG as [HI _ _].
  destruct (ci_started _ _ _ _ _ _ _ HI n a Ha) as (Hargs & _ & s1 & Hs1 & Hn). assert (s1 = s) as -> by congruence.
  apply wp_bind, (wp_slot_at _ c s _ Hs), wp_bind, wp_assert; [apply Z.leb_le; lia|].
  destruct (in_order_client s (p_hdr p)) eqn:Hord; [|apply wp_ret; exact HG]. cbn [negb].
  assert (rss r = 1) as Hrs by (apply pkts_spec; [unfold size; lia|exact Hone]).
  destruct (resp_in_order c n a r 0 s t0 (p_hdr p)) as (Hcur & Hk & Hlt & Hnw & Hsc & Hsr & Hok & b & Hb); auto; try lia.
  assert ((cur_req_num_ s, a) ∈ started c) as Ha' by (rewrite Hcur; exact Ha).
  destruct (cl_active ss _ _ _ _ _ _ a b Hok (ci_started_once _ _ _ _ _ _ _ HI) Hb Ha') as (_ & Htag & _ & [(P1 & P2 & P3)|(r' & _ & P1 & _)]); [|lia].
  apply wp_bind, (wp_bump cap cs ss v _ [] c _ s _ HI Hs Hlt), wp_bind, (wp_upd_slot _ _ _ s); [exact Hs|].
  rewrite E3. destruct (Z.leb_spec (size r) kMaxDataPerPkt); [|lia]. destruct Hargs as [_ _ Hrb Hrc _].
  destruct (resize_ok (resp_msgbuf_ s) (size r)) as (b1 & Hb1 & Hok1 & Hd1 & _ & _ & _ & _); [rewrite P3; exact Hrb|rewrite P3; unfold size in *; lia|].
  apply wp_bind, (wp_run _ b1 _ _ Hb1). destruct (copy_small_ok b1 p r Hok1 Hd1 E3 E4) as (b2 & Hb2 & Hc2). apply wp_bind, (wp_run _ b2 _ _ Hb2).
  cbn [slots set_credits]. set (s' := set_progress (num_tx_ s) (num_rx_ s + 1) s). set (c1 := set_slots _ _).
  assert (slots c1 !! slot_of n = Some s') as Hs' by (apply list_lookup_insert_eq, lookup_lt_is_Some; eauto).
  apply wp_bind, (wp_upd_slot _ _ c1 s'); [exact Hs'|].
  pose proof (ci_credits _ _ _ _ _ _ _ HI) as [Hc0 _].
  eapply (wp_finish_resp u c _ (slot_of n) s (set_resp b2 s') a b r t0); eauto; try reflexivity; cbn; try congruence; try lia; try (rewrite Hcur; assumption).
  - split; try reflexivity. intros i Hi. cbn. rewrite !list_lookup_insert_ne by congruence. reflexivity.
  - apply list_insert_insert_eq.
  - eapply wheel_rx; [apply (ci_wheel _ _ _ _ _ _ _ HI _ s Hs)|exact Hnw|..]; reflexivity.
Qed.

(** ** A response of several packets *)

(** Requests for more packets do not look at the data received so far: the copy of a packet, which
    the code does after them, can be moved before them. *)
Definition with_resp (b : MsgBuffer) (i : nat) (c : client) : client := set_slots (alter (set_resp b) i (slots c)) c.

Lemma kick_rfr_loop_resp b i n : forall c s, slots c !! i = Some s -> get_pkthdr_0 b = get_pkthdr_0 (resp_msgbuf_ s) ->
  kick_rfr_loop n i (with_resp b i c) =
  match kick_rfr_loop n i c with Done (x, c') => Done (x, with_resp b i c') | Fault f => Fault f end.
Proof.
  induction n as [|n IH]; intros c s Hs Hh; [reflexivity|]. assert (i < length (slots c))%nat as Hi by (apply lookup_lt_is_Some; eauto).
  assert (slots (with_resp b i c) !! i = Some (set_resp b s)) as Hs' by (cbn; rewrite (alter_at _ _ _ s Hs); apply list_lookup_insert_eq, Hi).
  cbn [kick_rfr_loop]. unfold enqueue_rfr_st, slot_at, transmit, upd_slot, bind, gets, modify.
  rewrite Hs', Hs. cbn [ret slots set_logs]. rewrite Hs', Hs. cbn [ret resp_msgbuf_ set_resp]. rewrite Hh.
  set (pr := fun s => set_progress (num_tx_ s + 1) (num_rx_ s) s).
  match goal with |- _ = match kick_rfr_loop n i ?x with _ => _ end => set (c1 := x) end.
  rewrite <- (IH c1 (pr s)); cbn [c1 set_credits set_slots set_logs slots]; [|rewrite (alter_at _ _ _ s Hs); apply list_lookup_insert_eq, Hi|exact Hh].
  f_equal. unfold with_resp. cbn [c1 set_credits set_slots set_logs slots]. unfold set_credits, set_slots, set_logs. cbn. f_equal.
  rewrite !(alter_at _ i (slots c) s Hs).
  rewrite (alter_at pr i _ (set_resp b s)), (alter_at (set_resp b) i _ (pr s)) by (apply list_lookup_insert_eq, Hi).
  rewrite !list_insert_insert_eq. reflexivity.
Qed.

Lemma wp_kick_rfr_resp b i c s (P : client -> Prop) : slots c !! i = Some s -> get_pkthdr_0 b = get_pkthdr_0 (resp_msgbuf_ s) ->
  num_pkts_ b = num_pkts_ (resp_msgbuf_ s) -> wp (kick_rfr_st i) (fun _ => P) (with_resp b i c) ->
  wp (kick_rfr_st i) (fun _ c' => P (with_resp b i c')) c.
Proof.
  intros Hs Hh Hn. assert (i < length (slots c))%nat as Hi by (apply lookup_lt_is_Some; eauto).
  assert (slots (with_resp b i c) !! i = Some (set_resp b s)) as Hs' by (cbn; rewrite (alter_at _ _ _ s Hs); apply list_lookup_insert_eq, Hi).
  unfold wp, kick_rfr_st, slot_at, bind, gets. rewrite Hs', Hs. cbn [ret tx_msgbuf_ resp_msgbuf_ set_resp num_rx_ num_tx_].
  destruct (tx_msgbuf_ s) as [q|]; [|auto]. unfold wire_pkts. rewrite Hn. cbn [deref ret]. unfold p_assert.
  change (credits_ (with_resp b i c)) with (credits_ c).
  repeat match goal with |- context [if ?t then ret tt else raise AssertFailed] => destruct t; cbn [ret raise]; [|auto] end.
  rewrite (kick_rfr_loop_resp b i _ c s Hs Hh). destruct (kick_rfr_loop _ i c) as [[x c']|f]; auto.
Qed.

(** The response buffer while packet [j] of the response [r] to request [n] is being received. *)
Record receiving (n : Z) (a : enq_req_args_t) (r : bytes) (j : Z) (b : MsgBuffer) : Prop := {
  rc_size : data_size_ b = size r;
  rc_pkts : num_pkts_ b = rss r;
  rc_type : req_type_ (get_pkthdr_0 b) = a_req_type a;
  rc_num : req_num_ (get_pkthdr_0 b) = n;
  rc_filled : filled j r (data b)
}.

(** The rest of [process_resp_one_st] once the response buffer has its size: [c] is the state when
    the packet comes, [c2] the one where it is counted. *)
Lemma wp_resp_rest u c c2 n a r j s s2 t0 b req p : good c -> (n, a) ∈ started c -> (n, r) ∈ responses v -> size r <= kMaxMsgSize -> 0 <= j < rss r ->
  Z.of_nat (length (started c)) < 2 ^ 41 -> slots c !! slot_of n = Some s -> s_slots v !! slot_of n = Some t0 ->
  cur_req_num_ s = n -> num_rx_ s = rqs a - 1 + j -> num_rx_ s < num_tx_ s -> num_tx_ s <= rqs a + rss r - 1 -> ((slot_of n, num_rx_ s) ∉ wheel_ c) ->
  s_cur_req_num_ t0 = n -> num_rx_ s < s_num_rx_ t0 -> cl_ok ss (started c) (responses v) (conts c) (slot_of n) s t0 -> tx_msgbuf_ s = Some req ->
  s2 = set_resp b (set_progress (num_tx_ s) (num_rx_ s + 1) s) -> c2 = set_slots (<[slot_of n := s2]> (slots c)) (set_credits (credits_ c + 1) c) ->
  receiving n a r j b -> p_data p = chunk r j -> msg_size_ (p_hdr p) = size r -> pkt_num_ (p_hdr p) = rqs a - 1 + j -> num_pkts_ req = rqs a ->
  wp (let* s := slot_at (slot_of n) in
      when_ (negb (num_tx_ s =? wire_pkts req (resp_msgbuf_ s))) (kick_rfr_st (slot_of n)) ;;;
      let* b := run (copy_data_to_msgbuf (resp_msgbuf_ s) (resp_ntoi (pkt_num_ (p_hdr p)) (num_pkts_ req)) p) in
      upd_slot (slot_of n) (set_resp b) ;;;
      if negb (num_rx_ s =? wire_pkts req (resp_msgbuf_ s)) then ret tt else finish_resp u (slot_of n))%M (fun _ => good) c2.
Proof.
  intros HG Ha Hr Hsz Hj Hlen Hs Ht0 Hcur Hk Hlt Htot Hnw Hsc Hsr Hok Hb Es2 Ec2 [R1 R2 R3 R4 R5] Hp Hm Hpk Hnp.
  set (i := slot_of n) in *. pose proof HG as [HI _ _]. pose proof (rqs_pos a) as Hq.
  assert (slots c2 !! i = Some s2) as Hs2 by (rewrite Ec2; apply list_lookup_insert_eq, lookup_lt_is_Some; eauto).
  apply wp_bind, (wp_slot_at i c2 s2 _ Hs2). assert (resp_msgbuf_ s2 = b) as Eb by (rewrite Es2; reflexivity).
  assert (num_tx_ s2 = num_tx_ s /\ num_rx_ s2 = num_rx_ s + 1) as [Etx Erx] by (rewrite Es2; split; reflexivity).
  unfold wire_pkts. rewrite Eb, Hnp, R2, Etx, Erx.
  assert (resp_ntoi (pkt_num_ (p_hdr p)) (rqs a) = j) as Ej.
  { unfold resp_ntoi. rewrite Hpk, u64_small; [lia|]. assert (rss r < 2 ^ 13) by (apply pkts_bound; unfold size in *; lia). unfold is_u64. lia. }
  rewrite Ej. destruct (filled_copy r b j p Hsz Hm Hp Hj R5) as (d & Hcopy & Hfill & Hld).
  set (bF := set_data d b) in *. set (s3 := set_resp bF s2).
  set (c3 := set_slots (<[i := s3]> (slots c)) (set_credits (credits_ c + 1) c)).
  assert (with_resp bF i c2 = c3) as Ewith.
  { unfold with_resp. rewrite (alter_at _ _ _ s2 Hs2). rewrite Ec2. unfold c3, set_slots. cbn. rewrite list_insert_insert_eq. reflexivity. }
  assert (slots c3 !! i = Some s3) as Hs3 by (apply list_lookup_insert_eq, lookup_lt_is_Some; eauto).
  assert (same i c c3) as Hsame3 by (split; try reflexivity; intros x Hx; apply list_lookup_insert_ne; congruence).
  assert (cur_req_num_ s3 = cur_req_num_ s /\ tx_msgbuf_ s3 = tx_msgbuf_ s /\ num_tx_ s3 = num_tx_ s /\ num_rx_ s3 = num_rx_ s + 1 /\
    in_wheel_ s3 = in_wheel_ s /\ wheel_count_ s3 = wheel_count_ s /\ tag_ s3 = tag_ s /\ resp_msgbuf_ s3 = bF) as (S1 & S2 & S3 & S4 & S5 & S6 & S7 & S8)
    by (unfold s3; rewrite Es2; repeat split; reflexivity).
  assert ((cur_req_num_ s, a) ∈ started c) as Ha' by (rewrite Hcur; exact Ha).
  destruct (cl_active ss _ _ _ _ _ _ a req Hok (ci_started_once _ _ _ _ _ _ _ HI) Hb Ha') as (Hreq & Htag & Hnc & _).
  rewrite Hcur in Hreq, Hnc. pose proof (ci_credits _ _ _ _ _ _ _ HI) as [Hc0 _].
  destruct (Z.eq_dec (num_rx_ s + 1) (rqs a + rss r - 1)) as [Hdone|Hmore].
  - apply wp_bind, wp_when; [rewrite negb_true_iff, Z.eqb_neq; lia|]. intros _. apply wp_bind, (wp_run _ bF _ _ Hcopy).
    apply wp_bind, wp_modify. fold (with_resp bF i c2). rewrite Ewith, (proj2 (Z.eqb_eq _ _) Hdone). cbn [negb].
    eapply (wp_finish_resp u c c3 i s s3 a req r t0); eauto; try congruence; try lia; try (rewrite Hcur; assumption).
    + eapply wheel_rx; [apply (ci_wheel _ _ _ _ _ _ _ HI i s Hs)|exact Hnw|..]; auto.
    + cbn. lia.
    + cbn. lia.
    + rewrite S8. unfold contents, bF. cbn [data_size_ data set_data]. rewrite R1. apply filled_all. fold (rss r). replace (rss r) with (j + 1) by lia. exact Hfill.
  - destruct (CInv_rx cap cs ss v Hndr (stallq_ c) c c3 i s s3 t0) as [HI3 HQ]; auto.
    { apply (ClResp _ _ _ _ _ _ _ a r req); rewrite ?S1, ?S2, ?S3, ?S4, ?S7, ?S8, ?Hcur; auto; try lia.
      replace (num_rx_ s + 1 - rqs a + 1) with (j + 1) by lia. exact Hfill. }
    assert (forall c', kicked cap cs ss v (stallq_ c) i c3 s3 c' \/ c' = c3 /\ CInv (stallq_ c) [] c3 -> good c') as Hgood.
    { intros c' [(HI4 & Hsame4 & s4 & Hs4 & Hm4)|(-> & HI4)].
      - eapply (good_same i c c' s s4 HG); [rewrite (sa_stallq _ _ _ Hsame4); exact HI4|eapply same_trans; eassumption|exact Hs|exact Hs4|..];
          [rewrite (mv_cur _ _ Hm4); exact S1|rewrite (mv_tx _ _ Hm4); exact S2].
      - eapply (good_same i c c3 s s3 HG); eauto. }
    apply wp_bind. assert (forall c', wp (run (copy_data_to_msgbuf b j p)) (fun b' c'' => wp (upd_slot i (set_resp b') ;;;
      (if negb (num_rx_ s + 1 =? rqs a + rss r - 1) then ret tt else finish_resp u i))%M (fun _ => good) c'') c' <-> good (with_resp bF i c')) as Hrest.
    { intros c'. rewrite Hcopy, (proj2 (Z.eqb_neq _ _) Hmore). reflexivity. }
    apply wp_when; intros Hkick.
    + apply negb_true_iff, Z.eqb_neq in Hkick. eapply wp_mono; [|intros ? c' H; apply wp_bind, Hrest; exact H].
      apply (wp_kick_rfr_resp bF i c2 s2); [exact Hs2|rewrite Eb; reflexivity|rewrite Eb; reflexivity|]. rewrite Ewith.
      eapply wp_mono; [apply (wp_kick_rfr_st cap cs ss v Hndr (stallq_ c) i c3 s3 a req r); auto; rewrite ?S1, ?S2, ?S3, ?S4, ?Hcur; auto; cbn; try lia|].
      intros ? c' H. apply Hgood. left. exact H.
    + apply negb_false_iff, Z.eqb_eq in Hkick. apply wp_bind, Hrest. rewrite Ewith. apply Hgood. right. split; [reflexivity|].
      apply (CInv_running cap cs ss v _ i c3 s3 HI3 Hs3). lia.
Qed.

(** The first packet sizes the buffer and leaves its header there; later ones find it so. *)
Lemma resp_buffer_ready c n a r j s t0 b req h : good c -> (n, a) ∈ started c -> (n, r) ∈ responses v -> size r <= cap -> cap <= kMaxMsgSize -> 0 <= j < rss r ->
  cl_ok ss (started c) (responses v) (conts c) (slot_of n) s t0 -> cur_req_num_ s = n -> num_rx_ s = rqs a - 1 + j -> tx_msgbuf_ s = Some req ->
  num_rx_ s < num_tx_ s ->
  req_type_ h = a_req_type a -> req_num_ h = n -> b = resp_msgbuf_ s ->
  num_tx_ s <= rqs a + rss r - 1 /\
  (if j =? 0 then exists b1, resize_msg_buffer b (size r) = Done b1 /\ receiving n a r 0 (set_hdrs (h :: tail (hdrs b1)) b1) else receiving n a r j b).
Proof.
  intros [HI _ _] Ha Hr Hcap Hmax Hj Hok Hcur Hk Hb Hlt Hty Hnum ->. destruct (ci_started _ _ _ _ _ _ _ HI n a Ha) as ([_ _ Hrb Hrc _] & _).
  pose proof (ci_started_once _ _ _ _ _ _ _ HI) as Hnd. pose proof (rqs_pos a).
  destruct Hok as [? ? ? ?|? ? ? ? Ht|a' b' Ha' ? Ht ? Hresp ? ? ? ? ?|a' r' b' Ha' ? Hr' Ht ? ? ? ? ? ? ? D1 D2 D3 D4 D5]; try congruence; rewrite Hcur in *;
    (assert (a' = a) as -> by (eapply nums_inj; eassumption)).
  - assert (j = 0) as -> by lia. split; [lia|]. cbn [Z.eqb]. rewrite Hresp.
    destruct (resize_ok (a_resp_msgbuf a) (size r)) as (b1 & Z1 & [_ _ _ _ M5 _] & Z3 & Z4 & Z5 & Z6 & Z7); [exact Hrb|unfold size in *; lia|].
    exists b1. split; [exact Z1|]. split; cbn; auto. apply filled_0. lia.
  - assert (r' = r) as -> by (eapply nums_inj; eassumption). split; [lia|]. destruct (Z.eqb_spec j 0); [lia|]. split; auto.
    replace j with (num_rx_ s - rqs a + 1) by lia. exact D3.
Qed.

Lemma wp_large_resp u c n a r j s t0 p : good c -> (n, a) ∈ started c -> (n, r) ∈ responses v -> size r <= cap -> cap <= kMaxMsgSize ->
  kMaxDataPerPkt < size r -> 0 <= j < rss r -> Z.of_nat (length (started c)) < 2 ^ 41 ->
  slots c !! slot_of n = Some s -> s_slots v !! slot_of n = Some t0 -> n <= s_cur_req_num_ t0 ->
  (n = s_cur_req_num_ t0 -> rqs a - 1 + j < s_num_rx_ t0) -> req_type_ (p_hdr p) = a_req_type a -> req_num_ (p_hdr p) = n ->
  pkt_num_ (p_hdr p) = rqs a - 1 + j -> msg_size_ (p_hdr p) = size r -> p_data p = chunk r j ->
  wp (process_resp_one_st u (slot_of n) p) (fun _ => good) c.
Proof.
  intros HG Ha Hr Hcap Hmax Hbig Hj Hlen Hs Ht0 Hle Hrx E0 E1 E2 E3 E4. pose proof HG as [HI _ _].
  destruct (ci_started _ _ _ _ _ _ _ HI n a Ha) as (Hargs & _ & s1 & Hs1 & Hn). assert (s1 = s) as -> by congruence.
  apply wp_bind, (wp_slot_at _ c s _ Hs), wp_bind, wp_assert; [apply Z.leb_le; lia|].
  destruct (in_order_client s (p_hdr p)) eqn:Hord; [|apply wp_ret; exact HG]. cbn [negb].
  destruct (resp_in_order c n a r j s t0 (p_hdr p)) as (Hcur & Hk & Hlt & Hnw & Hsc & Hsr & Hok & req & Hb); auto; try lia.
  assert ((cur_req_num_ s, a) ∈ started c) as Ha' by (rewrite Hcur; exact Ha).
  destruct (cl_active ss _ _ _ _ _ _ a req Hok (ci_started_once _ _ _ _ _ _ _ HI) Hb Ha') as ((Hnp & _) & _).
  destruct (resp_buffer_ready c n a r j s t0 (resp_msgbuf_ s) req (p_hdr p)) as (Htot & Hbuf); auto.
  apply wp_bind, (wp_bump cap cs ss v _ [] c _ s _ HI Hs Hlt), wp_bind, (wp_upd_slot _ _ _ s); [exact Hs|]. rewrite E3.
  destruct (Z.leb_spec (size r) kMaxDataPerPkt); [lia|]. apply wp_bind, (wp_deref _ req _ _ Hb). rewrite E2, Hnp.
  cbn [slots set_credits]. set (s' := set_progress (num_tx_ s) (num_rx_ s + 1) s). set (c1 := set_slots _ _).
  assert (slots c1 !! slot_of n = Some s') as Hs' by (apply list_lookup_insert_eq, lookup_lt_is_Some; eauto).
  assert (forall b, receiving n a r j b -> wp (let* s := slot_at (slot_of n) in
      when_ (negb (num_tx_ s =? wire_pkts req (resp_msgbuf_ s))) (kick_rfr_st (slot_of n)) ;;;
      let* b := run (copy_data_to_msgbuf (resp_msgbuf_ s) (resp_ntoi (pkt_num_ (p_hdr p)) (num_pkts_ req)) p) in
      upd_slot (slot_of n) (set_resp b) ;;;
      if negb (num_rx_ s =? wire_pkts req (resp_msgbuf_ s)) then ret tt else finish_resp u (slot_of n))%M (fun _ => good)
      (set_slots (<[slot_of n := set_resp b s']> (slots c)) (set_credits (credits_ c + 1) c))) as Hrest.
  { intros b Hrc. eapply (wp_resp_rest u c _ n a r j s _ t0 b req p); eauto; lia. }
  rewrite E2, Hnp in Hrest. apply wp_bind. destruct (Z.eqb_spec j 0) as [->|Hj0].
  - destruct Hbuf as (b1 & Hb1 & Hrc). replace (rqs a - 1 + 0 =? rqs a - 1) with true by (symmetry; apply Z.eqb_eq; lia).
    apply wp_bind, (wp_run _ b1 _ _ Hb1), (wp_upd_slot _ _ c1 s' _ Hs').
    cbn [c1 slots set_slots]. rewrite list_insert_insert_eq. apply (Hrest _ Hrc).
  - replace (rqs a - 1 + j =? rqs a - 1) with false by (symmetry; apply Z.eqb_neq; lia). apply wp_ret.
    apply (Hrest (resp_msgbuf_ s) Hbuf).
Qed.

End Reply.
End ErpcReply.
