(* ===== verification/ErpcQueues.v ===== *)
(** * The client's queues, packet loss, and received packets

    The stall queue, the wheel and the retransmission of ErpcSlot.v keep the invariant, and so does
    every packet that the server has sent, whenever and however often it arrives. *)

From Stdlib Require Import ZArith Lia.
From stdpp Require Import base numbers list sets.
From S2P Require Import Prelude ErpcMsg ErpcSlot ErpcChunk ErpcInv ErpcClient ErpcReply.
Open Scope Z_scope.

Module ErpcQueues.
Export ErpcReply.

Section Queues.
Context (cap cs ss : Z) (v : server) (Hndr : NoDup (nums (responses v))).
Context (Hresp : forall n r, (n, r) ∈ responses v -> size r <= kMaxMsgSize).
Local Abbreviation CInv Q X c := (ErpcInv.CInv cap cs ss Q X c v).
Local Abbreviation good := (ErpcReply.good cap cs ss v).

(** No request starts or ends. *)
Record calm (c c' : client) : Prop := {
  ca_free : sslot_free_vec_ c' = sslot_free_vec_ c;
  ca_backlog : enq_req_backlog_ c' = enq_req_backlog_ c;
  ca_active : active_rpcs c' = active_rpcs c;
  ca_started : started c' = started c;
  ca_conts : conts c' = conts c;
  ca_slots i s : slots c !! i = Some s -> exists s', slots c' !! i = Some s' /\ cur_req_num_ s' = cur_req_num_ s /\ tx_msgbuf_ s' = tx_msgbuf_ s
}.

Lemma calm_refl c : calm c c.
Proof. split; eauto. Qed.

Lemma calm_trans c1 c2 c3 : calm c1 c2 -> calm c2 c3 -> calm c1 c3.
Proof.
  intros [A1 A2 A3 A4 A5 A6] [B1 B2 B3 B4 B5 B6]. split; try congruence. intros i s Hs. destruct (A6 i s Hs) as (s2 & H2 & ? & ?).
  destruct (B6 i s2 H2) as (s3 & H3 & ? & ?). exists s3. split; [exact H3|]. split; congruence.
Qed.

Lemma calm_same i c c' s s' : same i c c' -> slots c !! i = Some s -> slots c' !! i = Some s' -> cur_req_num_ s' = cur_req_num_ s ->
  tx_msgbuf_ s' = tx_msgbuf_ s -> calm c c'.
Proof.
  intros [E1 E2 E3 E4 E5 E6 E7 E8 E9] Hs Hs' Hc Ht. split; auto. intros j t Hj. destruct (decide (j = i)) as [->|Hne].
  - assert (t = s) as -> by congruence. eauto.
  - exists t. rewrite E9 by exact Hne. auto.
Qed.

Lemma good_calm c c' : good c -> calm c c' -> CInv (stallq_ c') [] c' -> good c'.
Proof.
  intros [G1 G2 G3] [A1 A2 A3 A4 A5 A6] HI. split; [exact HI|rewrite A1, A2; exact G2|]. intros n a. rewrite A4, A5. intros Hin.
  destruct (G3 n a Hin) as [H|(s & H1 & H2 & H3)]; [auto|]. right. destruct (A6 _ s H1) as (s' & ? & ? & ?). exists s'. split; [assumption|]. split; congruence.
Qed.

Lemma CInv_queues Q X c q : CInv Q X c -> CInv Q X (set_queues q (wheel_ c) (active_rpcs c) c).
Proof. intros [C1 C2 C3 C4 C5 C6 C7 C8 C9 C10 C11 C12 C13 C14 C15]. split; auto. intros i s Hs. destruct (C6 i s Hs). split; auto. Qed.

(** ** The stall queue *)

Lemma CInv_unstall kept i q c : CInv (kept ++ i :: q) [] c -> CInv (kept ++ q) [i] c /\ (i ∉ kept ++ q).
Proof.
  intros [C1 C2 C3 C4 C5 C6 C7 C8 C9 C10 C11 C12 C13 C14 C15]. destruct C8 as (N1 & N2 & N3).
  assert (NoDup (i :: kept ++ q)) as N by (rewrite Permutation_middle; exact N2). apply NoDup_cons in N as [Hni N]. split; [|exact Hni].
  split; auto.
  - intros j s Hs. destruct (C6 j s Hs) as [L1 L2 L3 L4]. split; auto.
    + intros [H|H]%elem_of_app; apply L3, elem_of_app; [auto|right; right; exact H].
    + intros T1 T2. destruct (L4 T1 T2) as [[H|[->|H]%elem_of_cons]%elem_of_app|H]; [left; apply elem_of_app; auto|right; left|left; apply elem_of_app; auto|].
      apply not_elem_of_nil in H. contradiction.
  - intros j [H|[H|H]]; apply C9; [auto| |auto]. right. left. apply elem_of_app in H as [H|H]; apply elem_of_app; [auto|right; right; exact H].
Qed.

Lemma wp_process_stalled u q : forall kept c, CInv (kept ++ q) [] c ->
  wp (process_stalled u q) (fun r c' => CInv (kept ++ r) [] c' /\ calm c c') c.
Proof.
  induction q as [|i q IH]; intros kept c HI; cbn [process_stalled]; [apply wp_ret; split; [exact HI|apply calm_refl]|].
  apply wp_bind, wp_gets. destruct (Z.ltb_spec 0 (credits_ c)) as [Hc|Hc].
  - destruct (CInv_unstall kept i q c HI) as [HI1 Hni].
    assert (i < 8)%nat as Hi by (apply (ci_range _ _ _ _ _ _ _ HI); right; left; set_solver).
    destruct (lookup_lt_is_Some_2 (slots c) i) as [s Hs]; [rewrite (ci_len _ _ _ _ _ _ _ HI); exact Hi|].
    destruct (ci_listed _ _ _ _ _ _ _ HI i s Hs) as [_ _ L3 _]. destruct L3 as (Htx & T1 & T2); [set_solver|].
    destruct (tx_msgbuf_ s) as [b|] eqn:Hb; [|congruence]. destruct (ci_slots _ _ _ _ _ _ _ HI i s Hs) as (s0 & _ & Hok).
    assert (exists a, (cur_req_num_ s, a) ∈ started c) as [a Ha] by (destruct Hok as [|a|a|a]; try congruence; eauto).
    apply wp_bind. eapply wp_mono; [eapply (wp_kick cap cs ss v Hndr (kept ++ q) i u c s a b); eauto; congruence|].
    intros ? c1 (HI2 & Hsame & s1 & Hs1 & Hm). eapply wp_mono; [apply (IH kept c1 HI2)|]. intros r c2 [HI3 Hcalm]. split; [exact HI3|].
    eapply calm_trans; [|exact Hcalm]. destruct Hm. eapply (calm_same i c c1 s s1); eauto.
  - apply wp_bind. eapply wp_mono; [apply (IH (kept ++ [i]) c); rewrite <- app_assoc; exact HI|]. intros r c1 [HI1 Hcalm]. apply wp_ret.
    rewrite <- app_assoc in HI1. auto.
Qed.

Lemma wp_stall_queue u c : good c -> wp (process_credit_stall_queue_st u) (fun _ => good) c.
Proof.
  intros HG. apply wp_bind, wp_gets, wp_bind. eapply wp_mono; [apply (wp_process_stalled u (stallq_ c) [] c), HG|].
  intros r c' [HI Hcalm]. apply wp_modify. eapply (good_calm c); [exact HG| |apply CInv_queues, HI].
  eapply calm_trans; [exact Hcalm|]. split; eauto.
Qed.

(** ** The wheel *)

Lemma remove_one_spec e w : NoDup w -> e ∈ w -> exists w', remove_one e w = Some w' /\ NoDup w' /\ forall x, x ∈ w' <-> x ∈ w /\ x <> e.
Proof.
  induction w as [|y w IH]; intros Hnd Hin; [set_solver|]. apply NoDup_cons in Hnd as [Hy Hnd]. cbn [remove_one].
  destruct (decide (y = e)) as [->|Hne]; [exists w; split; [reflexivity|]; split; [exact Hnd|]; set_solver|].
  destruct IH as (w' & -> & H1 & H2); [exact Hnd|set_solver|]. exists (y :: w'). split; [reflexivity|]. split; [|set_solver].
  apply NoDup_cons. split; [rewrite H2; tauto|exact H1].
Qed.

Lemma filter_out_length (ks : list Z) n : NoDup ks -> n ∈ ks -> length ks = S (length (filter (fun k => k <> n) ks)).
Proof.
  induction ks as [|k ks IH]; intros Hnd Hin; [set_solver|]. apply NoDup_cons in Hnd as [Hk Hnd].
  destruct (decide (k = n)) as [->|Hne].
  - rewrite filter_cons_False by tauto. cbn. f_equal. clear IH Hnd Hin. induction ks as [|x ks IH]; [reflexivity|].
    rewrite filter_cons_True by set_solver. cbn. f_equal. apply IH. set_solver.
  - rewrite filter_cons_True by exact Hne. cbn. f_equal. apply IH; [exact Hnd|set_solver].
Qed.

(** The packet [n] of slot [i] leaves the wheel. *)
Lemma wheel_remove w w' i s n : wheel_ok w i s -> (i, n) ∈ w -> (forall x, x ∈ w' <-> x ∈ w /\ x <> (i, n)) ->
  0 <= num_rx_ s -> num_tx_ s - num_rx_ s <= kSessionCredits ->
  wheel_ok w' i (set_wheel (<[Z.to_nat (n mod kSessionCredits) := false]> (in_wheel_ s)) (wheel_count_ s - 1) s).
Proof.
  intros (ks & K1 & K2 & K3 & K4 & K5 & K6) Hin Hw' Hpos Hwin. apply K2 in Hin. exists (filter (fun k => k <> n) ks).
  cbn [set_wheel in_wheel_ wheel_count_ num_rx_ num_tx_ tx_msgbuf_]. split; [|split; [|split; [|split; [|split]]]].
  - apply NoDup_filter, K1.
  - intros k. rewrite Hw', K2, list_elem_of_filter. split; [intros [? Hk]; split; [congruence|assumption]|intros [? ?]; split; [assumption|congruence]].
  - intros k. rewrite list_elem_of_filter. intros [_ Hk]. apply K3, Hk.
  - rewrite K4, (filter_out_length ks n K1 Hin). lia.
  - rewrite length_insert. exact K5.
  - intros x Hx. destruct (decide (x = Z.to_nat (n mod kSessionCredits))) as [->|Hne].
    + rewrite list_lookup_insert_eq by lia. f_equal. symmetry. apply bool_decide_eq_false. intros H.
      apply list_elem_of_fmap in H as (k & E & Hk). apply list_elem_of_filter in Hk as [Hkn Hk]. destruct (K3 k Hk) as [B1 _], (K3 n Hin) as [B2 _].
      unfold kSessionCredits in *. pose proof (Z.mod_pos_bound k 32). pose proof (Z.mod_pos_bound n 32).
      assert (n mod 32 = k mod 32) by lia. Z.div_mod_to_equations. lia.
    + rewrite list_lookup_insert_ne by congruence. rewrite K6 by exact Hx. f_equal. apply bool_decide_ext. rewrite !list_elem_of_fmap.
      split; intros (k & -> & Hk); exists k; (split; [reflexivity|]); [apply list_elem_of_filter; split; [congruence|exact Hk]|apply list_elem_of_filter in Hk; tauto].
Qed.

Lemma cl_ok_wheel st re co i s s0 l k : cl_ok ss st re co i s s0 -> cl_ok ss st re co i (set_wheel l k s) s0.
Proof. intros []; [eapply ClNew|eapply ClIdle|eapply ClReq|eapply ClResp]; cbn; eassumption. Qed.

Lemma wp_process_ready i n c : good c -> (i, n) ∈ wheel_ c ->
  wp (process_ready (i, n)) (fun _ c' => good c' /\ forall x, x ∈ wheel_ c -> x <> (i, n) -> x ∈ wheel_ c') c.
Proof.
  intros HG Hin. pose proof HG as [HI _ _].
  assert (i < 8)%nat as Hi by (apply (ci_range _ _ _ _ _ _ _ HI); right; right; right; apply (elem_of_map_intro fst _ _ Hin)).
  destruct (lookup_lt_is_Some_2 (slots c) i) as [s Hs]; [rewrite (ci_len _ _ _ _ _ _ _ HI); exact Hi|].
  pose proof (ci_wheel _ _ _ _ _ _ _ HI i s Hs) as Hwh. pose proof (slot_window cap cs ss v _ [] c i s HI Hs) as [Hwin Hcr].
  assert (num_rx_ s <= n < num_tx_ s /\ exists b, tx_msgbuf_ s = Some b /\ n < num_pkts_ b) as (Hn & b & Hb & Hnb).
  { destruct Hwh as (ks & _ & K2 & K3 & _). apply K3, K2, Hin. }
  destruct (ci_slots _ _ _ _ _ _ _ HI i s Hs) as (s0 & Hs0 & Hok).
  assert (exists a, (cur_req_num_ s, a) ∈ started c) as [a Ha] by (destruct Hok as [|a|a|a]; try congruence; eauto).
  destruct (cl_active ss _ _ _ _ _ _ a b Hok (ci_started_once _ _ _ _ _ _ _ HI) Hb Ha) as ((Hnp & Hpk) & _).
  apply wp_bind, (wp_slot_at i c s _ Hs), wp_bind, (wp_deref _ b _ _ Hb), wp_bind. destruct (Z.ltb_spec n (num_pkts_ b)); [|lia].
  apply wp_bind, (wp_slot_at i c s _ Hs), wp_bind, (wp_deref _ b _ _ Hb), wp_bind.
  apply (wp_run _ (req_packet ss (cur_req_num_ s) a n)); [apply Hpk; lia|]. apply wp_modify, wp_bind, (wp_upd_slot i _ _ s); [exact Hs|].
  apply wp_bind, wp_gets. cbn [wheel_ set_slots set_logs]. pose proof (ci_nodup _ _ _ _ _ _ _ HI) as (N1 & N2 & N3).
  destruct (remove_one_spec (i, n) (wheel_ c) N3 Hin) as (w' & -> & Hnd & Hw'). apply wp_modify. split; [|intros x Hx Hne; apply Hw'; auto].
  cbn [slots set_logs set_slots stallq_ active_rpcs]. set (s' := set_wheel _ _ s). set (c' := set_queues _ _ _ _).
  assert (same i c c') as Hsame by (split; try reflexivity; intros j Hj; apply list_lookup_insert_ne; congruence).
  assert (slots c' !! i = Some s') as Hs' by (apply list_lookup_insert_eq, lookup_lt_is_Some; eauto).
  apply (good_same cap cs ss v i c c' s s' HG); auto.
  pose proof (ci_credits _ _ _ _ _ _ _ HI) as [Hc0 _]. destruct (ci_listed _ _ _ _ _ _ _ HI i s Hs) as [L1 L2 L3 L4].
  eapply (CInv_slot cap cs ss v (stallq_ c) [] (stallq_ c) [] c c' i s s' s0); auto; try tauto; cbn; try lia.
  - apply cl_ok_wheel, Hok.
  - intros j k Hj. rewrite Hw'. split; [tauto|]. intros Hx. split; [exact Hx|congruence].
  - apply (wheel_remove (wheel_ c)); auto; lia.
  - split; auto.
  - intros p [->|Hp]%elem_of_cons; [constructor; [exact Ha|lia]|apply (ci_sent _ _ _ _ _ _ _ HI p Hp)].
Qed.

Lemma wp_wheel ready : forall c, good c -> NoDup ready -> (forall x, x ∈ ready -> x ∈ wheel_ c) -> wp (process_wheel_st ready) (fun _ => good) c.
Proof.
  induction ready as [|[i n] l IH]; intros c HG Hnd Hin; cbn [process_wheel_st]; [apply wp_ret, HG|].
  apply NoDup_cons in Hnd as [Hni Hnd]. apply wp_bind. eapply wp_mono; [apply (wp_process_ready i n c HG); apply Hin; left|].
  intros ? c' [HG' Hw]. apply IH; auto. intros x Hx. apply Hw; [apply Hin; right; exact Hx|]. intros ->. contradiction.
Qed.

(** ** Packet loss *)

Lemma wheel_empty w i s s' : wheel_ok w i s -> wheel_count_ s <= 0 -> in_wheel_ s' = in_wheel_ s -> wheel_count_ s' = wheel_count_ s -> wheel_ok w i s'.
Proof.
  intros (ks & K1 & K2 & K3 & K4 & K5 & K6) Hc E1 E2. destruct ks; [|cbn in K4; lia]. exists []. rewrite E1, E2. repeat (split; [assumption|]).
  split; [set_solver|]. auto.
Qed.

(** The slot goes back to what has been received. *)
Lemma CInv_rollback c c' i s b : CInv (stallq_ c) [] c -> slots c !! i = Some s -> tx_msgbuf_ s = Some b -> num_rx_ s < num_tx_ s -> wheel_count_ s <= 0 ->
  c' = set_slots (<[i := set_progress (num_rx_ s) (num_rx_ s) s]> (slots c)) (set_credits (credits_ c + (num_tx_ s - num_rx_ s)) c) ->
  CInv (stallq_ c) [i] c' /\ (i ∉ stallq_ c).
Proof.
  intros HI Hs Hb Hlt Hcount ->. destruct (ci_slots _ _ _ _ _ _ _ HI i s Hs) as (s0 & Hs0 & Hok).
  assert (exists a, (cur_req_num_ s, a) ∈ started c) as [a Ha] by (destruct Hok as [|a|a|a]; try congruence; eauto).
  destruct (cl_active ss _ _ _ _ _ _ a b Hok (ci_started_once _ _ _ _ _ _ _ HI) Hb Ha) as (_ & _ & _ & Hphase).
  destruct (ci_listed _ _ _ _ _ _ _ HI i s Hs) as [L1 L2 L3 L4]. assert (i ∉ stallq_ c) as HQ by (intros H; destruct (L3 H) as (_ & ? & ?); lia).
  split; [|exact HQ]. pose proof (ci_credits _ _ _ _ _ _ _ HI) as [Hc0 _]. pose proof (ci_nodup _ _ _ _ _ _ _ HI) as (N1 & N2 & N3).
  set (s' := set_progress _ _ s).
  eapply (CInv_slot cap cs ss v (stallq_ c) [] (stallq_ c) [i] c _ i s s' s0); auto; try tauto; cbn; try lia.
  - split; try reflexivity. intros j Hj. apply list_lookup_insert_ne. congruence.
  - eapply (cl_ok_tx ss _ _ _ i s s' s0 a b); eauto; cbn; try lia; [apply (ci_started_once _ _ _ _ _ _ _ HI)|split; reflexivity|].
    intros r Hr Hge. destruct Hphase as [?|(r' & Hr' & ? & _)]; [lia|]. assert (r' = r) as -> by (eapply nums_inj; eassumption). lia.
  - apply (wheel_empty _ i s); [apply (ci_wheel _ _ _ _ _ _ _ HI i s Hs)|exact Hcount|reflexivity|reflexivity].
  - split; cbn; auto; [contradiction|]. intros _ _. right. left.
  - intros j Hj H. apply not_elem_of_nil in H. contradiction.
  - apply (ci_sent _ _ _ _ _ _ _ HI).
Qed.

Lemma wp_retransmit u i c s : good c -> slots c !! i = Some s -> tx_msgbuf_ s <> None ->
  wp (pkt_loss_retransmit_st u i) (fun _ c' => good c' /\ calm c c') c.
Proof.
  intros HG Hs Htx. pose proof HG as [HI _ _]. pose proof (slot_window cap cs ss v _ [] c i s HI Hs) as [Hwin Hcr].
  pose proof (ci_credits _ _ _ _ _ _ _ HI) as [Hc0 _].
  destruct (tx_msgbuf_ s) as [b|] eqn:Hb; [|congruence]. apply wp_bind, (wp_slot_at i c s _ Hs), wp_bind, wp_assert; [rewrite Hb; reflexivity|].
  apply wp_bind, wp_gets, wp_bind. unfold kSessionCredits in Hcr. rewrite u64_small by (unfold is_u64; lia).
  apply wp_assert; [apply Z.leb_le; unfold kSessionCredits; lia|].
  destruct (Z.eqb_spec (num_tx_ s - num_rx_ s) 0) as [He|He]; [apply wp_ret; split; [exact HG|apply calm_refl]|].
  assert (i ∉ stallq_ c) as HQ by (intros H; destruct (li_stalled _ _ _ _ _ (ci_listed _ _ _ _ _ _ _ HI i s Hs) H) as (_ & ? & ?); lia).
  apply wp_bind, wp_gets, wp_bind, wp_assert; [rewrite bool_decide_eq_false_2 by exact HQ; reflexivity|].
  destruct (Z.ltb_spec 0 (wheel_count_ s)) as [Hw|Hw]; [apply wp_ret; split; [exact HG|apply calm_refl]|].
  apply wp_bind, wp_modify, wp_bind, (wp_upd_slot i _ _ s); [exact Hs|]. set (c1 := set_slots _ _). set (s1 := set_progress _ _ s) in *.
  destruct (CInv_rollback c c1 i s b HI Hs Hb ltac:(lia) Hw eq_refl) as [HI1 _].
  assert (slots c1 !! i = Some s1) as Hs1 by (apply list_lookup_insert_eq, lookup_lt_is_Some; eauto).
  destruct (ci_slots _ _ _ _ _ _ _ HI i s Hs) as (s0 & _ & Hok).
  assert (exists a, (cur_req_num_ s, a) ∈ started c) as [a Ha] by (destruct Hok as [|a|a|a]; try congruence; eauto).
  eapply wp_mono; [eapply (wp_kick cap cs ss v Hndr (stallq_ c) i u c1 s1 a b); eauto; cbn; lia|].
  intros ? c2 (HI2 & Hsame & s2 & Hs2 & [M1 M2 M3 M4 M5]). assert (same i c c2) as Hsame2.
  { eapply same_trans; [|exact Hsame]. split; try reflexivity. intros j Hj. apply list_lookup_insert_ne. congruence. }
  rewrite <- (sa_stallq _ _ _ Hsame2) in HI2. assert (calm c c2) as Hcalm by (apply (calm_same i c c2 s s2); auto).
  split; [apply (good_calm c); auto|exact Hcalm].
Qed.

Lemma wp_scan_active u late l : forall c, good c -> (forall i, i ∈ l -> i ∈ active_rpcs c) -> wp (scan_active u late l) (fun _ => good) c.
Proof.
  induction l as [|i l IH]; intros c HG Hl; cbn [scan_active]; [apply wp_ret, HG|]. pose proof HG as [HI _ _].
  assert (i ∈ active_rpcs c) as Hact by (apply Hl; left).
  assert (i < 8)%nat as Hi by (apply (ci_range _ _ _ _ _ _ _ HI); auto).
  destruct (lookup_lt_is_Some_2 (slots c) i) as [s Hs]; [rewrite (ci_len _ _ _ _ _ _ _ HI); exact Hi|].
  apply wp_bind, (wp_slot_at i c s _ Hs), wp_bind. destruct ((num_tx_ s =? num_rx_ s) || negb (late i)).
  - apply wp_ret, IH; [exact HG|]. intros j Hj. apply Hl. right. exact Hj.
  - eapply wp_mono; [apply (wp_retransmit u i c s HG Hs)|].
    + apply (li_active _ _ _ _ _ (ci_listed _ _ _ _ _ _ _ HI i s Hs)), Hact.
    + intros ? c1 [HG1 Hcalm]. apply IH; [exact HG1|]. intros j Hj. rewrite (ca_active _ _ Hcalm). apply Hl. right. exact Hj.
Qed.

Lemma wp_loss_scan u late c : good c -> wp (pkt_loss_scan_st u late) (fun _ => good) c.
Proof. intros HG. apply wp_bind, wp_gets, wp_scan_active; auto. Qed.

(** ** Packets of the server *)

Lemma num_bound Q X c n a : CInv Q X c -> (n, a) ∈ started c -> Z.of_nat (length (started c)) < 2 ^ 41 -> 0 <= n < 2 ^ 44.
Proof.
  intros HI Ha Hlen. destruct (ci_started _ _ _ _ _ _ _ HI n a Ha) as (_ & H8 & s & Hs & Hn).
  pose proof (ci_cur _ _ _ _ _ _ _ HI _ s Hs) as (_ & _ & H). lia.
Qed.

Lemma wp_client_rx u c p : good c -> SInv cap cs ss (started c) v -> cap <= kMaxMsgSize -> Z.of_nat (length (started c)) < 2 ^ 41 ->
  p ∈ s_sent v -> wp (client_rx u p) (fun _ => good) c.
Proof.
  intros HG HS Hmax Hlen Hp. pose proof HG as [HI _ _]. destruct (si_sent _ _ _ _ _ HS p Hp) as (n & k & t0 & Hok & Ht0 & Hle & Hrx).
  unfold client_rx. destruct (negb (check_magic _)); [apply wp_ret; exact HG|]. apply wp_bind, wp_assert.
  { apply Z.leb_le. destruct Hok as [|n a r j _ Hr _]; cbn; [vm_compute; discriminate|]. destruct (si_resp _ _ _ _ _ HS n r Hr) as [Hcap _].
    pose proof kMaxMsgSize_bits. unfold kMsgSizeBits. rewrite bits_small by (unfold size in *; lia). lia. }
  apply wp_bind, wp_gets. destruct (negb _); [apply wp_ret; exact HG|].
  assert (exists a, (n, a) ∈ started c) as [a0 Ha0] by (destruct Hok; eauto). pose proof (num_bound _ _ c n a0 HI Ha0 Hlen) as Hn.
  destruct (ci_started _ _ _ _ _ _ _ HI n a0 Ha0) as (_ & _ & s & Hs & _). pose proof (fun a => rqs_bound cap cs ss v _ [] c n a HI) as Hrq.
  destruct Hok as [n a k Ha Hk|n a r j Ha Hr Hj]; specialize (Hrq a Ha); destruct (ci_started _ _ _ _ _ _ _ HI n a Ha) as ([_ _ _ _ Hty] & _);
    cbn [cr_packet resp_packet p_hdr fill req_num_ pkt_type_]; unfold kReqNumBits; rewrite bits_small by exact Hn; fold (slot_of n).
  - eapply wp_mono; [eapply (wp_expl_cr cap cs ss v Hndr u c n a k s t0); eauto; cbn; apply bits_small; unfold kReqNumBits, kPktNumBits; lia|].
    intros ? c' (HI' & Hsame & s' & Hs' & E1 & E2). apply (good_same cap cs ss v (slot_of n) c c' s s'); auto.
  - destruct (si_resp _ _ _ _ _ HS n r Hr) as [Hcap _]. pose proof (rss_pos r). assert (rss r < 2 ^ 13) as Hrs by (apply pkts_bound; unfold size in *; lia).
    pose proof (rqs_pos a). assert (0 <= size r < 2 ^ 24) as Hsz by (pose proof kMaxMsgSize_bits; unfold size in *; lia).
    destruct (Z.le_gt_cases (size r) kMaxDataPerPkt) as [Hone|Hbig].
    + assert (rss r = 1) as H1 by (apply (proj1 (proj2 (pkts_spec (size r) ltac:(unfold size; lia)))); exact Hone). assert (j = 0) as -> by lia.
      rewrite Z.add_0_r in *. eapply (wp_small_resp cap cs ss v Hndr u c n a r s t0); eauto; cbn; rewrite ?Z.add_0_r;
        try (apply bits_small; unfold kReqNumBits, kPktNumBits, kMsgSizeBits; lia). apply chunk_single, Hone.
    + eapply (wp_large_resp cap cs ss v Hndr u c n a r j s t0); eauto; cbn; apply bits_small; unfold kReqNumBits, kPktNumBits, kMsgSizeBits, kInvalidReqType in *; lia.
Qed.

End Queues.
End ErpcQueues.
