(* ===== verification/ErpcServer.v ===== *)
(** * The server's end keeps the invariant

    The operations of the server in ErpcSlot.v run without a failed assertion on every packet that
    the client has sent, and keep the invariant of both ends. *)

From Stdlib Require Import ZArith Lia.
From stdpp Require Import base numbers list sets.
From S2P Require Import Prelude ErpcMsg ErpcSlot ErpcChunk ErpcInv ErpcClient ErpcReply.
Open Scope Z_scope.

Module ErpcServer.
Export ErpcReply.

Lemma wp_sslot_at i v s (Q : sslot -> server -> Prop) : s_slots v !! i = Some s -> Q s v -> wp (sslot_at i) Q v.
Proof. intros H HQ. apply wp_bind, wp_gets. rewrite H. apply wp_ret, HQ. Qed.

Definition with_slots (l : list sslot) (v : server) : server :=
  {| s_slots := l; s_local_session_num_ := s_local_session_num_ v; s_remote_session_num_ := s_remote_session_num_ v;
     s_sent := s_sent v; invoked := invoked v; responses := responses v |}.

Lemma wp_upd_sslot i f v s (Q : unit -> server -> Prop) :
  s_slots v !! i = Some s -> Q tt (with_slots (<[i := f s]> (s_slots v)) v) -> wp (upd_sslot i f) Q v.
Proof. intros H HQ. apply wp_modify. rewrite (alter_at f i (s_slots v) s H). exact HQ. Qed.

Lemma wp_s_enqueue i k v s b p (Q : unit -> server -> Prop) : s_slots v !! i = Some s -> s_tx_msgbuf_ s = Some b -> packet_at b k = Done p ->
  Q tt (set_server_logs (p :: s_sent v) (invoked v) (responses v) v) -> wp (s_enqueue_pkt i k) Q v.
Proof.
  intros Hs Hb Hp HQ. apply wp_bind, (wp_sslot_at i v s _ Hs), wp_bind, (wp_deref _ b _ _ Hb), wp_bind, (wp_run _ p _ _ Hp). apply wp_modify, HQ.
Qed.

Section Server.
Context (cap cs ss : Z) (st : list (Z * enq_req_args_t)).
Context (Hst : NoDup (nums st)).
Context (Hargs : forall n a, (n, a) ∈ st -> args_ok cap a /\ 8 <= n < 2 ^ 44).
Local Abbreviation SInv v := (ErpcInv.SInv cap cs ss st v).

(** ** One slot changes *)

(** What the change of a slot of the server is to the client. *)
Definition grown (s s' : sslot) : Prop :=
  s_cur_req_num_ s' = s_cur_req_num_ s /\ s_num_rx_ s <= s_num_rx_ s' \/
  s_cur_req_num_ s' = s_cur_req_num_ s + kSessionReqWindow /\ 0 <= s_num_rx_ s' /\ exists a, (s_cur_req_num_ s', a) ∈ st.

Record evolved (v v' : server) : Prop := {
  ev_slots i s : s_slots v !! i = Some s -> exists s', s_slots v' !! i = Some s' /\ grown s s';
  ev_resp x : x ∈ responses v -> x ∈ responses v'
}.

Lemma grown_refl s : grown s s.
Proof. left. split; [reflexivity|lia]. Qed.

Lemma evolved_refl v : evolved v v.
Proof. split; eauto using grown_refl. Qed.

Record changed (v v' : server) (i : nat) (s s' : sslot) : Prop := {
  ch_slots : s_slots v' = <[i := s']> (s_slots v);
  ch_ids : s_local_session_num_ v' = s_local_session_num_ v /\ s_remote_session_num_ v' = s_remote_session_num_ v;
  ch_grown : grown s s';
  ch_ok : srv_ok cs st (invoked v') (responses v') i s';
  ch_inv x : x ∈ invoked v -> x ∈ invoked v';
  ch_inv_new n t d : (n, t, d) ∈ invoked v' -> (n, t, d) ∈ invoked v \/ n = s_cur_req_num_ s' /\ exists a, (n, a) ∈ st /\ t = a_req_type a /\ d = request a;
  ch_inv_once : NoDup (handled (invoked v'));
  ch_resp x : x ∈ responses v -> x ∈ responses v';
  ch_resp_new n r : (n, r) ∈ responses v' -> (n, r) ∈ responses v \/ n = s_cur_req_num_ s' /\ size r <= cap /\ n ∈ handled (invoked v');
  ch_resp_once : NoDup (nums (responses v'));
  ch_sent p : p ∈ s_sent v' -> p ∈ s_sent v \/ exists k, s2c_ok cs st (responses v') (s_cur_req_num_ s') k p /\ k < s_num_rx_ s'
}.

Lemma handled_in n l : n ∈ handled l <-> exists t d, (n, t, d) ∈ l.
Proof.
  split; [|intros (t & d & H); exact (handled_elem n t d l H)]. intros H. apply list_elem_of_fmap in H as ([[m t] d] & -> & H). eauto.
Qed.

Lemma nums_in {A} n (l : list (Z * A)) : n ∈ nums l <-> exists r, (n, r) ∈ l.
Proof. split; [|intros (r & H); exact (nums_elem n r l H)]. intros H. apply list_elem_of_fmap in H as ([m r] & -> & H). eauto. Qed.

Lemma srv_ok_mono iv re iv' re' i s : srv_ok cs st iv re i s -> (forall x, x ∈ iv -> x ∈ iv') -> (forall x, x ∈ re -> x ∈ re') ->
  (s_cur_req_num_ s ∈ handled iv' -> s_cur_req_num_ s ∈ handled iv) -> (s_cur_req_num_ s ∈ nums re' -> s_cur_req_num_ s ∈ nums re) ->
  srv_ok cs st iv' re' i s.
Proof.
  intros H H1 H2 H3 H4. assert (s_cur_req_num_ s ∈ handled iv -> s_cur_req_num_ s ∈ handled iv') as H5.
  { intros (t & d & Hin)%handled_in. apply handled_in. eauto. }
  destruct H; [eapply SrvIdle|eapply SrvRecv|eapply SrvPend|eapply SrvDone]; eauto.
Qed.

Lemma s2c_ok_mono re re' n k p : (forall x, x ∈ re -> x ∈ re') -> s2c_ok cs st re n k p -> s2c_ok cs st re' n k p.
Proof. intros H []; econstructor; eauto. Qed.

Lemma grown_cur s s' : grown s s' -> s_cur_req_num_ s <= s_cur_req_num_ s' /\ (s_cur_req_num_ s' = s_cur_req_num_ s -> s_num_rx_ s <= s_num_rx_ s').
Proof. unfold kSessionReqWindow. intros [[? ?]|(-> & ? & ?)]; unfold kSessionReqWindow; lia. Qed.

Lemma SInv_changed v v' i s s' : SInv v -> s_slots v !! i = Some s -> changed v v' i s s' -> SInv v' /\ evolved v v'.
Proof.
  intros HI Hs [H1 H2 H3 H4 H5 H6 H7 H8 H9 H10 H11]. destruct HI as [S1 S2 S3 S4 S5 S6 S7 S8 S9].
  destruct (S3 i s Hs) as (_ & Hslot & Hpos). pose proof (grown_cur _ _ H3) as [Hcur Hrx].
  assert (i < length (s_slots v))%nat as Hi by (apply lookup_lt_is_Some; eauto).
  assert (s_slots v' !! i = Some s') as Hs' by (rewrite H1; apply list_lookup_insert_eq, Hi).
  assert (slot_of (s_cur_req_num_ s') = i) as Hslot'.
  { destruct H3 as [[-> _]|(-> & _)]; [exact Hslot|]. rewrite slot_of_next by exact Hpos. exact Hslot. }
  assert (forall j t, s_slots v' !! j = Some t -> j = i /\ t = s' \/ j <> i /\ s_slots v !! j = Some t) as Hcase.
  { intros j t Ht. rewrite H1 in Ht. apply list_lookup_insert_Some in Ht as [(-> & -> & _)|[? ?]]; auto. }
  split; [split|split; [|exact H8]].
  - rewrite H1, length_insert. exact S1.
  - destruct H2 as [-> ->]. exact S2.
  - intros j t [[-> ->]|[Hj Ht]]%Hcase; [split; [exact H4|split; [exact Hslot'|lia]]|]. destruct (S3 j t Ht) as (Hok & Hsl & ?).
    split; [|auto]. apply (srv_ok_mono (invoked v) (responses v)); auto.
    + intros (ty & d & Hin)%handled_in. apply H6 in Hin as [Hin|[E _]]; [exact (handled_elem _ _ _ _ Hin)|]. congruence.
    + intros (r & Hin)%nums_in. apply H9 in Hin as [Hin|[E _]]; [exact (nums_elem _ _ _ Hin)|]. congruence.
  - exact H7.
  - intros n t d [Hin|[_ Hin]]%H6; eauto.
  - intros n t (ty & d & Hin)%handled_in Ht. destruct (decide (slot_of n = i)) as [E|E].
    + rewrite E, Hs' in Ht. injection Ht as <-. apply H6 in Hin as [Hin|[-> _]]; [|lia]. rewrite <- E in Hs.
      pose proof (S6 n s (handled_elem _ _ _ _ Hin) Hs). lia.
    + apply H6 in Hin as [Hin|[-> _]]; [|congruence]. destruct (Hcase _ _ Ht) as [[? ?]|[_ Ht']]; [contradiction|].
      apply (S6 n t (handled_elem _ _ _ _ Hin) Ht').
  - exact H10.
  - intros n r [Hin|(_ & ? & ?)]%H9; [|auto]. destruct (S8 n r Hin) as [? (t & d & Hd)%handled_in]. split; [assumption|]. apply handled_in. eauto.
  - intros p [Hp|(k & Hok & Hk)]%H11.
    + destruct (S9 p Hp) as (n & k & t & Hok & Ht & Hle & Hlt). exists n, k. destruct (decide (slot_of n = i)) as [E|E].
      * exists s'. rewrite E in *. rewrite Hs in Ht. injection Ht as <-. split; [exact (s2c_ok_mono _ _ _ _ _ H8 Hok)|]. split; [exact Hs'|].
        split; [lia|]. intros ->. specialize (Hrx ltac:(lia)). specialize (Hlt ltac:(lia)). lia.
      * exists t. rewrite H1, list_lookup_insert_ne by congruence. split; [exact (s2c_ok_mono _ _ _ _ _ H8 Hok)|auto].
    + exists (s_cur_req_num_ s'), k, s'. rewrite Hslot'. split; [exact Hok|]. split; [exact Hs'|]. split; [lia|]. auto.
  - intros j t Ht. destruct (decide (j = i)) as [->|Hj]; [exists s'; split; [exact Hs'|congruence]|].
    exists t. rewrite H1, list_lookup_insert_ne by congruence. split; [exact Ht|apply grown_refl].
Qed.

(** ** Packets of requests *)

(** A request of the client that has not reached the server is the next one of its slot, and the
    slot is done with the one before. *)
Definition ready (v : server) : Prop := forall n a s, (n, a) ∈ st -> s_slots v !! slot_of n = Some s ->
  n <= s_cur_req_num_ s + kSessionReqWindow /\
  (n = s_cur_req_num_ s + kSessionReqWindow -> s_cur_req_num_ s < kSessionReqWindow \/ s_cur_req_num_ s ∈ nums (responses v)).

Lemma same_slot n m : 0 <= n -> 0 <= m -> slot_of n = slot_of m -> m < n -> n <= m + kSessionReqWindow -> n = m + kSessionReqWindow.
Proof. unfold slot_of, kSessionReqWindow. intros Hn Hm E H1 H2. assert (n mod 8 = m mod 8) by (pose proof (Z.mod_pos_bound n 8); pose proof (Z.mod_pos_bound m 8); lia). Z.div_mod_to_equations. lia. Qed.

(** The slot can take request [n]. *)
Lemma slot_next v n a s : SInv v -> ready v -> (n, a) ∈ st -> s_slots v !! slot_of n = Some s -> s_cur_req_num_ s < n ->
  n = s_cur_req_num_ s + kSessionReqWindow /\ s_req_buried s = true /\ s_req_type_ s = kInvalidReqType /\
  (n ∉ handled (invoked v)) /\ (n ∉ nums (responses v)).
Proof.
  intros HI Hr Ha Hs Hlt. destruct (si_slots _ _ _ _ _ HI _ s Hs) as (Hok & Hslot & Hpos). destruct (Hr n a s Ha Hs) as [Hle Hdone].
  destruct (Hargs n a Ha) as [_ H8]. assert (n = s_cur_req_num_ s + kSessionReqWindow) as E by (apply same_slot; auto; lia).
  assert (n ∉ handled (invoked v)) as Hni by (intros H; pose proof (si_reached _ _ _ _ _ HI n s H Hs); lia).
  split; [exact E|]. specialize (Hdone E). unfold kSessionReqWindow in Hdone.
  assert (s_req_buried s = true /\ s_req_type_ s = kInvalidReqType) as [B1 B2].
  { destruct Hok as [|a' Ha'|a' Ha'|]; auto; destruct (Hargs _ a' Ha') as [_ ?]; destruct Hdone; [lia|contradiction|lia|contradiction]. }
  repeat (split; [assumption|]). intros (r & Hin)%nums_in. destruct (si_resp _ _ _ _ _ HI n r Hin). contradiction.
Qed.

(** The fields of the header of a packet of a request. *)
Lemma req_hdr n a k : (n, a) ∈ st -> 0 <= k < rqs a ->
  let h := p_hdr (req_packet ss n a k) in
  req_type_ h = a_req_type a /\ msg_size_ h = size (request a) /\ pkt_num_ h = k /\ req_num_ h = n /\ size (request a) <= kMaxMsgSize.
Proof.
  intros Ha Hk. destruct (Hargs n a Ha) as [[B _ _ _ Hty] Hn]. pose proof (size_contents _ B) as Hsz. fold (request a) in Hsz.
  destruct B as [B1 B2 _ _ _ _]. pose proof kMaxMsgSize_bits. assert (rqs a < 2 ^ 13) by (apply pkts_bound; lia).
  cbn. unfold kMsgSizeBits, kPktNumBits, kReqNumBits, kInvalidReqType in *. rewrite !bits_small by lia. repeat (split; [reflexivity|]). lia.
Qed.

(** The handler of request [n] has been called and has not responded. *)
Definition waiting (n : Z) (v : server) : Prop :=
  exists s, s_slots v !! slot_of n = Some s /\ s_cur_req_num_ s = n /\ n ∈ handled (invoked v) /\ n ∉ nums (responses v).

(** Packet [k] of request [n] is the next one of the slot or one before it. *)
Definition due (t : sslot) (n k : Z) : Prop :=
  s_cur_req_num_ t = n /\ k <= s_num_rx_ t \/ s_cur_req_num_ t + kSessionReqWindow = n /\ k = 0.

(** What [l] answers to packet [k]: a credit, or a packet of the response unless the handler has it. *)
Definition replied (n : Z) (a : enq_req_args_t) (k : Z) (l : list packet) (v' : server) : Prop :=
  if k <? rqs a - 1 then cr_packet cs n a k ∈ l
  else waiting n v' \/ exists r, (n, r) ∈ responses v' /\ resp_packet cs n a r (k - (rqs a - 1)) ∈ l.

Definition answers (n : Z) (a : enq_req_args_t) (k : Z) (v v' : server) : Prop :=
  exists l, s_sent v' = l ++ s_sent v /\ forall t, s_slots v !! slot_of n = Some t -> due t n k -> replied n a k l v'.

Local Abbreviation served n a k v := (fun (_ : unit) (v' : server) => SInv v' /\ evolved v v' /\ answers n a k v v').

Lemma served_none n a k v s : SInv v -> s_slots v !! slot_of n = Some s -> ~ due s n k -> SInv v /\ evolved v v /\ answers n a k v v.
Proof.
  intros HI Hs Hd. split; [exact HI|]. split; [apply evolved_refl|]. exists []. split; [reflexivity|]. intros t Ht Hdt. assert (t = s) as -> by congruence. contradiction.
Qed.

Lemma answers_intro n a k v v' l s : s_sent v' = l ++ s_sent v -> s_slots v !! slot_of n = Some s -> replied n a k l v' -> answers n a k v v'.
Proof. intros E Hs Hr. exists l. auto. Qed.

(** The last packet of the request again: the response is sent from its first packet on, if it is
    there. *)
Lemma wp_again v n a s : SInv v -> s_slots v !! slot_of n = Some s -> (n, a) ∈ st -> n = s_cur_req_num_ s -> (s_tx_msgbuf_ s = None -> n ∈ handled (invoked v)) ->
  wp (match s_tx_msgbuf_ s with Some _ => s_enqueue_pkt (slot_of n) 0 | None => ret tt end) (served n a (rqs a - 1) v) v.
Proof.
  intros HI Hs Ha E Hh. assert (forall l v', (waiting n v' \/ exists r, (n, r) ∈ responses v' /\ resp_packet cs n a r 0 ∈ l) -> replied n a (rqs a - 1) l v') as Hrep.
  { intros l v' H. unfold replied. rewrite Z.ltb_irrefl, Z.sub_diag. exact H. }
  destruct (si_slots _ _ _ _ _ HI _ s Hs) as (Hok & _). destruct (s_tx_msgbuf_ s) as [b|] eqn:Hb.
  - pose proof Hok as [|? ?|? ?|a' b' r Ha' Htx ? ? Hrx ? Hbuf ? Hr]; try congruence. rewrite <- E in *.
    assert (b' = b) as -> by congruence. assert (a' = a) as -> by (eapply nums_inj; eassumption). pose proof (rss_pos r).
    apply (wp_s_enqueue _ 0 v s b (resp_packet cs n a r 0)); [exact Hs|exact Hb|apply Hbuf; lia|]. apply and_assoc. split.
    + apply (SInv_changed v _ (slot_of n) s s); [exact HI|exact Hs|]. destruct HI as [S1 S2 S3 S4 S5 S6 S7 S8 S9]. split; cbn; auto using grown_refl.
      * symmetry. apply list_insert_id, Hs.
      * rewrite <- E. intros p [->|Hp]%elem_of_cons; [|auto]. right. exists (rqs a - 1 + 0). split; [constructor; auto; lia|lia].
    + apply (answers_intro _ _ _ _ _ [resp_packet cs n a r 0] s); [reflexivity|exact Hs|]. apply Hrep. right. exists r. split; [exact Hr|left].
  - apply wp_ret. split; [exact HI|]. split; [apply evolved_refl|]. apply (answers_intro _ _ _ _ _ [] s); [reflexivity|exact Hs|]. apply Hrep. left.
    exists s. split; [exact Hs|]. split; [auto|]. specialize (Hh eq_refl). split; [exact Hh|].
    destruct Hok as [|? ? ? ? ? ? ? ? ? ? Hnr|? ? ? ? ? ? ? ? Hnr|? ? ? ? ?]; [|rewrite E; exact Hnr|rewrite E; exact Hnr|congruence].
    destruct (Hargs n a Ha) as [_ ?]. pose proof (slot_of_lt n). lia.
Qed.

(** The handler is called with the request. *)
Lemma changed_invoked v v' i s s' a : SInv v -> s_slots v !! i = Some s -> s_slots v' = <[i := s']> (s_slots v) ->
  s_local_session_num_ v' = s_local_session_num_ v /\ s_remote_session_num_ v' = s_remote_session_num_ v -> grown s s' ->
  (s_cur_req_num_ s', a) ∈ st -> s_tx_msgbuf_ s' = None -> s_req_buried s' = false -> s_req_type_ s' = a_req_type a -> s_num_rx_ s' = rqs a ->
  num_pkts_ (req_msgbuf_ s') = rqs a -> s_cur_req_num_ s' ∉ handled (invoked v) -> s_cur_req_num_ s' ∉ nums (responses v) ->
  invoked v' = (s_cur_req_num_ s', a_req_type a, request a) :: invoked v -> responses v' = responses v -> s_sent v' = s_sent v -> changed v v' i s s'.
Proof.
  intros HI Hs Hl Hids Hg Ha E1 E2 E3 E4 E5 Hni Hnr Ei Er Es. destruct HI as [S1 S2 S3 S4 S5 S6 S7 S8 S9]. split; rewrite ?Ei, ?Er, ?Es; auto.
  - apply (SrvPend _ _ _ _ _ _ a); auto. left.
  - intros x Hx. right. exact Hx.
  - intros n t d [[= -> -> ->]|H]%elem_of_cons; [right; eauto|auto].
  - apply NoDup_cons. auto.
Qed.

(** The handler that has just been called. *)
Lemma answers_invoked n a v v' s s' : (n, a) ∈ st -> s_slots v !! slot_of n = Some s -> s_slots v' !! slot_of n = Some s' -> s_cur_req_num_ s' = n ->
  n ∉ nums (responses v) -> n ∈ handled (invoked v') -> responses v' = responses v -> s_sent v' = s_sent v -> answers n a (rqs a - 1) v v'.
Proof.
  intros Ha Hs Hs' E Hnr Hin Er Es. apply (answers_intro _ _ _ _ _ [] s); [exact Es|exact Hs|]. unfold replied. rewrite Z.ltb_irrefl. left.
  exists s'. rewrite Er. auto.
Qed.

Lemma wp_small_req v n a : SInv v -> ready v -> (n, a) ∈ st -> size (request a) <= kMaxDataPerPkt ->
  wp (process_small_req_st (slot_of n) (req_packet ss n a 0)) (served n a 0 v) v.
Proof.
  intros HI Hr Ha Hone. assert (rqs a = 1) as H1 by (apply (proj1 (proj2 (pkts_spec (size (request a)) ltac:(unfold size; lia)))); exact Hone).
  destruct (req_hdr n a 0 Ha ltac:(lia)) as (F1 & F2 & F3 & F4 & _). assert (p_data (req_packet ss n a 0) = chunk (request a) 0) as F5 by reflexivity.
  generalize dependent (req_packet ss n a 0). intros p F1 F2 F3 F4 F5.
  destruct (lookup_lt_is_Some_2 (s_slots v) (slot_of n)) as [s Hs]; [rewrite (si_len _ _ _ _ _ HI); apply slot_of_lt|].
  apply wp_bind, (wp_sslot_at _ v s _ Hs). cbn zeta. rewrite F4. destruct (Z.leb_spec n (s_cur_req_num_ s)) as [Hle|Hlt].
  { destruct (Z.ltb_spec n (s_cur_req_num_ s)); [apply wp_ret, (served_none n a 0 v s); auto; unfold due, kSessionReqWindow; lia|].
    assert (rqs a - 1 = 0) as H0 by lia. pose proof (wp_again v n a s HI Hs Ha ltac:(lia)) as W. rewrite H0 in W. apply W. intros Hb. assert (n = s_cur_req_num_ s) as E by lia.
    destruct (si_slots _ _ _ _ _ HI _ s Hs) as ([? ? ? ? ?|a' Ha' ? ? ? ? ? ? ? ? ?|? ? ? ? ? ? ? ? ?|? ? ? ? ? ?] & _); [|exfalso|rewrite E; assumption|congruence].
    - destruct (Hargs n a Ha) as [_ ?]. pose proof (slot_of_lt n). lia.
    - rewrite <- E in Ha'. assert (a' = a) as -> by (eapply nums_inj; eassumption). lia. }
  destruct (slot_next v n a s HI Hr Ha Hs Hlt) as (E & Hbur & Hty & Hni & Hnr).
  apply wp_bind, wp_assert; [apply Z.eqb_eq, E|]. apply wp_bind, wp_assert; [exact Hbur|].
  apply wp_bind, (wp_upd_sslot _ _ v s); [exact Hs|]. set (s1 := begin_req _ _ s). assert (slot_of n < length (s_slots v))%nat as Hi by (apply lookup_lt_is_Some; eauto).
  apply wp_bind, (wp_sslot_at _ _ s1); [apply list_lookup_insert_eq, Hi|]. apply wp_bind, wp_assert; [apply Z.eqb_eq, Hty|].
  apply wp_bind, (wp_upd_sslot _ _ _ s1); [apply list_lookup_insert_eq, Hi|]. apply wp_modify. cbn [with_slots s_slots]. rewrite list_insert_insert_eq.
  set (s2 := set_req_type _ s1). apply and_assoc. split.
  - apply (SInv_changed v _ (slot_of n) s s2); [exact HI|exact Hs|].
    apply (changed_invoked v _ _ s _ a); cbn; auto; try (rewrite F4; assumption); try lia.
    + right. cbn. rewrite F4. split; [exact E|]. split; [lia|eauto].
    + rewrite F1, F2, F4, F5, (chunk_single (request a) Hone). rewrite !take_ge; [reflexivity|unfold size; lia|rewrite take_ge; unfold size; lia].
  - replace 0 with (rqs a - 1) by lia. eapply (answers_invoked n a v _ s s2); auto; [apply list_lookup_insert_eq, Hi|]. cbn. rewrite F4. left.
Qed.

(** A slot that has the first [k + 1] packets of request [n] counted and the data of the first [j]
    of them. *)
Record taking (n : Z) (a : enq_req_args_t) (k j : Z) (s : sslot) : Prop := {
  tk_cur : s_cur_req_num_ s = n;
  tk_tx : s_tx_msgbuf_ s = None;
  tk_buried : s_req_buried s = false;
  tk_type : s_req_type_ s = kInvalidReqType;
  tk_rx : s_num_rx_ s = k + 1;
  tk_size : data_size_ (req_msgbuf_ s) = size (request a);
  tk_pkts : num_pkts_ (req_msgbuf_ s) = rqs a;
  tk_filled : filled j (request a) (data (req_msgbuf_ s))
}.

(** A packet that is not the last one: its credit returns. *)
Lemma changed_recv v v' i s s' n a k : SInv v -> s_slots v !! i = Some s -> s_slots v' = <[i := s']> (s_slots v) ->
  s_local_session_num_ v' = s_local_session_num_ v /\ s_remote_session_num_ v' = s_remote_session_num_ v -> grown s s' ->
  (n, a) ∈ st -> taking n a k (k + 1) s' -> 0 <= k < rqs a - 1 -> n ∉ handled (invoked v) -> n ∉ nums (responses v) ->
  invoked v' = invoked v -> responses v' = responses v -> s_sent v' = cr_packet cs n a k :: s_sent v -> changed v v' i s s'.
Proof.
  intros HI Hs Hl Hids Hg Ha [E1 E2 E3 E4 E5 E6 E7 E8] Hk Hni Hnr Ei Er Es. destruct HI as [S1 S2 S3 S4 S5 S6 S7 S8 S9].
  split; rewrite ?Ei, ?Er, ?Es; auto.
  - apply (SrvRecv _ _ _ _ _ _ a); auto; rewrite ?E1, ?E5; auto; lia.
  - rewrite E1, E5. intros p [->|Hp]%elem_of_cons; [|auto]. right. exists k. split; [constructor; [exact Ha|lia]|lia].
Qed.

(** [process_large_req_one_st] once the packet is counted. *)
Lemma wp_large_rest v s s1 n a k p : SInv v -> s_slots v !! slot_of n = Some s -> (n, a) ∈ st -> 0 <= k < rqs a ->
  p = req_packet ss n a k -> grown s s1 -> taking n a k k s1 -> n ∉ handled (invoked v) -> n ∉ nums (responses v) ->
  wp (let* s := sslot_at (slot_of n) in
      (if negb (k =? num_pkts_ (req_msgbuf_ s) - 1) then enqueue_cr_st (p_hdr p) else ret tt) ;;;
      let* b := run (copy_data_to_msgbuf (req_msgbuf_ s) k p) in
      upd_sslot (slot_of n) (fun s => set_req b (s_num_rx_ s) s) ;;;
      if negb (s_num_rx_ s =? num_pkts_ b) then ret tt else invoke (slot_of n) (req_type_ (p_hdr p)))%M
    (served n a k v) (with_slots (<[slot_of n := s1]> (s_slots v)) v).
Proof.
  intros HI Hs Ha Hk Hp Hg Ht Hni Hnr. destruct (req_hdr n a k Ha Hk) as (F1 & F2 & F3 & F4 & Hmax).
  assert (p_data p = chunk (request a) k) as F5 by (rewrite Hp; reflexivity). rewrite <- Hp in F1, F2, F3, F4. clear Hp.
  set (i := slot_of n) in *. assert (i < length (s_slots v))%nat as Hi by (apply lookup_lt_is_Some; eauto). pose proof Ht as [E1 E2 E3 E4 E5 E6 E7 E8].
  apply wp_bind, (wp_sslot_at _ _ s1); [apply list_lookup_insert_eq, Hi|]. rewrite E7, E5.
  destruct (filled_copy (request a) (req_msgbuf_ s1) k p Hmax F2 F5 Hk E8) as (d & Hcopy & Hfill & _).
  destruct (Z.eqb_spec k (rqs a - 1)) as [Hlast|Hmore]; cbn [negb].
  - apply wp_bind, wp_ret, wp_bind, (wp_run _ _ _ _ Hcopy), wp_bind, (wp_upd_sslot _ _ _ s1); [apply list_lookup_insert_eq, Hi|].
    cbn [num_pkts_ set_data with_slots s_slots]. rewrite list_insert_insert_eq, E7. destruct (Z.eqb_spec (k + 1) (rqs a)) as [_|]; [cbn [negb]|lia].
    apply wp_bind, (wp_sslot_at _ _ (set_req (set_data d (req_msgbuf_ s1)) (s_num_rx_ s1) s1)); [apply list_lookup_insert_eq, Hi|].
    apply wp_bind, wp_assert; [apply Z.eqb_eq, E4|]. apply wp_bind, (wp_upd_sslot _ _ _ (set_req (set_data d (req_msgbuf_ s1)) (s_num_rx_ s1) s1)); [apply list_lookup_insert_eq, Hi|].
    apply wp_modify. cbn [with_slots s_slots]. rewrite list_insert_insert_eq.
    apply and_assoc. split.
    + eapply (SInv_changed v _ i s); [exact HI|exact Hs|]. eapply (changed_invoked v _ i s _ a); try reflexivity; cbn; auto; try (rewrite E1; assumption); try lia.
      rewrite E6, F1, E1. rewrite filled_all; [reflexivity|]. fold (rqs a). replace (rqs a) with (k + 1) by lia. exact Hfill.
    + rewrite Hlast. eapply (answers_invoked n a v _ s); auto; [apply list_lookup_insert_eq, Hi|exact E1|]. cbn. rewrite E1. left.
  - apply wp_bind, wp_bind, wp_gets, wp_modify. cbn [with_slots s_remote_session_num_]. rewrite (proj2 (si_ids _ _ _ _ _ HI)), F1, F3, F4.
    apply wp_bind, (wp_run _ _ _ _ Hcopy), wp_bind, (wp_upd_sslot _ _ _ s1); [apply list_lookup_insert_eq, Hi|].
    cbn [num_pkts_ set_data with_slots set_server_logs s_slots]. rewrite list_insert_insert_eq, E7. destruct (Z.eqb_spec (k + 1) (rqs a)) as [|_]; [lia|cbn [negb]].
    apply wp_ret, and_assoc. split.
    + eapply (SInv_changed v _ i s); [exact HI|exact Hs|]. eapply (changed_recv v _ i s _ n a k); try reflexivity; cbn; auto; [|lia]. split; cbn; auto.
    + apply (answers_intro _ _ _ _ _ [cr_packet cs n a k] s); [reflexivity|exact Hs|]. unfold replied. destruct (Z.ltb_spec k (rqs a - 1)); [left|lia].
Qed.

(** A message of [n] bytes can be allocated. *)
Definition mem_ok (mem : option bytes) (n : Z) : Prop := exists m, mem = Some m /\ n <= size m.

Lemma wp_large_req mem v n a k : SInv v -> ready v -> mem_ok mem (size (request a)) -> (n, a) ∈ st -> 0 <= k < rqs a -> kMaxDataPerPkt < size (request a) ->
  wp (process_large_req_one_st mem (slot_of n) (req_packet ss n a k)) (served n a k v) v.
Proof.
  intros HI Hr (m & -> & Hm) Ha Hk Hbig. pose proof (rqs_pos a). destruct (pkts_spec (size (request a)) ltac:(unfold size; lia)) as (_ & P & _). fold (rqs a) in P.
  destruct (req_hdr n a k Ha Hk) as (F1 & F2 & F3 & F4 & Hmax). destruct (Hargs n a Ha) as [_ Hn].
  destruct (lookup_lt_is_Some_2 (s_slots v) (slot_of n)) as [s Hs]; [rewrite (si_len _ _ _ _ _ HI); apply slot_of_lt|].
  apply wp_bind, (wp_sslot_at _ v s _ Hs). cbv zeta. rewrite F4, F3. pose proof (si_slots _ _ _ _ _ HI _ s Hs) as (Hok & Hslot & Hpos).
  assert (slot_of n < length (s_slots v))%nat as Hi by (apply lookup_lt_is_Some; eauto).
  destruct (((n =? s_cur_req_num_ s) && (k =? s_num_rx_ s)) || ((n =? s_cur_req_num_ s + kSessionReqWindow) && (k =? 0))) eqn:Hord; cbn [negb].
  - apply wp_bind. apply orb_true_iff in Hord as [[E1%Z.eqb_eq E2%Z.eqb_eq]%andb_true_iff|[E1%Z.eqb_eq E2%Z.eqb_eq]%andb_true_iff].
    + destruct Hok as [? ? ? ? ?|a' Ha' ? ? ? Hrx D1 D2 D3 Hni Hnr|a' Ha'|a' b r Ha']; [unfold slot_of, kSessionReqWindow in *; pose proof (Z.mod_pos_bound n 8); lia| | |];
        (assert (a' = a) as -> by (rewrite <- E1 in Ha'; eapply nums_inj; eassumption)); try lia.
      destruct (Z.eqb_spec k 0); [lia|]. apply (wp_upd_sslot _ _ v s); [exact Hs|].
      apply (wp_large_rest v s _ n a k); auto; [left; cbn; lia| |rewrite E1; assumption|rewrite E1; assumption]. split; cbn; auto; try lia. rewrite E2. exact D3.
    + destruct (slot_next v n a s HI Hr Ha Hs ltac:(unfold kSessionReqWindow in *; lia)) as (_ & Hbur & Hty & Hni & Hnr). subst k. cbn [Z.eqb].
      apply wp_bind, wp_assert; [exact Hbur|]. unfold alloc_msg_buffer. rewrite F2.
      destruct (Z.leb_spec (size (request a)) 0); [unfold kMaxDataPerPkt, kMTU, sizeof_pkthdr in Hbig; lia|]. apply wp_bind, wp_ret, (wp_upd_sslot _ _ v s); [exact Hs|].
      apply (wp_large_rest v s _ n a 0); auto.
      * right. cbn [begin_req s_cur_req_num_ s_num_rx_]. rewrite F4. split; [exact E1|]. split; [lia|eauto].
      * split; cbn [begin_req s_cur_req_num_ s_num_rx_ s_tx_msgbuf_ s_req_buried s_req_type_ req_msgbuf_ data_size_ num_pkts_ data]; rewrite ?F4, ?F2; auto.
        apply filled_0. unfold size in *. rewrite length_take. lia.
  - apply orb_false_iff in Hord as [Hnext Hfirst].
    destruct (negb (n =? s_cur_req_num_ s) || (s_num_rx_ s <? k)) eqn:Hpast.
    { apply wp_ret, (served_none n a k v s); auto. intros [[E1 E2]|[E1 E2]].
      - apply orb_true_iff in Hpast as [H1%negb_true_iff%Z.eqb_neq|H1%Z.ltb_lt]; lia.
      - apply andb_false_iff in Hfirst as [H1%Z.eqb_neq|H1%Z.eqb_neq]; lia. }
    apply orb_false_iff in Hpast as [E1%negb_false_iff%Z.eqb_eq E2%Z.ltb_ge]. rewrite F2. fold (rqs a).
    assert (k < s_num_rx_ s) as Hlt by (apply andb_false_iff in Hnext as [H1%Z.eqb_neq|H1%Z.eqb_neq]; lia).
    destruct (Z.eqb_spec k (rqs a - 1)) as [Hlast|Hmore]; cbn [negb].
    { rewrite Hlast. apply wp_again; auto. intros Hb. rewrite E1.
      destruct Hok as [? ? ? ? ?|a' Ha' ? ? ? ? ? ? ? ? ?|? ? ? ? ? ? ? ? ?|? ? ? ? ? ?]; [|exfalso|assumption|congruence].
      - pose proof (slot_of_lt n). lia.
      - rewrite <- E1 in Ha'. assert (a' = a) as -> by (eapply nums_inj; eassumption). lia. }
    apply wp_bind, wp_gets, wp_modify. rewrite (proj2 (si_ids _ _ _ _ _ HI)), F1, F3, F4. apply and_assoc. split.
    + apply (SInv_changed v _ (slot_of n) s s); [exact HI|exact Hs|]. destruct HI as [S1 S2 S3 S4 S5 S6 S7 S8 S9]. split; cbn; auto using grown_refl.
      * symmetry. apply list_insert_id, Hs.
      * rewrite <- E1. intros p [->|Hp]%elem_of_cons; [|auto]. right. exists k. split; [apply (s2c_cr cs st _ n a k); [exact Ha|lia]|lia].
    + apply (answers_intro _ _ _ _ _ [cr_packet cs n a k] s); [reflexivity|exact Hs|]. unfold replied. destruct (Z.ltb_spec k (rqs a - 1)); [left|lia].
Qed.

(** ** Requests for responses *)

Context (Hcap : cap <= kMaxMsgSize).

Lemma rfr_hdr n a r k : (n, a) ∈ st -> size r <= cap -> rqs a <= k < rqs a + rss r - 1 ->
  pkt_num_ (p_hdr (rfr_packet ss n a k)) = k /\ req_num_ (p_hdr (rfr_packet ss n a k)) = n.
Proof.
  intros Ha Hr Hk. destruct (Hargs n a Ha) as [[B _ _ _ Hty] Hn]. pose proof (size_contents _ B) as Hsz. fold (request a) in Hsz. destruct B as [B1 B2 _ _ _ _].
  assert (rqs a < 2 ^ 13) by (apply pkts_bound; lia). assert (rss r < 2 ^ 13) by (apply pkts_bound; unfold size in *; lia). pose proof (rqs_pos a).
  cbn. unfold kPktNumBits, kReqNumBits. rewrite !bits_small by lia. auto.
Qed.

(** The slot that has a response. *)
Lemma slot_done v n a r s : SInv v -> (n, a) ∈ st -> (n, r) ∈ responses v -> s_slots v !! slot_of n = Some s ->
  n <= s_cur_req_num_ s /\ (n = s_cur_req_num_ s -> exists b, s_tx_msgbuf_ s = Some b /\ s_req_buried s = true /\ s_req_type_ s = kInvalidReqType /\
    rqs a <= s_num_rx_ s <= rqs a + rss r - 1 /\ sav_num_req_pkts_ s = rqs a /\ resp_buf cs n a r b /\ n ∈ handled (invoked v)).
Proof.
  intros HI Ha Hr Hs. destruct (si_resp _ _ _ _ _ HI n r Hr) as [_ Hh]. split; [apply (si_reached _ _ _ _ _ HI n s Hh Hs)|]. intros E.
  destruct (Hargs n a Ha) as [_ H8]. pose proof (nums_elem _ _ _ Hr) as Hnr. rewrite E in Hnr.
  destruct (si_slots _ _ _ _ _ HI _ s Hs) as ([E1 ? ? ? ?|? ? ? ? ? ? ? ? ? ? ?|? ? ? ? ? ? ? ?|a' b r' Ha' ? ? ? ? ? ? ? Hr'] & _); try contradiction.
  - pose proof (slot_of_lt n). lia.
  - rewrite <- E in *. assert (a' = a) as -> by (eapply nums_inj; eassumption).
    assert (r' = r) as -> by (eapply nums_inj; [apply (si_resp_once _ _ _ _ _ HI)|eassumption|eassumption]). exists b. auto 8.
Qed.

Lemma wp_rfr v n a r k : SInv v -> (n, a) ∈ st -> (n, r) ∈ responses v -> rqs a <= k < rqs a + rss r - 1 ->
  wp (process_rfr_st (slot_of n) (p_hdr (rfr_packet ss n a k))) (served n a k v) v.
Proof.
  intros HI Ha Hr Hk. destruct (si_resp _ _ _ _ _ HI n r Hr) as [Hrc _]. destruct (rfr_hdr n a r k Ha Hrc Hk) as [F1 F2].
  destruct (lookup_lt_is_Some_2 (s_slots v) (slot_of n)) as [s Hs]; [rewrite (si_len _ _ _ _ _ HI); apply slot_of_lt|].
  destruct (slot_done v n a r s HI Ha Hr Hs) as [Hle Hdone]. apply wp_bind, (wp_sslot_at _ v s _ Hs). rewrite F1, F2. pose proof (rqs_pos a).
  assert (rss r < 2 ^ 13) by (apply pkts_bound; unfold size in *; lia).
  assert (rqs a < 2 ^ 13) by (destruct (Hargs n a Ha) as [[B _ _ _ _] _]; pose proof (size_contents _ B) as Hsz; destruct B; apply pkts_bound; unfold request; lia).
  assert (resp_ntoi k (rqs a) = k - (rqs a - 1)) as Hj by (apply u64_small; unfold is_u64; lia).
  assert (rqs a - 1 + (k - (rqs a - 1)) = k) as Ek by lia.
  apply wp_bind, wp_assert; [apply Z.leb_le, Hle|]. destruct (Z.eqb_spec n (s_cur_req_num_ s)) as [E|E].
  2: { destruct (Z.ltb_spec n (s_cur_req_num_ s)); [|lia]. apply wp_ret, (served_none n a k v s); auto. unfold due, kSessionReqWindow. lia. }
  destruct (Hdone E) as (b & D1 & D2 & D3 & D4 & D5 & D6 & D7). rewrite D5, Hj. specialize (D6 (k - (rqs a - 1)) ltac:(lia)) as Hpk.
  assert (s2c_ok cs st (responses v) n k (resp_packet cs n a r (k - (rqs a - 1)))) as Hs2c by (rewrite <- Ek at 1; constructor; auto; lia).
  assert (forall v', s_sent v' = [resp_packet cs n a r (k - (rqs a - 1))] ++ s_sent v -> responses v' = responses v -> answers n a k v v') as Hans.
  { intros v' Es Er. apply (answers_intro _ _ _ _ _ [resp_packet cs n a r (k - (rqs a - 1))] s); [exact Es|exact Hs|]. unfold replied.
    destruct (Z.ltb_spec k (rqs a - 1)); [lia|]. right. exists r. rewrite Er. split; [exact Hr|left]. }
  destruct (Z.eqb_spec k (s_num_rx_ s)) as [Hin|Hin]; cbn [negb andb].
  - assert (slot_of n < length (s_slots v))%nat as Hi by (apply lookup_lt_is_Some; eauto).
    apply wp_bind, (wp_upd_sslot _ _ v s); [exact Hs|]. set (s1 := set_req _ _ s).
    eapply (wp_s_enqueue _ _ _ s1 b); [apply list_lookup_insert_eq, Hi|exact D1|exact Hpk|].
    apply and_assoc. split; [|apply Hans; reflexivity].
    apply (SInv_changed v _ (slot_of n) s s1); [exact HI|exact Hs|]. destruct HI as [S1 S2 S3 S4 S5 S6 S7 S8 S9]. split; cbn; auto.
    + left. cbn. lia.
    + apply (SrvDone _ _ _ _ _ _ a b r); cbn; rewrite <- ?E; auto. lia.
    + rewrite <- E. intros p [->|Hp]%elem_of_cons; [|auto]. right. exists k. split; [exact Hs2c|lia].
  - destruct (Z.ltb_spec n (s_cur_req_num_ s)); [lia|]. destruct (Z.ltb_spec (s_num_rx_ s) k); cbn [orb]; [apply wp_ret, (served_none n a k v s); auto; unfold due, kSessionReqWindow; lia|].
    eapply (wp_s_enqueue _ _ v s b); [exact Hs|exact D1|exact Hpk|]. apply and_assoc. split; [|apply Hans; reflexivity]. apply (SInv_changed v _ (slot_of n) s s); [exact HI|exact Hs|].
    destruct (si_slots _ _ _ _ _ HI _ s Hs) as (Hok & _). destruct HI as [S1 S2 S3 S4 S5 S6 S7 S8 S9]. split; cbn; auto using grown_refl.
    + symmetry. apply list_insert_id, Hs.
    + rewrite <- E. intros p [->|Hp]%elem_of_cons; [|auto]. right. exists k. split; [exact Hs2c|lia].
Qed.

(** ** Every packet of the client *)

Local Abbreviation served_here n a k v :=
  (fun (_ : unit) (v' : server) => SInv v' /\ evolved v v' /\ (0 <= ss < 2 ^ 16 -> answers n a k v v')).

(** The packet is taken up by its session. *)
Lemma wp_server_here mem v n a k p : SInv v -> magic_ (p_hdr p) = kPktHdrMagic -> dest_session_num_ (p_hdr p) = bits 16 ss -> msg_size_ (p_hdr p) <= kMaxMsgSize ->
  req_num_ (p_hdr p) = n ->
  wp (match pkt_type_ (p_hdr p) with
      | kReq => if msg_size_ (p_hdr p) <=? kMaxDataPerPkt then process_small_req_st (slot_of n) p else process_large_req_one_st mem (slot_of n) p
      | kRFR => process_rfr_st (slot_of n) (p_hdr p)
      | kResp | kExplCR => raise AssertFailed
      end) (served n a k v) v ->
  wp (server_rx mem p) (served_here n a k v) v.
Proof.
  intros HI Hm Hd Hsz Hn Hwp. unfold server_rx, check_magic. rewrite Hm. cbn [Z.eqb negb]. change (kPktHdrMagic =? kPktHdrMagic) with true. cbn [negb].
  apply wp_bind, wp_assert; [apply Z.leb_le, Hsz|]. apply wp_bind, wp_gets. rewrite Hd, (proj1 (si_ids _ _ _ _ _ HI)).
  destruct (Z.eqb_spec (bits 16 ss) ss) as [E|E]; cbn [negb].
  - rewrite Hn. fold (slot_of n). eapply wp_mono; [exact Hwp|]. intros ? v' (? & ? & ?). auto.
  - apply wp_ret. split; [exact HI|]. split; [apply evolved_refl|]. intros Hss. rewrite bits_small in E by exact Hss. contradiction.
Qed.

Lemma wp_server_req mem v n a k : SInv v -> ready v -> mem_ok mem (size (request a)) -> (n, a) ∈ st -> 0 <= k < rqs a ->
  wp (server_rx mem (req_packet ss n a k)) (served_here n a k v) v.
Proof.
  intros HI Hr Hm Ha Hk. destruct (req_hdr n a k Ha Hk) as (F1 & F2 & F3 & F4 & F5). apply wp_server_here; auto; [rewrite F2; exact F5|].
  rewrite F2. change (pkt_type_ (p_hdr (req_packet ss n a k))) with kReq. cbn iota.
  destruct (Z.leb_spec (size (request a)) kMaxDataPerPkt) as [Hone|Hbig]; [|apply wp_large_req; assumption].
  assert (rqs a = 1) as H1 by (apply (proj1 (proj2 (pkts_spec (size (request a)) ltac:(unfold size; lia)))); exact Hone).
  assert (k = 0) as -> by lia. apply wp_small_req; assumption.
Qed.

Lemma wp_server_rfr mem v n a r k : SInv v -> (n, a) ∈ st -> (n, r) ∈ responses v -> rqs a <= k < rqs a + rss r - 1 ->
  wp (server_rx mem (rfr_packet ss n a k)) (served_here n a k v) v.
Proof.
  intros HI Ha Hr Hk. destruct (si_resp _ _ _ _ _ HI n r Hr) as [Hrc _]. destruct (rfr_hdr n a r k Ha Hrc Hk) as [F1 F2].
  apply wp_server_here; auto; [vm_compute; discriminate|]. apply (wp_rfr v n a r k); assumption.
Qed.

Lemma wp_server_rx mem v p : SInv v -> ready v -> mem_ok mem (msg_size_ (p_hdr p)) -> c2s_ok ss st (responses v) p ->
  wp (server_rx mem p) (fun _ v' => SInv v' /\ evolved v v') v.
Proof.
  intros HI Hr Hm Hp. destruct Hp as [n a k Ha Hk|n a r k Ha Hre Hk].
  - destruct (req_hdr n a k Ha Hk) as (_ & F2 & _). rewrite F2 in Hm. eapply wp_mono; [apply (wp_server_req mem v n a k); assumption|]. tauto.
  - eapply wp_mono; [apply (wp_server_rfr mem v n a r k); assumption|]. tauto.
Qed.

(** ** Responses *)

(** The handler of slot [i] has been called and has not responded. *)
Definition pending (v : server) (i : nat) : Prop :=
  exists s, s_slots v !! i = Some s /\ s_cur_req_num_ s ∈ handled (invoked v) /\ s_cur_req_num_ s ∉ nums (responses v).

Lemma pending_slot v i s : SInv v -> s_slots v !! i = Some s -> s_cur_req_num_ s ∈ handled (invoked v) -> s_cur_req_num_ s ∉ nums (responses v) ->
  exists a, (s_cur_req_num_ s, a) ∈ st /\ s_tx_msgbuf_ s = None /\ s_req_type_ s = a_req_type a /\ s_num_rx_ s = rqs a /\ num_pkts_ (req_msgbuf_ s) = rqs a.
Proof.
  intros HI Hs Hin Hni. destruct (si_slots _ _ _ _ _ HI i s Hs) as ([E1 ? ? ? ?|? ? ? ? ? ? ? ? ? ? ?|a Ha ? ? ? ? ? ?|? ? ? ? ? ? ? ? ? ? ? Hr] & _).
  - pose proof Hin as (t & d & Hin')%handled_in. destruct (si_invoked _ _ _ _ _ HI _ _ _ Hin') as (a & Ha & _). destruct (Hargs _ a Ha) as [_ ?].
    apply lookup_lt_Some in Hs. rewrite (si_len _ _ _ _ _ HI) in Hs. lia.
  - contradiction.
  - exists a. auto 8.
  - destruct Hni. exact (nums_elem _ _ _ Hr).
Qed.

Lemma resp_buf_written n a resp : (n, a) ∈ st -> response_ok cap resp ->
  let h0 := fill (a_req_type a) (data_size_ resp) cs kResp (rqs a - 1) n (magic_ (get_pkthdr_0 resp)) in
  resp_buf cs n a (contents resp) (write_hdrs h0 (pkt_num_ h0) resp).
Proof.
  intros Ha [Hb Hmagic _] h0 j Hj. pose proof (size_contents _ Hb) as Hsz. assert (num_pkts_ resp = rss (contents resp)) as Hn by (unfold rss; rewrite Hsz; apply Hb).
  assert (rqs a < 2 ^ 13) as Hq by (destruct (Hargs n a Ha) as [[B _ _ _ _] _]; pose proof (size_contents _ B); destruct B; apply pkts_bound; unfold request; lia).
  pose proof (rqs_pos a). assert (pkt_num_ h0 = rqs a - 1) as Hp by (cbn; unfold kPktNumBits; apply bits_small; lia).
  rewrite packet_written; [|exact Hb|lia|rewrite Hp; symmetry; unfold kPktNumBits; apply bits_small; lia].
  rewrite Hp. unfold resp_packet. f_equal. unfold h0. rewrite Hmagic, Hsz. reflexivity.
Qed.

Lemma wp_enqueue_response v i resp : SInv v -> pending v i -> response_ok cap resp ->
  wp (enqueue_response i resp) (fun _ v' => (SInv v' /\ evolved v v') /\ forall s a, s_slots v !! i = Some s -> (s_cur_req_num_ s, a) ∈ st ->
    s_sent v' = resp_packet cs (s_cur_req_num_ s) a (contents resp) 0 :: s_sent v /\ (s_cur_req_num_ s, contents resp) ∈ responses v') v.
Proof.
  intros HI (s & Hs & Hin & Hni) Hresp. destruct (pending_slot v i s HI Hs Hin Hni) as (a & Ha & Htx & Hty & Hrx & Hpk).
  pose proof (resp_buf_written _ a resp Ha Hresp) as Hbuf. cbn zeta in Hbuf. destruct (Hargs _ a Ha) as [[_ _ _ _ Hat] _].
  apply wp_bind, (wp_sslot_at _ v s _ Hs), wp_bind, wp_gets. cbv zeta. rewrite Hpk, Hty, (proj2 (si_ids _ _ _ _ _ HI)).
  set (b := write_hdrs _ _ resp) in *. set (r := contents resp) in *. pose proof (rss_pos r).
  apply wp_bind, wp_assert; [rewrite Htx; reflexivity|]. apply wp_bind, wp_assert; [apply negb_true_iff, Z.eqb_neq; unfold kInvalidReqType in *; lia|].
  apply wp_bind, (wp_upd_sslot _ _ v s); [exact Hs|]. set (s1 := {| s_cur_req_num_ := _ |}). apply wp_bind, wp_modify.
  assert (i < length (s_slots v))%nat as Hi by (apply lookup_lt_is_Some; eauto). specialize (Hbuf 0 ltac:(lia)) as Hp0.
  eapply (wp_s_enqueue i 0 _ s1 b); [apply list_lookup_insert_eq, Hi|reflexivity|exact Hp0|].
  change (take (Z.to_nat (data_size_ b)) (data b)) with r. split.
  2: { intros s' a' Hs' Ha'. assert (s' = s) as -> by congruence. assert (a' = a) as -> by (eapply nums_inj; eassumption). split; [reflexivity|left]. }
  apply (SInv_changed v _ i s s1); [exact HI|exact Hs|].
  destruct HI as [S1 S2 S3 S4 S5 S6 S7 S8 S9]. split; cbn; auto.
  - left. cbn. lia.
  - apply (SrvDone _ _ _ _ _ _ a b r); cbn; auto; [lia|left].
  - intros x Hx. right. exact Hx.
  - intros n q [[= -> ->]|Hq]%elem_of_cons; [|auto]. right. split; [reflexivity|]. split; [|exact Hin].
    destruct Hresp as [Hb _ Hc]. unfold r. rewrite size_contents by exact Hb. exact Hc.
  - apply NoDup_cons. auto.
  - intros p [->|Hp]%elem_of_cons; [|auto]. right. exists (rqs a - 1 + 0). split; [constructor; auto; [left|lia]|lia].
Qed.

End Server.

(** ** The client while the server moves *)

Section Both.
Context (cap cs ss : Z).

Lemma cl_ok_grown st re re' co i c s s' : cl_ok ss st re co i c s -> (forall n a, (n, a) ∈ st -> 8 <= n /\ (slot_of n = i -> n <= cur_req_num_ c)) ->
  slot_of (s_cur_req_num_ s') = i -> (i < 8)%nat -> (forall x, x ∈ re -> x ∈ re') -> grown st s s' -> cl_ok ss st re' co i c s'.
Proof.
  intros H Hcur Hslot Hi Hre Hg. apply (cl_ok_mono ss st st re re') in H; [|auto|exact Hre]. clear Hre re. destruct Hg as [[E1 E2]|(E1 & E2 & a0 & Ha0)].
  - assert (forall cur rx, linked re' cur rx s -> linked re' cur rx s') as Hl.
    { intros cur rx [[? ?]|(? & ? & ?)]; [left; split; [congruence|lia]|right]. rewrite E1. auto. }
    destruct H; [eapply ClNew|eapply ClIdle|eapply ClReq|eapply ClResp]; eauto; try congruence. lia.
  - destruct (Hcur _ a0 Ha0) as [H8 Hle]. specialize (Hle Hslot). unfold kSessionReqWindow in E1.
    destruct H as [? ? ? ? ?|a r ? ? ? ? ? ?|a b ? ? ? ? ? ? ? ? ? Hl|a r b]; try lia.
    destruct Hl as [[? ?]|(? & ? & _)]; [lia|]. unfold kSessionReqWindow in *. eapply (ClReq _ _ _ _ _ _ _ a b); auto. left. lia.
Qed.

Lemma good_evolved c v v' : good cap cs ss v c -> SInv cap cs ss (started c) v' -> evolved (started c) v v' -> good cap cs ss v' c.
Proof.
  intros [HI HB HT] HS [Hev Hre]. split; [|exact HB|exact HT]. destruct HI as [C1 C2 C3 C4 C5 C6 C7 C8 C9 C10 C11 C12 C13 C14 C15]. split; auto.
  - intros i s Hs. destruct (C3 i s Hs) as (s0 & Hs0 & Hok). destruct (Hev i s0 Hs0) as (s1 & Hs1 & Hg). exists s1. split; [exact Hs1|].
    eapply cl_ok_grown; [exact Hok| |apply (si_slots _ _ _ _ _ HS i s1 Hs1)|apply lookup_lt_Some in Hs; lia|exact Hre|exact Hg].
    intros n a Ha. destruct (C11 n a Ha) as (_ & H8 & t & Ht & Hn). split; [exact H8|]. intros E. rewrite E in Ht. congruence.
  - intros n t d Hin. destruct (C14 n t d Hin) as (a & ? & ? & ?). eauto.
  - intros p Hp. eapply c2s_ok_mono; [| |apply (C15 p Hp)]; auto.
Qed.

(** What the server needs to know of the client. *)
Lemma good_ready c v : good cap cs ss v c -> SInv cap cs ss (started c) v -> ready (started c) v.
Proof.
  intros [HI _ _] HS n a s0 Ha Hs0. destruct (ci_started _ _ _ _ _ _ _ HI n a Ha) as (_ & H8 & s & Hs & Hn).
  destruct (ci_slots _ _ _ _ _ _ _ HI _ s Hs) as (t & Ht & Hok). assert (t = s0) as -> by congruence.
  unfold kSessionReqWindow. destruct Hok as [? ? ? ? ?|? ? ? ? ? ? ? ?|? ? ? ? ? ? ? ? ? ? ? Hl|? ? ? ? ? ? ? ? ? ? ? ? ? ?]; try lia.
  destruct Hl as [[? ?]|(E & _ & Hd)]; unfold kSessionReqWindow in *; [lia|]. split; [lia|auto].
Qed.

Lemma good_args c v n a : good cap cs ss v c -> Z.of_nat (length (started c)) < 2 ^ 41 -> (n, a) ∈ started c -> args_ok cap a /\ 8 <= n < 2 ^ 44.
Proof.
  intros [HI _ _] Hlen Ha. destruct (ci_started _ _ _ _ _ _ _ HI n a Ha) as (Hok & H8 & s & Hs & Hn).
  pose proof (ci_cur _ _ _ _ _ _ _ HI _ s Hs) as (_ & _ & H). split; [exact Hok|]. lia.
Qed.

End Both.
End ErpcServer.
