(* ===== verification/ErpcFrame.v ===== *)
(** * What the client's operations leave alone

    Relations between the states before and after an operation of the client in ErpcSlot.v that hold
    whatever the state is, with the rules to show them: the logs only grow, requests keep their
    order, and sending does not touch what has been received. *)

From Stdlib Require Import ZArith Lia.
From stdpp Require Import base numbers list.
From S2P Require Import Prelude ErpcMsg ErpcSlot ErpcClient.
Open Scope Z_scope.

Module ErpcFrame.
Import ErpcSlot.
Local Open Scope m_scope.

(** ** Frames *)

Section Rules.
Context (R : client -> client -> Prop) `{!PreOrder R}.

Lemma frames_slot_at i : frames R (slot_at i).
Proof. apply frames_pure; [typeclasses eauto|]. intros c. unfold slot_at, bind, gets. destruct (slots c !! i); reflexivity || exact I. Qed.

Lemma frames_deref o : frames R (deref o).
Proof. apply frames_pure; [typeclasses eauto|]. intros c. destruct o; reflexivity || exact I. Qed.

Lemma frames_run {A} (o : outcome A) : frames R (run o).
Proof. apply frames_pure; [typeclasses eauto|]. intros c. destruct o; reflexivity || exact I. Qed.

End Rules.

#[export] Hint Resolve frames_slot_at frames_deref frames_run : frames.

(** Takes a program apart; [tac] is for the assignments. *)
Ltac framed tac := repeat (eauto with frames nocore; match goal with
  | |- frames _ (bind _ _) => apply frames_bind; [typeclasses eauto|..]
  | |- frames _ (when_ _ _) => apply frames_when; [typeclasses eauto|..]
  | |- frames _ (transmit _) => apply frames_modify; intros; tac
  | |- frames _ (upd_slot _ _) => apply frames_modify; intros; tac
  | |- frames _ (modify _) => apply frames_modify; intros; tac
  | |- frames _ (if ?b then _ else _) => destruct b
  | |- frames _ (match ?o with _ => _ end) => destruct o
  | |- forall _, _ => intros ?
  end).

(** ** Nothing starts or ends *)

Definition suffix_of {A} (l l' : list A) : Prop := exists k, l' = k ++ l.

#[export] Instance suffix_of_preorder {A} : PreOrder (@suffix_of A).
Proof. split; [intros l; exists []; reflexivity|]. intros l1 l2 l3 [k1 ->] [k2 ->]. exists (k2 ++ k1). apply app_assoc. Qed.

Lemma suffix_of_cons {A} (x : A) l : suffix_of l (x :: l).
Proof. exists [x]. reflexivity. Qed.

#[export] Hint Resolve suffix_of_cons : frames.

Record still (c c' : client) : Prop := {
  st_started : started c' = started c;
  st_backlog : enq_req_backlog_ c' = enq_req_backlog_ c;
  st_conts : conts c' = conts c;
  st_sent : suffix_of (sent c) (sent c')
}.

#[export] Instance still_preorder : PreOrder still.
Proof.
  split; [intros c; split; reflexivity|]. intros c1 c2 c3 [A1 A2 A3 A4] [B1 B2 B3 B4]. split; try congruence. transitivity (sent c2); assumption.
Qed.

Ltac still := framed ltac:(split; solve [reflexivity | apply suffix_of_cons]).

Lemma still_kick_req_loop n bypass i : frames still (kick_req_loop n bypass i).
Proof. induction n as [|n IH]; cbn [kick_req_loop]; unfold enqueue_pkt_tx_burst_st, enqueue_wheel_req_st; still. Qed.

Lemma still_kick_req_st u i : frames still (kick_req_st u i).
Proof. unfold kick_req_st. pose proof still_kick_req_loop. still. Qed.

Lemma still_kick_rfr_loop n i : frames still (kick_rfr_loop n i).
Proof. induction n as [|n IH]; cbn [kick_rfr_loop]; unfold enqueue_rfr_st; still. Qed.

Lemma still_kick_rfr_st i : frames still (kick_rfr_st i).
Proof. unfold kick_rfr_st. pose proof still_kick_rfr_loop. still. Qed.

#[export] Hint Resolve still_kick_req_st still_kick_rfr_st : frames.

Lemma still_kick u i : frames still (kick u i).
Proof. unfold kick, req_pkts_pending. still. Qed.

#[export] Hint Resolve still_kick : frames.

Lemma still_expl_cr u i h : frames still (process_expl_cr_st u i h).
Proof. unfold process_expl_cr_st, bump_credits, req_pkts_pending. still. Qed.

Lemma still_stall_queue u : frames still (process_credit_stall_queue_st u).
Proof.
  unfold process_credit_stall_queue_st. assert (forall q, frames still (process_stalled u q)) as H by (induction q; cbn [process_stalled]; still). still.
Qed.

Lemma still_wheel l : frames still (process_wheel_st l).
Proof. induction l as [|[i n] l IH]; cbn [process_wheel_st process_ready]; unfold enqueue_pkt_tx_burst_st, enqueue_rfr_st; still. Qed.

Lemma still_loss_scan u late : frames still (pkt_loss_scan_st u late).
Proof.
  unfold pkt_loss_scan_st. assert (forall l, frames still (scan_active u late l)) as H; [|still].
  induction l; cbn [scan_active]; unfold pkt_loss_retransmit_st; still.
Qed.

(** ** The order of requests *)

(** The requests in the order of their [enqueue_request]: those started and those waiting. *)
Definition requested (c : client) : list enq_req_args_t := rev (map snd (started c)) ++ enq_req_backlog_ c.

Record orderly (c c' : client) : Prop := {
  or_requested : requested c' = requested c;
  or_started : suffix_of (started c) (started c');
  or_conts : suffix_of (conts c) (conts c');
  or_sent : suffix_of (sent c) (sent c')
}.

#[export] Instance orderly_preorder : PreOrder orderly.
Proof.
  split; [intros c; split; reflexivity|]. intros c1 c2 c3 [A1 A2 A3 A4] [B1 B2 B3 B4].
  split; [congruence|transitivity (started c2)|transitivity (conts c2)|transitivity (sent c2)]; assumption.
Qed.

Lemma still_orderly c c' : still c c' -> orderly c c'.
Proof. intros [E1 E2 E3 E4]. split; [unfold requested; rewrite E1, E2; reflexivity|rewrite E1; reflexivity|rewrite E3; reflexivity|exact E4]. Qed.

Lemma frames_orderly {A} (m : M client A) : frames still m -> frames orderly m.
Proof. apply frames_weaken, still_orderly. Qed.

Lemma wpx_frame R {A B} (m : M client A) (k : A -> M client B) (Q : B -> client -> Prop) c :
  frames R m -> (forall a c1, R c c1 -> wpx (fun _ => True) (k a) Q c1) -> wpx (fun _ => True) (bind m k) Q c.
Proof. intros Hm Hk. apply wpx_bind. eapply wpx_mono; [apply Hm|auto|exact Hk]. Qed.

Lemma wpx_modify F (f : client -> client) (Q : unit -> client -> Prop) c : Q tt (f c) -> wpx F (modify f) Q c.
Proof. auto. Qed.

Lemma wpx_gets {A} F (f : client -> A) (Q : A -> client -> Prop) c : Q (f c) c -> wpx F (gets f) Q c.
Proof. auto. Qed.

Lemma wpx_assert (b : bool) (Q : unit -> client -> Prop) c : (b = true -> Q tt c) -> wpx (fun _ => True) (p_assert b) Q c.
Proof. intros H. destruct b; [apply H; reflexivity|exact I]. Qed.

(** A request takes a free slot or waits. *)
Definition taken (a : enq_req_args_t) (c c' : client) : Prop :=
  match sslot_free_vec_ c with
  | [] => started c' = started c /\ enq_req_backlog_ c' = enq_req_backlog_ c ++ [a]
  | _ => (exists n, started c' = (n, a) :: started c) /\ enq_req_backlog_ c' = enq_req_backlog_ c
  end /\ conts c' = conts c /\ suffix_of (sent c) (sent c').

Lemma enqueue_request_taken u a c : wpx (fun _ => True) (enqueue_request u a) (fun _ c' => taken a c c') c.
Proof.
  unfold enqueue_request, taken. apply wpx_bind, wpx_gets. destruct (sslot_free_vec_ c) as [|i rest]; [split; [split; reflexivity|split; reflexivity]|].
  apply (wpx_frame still); [still|intros ? c1 S1]. apply (wpx_frame still); [still|intros s c2 S2]. apply (wpx_frame still); [still|intros ? c3 S3].
  apply (wpx_frame still); [still|intros dest c4 S4]. apply (wpx_frame still); [still|intros ? c5 S5]. apply (wpx_frame still); [still|intros ? c6 S6].
  assert (still c c6) as [E1 E2 E3 E4] by (etransitivity; [exact S1|]; etransitivity; [exact S2|]; etransitivity; [exact S3|];
    etransitivity; [exact S4|]; etransitivity; [exact S5|exact S6]).
  apply wpx_bind, wpx_modify. match goal with |- wpx _ ?m _ _ => assert (frames still m) as Hq by still end.
  eapply wpx_mono; [apply Hq|auto|]. intros ? c8 [F1 F2 F3 F4]. cbn in F1, F2, F3, F4.
  split; [split; [eexists; rewrite F1, E1; reflexivity|congruence]|]. split; [congruence|]. transitivity (sent c6); assumption.
Qed.

Lemma taken_orderly a c c' : taken a c c' -> suffix_of (started c) (started c') /\ suffix_of (conts c) (conts c') /\ suffix_of (sent c) (sent c').
Proof.
  intros (H & E & Hs). rewrite E. split; [|split; [reflexivity|exact Hs]].
  destruct (sslot_free_vec_ c); [destruct H as [-> _]; reflexivity|destruct H as [[m ->] _]; apply suffix_of_cons].
Qed.

(** A slot becomes free, and the oldest waiting request takes it. *)
Lemma orderly_refill u i free (K : M client unit) : frames orderly K ->
  frames orderly
    (modify (set_free (i :: free)) ;;;
     let* backlog := gets enq_req_backlog_ in
     (match backlog with
      | [] => ret tt
      | args :: _ =>
          let* free := gets sslot_free_vec_ in
          p_assert (length free =? 1)%nat ;;;
          enqueue_request u args ;;;
          modify (fun c => set_backlog (tail (enq_req_backlog_ c)) c)
      end) ;;; K).
Proof.
  intros HK c. apply wpx_bind, wpx_modify, wpx_bind, wpx_gets. set (c1 := set_free _ c).
  assert (forall c', orderly c c' -> wpx (fun _ => True) K (fun _ c' => orderly c c') c') as Hend.
  { intros c' Hc'. eapply wpx_mono; [apply HK|auto|]. intros ? c2 H2. transitivity c'; assumption. }
  apply wpx_bind. destruct (enq_req_backlog_ c1) as [|a l] eqn:Hb; [apply Hend, still_orderly; split; reflexivity|].
  apply wpx_bind, wpx_gets, wpx_bind, wpx_assert. intros _. apply wpx_bind.
  eapply wpx_mono; [apply enqueue_request_taken|auto|]. intros ? c2 Ht. destruct (taken_orderly _ _ _ Ht) as (T1 & T2 & T3). destruct Ht as [[[n E1] E2] _].
  apply wpx_modify, Hend. split; [|exact T1|exact T2|exact T3].
  unfold requested. cbn [started enq_req_backlog_ set_backlog]. rewrite E1, E2, Hb. cbn. rewrite <- app_assoc. f_equal. symmetry. exact Hb.
Qed.

Ltac orderly := repeat match goal with
  | |- frames orderly (bind _ _) => apply frames_bind; [typeclasses eauto| |intros ?]
  | |- frames orderly (if ?b then _ else _) => destruct b
  | |- _ => apply frames_orderly; solve [still]
  end.

Lemma orderly_finish u i : frames orderly (finish_resp u i).
Proof.
  unfold finish_resp. do 6 (apply frames_bind; [typeclasses eauto|apply frames_orderly; still|intros ?]). apply orderly_refill.
  apply frames_modify. intros c. split; try reflexivity. apply suffix_of_cons.
Qed.

Lemma orderly_resp u i p : frames orderly (process_resp_one_st u i p).
Proof. unfold process_resp_one_st, bump_credits. pose proof (orderly_finish u i) as Hf. repeat (exact Hf || orderly). Qed.

Lemma orderly_client_rx u p : frames orderly (client_rx u p).
Proof.
  unfold client_rx. destruct (negb _); [orderly|]. apply frames_bind; [typeclasses eauto|orderly|intros ?].
  apply frames_bind; [typeclasses eauto|orderly|intros here]. destruct (negb _); [orderly|].
  destruct (pkt_type_ (p_hdr p)); [orderly|orderly|apply frames_orderly, still_expl_cr|apply orderly_resp].
Qed.

End ErpcFrame.
