(* ===== verification/ErpcSession.v ===== *)
(** * A session over an unreliable network

    The two ends of a session with everything that can happen to them: requests of the client's
    program, responses of the server's handlers, the work of the two event loops, and packets that
    the network delivers late, out of order, several times or never.  Every request is handled at
    most once and completed at most once, with the right data, and nothing fails. *)

From Stdlib Require Import ZArith Lia.
From stdpp Require Import base numbers list sets.
From S2P Require Import Prelude ErpcMsg ErpcSlot ErpcChunk ErpcInv ErpcClient ErpcReply ErpcQueues ErpcServer ErpcFrame.
Open Scope Z_scope.

Module ErpcSession.
Export ErpcQueues.
Export ErpcServer.
Export ErpcFrame.
Local Open Scope m_scope.

(** ** What can happen *)

(** The arguments are what is not part of the state: whether the session is uncongested, which
    packets of the wheel are due, which requests have timed out, and the memory of a new buffer. *)
Inductive event :=
  | Request (u : bool) (a : enq_req_args_t)
  | ClientRx (u : bool) (p : packet)
  | StallQueue (u : bool)
  | Wheel (due : list (nat * Z))
  | LossScan (u : bool) (late : nat -> bool)
  | ServerRx (mem : option bytes) (p : packet)
  | Respond (i : nat) (resp : MsgBuffer).

Definition at_client (m : M client unit) (x : session) : outcome session :=
  match m (cl x) with Done (_, c) => Done {| cl := c; sv := sv x |} | Fault f => Fault f end.

Definition at_server (m : M server unit) (x : session) : outcome session :=
  match m (sv x) with Done (_, v) => Done {| cl := cl x; sv := v |} | Fault f => Fault f end.

Definition perform (e : event) : session -> outcome session :=
  match e with
  | Request u a => at_client (enqueue_request u a)
  | ClientRx u p => at_client (client_rx u p)
  | StallQueue u => at_client (process_credit_stall_queue_st u)
  | Wheel due => at_client (process_wheel_st due)
  | LossScan u late => at_client (pkt_loss_scan_st u late)
  | ServerRx mem p => at_server (server_rx mem p)
  | Respond i resp => at_server (enqueue_response i resp)
  end.

(** The requests the program makes, in order. *)
Definition requests (es : list event) : list enq_req_args_t :=
  omap (fun e => match e with Request _ a => Some a | _ => None end) es.

Section Session.
Context (cap cs ss : Z).

(** A packet arrives after it has been sent; a handler responds once, within the capacity. *)
Definition enabled (x : session) (e : event) : Prop :=
  match e with
  | Request _ a => args_ok cap a
  | ClientRx _ p => p ∈ s_sent (sv x)
  | StallQueue _ | LossScan _ _ => True
  | Wheel due => NoDup due /\ forall k, k ∈ due -> k ∈ wheel_ (cl x)
  | ServerRx mem p => mem_ok mem (msg_size_ (p_hdr p)) /\ p ∈ sent (cl x)
  | Respond i resp => pending (sv x) i /\ response_ok cap resp
  end.

Inductive runs : session -> list event -> session -> Prop :=
  | runs_nil x : runs x [] x
  | runs_snoc x es y e z : runs x es y -> enabled y e -> perform e y = Done z -> runs x (es ++ [e]) z.

(** *** One step *)

Record sound (x : session) : Prop := {
  so_client : good cap cs ss (sv x) (cl x);
  so_server : SInv cap cs ss (started (cl x)) (sv x)
}.

Lemma sound_new : sound (new_session cs ss).
Proof. destruct (new_inv cap cs ss) as [H1 H2 H3]. split; [|exact H2]. split; [exact H1|exact H3|]. intros n a H. apply not_elem_of_nil in H. contradiction. Qed.

Lemma SInv_mono st st' v : (forall x, x ∈ st -> x ∈ st') -> SInv cap cs ss st v -> SInv cap cs ss st' v.
Proof.
  intros Hst [S1 S2 S3 S4 S5 S6 S7 S8 S9]. split; auto.
  - intros i s Hs. destruct (S3 i s Hs) as (Hok & ?). split; [|assumption]. destruct Hok; [eapply SrvIdle|eapply SrvRecv|eapply SrvPend|eapply SrvDone]; eauto.
  - intros n t d H. destruct (S5 n t d H) as (a & ? & ?). eauto.
  - intros p Hp. destruct (S9 p Hp) as (n & k & s & Hok & H). exists n, k, s. split; [|exact H]. destruct Hok; econstructor; eauto.
Qed.

(** What a step does to a session. *)
Record stepped (x : session) (l : list enq_req_args_t) (y : session) : Prop := {
  sp_sound : sound y;
  sp_requested : requested (cl y) = requested (cl x) ++ l;
  sp_started : suffix_of (started (cl x)) (started (cl y))
}.

Lemma step_client x l (m : M client unit) : sound x ->
  wp m (fun _ c' => good cap cs ss (sv x) c' /\ requested c' = requested (cl x) ++ l /\ suffix_of (started (cl x)) (started c')) (cl x) ->
  exists y, at_client m x = Done y /\ stepped x l y.
Proof.
  intros [_ HS] Hm. apply wp_Done in Hm as ([] & c' & Hrun & HG & Hreq & k & Hst). unfold at_client. rewrite Hrun. eexists. split; [reflexivity|].
  split; cbn [cl sv]; [split; cbn [cl sv]; [exact HG|]|exact Hreq|exists k; exact Hst]. eapply SInv_mono; [|exact HS]. intros y Hy. rewrite Hst. apply elem_of_app. auto.
Qed.

Lemma step_orderly x (m : M client unit) : sound x -> wp m (fun _ => good cap cs ss (sv x)) (cl x) -> frames orderly m ->
  exists y, at_client m x = Done y /\ stepped x [] y.
Proof.
  intros HS Hm Hf. apply (step_client x [] m HS). eapply wp_mono; [apply (wp_and _ _ _ _ Hm (Hf (cl x)))|].
  intros ? c' [HG [E1 E2 _ _]]. rewrite app_nil_r. auto.
Qed.

Lemma step_server x (m : M server unit) : sound x -> wp m (fun _ v' => SInv cap cs ss (started (cl x)) v' /\ evolved (started (cl x)) (sv x) v') (sv x) ->
  exists y, at_server m x = Done y /\ stepped x [] y.
Proof.
  intros [HG _] Hm. apply wp_Done in Hm as ([] & v' & Hrun & HS & Hev). unfold at_server. rewrite Hrun. eexists. split; [reflexivity|].
  split; cbn [cl sv]; [|rewrite app_nil_r; reflexivity|reflexivity]. split; cbn [cl sv]; [|exact HS]. eapply good_evolved; eassumption.
Qed.

Lemma good_requested c v c' a : good cap cs ss v c -> taken a c c' -> requested c' = requested c ++ [a] /\ suffix_of (started c) (started c').
Proof.
  intros [_ HB _] Ht. split; [|apply (taken_orderly a _ _ Ht)]. destruct Ht as [Ht _]. unfold requested. destruct (sslot_free_vec_ c) as [|i rest].
  - destruct Ht as [-> ->]. apply app_assoc.
  - destruct Ht as [[n ->] ->]. cbn. destruct (enq_req_backlog_ c) as [|b l]; [|discriminate HB; congruence]. rewrite !app_nil_r. reflexivity.
Qed.

Context (Hcap : cap <= kMaxMsgSize).

Lemma sound_step x e : sound x -> Z.of_nat (length (started (cl x))) < 2 ^ 41 -> enabled x e ->
  exists y, perform e x = Done y /\ stepped x (requests [e]) y.
Proof.
  intros HS Hlen He. pose proof HS as [HG HV]. pose proof HG as [HI _ _]. pose proof (si_resp_once _ _ _ _ _ HV) as Hndr.
  assert (forall n r, (n, r) ∈ responses (sv x) -> size r <= kMaxMsgSize) as Hsz by (intros n r Hr; destruct (si_resp _ _ _ _ _ HV n r Hr); lia).
  pose proof (ci_started_once _ _ _ _ _ _ _ HI) as Hst. pose proof (fun n a => good_args cap cs ss _ _ n a HG Hlen) as Hargs.
  destruct e as [u a|u p|u|due|u late|mem p|i resp]; cbn [perform requests omap list_omap]; cbn in He.
  - apply (step_client x [a]); [exact HS|]. eapply wp_mono; [apply wp_and; [apply (wp_enqueue_request cap cs ss _ Hndr u a _ HI He Hlen)|apply enqueue_request_taken]|].
    intros ? c' [[HI' Hacc] Ht]. split; [eapply good_accepted; eassumption|eapply good_requested; eassumption].
  - apply step_orderly; [exact HS| |apply orderly_client_rx]. apply wp_client_rx; assumption.
  - apply step_orderly; [exact HS| |apply frames_orderly, still_stall_queue]. apply wp_stall_queue; assumption.
  - destruct He as [Hnd Hin]. apply step_orderly; [exact HS| |apply frames_orderly, still_wheel]. apply wp_wheel; assumption.
  - apply step_orderly; [exact HS| |apply frames_orderly, still_loss_scan]. apply wp_loss_scan; assumption.
  - destruct He as [Hm Hp]. apply step_server; [exact HS|]. apply wp_server_rx; auto; [eapply good_ready; eassumption|apply (ci_sent _ _ _ _ _ _ _ HI p Hp)].
  - destruct He as [Hp Hr]. apply step_server; [exact HS|]. eapply wp_mono; [apply (wp_enqueue_response cap cs ss _ Hst Hargs); auto|]. intros ? v' [H _]. exact H.
Qed.

(** The logs only grow. *)
Record grows (x y : session) : Prop := {
  gr_started : suffix_of (started (cl x)) (started (cl y));
  gr_conts : suffix_of (conts (cl x)) (conts (cl y));
  gr_sent : suffix_of (sent (cl x)) (sent (cl y))
}.

Lemma perform_grows e x y : perform e x = Done y -> grows x y.
Proof.
  assert (forall m, wpx (fun _ => True) m (fun _ c' => suffix_of (started (cl x)) (started c') /\ suffix_of (conts (cl x)) (conts c') /\ suffix_of (sent (cl x)) (sent c')) (cl x) ->
    at_client m x = Done y -> grows x y) as Hc.
  { intros m Hm H. unfold wpx in Hm. unfold at_client in H. destruct (m (cl x)) as [[[] c']|f]; [|discriminate]. injection H as <-. destruct Hm as (? & ? & ?). split; assumption. }
  assert (forall m, frames orderly m -> at_client m x = Done y -> grows x y) as Ho.
  { intros m Hm. apply Hc. eapply wpx_mono; [apply Hm|auto|]. intros ? c' [_ ? ? ?]. auto. }
  assert (forall m, at_server m x = Done y -> grows x y) as Hs.
  { intros m H. unfold at_server in H. destruct (m (sv x)) as [[[] v']|f]; [|discriminate]. injection H as <-. split; reflexivity. }
  destruct e; cbn [perform]; [|apply Ho..|apply Hs|apply Hs]; auto using orderly_client_rx, frames_orderly, still_stall_queue, still_wheel, still_loss_scan.
  apply Hc. eapply wpx_mono; [apply enqueue_request_taken|auto|]. intros ? c'. apply taken_orderly.
Qed.

Lemma requests_app es es' : requests (es ++ es') = requests es ++ requests es'.
Proof. apply omap_app. Qed.

Lemma runs_sound x es y : runs x es y -> sound x -> Z.of_nat (length (started (cl y))) < 2 ^ 41 ->
  sound y /\ requested (cl y) = requested (cl x) ++ requests es.
Proof.
  induction 1 as [x|x es y e z Hrun IH He Hp]; intros HS Hlen; [split; [exact HS|symmetry; apply app_nil_r]|].
  destruct (perform_grows _ _ _ Hp) as [[k Hk] _ _]. rewrite Hk, length_app in Hlen. destruct (IH HS) as [HSy Hreq]; [lia|].
  destruct (sound_step y e HSy) as (z' & Hp' & [Hz Hrz _]); [lia|exact He|]. assert (z' = z) as -> by congruence.
  split; [exact Hz|]. rewrite Hrz, Hreq, requests_app. symmetry. apply app_assoc.
Qed.

(** Every request is counted once. *)
Lemma perform_requested e x y : perform e x = Done y -> length (requested (cl y)) = (length (requested (cl x)) + length (requests [e]))%nat.
Proof.
  assert (forall n (Q : client -> Prop) m, (forall c, Q c -> length (requested c) = (length (requested (cl x)) + n)%nat) -> wpx (fun _ => True) m (fun _ => Q) (cl x) ->
    at_client m x = Done y -> length (requested (cl y)) = (length (requested (cl x)) + n)%nat) as Hc.
  { intros n Q m HQ Hm H. unfold wpx in Hm. unfold at_client in H. destruct (m (cl x)) as [[[] c']|f]; [|discriminate]. injection H as <-. apply HQ, Hm. }
  assert (forall m, frames orderly m -> at_client m x = Done y -> length (requested (cl y)) = (length (requested (cl x)) + 0)%nat) as Ho.
  { intros m Hm. apply (Hc 0%nat (orderly (cl x))); [|apply Hm]. intros c [-> _ _ _]. lia. }
  assert (forall m, at_server m x = Done y -> length (requested (cl y)) = (length (requested (cl x)) + 0)%nat) as Hs.
  { intros m H. unfold at_server in H. destruct (m (sv x)) as [[[] v']|f]; [|discriminate]. injection H as <-. cbn. lia. }
  destruct e as [u a| | | | | |]; cbn [perform requests omap list_omap length]; [|apply Ho..|apply Hs|apply Hs];
    auto using orderly_client_rx, frames_orderly, still_stall_queue, still_wheel, still_loss_scan.
  apply (Hc 1%nat (taken a (cl x))); [|apply enqueue_request_taken]. intros c [Ht _]. unfold requested. rewrite !length_app, !length_rev, !length_map.
  destruct (sslot_free_vec_ (cl x)); [destruct Ht as [-> ->]; rewrite length_app; cbn; lia|destruct Ht as [[m ->] ->]; cbn; lia].
Qed.

Lemma runs_requested x es y : runs x es y -> length (requested (cl y)) = (length (requested (cl x)) + length (requests es))%nat.
Proof.
  induction 1 as [x|x es y e z Hrun IH He Hp]; [cbn; lia|]. rewrite (perform_requested _ _ _ Hp), IH, requests_app, length_app. lia.
Qed.

Lemma length_started c : (length (started c) <= length (requested c))%nat.
Proof. unfold requested. rewrite length_app, length_rev, length_map. lia. Qed.

(** A state that a new session reaches with few enough requests. *)
Lemma reached_sound es x : runs (new_session cs ss) es x -> Z.of_nat (length (requests es)) < 2 ^ 41 ->
  sound x /\ requested (cl x) = requests es /\ Z.of_nat (length (started (cl x))) < 2 ^ 41.
Proof.
  intros Hrun Hlen. pose proof (runs_requested _ _ _ Hrun) as Hl. pose proof (length_started (cl x)). change (length (requested (cl (new_session cs ss)))) with 0%nat in Hl.
  assert (Z.of_nat (length (started (cl x))) < 2 ^ 41) as Hst by lia. destruct (runs_sound _ _ _ Hrun sound_new Hst) as [HS Hreq]. auto.
Qed.

End Session.

(** ** Two responses *)

(** A handler that responds twice to one request runs into an assertion of [enqueue_response]. *)
Lemma second_response_fails i r1 r2 x y : perform (Respond i r1) x = Done y -> perform (Respond i r2) y = Fault AssertFailed.
Proof.
  cbn [perform]. unfold at_server, enqueue_response, sslot_at, upd_sslot, s_enqueue_pkt, s_transmit, p_assert, bind, gets, modify.
  destruct (s_slots (sv x) !! i) as [s|] eqn:Hs; [|discriminate]. cbn [ret]. destruct (bool_decide (is_Some (s_tx_msgbuf_ s))); [discriminate|]. cbn [negb ret].
  destruct (s_req_type_ s =? kInvalidReqType); [discriminate|]. cbn [negb ret]. unfold sslot_at, bind, gets. cbn [s_slots set_server_logs].
  rewrite (alter_at _ _ _ s Hs), list_lookup_insert_eq by (apply lookup_lt_is_Some; eauto). cbn [ret s_tx_msgbuf_ deref].
  destruct (run _ _) as [[p v']|f] eqn:Hp; [|discriminate]. intros [= <-]. cbn [sv s_slots set_server_logs].
  assert (v' = _) as -> by (unfold run in Hp; destruct (packet_at _ 0); [injection Hp; intros <- _; reflexivity|discriminate]).
  cbn [s_slots set_server_logs]. rewrite list_lookup_insert_eq by (apply lookup_lt_is_Some; eauto). reflexivity.
Qed.

(** ** A session *)

(** The memory of a buffer, and one of [n] bytes. *)
Definition some_buffer (n : Z) (f : Z) : MsgBuffer :=
  {| max_data_size_ := n; data_size_ := n; max_num_pkts_ := data_size_to_num_pkts n; num_pkts_ := data_size_to_num_pkts n;
     hdrs := blank kPktHdrMagic :: repeat (blank 0) (Z.to_nat (data_size_to_num_pkts n) - 1); data := repeat f (Z.to_nat n) |}.

Definition some_request (n tag : Z) : enq_req_args_t :=
  {| a_req_type := 3; a_req_msgbuf := some_buffer n 97; a_resp_msgbuf := some_buffer 8 0; a_tag := tag |}.

(** Whether an event can happen. *)
Definition msgbuf_okb (b : MsgBuffer) : bool :=
  (0 <=? data_size_ b) && (data_size_ b <=? max_data_size_ b) && (max_data_size_ b <=? kMaxMsgSize) &&
  (num_pkts_ b =? data_size_to_num_pkts (data_size_ b)) && (max_num_pkts_ b =? data_size_to_num_pkts (max_data_size_ b)) &&
  (size (data b) =? max_data_size_ b) && (Z.of_nat (length (hdrs b)) =? max_num_pkts_ b).

Lemma msgbuf_okb_ok b : msgbuf_okb b = true -> msgbuf_ok b.
Proof. unfold msgbuf_okb. rewrite !andb_true_iff, !Z.leb_le, !Z.eqb_eq. intros. split; tauto. Qed.

#[export] Instance pkthdr_eq_dec : EqDecision pkthdr_t.
Proof. solve_decision. Defined.

#[export] Instance packet_eq_dec : EqDecision packet.
Proof. solve_decision. Defined.

Definition enabledb (cap : Z) (x : session) (e : event) : bool :=
  match e with
  | Request _ a => msgbuf_okb (a_req_msgbuf a) && (magic_ (get_pkthdr_0 (a_req_msgbuf a)) =? kPktHdrMagic) && msgbuf_okb (a_resp_msgbuf a) &&
      (cap <=? max_data_size_ (a_resp_msgbuf a)) && (0 <=? a_req_type a) && (a_req_type a <? kInvalidReqType)
  | ClientRx _ p => bool_decide (p ∈ s_sent (sv x))
  | StallQueue _ | LossScan _ _ => true
  | Wheel due => bool_decide (NoDup due) && bool_decide (Forall (fun k => k ∈ wheel_ (cl x)) due)
  | ServerRx mem p => match mem with Some m => msg_size_ (p_hdr p) <=? size m | None => false end && bool_decide (p ∈ sent (cl x))
  | Respond i resp =>
      match s_slots (sv x) !! i with
      | Some s => bool_decide (s_cur_req_num_ s ∈ handled (invoked (sv x))) && negb (bool_decide (s_cur_req_num_ s ∈ nums (responses (sv x))))
      | None => false
      end && msgbuf_okb resp && (magic_ (get_pkthdr_0 resp) =? kPktHdrMagic) && (data_size_ resp <=? cap)
  end.

Lemma enabledb_ok cap x e : enabledb cap x e = true -> enabled cap x e.
Proof.
  destruct e as [u a|u p|u|due|u late|mem p|i resp]; cbn; rewrite ?andb_true_iff, ?bool_decide_eq_true; auto.
  - intros (((((H1 & H2) & H3) & H4) & H5) & H6). apply Z.eqb_eq in H2. apply Z.leb_le in H4, H5. apply Z.ltb_lt in H6. split; auto using msgbuf_okb_ok.
  - intros [H1 H2]. split; [exact H1|]. rewrite Forall_forall in H2. exact H2.
  - intros [H1 H2]. split; [|exact H2]. destruct mem as [m|]; [|discriminate]. exists m. split; [reflexivity|apply Z.leb_le, H1].
  - intros (((H1 & H2) & H3%Z.eqb_eq) & H4%Z.leb_le). split; [|split; auto using msgbuf_okb_ok].
    destruct (s_slots (sv x) !! i) as [s|] eqn:Hs; [|discriminate]. apply andb_true_iff in H1 as [E1%bool_decide_eq_true E2%negb_true_iff%bool_decide_eq_false].
    exists s. auto.
Qed.

Fixpoint performs (cap : Z) (x : session) (es : list event) : option session :=
  match es with
  | [] => Some x
  | e :: l => if enabledb cap x e then match perform e x with Done y => performs cap y l | Fault _ => None end else None
  end.

Lemma runs_performs cap es : forall x y before z, runs cap x before y -> performs cap y es = Some z -> runs cap x (before ++ es) z.
Proof.
  induction es as [|e es IH]; intros x y before z Hrun Hp; cbn in *; [injection Hp as <-; rewrite app_nil_r; exact Hrun|].
  destruct (enabledb cap y e) eqn:He; [|discriminate]. apply enabledb_ok in He. destruct (perform e y) as [w|] eqn:Hw; [|discriminate].
  change (e :: es) with ([e] ++ es). rewrite app_assoc. apply (IH x w); [|exact Hp]. exact (runs_snoc cap x before y e w Hrun He Hw).
Qed.

(** Two requests, the second of two packets; the first is lost once and arrives twice, and so does
    its response. *)
Definition some_events : list event :=
  let a := some_request 4 1 in let b := some_request 3830 2 in let r := some_buffer 2 98 in let mem := Some (repeat 0 3830) in
  [Request true a; Request true b; LossScan true (fun _ => true); ServerRx mem (req_packet 9 8 a 0); ServerRx mem (req_packet 9 8 a 0);
   Respond 0 r; ClientRx true (resp_packet 5 8 a [98; 98] 0); ServerRx mem (req_packet 9 9 b 0);
   ServerRx mem (req_packet 9 9 b 1); Respond 1 r; ClientRx true (cr_packet 5 9 b 0); ClientRx true (resp_packet 5 9 b [98; 98] 0);
   ClientRx true (resp_packet 5 8 a [98; 98] 0); LossScan false (fun _ => true)].

Definition some_session : session := default (new_session 5 9) (performs 8 (new_session 5 9) some_events).

Lemma some_runs : runs 8 (new_session 5 9) some_events some_session.
Proof.
  apply (runs_performs 8 some_events (new_session 5 9) (new_session 5 9) []); [constructor|].
  unfold some_session. destruct (performs _ _ _) eqn:E; [reflexivity|]. exfalso. revert E. vm_compute. discriminate.
Qed.

(** ** Theorems *)

(** C2: eRPC's data path (rpc_req.cc, rpc_resp.cc, rpc_cr.cc, rpc_rfr.cc, rpc_kick.cc, rpc_queues.cc,
    rpc_pkt_loss.cc) gives remote procedure calls exactly-once results over a network that loses,
    repeats, delays and reorders packets.  After any sequence of events of a new session, of fewer
    than 2^41 requests: the requests have been accepted in the order they were made, each under its
    own number; no request is handled twice, and a handler runs with exactly the type and the bytes
    of a request; no continuation runs twice, and it runs with exactly the response that the handler
    of its request has enqueued, after that handler ran; and a request that has been started has
    been completed or is in its slot. *)
Theorem rpc_exactly_once cap cs ss es x : cap <= kMaxMsgSize -> runs cap (new_session cs ss) es x ->
  Z.of_nat (length (requests es)) < 2 ^ 41 ->
  requested (cl x) = requests es /\ NoDup (nums (started (cl x))) /\
  NoDup (handled (invoked (sv x))) /\
  (forall n t d, (n, t, d) ∈ invoked (sv x) -> exists a, (n, a) ∈ started (cl x) /\ t = a_req_type a /\ d = request a) /\
  NoDup (handled (conts (cl x))) /\
  (forall n t d, (n, t, d) ∈ conts (cl x) ->
     exists a, (n, a) ∈ started (cl x) /\ t = a_tag a /\ (n, d) ∈ responses (sv x) /\ n ∈ handled (invoked (sv x))) /\
  NoDup (nums (responses (sv x))) /\ tracked (cl x).
Proof.
  intros Hcap Hrun Hlen. destruct (reached_sound cap cs ss Hcap _ _ Hrun Hlen) as ([HG HV] & Hreq & _). destruct HG as [HI _ HT].
  split; [exact Hreq|]. split; [apply HI|]. split; [apply HV|]. split; [apply HV|]. split; [apply HI|]. split; [|split; [apply HV|exact HT]].
  intros n t d Hin. destruct (ci_conts _ _ _ _ _ _ _ HI n t d Hin) as (a & Ha & Ht & Hr). exists a.
  destruct (si_resp _ _ _ _ _ HV n d Hr) as [_ Hh]. auto.
Qed.

(** C3: No assertion of eRPC's data path fails, no null buffer is used and no access is out of
    bounds: in every state that a session reaches, every event that can happen runs to its end.  The
    credits stay between 0 and [kSessionCredits], and they and the packets on their way add up to
    it. *)
Theorem rpc_never_fails cap cs ss es x e : cap <= kMaxMsgSize -> runs cap (new_session cs ss) es x ->
  Z.of_nat (length (requests es)) < 2 ^ 41 -> enabled cap x e ->
  (exists y, perform e x = Done y) /\ 0 <= credits_ (cl x) <= kSessionCredits /\ credits_ (cl x) + outstanding (slots (cl x)) = kSessionCredits.
Proof.
  intros Hcap Hrun Hlen He. destruct (reached_sound cap cs ss Hcap _ _ Hrun Hlen) as (HS & _ & Hst).
  destruct (sound_step cap cs ss Hcap x e HS Hst He) as (y & Hy & _). split; [eauto|]. destruct HS as [[HI _ _] _].
  destruct (ci_credits _ _ _ _ _ _ _ HI) as [Hc Hsum]. split; [|exact Hsum]. split; [exact Hc|].
  destruct (lookup_lt_is_Some_2 (slots (cl x)) 0) as [s Hs]; [rewrite (ci_len _ _ _ _ _ _ _ HI); lia|].
  pose proof (slot_window cap cs ss _ _ [] _ 0%nat s HI Hs). lia.
Qed.

Lemma rpc_exactly_once_witness : handled (conts (cl some_session)) = [9; 8] /\ requested (cl some_session) = requests some_events.
Proof. split; [vm_compute; reflexivity|]. apply (rpc_exactly_once 8 5 9 some_events some_session); [vm_compute; discriminate|exact some_runs|vm_compute; reflexivity]. Defined.

Lemma rpc_never_fails_witness : exists y, perform (ClientRx true (resp_packet 5 9 (some_request 3830 2) [98; 98] 0)) some_session = Done y.
Proof.
  apply (rpc_never_fails 8 5 9 some_events some_session); [vm_compute; discriminate|exact some_runs|vm_compute; reflexivity|].
  apply enabledb_ok. vm_compute. reflexivity.
Defined.

End ErpcSession.
