(* ===== verification/ErpcLive.v ===== *)
(** * Recovery from packet loss

    When every packet that is on its way is lost, the retransmission of ErpcSlot.v brings a session
    forward again: packets sent from then on are enough to complete all requests. *)

From Stdlib Require Import ZArith Lia.
From stdpp Require Import base numbers list sets.
From S2P Require Import Prelude ErpcMsg ErpcSlot ErpcChunk ErpcInv ErpcClient ErpcReply ErpcQueues ErpcServer ErpcFrame ErpcSession.
Open Scope Z_scope.

Module ErpcLive.
Export ErpcSession.
Local Open Scope m_scope.

(** ** Sending keeps what has been received *)

Record keeps (c c' : client) : Prop := {
  kp_slots i s : slots c !! i = Some s ->
    exists s', slots c' !! i = Some s' /\ cur_req_num_ s' = cur_req_num_ s /\ tx_msgbuf_ s' = tx_msgbuf_ s /\ num_rx_ s' = num_rx_ s;
  kp_stallq : stallq_ c' = stallq_ c;
  kp_sent : suffix_of (sent c) (sent c')
}.

#[export] Instance keeps_preorder : PreOrder keeps.
Proof.
  split; [intros c; split; [eauto|reflexivity|reflexivity]|]. intros c1 c2 c3 [A1 A2 A3] [B1 B2 B3].
  split; [|congruence|transitivity (sent c2); assumption]. intros i s Hs. destruct (A1 i s Hs) as (s2 & H2 & ? & ? & ?). destruct (B1 i s2 H2) as (s3 & H3 & ? & ? & ?).
  exists s3. split; [exact H3|]. repeat split; congruence.
Qed.

Lemma keeps_same c c' : slots c' = slots c -> stallq_ c' = stallq_ c -> suffix_of (sent c) (sent c') -> keeps c c'.
Proof. intros E1 E2 E3. split; [rewrite E1; eauto|exact E2|exact E3]. Qed.

Lemma keeps_alter c i f : (forall s, cur_req_num_ (f s) = cur_req_num_ s /\ tx_msgbuf_ (f s) = tx_msgbuf_ s /\ num_rx_ (f s) = num_rx_ s) ->
  keeps c (set_slots (alter f i (slots c)) c).
Proof.
  intros H. split; [|reflexivity|reflexivity]. intros j s Hs. cbn [slots set_slots]. destruct (decide (j = i)) as [->|Hne].
  - exists (f s). rewrite list_lookup_alter_eq, Hs. split; [reflexivity|apply H].
  - exists s. rewrite list_lookup_alter_ne by congruence. auto.
Qed.

Ltac keeps := framed ltac:(first [apply keeps_same; solve [reflexivity | apply suffix_of_cons] | apply keeps_alter; intros; split; [|split]; reflexivity]).

Lemma keeps_kick_req_loop n bypass i : frames keeps (kick_req_loop n bypass i).
Proof. induction n as [|n IH]; cbn [kick_req_loop]; unfold enqueue_pkt_tx_burst_st, enqueue_wheel_req_st; keeps. Qed.

Lemma keeps_kick_req_st u i : frames keeps (kick_req_st u i).
Proof. unfold kick_req_st. pose proof keeps_kick_req_loop. keeps. Qed.

Lemma keeps_kick_rfr_loop n i : frames keeps (kick_rfr_loop n i).
Proof. induction n as [|n IH]; cbn [kick_rfr_loop]; unfold enqueue_rfr_st; keeps. Qed.

Lemma keeps_kick_rfr_st i : frames keeps (kick_rfr_st i).
Proof. unfold kick_rfr_st. pose proof keeps_kick_rfr_loop. keeps. Qed.

#[export] Hint Resolve keeps_kick_req_st keeps_kick_rfr_st : frames.

Lemma keeps_kick u i : frames keeps (kick u i).
Proof. unfold kick, req_pkts_pending. keeps. Qed.

#[export] Hint Resolve keeps_kick : frames.

Lemma keeps_retransmit u i : frames keeps (pkt_loss_retransmit_st u i).
Proof. unfold pkt_loss_retransmit_st. keeps. Qed.

#[export] Hint Resolve keeps_retransmit : frames.

Lemma keeps_scan u late l : frames keeps (scan_active u late l).
Proof. induction l; cbn [scan_active]; keeps. Qed.

(** ** The wheel runs empty *)

Definition same_wheel (c c' : client) : Prop := wheel_ c' = wheel_ c /\ keeps c c'.

#[export] Instance same_wheel_preorder : PreOrder same_wheel.
Proof. split; [intros c; split; reflexivity|]. intros c1 c2 c3 [E1 K1] [E2 K2]. split; [congruence|transitivity c2; assumption]. Qed.

Ltac same_wheel := framed ltac:(split; [reflexivity|];
  first [apply keeps_same; solve [reflexivity | apply suffix_of_cons] | apply keeps_alter; intros; split; [|split]; reflexivity]).

Lemma remove_head e w : remove_one e (e :: w) = Some w.
Proof. cbn. rewrite decide_True by reflexivity. reflexivity. Qed.

Lemma ready_leaves e w c : wheel_ c = e :: w -> wpx (fun _ => True) (process_ready e) (fun _ c' => wheel_ c' = w /\ keeps c c') c.
Proof.
  intros Hw. destruct e as [i n]. cbn [process_ready]. unfold enqueue_pkt_tx_burst_st, enqueue_rfr_st.
  apply (wpx_frame same_wheel); [same_wheel|intros s c1 K1]. apply (wpx_frame same_wheel); [same_wheel|intros b c2 K2].
  apply (wpx_frame same_wheel); [same_wheel|intros ? c3 K3]. apply (wpx_frame same_wheel); [same_wheel|intros ? c4 K4].
  assert (same_wheel c c4) as [E K] by (transitivity c1; [exact K1|]; transitivity c2; [exact K2|]; transitivity c3; assumption).
  apply wpx_bind, wpx_gets. rewrite E, Hw, remove_head. apply wpx_modify. split; [reflexivity|].
  transitivity c4; [exact K|]. apply keeps_same; reflexivity.
Qed.

Lemma wheel_drained w : forall c, wheel_ c = w -> wpx (fun _ => True) (process_wheel_st w) (fun _ c' => wheel_ c' = [] /\ keeps c c') c.
Proof.
  induction w as [|e w IH]; intros c Hw; cbn [process_wheel_st]; [apply wpx_ret; split; [exact Hw|reflexivity]|]. apply wpx_bind.
  eapply wpx_mono; [apply (ready_leaves e w c Hw)|auto|]. intros ? c1 [Hw1 K1]. eapply wpx_mono; [apply (IH c1 Hw1)|auto|].
  intros ? c2 [Hw2 K2]. split; [exact Hw2|transitivity c1; assumption].
Qed.

Lemma wheel_none i s : wheel_ok [] i s -> wheel_count_ s = 0 /\ forall x, (x < 32)%nat -> in_wheel_ s !! x = Some false.
Proof.
  intros (ks & _ & K2 & _ & K4 & _ & K6). assert (ks = []) as -> by (destruct ks as [|k ks]; [reflexivity|]; assert ((i, k) ∈ []) as H by (apply K2; left); set_solver).
  split; [exact K4|]. intros x Hx. rewrite K6 by exact Hx. reflexivity.
Qed.

Lemma wpx_slot_at F i c s (Q : cslot -> client -> Prop) : slots c !! i = Some s -> Q s c -> wpx F (slot_at i) Q c.
Proof. intros Hs HQ. apply wpx_wp, (wp_slot_at i c s); assumption. Qed.

Lemma wpx_upd_slot F i f c s (Q : unit -> client -> Prop) : slots c !! i = Some s -> Q tt (set_slots (<[i := f s]> (slots c)) c) -> wpx F (upd_slot i f) Q c.
Proof. intros Hs HQ. apply wpx_wp, (wp_upd_slot i f c s); assumption. Qed.

Lemma wpx_deref F o b (Q : MsgBuffer -> client -> Prop) c : o = Some b -> Q b c -> wpx F (deref o) Q c.
Proof. intros -> H. exact H. Qed.

(** ** A packet is sent again *)

Section Live.
Context (cap cs ss : Z).

(** The packet of the client that request [n] waits for the answer to. *)
Definition next_packet (n : Z) (a : enq_req_args_t) (k : Z) : packet := if k <? rqs a then req_packet ss n a k else rfr_packet ss n a k.

(** [p] has been sent since [c]. *)
Definition resent (p : packet) (c c' : client) : Prop := exists l, sent c' = l ++ sent c /\ p ∈ l.

Lemma resent_keeps p c c1 c2 : resent p c c1 -> keeps c1 c2 -> resent p c c2.
Proof. intros (l & E & Hp) [_ _ [k E2]]. exists (k ++ l). rewrite E2, E. split; [apply app_assoc|]. apply elem_of_app. auto. Qed.

Lemma resent_first p c : resent p c (set_logs (p :: sent c) (started c) (conts c) c).
Proof. exists [p]. split; [reflexivity|left]. Qed.

(** The first packet of a loop that sends. *)
Lemma kick_req_sends n i c s b p : slots c !! i = Some s -> tx_msgbuf_ s = Some b -> packet_at b (num_tx_ s) = Done p ->
  wpx (fun _ => True) (kick_req_loop (S n) true i) (fun _ c' => resent p c c') c.
Proof.
  intros Hs Hb Hp. cbn [kick_req_loop]. apply wpx_bind, wpx_wp, (wp_slot_at i c s _ Hs). apply wpx_bind.
  eapply (wpx_mono (fun _ => True) _ _ (fun _ c' => resent p c c')); [|auto|].
  - apply wpx_wp, wp_bind, (wp_slot_at i c s _ Hs), wp_bind, (wp_deref _ b _ _ Hb), wp_bind, (wp_run _ p _ _ Hp), wp_modify, resent_first.
  - intros ? c1 H1. match goal with |- wpx _ ?m _ _ => assert (frames keeps m) as Hk by (pose proof keeps_kick_req_loop; keeps) end.
    eapply wpx_mono; [apply Hk|auto|]. intros ? c2 K. exact (resent_keeps p c c1 c2 H1 K).
Qed.

Lemma kick_rfr_sends n i c s p : slots c !! i = Some s ->
  p = {| p_hdr := format (req_type_ (get_pkthdr_0 (resp_msgbuf_ s))) 0 (remote_session_num_ c) kRFR (num_tx_ s) (req_num_ (get_pkthdr_0 (resp_msgbuf_ s))); p_data := [] |} ->
  wpx (fun _ => True) (kick_rfr_loop (S n) i) (fun _ c' => resent p c c') c.
Proof.
  intros Hs Hp. cbn [kick_rfr_loop]. apply wpx_bind, wpx_wp, (wp_slot_at i c s _ Hs). apply wpx_bind.
  eapply (wpx_mono (fun _ => True) _ _ (fun _ c' => resent p c c')); [|auto|].
  - apply wpx_wp, wp_bind, (wp_slot_at i c s _ Hs), wp_bind, wp_gets, wp_modify. rewrite <- Hp. apply resent_first.
  - intros ? c1 H1. match goal with |- wpx _ ?m _ _ => assert (frames keeps m) as Hk by (pose proof keeps_kick_rfr_loop; keeps) end.
    eapply wpx_mono; [apply Hk|auto|]. intros ? c2 K. exact (resent_keeps p c c1 c2 H1 K).
Qed.

Context (v : server) (Hndr : NoDup (nums (responses v))) (Hsz : forall n r, (n, r) ∈ responses v -> size r <= kMaxMsgSize).

Lemma kick_sends Q i c s a b : CInv cap cs ss Q [i] c v -> slots c !! i = Some s -> tx_msgbuf_ s = Some b -> (cur_req_num_ s, a) ∈ started c ->
  num_tx_ s = num_rx_ s -> wheel_count_ s = 0 -> wpx (fun _ => True) (kick true i) (fun _ c' => resent (next_packet (cur_req_num_ s) a (num_rx_ s)) c c') c.
Proof.
  intros HI Hs Hb Ha Heq Hw. pose proof (slot_window cap cs ss v Q [i] c i s HI Hs) as [Hwin _]. pose proof (rqs_bound cap cs ss v Q [i] c _ a HI Ha) as Hq.
  destruct (ci_slots _ _ _ _ _ _ _ HI i s Hs) as (s0 & Hs0 & Hok).
  destruct (cl_active ss _ _ _ _ _ _ a b Hok (ci_started_once _ _ _ _ _ _ _ HI) Hb Ha) as ((Hnp & Hpk) & _ & _ & Hphase).
  apply wpx_bind, wpx_wp, wp_bind, (wp_slot_at i c s _ Hs), wp_bind, (wp_deref _ b _ _ Hb), wp_ret. rewrite Hnp. unfold next_packet.
  destruct Hphase as [(Hlt & _)|(r & Hr & R1 & R2 & R3 & R4 & R5)].
  - destruct (Z.ltb_spec (num_tx_ s) (rqs a)); [|lia]. destruct (Z.ltb_spec (num_rx_ s) (rqs a)); [|lia].
    apply wpx_bind, wpx_gets, wpx_bind, wpx_assert. intros Hc%Z.ltb_lt.
    apply wpx_bind, (wpx_slot_at _ i c s _ Hs), wpx_bind, (wpx_deref _ _ b _ _ Hb). cbv zeta. rewrite Hnp, u64_small by (unfold is_u64; lia).
    assert (can_bypass_wheel s true = true) as -> by (unfold can_bypass_wheel; rewrite Hw; reflexivity).
    destruct (Z.to_nat (Z.min (credits_ c) (rqs a - num_tx_ s))) as [|n] eqn:En; [lia|].
    apply (kick_req_sends n i c s b); auto. rewrite Heq. apply Hpk. lia.
  - destruct (Z.ltb_spec (num_tx_ s) (rqs a)); [lia|]. destruct (Z.ltb_spec (num_rx_ s) (rqs a)); [lia|].
    assert (rss r < 2 ^ 13) as Hq' by (apply pkts_bound; pose proof (Hsz _ _ Hr); unfold size in *; lia).
    apply wpx_bind, wpx_gets, wpx_bind, (wpx_slot_at _ i c s _ Hs), wpx_bind, (wpx_deref _ _ b _ _ Hb). cbv zeta. apply wpx_bind, wpx_assert. intros Hc%Z.ltb_lt.
    apply wpx_bind, wpx_assert. intros _. apply wpx_bind, wpx_assert. intros _. unfold wire_pkts. rewrite Hnp, R3, u64_small by (unfold is_u64; lia).
    destruct (Z.to_nat (Z.min (credits_ c) (rqs a + rss r - 1 - num_tx_ s))) as [|n] eqn:En; [lia|].
    apply (kick_rfr_sends n i c s); [exact Hs|]. rewrite R4, R5, (proj2 (ci_ids _ _ _ _ _ _ _ HI)), Heq. reflexivity.
Qed.

(** The request in slot [i] is sent again from the packet on that has not been answered. *)
Lemma retransmit_sends i c s a b : good cap cs ss v c -> slots c !! i = Some s -> tx_msgbuf_ s = Some b -> (cur_req_num_ s, a) ∈ started c ->
  num_tx_ s <> num_rx_ s -> wheel_count_ s = 0 ->
  wpx (fun _ => True) (pkt_loss_retransmit_st true i) (fun _ c' => resent (next_packet (cur_req_num_ s) a (num_rx_ s)) c c') c.
Proof.
  intros [HI _ _] Hs Hb Ha Hne Hw. pose proof (slot_window cap cs ss v _ [] c i s HI Hs) as [Hwin Hcr]. pose proof (ci_credits _ _ _ _ _ _ _ HI) as [Hc0 _].
  apply wpx_bind, (wpx_slot_at _ i c s _ Hs), wpx_bind, wpx_assert. intros _. apply wpx_bind, wpx_gets, wpx_bind. unfold kSessionCredits in Hcr.
  rewrite u64_small by (unfold is_u64; lia). apply wpx_assert. intros _. destruct (Z.eqb_spec (num_tx_ s - num_rx_ s) 0); [lia|].
  apply wpx_bind, wpx_gets, wpx_bind, wpx_assert. intros _. rewrite Hw. cbn [Z.ltb Z.compare].
  apply wpx_bind, wpx_modify, wpx_bind, (wpx_upd_slot _ i _ _ s); [exact Hs|]. set (c1 := set_slots _ _). set (s1 := set_progress _ _ s) in *.
  destruct (CInv_rollback cap cs ss v Hndr Hsz c c1 i s b HI Hs Hb ltac:(lia) ltac:(lia) eq_refl) as [HI1 _].
  assert (slots c1 !! i = Some s1) as Hs1 by (apply list_lookup_insert_eq, lookup_lt_is_Some; eauto).
  exact (kick_sends (stallq_ c) i c1 s1 a b HI1 Hs1 Hb Ha eq_refl Hw).
Qed.

Lemma scan_sends i l : forall c s a b, good cap cs ss v c -> slots c !! i = Some s -> tx_msgbuf_ s = Some b -> (cur_req_num_ s, a) ∈ started c ->
  num_tx_ s <> num_rx_ s -> wheel_count_ s = 0 -> i ∈ l ->
  wpx (fun _ => True) (scan_active true (fun j => bool_decide (j = i)) l) (fun _ c' => resent (next_packet (cur_req_num_ s) a (num_rx_ s)) c c') c.
Proof.
  induction l as [|j l IH]; intros c s a b HG Hs Hb Ha Hne Hw Hin; [apply not_elem_of_nil in Hin; contradiction|]. cbn [scan_active].
  destruct (decide (j = i)) as [->|Hj].
  - apply wpx_bind, (wpx_slot_at _ i c s _ Hs). rewrite bool_decide_eq_true_2 by reflexivity. destruct (Z.eqb_spec (num_tx_ s) (num_rx_ s)); [contradiction|]. cbn [orb negb].
    apply wpx_bind. eapply wpx_mono; [apply (retransmit_sends i c s a b); assumption|auto|]. intros ? c1 H1.
    eapply wpx_mono; [apply keeps_scan|auto|]. intros ? c2 K. exact (resent_keeps _ c c1 c2 H1 K).
  - apply wpx_bind. unfold slot_at. apply wpx_bind, wpx_gets. destruct (slots c !! j) as [t|]; [|exact I]. apply wpx_ret.
    rewrite (bool_decide_eq_false_2 (j = i)) by exact Hj. cbn [negb]. rewrite orb_true_r. apply wpx_bind, wpx_ret.
    apply (IH c s a b); auto. apply elem_of_cons in Hin as [->|Hin]; [congruence|exact Hin].
Qed.

End Live.

(** ** An answer in order *)

(** Slot [i] has request [n] with [k] packets answered. *)
Definition at_packet (i : nat) (n : Z) (b : MsgBuffer) (k : Z) (q : list nat) (c : client) : Prop :=
  exists s, slots c !! i = Some s /\ cur_req_num_ s = n /\ tx_msgbuf_ s = Some b /\ num_rx_ s = k /\ stallq_ c = q.

Lemma at_packet_keeps i n b k q c c' : at_packet i n b k q c -> keeps c c' -> at_packet i n b k q c'.
Proof.
  intros (s & Hs & E1 & E2 & E3 & E4) [K1 K2 _]. destruct (K1 i s Hs) as (s' & Hs' & ? & ? & ?). exists s'. split; [exact Hs'|]. repeat split; congruence.
Qed.

Lemma wpx_keep {A B} i n b k q (m : M client A) (K : A -> M client B) (Q : B -> client -> Prop) c :
  at_packet i n b k q c -> frames keeps m -> (forall a c1, at_packet i n b k q c1 -> wpx (fun _ => True) (K a) Q c1) -> wpx (fun _ => True) (bind m K) Q c.
Proof. intros HP Hm HK. apply (wpx_frame keeps); [exact Hm|]. intros a c1 Hk. apply HK, (at_packet_keeps _ _ _ _ _ c); assumption. Qed.

Definition progressed (i : nat) (n : Z) (b : MsgBuffer) (k : Z) (q : list nat) (c : client) : Prop := n ∈ handled (conts c) \/ at_packet i n b k q c.

Lemma wpx_skip {A B} (m : M client A) (K : A -> M client B) (Q : B -> client -> Prop) c :
  (forall a c1, wpx (fun _ => True) (K a) Q c1) -> wpx (fun _ => True) (bind m K) Q c.
Proof. intros H. apply wpx_bind. unfold wpx at 1. destruct (m c) as [[a c1]|]; [apply H|exact I]. Qed.

Lemma finish_completes u i n b k q c : at_packet i n b k q c -> wpx (fun _ => True) (finish_resp u i) (fun _ c' => n ∈ handled (conts c')) c.
Proof.
  intros (s & Hs & E1 & _). unfold finish_resp. apply wpx_bind, (wpx_slot_at _ i c s _ Hs). repeat (apply wpx_skip; intros ? ?).
  apply wpx_modify. rewrite E1. left.
Qed.

Lemma in_order_now s h k : 0 <= k -> num_rx_ s = k -> k < num_tx_ s -> (forall x, (x < 32)%nat -> in_wheel_ s !! x = Some false) ->
  req_num_ h = cur_req_num_ s -> pkt_num_ h = k -> in_order_client s h = true.
Proof.
  intros Hk E1 Hlt Hw E2 E3. unfold in_order_client. rewrite E2, E3, E1, !Z.eqb_refl. cbn [negb]. destruct (Z.leb_spec (num_tx_ s) k); [lia|].
  rewrite Hw by (unfold kSessionCredits; pose proof (Z.mod_pos_bound k 32); lia). reflexivity.
Qed.

Lemma expl_cr_progress u i c s h b k : slots c !! i = Some s -> tx_msgbuf_ s = Some b -> num_rx_ s = k -> in_order_client s h = true ->
  wpx (fun _ => True) (process_expl_cr_st u i h) (fun _ c' => progressed i (cur_req_num_ s) b (k + 1) (stallq_ c) c') c.
Proof.
  intros Hs Hb Hk Hord. apply wpx_bind, (wpx_slot_at _ i c s _ Hs), wpx_bind, wpx_assert. intros _. rewrite Hord. cbn [negb].
  apply wpx_bind, wpx_bind, wpx_gets, wpx_bind, wpx_assert. intros _. apply wpx_modify, wpx_bind, (wpx_upd_slot _ i _ _ s); [exact Hs|].
  match goal with |- wpx _ ?m _ _ => assert (frames keeps m) as Hm by (unfold req_pkts_pending; keeps) end.
  eapply wpx_mono; [apply Hm|auto|]. intros ? c2 K. right. eapply at_packet_keeps; [|exact K].
  eexists. split; [apply list_lookup_insert_eq, lookup_lt_is_Some; eauto|]. cbn. repeat split; auto. congruence.
Qed.

Lemma resp_progress u i c s p b k : slots c !! i = Some s -> tx_msgbuf_ s = Some b -> num_rx_ s = k -> in_order_client s (p_hdr p) = true ->
  wpx (fun _ => True) (process_resp_one_st u i p) (fun _ c' => progressed i (cur_req_num_ s) b (k + 1) (stallq_ c) c') c.
Proof.
  intros Hs Hb Hk Hord. apply wpx_bind, (wpx_slot_at _ i c s _ Hs), wpx_bind, wpx_assert. intros _. rewrite Hord. cbn [negb].
  apply wpx_bind, wpx_bind, wpx_gets, wpx_bind, wpx_assert. intros _. apply wpx_modify, wpx_bind, (wpx_upd_slot _ i _ _ s); [exact Hs|].
  match goal with |- wpx _ _ _ ?c => set (c1 := c) end.
  assert (at_packet i (cur_req_num_ s) b (k + 1) (stallq_ c) c1) as HP.
  { eexists. split; [apply list_lookup_insert_eq, lookup_lt_is_Some; eauto|]. cbn. repeat split; auto. congruence. }
  clearbody c1. destruct (msg_size_ (p_hdr p) <=? kMaxDataPerPkt).
  - do 3 (eapply wpx_keep; [eassumption|keeps|clear HP; intros ? ? HP]). eapply wpx_mono; [eapply finish_completes; eassumption|auto|]. intros ? c' H. left. exact H.
  - do 6 (eapply wpx_keep; [eassumption|keeps|clear dependent c1; intros ? c1 HP]). destruct (negb _); [apply wpx_ret; right; exact HP|].
    eapply wpx_mono; [eapply finish_completes; eassumption|auto|]. intros ? c' H. left. exact H.
Qed.
Lemma client_rx_progress c n s p b k : slots c !! slot_of n = Some s -> cur_req_num_ s = n -> tx_msgbuf_ s = Some b -> num_rx_ s = k -> 0 <= k < num_tx_ s ->
  (forall x, (x < 32)%nat -> in_wheel_ s !! x = Some false) -> magic_ (p_hdr p) = kPktHdrMagic -> dest_session_num_ (p_hdr p) = local_session_num_ c ->
  pkt_type_ (p_hdr p) = kResp \/ pkt_type_ (p_hdr p) = kExplCR -> req_num_ (p_hdr p) = n -> pkt_num_ (p_hdr p) = k ->
  wpx (fun _ => True) (client_rx true p) (fun _ c' => progressed (slot_of n) n b (k + 1) (stallq_ c) c') c.
Proof.
  intros Hs Hn Hb Hk Hlt Hw Hm Hd Ht En Ek. unfold client_rx, check_magic. rewrite Hm. change (kPktHdrMagic =? kPktHdrMagic) with true. cbn [negb].
  apply wpx_bind, wpx_assert. intros _. apply wpx_bind, wpx_gets. rewrite Hd, Z.eqb_refl, En. cbn [negb]. fold (slot_of n).
  assert (in_order_client s (p_hdr p) = true) as Hord by (apply (in_order_now s _ k); auto; lia || congruence).
  generalize dependent (slot_of n). intros i Hs. rewrite <- Hn. destruct Ht as [-> | ->]; [apply resp_progress|apply expl_cr_progress]; assumption.
Qed.

(** ** After a loss *)

(** What has been sent after the first [k] packets. *)
Definition recent {A} (k : nat) (l : list A) : list A := take (length l - k) l.

Lemma recent_new {A} k (l l' : list A) x : (k <= length l)%nat -> x ∈ l' -> x ∈ recent k (l' ++ l).
Proof.
  intros Hk Hx. unfold recent. rewrite length_app. apply list_elem_of_lookup in Hx as [j Hj]. pose proof (lookup_lt_Some _ _ _ Hj).
  apply list_elem_of_lookup. exists j. rewrite lookup_take_lt by lia. rewrite lookup_app_l by lia. exact Hj.
Qed.

Lemma recent_suffix {A} k (l l' : list A) x : (k <= length l)%nat -> suffix_of l l' -> x ∈ recent k l -> x ∈ recent k l'.
Proof.
  intros Hk [m ->] Hx. unfold recent in *. rewrite length_app. replace (length m + length l - k)%nat with (length m + (length l - k))%nat by lia.
  rewrite take_app_add. apply elem_of_app. auto.
Qed.

Section Recovery.
Context (cap cs ss : Z) (k1 k2 : nat).

(** The first [k1] packets of the client and [k2] of the server are lost, and no more requests are
    made. *)
Definition after_loss (x : session) (e : event) : Prop :=
  match e with
  | Request _ _ => False
  | ClientRx _ p => p ∈ recent k2 (s_sent (sv x))
  | ServerRx _ p => p ∈ recent k1 (sent (cl x))
  | _ => True
  end.

Inductive recovers : session -> list event -> session -> Prop :=
  | rec_nil x : recovers x [] x
  | rec_cons x e y es z : enabled cap x e -> after_loss x e -> perform e x = Done y -> recovers y es z -> recovers x (e :: es) z.

Lemma recovers_app x es y es' z : recovers x es y -> recovers y es' z -> recovers x (es ++ es') z.
Proof. induction 1; intros Hz; [exact Hz|]. eapply rec_cons; eauto. Qed.

Record live (x : session) : Prop := {
  lv_sound : sound cap cs ss x;
  lv_bound : Z.of_nat (length (requested (cl x))) < 2 ^ 41;
  lv_k1 : (k1 <= length (sent (cl x)))%nat;
  lv_k2 : (k2 <= length (s_sent (sv x)))%nat
}.

Lemma started_bound c : Z.of_nat (length (requested c)) < 2 ^ 41 -> Z.of_nat (length (started c)) < 2 ^ 41.
Proof. pose proof (length_started c). lia. Qed.

Lemma suffix_length {A} (l l' : list A) : suffix_of l l' -> (length l <= length l')%nat.
Proof. intros [k ->]. rewrite length_app. lia. Qed.

Context (Hcap : cap <= kMaxMsgSize).

(** What a step of the recovery gives. *)
Record steps (x : session) (es : list event) (y : session) : Prop := {
  ss_run : recovers x es y;
  ss_live : live y;
  ss_requested : requested (cl y) = requested (cl x);
  ss_grows : grows x y
}.

Lemma grows_refl x : grows x x.
Proof. split; reflexivity. Qed.

Lemma grows_trans x y z : grows x y -> grows y z -> grows x z.
Proof. intros [A1 A2 A3] [B1 B2 B3]. split; [transitivity (started (cl y))|transitivity (conts (cl y))|transitivity (sent (cl y))]; assumption. Qed.

Lemma steps_nil x : live x -> steps x [] x.
Proof. intros H. split; [constructor|exact H|reflexivity|apply grows_refl]. Qed.

Lemma steps_app x es y es' z : steps x es y -> steps y es' z -> steps x (es ++ es') z.
Proof. intros [A1 A2 A3 A4] [B1 B2 B3 B4]. split; [eapply recovers_app; eassumption|exact B2|congruence|eapply grows_trans; eassumption]. Qed.

Lemma steps_one x e : live x -> enabled cap x e -> after_loss x e ->
  (forall y, perform e x = Done y -> suffix_of (s_sent (sv x)) (s_sent (sv y))) -> exists y, perform e x = Done y /\ steps x [e] y.
Proof.
  intros [HS HB H1 H2] He Ha Hsv. destruct (sound_step cap cs ss Hcap x e HS (started_bound _ HB) He) as (y & Hy & [Hsy Hreq _]).
  pose proof (perform_grows _ _ _ Hy) as Hg. exists y. split; [exact Hy|]. assert (requests [e] = []) as E by (destruct e; [contradiction|reflexivity..]).
  rewrite E, app_nil_r in Hreq. split; [eapply rec_cons; eauto using rec_nil| |exact Hreq|exact Hg].
  split; [exact Hsy|rewrite Hreq; exact HB| |].
  - pose proof (suffix_length _ _ (gr_sent _ _ Hg)). lia.
  - pose proof (suffix_length _ _ (Hsv y Hy)). lia.
Qed.

(** A step of the client, with what is known of it. *)
Lemma steps_client x e m (Q : client -> Prop) : live x -> enabled cap x e -> after_loss x e -> perform e = at_client m ->
  wpx (fun _ => True) m (fun _ => Q) (cl x) -> exists y, steps x [e] y /\ Q (cl y) /\ sv y = sv x.
Proof.
  intros HL He Ha Hp HQ. destruct (steps_one x e HL He Ha) as (y & Hy & Hst).
  - intros y Hy. rewrite Hp in Hy. unfold at_client in Hy. destruct (m (cl x)) as [[[] c]|]; [|discriminate]. injection Hy as <-. reflexivity.
  - exists y. split; [exact Hst|]. rewrite Hp in Hy. unfold at_client in Hy. unfold wpx in HQ. destruct (m (cl x)) as [[[] c]|]; [|discriminate].
    injection Hy as <-. auto.
Qed.

Lemma steps_server x e m (Q : server -> Prop) : live x -> enabled cap x e -> after_loss x e -> perform e = at_server m ->
  wp m (fun _ v' => Q v' /\ suffix_of (s_sent (sv x)) (s_sent v')) (sv x) -> exists y, steps x [e] y /\ Q (sv y) /\ cl y = cl x.
Proof.
  intros HL He Ha Hp HQ. destruct (steps_one x e HL He Ha) as (y & Hy & Hst).
  - intros y Hy. rewrite Hp in Hy. unfold at_server in Hy. unfold wp in HQ. destruct (m (sv x)) as [[[] v]|]; [|discriminate]. injection Hy as <-. apply HQ.
  - exists y. split; [exact Hst|]. rewrite Hp in Hy. unfold at_server in Hy. unfold wp in HQ. destruct (m (sv x)) as [[[] v]|]; [|discriminate].
    injection Hy as <-. destruct HQ. auto.
Qed.

(** *** The client sends again *)

Lemma wpx_and {A} (m : M client A) (Q R : A -> client -> Prop) c : wpx (fun _ => True) m Q c -> wpx (fun _ => True) m R c -> wpx (fun _ => True) m (fun a c' => Q a c' /\ R a c') c.
Proof. unfold wpx. destruct (m c) as [[a c']|]; auto. Qed.

Lemma live_ndr x : live x -> NoDup (nums (responses (sv x))).
Proof. intros [[_ HV] _ _ _]. apply HV. Qed.

Lemma live_sizes x : live x -> forall n r, (n, r) ∈ responses (sv x) -> size r <= kMaxMsgSize.
Proof. intros [[_ HV] _ _ _] n r Hr. destruct (si_resp _ _ _ _ _ HV n r Hr). lia. Qed.

Lemma drain x : live x -> exists y, steps x [Wheel (wheel_ (cl x))] y /\ (wheel_ (cl y) = [] /\ keeps (cl x) (cl y)) /\ sv y = sv x.
Proof.
  intros HL. apply (steps_client x _ (process_wheel_st (wheel_ (cl x))) (fun c => wheel_ c = [] /\ keeps (cl x) c)); auto.
  - cbn. split; [|auto]. destruct HL as [[[HI _ _] _] _ _ _]. apply (ci_nodup _ _ _ _ _ _ _ HI).
  - exact I.
  - apply wheel_drained. reflexivity.
Qed.

(** A slot that waits for an answer has sent something. *)
Lemma busy_slot x i s b : live x -> slots (cl x) !! i = Some s -> tx_msgbuf_ s = Some b -> i ∉ stallq_ (cl x) -> num_tx_ s <> num_rx_ s /\ i ∈ active_rpcs (cl x).
Proof.
  intros [[[HI _ _] _] _ _ _] Hs Hb Hq. destruct (ci_listed _ _ _ _ _ _ _ HI i s Hs) as [_ L2 _ L4]. split; [|apply L2; congruence].
  intros E. destruct (L4 ltac:(congruence) E) as [H|H]; [contradiction|apply not_elem_of_nil in H; contradiction].
Qed.

Lemma send_again x i n a b k q : live x -> at_packet i n b k q (cl x) -> i ∉ q -> (n, a) ∈ started (cl x) ->
  exists es y, steps x es y /\ sv y = sv x /\ at_packet i n b k q (cl y) /\ wheel_ (cl y) = [] /\ next_packet ss n a k ∈ recent k1 (sent (cl y)).
Proof.
  intros HL HP Hq Ha. destruct (drain x HL) as (x1 & H1 & [Hw1 K1] & E1). pose proof (at_packet_keeps _ _ _ _ _ _ _ HP K1) as HP1.
  destruct H1 as [R1 L1 Q1 G1]. pose proof HP1 as (s & Hs & Ec & Hb & Hk & Est). rewrite <- Est in Hq.
  destruct (busy_slot x1 i s b L1 Hs Hb Hq) as [Hne Hact]. pose proof L1 as [[HG _] _ Hk1 _]. pose proof HG as [HI _ _].
  assert (wheel_count_ s = 0) as Hcount by (apply (wheel_none i); rewrite <- Hw1; apply (ci_wheel _ _ _ _ _ _ _ HI i s Hs)).
  assert ((cur_req_num_ s, a) ∈ started (cl x1)) as Ha1 by (rewrite Ec; destruct (gr_started _ _ G1) as [m ->]; apply elem_of_app; auto).
  destruct (steps_client x1 (LossScan true (fun j => bool_decide (j = i))) (pkt_loss_scan_st true (fun j => bool_decide (j = i)))
    (fun c => keeps (cl x1) c /\ resent (next_packet ss n a k) (cl x1) c)) as (x2 & H2 & [K2 P2] & E2); auto; [exact I|exact I| |].
  { apply wpx_bind, wpx_gets, wpx_and; [apply keeps_scan|]. rewrite <- Ec, <- Hk.
    apply (scan_sends cap cs ss (sv x1) (live_ndr x1 L1) (live_sizes x1 L1) i (active_rpcs (cl x1)) (cl x1) s a b); auto. }
  destruct (drain x2 (ss_live _ _ _ H2)) as (x3 & H3 & [Hw3 K3] & E3). exists ([Wheel (wheel_ (cl x))] ++ [LossScan true (fun j => bool_decide (j = i))] ++ [Wheel (wheel_ (cl x2))]), x3.
  split; [|split; [congruence|split; [|split; [exact Hw3|]]]].
  - eapply steps_app; [split; eassumption|]. eapply steps_app; eassumption.
  - eapply at_packet_keeps; [|exact K3]. eapply at_packet_keeps; [exact HP1|exact K2].
  - destruct (resent_keeps _ _ _ _ P2 K3) as (l & -> & Hin). apply recent_new; [exact Hk1|exact Hin].
Qed.

(** *** The server answers *)

Context (Hcs : 0 <= cs < 2 ^ 16) (Hss : 0 <= ss < 2 ^ 16) (reply : MsgBuffer) (Hreply : response_ok cap reply).

(** [p] answers packet [k] of request [n]. *)
Record answer (n k : Z) (p : packet) : Prop := {
  an_magic : magic_ (p_hdr p) = kPktHdrMagic;
  an_dest : dest_session_num_ (p_hdr p) = cs;
  an_type : pkt_type_ (p_hdr p) = kResp \/ pkt_type_ (p_hdr p) = kExplCR;
  an_req : req_num_ (p_hdr p) = n;
  an_pkt : pkt_num_ (p_hdr p) = k
}.

Lemma answer_cr n a k : 0 <= n < 2 ^ 44 -> 0 <= k < 2 ^ 14 -> answer n k (cr_packet cs n a k).
Proof. intros Hn Hk. split; cbn; auto; apply bits_small; assumption. Qed.

Lemma answer_resp n a r k : 0 <= n < 2 ^ 44 -> 0 <= k < 2 ^ 14 -> answer n k (resp_packet cs n a r (k - (rqs a - 1))).
Proof. intros Hn Hk. split; cbn; auto; try (apply bits_small; assumption). replace (rqs a - 1 + (k - (rqs a - 1))) with k by lia. apply bits_small, Hk. Qed.

(** What the invariant says of a request that waits for the answer to packet [k]. *)
Lemma waiting_packet x n a b k q : live x -> at_packet (slot_of n) n b k q (cl x) -> (n, a) ∈ started (cl x) ->
  0 <= n < 2 ^ 44 /\ 0 <= k < 2 ^ 14 /\ (exists t, s_slots (sv x) !! slot_of n = Some t /\ due t n k) /\
  (k < rqs a \/ exists r, (n, r) ∈ responses (sv x) /\ rqs a <= k < rqs a + rss r - 1).
Proof.
  intros HL (s & Hs & Ec & Hb & Hk & _) Ha. pose proof (live_sizes x HL) as Hsz. destruct HL as [[HG _] HB _ _]. pose proof HG as [HI _ _].
  destruct (good_args cap cs ss _ _ n a HG (started_bound _ HB) Ha) as [_ Hn]. pose proof (slot_window cap cs ss _ _ [] _ _ s HI Hs) as [Hwin _].
  pose proof (rqs_bound cap cs ss _ _ [] _ n a HI Ha) as Hq. destruct (ci_slots _ _ _ _ _ _ _ HI _ s Hs) as (t & Ht & Hok). pose proof Ha as Ha'. rewrite <- Ec in Ha'.
  destruct (cl_active ss _ _ _ _ _ _ a b Hok (ci_started_once _ _ _ _ _ _ _ HI) Hb Ha') as (_ & _ & _ & Hphase). rewrite Ec in Hphase.
  assert (k < rqs a \/ exists r, (n, r) ∈ responses (sv x) /\ rqs a <= k < rqs a + rss r - 1) as Hph.
  { destruct Hphase as [(? & _)|(r & Hr & ? & _)]; [left; lia|right; exists r; split; [exact Hr|lia]]. }
  split; [lia|]. split; [|split; [|exact Hph]].
  - destruct Hph as [?|(r & Hr & ?)]; [lia|]. assert (rss r < 2 ^ 13) by (apply pkts_bound; pose proof (Hsz n r Hr); unfold size in *; lia). lia.
  - exists t. split; [exact Ht|]. unfold due. destruct Hok as [|? ? ? ? Htx|? ? ? ? Htx ? ? ? ? ? ? Hl|? ? ? ? ? ? Htx ? ? ? ? ? Hcur Hrx]; try congruence.
    + destruct Hl as [[? ?]|(? & ? & _)]; [left|right]; lia.
    + left. lia.
Qed.

Definition big : option bytes := Some (repeat 0 (Z.to_nat kMaxMsgSize)).

Lemma big_ok n : n <= kMaxMsgSize -> mem_ok big n.
Proof. intros Hn. exists (repeat 0 (Z.to_nat kMaxMsgSize)). split; [reflexivity|]. unfold size. rewrite repeat_length. lia. Qed.

(** The packet arrives. *)
Lemma packet_arrives x n a b k q : live x -> at_packet (slot_of n) n b k q (cl x) -> (n, a) ∈ started (cl x) -> next_packet ss n a k ∈ recent k1 (sent (cl x)) ->
  exists y, steps x [ServerRx big (next_packet ss n a k)] y /\ answers cs n a k (sv x) (sv y) /\ cl y = cl x.
Proof.
  intros HL HP Ha Hin. destruct (waiting_packet x n a b k q HL HP Ha) as (Hn & Hk & _ & Hph). pose proof HL as [[HG HV] HB _ _]. pose proof HG as [HI _ _].
  pose proof (ci_started_once _ _ _ _ _ _ _ HI) as Hst. pose proof (fun n a => good_args cap cs ss _ _ n a HG (started_bound _ HB)) as Hargs.
  assert (next_packet ss n a k ∈ sent (cl x)) as Hsent by (unfold recent in Hin; apply list_elem_of_lookup in Hin as [j Hj];
    apply lookup_take_Some in Hj as [Hj _]; apply list_elem_of_lookup; eauto).
  assert (size (request a) <= kMaxMsgSize) as Hmax by (destruct (Hargs n a Ha) as [[B _ _ _ _] _]; pose proof (size_contents _ B); destruct B; unfold request; lia).
  destruct (steps_server x (ServerRx big (next_packet ss n a k)) (server_rx big (next_packet ss n a k)) (answers cs n a k (sv x))) as (y & Hy & HQ & Hc); auto; [| |eauto].
  - split; [apply big_ok|exact Hsent]. unfold next_packet. destruct (Z.ltb_spec k (rqs a)); [|vm_compute; discriminate].
    destruct (req_hdr cap ss _ Hargs n a k Ha ltac:(lia)) as (_ & -> & _). exact Hmax.
  - unfold next_packet. destruct (Z.ltb_spec k (rqs a)) as [Hlt|Hge].
    + eapply wp_mono; [apply (wp_server_req cap cs ss _ Hst Hargs big (sv x) n a k HV (good_ready cap cs ss _ _ HG HV)); auto using big_ok; lia|].
      intros ? v' (_ & _ & H). specialize (H Hss). split; [exact H|]. destruct H as (l & -> & _). exists l. reflexivity.
    + destruct Hph as [?|(r & Hr & Hkr)]; [lia|].
      eapply wp_mono; [apply (wp_server_rfr cap cs ss _ Hst Hargs Hcap big (sv x) n a r k HV Ha Hr Hkr)|].
      intros ? v' (_ & _ & H). specialize (H Hss). split; [exact H|]. destruct H as (l & -> & _). exists l. reflexivity.
Qed.

Lemma get_answer x n a b k q : live x -> at_packet (slot_of n) n b k q (cl x) -> (n, a) ∈ started (cl x) -> next_packet ss n a k ∈ recent k1 (sent (cl x)) ->
  exists es y p, steps x es y /\ cl y = cl x /\ answer n k p /\ p ∈ recent k2 (s_sent (sv y)).
Proof.
  intros HL HP Ha Hin. destruct (waiting_packet x n a b k q HL HP Ha) as (Hn & Hk & (t & Ht & Hdue) & _).
  destruct (packet_arrives x n a b k q HL HP Ha Hin) as (y & Hy & (l & El & Hrep) & Hc). specialize (Hrep t Ht Hdue). pose proof (lv_k2 x HL) as Hk2.
  assert (forall p, p ∈ l -> answer n k p -> exists es y p, steps x es y /\ cl y = cl x /\ answer n k p /\ p ∈ recent k2 (s_sent (sv y))) as Hdone.
  { intros p Hp Han. exists [ServerRx big (next_packet ss n a k)], y, p. split; [exact Hy|]. split; [exact Hc|]. split; [exact Han|]. rewrite El. apply recent_new; assumption. }
  unfold replied in Hrep. destruct (Z.ltb_spec k (rqs a - 1)) as [Hlt|Hge]; [apply (Hdone _ Hrep), answer_cr; assumption|].
  destruct Hrep as [Hwait|(r & _ & Hr)]; [|apply (Hdone _ Hr), answer_resp; assumption].
  pose proof (ss_live _ _ _ Hy) as HLy. rewrite <- Hc in HP, Ha. destruct (waiting_packet y n a b k q HLy HP Ha) as (_ & _ & _ & Hph).
  destruct Hwait as (s & Hs & Ec & Hh & Hnr). assert (k = rqs a - 1) as Ek by (destruct Hph as [?|(r & Hr & _)]; [lia|destruct Hnr; exact (nums_elem _ _ _ Hr)]).
  pose proof HLy as [[HG HV] HB _ Hk2y]. pose proof HG as [HI _ _]. pose proof (fun n a => good_args cap cs ss _ _ n a HG (started_bound _ HB)) as Hargs.
  assert (pending (sv y) (slot_of n)) as Hpend by (exists s; rewrite Ec; auto).
  destruct (steps_server y (Respond (slot_of n) reply) (enqueue_response (slot_of n) reply)
    (fun v' => s_sent v' = resp_packet cs n a (contents reply) 0 :: s_sent (sv y))) as (z & Hz & Esz & Hcz); auto; [split; assumption|exact I| |].
  { eapply wp_mono; [apply (wp_enqueue_response cap cs ss _ (ci_started_once _ _ _ _ _ _ _ HI) Hargs (sv y) (slot_of n) reply HV Hpend Hreply)|].
    intros ? v' [_ H]. rewrite <- Ec in Ha. destruct (H s a Hs Ha) as [E _]. rewrite Ec in E. split; [exact E|]. rewrite E. apply suffix_of_cons. }
  exists ([ServerRx big (next_packet ss n a k)] ++ [Respond (slot_of n) reply]), z, (resp_packet cs n a (contents reply) (k - (rqs a - 1))).
  split; [eapply steps_app; eassumption|]. split; [congruence|]. split; [apply answer_resp; assumption|].
  rewrite Esz, Ek, Z.sub_diag. apply (recent_new k2 (s_sent (sv y)) [_]); [exact Hk2y|left].
Qed.

(** *** One packet further *)

Lemma grows_started x y n a : grows x y -> (n, a) ∈ started (cl x) -> (n, a) ∈ started (cl y).
Proof. intros [[m E] _ _] H. rewrite E. apply elem_of_app. auto. Qed.

Lemma advance x n a b k q : live x -> at_packet (slot_of n) n b k q (cl x) -> slot_of n ∉ q -> (n, a) ∈ started (cl x) ->
  exists es y, steps x es y /\ progressed (slot_of n) n b (k + 1) q (cl y).
Proof.
  intros HL HP Hq Ha. destruct (send_again x _ n a b k q HL HP Hq Ha) as (es1 & x1 & H1 & Esv & HP1 & Hw & Hin).
  pose proof (grows_started _ _ _ _ (ss_grows _ _ _ H1) Ha) as Ha1. pose proof (ss_live _ _ _ H1) as HL1.
  destruct (get_answer x1 n a b k q HL1 HP1 Ha1 Hin) as (es2 & x2 & p & H2 & Hc & [N1 N2 N3 N4 N5] & Hp). pose proof (ss_live _ _ _ H2) as HL2.
  rewrite <- Hc in HP1, Ha1, Hw. pose proof HP1 as (s & Hs & Ec & Hb & Hk & Est). rewrite <- Est in Hq.
  destruct (busy_slot x2 _ s b HL2 Hs Hb Hq) as [Hne _]. pose proof HL2 as [[[HI _ _] _] _ _ _].
  pose proof (slot_window cap cs ss _ _ [] _ _ s HI Hs) as [Hwin _].
  destruct (steps_client x2 (ClientRx true p) (client_rx true p) (progressed (slot_of n) n b (k + 1) q)) as (x3 & H3 & HQ & _); auto.
  - cbn. unfold recent in Hp. apply list_elem_of_lookup in Hp as [j Hj]. apply lookup_take_Some in Hj as [Hj _]. apply list_elem_of_lookup; eauto.
  - rewrite <- Est. apply (client_rx_progress (cl x2) n s p b k); auto; [lia| |rewrite N2; symmetry; apply (ci_ids _ _ _ _ _ _ _ HI)].
    apply (wheel_none (slot_of n)). rewrite <- Hw. apply (ci_wheel _ _ _ _ _ _ _ HI _ s Hs).
  - exists (es1 ++ es2 ++ [ClientRx true p]), x3. split; [|exact HQ]. eapply steps_app; [exact H1|]. eapply steps_app; eassumption.
Qed.

(** *** One request *)

Lemma complete m : forall x n a b k q, live x -> at_packet (slot_of n) n b k q (cl x) -> slot_of n ∉ q -> (n, a) ∈ started (cl x) ->
  (Z.to_nat (2 ^ 14 - k) <= m)%nat -> exists es y, steps x es y /\ n ∈ handled (conts (cl y)).
Proof.
  induction m as [|m IH]; intros x n a b k q HL HP Hq Ha Hm; destruct (waiting_packet x n a b k q HL HP Ha) as (_ & Hk & _); [lia|].
  destruct (advance x n a b k q HL HP Hq Ha) as (es & y & Hy & [Hdone|HPy]); [eauto|].
  destruct (IH y n a b (k + 1) q (ss_live _ _ _ Hy) HPy Hq (grows_started _ _ _ _ (ss_grows _ _ _ Hy) Ha) ltac:(lia)) as (es' & z & Hz & Hd).
  exists (es ++ es'), z. split; [eapply steps_app; eassumption|exact Hd].
Qed.

(** *** The stall queue *)

Lemma stalled_sub u q : forall c, wpx (fun _ => True) (process_stalled u q) (fun r c' => keeps c c' /\ forall j, j ∈ r -> j ∈ q) c.
Proof.
  induction q as [|i q IH]; intros c; cbn [process_stalled]; [apply wpx_ret; split; [reflexivity|auto]|]. apply wpx_bind, wpx_gets.
  destruct (0 <? credits_ c).
  - apply (wpx_frame keeps); [keeps|intros ? c1 K1]. eapply wpx_mono; [apply IH|auto|]. intros r c2 [K2 Hr].
    split; [transitivity c1; assumption|]. intros j Hj. right. apply Hr, Hj.
  - apply wpx_bind. eapply wpx_mono; [apply IH|auto|]. intros r c2 [K2 Hr]. apply wpx_ret. split; [exact K2|].
    intros j [->|Hj]%elem_of_cons; [left|right; apply Hr, Hj].
Qed.

Lemma stall_queue_moves c j q s b : stallq_ c = j :: q -> 0 < credits_ c -> slots c !! j = Some s -> tx_msgbuf_ s = Some b ->
  wpx (fun _ => True) (process_credit_stall_queue_st true) (fun _ c' => (exists s', slots c' !! j = Some s' /\ tx_msgbuf_ s' = Some b) /\ forall i, i ∈ stallq_ c' -> i ∈ q) c.
Proof.
  intros Hq Hc Hs Hb. apply wpx_bind, wpx_gets. rewrite Hq. cbn [process_stalled]. apply wpx_bind, wpx_bind, wpx_gets.
  destruct (Z.ltb_spec 0 (credits_ c)); [|lia]. apply (wpx_frame keeps); [keeps|intros ? c1 K1].
  eapply wpx_mono; [apply stalled_sub|auto|]. intros r c2 [K2 Hr]. apply wpx_modify. split; [|exact Hr].
  destruct (kp_slots _ _ K1 j s Hs) as (s1 & Hs1 & _ & E1 & _). destruct (kp_slots _ _ K2 j s1 Hs1) as (s2 & Hs2 & _ & E2 & _). exists s2. split; [exact Hs2|congruence].
Qed.

Lemma outstanding_none l : (forall s, s ∈ l -> num_tx_ s = num_rx_ s) -> outstanding l = 0.
Proof.
  induction l as [|s l IH]; intros H; [reflexivity|]. cbn. rewrite (H s ltac:(left)), IH; [lia|]. intros t Ht. apply H. right. exact Ht.
Qed.

(** A slot with a request that is not stalled. *)
Definition busy (x : session) (j : nat) : Prop := exists s b, slots (cl x) !! j = Some s /\ tx_msgbuf_ s = Some b /\ j ∉ stallq_ (cl x).

#[local] Instance busy_dec x j : Decision (busy x j).
Proof.
  unfold busy. destruct (slots (cl x) !! j) as [s|] eqn:Hs; [|right; intros (s & b & H & _); discriminate].
  destruct (tx_msgbuf_ s) as [b|] eqn:Hb; [|right; intros (s' & b & [= <-] & H & _); congruence].
  destruct (decide (j ∈ stallq_ (cl x))) as [Hq|Hq]; [right; intros (s' & b' & _ & _ & H); contradiction|left; eauto 6].
Defined.

(** If every slot with a request is stalled, all credits are there. *)
Lemma all_stalled x : live x -> (forall j, ~ busy x j) -> credits_ (cl x) = kSessionCredits.
Proof.
  intros HL Hno. destruct HL as [[[HI _ _] _] _ _ _]. destruct (ci_credits _ _ _ _ _ _ _ HI) as [_ <-]. rewrite outstanding_none; [lia|].
  intros s [j Hs]%list_elem_of_lookup. destruct (ci_slots _ _ _ _ _ _ _ HI j s Hs) as (t & _ & Hok). destruct (tx_msgbuf_ s) as [b|] eqn:Hb.
  - assert (j ∈ stallq_ (cl x)) as Hq by (destruct (decide (j ∈ stallq_ (cl x))); [assumption|destruct (Hno j); exists s, b; auto]).
    destruct (li_stalled _ _ _ _ _ (ci_listed _ _ _ _ _ _ _ HI j s Hs) Hq) as (_ & ? & ?). lia.
  - destruct Hok; congruence.
Qed.

Lemma some_busy x i s b : live x -> slots (cl x) !! i = Some s -> tx_msgbuf_ s = Some b -> exists es y j, steps x es y /\ busy y j.
Proof.
  intros HL Hs Hb. destruct (decide (Exists (busy x) (seq 0 8))) as [H|H].
  { apply Exists_exists in H as (j & _ & Hj). exists [], x, j. split; [apply steps_nil, HL|exact Hj]. }
  pose proof HL as [[[HI _ _] _] _ _ _].
  assert (forall j, ~ busy x j) as Hno.
  { intros j Hj. apply H, Exists_exists. exists j. split; [|exact Hj]. destruct Hj as (t & ? & Ht & _). apply lookup_lt_Some in Ht.
    rewrite (ci_len _ _ _ _ _ _ _ HI) in Ht. apply elem_of_seq. lia. }
  pose proof (all_stalled x HL Hno) as Hc. assert (i ∈ stallq_ (cl x)) as Hi by (destruct (decide (i ∈ stallq_ (cl x))); [assumption|destruct (Hno i); exists s, b; auto]).
  destruct (stallq_ (cl x)) as [|j q] eqn:Eq; [apply not_elem_of_nil in Hi; contradiction|].
  pose proof (ci_nodup _ _ _ _ _ _ _ HI) as (_ & [Hjq _]%NoDup_cons & _). assert (j < 8)%nat as Hj8 by (apply (ci_range _ _ _ _ _ _ _ HI); right; left; left).
  destruct (lookup_lt_is_Some_2 (slots (cl x)) j) as [t Ht]; [rewrite (ci_len _ _ _ _ _ _ _ HI); exact Hj8|].
  destruct (li_stalled _ _ _ _ _ (ci_listed _ _ _ _ _ _ _ HI j t Ht) ltac:(left)) as (Htx & _). destruct (tx_msgbuf_ t) as [b'|] eqn:Hb'; [|congruence].
  destruct (steps_client x (StallQueue true) (process_credit_stall_queue_st true)
    (fun c' => (exists s', slots c' !! j = Some s' /\ tx_msgbuf_ s' = Some b') /\ forall i, i ∈ stallq_ c' -> i ∈ q)) as (y & Hy & ((s' & Hs' & Hsb) & Hsub) & _);
    auto; try exact I; [apply (stall_queue_moves _ j q t b'); auto; rewrite Hc; reflexivity|].
  exists [StallQueue true], y, j. split; [exact Hy|]. exists s', b'. split; [exact Hs'|]. split; [exact Hsb|]. intros Hin. apply Hjq, Hsub, Hin.
Qed.

(** *** All requests *)

Definition done (x : session) : Prop := enq_req_backlog_ (cl x) = [] /\ forall n a, (n, a) ∈ started (cl x) -> n ∈ handled (conts (cl x)).

Lemma not_done x : live x -> done x \/ exists i s b, slots (cl x) !! i = Some s /\ tx_msgbuf_ s = Some b.
Proof.
  intros HL. pose proof HL as [[[HI HB HT] _] _ _ _]. destruct (enq_req_backlog_ (cl x)) as [|r l] eqn:Hbl.
  - destruct (decide (Forall (fun e => fst e ∈ handled (conts (cl x))) (started (cl x)))) as [H|H].
    + left. split; [exact Hbl|]. intros n a Ha. rewrite Forall_forall in H. apply (H (n, a) Ha).
    + right. apply not_Forall_Exists in H; [|intros ?; apply _]. apply Exists_exists in H as ([n a] & Hin & Hn). cbn in Hn.
      destruct (HT n a Hin) as [?|(s & Hs & _ & Htx)]; [contradiction|]. exists (slot_of n), s. destruct (tx_msgbuf_ s) as [b|]; [eauto|congruence].
  - right. specialize (HB ltac:(discriminate)). destruct (lookup_lt_is_Some_2 (slots (cl x)) 0) as [s Hs]; [rewrite (ci_len _ _ _ _ _ _ _ HI); lia|].
    exists 0%nat, s. destruct (tx_msgbuf_ s) as [b|] eqn:Hb; [eauto|]. destruct (ci_listed _ _ _ _ _ _ _ HI _ s Hs) as [L1 _ _ _].
    apply L1 in Hb. rewrite HB in Hb. apply not_elem_of_nil in Hb. contradiction.
Qed.

Lemma busy_at x j : live x -> busy x j -> exists n a b k, at_packet (slot_of n) n b k (stallq_ (cl x)) (cl x) /\ (slot_of n ∉ stallq_ (cl x)) /\
  (n, a) ∈ started (cl x) /\ n ∉ handled (conts (cl x)).
Proof.
  intros HL (s & b & Hs & Hb & Hq). destruct HL as [[[HI _ _] _] _ _ _]. destruct (ci_cur _ _ _ _ _ _ _ HI j s Hs) as (Hslot & _).
  destruct (ci_slots _ _ _ _ _ _ _ HI j s Hs) as (t & _ & Hok). assert (exists a, (cur_req_num_ s, a) ∈ started (cl x) /\ cur_req_num_ s ∉ handled (conts (cl x))) as (a & Ha & Hn)
    by (destruct Hok; try congruence; eauto).
  exists (cur_req_num_ s), a, b, (num_rx_ s). rewrite Hslot. split; [exists s; auto|]. auto.
Qed.

Lemma conts_bound x : live x -> (length (conts (cl x)) <= length (requested (cl x)))%nat.
Proof.
  intros [[[HI _ _] _] _ _ _]. pose proof (length_started (cl x)). assert (length (handled (conts (cl x))) <= length (nums (started (cl x))))%nat as H'.
  { apply submseteq_length, NoDup_submseteq; [apply HI|]. intros n (t & d & Hin)%handled_in. destruct (ci_conts _ _ _ _ _ _ _ HI n t d Hin) as (a & Ha & _).
    exact (nums_elem _ _ _ Ha). }
  unfold handled, nums in H'. rewrite !length_map in H'. lia.
Qed.

Lemma recover_all m : forall x, live x -> (length (requested (cl x)) - length (conts (cl x)) <= m)%nat -> exists es y, steps x es y /\ done y.
Proof.
  induction m as [|m IH]; intros x HL Hm; (destruct (not_done x HL) as [Hd|(i & s & b & Hs & Hb)]; [exists [], x; split; [apply steps_nil, HL|exact Hd]|]);
    destruct (some_busy x i s b HL Hs Hb) as (es1 & y & j & Hy & Hbusy); pose proof (ss_live _ _ _ Hy) as HLy;
    destruct (busy_at y j HLy Hbusy) as (n & a & b' & k & HP & Hq & Ha & Hn);
    destruct (complete _ y n a b' k _ HLy HP Hq Ha (le_n _)) as (es2 & z & Hz & Hdone); pose proof (ss_live _ _ _ Hz) as HLz;
    pose proof (conts_bound z HLz) as Hb1; pose proof (conts_bound y HLy) as Hb2; pose proof (ss_requested _ _ _ Hy) as R1; pose proof (ss_requested _ _ _ Hz) as R2;
    pose proof (suffix_length _ _ (gr_conts _ _ (ss_grows _ _ _ Hy))) as Hc1;
    (assert (length (conts (cl y)) < length (conts (cl z)))%nat as Hlt by
      (destruct (gr_conts _ _ (ss_grows _ _ _ Hz)) as [[|e l] E]; rewrite E in *; [contradiction|rewrite length_app; cbn; lia])); rewrite R2, R1 in Hb1.
  - lia.
  - destruct (IH z HLz) as (es3 & w & Hw & Hd); [rewrite R2, R1; lia|]. exists (es1 ++ es2 ++ es3), w. split; [|exact Hd].
    eapply steps_app; [exact Hy|]. eapply steps_app; eassumption.
Qed.

End Recovery.

(** C4: eRPC recovers from packet loss.  Take any state that a session reaches with fewer than 2^41
    requests and let every packet that has been sent so far be lost.  Then the packets that are sent
    from there on are enough: there is a continuation in which the two ends receive only such
    packets, no further request is made and the handlers that have been called respond, after which
    every request that was ever made has been completed, also those that were waiting for a slot.  No
    reachable state is a deadlock of slots, credits, stall queue and wheel. *)
Theorem rpc_recovers cap cs ss es x reply :
  cap <= kMaxMsgSize -> 0 <= cs < 2 ^ 16 -> 0 <= ss < 2 ^ 16 -> response_ok cap reply ->
  runs cap (new_session cs ss) es x -> Z.of_nat (length (requests es)) < 2 ^ 41 ->
  exists es' y, recovers cap (length (sent (cl x))) (length (s_sent (sv x))) x es' y /\
    requested (cl y) = requests es /\ enq_req_backlog_ (cl y) = [] /\ forall n a, (n, a) ∈ started (cl y) -> n ∈ handled (conts (cl y)).
Proof.
  intros Hcap Hcs Hss Hreply Hrun Hlen. destruct (reached_sound cap cs ss Hcap _ _ Hrun Hlen) as (HS & Hreq & _).
  assert (live cap cs ss (length (sent (cl x))) (length (s_sent (sv x))) x) as HL by (split; auto; rewrite Hreq; exact Hlen).
  destruct (recover_all cap cs ss _ _ Hcap Hcs Hss reply Hreply _ x HL (le_n _)) as (es' & y & [Hr _ Hry _] & Hd1 & Hd2).
  exists es', y. split; [exact Hr|]. split; [congruence|]. auto.
Qed.
(** Ten requests, two more than there are slots, and all their packets lost. *)
Definition ten_requests : list event := map (fun i => Request true (some_request 3830 (Z.of_nat i))) (seq 0 10).

Definition lost_session : session := default (new_session 5 9) (performs 8 (new_session 5 9) ten_requests).

Lemma lost_runs : runs 8 (new_session 5 9) ten_requests lost_session.
Proof.
  apply (runs_performs 8 ten_requests (new_session 5 9) (new_session 5 9) []); [constructor|].
  unfold lost_session. destruct (performs _ _ _) eqn:E; [reflexivity|]. exfalso. revert E. vm_compute. discriminate.
Qed.

Lemma rpc_recovers_witness : length (enq_req_backlog_ (cl lost_session)) = 2%nat /\
  exists es' y, recovers 8 (length (sent (cl lost_session))) (length (s_sent (sv lost_session))) lost_session es' y /\
    requested (cl y) = requests ten_requests /\ enq_req_backlog_ (cl y) = [] /\ forall n a, (n, a) ∈ started (cl y) -> n ∈ handled (conts (cl y)).
Proof.
  split; [vm_compute; reflexivity|]. apply (rpc_recovers 8 5 9 ten_requests lost_session (some_buffer 2 98)).
  - vm_compute. discriminate.
  - lia.
  - lia.
  - split; [apply msgbuf_okb_ok; vm_compute; reflexivity|reflexivity|vm_compute; discriminate].
  - exact lost_runs.
  - vm_compute. reflexivity.
Defined.

End ErpcLive.
