(* ===== verification/ErpcSm.v ===== *)
(** * Session management: the handshake of eRPC

    How a session between two [Rpc] objects of src/thirdparty/eRPC/src comes to be and is taken
    down: create_session (rpc_sm_api.cc), the handlers of the connect and disconnect packets
    (rpc_connect_handlers.cc, rpc_disconnect_handlers.cc), the queue they are taken from and the
    packets sent (rpc_sm_helpers.cc), the retransmission (rpc_pkt_loss.cc) and the thread of a
    process that receives the packets (nexus_sm_thread.cc).

    A packet that is sent goes into a log, [udp_sent]; a call of the session management handler goes
    into [sm_events].  Arguments are the random token of a session, how many of the preallocated
    buffers can be had, what the transport makes of routing information and which requests have timed
    out.  The slots of a session belong to the data path ([ErpcSlot]); here [slots_settled] is what
    the disconnect handler asserts of them. *)

From Stdlib Require Import ZArith Lia.
From stdpp Require Import base numbers list gmap sorting.
From S2P Require Import Prelude Sessions.
Open Scope Z_scope.

Module ErpcSm.
Local Open Scope m_scope.

(** ** Constants and types *)

Definition kSessionCredits : Z := 32.
Definition kSessionReqWindow : nat := 8.
Definition kInvalidSessionNum : Z := 65535.
Definition kMaxHostnameLen : nat := 128.
Definition kNumRxRingEntries : Z := 4096.
Definition kMaxRpcId : Z := 254.
Definition EINVAL : Z := 22.
Definition ENOMEM : Z := 12.

Module SessionState.
Inductive t := kConnectInProgress | kConnected | kDisconnectInProgress | kResetInProgress.
#[global] Instance t_eq_dec : EqDecision t.
Proof. solve_decision. Defined.
End SessionState.

Inductive SmPktType := kUnblock | kPingReq | kPingResp | kConnectReq | kConnectResp | kDisconnectReq | kDisconnectResp.

Inductive SmErrType :=
  kNoError | kSrvDisconnected | kRingExhausted | kOutOfMemory | kRoutingResolutionFailure | kInvalidRemoteRpcId | kInvalidTransport.

Inductive Role := kServer | kClient.

#[export] Instance SmPktType_eq_dec : EqDecision SmPktType.
Proof. solve_decision. Defined.
#[export] Instance SmErrType_eq_dec : EqDecision SmErrType.
Proof. solve_decision. Defined.
#[export] Instance Role_eq_dec : EqDecision Role.
Proof. solve_decision. Defined.

(** [hostname_] is the content of the C string; the routing information is opaque. *)
Record SessionEndpoint := {
  transport_type_ : Z;
  hostname_ : bytes;
  sm_udp_port_ : Z;
  ep_rpc_id_ : Z;
  session_num_ : Z;
  routing_info_ : bytes
}.

(** [operator==], which leaves the routing information out. *)
Definition endpoint_eqb (a b : SessionEndpoint) : bool :=
  (transport_type_ a =? transport_type_ b) && bool_decide (hostname_ a = hostname_ b) &&
  (sm_udp_port_ a =? sm_udp_port_ b) && (ep_rpc_id_ a =? ep_rpc_id_ b) && (session_num_ a =? session_num_ b).

Record SmPkt := {
  pkt_type_ : SmPktType;
  err_type_ : SmErrType;
  pkt_token_ : Z;
  pkt_client_ : SessionEndpoint;
  pkt_server_ : SessionEndpoint
}.

Definition sm_pkt_type_is_req (t : SmPktType) : bool :=
  match t with kPingReq | kConnectReq | kDisconnectReq => true | _ => false end.

Definition sm_pkt_type_req_to_resp (t : SmPktType) : outcome SmPktType :=
  match t with
  | kPingReq => Done kPingResp
  | kConnectReq => Done kConnectResp
  | kDisconnectReq => Done kDisconnectResp
  | _ => Fault AssertFailed
  end.

Definition sm_construct_resp (p : SmPkt) (e : SmErrType) : outcome SmPkt :=
  match sm_pkt_type_req_to_resp (pkt_type_ p) with
  | Done t => Done {| pkt_type_ := t; err_type_ := e; pkt_token_ := pkt_token_ p; pkt_client_ := pkt_client_ p; pkt_server_ := pkt_server_ p |}
  | Fault f => Fault f
  end.

Definition with_server (e : SessionEndpoint) (p : SmPkt) : SmPkt :=
  {| pkt_type_ := pkt_type_ p; err_type_ := err_type_ p; pkt_token_ := pkt_token_ p; pkt_client_ := pkt_client_ p; pkt_server_ := e |}.

(** [remote_session_num_] is not initialised before the session is connected. *)
Record Session := {
  role_ : Role;
  uniq_token_ : Z;
  state_ : SessionState.t;
  client_ : SessionEndpoint;
  server_ : SessionEndpoint;
  local_session_num_ : Z;
  remote_session_num_ : option Z;
  slots_settled : bool
}.

(** An [Rpc] object with the part of its Nexus that it uses.  A destroyed session leaves a null
    pointer in [session_vec_]; numbers are never used again. *)
Record Rpc := {
  transport_type : Z;
  nexus_hostname_ : bytes;
  nexus_sm_udp_port_ : Z;
  rpc_id_ : Z;
  local_routing_info : bytes;
  session_vec_ : list (option Session);
  ring_entries_available_ : Z;
  conn_req_token_map_ : gmap Z Z;
  sm_pending_reqs_ : gset Z;
  sm_rx_queue_ : list SmPkt;
  udp_sent : list SmPkt;
  sm_events : list Sessions.sm_event
}.

(** *** Assignments *)

Definition set_session_vec (v : list (option Session)) (r : Rpc) : Rpc :=
  {| transport_type := transport_type r; nexus_hostname_ := nexus_hostname_ r; nexus_sm_udp_port_ := nexus_sm_udp_port_ r;
     rpc_id_ := rpc_id_ r; local_routing_info := local_routing_info r; session_vec_ := v;
     ring_entries_available_ := ring_entries_available_ r; conn_req_token_map_ := conn_req_token_map_ r;
     sm_pending_reqs_ := sm_pending_reqs_ r; sm_rx_queue_ := sm_rx_queue_ r; udp_sent := udp_sent r; sm_events := sm_events r |}.

Definition set_ring (n : Z) (r : Rpc) : Rpc :=
  {| transport_type := transport_type r; nexus_hostname_ := nexus_hostname_ r; nexus_sm_udp_port_ := nexus_sm_udp_port_ r;
     rpc_id_ := rpc_id_ r; local_routing_info := local_routing_info r; session_vec_ := session_vec_ r;
     ring_entries_available_ := n; conn_req_token_map_ := conn_req_token_map_ r;
     sm_pending_reqs_ := sm_pending_reqs_ r; sm_rx_queue_ := sm_rx_queue_ r; udp_sent := udp_sent r; sm_events := sm_events r |}.

Definition set_token_map (m : gmap Z Z) (r : Rpc) : Rpc :=
  {| transport_type := transport_type r; nexus_hostname_ := nexus_hostname_ r; nexus_sm_udp_port_ := nexus_sm_udp_port_ r;
     rpc_id_ := rpc_id_ r; local_routing_info := local_routing_info r; session_vec_ := session_vec_ r;
     ring_entries_available_ := ring_entries_available_ r; conn_req_token_map_ := m;
     sm_pending_reqs_ := sm_pending_reqs_ r; sm_rx_queue_ := sm_rx_queue_ r; udp_sent := udp_sent r; sm_events := sm_events r |}.

Definition set_pending (s : gset Z) (r : Rpc) : Rpc :=
  {| transport_type := transport_type r; nexus_hostname_ := nexus_hostname_ r; nexus_sm_udp_port_ := nexus_sm_udp_port_ r;
     rpc_id_ := rpc_id_ r; local_routing_info := local_routing_info r; session_vec_ := session_vec_ r;
     ring_entries_available_ := ring_entries_available_ r; conn_req_token_map_ := conn_req_token_map_ r;
     sm_pending_reqs_ := s; sm_rx_queue_ := sm_rx_queue_ r; udp_sent := udp_sent r; sm_events := sm_events r |}.

Definition set_rx_queue (l : list SmPkt) (r : Rpc) : Rpc :=
  {| transport_type := transport_type r; nexus_hostname_ := nexus_hostname_ r; nexus_sm_udp_port_ := nexus_sm_udp_port_ r;
     rpc_id_ := rpc_id_ r; local_routing_info := local_routing_info r; session_vec_ := session_vec_ r;
     ring_entries_available_ := ring_entries_available_ r; conn_req_token_map_ := conn_req_token_map_ r;
     sm_pending_reqs_ := sm_pending_reqs_ r; sm_rx_queue_ := l; udp_sent := udp_sent r; sm_events := sm_events r |}.

Definition set_logs (tx : list SmPkt) (evs : list Sessions.sm_event) (r : Rpc) : Rpc :=
  {| transport_type := transport_type r; nexus_hostname_ := nexus_hostname_ r; nexus_sm_udp_port_ := nexus_sm_udp_port_ r;
     rpc_id_ := rpc_id_ r; local_routing_info := local_routing_info r; session_vec_ := session_vec_ r;
     ring_entries_available_ := ring_entries_available_ r; conn_req_token_map_ := conn_req_token_map_ r;
     sm_pending_reqs_ := sm_pending_reqs_ r; sm_rx_queue_ := sm_rx_queue_ r; udp_sent := tx; sm_events := evs |}.

Definition set_state (st : SessionState.t) (s : Session) : Session :=
  {| role_ := role_ s; uniq_token_ := uniq_token_ s; state_ := st; client_ := client_ s; server_ := server_ s;
     local_session_num_ := local_session_num_ s; remote_session_num_ := remote_session_num_ s; slots_settled := slots_settled s |}.

Definition set_server (e : SessionEndpoint) (s : Session) : Session :=
  {| role_ := role_ s; uniq_token_ := uniq_token_ s; state_ := state_ s; client_ := client_ s; server_ := e;
     local_session_num_ := local_session_num_ s; remote_session_num_ := remote_session_num_ s; slots_settled := slots_settled s |}.

Definition set_remote (n : option Z) (s : Session) : Session :=
  {| role_ := role_ s; uniq_token_ := uniq_token_ s; state_ := state_ s; client_ := client_ s; server_ := server_ s;
     local_session_num_ := local_session_num_ s; remote_session_num_ := n; slots_settled := slots_settled s |}.

Definition with_routing (i : bytes) (e : SessionEndpoint) : SessionEndpoint :=
  {| transport_type_ := transport_type_ e; hostname_ := hostname_ e; sm_udp_port_ := sm_udp_port_ e; ep_rpc_id_ := ep_rpc_id_ e;
     session_num_ := session_num_ e; routing_info_ := i |}.

Definition with_num (n : Z) (e : SessionEndpoint) : SessionEndpoint :=
  {| transport_type_ := transport_type_ e; hostname_ := hostname_ e; sm_udp_port_ := sm_udp_port_ e; ep_rpc_id_ := ep_rpc_id_ e;
     session_num_ := n; routing_info_ := routing_info_ e |}.

Definition run {S A} (o : outcome A) : M S A := match o with Done a => ret a | Fault f => raise f end.

(** [session_vec_[n]] *)
Definition session_at (n : Z) : M Rpc (option Session) :=
  let* v := gets session_vec_ in
  match v !! Z.to_nat n with Some o => ret o | None => raise OutOfBounds end.

(** Assignments through a pointer to the session with this number. *)
Definition upd_session (n : Z) (f : Session -> Session) : M Rpc unit :=
  modify (fun r => set_session_vec (alter (fmap f) (Z.to_nat n) (session_vec_ r)) r).

(** ** The URI of a process *)

(** The tokens that [getline] gives: none after a delimiter at the end. *)
Fixpoint split_on (d : Z) (token : bytes) (input : bytes) : list bytes :=
  match input with
  | [] => match token with [] => [] | _ => [token] end
  | b :: input' => if b =? d then token :: split_on d [] input' else split_on d (token ++ [b]) input'
  end.

Definition colon : Z := 58.

Definition is_valid_uri (uri : bytes) : bool :=
  match split_on colon [] uri with [h; p] => negb (bool_decide (h = [])) && negb (bool_decide (p = [])) | _ => false end.

Fixpoint before_colon (uri : bytes) : bytes :=
  match uri with [] => [] | b :: uri' => if b =? colon then [] else b :: before_colon uri' end.

Definition after_colon (uri : bytes) : bytes := drop (S (length (before_colon uri))) uri.

(** [std::stoi]: white space, a sign, digits; what follows is ignored. *)
Definition is_space (b : Z) : bool := (b =? 32) || ((9 <=? b) && (b <=? 13)).
Definition is_digit (b : Z) : bool := (48 <=? b) && (b <=? 57).

Fixpoint skip_spaces (s : bytes) : bytes :=
  match s with [] => [] | b :: s' => if is_space b then skip_spaces s' else s end.

Fixpoint digits (acc : Z) (s : bytes) : Z :=
  match s with [] => acc | b :: s' => if is_digit b then digits (10 * acc + (b - 48)) s' else acc end.

Definition stoi (s : bytes) : outcome Z :=
  let s := skip_spaces s in
  let '(sign, t) := match s with 45 :: t => (-1, t) | 43 :: t => (1, t) | _ => (1, s) end in
  match t with
  | b :: _ => if is_digit b then let v := sign * digits 0 t in
                if (- 2 ^ 31 <=? v) && (v <? 2 ^ 31) then Done v else Fault Thrown
              else Fault Thrown
  | [] => Fault Thrown
  end.

Definition extract_hostname_from_uri (uri : bytes) : outcome bytes :=
  if is_valid_uri uri then Done (before_colon uri) else Fault AssertFailed.

Definition extract_udp_port_from_uri (uri : bytes) : outcome Z :=
  if is_valid_uri uri then match stoi (after_colon uri) with Done v => Done (u16 v) | Fault f => Fault f end
  else Fault AssertFailed.

(** ** Ring entries *)

Definition have_ring_entries (r : Rpc) : bool := kSessionCredits <=? ring_entries_available_ r.

Definition alloc_ring_entries : M Rpc unit :=
  let* r := gets (fun r => r) in
  p_assert (have_ring_entries r) ;;;
  modify (set_ring (ring_entries_available_ r - kSessionCredits)).

Definition free_ring_entries : M Rpc unit :=
  let* r := gets (fun r => r) in
  let n := ring_entries_available_ r + kSessionCredits in
  modify (set_ring n) ;;;
  p_assert (n <=? kNumRxRingEntries).

(** ** Sending *)

Definition sm_pkt_udp_tx_st (p : SmPkt) : M Rpc unit :=
  modify (fun r => set_logs (p :: udp_sent r) (sm_events r) r).

(** The process and the [Rpc] object that the packet is for. *)
Definition destination (p : SmPkt) : bytes * Z * Z :=
  let e := if sm_pkt_type_is_req (pkt_type_ p) then pkt_server_ p else pkt_client_ p in
  (hostname_ e, sm_udp_port_ e, ep_rpc_id_ e).

Definition respond (p : SmPkt) (e : SmErrType) : M Rpc unit :=
  let* q := run (sm_construct_resp p e) in sm_pkt_udp_tx_st q.

Definition sm_handler_ (n : Z) (t : Sessions.SmEventType) (e : SmErrType) : M Rpc unit :=
  modify (fun r => set_logs (udp_sent r)
    (sm_events r ++ [{| Sessions.ev_session := n; Sessions.ev_type := t; Sessions.ev_no_error := bool_decide (e = kNoError) |}]) r).

Definition sm_request (s : Session) : SmPkt :=
  {| pkt_type_ := if bool_decide (state_ s = SessionState.kConnectInProgress) then kConnectReq else kDisconnectReq;
     err_type_ := kNoError; pkt_token_ := uniq_token_ s; pkt_client_ := client_ s; pkt_server_ := server_ s |}.

Definition send_sm_req_st (s : Session) : M Rpc unit :=
  modify (fun r => set_pending ({[local_session_num_ s]} ∪ sm_pending_reqs_ r) r) ;;;
  sm_pkt_udp_tx_st (sm_request s).

(** [session_vec_.at(...)] throws out of range. *)
Definition bury_session_st (s : Session) : M Rpc unit :=
  let* v := gets session_vec_ in
  if (Z.to_nat (local_session_num_ s) <? length v)%nat
  then modify (set_session_vec (<[Z.to_nat (local_session_num_ s) := None]> v))
  else raise Thrown.

(** ** Creating a session *)

(** [strcpy] into [hostname_]. *)
Definition strcpy_hostname (h : bytes) : M Rpc bytes :=
  if (length (c_str h) <? kMaxHostnameLen)%nat then ret (c_str h) else raise OutOfBounds.

Definition create_session_st (token : Z) (remote_uri : bytes) (rem_rpc_id : Z) : M Rpc Z :=
  let* rem_hostname := run (extract_hostname_from_uri remote_uri) in
  let* rem_sm_udp_port := run (extract_udp_port_from_uri remote_uri) in
  let* r := gets (fun r => r) in
  if (length rem_hostname =? 0)%nat || (kMaxHostnameLen <? length rem_hostname)%nat then ret (- EINVAL) else
  if bool_decide (rem_hostname = nexus_hostname_ r) && (rem_rpc_id =? rpc_id_ r) &&
     (rem_sm_udp_port =? nexus_sm_udp_port_ r) then ret (- EINVAL) else
  if negb (have_ring_entries r) then ret (- ENOMEM) else
  let n := u16 (Z.of_nat (length (session_vec_ r))) in
  let* own := strcpy_hostname (nexus_hostname_ r) in
  let* host := strcpy_hostname rem_hostname in
  let session := {|
    role_ := kClient; uniq_token_ := token; state_ := SessionState.kConnectInProgress;
    client_ := {| transport_type_ := transport_type r; hostname_ := own; sm_udp_port_ := nexus_sm_udp_port_ r;
                  ep_rpc_id_ := rpc_id_ r; session_num_ := n; routing_info_ := local_routing_info r |};
    server_ := {| transport_type_ := transport_type r; hostname_ := host; sm_udp_port_ := rem_sm_udp_port;
                  ep_rpc_id_ := rem_rpc_id; session_num_ := kInvalidSessionNum; routing_info_ := [] |};
    local_session_num_ := n; remote_session_num_ := None; slots_settled := true |} in
  alloc_ring_entries ;;;
  modify (fun r => set_session_vec (session_vec_ r ++ [Some session]) r) ;;;
  send_sm_req_st session ;;;
  ret n.

(** ** Connecting *)

Section Handlers.
Context (resolve_remote_routing_info : bytes -> option bytes).

(** [allocs] of the buffers can be had. *)
Definition handle_connect_req_st (allocs : nat) (p : SmPkt) : M Rpc unit :=
  let* r := gets (fun r => r) in
  p_assert (bool_decide (pkt_type_ p = kConnectReq) && (ep_rpc_id_ (pkt_server_ p) =? rpc_id_ r)) ;;;
  match conn_req_token_map_ r !! pkt_token_ p with
  | Some srv_session_num =>
      p_assert (srv_session_num <? Z.of_nat (length (session_vec_ r))) ;;;
      let* session := session_at srv_session_num in
      match session with
      | None => ret tt
      | Some s =>
          if negb (bool_decide (state_ s = SessionState.kConnected)) then ret tt else
          let* q := run (sm_construct_resp p kNoError) in
          sm_pkt_udp_tx_st (with_server (server_ s) q)
      end
  | None =>
      if negb (transport_type_ (pkt_server_ p) =? transport_type r) then respond p kInvalidTransport else
      if negb (have_ring_entries r) then respond p kRingExhausted else
      match resolve_remote_routing_info (routing_info_ (pkt_client_ p)) with
      | None => respond p kRoutingResolutionFailure
      | Some client_rinfo =>
          if (allocs <? kSessionReqWindow)%nat then respond p kOutOfMemory else
          let n := u16 (Z.of_nat (length (session_vec_ r))) in
          let session := {|
            role_ := kServer; uniq_token_ := pkt_token_ p; state_ := SessionState.kConnected;
            client_ := with_routing client_rinfo (pkt_client_ p);
            server_ := with_routing (local_routing_info r) (with_num n (pkt_server_ p));
            local_session_num_ := n; remote_session_num_ := Some (session_num_ (pkt_client_ p)); slots_settled := true |} in
          modify (fun r => set_token_map (<[pkt_token_ p := n]> (conn_req_token_map_ r)) r) ;;;
          alloc_ring_entries ;;;
          modify (fun r => set_session_vec (session_vec_ r ++ [Some session]) r) ;;;
          let* q := run (sm_construct_resp p kNoError) in
          sm_pkt_udp_tx_st (with_server (server_ session) q)
      end
  end.

(** [retry] is [retry_connect_on_invalid_rpc_id_]. *)
Definition handle_connect_resp_st (retry : bool) (p : SmPkt) : M Rpc unit :=
  let* r := gets (fun r => r) in
  p_assert (bool_decide (pkt_type_ p = kConnectResp) && (ep_rpc_id_ (pkt_client_ p) =? rpc_id_ r)) ;;;
  let session_num := session_num_ (pkt_client_ p) in
  p_assert (session_num <? Z.of_nat (length (session_vec_ r))) ;;;
  let* session := session_at session_num in
  match session with
  | None => ret tt
  | Some s =>
      if negb (bool_decide (state_ s = SessionState.kConnectInProgress)) then ret tt else
      p_assert (bool_decide (role_ s = kClient) && endpoint_eqb (client_ s) (pkt_client_ p)) ;;;
      p_assert (bool_decide (hostname_ (server_ s) = hostname_ (pkt_server_ p))) ;;;
      p_assert (ep_rpc_id_ (server_ s) =? ep_rpc_id_ (pkt_server_ p)) ;;;
      p_assert (session_num_ (server_ s) =? kInvalidSessionNum) ;;;
      if bool_decide (err_type_ p = kInvalidRemoteRpcId) && retry then
        modify (fun r => set_pending ({[local_session_num_ s]} ∪ sm_pending_reqs_ r) r)
      else if negb (bool_decide (err_type_ p = kNoError)) then
        free_ring_entries ;;;
        sm_handler_ (local_session_num_ s) Sessions.kConnectFailed (err_type_ p) ;;;
        bury_session_st s
      else
      match resolve_remote_routing_info (routing_info_ (pkt_server_ p)) with
      | None =>
          let s' := set_state SessionState.kDisconnectInProgress (set_server (pkt_server_ p) s) in
          upd_session session_num (fun _ => s') ;;;
          send_sm_req_st s'
      | Some srv_routing_info =>
          upd_session session_num (fun s =>
            set_state SessionState.kConnected
              (set_remote (Some (session_num_ (pkt_server_ p)))
                (set_server (with_routing srv_routing_info (pkt_server_ p)) s))) ;;;
          sm_handler_ (local_session_num_ s) Sessions.kConnected kNoError
      end
  end.

(** ** Disconnecting *)

Definition handle_disconnect_req_st (p : SmPkt) : M Rpc unit :=
  let* r := gets (fun r => r) in
  p_assert (bool_decide (pkt_type_ p = kDisconnectReq) && (ep_rpc_id_ (pkt_server_ p) =? rpc_id_ r)) ;;;
  let session_num := session_num_ (pkt_server_ p) in
  p_assert (session_num <? Z.of_nat (length (session_vec_ r))) ;;;
  let* session := session_at session_num in
  match session with
  | None => respond p kNoError
  | Some s =>
      p_assert (bool_decide (role_ s = kServer) && bool_decide (state_ s = SessionState.kConnected)) ;;;
      p_assert (endpoint_eqb (server_ s) (pkt_server_ p)) ;;;
      p_assert (endpoint_eqb (client_ s) (pkt_client_ p)) ;;;
      p_assert (slots_settled s) ;;;
      free_ring_entries ;;;
      respond p kNoError ;;;
      bury_session_st s
  end.

Definition handle_disconnect_resp_st (p : SmPkt) : M Rpc unit :=
  let* r := gets (fun r => r) in
  p_assert (bool_decide (pkt_type_ p = kDisconnectResp) && (ep_rpc_id_ (pkt_client_ p) =? rpc_id_ r)) ;;;
  p_assert (bool_decide (err_type_ p = kNoError)) ;;;
  let session_num := session_num_ (pkt_client_ p) in
  p_assert (session_num <? Z.of_nat (length (session_vec_ r))) ;;;
  let* session := session_at session_num in
  match session with
  | None => ret tt
  | Some s =>
      p_assert (bool_decide (role_ s = kClient)) ;;;
      p_assert (bool_decide (state_ s = SessionState.kDisconnectInProgress)) ;;;
      p_assert (endpoint_eqb (client_ s) (pkt_client_ p)) ;;;
      p_assert (endpoint_eqb (server_ s) (pkt_server_ p)) ;;;
      free_ring_entries ;;;
      sm_handler_ (local_session_num_ s) Sessions.kDisconnected kNoError ;;;
      bury_session_st s
  end.

(** ** The event loop *)

(** One packet of the queue. *)
Definition handle_sm_pkt (retry : bool) (allocs : nat) (p : SmPkt) : M Rpc unit :=
  (if sm_pkt_type_is_req (pkt_type_ p) then ret tt
   else modify (fun r => set_pending (sm_pending_reqs_ r ∖ {[session_num_ (pkt_client_ p)]}) r)) ;;;
  match pkt_type_ p with
  | kConnectReq => handle_connect_req_st allocs p
  | kDisconnectReq => handle_disconnect_req_st p
  | kConnectResp => handle_connect_resp_st retry p
  | kDisconnectResp => handle_disconnect_resp_st p
  | _ => raise Thrown
  end.

(** The loop over the queue, with what was in it when the turn began. *)
Fixpoint handle_sm_rx_st (retry : bool) (allocs : nat) (queue : list SmPkt) : M Rpc unit :=
  match queue with
  | [] => ret tt
  | p :: queue' => modify (set_rx_queue queue') ;;; handle_sm_pkt retry allocs p ;;; handle_sm_rx_st retry allocs queue'
  end.

(** The second loop of [pkt_loss_scan_st]; a [std::set] is traversed in ascending order. *)
Fixpoint sm_loss_scan (timed_out : Z -> bool) (nums : list Z) : M Rpc unit :=
  match nums with
  | [] => ret tt
  | n :: nums' =>
      let* session := session_at n in
      match session with
      | None => ret tt
      | Some s =>
          match state_ s with
          | SessionState.kConnectInProgress | SessionState.kDisconnectInProgress =>
              when_ (timed_out n) (send_sm_req_st s)
          | _ => ret tt
          end
      end ;;;
      sm_loss_scan timed_out nums'
  end.

Definition pkt_loss_scan_st (timed_out : Z -> bool) : M Rpc unit :=
  let* s := gets sm_pending_reqs_ in
  sm_loss_scan timed_out (merge_sort Z.le (elements s)).

(** The session management of [run_event_loop_do_one_st]; [scan] says whether a new epoch began. *)
Definition run_event_loop_do_one_st (retry : bool) (allocs : nat) (scan : bool) (timed_out : Z -> bool) : M Rpc unit :=
  let* q := gets sm_rx_queue_ in
  handle_sm_rx_st retry allocs q ;;;
  when_ scan (pkt_loss_scan_st timed_out).

End Handlers.

(** [is_connected] follows the pointer; a negative number is a large index. *)
Definition is_connected (n : Z) : M Rpc bool :=
  if n <? 0 then raise OutOfBounds else
  let* session := session_at n in
  match session with
  | None => raise NullDeref
  | Some s => ret (bool_decide (state_ s = SessionState.kConnected))
  end.

(** A new object, registered with its Nexus. *)
Definition new_Rpc (transport : Z) (host : bytes) (port id : Z) (rinfo : bytes) : Rpc :=
  {| transport_type := transport; nexus_hostname_ := host; nexus_sm_udp_port_ := port; rpc_id_ := id; local_routing_info := rinfo;
     session_vec_ := []; ring_entries_available_ := kNumRxRingEntries; conn_req_token_map_ := ∅; sm_pending_reqs_ := ∅;
     sm_rx_queue_ := []; udp_sent := []; sm_events := [] |}.

(** ** The processes *)

(** The [Rpc] objects by process and identity, and what the threads of the Nexus have sent. *)
Record cluster := {
  rpcs : gmap (bytes * Z * Z) Rpc;
  nexus_sent : list SmPkt
}.

(** One packet received by the session management thread of the process it was sent to. *)
Definition sm_thread_func (p : SmPkt) : M cluster unit :=
  if bool_decide (pkt_type_ p = kUnblock) then ret tt else
  let '(host, port, target_rpc_id) := destination p in
  if kMaxRpcId <? target_rpc_id then raise OutOfBounds else
  let* c := gets (fun c => c) in
  match rpcs c !! (host, port, target_rpc_id) with
  | Some r => modify (fun c => {| rpcs := <[(host, port, target_rpc_id) := set_rx_queue (sm_rx_queue_ r ++ [p]) r]> (rpcs c);
                                  nexus_sent := nexus_sent c |})
  | None =>
      if sm_pkt_type_is_req (pkt_type_ p) then
        let* q := run (sm_construct_resp p kInvalidRemoteRpcId) in
        modify (fun c => {| rpcs := rpcs c; nexus_sent := q :: nexus_sent c |})
      else ret tt
  end.

End ErpcSm.
