(* ===== verification/ErpcSmInv.v ===== *)
(** * The invariant of session management

    What holds of every [Rpc] object and every packet sent between them while sessions are created
    and taken down ([ErpcSm]).  The history of a session, by its token, is a record that both ends
    agree on: who asked whom, how far the client has come, and what the server made of it.  The
    lemmas show that every handler keeps the invariant and that none of its assertions fails. *)

From Stdlib Require Import ZArith Lia.
From stdpp Require Import base numbers list gmap sorting.
From S2P Require Import Prelude Sessions ErpcSm.
Open Scope Z_scope.

Module ErpcSmInv.
Export ErpcSm.
Local Open Scope m_scope.

Abbreviation addr := (bytes * Z * Z)%type.

Definition addr_of (r : Rpc) : addr := (nexus_hostname_ r, nexus_sm_udp_port_ r, rpc_id_ r).
Definition ep_addr (e : SessionEndpoint) : addr := (hostname_ e, sm_udp_port_ e, ep_rpc_id_ e).

(** ** The history of a session *)

(** The client waits for a response, is connected, has given up a session that the server made, or
    was told that there is none. *)
Inductive phase := Opening | Up | Closing | Failed.

#[global] Instance phase_eq_dec : EqDecision phase.
Proof. solve_decision. Defined.

(** [acc] is the number that the server gave, [gone] that it has taken the session down. *)
Record conn := {
  cl : addr;
  num : Z;
  srv : addr;
  trans : Z;
  ph : phase;
  acc : option Z;
  gone : bool
}.

Abbreviation history := (gmap Z conn).

Definition set_ph (p : phase) (g : conn) : conn :=
  {| cl := cl g; num := num g; srv := srv g; trans := trans g; ph := p; acc := acc g; gone := gone g |}.
Definition set_acc (j : Z) (g : conn) : conn :=
  {| cl := cl g; num := num g; srv := srv g; trans := trans g; ph := ph g; acc := Some j; gone := gone g |}.
Definition set_gone (g : conn) : conn :=
  {| cl := cl g; num := num g; srv := srv g; trans := trans g; ph := ph g; acc := acc g; gone := true |}.

(** ** What is true of packets and sessions *)

Definition ep_is (e : SessionEndpoint) (g : conn) (a : addr) (n : Z) : Prop :=
  transport_type_ e = trans g /\ ep_addr e = a /\ session_num_ e = n.

Definition pkt_ok (G : history) (p : SmPkt) : Prop :=
  exists g, G !! pkt_token_ p = Some g /\ ep_is (pkt_client_ p) g (cl g) (num g) /\
    transport_type_ (pkt_server_ p) = trans g /\ ep_addr (pkt_server_ p) = srv g /\
    match pkt_type_ p with
    | kConnectReq => err_type_ p = kNoError /\ session_num_ (pkt_server_ p) = kInvalidSessionNum
    | kConnectResp => err_type_ p = kNoError -> acc g = Some (session_num_ (pkt_server_ p))
    | kDisconnectReq => err_type_ p = kNoError /\ acc g = Some (session_num_ (pkt_server_ p)) /\ ph g = Closing
    | kDisconnectResp => err_type_ p = kNoError /\ acc g = Some (session_num_ (pkt_server_ p)) /\ ph g = Closing /\
      gone g = true
    | _ => False
    end.

(** The client's end of a session that has not been taken down. *)
Definition client_end (t : Z) (g : conn) (s : Session) : Prop :=
  role_ s = kClient /\ uniq_token_ s = t /\ local_session_num_ s = num g /\ ep_is (client_ s) g (cl g) (num g) /\
  transport_type_ (server_ s) = trans g /\ ep_addr (server_ s) = srv g.

Definition report (n : Z) (t : Sessions.SmEventType) (ok : bool) : Sessions.sm_event :=
  {| Sessions.ev_session := n; Sessions.ev_type := t; Sessions.ev_no_error := ok |}.

(** The entry of [session_vec_] and the calls of the handler for the session. *)
Definition client_at (t : Z) (g : conn) (o : option (option Session)) (evs : list Sessions.sm_event) : Prop :=
  match ph g with
  | Opening => exists s, o = Some (Some s) /\ client_end t g s /\ state_ s = SessionState.kConnectInProgress /\
      session_num_ (server_ s) = kInvalidSessionNum /\ evs = []
  | Up => exists s j, o = Some (Some s) /\ client_end t g s /\ state_ s = SessionState.kConnected /\
      acc g = Some j /\ session_num_ (server_ s) = j /\ remote_session_num_ s = Some j /\
      evs = [report (num g) Sessions.kConnected true]
  | Closing => (exists s j, o = Some (Some s) /\ client_end t g s /\ state_ s = SessionState.kDisconnectInProgress /\
      acc g = Some j /\ session_num_ (server_ s) = j /\ evs = []) \/
      o = Some None /\ evs = [report (num g) Sessions.kDisconnected true]
  | Failed => o = Some None /\ evs = [report (num g) Sessions.kConnectFailed false]
  end.

(** A client that still waits. *)
Lemma waiting_client t g s evs : client_at t g (Some (Some s)) evs -> state_ s = SessionState.kConnectInProgress ->
  ph g = Opening /\ client_end t g s /\ session_num_ (server_ s) = kInvalidSessionNum.
Proof.
  unfold client_at. intros Hc Hst. destruct (ph g).
  - destruct Hc as (s1 & [= <-] & ? & ? & ? & _). auto.
  - destruct Hc as (s1 & j & [= <-] & _ & ? & _). congruence.
  - destruct Hc as [(s1 & j & [= <-] & _ & ? & _)|[? _]]; congruence.
  - destruct Hc; congruence.
Qed.

Definition server_end (t : Z) (g : conn) (j : Z) (s : Session) : Prop :=
  role_ s = kServer /\ uniq_token_ s = t /\ state_ s = SessionState.kConnected /\ local_session_num_ s = j /\
  ep_is (client_ s) g (cl g) (num g) /\ ep_is (server_ s) g (srv g) j /\ remote_session_num_ s = Some (num g) /\
  (ph g <> Up -> slots_settled s = true).

Definition server_at (t : Z) (g : conn) (j : Z) (o : option (option Session)) : Prop :=
  if gone g then o = Some None else exists s, o = Some (Some s) /\ server_end t g j s.

Definition reports (n : Z) (r : Rpc) : list Sessions.sm_event :=
  filter (fun e => Sessions.ev_session e = n) (sm_events r).

(** The sessions that hold ring entries. *)
Definition live (v : list (option Session)) : nat := length (omap id v).
#[global] Arguments live : simpl never.
#[global] Arguments reports : simpl never.

(** The session numbers of one end. *)
Definition num_ok (n : Z) (r : Rpc) : Prop := 0 <= n < Z.of_nat (length (session_vec_ r)).

Abbreviation entry r n := (session_vec_ r !! Z.to_nat n).

(** [hole] is a session whose pending request has just been removed. *)
Record rpc_ok (G : history) (hole : option Z) (a : addr) (r : Rpc) : Prop := {
  ro_addr : addr_of r = a;
  ro_bound : Z.of_nat (length (session_vec_ r)) <= 65535;
  ro_ring : ring_entries_available_ r + kSessionCredits * Z.of_nat (live (session_vec_ r)) = kNumRxRingEntries;
  ro_client t g : G !! t = Some g -> cl g = a ->
    num_ok (num g) r /\ client_at t g (entry r (num g)) (reports (num g) r) /\ t ∈ map pkt_token_ (udp_sent r);
  ro_opening t g : G !! t = Some g -> cl g = a -> ph g = Opening -> num g ∈ sm_pending_reqs_ r \/ hole = Some (num g);
  ro_server t g j : G !! t = Some g -> srv g = a -> acc g = Some j ->
    conn_req_token_map_ r !! t = Some j /\ num_ok j r /\ server_at t g j (entry r j);
  ro_map t j : conn_req_token_map_ r !! t = Some j -> exists g, G !! t = Some g /\ srv g = a /\ acc g = Some j;
  ro_pending n : n ∈ sm_pending_reqs_ r -> num_ok n r;
  ro_role i s : session_vec_ r !! i = Some (Some s) ->
    match role_ s with
    | kClient => exists g, G !! uniq_token_ s = Some g /\ cl g = a /\ num g = Z.of_nat i
    | kServer => exists g, G !! uniq_token_ s = Some g /\ srv g = a /\ acc g = Some (Z.of_nat i)
    end;
  ro_reports e : e ∈ sm_events r -> exists t g, G !! t = Some g /\ cl g = a /\ num g = Sessions.ev_session e;
  ro_queue p : p ∈ sm_rx_queue_ r -> pkt_ok G p /\ destination p = a;
  ro_sent p : p ∈ udp_sent r -> pkt_ok G p
}.

(** Of the histories themselves. *)
Definition conn_ok (g : conn) : Prop :=
  cl g <> srv g /\ (gone g = true -> ph g = Closing) /\ (acc g = None -> ph g <> Up /\ ph g <> Closing) /\
    0 <= (cl g).2 <= kMaxRpcId /\ 0 <= (srv g).2 <= kMaxRpcId.

Definition histories_ok (G : history) : Prop := forall t g, G !! t = Some g -> conn_ok g.

(** ** What one object may do to the histories *)

Record grown (a : addr) (g g' : conn) : Prop := {
  gr_cl : cl g' = cl g;
  gr_num : num g' = num g;
  gr_srv : srv g' = srv g;
  gr_trans : trans g' = trans g;
  gr_ph : ph g' = ph g \/ cl g = a /\ ph g = Opening;
  gr_acc : acc g' = acc g \/ srv g = a /\ acc g = None;
  gr_gone : gone g' = gone g \/ srv g = a /\ gone g' = true
}.

Record evolves (a : addr) (G G' : history) : Prop := {
  ev_old t g : G !! t = Some g -> exists g', G' !! t = Some g' /\ grown a g g';
  ev_new t g' : G' !! t = Some g' -> G !! t = None -> cl g' = a /\ (acc g' = None \/ srv g' = a)
}.

Lemma history_refl a g : grown a g g.
Proof. split; auto. Qed.

Lemma evolves_refl a G : evolves a G G.
Proof. split; [intros t g H; exists g; auto using history_refl|congruence]. Qed.

Lemma grown_trans a g1 g2 g3 : grown a g1 g2 -> grown a g2 g3 -> grown a g1 g3.
Proof.
  intros [A1 A2 A3 A4 A5 A6 A7] [B1 B2 B3 B4 B5 B6 B7]. split; try congruence.
  - destruct A5 as [A5|[? ?]]; [|auto]. destruct B5 as [B5|[? ?]]; [left; congruence|right; split; congruence].
  - destruct A6 as [A6|[? ?]]; [|auto]. destruct B6 as [B6|[? ?]]; [left; congruence|right; split; congruence].
  - destruct A7 as [A7|[? ?]], B7 as [B7|[? ?]]; [left; congruence|right; split; congruence..].
Qed.

Lemma evolves_trans a G1 G2 G3 : evolves a G1 G2 -> evolves a G2 G3 -> evolves a G1 G3.
Proof.
  intros [A1 A2] [B1 B2]. split.
  - intros t g H. destruct (A1 t g H) as (g2 & H2 & R2). destruct (B1 t g2 H2) as (g3 & H3 & R3).
    exists g3. split; [exact H3|eapply grown_trans; eassumption].
  - intros t g3 H3 HN. destruct (G2 !! t) as [g2|] eqn:E2; [|eauto]. destruct (A2 t g2 E2 HN) as [Hc Ha].
    destruct (B1 t g2 E2) as (g3' & E3 & [R1 R2 R3 R4 R5 R6 R7]). replace g3' with g3 in * by congruence.
    split; [congruence|]. destruct R6 as [R6|[R6 _]]; [destruct Ha; [left|right]; congruence|right; congruence].
Qed.

Lemma evolves_insert a G t g g' : G !! t = Some g -> grown a g g' -> evolves a G (<[t := g']> G).
Proof.
  intros Ht Hg. split.
  - intros t1 g1 H1. destruct (decide (t1 = t)) as [->|Hne].
    + exists g'. rewrite lookup_insert_eq. split; [reflexivity|]. congruence.
    + exists g1. rewrite lookup_insert_ne by congruence. split; [exact H1|apply history_refl].
  - intros t1 g1 H1 HN. rewrite lookup_insert_ne in H1 by congruence. congruence.
Qed.

Lemma evolves_fresh a G t g : G !! t = None -> cl g = a -> acc g = None -> evolves a G (<[t := g]> G).
Proof.
  intros Ht Hc Ha. split.
  - intros t1 g1 H1. exists g1. rewrite lookup_insert_ne by congruence. split; [exact H1|apply history_refl].
  - intros t1 g1 H1 HN. destruct (decide (t1 = t)) as [->|Hne].
    + rewrite lookup_insert_eq in H1. injection H1 as <-. auto.
    + rewrite lookup_insert_ne in H1 by congruence. congruence.
Qed.

(** What is said of a packet stays true. *)
Lemma ep_is_grown a e g g' b n : grown a g g' -> ep_is e g b n -> ep_is e g' b n.
Proof. intros [] (H1 & H2 & H3). repeat split; congruence. Qed.

Lemma acc_grown a g g' j : grown a g g' -> acc g = Some j -> acc g' = Some j.
Proof. intros [_ _ _ _ _ [H|[_ H]] _]; congruence. Qed.

Lemma closing_grown a g g' : grown a g g' -> ph g = Closing -> ph g' = Closing.
Proof. intros [_ _ _ _ [H|[_ H]] _ _]; congruence. Qed.

Lemma gone_grown a g g' : grown a g g' -> gone g = true -> gone g' = true.
Proof. intros [_ _ _ _ _ _ [H|[_ H]]]; congruence. Qed.

Lemma pkt_ok_evolves a G G' p : evolves a G G' -> pkt_ok G p -> pkt_ok G' p.
Proof.
  intros [He _] (g & Hg & Hc & Ht & Hs & Hp). destruct (He _ _ Hg) as (g' & Hg' & Hgr). exists g'.
  split; [exact Hg'|].
  pose proof (gr_cl _ _ _ Hgr). pose proof (gr_num _ _ _ Hgr). pose proof (gr_srv _ _ _ Hgr).
  pose proof (gr_trans _ _ _ Hgr).
  split; [eapply ep_is_grown; [exact Hgr|]; congruence|]. split; [congruence|]. split; [congruence|].
  destruct (pkt_type_ p); auto.
  - intros H3. eapply acc_grown; eauto.
  - destruct Hp as (? & ? & ?). split_and!; eauto using acc_grown, closing_grown.
  - destruct Hp as (? & ? & ? & ?). split_and!; eauto using acc_grown, closing_grown, gone_grown.
Qed.

(** ** The other objects are not affected *)

Lemma client_end_grown a t g g' s : grown a g g' -> client_end t g s -> client_end t g' s.
Proof.
  intros Hg (H1 & H2 & H3 & H4 & H5 & H6). destruct Hg as [G1 G2 G3 G4 G5 G6 G7] eqn:E. unfold client_end.
  rewrite G1, G2, G3, G4. repeat split; auto; destruct H4 as (? & ? & ?); congruence.
Qed.

Lemma client_at_other a t g g' o evs : grown a g g' -> cl g <> a -> client_at t g o evs -> client_at t g' o evs.
Proof.
  intros Hg Hne. pose proof (gr_num _ _ _ Hg) as En. destruct (gr_ph _ _ _ Hg) as [Ep|[? _]]; [|contradiction].
  unfold client_at. rewrite Ep, En. destruct (ph g); auto.
  - intros (s & H1 & H2 & H). exists s. eauto using client_end_grown.
  - intros (s & j & H1 & H2 & H3 & H4 & H). exists s, j. eauto 10 using client_end_grown, acc_grown.
  - intros [(s & j & H1 & H2 & H3 & H4 & H)|H]; [left|right; exact H]. exists s, j.
    eauto 10 using client_end_grown, acc_grown.
Qed.

Lemma server_at_other a t g g' j o : grown a g g' -> srv g <> a -> server_at t g j o -> server_at t g' j o.
Proof.
  intros Hg Hne. unfold server_at. destruct (gr_gone _ _ _ Hg) as [->|[? _]]; [|contradiction].
  destruct (gone g); [auto|].
  intros (s & Ho & H1 & H2 & H3 & H4 & H5 & H6 & H7 & H8). exists s. split; [exact Ho|]. unfold server_end.
  rewrite (gr_cl _ _ _ Hg), (gr_num _ _ _ Hg), (gr_srv _ _ _ Hg). do 4 (split; [assumption|]).
  do 2 (split; [eapply ep_is_grown; eassumption|]). split; [assumption|]. intros Hp. apply H8. intros Hup. apply Hp.
  destruct (gr_ph _ _ _ Hg) as [E|[_ E]]; congruence.
Qed.

Lemma rpc_ok_other a b G G' r : a <> b -> evolves a G G' -> rpc_ok G None b r -> rpc_ok G' None b r.
Proof.
  intros Hne Hev [R1 R2 R3 R4 R5 R6 R7 R8 R9 R10 R11 R12].
  assert (forall t g', G' !! t = Some g' -> cl g' = b -> exists g, G !! t = Some g /\ grown a g g') as Hcl.
  { intros t g' H Hb. destruct (G !! t) as [g|] eqn:E.
    - destruct (ev_old _ _ _ Hev t g E) as (g2 & E2 & Hg). exists g. split; [reflexivity|]. congruence.
    - destruct (ev_new _ _ _ Hev t g' H E). congruence. }
  assert (forall t g' j, G' !! t = Some g' -> srv g' = b -> acc g' = Some j -> exists g, G !! t = Some g /\
    grown a g g' /\ acc g = Some j) as Hsrv.
  { intros t g' j H Hb Hj. destruct (G !! t) as [g|] eqn:E.
    - destruct (ev_old _ _ _ Hev t g E) as (g2 & E2 & Hg). exists g. replace g2 with g' in * by congruence.
      split; [reflexivity|]. split; [exact Hg|]. destruct Hg as [G1 G2 G3 G4 G5 [G6|[? ?]] G7]; congruence.
    - destruct (ev_new _ _ _ Hev t g' H E) as [_ [?|?]]; congruence. }
  split; auto.
  - intros t g' H Hb. destruct (Hcl t g' H Hb) as (g & E & Hg). pose proof (gr_cl _ _ _ Hg) as Ec.
    rewrite (gr_num _ _ _ Hg).
    destruct (R4 t g E ltac:(congruence)) as (? & ? & ?). split; [assumption|]. split; [|assumption].
    eapply client_at_other; [exact Hg|congruence|assumption].
  - intros t g' H Hb Hp. destruct (Hcl t g' H Hb) as (g & E & Hg). rewrite (gr_num _ _ _ Hg).
    pose proof (gr_cl _ _ _ Hg).
    apply (R5 t g E); [congruence|]. destruct (gr_ph _ _ _ Hg) as [?|[? ?]]; congruence.
  - intros t g' j H Hb Hj. destruct (Hsrv t g' j H Hb Hj) as (g & E & Hg & Ej). pose proof (gr_srv _ _ _ Hg).
    destruct (R6 t g j E ltac:(congruence) Ej) as (? & ? & ?). split; [assumption|]. split; [assumption|].
    eapply server_at_other; [exact Hg|congruence|assumption].
  - intros t j H. destruct (R7 t j H) as (g & E & Eb & Ej). destruct (ev_old _ _ _ Hev t g E) as (g' & E' & Hg).
    exists g'. split; [exact E'|]. split; [rewrite (gr_srv _ _ _ Hg); exact Eb|eapply acc_grown; eassumption].
  - intros i s H. specialize (R9 i s H). destruct (role_ s).
    + destruct R9 as (g & E & Eb & Ej). destruct (ev_old _ _ _ Hev _ g E) as (g' & E' & Hg). exists g'.
      split; [exact E'|].
      split; [rewrite (gr_srv _ _ _ Hg); exact Eb|eapply acc_grown; eassumption].
    + destruct R9 as (g & E & Eb & Ej). destruct (ev_old _ _ _ Hev _ g E) as (g' & E' & Hg). exists g'.
      split; [exact E'|].
      rewrite (gr_cl _ _ _ Hg), (gr_num _ _ _ Hg). auto.
  - intros e He. destruct (R10 e He) as (t & g & E & Eb & En). destruct (ev_old _ _ _ Hev t g E) as (g' & E' & Hg).
    exists t, g'.
    rewrite (gr_cl _ _ _ Hg), (gr_num _ _ _ Hg). auto.
  - intros p Hp. destruct (R11 p Hp). split; [eapply pkt_ok_evolves; eassumption|assumption].
  - intros p Hp. eapply pkt_ok_evolves; [eassumption|auto].
Qed.

(** ** Changes of one object *)

(** Whose entry this is. *)
Lemma entry_client G h a r t g s : rpc_ok G h a r -> G !! t = Some g -> cl g = a -> entry r (num g) = Some (Some s) ->
  uniq_token_ s = t /\ role_ s = kClient.
Proof.
  intros HR Hg Ha Hs. destruct (ro_client _ _ _ _ HR t g Hg Ha) as (_ & Hc & _). unfold client_at in Hc.
  rewrite Hs in Hc.
  destruct (ph g); [destruct Hc as (s' & [= <-] & He & _)|destruct Hc as (s' & j & [= <-] & He & _)| |destruct Hc;
    discriminate].
  3: destruct Hc as [(s' & j & [= <-] & He & _)|[? _]]; [|discriminate].
  all: destruct He as (? & ? & _); auto.
Qed.

Lemma entry_server G h a r t g j s : rpc_ok G h a r -> G !! t = Some g -> srv g = a -> acc g = Some j ->
  entry r j = Some (Some s) -> uniq_token_ s = t /\ role_ s = kServer.
Proof.
  intros HR Hg Ha Hj Hs. destruct (ro_server _ _ _ _ HR t g j Hg Ha Hj) as (_ & _ & Hc). unfold server_at in Hc.
  rewrite Hs in Hc.
  destruct (gone g); [discriminate|]. destruct Hc as (s' & [= <-] & He). destruct He as (? & ? & _). auto.
Qed.

Lemma entry_local G h a r i s : rpc_ok G h a r -> session_vec_ r !! i = Some (Some s) ->
  local_session_num_ s = Z.of_nat i.
Proof.
  intros HR Hs. pose proof (ro_role _ _ _ _ HR i s Hs) as Hrole. destruct (role_ s).
  - destruct Hrole as (g & Hg & Ha & Hj). destruct (ro_server _ _ _ _ HR _ g _ Hg Ha Hj) as (_ & _ & Hat).
    unfold server_at in Hat.
    rewrite Nat2Z.id, Hs in Hat. destruct (gone g); [discriminate|].
    destruct Hat as (s1 & [= <-] & _ & _ & _ & ? & _). assumption.
  - destruct Hrole as (g & Hg & Ha & Hn). destruct (ro_client _ _ _ _ HR _ g Hg Ha) as (_ & Hc & _).
    unfold client_at in Hc. rewrite Hn, Nat2Z.id, Hs in Hc.
    destruct (ph g); [destruct Hc as (s1 & [= <-] & He & _)|destruct Hc as (s1 & j & [= <-] & He & _)| |destruct Hc;
      discriminate].
    3: destruct Hc as [(s1 & j & [= <-] & He & _)|[? _]]; [|discriminate].
    all: destruct He as (_ & _ & ? & _); congruence.
Qed.

(** The entry [i] belongs to no session but that of [t]. *)
Definition sole (G : history) (a : addr) (t : Z) (i : nat) : Prop :=
  forall t' g', t' <> t -> G !! t' = Some g' ->
    (cl g' = a -> num g' <> Z.of_nat i) /\ (srv g' = a -> acc g' <> Some (Z.of_nat i)).

Lemma sole_live G h a r i s : rpc_ok G h a r -> session_vec_ r !! i = Some (Some s) -> sole G a (uniq_token_ s) i.
Proof.
  intros HR Hs t' g' Hne Hg. split.
  - intros Ha Hn. destruct (entry_client _ _ _ _ t' g' s HR Hg Ha); [rewrite Hn, Nat2Z.id; exact Hs|congruence].
  - intros Ha Hn. destruct (entry_server _ _ _ _ t' g' _ s HR Hg Ha Hn); [rewrite Nat2Z.id; exact Hs|congruence].
Qed.

Lemma sole_end G h a r t : rpc_ok G h a r -> sole G a t (length (session_vec_ r)).
Proof.
  intros HR t' g' Hne Hg. split.
  - intros Ha Hn. destruct (ro_client _ _ _ _ HR t' g' Hg Ha) as ([_ Hlt] & _). lia.
  - intros Ha Hn. destruct (ro_server _ _ _ _ HR t' g' _ Hg Ha Hn) as (_ & [_ Hlt] & _). lia.
Qed.

(** What a change must leave alone, outside of entry [i] and token [t]. *)
Record touches (i : nat) (t : Z) (r r' : Rpc) : Prop := {
  to_addr : addr_of r' = addr_of r;
  to_vec k : k <> i -> session_vec_ r' !! k = session_vec_ r !! k;
  to_length : (length (session_vec_ r) <= length (session_vec_ r'))%nat;
  to_reports n : n <> Z.of_nat i -> reports n r' = reports n r;
  to_events e : e ∈ sm_events r' -> e ∈ sm_events r \/ Sessions.ev_session e = Z.of_nat i;
  to_map t' : t' <> t -> conn_req_token_map_ r' !! t' = conn_req_token_map_ r !! t';
  to_sent p : p ∈ udp_sent r -> p ∈ udp_sent r';
  to_queue p : p ∈ sm_rx_queue_ r' -> p ∈ sm_rx_queue_ r;
  to_pending n : n <> Z.of_nat i -> n ∈ sm_pending_reqs_ r' <-> n ∈ sm_pending_reqs_ r
}.

Lemma num_ok_grows i t r r' n : touches i t r r' -> num_ok n r -> num_ok n r'.
Proof. intros HT. pose proof (to_length _ _ _ _ HT). unfold num_ok. lia. Qed.

Lemma entry_same i t r r' n : touches i t r r' -> 0 <= n -> n <> Z.of_nat i -> entry r' n = entry r n.
Proof. intros HT H0 Hn. apply (to_vec _ _ _ _ HT). lia. Qed.

(** The change of one session's history together with what belongs to it. *)
Lemma ok_change G h h' a r r' t g' i :
  rpc_ok G h a r -> evolves a G (<[t := g']> G) -> touches i t r r' -> sole G a t i ->
  (i < length (session_vec_ r'))%nat -> Z.of_nat (length (session_vec_ r')) <= 65535 ->
  ring_entries_available_ r' + kSessionCredits * Z.of_nat (live (session_vec_ r')) = kNumRxRingEntries ->
  (forall n, n <> Z.of_nat i -> h = Some n -> h' = Some n) ->
  (sm_events r' = sm_events r \/ cl g' = a /\ num g' = Z.of_nat i) ->
  (forall p, p ∈ udp_sent r' -> p ∈ udp_sent r \/ pkt_ok (<[t := g']> G) p) ->
  (cl g' = a -> num_ok (num g') r' /\ client_at t g' (entry r' (num g')) (reports (num g') r') /\
    t ∈ map pkt_token_ (udp_sent r') /\
     (ph g' = Opening -> num g' ∈ sm_pending_reqs_ r' \/ h' = Some (num g'))) ->
  (forall j, srv g' = a -> acc g' = Some j -> conn_req_token_map_ r' !! t = Some j /\ num_ok j r' /\
    server_at t g' j (entry r' j)) ->
  (forall j, conn_req_token_map_ r' !! t = Some j -> srv g' = a /\ acc g' = Some j) ->
  (forall s, session_vec_ r' !! i = Some (Some s) -> uniq_token_ s = t /\
     match role_ s with kClient => cl g' = a /\ num g' = Z.of_nat i | kServer => srv g' = a /\
       acc g' = Some (Z.of_nat i) end) ->
  rpc_ok (<[t := g']> G) h' a r'.
Proof.
  intros HR Hev HT Hsole Hi Hb Hring Hh Hevs Hsent Hcl Hsrv Hmap Hrole.
  pose proof HR as [R1 R2 R3 R4 R5 R6 R7 R8 R9 R10 R11 R12].
  split; [rewrite (to_addr _ _ _ _ HT); exact R1|exact Hb|exact Hring| | | | | | | | |].
  - intros t1 g1 H1 Ha. destruct (decide (t1 = t)) as [->|Hne].
    { rewrite lookup_insert_eq in H1. injection H1 as <-. destruct (Hcl Ha) as (? & ? & ? & _). auto. }
    rewrite lookup_insert_ne in H1 by congruence. destruct (R4 t1 g1 H1 Ha) as (Hn & Hc & Ht).
    destruct (Hsole t1 g1 Hne H1) as [Hni _]. specialize (Hni Ha). split; [eapply num_ok_grows; eassumption|].
    rewrite (entry_same _ _ _ _ _ HT) by (unfold num_ok in Hn; tauto). rewrite (to_reports _ _ _ _ HT) by exact Hni.
    split; [exact Hc|]. apply list_elem_of_In, in_map_iff in Ht as (p & <- & Hp).
    apply elem_of_map_intro, (to_sent _ _ _ _ HT), list_elem_of_In, Hp.
  - intros t1 g1 H1 Ha Hp. destruct (decide (t1 = t)) as [->|Hne].
    { rewrite lookup_insert_eq in H1. injection H1 as <-. destruct (Hcl Ha) as (_ & _ & _ & H). auto. }
    rewrite lookup_insert_ne in H1 by congruence. destruct (Hsole t1 g1 Hne H1) as [Hni _]. specialize (Hni Ha).
    destruct (R5 t1 g1 H1 Ha Hp) as [H|H]; [left; apply (to_pending _ _ _ _ HT); assumption|right; apply Hh;
      assumption].
  - intros t1 g1 j H1 Ha Hj. destruct (decide (t1 = t)) as [->|Hne].
    { rewrite lookup_insert_eq in H1. injection H1 as <-. auto. }
    rewrite lookup_insert_ne in H1 by congruence. destruct (R6 t1 g1 j H1 Ha Hj) as (Hm & Hn & Hs).
    destruct (Hsole t1 g1 Hne H1) as [_ Hni]. specialize (Hni Ha). rewrite (to_map _ _ _ _ HT) by congruence.
    split; [exact Hm|]. split; [eapply num_ok_grows; eassumption|].
    rewrite (entry_same _ _ _ _ _ HT); [exact Hs|unfold num_ok in Hn; tauto|congruence].
  - intros t1 j H1. destruct (decide (t1 = t)) as [->|Hne].
    { exists g'. rewrite lookup_insert_eq. destruct (Hmap j H1). auto. }
    rewrite (to_map _ _ _ _ HT) in H1 by congruence. destruct (R7 t1 j H1) as (g & H). exists g.
    rewrite lookup_insert_ne by congruence. exact H.
  - intros n Hn. destruct (decide (n = Z.of_nat i)) as [->|Hne]; [unfold num_ok; lia|].
    eapply num_ok_grows; [exact HT|]. apply R8, (to_pending _ _ _ _ HT); assumption.
  - intros k s Hs. destruct (decide (k = i)) as [->|Hne].
    + destruct (Hrole s Hs) as [<- H]. destruct (role_ s); exists g'; rewrite lookup_insert_eq; auto.
    + rewrite (to_vec _ _ _ _ HT) in Hs by exact Hne. specialize (R9 k s Hs).
      destruct (role_ s); destruct R9 as (g & Hg & Ha & Hk); destruct (ev_old _ _ _ Hev _ g Hg) as (g2 & E2 & Hgr);
        exists g2;
        (split; [exact E2|]); rewrite ?(gr_srv _ _ _ Hgr), ?(gr_cl _ _ _ Hgr), ?(gr_num _ _ _ Hgr);
          eauto using acc_grown.
  - intros e He. assert (e ∈ sm_events r \/ cl g' = a /\ num g' = Sessions.ev_session e) as [H|H].
    { destruct Hevs as [<-|[Hc Hn]]; [auto|]. destruct (to_events _ _ _ _ HT e He) as [H| ->]; auto. }
    + destruct (R10 e H) as (t1 & g1 & H1 & Ha & Hn). destruct (ev_old _ _ _ Hev t1 g1 H1) as (g2 & E2 & Hgr).
      exists t1, g2.
      rewrite (gr_cl _ _ _ Hgr), (gr_num _ _ _ Hgr). auto.
    + exists t, g'. rewrite lookup_insert_eq. destruct H. auto.
  - intros p Hp. destruct (R11 p (to_queue _ _ _ _ HT p Hp)). split; [eapply pkt_ok_evolves; eassumption|assumption].
  - intros p Hp. destruct (Hsent p Hp) as [H|H]; [|exact H]. eapply pkt_ok_evolves; [eassumption|auto].
Qed.

(** Packets, and requests that are noted or removed. *)
Lemma ok_send G h a r p : rpc_ok G h a r -> pkt_ok G p -> rpc_ok G h a (set_logs (p :: udp_sent r) (sm_events r) r).
Proof.
  intros [R1 R2 R3 R4 R5 R6 R7 R8 R9 R10 R11 R12] Hp. split; auto.
  - intros t g Hg Ha. destruct (R4 t g Hg Ha) as (? & ? & ?). split; [assumption|]. split; [assumption|]. cbn. right.
    assumption.
  - cbn. intros q [->|Hq]%elem_of_cons; auto.
Qed.

Lemma ok_note G h h' a r s : rpc_ok G h a r -> (forall n, n ∈ sm_pending_reqs_ r -> n ∈ s) ->
  (forall n, n ∈ s -> num_ok n r) ->
  (forall n, h = Some n -> h' = Some n \/ n ∈ s) -> rpc_ok G h' a (set_pending s r).
Proof.
  intros [R1 R2 R3 R4 R5 R6 R7 R8 R9 R10 R11 R12] Hs Hn Hh. split; auto.
  cbn. intros t g Hg Ha Hp. destruct (R5 t g Hg Ha Hp) as [H|H]; [left; auto|]. destruct (Hh _ H); auto.
Qed.

Lemma ok_remove G a r n : rpc_ok G None a r -> rpc_ok G (Some n) a (set_pending (sm_pending_reqs_ r ∖ {[n]}) r).
Proof.
  intros [R1 R2 R3 R4 R5 R6 R7 R8 R9 R10 R11 R12]. split; auto.
  - cbn. intros t g Hg Ha Hp. destruct (R5 t g Hg Ha Hp) as [H|H]; [|discriminate].
    destruct (decide (num g = n)) as [->|Hne]; [right; reflexivity|left; set_solver].
  - cbn. intros m Hm. apply R8. set_solver.
Qed.

(** A removed request that no waiting session needs. *)
Lemma ok_fill G a r n : rpc_ok G (Some n) a r -> (forall t g, G !! t = Some g -> cl g = a -> num g = n ->
  ph g <> Opening) -> rpc_ok G None a r.
Proof.
  intros [R1 R2 R3 R4 R5 R6 R7 R8 R9 R10 R11 R12] Hn. split; auto.
  intros t g Hg Ha Hp. destruct (R5 t g Hg Ha Hp) as [H|[= H]]; [left; exact H|]. exfalso.
  apply (Hn t g Hg Ha); congruence.
Qed.

Lemma ok_queue G h a r q : rpc_ok G h a r -> (forall p, p ∈ q -> pkt_ok G p /\ destination p = a) ->
  rpc_ok G h a (set_rx_queue q r).
Proof. intros [R1 R2 R3 R4 R5 R6 R7 R8 R9 R10 R11 R12] Hq. split; auto. Qed.

End ErpcSmInv.
