(* ===== verification/ErpcSmStep.v ===== *)
(** * Every operation of session management keeps the invariant

    One lemma per operation of [ErpcSm]: from a state in which [ErpcSmInv.rpc_ok] holds the operation
    runs to its end, without a failed assertion, to such a state. *)

From Stdlib Require Import ZArith Lia.
From stdpp Require Import base numbers list gmap sorting.
From S2P Require Import Prelude Sessions ErpcSm ErpcSmInv.
Open Scope Z_scope.

Module ErpcSmStep.
Export ErpcSmInv.
Local Open Scope m_scope.

(** ** Sessions that hold ring entries *)

Lemma live_snoc v s : live (v ++ [Some s]) = S (live v).
Proof. unfold live. rewrite omap_app, length_app. cbn. lia. Qed.

Lemma live_bury v i s : v !! i = Some (Some s) -> live v = S (live (<[i := None]> v)).
Proof.
  unfold live. revert i. induction v as [|o v IH]; intros [|i] H; try discriminate H.
  - injection H as ->. reflexivity.
  - change ((o :: v) !! S i) with (v !! i) in H. specialize (IH i H). cbn [insert list_insert].
    destruct o; cbn in IH |- *; rewrite IH; reflexivity.
Qed.

Lemma live_alter v i f : live (alter (fmap f) i v) = live v.
Proof.
  unfold live. revert i. induction v as [|o v IH]; intros [|i]; try reflexivity.
  - destruct o; reflexivity.
  - specialize (IH i). destruct o; cbn in IH |- *; rewrite IH; reflexivity.
Qed.

Lemma live_pos v i s : v !! i = Some (Some s) -> (0 < live v)%nat.
Proof. intros H. rewrite (live_bury v i s H). lia. Qed.

(** ** What an operation leaves behind *)

Definition kept (G : history) (a : addr) (r' : Rpc) : Prop :=
  exists G', evolves a G G' /\ histories_ok G' /\ rpc_ok G' None a r'.

(** ... with at most one session more. *)
Definition stepped (G : history) (a : addr) (r r' : Rpc) : Prop :=
  kept G a r' /\ (length (session_vec_ r') <= S (length (session_vec_ r)))%nat.

Lemma kept_same G a r' : histories_ok G -> rpc_ok G None a r' -> kept G a r'.
Proof. intros. exists G. auto using evolves_refl. Qed.

Lemma histories_insert G t g : histories_ok G -> conn_ok g -> histories_ok (<[t := g]> G).
Proof. intros HG Hg t' g' [[_ <-]|[_ H]]%lookup_insert_Some; eauto. Qed.

Lemma endpoint_eqb_true e e' g b n : ep_is e g b n -> ep_is e' g b n -> endpoint_eqb e e' = true.
Proof.
  intros (A1 & A2 & A3) (B1 & B2 & B3). unfold ep_addr in *.
  assert (hostname_ e = hostname_ e' /\ sm_udp_port_ e = sm_udp_port_ e' /\
    ep_rpc_id_ e = ep_rpc_id_ e') as (E1 & E2 & E3)
    by (rewrite <- B2 in A2; injection A2; auto).
  unfold endpoint_eqb. rewrite A1, B1, E2, E3, A3, B3, !Z.eqb_refl, bool_decide_true by exact E1. reflexivity.
Qed.

Lemma no_reports G h a r n : rpc_ok G h a r -> ~ num_ok n r -> reports n r = [].
Proof.
  intros HR Hn. unfold reports. destruct (filter _ _) as [|e l] eqn:E; [reflexivity|]. exfalso.
  assert (e ∈ filter (fun e => Sessions.ev_session e = n) (sm_events r)) as He by (rewrite E; left).
  apply list_elem_of_filter in He as [<- He]. destruct (ro_reports _ _ _ _ HR e He) as (t & g & Hg & Ha & En).
  apply Hn. rewrite <- En. apply (ro_client _ _ _ _ HR t g Hg Ha).
Qed.

(** ** Creating a session *)

(** A name that fits its field. *)
Definition name_ok (h : bytes) : Prop := no_nul h /\ h <> [] /\ (length h < kMaxHostnameLen)%nat.

Definition opened_session (r : Rpc) (token : Z) (host : bytes) (port id : Z) : Session :=
  let n := Z.of_nat (length (session_vec_ r)) in
  {| role_ := kClient; uniq_token_ := token; state_ := SessionState.kConnectInProgress;
     client_ := {| transport_type_ := transport_type r; hostname_ := nexus_hostname_ r;
       sm_udp_port_ := nexus_sm_udp_port_ r;
                   ep_rpc_id_ := rpc_id_ r; session_num_ := n; routing_info_ := local_routing_info r |};
     server_ := {| transport_type_ := transport_type r; hostname_ := host; sm_udp_port_ := port;
                   ep_rpc_id_ := id; session_num_ := kInvalidSessionNum; routing_info_ := [] |};
     local_session_num_ := n; remote_session_num_ := None; slots_settled := true |}.

Definition opened_rpc (r : Rpc) (s : Session) : Rpc :=
  set_logs (sm_request s :: udp_sent r) (sm_events r)
    (set_pending ({[local_session_num_ s]} ∪ sm_pending_reqs_ r)
      (set_session_vec (session_vec_ r ++ [Some s]) (set_ring (ring_entries_available_ r - kSessionCredits) r))).

Lemma strcpy_ok h r : name_ok h -> strcpy_hostname h r = Done (h, r).
Proof.
  intros (Hn & _ & Hl). unfold strcpy_hostname. rewrite (c_str_id h Hn). apply Nat.ltb_lt in Hl. rewrite Hl.
  reflexivity.
Qed.

(** The session is refused, with an error and no effect, or opened. *)
Lemma create_session_run r token uri id host port :
  extract_hostname_from_uri uri = Done host -> extract_udp_port_from_uri uri = Done port ->
  name_ok host -> name_ok (nexus_hostname_ r) -> Z.of_nat (length (session_vec_ r)) < 65535 ->
  create_session_st token uri id r =
    if bool_decide ((host, port, id) = addr_of r) then Done (- EINVAL, r)
    else if have_ring_entries r then Done (Z.of_nat (length (session_vec_ r)), opened_rpc r (opened_session r token host port id))
    else Done (- ENOMEM, r).
Proof.
  intros Hh Hp Hhost Hown Hlen. pose proof Hhost as (_ & Hne & Hl). unfold create_session_st.
  unfold bind at 1. rewrite Hh. cbn [run ret]. unfold bind at 1. rewrite Hp. cbn [run ret]. unfold bind at 1.
  cbn [gets].
  destruct (Nat.eqb_spec (length host) 0) as [E|_]; [apply length_zero_iff_nil in E; contradiction|].
  destruct (Nat.ltb_spec kMaxHostnameLen (length host)); [lia|]. cbn [orb].
  replace (bool_decide (host = nexus_hostname_ r) && (id =? rpc_id_ r) && (port =? nexus_sm_udp_port_ r))
    with (bool_decide ((host, port, id) = addr_of r)).
  2: { unfold addr_of. case_bool_decide as E; [injection E as -> -> ->; rewrite bool_decide_true, !Z.eqb_refl;
    reflexivity|].
       case_bool_decide as E1; [|reflexivity].
       destruct (Z.eqb_spec id (rpc_id_ r)), (Z.eqb_spec port (nexus_sm_udp_port_ r)); cbn; congruence. }
  case_bool_decide; [reflexivity|]. destruct (have_ring_entries r) eqn:Hr; [|reflexivity]. cbn [negb].
  assert (u16 (Z.of_nat (length (session_vec_ r))) = Z.of_nat (length (session_vec_ r))) as Eu
    by (apply Z.mod_small; lia).
  unfold bind at 1. rewrite strcpy_ok by exact Hown. unfold bind at 1. rewrite strcpy_ok by exact Hhost.
  unfold bind at 1, alloc_ring_entries. unfold bind at 1. cbn [gets]. rewrite Hr. rewrite Eu. reflexivity.
Qed.

Lemma ok_create G a r token host port id :
  rpc_ok G None a r -> histories_ok G -> G !! token = None -> (host, port, id) <> a -> have_ring_entries r = true ->
  Z.of_nat (length (session_vec_ r)) < 65535 -> 0 <= a.2 <= kMaxRpcId -> 0 <= id <= kMaxRpcId ->
  kept G a (opened_rpc r (opened_session r token host port id)).
Proof.
  intros HR HG Ht Hne Hring Hlen Ha Hid. pose proof (ro_addr _ _ _ _ HR) as Haddr.
  set (n := length (session_vec_ r)) in *. set (s := opened_session r token host port id).
  set (g := {| cl := a; num := Z.of_nat n; srv := (host, port, id); trans := transport_type r; ph := Opening;
    acc := None; gone := false |}).
  assert (reports (Z.of_nat n) r = []) as Hrep.
  { apply (no_reports _ _ _ _ _ HR). unfold num_ok. lia. }
  exists (<[token := g]> G). split; [apply evolves_fresh; auto|].
  split; [apply histories_insert; [exact HG|]; repeat split; cbn; try congruence; lia|].
  eapply (ok_change G None None a r _ token g n); cbn; [exact HR|apply evolves_fresh; auto| |eapply sole_end;
    exact HR|..].
  - split; cbn; auto.
    + intros k Hk. rewrite lookup_app. destruct (session_vec_ r !! k) eqn:E; [reflexivity|].
      apply lookup_ge_None in E.
      apply lookup_ge_None. cbn. unfold n in Hk. lia.
    + rewrite length_app. lia.
    + intros p Hp. right. exact Hp.
    + intros m Hm. fold n. set_solver.
  - rewrite length_app. cbn. lia.
  - rewrite length_app. cbn. lia.
  - rewrite live_snoc. pose proof (ro_ring _ _ _ _ HR). lia.
  - auto.
  - auto.
  - intros p [->|Hp]%elem_of_cons; [right|left; exact Hp]. exists g. cbn. rewrite lookup_insert_eq.
    repeat split; auto.
  - intros _. rewrite Nat2Z.id, lookup_app_r, Nat.sub_diag by lia.
    split; [split; cbn; rewrite ?length_app; cbn; lia|].
    split; [|split; [left; reflexivity|intros _; left; set_solver]]. exists s. split; [reflexivity|].
    split; [repeat split; cbn; auto|].
    split; [reflexivity|]. split; [reflexivity|exact Hrep].
  - discriminate.
  - intros j Hj. destruct (ro_map _ _ _ _ HR token j Hj) as (g0 & H0 & _). congruence.
  - intros s0. fold n. rewrite lookup_app_r, Nat.sub_diag by lia. intros [= <-]. repeat split.
Qed.

(** ** Connect requests *)

Lemma resp_failed G p q e : pkt_ok G p -> pkt_type_ p = kConnectReq -> sm_construct_resp p e = Done q -> e <> kNoError ->
  pkt_ok G q.
Proof.
  intros (g & Hg & Hc & Ht & Hs & _) Hp Hq He. unfold sm_construct_resp in Hq. rewrite Hp in Hq. cbn in Hq.
  injection Hq as <-.
  exists g. cbn. split_and!; auto. contradiction.
Qed.

Lemma wp_refuse G a r p e : rpc_ok G None a r -> histories_ok G -> pkt_ok G p -> pkt_type_ p = kConnectReq ->
  e <> kNoError ->
  wp (respond p e) (fun _ r' => stepped G a r r') r.
Proof.
  intros HR HG Hp Ht He. unfold respond.
  destruct (sm_construct_resp p e) as [q|] eqn:Eq; [|unfold sm_construct_resp in Eq; rewrite Ht in Eq; discriminate].
  apply wp_bind, wp_ret, wp_modify. split; [|cbn; lia]. apply kept_same; [exact HG|].
  apply ok_send; [exact HR|eapply resp_failed; eassumption].
Qed.

Section Handlers.
Context (resolve : bytes -> option bytes).

(** The server takes a session for a token that it has not seen. *)
Definition accepted_session (r : Rpc) (p : SmPkt) (client_rinfo : bytes) : Session :=
  let n := Z.of_nat (length (session_vec_ r)) in
  {| role_ := kServer; uniq_token_ := pkt_token_ p; state_ := SessionState.kConnected;
     client_ := with_routing client_rinfo (pkt_client_ p);
     server_ := with_routing (local_routing_info r) (with_num n (pkt_server_ p));
     local_session_num_ := n; remote_session_num_ := Some (session_num_ (pkt_client_ p)); slots_settled := true |}.

Definition connected_resp (p : SmPkt) (s : Session) : SmPkt :=
  {| pkt_type_ := kConnectResp; err_type_ := kNoError; pkt_token_ := pkt_token_ p; pkt_client_ := pkt_client_ p;
    pkt_server_ := server_ s |}.

Definition accepting_rpc (r : Rpc) (p : SmPkt) (s : Session) : Rpc :=
  set_logs (connected_resp p s :: udp_sent r) (sm_events r)
    (set_session_vec (session_vec_ r ++ [Some s])
      (set_ring (ring_entries_available_ r - kSessionCredits)
        (set_token_map (<[pkt_token_ p := local_session_num_ s]> (conn_req_token_map_ r)) r))).

Lemma ok_accept G a r p rinfo : rpc_ok G None a r -> histories_ok G -> pkt_ok G p -> pkt_type_ p = kConnectReq ->
  destination p = a ->
  conn_req_token_map_ r !! pkt_token_ p = None -> Z.of_nat (length (session_vec_ r)) < 65535 ->
  kept G a (accepting_rpc r p (accepted_session r p rinfo)).
Proof.
  intros HR HG Hp Ht Hd Hm Hlen. destruct Hp as (g & Hg & Hc & Htr & Hs & Hpk). rewrite Ht in Hpk.
  destruct Hpk as [Herr Hinv].
  unfold destination in Hd. rewrite Ht in Hd. cbn in Hd. change (ep_addr (pkt_server_ p) = a) in Hd.
  assert (srv g = a) as Hsrv by congruence.
  assert (acc g = None) as Hacc.
  { destruct (acc g) as [j|] eqn:E; [|reflexivity]. destruct (ro_server _ _ _ _ HR _ g j Hg Hsrv E). congruence. }
  destruct (HG _ g Hg) as (Hne & Hgone & Hph & Hcid & Hsid). destruct (Hph Hacc) as [Hup Hcl].
  assert (gone g = false) as Hg0 by (destruct (gone g); [exfalso; auto|reflexivity]).
  set (n := length (session_vec_ r)) in *. set (s := accepted_session r p rinfo). set (g' := set_acc (Z.of_nat n) g).
  assert (evolves a G (<[pkt_token_ p := g']> G)) as Hev by (eapply evolves_insert; [exact Hg|]; split; cbn; auto).
  exists (<[pkt_token_ p := g']> G). split; [exact Hev|].
  split; [apply histories_insert; [exact HG|]; repeat split; cbn; auto; try discriminate; lia|].
  assert (server_end (pkt_token_ p) g' (Z.of_nat n) s) as Hend.
  { destruct Hc as (C1 & C2 & C3). repeat split; cbn; auto; congruence. }
  eapply (ok_change G None None a r _ (pkt_token_ p) g' n); [exact HR|exact Hev| |eapply sole_end; exact HR|..].
  - split; cbn; auto.
    + intros k Hk. rewrite lookup_app. destruct (session_vec_ r !! k) eqn:E; [reflexivity|].
      apply lookup_ge_None in E.
      apply lookup_ge_None. cbn. unfold n in Hk. lia.
    + rewrite length_app. lia.
    + intros t' Ht'. apply lookup_insert_ne. congruence.
    + intros q Hq. right. exact Hq.
  - cbn. rewrite length_app. cbn. lia.
  - cbn. rewrite length_app. cbn. lia.
  - cbn [accepting_rpc set_logs set_session_vec session_vec_ set_ring set_token_map ring_entries_available_].
    rewrite live_snoc. pose proof (ro_ring _ _ _ _ HR). lia.
  - auto.
  - auto.
  - intros q [->|Hq]%elem_of_cons; [right|left; exact Hq]. exists g'. cbn. rewrite lookup_insert_eq.
    destruct Hc as (C1 & C2 & C3). repeat split; auto.
  - cbn. intros Ha. congruence.
  - cbn. intros j _ [= <-]. split; [apply lookup_insert_eq|]. split; [split; cbn; rewrite ?length_app; cbn; lia|].
    rewrite Nat2Z.id, lookup_app_r, Nat.sub_diag by lia. unfold server_at. cbn. rewrite Hg0. exists s. auto.
  - cbn. intros j Hj. rewrite lookup_insert_eq in Hj. injection Hj as <-. auto.
  - cbn. intros s0. fold n. rewrite lookup_app_r, Nat.sub_diag by lia. intros [= <-]. cbn. auto.
Qed.

Lemma wp_connect_req G a r allocs p : rpc_ok G None a r -> histories_ok G -> pkt_ok G p -> pkt_type_ p = kConnectReq ->
  destination p = a ->
  Z.of_nat (length (session_vec_ r)) < 65535 -> wp (handle_connect_req_st resolve allocs p) (fun _ r' =>
    stepped G a r r') r.
Proof.
  intros HR HG Hp Ht Hd Hlen. unfold handle_connect_req_st. apply wp_bind, wp_gets. apply wp_bind, wp_assert.
  { rewrite bool_decide_true by exact Ht. apply Z.eqb_eq. unfold destination in Hd. rewrite Ht in Hd. cbn in Hd.
    pose proof (ro_addr _ _ _ _ HR) as Ha. unfold addr_of in Ha. congruence. }
  destruct (conn_req_token_map_ r !! pkt_token_ p) as [j|] eqn:Hm.
  - pose proof Hp as (g & Hg & Hc & Htr & Hs & Hpk). destruct (ro_map _ _ _ _ HR _ j Hm) as (g0 & H0 & Hsrv & Hj).
    replace g0 with g in * by congruence. destruct (ro_server _ _ _ _ HR _ g j Hg Hsrv Hj) as (_ & Hn & Hat).
    apply wp_bind, wp_assert; [apply Z.ltb_lt; apply Hn|]. apply wp_bind. unfold session_at. apply wp_bind, wp_gets.
    unfold server_at in Hat. destruct (gone g); [rewrite Hat|destruct Hat as (s & -> & He)]; apply wp_ret.
    { apply wp_ret. split; [apply kept_same; assumption|lia]. }
    destruct He as (E1 & E2 & E3 & E4 & E5 & E6 & E7 & E8). rewrite bool_decide_true by exact E3. cbn [negb].
    apply wp_bind. unfold sm_construct_resp. rewrite Ht. apply wp_ret, wp_modify. split; [|cbn; lia].
    apply kept_same; [exact HG|]. apply ok_send; [exact HR|]. destruct E6 as (F1 & F2 & F3).
    exists g. cbn. split_and!; auto; congruence.
  - destruct (transport_type_ (pkt_server_ p) =? transport_type r); cbn [negb];
      [|apply wp_refuse; auto; discriminate].
    destruct (have_ring_entries r) eqn:Hring; cbn [negb]; [|apply wp_refuse; auto; discriminate].
    destruct (resolve _) as [rinfo|]; [|apply wp_refuse; auto; discriminate].
    destruct (allocs <? kSessionReqWindow)%nat; [apply wp_refuse; auto; discriminate|].
    assert (u16 (Z.of_nat (length (session_vec_ r))) = Z.of_nat (length (session_vec_ r))) as ->
      by (apply Z.mod_small; lia).
    apply wp_bind, wp_modify. apply wp_bind. unfold alloc_ring_entries. apply wp_bind, wp_gets.
    apply wp_bind, wp_assert; [exact Hring|].
    apply wp_modify. apply wp_bind, wp_modify. apply wp_bind. unfold sm_construct_resp. rewrite Ht.
    apply wp_ret, wp_modify.
    split; [exact (ok_accept G a r p rinfo HR HG Hp Ht Hd Hm Hlen)|]. cbn. rewrite length_app. cbn. lia.
Qed.

(** ** Responses to the client *)

Lemma reports_other n r r' e : sm_events r' = sm_events r ++ [e] -> Sessions.ev_session e <> n ->
  reports n r' = reports n r.
Proof. intros He Hn. unfold reports. rewrite He, filter_app, filter_cons_False by exact Hn. apply app_nil_r. Qed.

Lemma reports_same n r r' e : sm_events r' = sm_events r ++ [e] -> Sessions.ev_session e = n -> reports n r = [] ->
  reports n r' = [e].
Proof. intros He Hn H0. unfold reports in *. rewrite He, filter_app, H0, filter_cons_True by exact Hn. reflexivity.
Qed.

(** The client's session takes a step that ends its opening. *)
Lemma ok_phase G a r r' t g p' : rpc_ok G (Some (num g)) a r -> histories_ok G -> G !! t = Some g -> cl g = a ->
  ph g = Opening ->
  p' <> Opening -> (acc g = None -> p' = Failed) ->
  touches (Z.to_nat (num g)) t r r' -> length (session_vec_ r') = length (session_vec_ r) ->
  conn_req_token_map_ r' = conn_req_token_map_ r ->
  ring_entries_available_ r' + kSessionCredits * Z.of_nat (live (session_vec_ r')) = kNumRxRingEntries ->
  (forall p, p ∈ udp_sent r' -> p ∈ udp_sent r \/ pkt_ok (<[t := set_ph p' g]> G) p) ->
  client_at t (set_ph p' g) (entry r' (num g)) (reports (num g) r') ->
  (forall s, entry r' (num g) = Some (Some s) -> uniq_token_ s = t /\ role_ s = kClient) ->
  kept G a r'.
Proof.
  intros HR HG Hg Ha Ho Hp' Hacc HT Hlen Hmap Hring Hsent Hat Hrole.
  destruct (ro_client _ _ _ _ HR t g Hg Ha) as (Hn & Hc & Htok).
  destruct (HG t g Hg) as (Hne & Hgone & Hph & Hcid & Hsid).
  assert (gone g = false) as Hg0 by (destruct (gone g); [specialize (Hgone eq_refl); congruence|reflexivity]).
  assert (evolves a G (<[t := set_ph p' g]> G)) as Hev by (eapply evolves_insert; [exact Hg|]; split; cbn; auto).
  exists (<[t := set_ph p' g]> G). split; [exact Hev|]. split.
  { apply histories_insert; [exact HG|]. split_and!; cbn; auto; try lia.
    - congruence.
    - intros HN. rewrite (Hacc HN). split; discriminate. }
  assert (exists s, session_vec_ r !! Z.to_nat (num g) = Some (Some s) /\ uniq_token_ s = t) as (s0 & Hs0 & <-).
  { unfold client_at in Hc. rewrite Ho in Hc. destruct Hc as (s0 & E0 & He & _). exists s0.
    destruct He as (_ & ? & _). auto. }
  eapply (ok_change G (Some (num g)) None a r r' _ (set_ph p' g) (Z.to_nat (num g)));
    [exact HR|exact Hev|exact HT| | | |exact Hring| | |exact Hsent|..].
  - eapply sole_live; eassumption.
  - unfold num_ok in Hn. lia.
  - pose proof (ro_bound _ _ _ _ HR). lia.
  - intros n Hni [= <-]. unfold num_ok in Hn. lia.
  - right. split; [exact Ha|]. cbn. unfold num_ok in Hn. lia.
  - cbn. intros _. split; [unfold num_ok in *; lia|]. split; [exact Hat|]. split; [|contradiction].
    apply list_elem_of_In, in_map_iff in Htok as (p & E & Hp). rewrite <- E.
    apply elem_of_map_intro, (to_sent _ _ _ _ HT), list_elem_of_In, Hp.
  - cbn. intros j Hs. congruence.
  - intros j Hj. rewrite Hmap in Hj. destruct (ro_map _ _ _ _ HR _ j Hj) as (g0 & H0 & Hs & _). exfalso. congruence.
  - intros s Hs. destruct (Hrole s Hs) as [E ->]. split; [exact E|]. cbn. unfold num_ok in Hn. split; [exact Ha|lia].
Qed.

Definition failed_rpc (r : Rpc) (n : Z) (ok : bool) (t : Sessions.SmEventType) : Rpc :=
  set_session_vec (<[Z.to_nat n := None]> (session_vec_ r))
    (set_logs (udp_sent r) (sm_events r ++ [report n t ok]) (set_ring (ring_entries_available_ r + kSessionCredits) r)).

Lemma touches_failed r n ok t tok : 0 <= n -> touches (Z.to_nat n) tok r (failed_rpc r n ok t).
Proof.
  intros H0. split; cbn; auto.
  - intros k Hk. apply list_lookup_insert_ne. congruence.
  - rewrite length_insert. lia.
  - intros m Hm. eapply reports_other; [reflexivity|cbn; lia].
  - intros e [He| ->%list_elem_of_singleton]%elem_of_app; [auto|]. right. cbn. lia.
Qed.

Lemma entry_failed r n ok t : num_ok n r -> entry (failed_rpc r n ok t) n = Some None.
Proof. unfold num_ok. intros Hn. cbn. apply list_lookup_insert_eq. lia. Qed.

Lemma ring_free G h a r n s : rpc_ok G h a r -> entry r n = Some (Some s) ->
  ring_entries_available_ r + kSessionCredits <= kNumRxRingEntries.
Proof.
  intros HR Hs. pose proof (ro_ring _ _ _ _ HR) as Hr. rewrite (live_bury _ _ _ Hs) in Hr.
  unfold kSessionCredits in *. lia.
Qed.

Lemma ring_failed G h a r n ok t s : rpc_ok G h a r -> entry r n = Some (Some s) ->
  ring_entries_available_ (failed_rpc r n ok t) + kSessionCredits * Z.of_nat (live (session_vec_ (failed_rpc r n ok t))) = kNumRxRingEntries.
Proof. intros HR Hs. pose proof (ro_ring _ _ _ _ HR) as Hr. cbn. rewrite (live_bury _ _ _ Hs) in Hr.
unfold kSessionCredits in *. lia. Qed.

Lemma ok_failed G a r t g s : rpc_ok G (Some (num g)) a r -> histories_ok G -> G !! t = Some g -> cl g = a ->
  ph g = Opening ->
  entry r (num g) = Some (Some s) -> kept G a (failed_rpc r (num g) false Sessions.kConnectFailed).
Proof.
  intros HR HG Hg Ha Ho Hs. destruct (ro_client _ _ _ _ HR t g Hg Ha) as (Hn & Hc & _).
  unfold client_at in Hc. rewrite Ho in Hc. destruct Hc as (s0 & _ & _ & _ & _ & Hev).
  eapply (ok_phase G a r _ t g Failed HR HG Hg Ha Ho); [discriminate|reflexivity|apply touches_failed, Hn| |
    reflexivity|eapply ring_failed; eassumption| | |].
  - cbn. apply length_insert.
  - auto.
  - split; [apply entry_failed, Hn|]. eapply reports_same; [reflexivity..|exact Hev].
  - intros s1. rewrite entry_failed by exact Hn. discriminate.
Qed.

Definition connected_rpc (r : Rpc) (n : Z) (f : Session -> Session) : Rpc :=
  set_logs (udp_sent r) (sm_events r ++ [report n Sessions.kConnected true])
    (set_session_vec (alter (fmap f) (Z.to_nat n) (session_vec_ r)) r).

Lemma entry_alter r n (f : Session -> Session) s : entry r n = Some (Some s) ->
  alter (fmap f) (Z.to_nat n) (session_vec_ r) !! Z.to_nat n = Some (Some (f s)).
Proof. intros Hs. rewrite list_lookup_alter_eq, Hs. reflexivity. Qed.

Lemma ok_connected G a r t g s j f : rpc_ok G (Some (num g)) a r -> histories_ok G -> G !! t = Some g -> cl g = a ->
  ph g = Opening ->
  entry r (num g) = Some (Some s) -> acc g = Some j -> client_end t g (f s) ->
    state_ (f s) = SessionState.kConnected ->
  session_num_ (server_ (f s)) = j -> remote_session_num_ (f s) = Some j ->
  kept G a (connected_rpc r (num g) f).
Proof.
  intros HR HG Hg Ha Ho Hs Hj He Hst Hsn Hrem. destruct (ro_client _ _ _ _ HR t g Hg Ha) as (Hn & Hc & _).
  unfold client_at in Hc. rewrite Ho in Hc. destruct Hc as (s0 & _ & _ & _ & _ & Hev).
  pose proof (entry_alter r (num g) f s Hs) as Hf.
  eapply (ok_phase G a r _ t g Up HR HG Hg Ha Ho); [discriminate|congruence| | |reflexivity| | | |].
  - split; cbn; auto.
    + intros k Hk. apply list_lookup_alter_ne. congruence.
    + rewrite length_alter. lia.
    + intros m Hm. eapply reports_other; [reflexivity|unfold num_ok in Hn; cbn; lia].
    + intros e [H| ->%list_elem_of_singleton]%elem_of_app; [auto|]. right. unfold num_ok in Hn. cbn. lia.
  - apply length_alter.
  - cbn. rewrite live_alter. apply (ro_ring _ _ _ _ HR).
  - auto.
  - exists (f s), j. split_and!; auto. eapply reports_same; [reflexivity..|exact Hev].
  - cbn. rewrite Hf. intros s1 [= <-]. destruct He as (? & ? & _). auto.
Qed.

Definition closing_rpc (r : Rpc) (n : Z) (s : Session) : Rpc :=
  set_logs (sm_request s :: udp_sent r) (sm_events r)
    (set_pending ({[n]} ∪ sm_pending_reqs_ r) (set_session_vec (alter (fmap (fun _ =>
      s)) (Z.to_nat n) (session_vec_ r)) r)).

Lemma ok_closing G a r t g s s' j : rpc_ok G (Some (num g)) a r -> histories_ok G -> G !! t = Some g -> cl g = a ->
  ph g = Opening ->
  entry r (num g) = Some (Some s) -> acc g = Some j -> client_end t g s' ->
    state_ s' = SessionState.kDisconnectInProgress ->
  session_num_ (server_ s') = j ->
  kept G a (closing_rpc r (num g) s').
Proof.
  intros HR HG Hg Ha Ho Hs Hj He Hst Hsn. destruct (ro_client _ _ _ _ HR t g Hg Ha) as (Hn & Hc & _).
  unfold client_at in Hc. rewrite Ho in Hc. destruct Hc as (s0 & _ & _ & _ & _ & Hev).
  pose proof (entry_alter r (num g) (fun _ => s') s Hs) as Hf.
  eapply (ok_phase G a r _ t g Closing HR HG Hg Ha Ho); [discriminate|congruence| | |reflexivity| | | |].
  - split; cbn; auto.
    + intros k Hk. apply list_lookup_alter_ne. congruence.
    + rewrite length_alter. lia.
    + intros p Hp. right. exact Hp.
    + intros m Hm. unfold num_ok in Hn. rewrite elem_of_union, elem_of_singleton.
      split; [intros [?|?]; [lia|assumption]|auto].
  - apply length_alter.
  - cbn. rewrite live_alter. apply (ro_ring _ _ _ _ HR).
  - cbn. intros p [->|Hp]%elem_of_cons; [right|auto]. destruct He as (E1 & E2 & E3 & E4 & E5 & E6).
    exists (set_ph Closing g). cbn.
    rewrite E2, lookup_insert_eq, bool_decide_false by congruence. split_and!; auto. congruence.
  - left. exists s', j. auto 10.
  - cbn. rewrite Hf. intros s1 [= <-]. destruct He as (? & ? & _). auto.
Qed.

(** A session whose entry is not that of a waiting client. *)
Lemma ok_fill_entry G a r n : rpc_ok G (Some n) a r ->
  (forall s, entry r n = Some (Some s) -> state_ s <> SessionState.kConnectInProgress) -> rpc_ok G None a r.
Proof.
  intros HR Hs. eapply ok_fill; [exact HR|]. intros t g Hg Ha Hn Ho.
  destruct (ro_client _ _ _ _ HR t g Hg Ha) as (_ & Hc & _).
  unfold client_at in Hc. rewrite Ho in Hc. destruct Hc as (s & E & _ & Hst & _). rewrite Hn in E. exact (Hs s E Hst).
Qed.

Lemma client_dest p a : destination p = a -> sm_pkt_type_is_req (pkt_type_ p) = false -> ep_addr (pkt_client_ p) = a.
Proof. intros Hd Ht. unfold destination in Hd. rewrite Ht in Hd. exact Hd. Qed.

Lemma server_dest p a : destination p = a -> sm_pkt_type_is_req (pkt_type_ p) = true -> ep_addr (pkt_server_ p) = a.
Proof. intros Hd Ht. unfold destination in Hd. rewrite Ht in Hd. exact Hd. Qed.

Lemma my_id G h a r e : rpc_ok G h a r -> ep_addr e = a -> (ep_rpc_id_ e =? rpc_id_ r) = true.
Proof. intros HR He. apply Z.eqb_eq. pose proof (ro_addr _ _ _ _ HR) as Ha. unfold addr_of, ep_addr in *. congruence.
Qed.

(** Freeing, reporting and burying. *)
Lemma wp_take_down r n s ok t e (Q : unit -> Rpc -> Prop) :
  entry r n = Some (Some s) -> local_session_num_ s = n -> bool_decide (e = kNoError) = ok ->
  ring_entries_available_ r + kSessionCredits <= kNumRxRingEntries -> Q tt (failed_rpc r n ok t) ->
  wp (free_ring_entries ;;; sm_handler_ (local_session_num_ s) t e ;;; bury_session_st s) Q r.
Proof.
  intros Hs Hn <- Hr HQ. apply wp_bind. unfold free_ring_entries. apply wp_bind, wp_gets. apply wp_bind, wp_modify.
  apply wp_assert; [apply Z.leb_le, Hr|].
  apply wp_bind, wp_modify. unfold bury_session_st. apply wp_bind, wp_gets. cbn [set_logs set_ring session_vec_].
  rewrite Hn. apply lookup_lt_Some, Nat.ltb_lt in Hs. rewrite Hs. apply wp_modify. exact HQ.
Qed.

Lemma wp_connect_resp G a r retry p : rpc_ok G (Some (session_num_ (pkt_client_ p))) a r -> histories_ok G ->
  pkt_ok G p ->
  pkt_type_ p = kConnectResp -> destination p = a ->
  wp (handle_connect_resp_st resolve retry p) (fun _ r' => stepped G a r r') r.
Proof.
  intros HR HG Hp Ht Hd. apply client_dest in Hd; [|rewrite Ht; reflexivity].
  destruct Hp as (g & Hg & (C1 & C2 & C3) & Htr & Hsa & Hpk).
  rewrite Ht in Hpk. assert (cl g = a) as Ha by congruence.
  destruct (ro_client _ _ _ _ HR _ g Hg Ha) as (Hn & Hc & _).
  rewrite C3 in HR. unfold handle_connect_resp_st. apply wp_bind, wp_gets. apply wp_bind, wp_assert.
  { rewrite bool_decide_true by exact Ht. exact (my_id _ _ _ _ _ HR Hd). }
  rewrite C3. apply wp_bind, wp_assert; [apply Z.ltb_lt, Hn|]. apply wp_bind. unfold session_at.
  apply wp_bind, wp_gets.
  destruct (entry r (num g)) as [o|] eqn:Eo; [|apply lookup_ge_None in Eo; unfold num_ok in Hn; lia]. apply wp_ret.
  destruct o as [s|]; [|apply wp_ret; split; [|lia]; apply kept_same; [exact HG|]; eapply ok_fill_entry;
    [exact HR|congruence]].
  case_bool_decide as Hst; cbn [negb].
  2: { apply wp_ret. split; [|lia]. apply kept_same; [exact HG|]. eapply ok_fill_entry; [exact HR|]. intros s1.
  rewrite Eo. intros [= <-]. exact Hst. }
  destruct (waiting_client _ _ _ _ Hc Hst) as (Ho & He & Hinv).
  pose proof He as (E1 & E2 & E3 & E4 & E5 & E6).
  apply wp_bind, wp_assert; [rewrite bool_decide_true by exact E1; eapply endpoint_eqb_true;
    [exact E4|repeat split; assumption]|].
  assert (ep_addr (server_ s) = ep_addr (pkt_server_ p)) as Hsame by congruence. unfold ep_addr in Hsame.
  injection Hsame as S1 S2 S3.
  apply wp_bind, wp_assert; [apply bool_decide_true, S1|]. apply wp_bind, wp_assert; [apply Z.eqb_eq, S3|].
  apply wp_bind, wp_assert; [apply Z.eqb_eq, Hinv|].
  destruct (bool_decide (err_type_ p = kInvalidRemoteRpcId) && retry).
  { apply wp_modify. rewrite E3. split; [|cbn; lia]. apply kept_same; [exact HG|].
    eapply ok_note; [exact HR|set_solver| |].
    - intros n. rewrite elem_of_union, elem_of_singleton.
      intros [->|Hm]; [exact Hn|exact (ro_pending _ _ _ _ HR n Hm)].
    - intros n [= <-]. right. set_solver. }
  case_bool_decide as Herr; cbn [negb].
  - specialize (Hpk Herr). destruct (resolve _) as [rinfo|].
    + apply wp_bind, wp_modify, wp_modify. rewrite E3. split; [|cbn; rewrite length_alter; lia].
      eapply (ok_connected G a r (pkt_token_ p) g s (session_num_ (pkt_server_ p))); try eassumption; try reflexivity.
      destruct E4 as (? & ? & ?). repeat split; cbn; assumption.
    + apply wp_bind, wp_modify. unfold send_sm_req_st. apply wp_bind, wp_modify, wp_modify.
      cbn [local_session_num_ set_state set_server]. rewrite E3.
      split; [|cbn; rewrite length_alter; lia].
      eapply (ok_closing G a r (pkt_token_ p) g s _ (session_num_ (pkt_server_ p))); try eassumption; try reflexivity.
      destruct E4 as (? & ? & ?). repeat split; cbn; assumption.
  - eapply wp_take_down; [exact Eo|exact E3|apply bool_decide_false, Herr|eapply ring_free; [exact HR|exact Eo]|].
    split; [|cbn; rewrite length_insert; lia]. eapply ok_failed; eassumption.
Qed.

(** ** Taking a session down *)

Lemma wp_disconnect_resp G a r p : rpc_ok G (Some (session_num_ (pkt_client_ p))) a r -> histories_ok G ->
  pkt_ok G p ->
  pkt_type_ p = kDisconnectResp -> destination p = a ->
  wp (handle_disconnect_resp_st p) (fun _ r' => stepped G a r r') r.
Proof.
  intros HR HG Hp Ht Hd. apply client_dest in Hd; [|rewrite Ht; reflexivity].
  destruct Hp as (g & Hg & (C1 & C2 & C3) & Htr & Hsa & Hpk).
  rewrite Ht in Hpk. destruct Hpk as (Herr & Hacc & Hcl & Hgone). assert (cl g = a) as Ha by congruence.
  destruct (ro_client _ _ _ _ HR _ g Hg Ha) as (Hn & Hc & Htok). rewrite C3 in HR. unfold client_at in Hc.
  rewrite Hcl in Hc.
  unfold handle_disconnect_resp_st. apply wp_bind, wp_gets. apply wp_bind, wp_assert.
  { rewrite bool_decide_true by exact Ht. exact (my_id _ _ _ _ _ HR Hd). }
  apply wp_bind, wp_assert; [apply bool_decide_true, Herr|].
  rewrite C3. apply wp_bind, wp_assert; [apply Z.ltb_lt, Hn|]. apply wp_bind. unfold session_at.
  apply wp_bind, wp_gets.
  destruct Hc as [(s & j & Eo & He & Hst & Hj & Hsn & Hev)|[Eo Hev]]; rewrite Eo; apply wp_ret.
  2: { apply wp_ret. split; [|lia]. apply kept_same; [exact HG|]. eapply ok_fill_entry; [exact HR|congruence]. }
  pose proof He as (E1 & E2 & E3 & E4 & E5 & E6).
  apply wp_bind, wp_assert; [apply bool_decide_true, E1|]. apply wp_bind, wp_assert; [apply bool_decide_true, Hst|].
  apply wp_bind, wp_assert; [eapply endpoint_eqb_true; [exact E4|repeat split; assumption]|].
  apply wp_bind, wp_assert; [eapply (endpoint_eqb_true _ _ g (srv g) j); repeat split; congruence|].
  eapply wp_take_down; [exact Eo|exact E3|reflexivity|eapply ring_free; [exact HR|exact Eo]|].
  split; [|cbn; rewrite length_insert; lia]. rewrite <- E2 in Hg, Htok. exists (<[uniq_token_ s := g]> G).
  assert (evolves a G (<[uniq_token_ s := g]> G)) as Hevo by (eapply evolves_insert; [exact Hg|apply history_refl]).
  split; [exact Hevo|]. split; [apply histories_insert; [exact HG|exact (HG _ _ Hg)]|].
  eapply (ok_change G _ None a r _ _ g (Z.to_nat (num g))); [exact HR|exact Hevo|apply touches_failed, Hn|
    eapply sole_live; eassumption|..].
  - cbn. rewrite length_insert. unfold num_ok in Hn. lia.
  - cbn. rewrite length_insert. apply (ro_bound _ _ _ _ HR).
  - eapply ring_failed; [exact HR|exact Eo].
  - intros n Hne [= <-]. unfold num_ok in Hn. lia.
  - right. split; [exact Ha|]. unfold num_ok in Hn. lia.
  - auto.
  - intros _. split; [unfold num_ok in *; cbn; rewrite length_insert; lia|]. split; [|split; [exact Htok|congruence]].
    unfold client_at. rewrite Hcl. right. split; [apply entry_failed, Hn|].
    eapply reports_same; [reflexivity..|exact Hev].
  - intros j' Hs. destruct (HG _ _ Hg) as (? & _). congruence.
  - intros j' Hj'. destruct (ro_map _ _ _ _ HR _ _ Hj') as (g0 & H0 & Hs & _). destruct (HG _ _ Hg) as (? & _).
    congruence.
  - intros s1. rewrite entry_failed by exact Hn. discriminate.
Qed.

Definition disconnected_rpc (r : Rpc) (n : Z) (q : SmPkt) : Rpc :=
  set_session_vec (<[Z.to_nat n := None]> (session_vec_ r))
    (set_logs (q :: udp_sent r) (sm_events r) (set_ring (ring_entries_available_ r + kSessionCredits) r)).

Lemma disconnect_resp_ok G p q g : G !! pkt_token_ p = Some g -> ep_is (pkt_client_ p) g (cl g) (num g) ->
  transport_type_ (pkt_server_ p) = trans g -> ep_addr (pkt_server_ p) = srv g ->
    acc g = Some (session_num_ (pkt_server_ p)) ->
  ph g = Closing -> gone g = true -> pkt_type_ p = kDisconnectReq -> sm_construct_resp p kNoError = Done q ->
    pkt_ok G q.
Proof.
  intros Hg Hc Ht Hs Ha Hp Hgone Hty Hq. unfold sm_construct_resp in Hq. rewrite Hty in Hq. injection Hq as <-.
  exists g. cbn. auto 10.
Qed.

Lemma ok_disconnected G a r p q g s : rpc_ok G None a r -> histories_ok G -> G !! pkt_token_ p = Some g ->
  srv g = a ->
  ep_is (pkt_client_ p) g (cl g) (num g) -> transport_type_ (pkt_server_ p) = trans g ->
    ep_addr (pkt_server_ p) = srv g ->
  acc g = Some (session_num_ (pkt_server_ p)) -> ph g = Closing -> pkt_type_ p = kDisconnectReq ->
    sm_construct_resp p kNoError = Done q ->
  entry r (session_num_ (pkt_server_ p)) = Some (Some s) ->
  kept G a (disconnected_rpc r (session_num_ (pkt_server_ p)) q).
Proof.
  intros HR HG Hg Ha Hc Ht Hs Hj Hp Hty Hq Eo. set (j := session_num_ (pkt_server_ p)) in *.
  set (t := pkt_token_ p) in *.
  destruct (ro_server _ _ _ _ HR t g j Hg Ha Hj) as (Hm & Hn & _).
  destruct (entry_server _ _ _ _ t g j s HR Hg Ha Hj Eo) as [Etok _].
  destruct (HG t g Hg) as (Hne & Hgone & Hacc & Hcid & Hsid). pose proof (lookup_lt_Some _ _ _ Eo) as Hlt.
  assert (evolves a G (<[t := set_gone g]> G)) as Hev by (eapply evolves_insert; [exact Hg|]; split; cbn; auto).
  exists (<[t := set_gone g]> G). split; [exact Hev|].
  split; [apply histories_insert; [exact HG|]; split_and!; cbn; auto; lia|].
  eapply (ok_change G None None a r _ t (set_gone g) (Z.to_nat j));
    [exact HR|exact Hev| |rewrite <- Etok; eapply sole_live; eassumption|..].
  - split; cbn; auto.
    + intros k Hk. apply list_lookup_insert_ne. congruence.
    + rewrite length_insert. lia.
    + intros p0 Hp0. right. exact Hp0.
  - cbn. rewrite length_insert. exact Hlt.
  - cbn. rewrite length_insert. apply (ro_bound _ _ _ _ HR).
  - cbn. pose proof (ro_ring _ _ _ _ HR) as Hr. rewrite (live_bury _ _ _ Eo) in Hr. unfold kSessionCredits in *. lia.
  - auto.
  - auto.
  - cbn. intros p0 [->|Hp0]%elem_of_cons; [right|auto]. eapply (disconnect_resp_ok _ p q (set_gone g)); auto.
    apply lookup_insert_eq.
  - cbn. congruence.
  - cbn. intros j' _ Hj'. replace j' with j by congruence. split; [exact Hm|].
    split; [unfold num_ok in *; cbn; rewrite length_insert; exact Hn|].
    unfold server_at. cbn. apply list_lookup_insert_eq, Hlt.
  - cbn. intros j' Hj'. split; [exact Ha|]. congruence.
  - cbn. intros s1. rewrite list_lookup_insert_eq by exact Hlt. discriminate.
Qed.

Lemma wp_disconnect_req G a r p : rpc_ok G None a r -> histories_ok G -> pkt_ok G p -> pkt_type_ p = kDisconnectReq ->
  destination p = a ->
  wp (handle_disconnect_req_st p) (fun _ r' => stepped G a r r') r.
Proof.
  intros HR HG Hp Ht Hd. apply server_dest in Hd; [|rewrite Ht; reflexivity].
  destruct Hp as (g & Hg & Hc & Htr & Hsa & Hpk).
  rewrite Ht in Hpk. destruct Hpk as (Herr & Hacc & Hcl). assert (srv g = a) as Ha by congruence.
  destruct (ro_server _ _ _ _ HR _ g _ Hg Ha Hacc) as (Hm & Hn & Hat).
  assert (exists q, sm_construct_resp p kNoError = Done q) as [q Hq] by (unfold sm_construct_resp; rewrite Ht; eauto).
  unfold handle_disconnect_req_st. apply wp_bind, wp_gets. apply wp_bind, wp_assert.
  { rewrite bool_decide_true by exact Ht. exact (my_id _ _ _ _ _ HR Hd). }
  apply wp_bind, wp_assert; [apply Z.ltb_lt, Hn|]. apply wp_bind. unfold session_at. apply wp_bind, wp_gets.
  unfold server_at in Hat. destruct (gone g) eqn:Hgone; [rewrite Hat|destruct Hat as (s & Eo & He); rewrite Eo];
    apply wp_ret.
  { unfold respond. rewrite Hq. apply wp_bind, wp_ret, wp_modify. split; [|cbn; lia]. apply kept_same; [exact HG|].
    apply ok_send; [exact HR|].
    eapply disconnect_resp_ok; eassumption. }
  destruct He as (E1 & E2 & E3 & E4 & E5 & E6 & E7 & E8).
  apply wp_bind, wp_assert; [rewrite bool_decide_true by exact E1; apply bool_decide_true, E3|].
  apply wp_bind, wp_assert; [eapply endpoint_eqb_true; [exact E6|repeat split; assumption]|].
  apply wp_bind, wp_assert; [eapply endpoint_eqb_true; [exact E5|exact Hc]|].
  apply wp_bind, wp_assert; [apply E8; congruence|]. apply wp_bind. unfold free_ring_entries. apply wp_bind, wp_gets.
  apply wp_bind, wp_modify.
  apply wp_assert; [apply Z.leb_le; eapply ring_free; eassumption|]. unfold respond. rewrite Hq.
  apply wp_bind, wp_bind, wp_ret, wp_modify.
  unfold bury_session_st. apply wp_bind, wp_gets. cbn [set_logs set_ring session_vec_]. rewrite E4.
  pose proof (lookup_lt_Some _ _ _ Eo) as Hlt. apply Nat.ltb_lt in Hlt. rewrite Hlt. apply wp_modify.
  split; [|cbn; rewrite length_insert; lia].
  exact (ok_disconnected G a r p q g s HR HG Hg Ha Hc Htr Hsa Hacc Hcl Ht Hq Eo).
Qed.

(** ** The event loop *)

Lemma wp_sm_pkt G a r retry allocs p : rpc_ok G None a r -> histories_ok G -> pkt_ok G p -> destination p = a ->
  Z.of_nat (length (session_vec_ r)) < 65535 -> wp (handle_sm_pkt resolve retry allocs p) (fun _ r' =>
    stepped G a r r') r.
Proof.
  intros HR HG Hp Hd Hlen. pose proof Hp as (g & _ & _ & _ & _ & Hpk).
  pose proof (ok_remove G a r (session_num_ (pkt_client_ p)) HR) as HR'.
  unfold handle_sm_pkt. destruct (pkt_type_ p) eqn:Ht; try contradiction; cbn [sm_pkt_type_is_req].
  - apply wp_bind, wp_ret. apply wp_connect_req; assumption.
  - apply wp_bind, wp_modify. exact (wp_connect_resp G a _ retry p HR' HG Hp Ht Hd).
  - apply wp_bind, wp_ret. apply wp_disconnect_req; assumption.
  - apply wp_bind, wp_modify. exact (wp_disconnect_resp G a _ p HR' HG Hp Ht Hd).
Qed.

Lemma wp_sm_rx a retry allocs q : forall G r, rpc_ok G None a r -> histories_ok G ->
  (forall p, p ∈ q -> pkt_ok G p /\ destination p = a) -> Z.of_nat (length (session_vec_ r) + length q) <= 65535 ->
  wp (handle_sm_rx_st resolve retry allocs q) (fun _ r' => kept G a r') r.
Proof.
  induction q as [|p q IH]; intros G r HR HG Hq Hlen; cbn [handle_sm_rx_st].
  { apply wp_ret. apply kept_same; assumption. }
  cbn [length] in Hlen. apply wp_bind, wp_modify. destruct (Hq p) as [Hp Hd]; [left|].
  assert (rpc_ok G None a (set_rx_queue q r)) as HR1 by (apply ok_queue; [exact HR|intros p0 Hp0; apply Hq; right;
    exact Hp0]).
  apply wp_bind. eapply wp_mono; [apply (wp_sm_pkt G a (set_rx_queue q r) retry allocs p HR1 HG Hp Hd); cbn; lia|].
  intros [] r1 [(G1 & Hev & HG1 & HR2) Hl1]. cbn in Hl1. eapply wp_mono; [apply (IH G1 r1 HR2 HG1); [|lia]|].
  - intros p0 Hp0. destruct (Hq p0) as [? ?]; [right; exact Hp0|].
    split; [eapply pkt_ok_evolves; eassumption|assumption].
  - intros [] r2 (G2 & Hev2 & HG2 & HR3). exists G2. split; [eapply evolves_trans; eassumption|]. auto.
Qed.

(** A request is sent again for a session that waits. *)
Lemma resend_ok G h a r i s : rpc_ok G h a r -> session_vec_ r !! i = Some (Some s) ->
  state_ s = SessionState.kConnectInProgress \/ state_ s = SessionState.kDisconnectInProgress ->
  pkt_ok G (sm_request s) /\ local_session_num_ s = Z.of_nat i.
Proof.
  intros HR Hs Hst. pose proof (ro_role _ _ _ _ HR i s Hs) as Hrole. destruct (role_ s).
  - destruct Hrole as (g & Hg & Ha & Hj). destruct (ro_server _ _ _ _ HR _ g _ Hg Ha Hj) as (_ & _ & Hat).
    unfold server_at in Hat.
    rewrite Nat2Z.id, Hs in Hat. destruct (gone g); [discriminate|]. destruct Hat as (s1 & [= <-] & _ & _ & Hc & _).
    destruct Hst; congruence.
  - destruct Hrole as (g & Hg & Ha & Hn). destruct (ro_client _ _ _ _ HR _ g Hg Ha) as (_ & Hc & _).
    unfold client_at in Hc. rewrite Hn, Nat2Z.id, Hs in Hc. unfold pkt_ok, sm_request. cbn. destruct (ph g) eqn:Hph.
    + destruct Hc as (s1 & [= <-] & (E1 & E2 & E3 & E4 & E5 & E6) & Hcs & Hinv & _). split; [|congruence]. exists g.
      rewrite bool_decide_true by exact Hcs. auto 10.
    + destruct Hc as (s1 & j & [= <-] & _ & Hc & _). destruct Hst; congruence.
    + destruct Hc as [(s1 & j & [= <-] & (E1 & E2 & E3 & E4 & E5 & E6) & Hcs & Hj & Hsn & _)|[? _]]; [|discriminate].
      split; [|congruence]. exists g.
      rewrite bool_decide_false by congruence. split_and!; auto. congruence.
    + destruct Hc; discriminate.
Qed.

Lemma wp_sm_loss_scan G a timed_out ns : forall r, rpc_ok G None a r -> (forall n, n ∈ ns -> num_ok n r) ->
  wp (sm_loss_scan timed_out ns) (fun _ r' => rpc_ok G None a r' /\
    length (session_vec_ r') = length (session_vec_ r)) r.
Proof.
  induction ns as [|n ns IH]; intros r HR Hns; cbn [sm_loss_scan]; [apply wp_ret; auto|].
  assert (num_ok n r) as Hn by (apply Hns; left). apply wp_bind. unfold session_at. apply wp_bind, wp_gets.
  destruct (entry r n) as [o|] eqn:Eo; [|apply lookup_ge_None in Eo; unfold num_ok in Hn; lia]. apply wp_ret.
  assert (wp (sm_loss_scan timed_out ns) (fun _ r' => rpc_ok G None a r' /\
    length (session_vec_ r') = length (session_vec_ r)) r) as Hskip
    by (apply IH; [exact HR|intros m Hm; apply Hns; right; exact Hm]).
  destruct o as [s|]; [|apply wp_bind, wp_ret; exact Hskip].
  assert (state_ s = SessionState.kConnectInProgress \/ state_ s = SessionState.kDisconnectInProgress ->
    wp (when_ (timed_out n) (send_sm_req_st s) ;;; sm_loss_scan timed_out ns)
      (fun _ r' => rpc_ok G None a r' /\ length (session_vec_ r') = length (session_vec_ r)) r) as Hsend.
  { intros Hst. apply wp_bind, wp_when; [|intros _; exact Hskip]. intros _.
    destruct (resend_ok _ _ _ _ _ _ HR Eo Hst) as [Hp Hl].
    unfold send_sm_req_st. apply wp_bind, wp_modify, wp_modify.
    eapply wp_mono; [apply IH; [|intros m Hm; apply Hns; right; exact Hm]|auto].
    apply (ok_send G None a (set_pending _ r)); [|exact Hp]. eapply ok_note; [exact HR|set_solver| |discriminate].
    intros m. rewrite elem_of_union, elem_of_singleton.
    intros [->|Hm]; [rewrite Hl; unfold num_ok in *; lia|exact (ro_pending _ _ _ _ HR m Hm)]. }
  destruct (state_ s); first [apply Hsend; auto; fail|apply wp_bind, wp_ret; exact Hskip].
Qed.

Lemma wp_event_loop G a r retry allocs scan timed_out : rpc_ok G None a r -> histories_ok G ->
  Z.of_nat (length (session_vec_ r) + length (sm_rx_queue_ r)) <= 65535 ->
  wp (run_event_loop_do_one_st resolve retry allocs scan timed_out) (fun _ r' => kept G a r') r.
Proof.
  intros HR HG Hlen. unfold run_event_loop_do_one_st. apply wp_bind, wp_gets, wp_bind.
  eapply wp_mono; [apply (wp_sm_rx a retry allocs _ G r HR HG); [exact (ro_queue _ _ _ _ HR)|exact Hlen]|].
  intros [] r1 (G1 & Hev & HG1 & HR1). apply wp_when; [|intros _; exists G1; auto]. intros _. unfold pkt_loss_scan_st.
  apply wp_bind, wp_gets.
  eapply wp_mono; [apply (wp_sm_loss_scan G1 a timed_out _ r1 HR1)|].
  - intros n Hn. apply (ro_pending _ _ _ _ HR1). rewrite merge_sort_Permutation, elem_of_elements in Hn. exact Hn.
  - intros [] r2 [HR2 _]. exists G1. auto.
Qed.

End Handlers.

End ErpcSmStep.
