(* ===== verification/ErpcSmNet.v ===== *)
(** * Sessions over an unreliable network

    Any number of [Rpc] objects in any number of processes, with everything that can happen while
    sessions are made: objects are registered, sessions created, event loops turn, and management
    packets arrive late, out of order, several times or never.  No assertion fails, the two ends of
    a connected session belong to each other and to nobody else, and the program is told once what
    became of a session. *)

From Stdlib Require Import ZArith Lia.
From stdpp Require Import base numbers list gmap sorting strings.
From S2P Require Import Prelude Sessions ErpcSm ErpcSmInv ErpcSmStep.
Open Scope Z_scope.

Module ErpcSmNet.
Export ErpcSmStep.
Local Open Scope m_scope.

(** ** What can happen *)

(** [Data] is the data path at work on the slots of a server's session. *)
Inductive event :=
  | Register (transport : Z) (a : addr) (rinfo : bytes)
  | Create (a : addr) (token : Z) (uri : bytes) (id : Z)
  | Receive (p : SmPkt)
  | Turn (a : addr) (retry : bool) (allocs : nat) (scan : bool) (timed_out : Z -> bool)
  | Data (a : addr) (n : Z) (settled : bool).

Definition set_rpcs (m : gmap addr Rpc) (c : cluster) : cluster := {| rpcs := m; nexus_sent := nexus_sent c |}.

Definition at_rpc {A} (a : addr) (m : M Rpc A) (c : cluster) : outcome cluster :=
  match rpcs c !! a with
  | None => Fault NullDeref
  | Some r => match m r with Done (_, r') => Done (set_rpcs (<[a := r']> (rpcs c)) c) | Fault f => Fault f end
  end.

Definition set_settled (b : bool) (s : Session) : Session :=
  {| role_ := role_ s; uniq_token_ := uniq_token_ s; state_ := state_ s; client_ := client_ s; server_ := server_ s;
     local_session_num_ := local_session_num_ s; remote_session_num_ := remote_session_num_ s; slots_settled := b |}.

Section Net.
(** What the transport of an object makes of routing information. *)
Context (resolve : addr -> bytes -> option bytes).

Definition perform (e : event) (c : cluster) : outcome cluster :=
  match e with
  | Register t a i => Done (set_rpcs (<[a := new_Rpc t a.1.1 a.1.2 a.2 i]> (rpcs c)) c)
  | Create a token uri id => at_rpc a (create_session_st token uri id) c
  | Receive p => match sm_thread_func p c with Done (_, c') => Done c' | Fault f => Fault f end
  | Turn a retry allocs scan timed_out => at_rpc a (run_event_loop_do_one_st (resolve a) retry allocs scan timed_out) c
  | Data a n b => at_rpc a (upd_session n (set_settled b)) c
  end.

Definition sent (c : cluster) (p : SmPkt) : Prop :=
  (exists a r, rpcs c !! a = Some r /\ p ∈ udp_sent r) \/ p ∈ nexus_sent c.

(** A client's session and the end it leads to. *)
Definition client_session (c : cluster) (a : addr) (n : Z) (s : Session) : Prop :=
  exists r, rpcs c !! a = Some r /\ 0 <= n /\ entry r n = Some (Some s) /\ role_ s = kClient.

Definition server_session (c : cluster) (a : addr) (n : Z) (s : Session) : Prop :=
  exists r, rpcs c !! a = Some r /\ 0 <= n /\ entry r n = Some (Some s) /\ role_ s = kServer.

(** Tokens are random numbers that do not come twice; a URI names a host whose name fits its field;
    an object makes fewer than 65535 sessions; data flows on a session that is connected. *)
Definition enabled (c : cluster) (e : event) : Prop :=
  match e with
  | Register _ a _ => rpcs c !! a = None /\ name_ok a.1.1 /\ 0 <= a.2 <= kMaxRpcId
  | Create a token uri id => exists r host port, rpcs c !! a = Some r /\ Z.of_nat (length (session_vec_ r)) < 65535 /\
      (forall p, sent c p -> pkt_token_ p <> token) /\
      extract_hostname_from_uri uri = Done host /\ extract_udp_port_from_uri uri = Done port /\ name_ok host /\
        0 <= id <= kMaxRpcId
  | Receive p => sent c p
  | Turn a _ _ _ _ => exists r, rpcs c !! a = Some r /\
    Z.of_nat (length (session_vec_ r) + length (sm_rx_queue_ r)) <= 65535
  | Data a n _ => exists s s', server_session c a n s /\
    client_session c (ep_addr (client_ s)) (session_num_ (client_ s)) s' /\
      state_ s' = SessionState.kConnected
  end.

Inductive reach : cluster -> Prop :=
  | reach_none : reach {| rpcs := ∅; nexus_sent := [] |}
  | reach_step c e c' : reach c -> enabled c e -> perform e c = Done c' -> reach c'.

(** ** The invariant *)

Record cluster_ok (G : history) (c : cluster) : Prop := {
  co_histories : histories_ok G;
  co_rpc a r : rpcs c !! a = Some r -> rpc_ok G None a r /\ name_ok a.1.1 /\ 0 <= a.2 <= kMaxRpcId;
  co_client t g : G !! t = Some g -> is_Some (rpcs c !! cl g);
  co_server t g : G !! t = Some g -> acc g <> None -> is_Some (rpcs c !! srv g);
  co_nexus p : p ∈ nexus_sent c -> pkt_ok G p
}.

Lemma sent_ok G c p : cluster_ok G c -> sent c p -> pkt_ok G p.
Proof. intros HC [(a & r & Hr & Hp)|Hp]; [apply (ro_sent _ _ _ _ (proj1 (co_rpc _ _ HC a r Hr)) p Hp)|
  exact (co_nexus _ _ HC p Hp)]. Qed.

(** An operation of one object. *)
Lemma ok_put G c a r G' r' : cluster_ok G c -> rpcs c !! a = Some r -> evolves a G G' -> histories_ok G' ->
  rpc_ok G' None a r' ->
  cluster_ok G' (set_rpcs (<[a := r']> (rpcs c)) c).
Proof.
  intros HC Ha Hev HG' HR'.
  assert (forall b x, rpcs c !! b = Some x -> is_Some (<[a := r']> (rpcs c) !! b)) as Hstay
    by (intros b x Hb; destruct (decide (a = b)) as [->|]; [rewrite lookup_insert_eq|rewrite lookup_insert_ne
      by assumption]; eauto).
  assert (is_Some (<[a := r']> (rpcs c) !! a)) as Hself by (rewrite lookup_insert_eq; eauto).
  split; [exact HG'| | | |].
  - cbn. intros b x [[<- <-]|[Hne Hb]]%lookup_insert_Some; [destruct (co_rpc _ _ HC _ r Ha) as (_ & ?); auto|].
    destruct (co_rpc _ _ HC b x Hb) as (HR & ?). split; [|assumption]. eapply rpc_ok_other; eassumption.
  - cbn. intros t g' Hg'. destruct (G !! t) as [g|] eqn:E.
    + destruct (ev_old _ _ _ Hev t g E) as (g2 & E2 & Hgr). replace g2 with g' in * by congruence.
      rewrite (gr_cl _ _ _ Hgr).
      destruct (co_client _ _ HC t g E). eauto.
    + destruct (ev_new _ _ _ Hev t g' Hg' E) as [-> _]. exact Hself.
  - cbn. intros t g' Hg' Hacc. destruct (G !! t) as [g|] eqn:E.
    + destruct (ev_old _ _ _ Hev t g E) as (g2 & E2 & Hgr). replace g2 with g' in * by congruence.
      rewrite (gr_srv _ _ _ Hgr).
      destruct (gr_acc _ _ _ Hgr) as [Ea|[-> _]]; [|exact Hself]. rewrite Ea in Hacc.
      destruct (co_server _ _ HC t g E Hacc). eauto.
    + destruct (ev_new _ _ _ Hev t g' Hg' E) as [_ [?| ->]]; [congruence|exact Hself].
  - cbn. intros p Hp. eapply pkt_ok_evolves; [exact Hev|exact (co_nexus _ _ HC p Hp)].
Qed.

Lemma ok_at G c a r r' : cluster_ok G c -> rpcs c !! a = Some r -> kept G a r' ->
  exists G', evolves a G G' /\ cluster_ok G' (set_rpcs (<[a := r']> (rpcs c)) c).
Proof. intros HC Ha (G' & Hev & HG' & HR'). exists G'. split; [exact Hev|]. eapply ok_put; eassumption. Qed.

Lemma wp_one_rpc {A} G c a r (m : M Rpc A) : cluster_ok G c -> rpcs c !! a = Some r ->
  wp m (fun _ r' => kept G a r') r ->
  exists c' G', at_rpc a m c = Done c' /\ evolves a G G' /\ cluster_ok G' c'.
Proof.
  intros HC Ha Hm. apply wp_Done in Hm as (x & r' & Hrun & Hk).
  destruct (ok_at G c a r r' HC Ha Hk) as (G' & Hev & HC').
  eexists _, G'. unfold at_rpc. rewrite Ha, Hrun. auto.
Qed.

(** ** Steps *)

Lemma step_register G c t a i : cluster_ok G c -> rpcs c !! a = None -> name_ok a.1.1 -> 0 <= a.2 <= kMaxRpcId ->
  cluster_ok G (set_rpcs (<[a := new_Rpc t a.1.1 a.1.2 a.2 i]> (rpcs c)) c).
Proof.
  intros HC Ha Hn Hid. assert (forall b, is_Some (rpcs c !! b) ->
    is_Some (<[a := new_Rpc t a.1.1 a.1.2 a.2 i]> (rpcs c) !! b)) as Hstay.
  { intros b [x Hb]. rewrite lookup_insert_ne by congruence. eauto. }
  split; [apply HC| | | |apply HC]; cbn.
  - intros b x [[<- <-]|[Hne Hb]]%lookup_insert_Some; [|exact (co_rpc _ _ HC b x Hb)]. split; [|auto]. split; cbn.
    + unfold addr_of. destruct a as [[? ?] ?]. reflexivity.
    + lia.
    + reflexivity.
    + intros tok g Hg Hc. destruct (co_client _ _ HC tok g Hg) as [x Hx]. congruence.
    + intros tok g Hg Hc. destruct (co_client _ _ HC tok g Hg) as [x Hx]. congruence.
    + intros tok g j Hg Hc Hj. destruct (co_server _ _ HC tok g Hg ltac:(congruence)) as [x Hx]. congruence.
    + intros tok j Hj. rewrite lookup_empty in Hj. discriminate.
    + set_solver.
    + intros k s Hs. discriminate Hs.
    + intros e He. inversion He.
    + intros p Hp. inversion Hp.
    + intros p Hp. inversion Hp.
  - intros tok g Hg. apply Hstay, (co_client _ _ HC tok g Hg).
  - intros tok g Hg Hacc. apply Hstay, (co_server _ _ HC tok g Hg Hacc).
Qed.

Lemma step_create G c a token uri id : cluster_ok G c -> enabled c (Create a token uri id) ->
  exists c' G', perform (Create a token uri id) c = Done c' /\ evolves a G G' /\ cluster_ok G' c'.
Proof.
  intros HC (r & host & port & Ha & Hlen & Hfresh & Hh & Hp & Hname & Hid).
  destruct (co_rpc _ _ HC a r Ha) as (HR & Hown & Haid).
  pose proof (ro_addr _ _ _ _ HR) as Haddr.
  assert (nexus_hostname_ r = a.1.1) as Hnexus by (rewrite <- Haddr; reflexivity).
  eapply wp_one_rpc; [exact HC|exact Ha|]. unfold wp.
  rewrite (create_session_run r token uri id host port) by (try rewrite Hnexus; assumption).
  case_bool_decide as Hself; [apply kept_same; [apply HC|exact HR]|].
  destruct (have_ring_entries r) eqn:Hring; [|apply kept_same; [apply HC|exact HR]].
  apply ok_create; auto; [apply HC| |congruence]. destruct (G !! token) as [g|] eqn:Eg; [exfalso|reflexivity].
  destruct (co_client _ _ HC token g Eg) as [x Hx].
  destruct (ro_client _ _ _ _ (proj1 (co_rpc _ _ HC _ x Hx)) token g Eg eq_refl) as (_ & _ & Ht).
  apply list_elem_of_In, in_map_iff in Ht as (p & E & Hin).
  apply (Hfresh p); [left; exists (cl g), x; split; [exact Hx|apply list_elem_of_In, Hin]|exact E].
Qed.

Lemma step_receive G c p : cluster_ok G c -> sent c p ->
  exists c' G', perform (Receive p) c = Done c' /\ evolves (destination p) G G' /\ cluster_ok G' c'.
Proof.
  intros HC Hs. pose proof (sent_ok G c p HC Hs) as Hp. pose proof Hp as (g & Hg & (C1 & C2 & C3) & Htr & Hsa & Hpk).
  destruct (co_histories _ _ HC _ g Hg) as (Hne & Hgone & Hacc & Hcid & Hsid).
  destruct (destination p) as [[h pt] i] eqn:Hd. assert (i <= kMaxRpcId) as Hi.
  { unfold destination in Hd. unfold ep_addr in *. rewrite <- C2, <- Hsa in *. cbn in *.
    destruct (sm_pkt_type_is_req _); injection Hd; lia. }
  unfold perform, sm_thread_func. rewrite bool_decide_false by (intros E; rewrite E in Hpk; exact Hpk). rewrite Hd.
  destruct (Z.ltb_spec kMaxRpcId i); [lia|]. unfold bind at 1. cbn [gets].
  destruct (rpcs c !! (h, pt, i)) as [r|] eqn:Er.
  - destruct (co_rpc _ _ HC _ r Er) as (HR & Hname & Hid).
    destruct (ok_at G c _ r (set_rx_queue (sm_rx_queue_ r ++ [p]) r) HC Er) as (G' & Hev & HC').
    { apply kept_same; [apply HC|]. apply ok_queue; [exact HR|].
      intros q [Hq| ->%list_elem_of_singleton]%elem_of_app; [exact (ro_queue _ _ _ _ HR q Hq)|auto]. }
    eexists _, G'. split; [reflexivity|]. auto.
  - destruct (pkt_type_ p) eqn:Ht; try contradiction; cbn [sm_pkt_type_is_req].
    + unfold sm_construct_resp. rewrite Ht. eexists _, G. split; [reflexivity|]. split; [apply evolves_refl|].
      split; try apply HC. cbn.
      intros q [->|Hq]%elem_of_cons; [|exact (co_nexus _ _ HC q Hq)]. exists g. cbn. repeat split; auto. discriminate.
    + eexists _, G. split; [reflexivity|]. auto using evolves_refl.
    + exfalso. destruct Hpk as (_ & Hj & _). destruct (co_server _ _ HC _ g Hg ltac:(congruence)) as [x Hx].
      unfold destination in Hd. rewrite Ht in Hd. cbn in Hd. unfold ep_addr in Hsa. congruence.
    + eexists _, G. split; [reflexivity|]. auto using evolves_refl.
Qed.

Lemma step_turn G c a r retry allocs scan timed_out : cluster_ok G c -> rpcs c !! a = Some r ->
  Z.of_nat (length (session_vec_ r) + length (sm_rx_queue_ r)) <= 65535 ->
  exists c' G', perform (Turn a retry allocs scan timed_out) c = Done c' /\ evolves a G G' /\ cluster_ok G' c'.
Proof.
  intros HC Ha Hlen. eapply wp_one_rpc; [exact HC|exact Ha|].
  apply wp_event_loop; [apply (co_rpc _ _ HC a r Ha)|apply HC|exact Hlen].
Qed.

(** The slots of a session that both ends use. *)
Lemma ok_settled G a r n s b : rpc_ok G None a r -> entry r n = Some (Some s) -> 0 <= n -> role_ s = kServer ->
  (forall g, G !! uniq_token_ s = Some g -> ph g = Up) ->
    rpc_ok G None a (set_session_vec (alter (fmap (set_settled b)) (Z.to_nat n) (session_vec_ r)) r).
Proof.
  intros HR Hs H0 Hrole Hup. pose proof HR as [R1 R2 R3 R4 R5 R6 R7 R8 R9 R10 R11 R12].
  assert (forall k, alter (fmap (set_settled b)) (Z.to_nat n) (session_vec_ r) !! k =
    if decide (k = Z.to_nat n) then Some (Some (set_settled b s)) else session_vec_ r !! k) as Hk.
  { intros k. destruct (decide (k = Z.to_nat n)) as [->|Hne]; [rewrite list_lookup_alter_eq, Hs; reflexivity|
      apply list_lookup_alter_ne; congruence]. }
  assert (forall m, num_ok m r -> num_ok m (set_session_vec (alter (fmap (set_settled b)) (Z.to_nat n) (session_vec_ r)) r)) as Hnum
    by (intros m; unfold num_ok; cbn; rewrite length_alter; auto).
  split; cbn; rewrite ?length_alter, ?live_alter; auto.
  - intros t g Hg Ha. destruct (R4 t g Hg Ha) as (Hn & Hc & Ht). split; [auto|]. split; [|exact Ht]. rewrite Hk.
    destruct (decide (Z.to_nat (num g) = Z.to_nat n)) as [E|]; [|exact Hc].
    destruct (entry_client _ _ _ _ t g s HR Hg Ha); [congruence|congruence].
  - intros t g j Hg Ha Hj. destruct (R6 t g j Hg Ha Hj) as (Hm & Hn & Hc). split; [exact Hm|]. split; [auto|].
    rewrite Hk.
    destruct (decide (Z.to_nat j = Z.to_nat n)) as [E|]; [|exact Hc]. unfold server_at in *. rewrite E, Hs in Hc.
    destruct (gone g); [discriminate|].
    destruct Hc as (s1 & [= <-] & E1 & E2 & E3 & E4 & E5 & E6 & E7 & E8). exists (set_settled b s).
    split; [reflexivity|].
    repeat split; cbn; auto; try apply E5; try apply E6. intros Hp. exfalso. apply Hp, Hup. congruence.
  - intros i s1. rewrite Hk. destruct (decide (i = Z.to_nat n)) as [->|]; [|apply R9]. intros [= <-].
    exact (R9 _ s Hs).
Qed.

Lemma connected_up G h a r t g s : rpc_ok G h a r -> G !! t = Some g -> cl g = a -> entry r (num g) = Some (Some s) ->
  state_ s = SessionState.kConnected -> ph g = Up.
Proof.
  intros HR Hg Ha Hs Hst. destruct (ro_client _ _ _ _ HR t g Hg Ha) as (_ & Hc & _). unfold client_at in Hc.
  rewrite Hs in Hc. destruct (ph g); [|reflexivity|..].
  - destruct Hc as (s1 & [= <-] & _ & ? & _). congruence.
  - destruct Hc as [(s1 & j & [= <-] & _ & ? & _)|[? _]]; congruence.
  - destruct Hc; congruence.
Qed.

Lemma step_data G c a n b : cluster_ok G c -> enabled c (Data a n b) ->
  exists c' G', perform (Data a n b) c = Done c' /\ evolves a G G' /\ cluster_ok G' c'.
Proof.
  intros HC (s & s' & (r & Ha & Hn & Hs & Hrole) & (rc & Hrc & Hn' & Hs' & Hrole') & Hst).
  destruct (co_rpc _ _ HC a r Ha) as (HR & _).
  eapply wp_one_rpc; [exact HC|exact Ha|]. apply wp_modify. apply kept_same; [apply HC|].
  eapply ok_settled; try eassumption.
  intros g Hg. pose proof (ro_role _ _ _ _ HR _ s Hs) as Hr. rewrite Hrole in Hr.
  destruct Hr as (g0 & Hg0 & Hsrv & Hacc). replace g0 with g in * by congruence.
  destruct (ro_server _ _ _ _ HR _ g _ Hg Hsrv Hacc) as (_ & _ & Hat). unfold server_at in Hat.
  rewrite Nat2Z.id, Hs in Hat. destruct (gone g); [discriminate|].
  destruct Hat as (s1 & [= <-] & _ & _ & _ & _ & (_ & Ea & En) & _). rewrite Ea in Hrc. rewrite En in Hs'.
  eapply connected_up; [apply (co_rpc _ _ HC _ rc Hrc)|exact Hg|reflexivity|exact Hs'|exact Hst].
Qed.

Lemma step_ok G c e : cluster_ok G c -> enabled c e -> exists c' G' a, perform e c = Done c' /\ evolves a G G' /\
  cluster_ok G' c'.
Proof.
  intros HC He. destruct e as [t a i|a token uri id|p|a retry allocs scan timed_out|a n b].
  - destruct He as (Ha & Hn & Hid). eexists _, G, a. split; [reflexivity|].
    split; [apply evolves_refl|apply step_register; assumption].
  - destruct (step_create G c a token uri id HC He) as (c' & G' & H). exists c', G', a. exact H.
  - destruct (step_receive G c p HC He) as (c' & G' & H). exists c', G', (destination p). exact H.
  - destruct He as (r & Ha & Hlen).
    destruct (step_turn G c a r retry allocs scan timed_out HC Ha Hlen) as (c' & G' & H). exists c', G', a. exact H.
  - destruct (step_data G c a n b HC He) as (c' & G' & H). exists c', G', a. exact H.
Qed.

Lemma reach_ok c : reach c -> exists G, cluster_ok G c.
Proof.
  induction 1 as [|c e c' _ [G HC] He Hp].
  - exists ∅. split; cbn.
    + intros t g H. rewrite lookup_empty in H. discriminate.
    + intros a r H. rewrite lookup_empty in H. discriminate.
    + intros t g H. rewrite lookup_empty in H. discriminate.
    + intros t g H. rewrite lookup_empty in H. discriminate.
    + intros p H. inversion H.
  - destruct (step_ok G c e HC He) as (c1 & G' & a & Hrun & _ & HC'). exists G'. congruence.
Qed.

(** ** What holds in every state *)

(** C6: Session management never fails.  In every state that objects and processes reach, whatever
    the network did to the packets between them, each of the things that can happen next runs to its
    end: no assertion of the handlers fails, no pointer to a destroyed session is followed, no number
    is outside the table of sessions, and the ring entries stay within their limits. *)
Theorem sm_never_fails c e : reach c -> enabled c e -> exists c', perform e c = Done c'.
Proof. intros Hr He. destruct (reach_ok c Hr) as [G HC]. destruct (step_ok G c e HC He) as (c' & G' & a & H & _).
eauto. Qed.

(** The history of a connected client. *)
Lemma connected_conn G c a n s : cluster_ok G c -> client_session c a n s -> state_ s = SessionState.kConnected ->
  exists g j, G !! uniq_token_ s = Some g /\ cl g = a /\ num g = n /\ srv g = ep_addr (server_ s) /\ ph g = Up /\
    acc g = Some j /\
    session_num_ (server_ s) = j /\ remote_session_num_ s = Some j /\ client_end (uniq_token_ s) g s.
Proof.
  intros HC (r & Ha & Hn & Hs & Hrole) Hst. destruct (co_rpc _ _ HC a r Ha) as (HR & _).
  pose proof (ro_role _ _ _ _ HR _ s Hs) as Hr. rewrite Hrole in Hr.
  destruct Hr as (g & Hg & Hc & Hnum). assert (num g = n) as En by lia. rewrite <- En in Hs.
  pose proof (connected_up _ _ _ _ _ g s HR Hg Hc Hs Hst) as Hup.
  destruct (ro_client _ _ _ _ HR _ g Hg Hc) as (_ & Hat & _). unfold client_at in Hat. rewrite Hup, Hs in Hat.
  destruct Hat as (s1 & j & [= <-] & He & _ & Hj & Hsn & Hrem & _). pose proof He as (_ & _ & _ & _ & _ & Hsrv).
  exists g, j. auto 10.
Qed.

(** ... and the session of the server that belongs to it. *)
Lemma connected_server G c a n s : cluster_ok G c -> client_session c a n s -> state_ s = SessionState.kConnected ->
  exists s', server_session c (ep_addr (server_ s)) (session_num_ (server_ s)) s' /\ uniq_token_ s' = uniq_token_ s /\
    state_ s' = SessionState.kConnected /\
    remote_session_num_ s = Some (local_session_num_ s') /\ remote_session_num_ s' = Some (local_session_num_ s) /\
    endpoint_eqb (client_ s) (client_ s') = true /\ endpoint_eqb (server_ s) (server_ s') = true.
Proof.
  intros HC Hc Hst. destruct (connected_conn G c a n s HC Hc Hst) as (g & j & Hg & Ecl & En & Esrv & Hup & Hj & Hsn & Hrem & He).
  destruct (co_server _ _ HC _ g Hg ltac:(congruence)) as [rb Hb]. destruct (co_rpc _ _ HC _ rb Hb) as (HRb & _).
  destruct (ro_server _ _ _ _ HRb _ g j Hg eq_refl Hj) as (_ & Hnum & Hat). unfold server_at in Hat.
  destruct (co_histories _ _ HC _ g Hg) as (_ & Hgone & _).
  destruct (gone g); [specialize (Hgone eq_refl); congruence|].
  destruct Hat as (s' & Hs' & E1 & E2 & E3 & E4 & E5 & E6 & E7 & E8). destruct He as (F1 & F2 & F3 & F4 & F5 & F6).
  exists s'. split; [exists rb; rewrite <- Esrv, Hsn; split_and!; auto; apply Hnum|]. split; [exact E2|].
  split; [exact E3|]. split; [congruence|]. split; [congruence|].
  split; [eapply endpoint_eqb_true; eassumption|].
  eapply (endpoint_eqb_true _ _ g (srv g) j); [repeat split; congruence|exact E6].
Qed.

(** C7: Both ends of a connected session agree.  When a client's session is connected, the object it
    leads to has a connected session with the number the client stores, which in turn stores the
    client's number and address; and no other client session of any process is connected to it. *)
Theorem sm_agreement c a n s : reach c -> client_session c a n s -> state_ s = SessionState.kConnected ->
  exists s', server_session c (ep_addr (server_ s)) (session_num_ (server_ s)) s' /\
    state_ s' = SessionState.kConnected /\
    remote_session_num_ s = Some (local_session_num_ s') /\ remote_session_num_ s' = Some (local_session_num_ s) /\
    endpoint_eqb (client_ s) (client_ s') = true /\ endpoint_eqb (server_ s) (server_ s') = true /\
    forall a2 n2 s2, client_session c a2 n2 s2 -> state_ s2 = SessionState.kConnected ->
      ep_addr (server_ s2) = ep_addr (server_ s) -> session_num_ (server_ s2) = session_num_ (server_ s) -> a2 = a /\
        n2 = n.
Proof.
  intros Hr Hc Hst. destruct (reach_ok c Hr) as [G HC].
  destruct (connected_server G c a n s HC Hc Hst) as (s' & Hs' & Etok & H1 & H2 & H3 & H4 & H5).
  exists s'. do 6 (split; [assumption|]). intros a2 n2 s2 Hc2 Hst2 Ha2 Hn2.
  destruct (connected_conn G c a n s HC Hc Hst) as (g & j & Hg & Ecl & En & _).
  destruct (connected_conn G c a2 n2 s2 HC Hc2 Hst2) as (g2 & j2 & Hg2 & Ecl2 & En2 & Esrv2 & _ & Hj2 & Hsn2 & _).
  destruct Hs' as (rb & Hb & _ & Hs' & _). destruct (co_rpc _ _ HC _ rb Hb) as (HRb & _).
  destruct (entry_server _ _ _ _ _ g2 j2 s' HRb Hg2 ltac:(congruence) Hj2 ltac:(congruence)) as [Etok2 _].
  assert (g2 = g) as -> by congruence. split; congruence.
Qed.

Lemma reports_told c a r : reach c -> rpcs c !! a = Some r ->
  (forall n, (length (reports n r) <= 1)%nat) /\
  (forall n s, client_session c a n s -> reports n r =
     if bool_decide (state_ s = SessionState.kConnected) then [report n Sessions.kConnected true] else []) /\
  (forall n s, server_session c a n s -> reports n r = []).
Proof.
  intros Hr Ha. destruct (reach_ok c Hr) as [G HC]. destruct (co_rpc _ _ HC a r Ha) as (HR & _).
  assert (forall n, reports n r <> [] -> exists t g, G !! t = Some g /\ cl g = a /\ num g = n) as Hown.
  { intros n Hne. unfold reports in Hne. destruct (filter _ _) as [|e l] eqn:E; [contradiction|].
    assert (e ∈ filter (fun e => Sessions.ev_session e = n) (sm_events r)) as He by (rewrite E; left).
    apply list_elem_of_filter in He as [<- He]. exact (ro_reports _ _ _ _ HR e He). }
  split_and!.
  - intros n. destruct (reports n r) as [|e l] eqn:E; [cbn; lia|].
    destruct (Hown n) as (t & g & Hg & Hc & <-); [congruence|].
    destruct (ro_client _ _ _ _ HR t g Hg Hc) as (_ & Hat & _). rewrite E in Hat. unfold client_at in Hat.
    destruct (ph g).
    + destruct Hat as (? & ? & ? & ? & ? & ?). discriminate.
    + destruct Hat as (? & ? & ? & ? & ? & ? & ? & ? & ->). cbn. lia.
    + destruct Hat as [(? & ? & ? & ? & ? & ? & ? & ?)|[_ ->]]; [discriminate|cbn; lia].
    + destruct Hat as [_ ->]. cbn. lia.
  - intros n s (r1 & Ha1 & Hn & Hs & Hrole). replace r1 with r in * by congruence.
    pose proof (ro_role _ _ _ _ HR _ s Hs) as Hro. rewrite Hrole in Hro.
    destruct Hro as (g & Hg & Hc & Hnum). assert (num g = n) as <- by lia.
    destruct (ro_client _ _ _ _ HR _ g Hg Hc) as (_ & Hat & _).
    rewrite Hs in Hat. unfold client_at in Hat. destruct (ph g).
    + destruct Hat as (s1 & [= <-] & _ & Hst & _ & ->). rewrite bool_decide_false by congruence. reflexivity.
    + destruct Hat as (s1 & j & [= <-] & _ & Hst & _ & _ & _ & ->). rewrite bool_decide_true by exact Hst.
      reflexivity.
    + destruct Hat as [(s1 & j & [= <-] & _ & Hst & _ & _ & ->)|[? _]]; [|discriminate].
      rewrite bool_decide_false by congruence. reflexivity.
    + destruct Hat; discriminate.
  - intros n s (r1 & Ha1 & Hn & Hs & Hrole). replace r1 with r in * by congruence.
    destruct (reports n r) as [|e l] eqn:E; [reflexivity|exfalso].
    destruct (Hown n) as (t & g & Hg & Hc & <-); [congruence|]. destruct (entry_client _ _ _ _ t g s HR Hg Hc Hs).
    congruence.
Qed.

(** C20: The program learns once what became of a session.  In every reachable state the session
    management handler has been called at most once for each number; not at all while the request is
    unanswered; once, with the connection, when the session is connected; and never for a session in
    which the object is the server. *)
Theorem sm_told_once c a r : reach c -> rpcs c !! a = Some r ->
  (forall n, (length (reports n r) <= 1)%nat) /\
  (forall n s, client_session c a n s -> reports n r =
     if bool_decide (state_ s = SessionState.kConnected) then [report n Sessions.kConnected true] else []) /\
  (forall n s, server_session c a n s -> reports n r = []).
Proof. apply reports_told. Qed.

(** All packets sent, as a list. *)
Definition sent_list (c : cluster) : list SmPkt :=
  concat (map (fun x => udp_sent x.2) (map_to_list (rpcs c))) ++ nexus_sent c.

Lemma sent_in_list c p : sent c p <-> p ∈ sent_list c.
Proof.
  unfold sent, sent_list. rewrite elem_of_app, !list_elem_of_In, in_concat.
  split; (intros [H|H]; [left|right; exact H]).
  - destruct H as (a & r & Ha & Hp). exists (udp_sent r). rewrite list_elem_of_In in Hp. split; [|exact Hp].
    apply in_map_iff. exists (a, r). split; [reflexivity|].
    apply list_elem_of_In, elem_of_map_to_list, Ha.
  - destruct H as (l & Hl & Hp). apply in_map_iff in Hl as ([a r] & <- & Hin).
    apply list_elem_of_In, elem_of_map_to_list in Hin. exists a, r. rewrite list_elem_of_In. auto.
Qed.

Definition next (e : event) (c : cluster) : cluster := match perform e c with Done c' => c' | Fault _ => c end.

Lemma reach_next c e : reach c -> enabled c e -> reach (next e c).
Proof.
  intros Hr He. destruct (reach_ok c Hr) as [G HC]. destruct (step_ok G c e HC He) as (c' & _ & _ & Hp & _).
  eapply reach_step; [exact Hr|exact He|].
  unfold next. rewrite Hp. reflexivity.
Qed.

End Net.

(** ** A client and a server *)

Definition any_route (_ : addr) (i : bytes) : option bytes := Some i.

Definition sample_client : addr := (text "c", 31851, 3).
Definition sample_server : addr := (text "s", 31850, 0).
Definition sample_create : event := Create sample_client 77 (text "s:31850") 0.

Definition sample_opening : cluster :=
  fold_left (fun c e => next any_route e c) [Register 1 sample_client [7]; Register 1 sample_server [9];
    sample_create]
    {| rpcs := ∅; nexus_sent := [] |}.

Definition sent_by (a : addr) (c : cluster) : list SmPkt :=
  match rpcs c !! a with Some r => udp_sent r | None => [] end.

Definition quiet_turn (a : addr) : event := Turn a false 8 false (fun _ => false).

(** The request arrives, is handled, and so is the response. *)
Definition sample_request : event := Receive (hd (sm_request (opened_session (new_Rpc 0 [] 0 0 []) 0 [] 0 0)) (sent_by sample_client sample_opening)).
Definition sample_accepted : cluster := next any_route (quiet_turn sample_server) (next any_route sample_request sample_opening).
Definition sample_response : event := Receive (hd (sm_request (opened_session (new_Rpc 0 [] 0 0 []) 0 [] 0 0)) (sent_by sample_server sample_accepted)).
Definition sample_connected : cluster := next any_route (quiet_turn sample_client) (next any_route sample_response sample_accepted).

Lemma sent_by_sent c a p : p ∈ sent_by a c -> sent c p.
Proof. unfold sent_by. destruct (rpcs c !! a) as [r|] eqn:E; [|intros H; inversion H]. intros Hp. left. eauto. Qed.

Ltac name := split; [unfold no_nul; cbn; repeat (apply Forall_cons; split; [discriminate|]); apply Forall_nil;
  exact I|split; [discriminate|vm_compute; lia]].

Lemma sample_opening_reached : reach any_route sample_opening.
Proof.
  unfold sample_opening. cbn [fold_left]. apply reach_next; [apply reach_next; [apply reach_next; [constructor|]|]|].
  - split; [reflexivity|]. split; [name|split; vm_compute; discriminate].
  - split; [vm_compute; reflexivity|]. split; [name|split; vm_compute; discriminate].
  - eexists _, (text "s"), 31850. split; [vm_compute; reflexivity|]. split; [vm_compute; reflexivity|].
    split; [intros p Hp; apply sent_in_list in Hp; vm_compute in Hp; inversion Hp|].
    split; [vm_compute; reflexivity|]. split; [vm_compute; reflexivity|].
    split; [name|split; vm_compute; discriminate].
Qed.

Lemma sample_connected_reached : reach any_route sample_connected.
Proof.
  unfold sample_connected, sample_accepted.
  apply reach_next; [apply reach_next; [apply reach_next; [apply reach_next; [apply sample_opening_reached|]|]|]|].
  - apply (sent_by_sent _ sample_client). vm_compute. left.
  - eexists. split; [vm_compute; reflexivity|vm_compute; discriminate].
  - apply (sent_by_sent _ sample_server). vm_compute. left.
  - eexists. split; [vm_compute; reflexivity|vm_compute; discriminate].
Qed.

Lemma sm_never_fails_witness : exists c', perform any_route (quiet_turn sample_client) sample_connected = Done c'.
Proof. apply (sm_never_fails any_route); [exact sample_connected_reached|]. eexists.
split; [vm_compute; reflexivity|vm_compute; discriminate]. Defined.

Definition first_session (a : addr) (c : cluster) : Session :=
  match rpcs c !! a with
  | Some r => match session_vec_ r with Some s :: _ => s | _ => opened_session r 0 [] 0 0 end
  | None => opened_session (new_Rpc 0 [] 0 0 []) 0 [] 0 0
  end.

Definition sample_session : Session := first_session sample_client sample_connected.

Lemma sample_session_is : client_session sample_connected sample_client 0 sample_session /\
  state_ sample_session = SessionState.kConnected.
Proof. split; [|vm_compute; reflexivity]. eexists.
split_and!; [vm_compute; reflexivity|lia|vm_compute; reflexivity|vm_compute; reflexivity]. Qed.

Lemma sm_agreement_witness : exists s', server_session sample_connected (ep_addr (server_ sample_session)) (session_num_ (server_ sample_session)) s' /\
  remote_session_num_ s' = Some (local_session_num_ sample_session).
Proof.
  destruct (sm_agreement any_route sample_connected sample_client 0 sample_session sample_connected_reached (proj1 sample_session_is) (proj2 sample_session_is))
    as (s' & Hs' & _ & _ & Hrem & _). exists s'. auto.
Defined.

Lemma sm_told_once_witness : exists r, rpcs sample_connected !! sample_client = Some r /\
  reports 0 r = [report 0 Sessions.kConnected true].
Proof.
  destruct (rpcs sample_connected !! sample_client) as [r|] eqn:E; [|vm_compute in E; discriminate]. exists r.
  split; [reflexivity|].
  destruct (sm_told_once any_route sample_connected sample_client r sample_connected_reached E) as (_ & H & _).
  rewrite (H 0 sample_session (proj1 sample_session_is)), bool_decide_true by apply sample_session_is. reflexivity.
Defined.

End ErpcSmNet.
