(* ===== verification/ErpcSmLive.v ===== *)
(** * A session is decided in the end

    The retransmission of session management: from every reachable state, with every packet that has
    been sent lost, the turns of the two event loops and the packets they send decide a session that
    is being opened. *)

From Stdlib Require Import ZArith Lia.
From stdpp Require Import base numbers list gmap sorting strings.
From S2P Require Import Prelude Sessions ErpcSm ErpcSmInv ErpcSmStep ErpcSmNet.
Open Scope Z_scope.

Module ErpcSmLive.
Export ErpcSmNet.
Local Open Scope m_scope.

(** ** What handling a packet leaves alone *)

(** Packets are only added to those sent, and the queue is not touched. *)
Definition later (r r' : Rpc) : Prop := suffix (udp_sent r) (udp_sent r') /\ sm_rx_queue_ r' = sm_rx_queue_ r.

#[export] Instance later_preorder : PreOrder later.
Proof.
  split; [intros r; split; reflexivity|]. intros r1 r2 r3 [A1 A2] [B1 B2].
  split; [etransitivity; eassumption|congruence].
Qed.

Lemma later_same r r' : udp_sent r' = udp_sent r -> sm_rx_queue_ r' = sm_rx_queue_ r -> later r r'.
Proof. intros E1 E2. split; [rewrite E1; reflexivity|exact E2]. Qed.

Lemma later_send r p : later r (set_logs (p :: udp_sent r) (sm_events r) r).
Proof. split; [exists [p]; reflexivity|reflexivity]. Qed.

Lemma later_run {A} (o : outcome A) : frames later (run o).
Proof. apply frames_pure; [typeclasses eauto|]. intros c. destruct o; reflexivity || exact I. Qed.

Lemma later_session_at n : frames later (session_at n).
Proof. apply frames_pure; [typeclasses eauto|]. intros r. unfold session_at, bind, gets.
destruct (_ !! _); reflexivity || exact I. Qed.

#[local] Hint Resolve later_run later_session_at : frames.

Ltac laters := repeat (eauto with frames nocore; match goal with
  | |- frames _ (bind _ _) => apply frames_bind; [typeclasses eauto|..]
  | |- frames _ (when_ _ _) => apply frames_when; [typeclasses eauto|..]
  | |- frames _ (modify _) => apply frames_modify; intros; first [apply later_send | apply later_same; reflexivity]
  | |- frames _ (sm_pkt_udp_tx_st _) => apply frames_modify; intros; apply later_send
  | |- frames _ (sm_handler_ _ _ _) => apply frames_modify; intros; apply later_same; reflexivity
  | |- frames _ (upd_session _ _) => apply frames_modify; intros; apply later_same; reflexivity
  | |- frames _ (if ?b then _ else _) => destruct b
  | |- frames _ (match ?o with _ => _ end) => destruct o
  | |- forall _, _ => intros ?
  end).

Lemma later_respond p e : frames later (respond p e).
Proof. unfold respond. laters. Qed.
Lemma later_alloc_ring : frames later alloc_ring_entries.
Proof. unfold alloc_ring_entries. laters. Qed.
Lemma later_free_ring : frames later free_ring_entries.
Proof. unfold free_ring_entries. laters. Qed.
Lemma later_bury s : frames later (bury_session_st s).
Proof. unfold bury_session_st. laters. Qed.
Lemma later_send_req s : frames later (send_sm_req_st s).
Proof. unfold send_sm_req_st. laters. Qed.
#[local] Hint Resolve later_respond later_alloc_ring later_free_ring later_bury later_send_req : frames.

Lemma later_sm_pkt resolve retry allocs p : frames later (handle_sm_pkt resolve retry allocs p).
Proof.
  unfold handle_sm_pkt, handle_connect_req_st, handle_connect_resp_st, handle_disconnect_req_st, handle_disconnect_resp_st. laters.
Qed.

(** ** The server answers *)

Definition is_answer (t : Z) (q : SmPkt) : Prop := pkt_type_ q = kConnectResp /\ pkt_token_ q = t.

(** Among the packets that the second state has more. *)
Definition sends (r r' : Rpc) (P : SmPkt -> Prop) : Prop := exists l q, udp_sent r' = l ++ udp_sent r /\ q ∈ l /\ P q.

Lemma sends_later_l r1 r2 r3 P : later r1 r2 -> sends r2 r3 P -> sends r1 r3 P.
Proof. intros [[l1 H1] _] (l & q & H & Hq & HP). exists (l ++ l1), q. split; [rewrite H, H1; apply app_assoc|].
split; [apply elem_of_app; auto|exact HP]. Qed.

Lemma sends_later_r r1 r2 r3 P : sends r1 r2 P -> suffix (udp_sent r2) (udp_sent r3) -> sends r1 r3 P.
Proof. intros (l & q & H & Hq & HP) [l3 H3]. exists (l3 ++ l), q. split; [rewrite H3, H; apply app_assoc|].
split; [apply elem_of_app; auto|exact HP]. Qed.

Lemma answer_sent p e r (Q : unit -> Rpc -> Prop) : pkt_type_ p = kConnectReq ->
  (forall q, is_answer (pkt_token_ p) q -> Q tt (set_logs (q :: udp_sent r) (sm_events r) r)) -> wp (respond p e) Q r.
Proof.
  intros Ht HQ. unfold respond, sm_construct_resp. rewrite Ht. apply wp_bind, wp_ret, wp_modify, HQ.
  split; reflexivity.
Qed.

Section Loop.
Context (resolve : bytes -> option bytes) (allocs : nat).

(** A request whose client still waits is answered. *)
Lemma connect_req_answers G a r p g : rpc_ok G None a r -> pkt_type_ p = kConnectReq -> G !! pkt_token_ p = Some g ->
  histories_ok G -> ph g = Opening ->
  wpx (fun _ => True) (handle_connect_req_st resolve allocs p) (fun _ r' => sends r r' (is_answer (pkt_token_ p))) r.
Proof.
  intros HR Ht Hg HG Ho. assert (forall q, is_answer (pkt_token_ p) q -> forall r', udp_sent r' = q :: udp_sent r ->
    sends r r' (is_answer (pkt_token_ p))) as Hans
    by (intros q Hq r' E; exists [q], q; rewrite E; split; [reflexivity|]; split; [left|exact Hq]).
  assert (forall e, wpx (fun _ => True) (respond p e) (fun _ r' => sends r r' (is_answer (pkt_token_ p))) r) as Hresp
    by (intros e; apply wpx_wp, answer_sent; [exact Ht|]; intros q Hq; apply (Hans q Hq); reflexivity).
  unfold handle_connect_req_st. apply wpx_bind. cbn [gets wpx]. apply wpx_bind. unfold p_assert.
  destruct (_ && _); [|exact I]. cbn [ret wpx].
  destruct (conn_req_token_map_ r !! pkt_token_ p) as [j|] eqn:Hm.
  - destruct (ro_map _ _ _ _ HR _ j Hm) as (g0 & H0 & Hsrv & Hj). replace g0 with g in * by congruence.
    destruct (ro_server _ _ _ _ HR _ g j Hg Hsrv Hj) as (_ & Hn & Hat). unfold server_at in Hat.
    destruct (HG _ g Hg) as (_ & Hgone & _).
    destruct (gone g); [specialize (Hgone eq_refl); congruence|]. destruct Hat as (s & Hs & _ & _ & Hst & _).
    apply wpx_bind. destruct (_ <? _); [|exact I]. cbn [ret wpx]. apply wpx_bind. unfold session_at. apply wpx_bind.
    cbn [gets wpx]. rewrite Hs. cbn [ret wpx].
    rewrite bool_decide_true by exact Hst. cbn [negb]. apply wpx_bind. unfold sm_construct_resp. rewrite Ht.
    cbn [run sm_pkt_type_req_to_resp ret wpx].
    eapply Hans; [|reflexivity]. split; reflexivity.
  - destruct (negb _); [apply Hresp|]. destruct (negb _); [apply Hresp|]. destruct (resolve _); [|apply Hresp].
    destruct (_ <? _)%nat; [apply Hresp|].
    apply wpx_bind. cbn [modify wpx]. apply wpx_bind. unfold alloc_ring_entries. apply wpx_bind. cbn [gets wpx].
    apply wpx_bind. unfold p_assert.
    destruct (have_ring_entries _); [|exact I]. cbn [ret wpx modify]. apply wpx_bind. cbn [wpx modify].
    apply wpx_bind.
    unfold sm_construct_resp. rewrite Ht. cbn [run sm_pkt_type_req_to_resp ret wpx]. eapply Hans; [|reflexivity].
    split; reflexivity.
Qed.

(** ** The loop over the queue *)

(** What [handle_sm_rx_st] leaves behind. *)
Record handled (G : history) (a : addr) (r : Rpc) (n : nat) (G' : history) (r' : Rpc) : Prop := {
  ha_evolves : evolves a G G';
  ha_histories : histories_ok G';
  ha_ok : rpc_ok G' None a r';
  ha_sent : suffix (udp_sent r) (udp_sent r');
  ha_room : (length (session_vec_ r') <= length (session_vec_ r) + n)%nat
}.

Lemma handled_trans G a r n G1 r1 m G2 r2 : handled G a r n G1 r1 -> handled G1 a r1 m G2 r2 ->
  handled G a r (n + m) G2 r2.
Proof.
  intros [A1 A2 A3 A4 A5] [B1 B2 B3 B4 B5].
  split; auto; [eapply evolves_trans; eassumption|etransitivity; eassumption|lia].
Qed.

Definition all_for (G : history) (a : addr) (q : list SmPkt) : Prop :=
  forall p, p ∈ q -> pkt_ok G p /\ destination p = a.

Lemma all_for_evolves G G' a q : evolves a G G' -> all_for G a q -> all_for G' a q.
Proof. intros Hev Hq p Hp. destruct (Hq p Hp). split; [eapply pkt_ok_evolves; eassumption|assumption]. Qed.

(** One packet, with more that is known of it, and the rest of the queue. *)
Lemma wp_one {A} G a r retry p q (P : history -> Rpc -> Prop) (k : M Rpc A) Q : rpc_ok G None a r -> histories_ok G ->
  all_for G a (p :: q) ->
  Z.of_nat (length (session_vec_ r)) < 65535 ->
  wpx (fun _ => True) (handle_sm_pkt resolve retry allocs p) (fun _ r' => forall G', evolves a G G' ->
    rpc_ok G' None a r' -> P G' r') (set_rx_queue q r) ->
  (forall G' r', handled G a r 1 G' r' -> sm_rx_queue_ r' = q -> P G' r' -> wp k Q r') ->
  wp (modify (set_rx_queue q) ;;; handle_sm_pkt resolve retry allocs p ;;; k) Q r.
Proof.
  intros HR HG Hq Hlen HP Hk. apply wp_bind, wp_modify, wp_bind. destruct (Hq p) as [Hp Hd]; [left|].
  assert (rpc_ok G None a (set_rx_queue q r)) as HR1 by (apply ok_queue; [exact HR|intros p0 Hp0; apply Hq; right;
    exact Hp0]).
  eapply wp_mono; [eapply wp_and; [eapply wp_and; [apply (wp_sm_pkt resolve G a _ retry allocs p HR1 HG Hp Hd);
    exact Hlen|apply later_sm_pkt]|exact HP]|].
  intros [] r1 [[[(G1 & Hev & HG1 & HR2) Hl1] [Hsuf Hqueue]] HP1]. apply (Hk G1 r1); [|exact Hqueue|auto].
  split; auto. cbn in Hl1. lia.
Qed.

Lemma wp_rx_handled a retry q : forall G r, rpc_ok G None a r -> histories_ok G -> all_for G a q ->
  Z.of_nat (length (session_vec_ r) + length q) <= 65535 -> sm_rx_queue_ r = q ->
  wp (handle_sm_rx_st resolve retry allocs q) (fun _ r' => exists G', handled G a r (length q) G' r' /\
    sm_rx_queue_ r' = []) r.
Proof.
  induction q as [|p q IH]; intros G r HR HG Hq Hlen Hqueue; cbn [handle_sm_rx_st].
  { apply wp_ret. exists G. split; [|exact Hqueue]. split; auto using evolves_refl. lia. }
  cbn [length] in Hlen. eapply (wp_one G a r retry p q (fun _ _ => True)); try assumption;
    [lia|unfold wpx; destruct (handle_sm_pkt _ _ _ _ _) as [[? ?]|]; auto|].
  intros G1 r1 H1 Hq1 _. pose proof (ha_room _ _ _ _ _ _ H1). eapply wp_mono; [apply (IH G1 r1)|].
  - apply H1.
  - apply H1.
  - eapply all_for_evolves; [apply H1|]. intros p0 Hp0. apply Hq. right. exact Hp0.
  - lia.
  - exact Hq1.
  - intros [] r2 (G2 & H2 & Hq2). exists G2. split; [|exact Hq2]. exact (handled_trans _ _ _ _ _ _ _ _ _ H1 H2).
Qed.

(** A packet of the queue with an effect [P] that lasts, while [K] holds. *)
Lemma wp_rx_effect a retry p (K : history -> Prop) (P : Rpc -> history -> Rpc -> Prop) :
  (forall G G', evolves a G G' -> K G -> K G') ->
  (forall r1 r2 G3 r3, suffix (udp_sent r1) (udp_sent r2) -> P r2 G3 r3 -> P r1 G3 r3) ->
  (forall r1 n G2 r2 G3 r3, P r1 G2 r2 -> handled G2 a r2 n G3 r3 -> P r1 G3 r3) ->
  (forall G r, rpc_ok G None a r -> histories_ok G -> pkt_ok G p -> destination p = a -> K G ->
     wpx (fun _ => True) (handle_sm_pkt resolve retry allocs p) (fun _ r' => forall G', evolves a G G' ->
       rpc_ok G' None a r' -> P r G' r') r) ->
  forall q G r, p ∈ q -> K G -> rpc_ok G None a r -> histories_ok G -> all_for G a q ->
  Z.of_nat (length (session_vec_ r) + length q) <= 65535 -> sm_rx_queue_ r = q ->
  wp (handle_sm_rx_st resolve retry allocs q) (fun _ r' => exists G', handled G a r (length q) G' r' /\
    sm_rx_queue_ r' = [] /\ P r G' r') r.
Proof.
  intros HK HPl HPr HP. induction q as [|p0 q IH]; intros G r Hin HKG HR HG Hq Hlen Hqueue; cbn [handle_sm_rx_st];
    [inversion Hin|].
  cbn [length] in Hlen. assert (forall G1, evolves a G G1 -> all_for G1 a q) as Hrest
    by (intros G1 Hev; eapply all_for_evolves; [exact Hev|]; intros p1 Hp1; apply Hq; right; exact Hp1).
  apply elem_of_cons in Hin as [<-|Hq'].
  - destruct (Hq p) as [Hpk Hd]; [left|].
    eapply (wp_one G a r retry p q (fun G' r' => P r G' r')); try assumption; [lia| |].
    + assert (rpc_ok G None a (set_rx_queue q r)) as HR1 by (apply ok_queue; [exact HR|intros p1 Hp1; apply Hq; right;
        exact Hp1]).
      eapply wpx_mono; [apply (HP G (set_rx_queue q r)); assumption|auto|]. intros [] r1 H1 G1 Hev HR2.
      apply (HPl r (set_rx_queue q r)); [reflexivity|auto].
    + intros G1 r1 H1 Hq1 HP1. pose proof (ha_room _ _ _ _ _ _ H1).
      eapply wp_mono; [apply (wp_rx_handled a retry q G1 r1); [apply H1|apply H1|apply Hrest, H1|lia|exact Hq1]|].
      intros [] r2 (G2 & H2 & Hq2). exists G2. split; [exact (handled_trans _ _ _ _ _ _ _ _ _ H1 H2)|].
      split; [exact Hq2|]. eapply HPr; eassumption.
  - eapply (wp_one G a r retry p0 q (fun _ _ => True)); try assumption;
      [lia|unfold wpx; destruct (handle_sm_pkt _ _ _ _ _) as [[? ?]|]; auto|].
    intros G1 r1 H1 Hq1 _. pose proof (ha_room _ _ _ _ _ _ H1).
    eapply wp_mono; [apply (IH G1 r1); [exact Hq'|eapply HK; [apply H1|exact HKG]|apply H1|apply H1|apply Hrest, H1|
      lia|exact Hq1]|].
    intros [] r2 (G2 & H2 & Hq2 & HP2). exists G2. split; [exact (handled_trans _ _ _ _ _ _ _ _ _ H1 H2)|].
    split; [exact Hq2|]. eapply HPl; [apply H1|exact HP2].
Qed.

(** The history of a session that its client still waits for. *)
Definition waits (t : Z) (a : addr) (G : history) : Prop := exists g, G !! t = Some g /\ cl g = a /\ ph g = Opening.

Lemma waits_evolves t a b G G' : a <> b -> evolves b G G' -> waits t a G -> waits t a G'.
Proof.
  intros Hne Hev (g & Hg & Hc & Ho). destruct (ev_old _ _ _ Hev t g Hg) as (g' & Hg' & Hgr). exists g'.
  split; [exact Hg'|].
  rewrite (gr_cl _ _ _ Hgr). split; [exact Hc|]. destruct (gr_ph _ _ _ Hgr) as [->|[? _]]; [exact Ho|congruence].
Qed.

Lemma wp_rx_answers a b retry p q G r : p ∈ q -> pkt_type_ p = kConnectReq -> a <> b -> waits (pkt_token_ p) b G ->
  rpc_ok G None a r -> histories_ok G -> all_for G a q -> Z.of_nat (length (session_vec_ r) + length q) <= 65535 ->
    sm_rx_queue_ r = q ->
  wp (handle_sm_rx_st resolve retry allocs q)
    (fun _ r' => exists G', handled G a r (length q) G' r' /\ sm_rx_queue_ r' = [] /\
      sends r r' (is_answer (pkt_token_ p))) r.
Proof.
  intros Hin Ht Hne Hw HR HG Hq Hlen Hqueue.
  apply (wp_rx_effect a retry p (waits (pkt_token_ p) b) (fun r _ r' => sends r r' (is_answer (pkt_token_ p))));
    try assumption.
  - intros G1 G2 Hev. apply (waits_evolves _ b a); [congruence|exact Hev].
  - intros r1 r2 _ r3 [l H] (l3 & x & H3 & Hx & HP). exists (l3 ++ l), x. split; [rewrite H3, H; apply app_assoc|].
    split; [apply elem_of_app; auto|exact HP].
  - intros r1 n G2 r2 G3 r3 HP H3. eapply sends_later_r; [exact HP|apply H3].
  - intros G1 r1 HR1 HG1 Hp Hd (g & Hg & _ & Ho). unfold handle_sm_pkt. rewrite Ht. cbn [sm_pkt_type_is_req].
    apply wpx_bind. cbn [ret wpx].
    eapply wpx_mono; [apply (connect_req_answers G1 a r1 p g HR1 Ht Hg HG1 Ho)|auto|auto].
Qed.

(** ** The client decides *)

(** A response leaves no waiting client, unless the object retries. *)
Lemma connect_resp_decides r p : pkt_type_ p = kConnectResp ->
  (forall s, entry r (session_num_ (pkt_client_ p)) = Some (Some s) ->
    local_session_num_ s = session_num_ (pkt_client_ p)) ->
  wpx (fun _ => True) (handle_connect_resp_st resolve false p)
    (fun _ r' => forall s, entry r' (session_num_ (pkt_client_ p)) = Some (Some s) ->
      state_ s <> SessionState.kConnectInProgress) r.
Proof.
  intros Ht Hloc. set (n := session_num_ (pkt_client_ p)) in *. unfold handle_connect_resp_st. fold n. apply wpx_bind.
  cbn [gets wpx].
  apply wpx_bind. unfold p_assert at 1. destruct (_ && _); [|exact I]. cbn [ret wpx]. apply wpx_bind.
  unfold p_assert at 1. destruct (_ <? _); [|exact I]. cbn [ret wpx].
  apply wpx_bind. unfold session_at. apply wpx_bind. cbn [gets wpx].
  destruct (entry r n) as [[s|]|] eqn:Eo; [| |exact I]; cbn [ret wpx]; [|congruence].
  case_bool_decide as Hst; cbn [negb]; [|cbn [ret wpx]; intros s1; rewrite Eo; congruence].
  do 4 (apply wpx_bind; unfold p_assert at 1; match goal with |- context [if ?b then _ else _] => destruct b end;
    [|exact I]; cbn [ret wpx]).
  rewrite andb_false_r. specialize (Hloc s eq_refl). pose proof (lookup_lt_Some _ _ _ Eo) as Hlt.
  case_bool_decide as Herr; cbn [negb].
  - destruct (resolve _).
    + apply wpx_bind. cbn [upd_session modify wpx sm_handler_ set_logs set_session_vec session_vec_].
      rewrite list_lookup_alter_eq, Eo. cbn. intros s1 [= <-]. discriminate.
    + apply wpx_bind. cbn [upd_session modify wpx]. unfold send_sm_req_st. apply wpx_bind.
      cbn [modify wpx sm_pkt_udp_tx_st set_logs set_session_vec session_vec_ set_pending].
      rewrite list_lookup_alter_eq, Eo. cbn. intros s1 [= <-]. discriminate.
  - apply wpx_bind. unfold free_ring_entries. apply wpx_bind. cbn [gets wpx]. apply wpx_bind. cbn [modify wpx].
    unfold p_assert. destruct (_ <=? _); [|exact I]. cbn [ret wpx].
    apply wpx_bind. cbn [sm_handler_ modify wpx]. unfold bury_session_st. apply wpx_bind.
    cbn [gets wpx set_logs set_ring session_vec_]. rewrite Hloc.
    apply Nat.ltb_lt in Hlt as Hlt'. rewrite Hlt'. cbn [modify wpx set_session_vec session_vec_].
    rewrite list_lookup_insert_eq by exact Hlt. congruence.
Qed.

Definition decided (t : Z) (G : history) : Prop := forall g, G !! t = Some g -> ph g <> Opening.

Lemma decided_evolves t a G G' g0 : G !! t = Some g0 -> evolves a G G' -> decided t G -> decided t G'.
Proof.
  intros H0 Hev Hd g' Hg' Ho. destruct (ev_old _ _ _ Hev t g0 H0) as (g1 & H1 & Hgr).
  replace g1 with g' in * by congruence.
  apply (Hd g0 H0). destruct (gr_ph _ _ _ Hgr) as [E|[_ E]]; congruence.
Qed.

Lemma wp_rx_decides a p q G r : p ∈ q -> pkt_type_ p = kConnectResp -> rpc_ok G None a r -> histories_ok G ->
  all_for G a q ->
  Z.of_nat (length (session_vec_ r) + length q) <= 65535 -> sm_rx_queue_ r = q ->
  wp (handle_sm_rx_st resolve false allocs q)
    (fun _ r' => exists G', handled G a r (length q) G' r' /\ sm_rx_queue_ r' = [] /\ decided (pkt_token_ p) G') r.
Proof.
  intros Hin Ht HR HG Hq Hlen Hqueue. destruct (Hq p Hin) as [(g & Hg & _) _].
  eapply wp_mono; [apply (wp_rx_effect a false p (fun G => is_Some (G !! pkt_token_ p))
    (fun _ G' _ => is_Some (G' !! pkt_token_ p) /\ decided (pkt_token_ p) G')) with (q := q) (G := G); eauto|].
  - intros G1 G2 Hev [g1 H1]. destruct (ev_old _ _ _ Hev _ g1 H1) as (g2 & H2 & _). eauto.
  - intros _ n G2 r2 G3 r3 [[g2 H2] Hd] H3.
    split; [destruct (ev_old _ _ _ (ha_evolves _ _ _ _ _ _ H3) _ g2 H2) as (g3 & E3 & _); eauto|].
    eapply decided_evolves; [exact H2|apply H3|exact Hd].
  - intros G1 r1 HR1 HG1 (g1 & Hg1 & (_ & C2 & C3) & _) Hd _. apply client_dest in Hd; [|rewrite Ht; reflexivity].
    unfold handle_sm_pkt. rewrite Ht. cbn [sm_pkt_type_is_req]. apply wpx_bind. cbn [modify wpx].
    eapply wpx_mono; [apply connect_resp_decides; [exact Ht|]|auto|].
    + cbn. intros s Hs. rewrite (entry_local _ _ _ _ _ s HR1 Hs), C3.
      destruct (ro_client _ _ _ _ HR1 _ g1 Hg1) as ([? _] & _); [congruence|lia].
    + intros [] r2 Hst G2 Hev HR2. destruct (ev_old _ _ _ Hev _ g1 Hg1) as (g2 & H2 & Hgr). split; [eauto|].
      intros g3 H3 Ho. replace g3 with g2 in * by congruence.
      assert (cl g2 = a) as Ha2 by (rewrite (gr_cl _ _ _ Hgr); congruence).
      destruct (ro_client _ _ _ _ HR2 _ g2 H2 Ha2) as (_ & Hat & _). unfold client_at in Hat.
      rewrite Ho in Hat. destruct Hat as (s & Hs & _ & Hcs & _). apply (Hst s); [|exact Hcs].
      rewrite C3, <- (gr_num _ _ _ Hgr). exact Hs.
  - intros [] r' (G' & Hh & Hq' & _ & Hd). exists G'. auto.
Qed.

(** ** The scan sends again *)

Definition scanned (r r' : Rpc) : Prop := later r r' /\ session_vec_ r' = session_vec_ r.

#[local] Instance scanned_preorder : PreOrder scanned.
Proof.
  split; [intros r; split; reflexivity|]. intros r1 r2 r3 [A1 A2] [B1 B2].
  split; [etransitivity; eassumption|congruence].
Qed.

Lemma send_scanned s : frames scanned (send_sm_req_st s).
Proof.
  unfold send_sm_req_st. apply frames_bind; [typeclasses eauto|..].
  - apply frames_modify. intros r. split; [apply later_same|]; reflexivity.
  - intros []. apply frames_modify. intros r. split; [apply later_send|reflexivity].
Qed.

Lemma loss_scan_scanned timed_out ns : frames scanned (sm_loss_scan timed_out ns).
Proof.
  induction ns as [|n ns IH]; cbn [sm_loss_scan]; [apply frames_ret; typeclasses eauto|].
  apply frames_bind; [typeclasses eauto|..].
  { apply frames_pure; [typeclasses eauto|]. intros r. unfold session_at, bind, gets.
    destruct (_ !! _); reflexivity || exact I. }
  intros o. apply frames_bind; [typeclasses eauto| |auto].
  destruct o as [s|]; [|apply frames_ret; typeclasses eauto].
  destruct (state_ s); try (apply frames_ret; typeclasses eauto);
    (apply frames_when; [typeclasses eauto|apply send_scanned]).
Qed.

Lemma loss_scan_sends timed_out n s ns : forall r, entry r n = Some (Some s) ->
  state_ s = SessionState.kConnectInProgress -> n ∈ ns -> timed_out n = true ->
  wpx (fun _ => True) (sm_loss_scan timed_out ns) (fun _ r' => sends r r' (fun q => q = sm_request s)) r.
Proof.
  induction ns as [|m ns IH]; intros r Hs Hst Hin Hto; [inversion Hin|]. cbn [sm_loss_scan]. apply wpx_bind.
  unfold session_at. apply wpx_bind. cbn [gets wpx].
  destruct (decide (m = n)) as [->|Hne].
  - rewrite Hs. cbn [ret wpx]. apply wpx_bind. rewrite Hst, Hto. cbn [when_]. unfold send_sm_req_st. apply wpx_bind.
    cbn [modify wpx sm_pkt_udp_tx_st].
    eapply wpx_mono; [apply loss_scan_scanned|auto|]. intros [] r' [[Hsuf _] _]. eapply sends_later_r; [|exact Hsuf].
    exists [sm_request s], (sm_request s). split; [reflexivity|]. split; [left|reflexivity].
  - apply elem_of_cons in Hin as [?|Hin]; [congruence|]. destruct (session_vec_ r !! Z.to_nat m) as [o|]; [|exact I].
    cbn [ret wpx]. apply wpx_bind.
    assert (frames scanned match o with
      | Some s0 => match state_ s0 with SessionState.kConnectInProgress | SessionState.kDisconnectInProgress =>
        when_ (timed_out m) (send_sm_req_st s0) | _ => ret tt end
      | None => ret tt end) as Hf.
    { destruct o as [s0|]; [|apply frames_ret; typeclasses eauto].
      destruct (state_ s0); try (apply frames_ret; typeclasses eauto);
        (apply frames_when; [typeclasses eauto|apply send_scanned]). }
    eapply wpx_mono; [apply Hf|auto|]. intros [] r1 [Hl Hv].
    eapply wpx_mono; [apply IH; [rewrite Hv; exact Hs|exact Hst|exact Hin|exact Hto]|auto|].
    intros [] r2 H2. eapply sends_later_l; eassumption.
Qed.

(** ** Turns of the event loop *)

Definition is_request (t : Z) (q : SmPkt) : Prop := pkt_type_ q = kConnectReq /\ pkt_token_ q = t.

Lemma turn_resends G a r t : rpc_ok G None a r -> histories_ok G -> waits t a G ->
  Z.of_nat (length (session_vec_ r) + length (sm_rx_queue_ r)) <= 65535 ->
  wp (run_event_loop_do_one_st resolve false allocs true (fun _ => true))
    (fun _ r' => exists G', handled G a r (length (sm_rx_queue_ r)) G' r' /\ sm_rx_queue_ r' = [] /\
       (decided t G' \/ waits t a G' /\ sends r r' (is_request t))) r.
Proof.
  intros HR HG (g & Hg & Hc & Ho) Hlen. unfold run_event_loop_do_one_st. apply wp_bind, wp_gets, wp_bind.
  eapply wp_mono; [apply (wp_rx_handled a false _ G r HR HG (ro_queue _ _ _ _ HR) Hlen eq_refl)|].
  intros [] r1 (G1 & H1 & Hq1). cbn [when_].
  unfold pkt_loss_scan_st. apply wp_bind, wp_gets.
  destruct (ev_old _ _ _ (ha_evolves _ _ _ _ _ _ H1) t g Hg) as (g1 & Hg1 & Hgr).
  assert (forall n, n ∈ merge_sort Z.le (elements (sm_pending_reqs_ r1)) -> num_ok n r1) as Hns.
  { intros n Hn. apply (ro_pending _ _ _ _ (ha_ok _ _ _ _ _ _ H1)).
    rewrite merge_sort_Permutation, elem_of_elements in Hn. exact Hn. }
  pose proof (wp_and _ _ _ _ (wp_sm_loss_scan resolve G1 a (fun _ =>
    true) _ r1 (ha_ok _ _ _ _ _ _ H1) Hns) (loss_scan_scanned (fun _ => true) _ r1)) as Hscan.
  assert (forall r2, rpc_ok G1 None a r2 -> scanned r1 r2 -> handled G a r (length (sm_rx_queue_ r)) G1 r2 /\
    sm_rx_queue_ r2 = []) as Hdone.
  { intros r2 HR2 [[Hsuf Hq2] Hv]. split; [|congruence]. destruct H1 as [A1 A2 A3 A4 A5].
    split; auto; [etransitivity; eassumption|rewrite Hv; exact A5]. }
  destruct (decide (ph g1 = Opening)) as [Ho1|Hno].
  - assert (cl g1 = a) as Hc1 by (rewrite (gr_cl _ _ _ Hgr); exact Hc).
    destruct (ro_client _ _ _ _ (ha_ok _ _ _ _ _ _ H1) t g1 Hg1 Hc1) as (Hn & Hat & _).
    unfold client_at in Hat. rewrite Ho1 in Hat. destruct Hat as (s & Hs & He & Hst & _).
    destruct (ro_opening _ _ _ _ (ha_ok _ _ _ _ _ _ H1) t g1 Hg1 Hc1 Ho1) as [Hpend|]; [|discriminate].
    eapply wp_mono; [eapply wp_and; [exact Hscan|apply (loss_scan_sends _ (num g1) s);
      [exact Hs|exact Hst| |reflexivity]]|].
    { rewrite merge_sort_Permutation. apply elem_of_elements, Hpend. }
    intros [] r2 [[[HR2 _] Hsc] Hsend]. exists G1. destruct (Hdone r2 HR2 Hsc). split; [assumption|].
    split; [assumption|]. right. split; [exists g1; auto|].
    destruct Hsend as (l & q & E & Hq & ->). destruct (ha_sent _ _ _ _ _ _ H1) as [l1 E1].
    exists (l ++ l1), (sm_request s). split; [rewrite E, E1; apply app_assoc|].
    split; [apply elem_of_app; auto|]. unfold is_request, sm_request. cbn. rewrite bool_decide_true by exact Hst.
    split; [reflexivity|]. apply He.
  - eapply wp_mono; [exact Hscan|]. intros [] r2 [[HR2 _] Hsc]. exists G1. destruct (Hdone r2 HR2 Hsc).
    split; [assumption|]. split; [assumption|]. left. intros g2 Hg2. congruence.
Qed.

Lemma turn_answers G a b r p : rpc_ok G None a r -> histories_ok G -> p ∈ sm_rx_queue_ r -> pkt_type_ p = kConnectReq ->
  a <> b -> waits (pkt_token_ p) b G ->
  Z.of_nat (length (session_vec_ r) + length (sm_rx_queue_ r)) <= 65535 ->
  wp (run_event_loop_do_one_st resolve false allocs false (fun _ => false))
    (fun _ r' => exists G', handled G a r (length (sm_rx_queue_ r)) G' r' /\ sends r r' (is_answer (pkt_token_ p))) r.
Proof.
  intros HR HG Hin Ht Hne Hw Hlen. unfold run_event_loop_do_one_st. apply wp_bind, wp_gets, wp_bind.
  eapply wp_mono; [apply (wp_rx_answers a b false p _ G r Hin Ht Hne Hw HR HG (ro_queue _ _ _ _ HR) Hlen eq_refl)|].
  intros [] r1 (G1 & H1 & _ & Hs). apply wp_ret. eauto.
Qed.

Lemma turn_decides G a r p : rpc_ok G None a r -> histories_ok G -> p ∈ sm_rx_queue_ r ->
  pkt_type_ p = kConnectResp ->
  Z.of_nat (length (session_vec_ r) + length (sm_rx_queue_ r)) <= 65535 ->
  wp (run_event_loop_do_one_st resolve false allocs false (fun _ => false))
    (fun _ r' => exists G', handled G a r (length (sm_rx_queue_ r)) G' r' /\ decided (pkt_token_ p) G') r.
Proof.
  intros HR HG Hin Ht Hlen. unfold run_event_loop_do_one_st. apply wp_bind, wp_gets, wp_bind.
  eapply wp_mono; [apply (wp_rx_decides a p _ G r Hin Ht HR HG (ro_queue _ _ _ _ HR) Hlen eq_refl)|].
  intros [] r1 (G1 & H1 & _ & Hs). apply wp_ret. eauto.
Qed.

End Loop.

(** ** Recovery *)

Section Recovery.
Context (resolve : addr -> bytes -> option bytes).

(** [p] is among the packets that an object has sent after its first [lost] ones. *)
Definition sent_after (lost : addr -> nat) (c : cluster) (p : SmPkt) : Prop :=
  exists a r, rpcs c !! a = Some r /\ p ∈ take (length (udp_sent r) - lost a) (udp_sent r).

(** A run in which only such packets arrive. *)
Inductive recovers (lost : addr -> nat) : cluster -> list event -> cluster -> Prop :=
  | recovers_nil c : recovers lost c [] c
  | recovers_cons c e c1 es c2 : enabled c e -> (forall p, e = Receive p -> sent_after lost c p) ->
    perform resolve e c = Done c1 ->
      recovers lost c1 es c2 -> recovers lost c (e :: es) c2.

Definition lost_at (c : cluster) (a : addr) : nat :=
  match rpcs c !! a with Some r => length (udp_sent r) | None => 0 end.

Lemma sent_after_sent lost c p : sent_after lost c p -> sent c p.
Proof. intros (a & r & Ha & Hp). left. exists a, r. split; [exact Ha|]. apply list_elem_of_lookup in Hp as [i Hi].
apply lookup_take_Some in Hi as [Hi _]. eapply list_elem_of_lookup_2, Hi. Qed.

Lemma sends_after lost c a r r' P : rpcs c !! a = Some r' -> (lost a <= length (udp_sent r))%nat -> sends r r' P ->
  exists q, P q /\ q ∈ udp_sent r' /\ sent_after lost c q.
Proof.
  intros Ha Hl (l & q & E & Hq & HP). exists q. split; [exact HP|]. split; [rewrite E; apply elem_of_app; auto|].
  exists a, r'. split; [exact Ha|]. rewrite E, length_app.
  rewrite take_app_ge by lia. apply elem_of_app. auto.
Qed.

(** A turn, with what is known of it. *)
Lemma turn_at G c a r allocs scan timed_out (P : history -> Rpc -> Prop) : cluster_ok G c -> rpcs c !! a = Some r ->
  wp (run_event_loop_do_one_st (resolve a) false allocs scan timed_out)
    (fun _ r' => exists G', handled G a r (length (sm_rx_queue_ r)) G' r' /\ P G' r') r ->
  exists G' r', perform resolve (Turn a false allocs scan timed_out) c = Done (set_rpcs (<[a := r']> (rpcs c)) c) /\
    handled G a r (length (sm_rx_queue_ r)) G' r' /\ P G' r' /\ cluster_ok G' (set_rpcs (<[a := r']> (rpcs c)) c).
Proof.
  intros HC Ha Hm. apply wp_Done in Hm as (x & r' & Hrun & G' & Hh & HP). exists G', r'.
  split; [unfold perform, at_rpc; rewrite Ha, Hrun; reflexivity|].
  split; [exact Hh|]. split; [exact HP|]. destruct Hh as [A1 A2 A3 A4 A5]. eapply ok_put; eassumption.
Qed.

(** The arrival of a packet at an object that exists. *)
Lemma receive_at G c p r : cluster_ok G c -> sent c p -> rpcs c !! destination p = Some r ->
  perform resolve (Receive p) c = Done (set_rpcs (<[destination p := set_rx_queue (sm_rx_queue_ r ++ [p]) r]> (rpcs c)) c) /\
  cluster_ok G (set_rpcs (<[destination p := set_rx_queue (sm_rx_queue_ r ++ [p]) r]> (rpcs c)) c).
Proof.
  intros HC Hs Hr. pose proof (sent_ok G c p HC Hs) as Hp. destruct (co_rpc _ _ HC _ r Hr) as (HR & Hname & Hid).
  split.
  - destruct (step_receive resolve G c p HC Hs) as (c' & G' & Hrun & _). rewrite Hrun. f_equal.
    unfold perform, sm_thread_func in Hrun.
    destruct Hp as (g & _ & _ & _ & _ & Hpk).
    rewrite bool_decide_false in Hrun by (intros E; rewrite E in Hpk; exact Hpk).
    destruct (destination p) as [[h pt] i]. cbn in Hid. destruct (Z.ltb_spec kMaxRpcId i); [lia|].
    unfold bind at 1 in Hrun. cbn [gets] in Hrun. rewrite Hr in Hrun. injection Hrun as <-. reflexivity.
  - eapply ok_put; [exact HC|exact Hr|apply evolves_refl|apply HC|]. apply ok_queue; [exact HR|].
    intros q [Hq| ->%list_elem_of_singleton]%elem_of_app; [exact (ro_queue _ _ _ _ HR q Hq)|auto].
Qed.

(** What a program sees of a session that is decided. *)
Lemma decided_seen G c a r t g : cluster_ok G c -> rpcs c !! a = Some r -> G !! t = Some g -> cl g = a ->
  decided t G ->
  reports (num g) r <> [] \/ exists s, client_session c a (num g) s /\ state_ s = SessionState.kDisconnectInProgress.
Proof.
  intros HC Ha Hg Hc Hd. destruct (ro_client _ _ _ _ (proj1 (co_rpc _ _ HC a r Ha)) t g Hg Hc) as ([Hn _] & Hat & _).
  unfold client_at in Hat. destruct (ph g) eqn:Hph.
  - exfalso. exact (Hd g Hg Hph).
  - destruct Hat as (? & ? & _ & _ & _ & _ & _ & _ & ->). left. discriminate.
  - destruct Hat as [(s & j & Hs & He & Hst & _)|[_ ->]]; [right|left; discriminate]. exists s. split; [|exact Hst].
    exists r. destruct He as (? & _). auto.
  - destruct Hat as [_ ->]. left. discriminate.
Qed.

(** A state of recovery: what was sent before is [lost]. *)
Definition grew (lost : addr -> nat) (c : cluster) : Prop :=
  forall a r, rpcs c !! a = Some r -> (lost a <= length (udp_sent r))%nat.

Lemma grew_start c : grew (lost_at c) c.
Proof. intros a r Ha. unfold lost_at. rewrite Ha. lia. Qed.

Lemma grew_put lost c a r r' : grew lost c -> rpcs c !! a = Some r -> suffix (udp_sent r) (udp_sent r') ->
  grew lost (set_rpcs (<[a := r']> (rpcs c)) c).
Proof.
  intros Hg Ha Hs b x. cbn. intros [[<- <-]|[_ Hb]]%lookup_insert_Some; [|exact (Hg b x Hb)]. specialize (Hg _ _ Ha).
  apply suffix_length in Hs. lia.
Qed.

(** The server gets the request and answers it. *)
Lemma recover_server lost G c t a b rb p : cluster_ok G c -> grew lost c -> a <> b -> waits t a G ->
  rpcs c !! b = Some rb ->
  is_request t p -> sent_after lost c p -> destination p = b ->
    Z.of_nat (length (session_vec_ rb) + length (sm_rx_queue_ rb)) < 65535 ->
  exists es c' G' q, recovers lost c es c' /\ cluster_ok G' c' /\ grew lost c' /\ evolves b G G' /\
    rpcs c' !! a = rpcs c !! a /\ is_answer t q /\ sent_after lost c' q.
Proof.
  intros HC Hgrew Hne Hw Hb [Ht Htok] Hsent Hd Hroom. subst b. pose proof (sent_after_sent _ _ _ Hsent) as Hs.
  destruct (receive_at G c p rb HC Hs Hb) as [Hrun2 HC2]. set (c2 := set_rpcs _ c) in Hrun2, HC2.
  set (r2 := set_rx_queue (sm_rx_queue_ rb ++ [p]) rb) in c2.
  assert (rpcs c2 !! destination p = Some r2) as Hr2 by apply lookup_insert_eq.
  assert (grew lost c2) as Hgrew2 by (eapply grew_put; [exact Hgrew|exact Hb|reflexivity]).
  assert (Z.of_nat (length (session_vec_ r2) + length (sm_rx_queue_ r2)) <= 65535) as Hroom2
    by (cbn; rewrite length_app; cbn; lia).
  destruct (turn_at G c2 (destination p) r2 8 false (fun _ => false) (fun _ r' =>
    sends r2 r' (is_answer t)) HC2 Hr2) as (G3 & r3 & Hrun3 & H3 & Hans & HC3).
  { rewrite <- Htok. eapply turn_answers; [apply (co_rpc _ _ HC2 _ r2 Hr2)|apply HC2| |exact Ht|
      exact (not_eq_sym Hne)|rewrite Htok; exact Hw|exact Hroom2]. cbn. apply elem_of_app. right. left. }
  set (c3 := set_rpcs _ c2) in Hrun3, HC3.
  assert (rpcs c3 !! destination p = Some r3) as Hr3 by apply lookup_insert_eq.
  destruct (sends_after lost c3 (destination p) r2 r3 _ Hr3 (Hgrew2 _ _ Hr2) Hans) as (q & Hq & _ & Hafter).
  exists [Receive p; Turn (destination p) false 8 false (fun _ => false)], c3, G3, q.
  split; [eapply recovers_cons; [exact Hs|intros p' [= <-]; exact Hsent|exact Hrun2|eapply recovers_cons;
    [exists r2; auto|discriminate|exact Hrun3|constructor]]|].
  split; [exact HC3|]. split; [eapply grew_put; [exact Hgrew2|exact Hr2|apply H3]|]. split; [apply H3|].
  split; [cbn; rewrite !lookup_insert_ne by congruence; reflexivity|]. auto.
Qed.

(** The client gets the answer. *)
Lemma recover_client lost G c t a r q : cluster_ok G c -> grew lost c -> waits t a G -> rpcs c !! a = Some r ->
  is_answer t q -> sent_after lost c q ->
  Z.of_nat (length (session_vec_ r) + length (sm_rx_queue_ r)) < 65535 ->
  exists es c' G' r', recovers lost c es c' /\ cluster_ok G' c' /\ evolves a G G' /\ rpcs c' !! a = Some r' /\
    decided t G'.
Proof.
  intros HC Hgrew (g & Hg & Hc & Ho) Ha [Ht Htok] Hsent Hroom. pose proof (sent_after_sent _ _ _ Hsent) as Hs.
  assert (destination q = a) as Hd.
  { destruct (sent_ok G c q HC Hs) as (g0 & Hg0 & (_ & C2 & _) & _). unfold destination. rewrite Ht. cbn.
    rewrite Htok in Hg0. unfold ep_addr in C2. congruence. }
  rewrite <- Hd in Ha. destruct (receive_at G c q r HC Hs Ha) as [Hrun2 HC2]. rewrite Hd in *.
  set (c2 := set_rpcs _ c) in Hrun2, HC2. set (r2 := set_rx_queue (sm_rx_queue_ r ++ [q]) r) in c2.
  assert (rpcs c2 !! a = Some r2) as Hr2 by apply lookup_insert_eq.
  assert (Z.of_nat (length (session_vec_ r2) + length (sm_rx_queue_ r2)) <= 65535) as Hroom2
    by (cbn; rewrite length_app; cbn; lia).
  destruct (turn_at G c2 a r2 8 false (fun _ => false) (fun G' _ =>
    decided t G') HC2 Hr2) as (G3 & r3 & Hrun3 & H3 & Hdec & HC3).
  { rewrite <- Htok. eapply turn_decides; [apply (co_rpc _ _ HC2 _ r2 Hr2)|apply HC2| |exact Ht|exact Hroom2]. cbn.
    apply elem_of_app. right. left. }
  exists [Receive q; Turn a false 8 false (fun _ => false)], (set_rpcs (<[a := r3]> (rpcs c2)) c2), G3, r3.
  split; [eapply recovers_cons; [exact Hs|intros p' [= <-]; exact Hsent|exact Hrun2|eapply recovers_cons;
    [exists r2; auto|discriminate|exact Hrun3|constructor]]|].
  split; [exact HC3|]. split; [apply H3|]. split; [apply lookup_insert_eq|exact Hdec].
Qed.

Lemma recovery_app lost c es c1 es' c2 : recovers lost c es c1 -> recovers lost c1 es' c2 ->
  recovers lost c (es ++ es') c2.
Proof. induction 1; intros Hr; [exact Hr|]. cbn. eapply recovers_cons; eauto. Qed.

Lemma conn_kept a G G' t g : evolves a G G' -> G !! t = Some g -> exists g', G' !! t = Some g' /\ cl g' = cl g /\
  num g' = num g.
Proof. intros Hev Hg. destruct (ev_old _ _ _ Hev t g Hg) as (g' & Hg' & Hgr). exists g'.
rewrite (gr_cl _ _ _ Hgr), (gr_num _ _ _ Hgr). auto. Qed.

Lemma recover_session G c a r t g rb : cluster_ok G c -> rpcs c !! a = Some r -> G !! t = Some g -> cl g = a ->
  ph g = Opening -> rpcs c !! srv g = Some rb ->
  Z.of_nat (length (session_vec_ r) + length (sm_rx_queue_ r)) < 65535 ->
    Z.of_nat (length (session_vec_ rb) + length (sm_rx_queue_ rb)) < 65535 ->
  exists es c' G' r' g', recovers (lost_at c) c es c' /\ cluster_ok G' c' /\ rpcs c' !! a = Some r' /\
    G' !! t = Some g' /\ cl g' = a /\ num g' = num g /\ decided t G'.
Proof.
  intros HC Ha Hg Hc Ho Hb Hroom Hroomb. assert (waits t a G) as Hw by (exists g; auto).
  destruct (co_histories _ _ HC t g Hg) as (Hne & _).
  destruct (turn_at G c a r 8 true (fun _ => true) (fun G' r' => sm_rx_queue_ r' = [] /\
    (decided t G' \/ waits t a G' /\ sends r r' (is_request t))) HC Ha)
    as (G1 & r1 & Hrun1 & H1 & (Hq1 & Hcase) & HC1).
  { eapply turn_resends; [apply (co_rpc _ _ HC a r Ha)|apply HC|exact Hw|lia]. }
  set (c1 := set_rpcs _ c) in Hrun1, HC1. assert (rpcs c1 !! a = Some r1) as Hr1 by apply lookup_insert_eq.
  destruct (conn_kept _ _ _ t g (ha_evolves _ _ _ _ _ _ H1) Hg) as (g1 & Hg1 & Ec1 & En1).
  assert (recovers (lost_at c) c [Turn a false 8 true (fun _ => true)] c1) as Hrec1
    by (eapply recovers_cons; [exists r; split; [exact Ha|lia]|discriminate|exact Hrun1|constructor]).
  destruct Hcase as [Hdec|[Hw1 Hsend]].
  { eexists _, c1, G1, r1, g1. split_and!; eauto; congruence. }
  pose proof (grew_put _ _ _ _ r1 (grew_start c) Ha (ha_sent _ _ _ _ _ _ H1)) as Hgrew1. fold c1 in Hgrew1.
  destruct (sends_after (lost_at c) c1 a r r1 _ Hr1 (grew_start c a r Ha) Hsend) as (p & Hp & Hpin & Hafter).
  assert (rpcs c1 !! srv g = Some rb) as Hb1 by (cbn; rewrite lookup_insert_ne by congruence; exact Hb).
  assert (destination p = srv g) as Hd.
  { destruct (ro_sent _ _ _ _ (ha_ok _ _ _ _ _ _ H1) p Hpin) as (g0 & Hg0 & _ & _ & Hsa & _).
    destruct Hp as [Hpt Htok]. unfold destination. rewrite Hpt. cbn.
    destruct (ev_old _ _ _ (ha_evolves _ _ _ _ _ _ H1) t g Hg) as (g2 & Hg2 & Hgr). rewrite Htok in Hg0.
    rewrite <- (gr_srv _ _ _ Hgr). unfold ep_addr in Hsa. congruence. }
  destruct (recover_server (lost_at c) G1 c1 t a (srv g) rb p HC1 Hgrew1 ltac:(congruence) Hw1 Hb1 Hp Hafter Hd Hroomb)
    as (es2 & c3 & G3 & q & Hrec2 & HC3 & Hgrew3 & Hev3 & Ha3 & Hq & Hafter3).
  destruct (conn_kept _ _ _ t g1 Hev3 Hg1) as (g3 & Hg3 & Ec3 & En3).
  assert (waits t a G3) as Hw3 by (eapply waits_evolves; [|exact Hev3|exact Hw1]; congruence).
  assert (Z.of_nat (length (session_vec_ r1) + length (sm_rx_queue_ r1)) < 65535) as Hroom1
    by (pose proof (ha_room _ _ _ _ _ _ H1); rewrite Hq1; cbn; lia).
  destruct (recover_client (lost_at c) G3 c3 t a r1 q HC3 Hgrew3 Hw3 ltac:(congruence) Hq Hafter3 Hroom1) as (es3 & c5 & G5 & r5 & Hrec3 & HC5 & Hev5 & Ha5 & Hdec).
  destruct (conn_kept _ _ _ t g3 Hev5 Hg3) as (g5 & Hg5 & Ec5 & En5). eexists _, c5, G5, r5, g5.
  split; [eapply recovery_app; [exact Hrec1|eapply recovery_app; eassumption]|]. split_and!; auto; congruence.
Qed.

(** C8: No session stays undecided.  Take any reachable state in which a client's session waits for
    the answer of an object that is registered, and let every packet that has been sent so far be
    lost.  The packets sent from there on are enough: there is a continuation in which only such
    packets arrive and after which the session management handler has been called for the session,
    or the session is being taken down because the server's routing information was no use. *)
Theorem sm_recovers c a r n s rb : reach resolve c -> rpcs c !! a = Some r -> client_session c a n s ->
  state_ s = SessionState.kConnectInProgress ->
  rpcs c !! ep_addr (server_ s) = Some rb ->
  Z.of_nat (length (session_vec_ r) + length (sm_rx_queue_ r)) < 65535 ->
    Z.of_nat (length (session_vec_ rb) + length (sm_rx_queue_ rb)) < 65535 ->
  exists es c' r', recovers (lost_at c) c es c' /\ rpcs c' !! a = Some r' /\
    (reports n r' <> [] \/ exists s', client_session c' a n s' /\ state_ s' = SessionState.kDisconnectInProgress).
Proof.
  intros Hr Ha (r0 & Ha0 & Hn & Hs & Hrole) Hst Hb Hroom Hroomb. replace r0 with r in * by congruence.
  destruct (reach_ok resolve c Hr) as [G HC].
  pose proof (proj1 (co_rpc _ _ HC a r Ha)) as HR. pose proof (ro_role _ _ _ _ HR _ s Hs) as Hro.
  rewrite Hrole in Hro.
  destruct Hro as (g & Hg & Hc & Hnum). assert (num g = n) as En by lia.
  destruct (ro_client _ _ _ _ HR _ g Hg Hc) as (_ & Hat & _).
  rewrite En, Hs in Hat. destruct (waiting_client _ _ _ _ Hat Hst) as (Ho & (_ & _ & _ & _ & _ & Esrv) & _).
  destruct (recover_session G c a r _ g rb HC Ha Hg Hc Ho) as (es & c' & G' & r' & g' & Hrec & HC' & Ha' & Hg' & Hc' & En' & Hdec); [congruence|assumption..|].
  exists es, c', r'. split; [exact Hrec|]. split; [exact Ha'|]. rewrite <- En, <- En'.
  eapply decided_seen; eassumption.
Qed.

End Recovery.

Lemma sm_recovers_witness : exists es c' r', recovers any_route (lost_at sample_opening) sample_opening es c' /\
  rpcs c' !! sample_client = Some r' /\
  (reports 0 r' <> [] \/ exists s', client_session c' sample_client 0 s' /\
    state_ s' = SessionState.kDisconnectInProgress).
Proof.
  destruct (rpcs sample_opening !! sample_client) as [r|] eqn:Er; [|vm_compute in Er; discriminate].
  destruct (rpcs sample_opening !! sample_server) as [rb|] eqn:Eb; [|vm_compute in Eb; discriminate].
  apply (sm_recovers any_route sample_opening sample_client r 0 (first_session sample_client sample_opening) rb);
    [exact sample_opening_reached|exact Er| |vm_compute; reflexivity|exact Eb| |].
  - exists r. split; [exact Er|]. vm_compute in Er. injection Er as <-. split; [lia|]. split; reflexivity.
  - vm_compute in Er. injection Er as <-. reflexivity.
  - vm_compute in Eb. injection Eb as <-. reflexivity.
Defined.

(** ** What the code does not cover *)

(** A second connect response, late, when the session is being taken down: the pending disconnect
    request is forgotten, the session stays, and the scan never sends the request again. *)
Lemma late_response_forgets resolve allocs r p s : pkt_type_ p = kConnectResp ->
  ep_rpc_id_ (pkt_client_ p) = rpc_id_ r ->
  entry r (session_num_ (pkt_client_ p)) = Some (Some s) -> state_ s = SessionState.kDisconnectInProgress ->
  0 <= session_num_ (pkt_client_ p) -> sm_pending_reqs_ r = {[session_num_ (pkt_client_ p)]} ->
    sm_rx_queue_ r = [p] ->
  exists r', run_event_loop_do_one_st resolve false allocs true (fun _ => true) r = Done (tt, r') /\
    sm_pending_reqs_ r' = ∅ /\ session_vec_ r' = session_vec_ r /\ udp_sent r' = udp_sent r.
Proof.
  intros Ht Hid Hs Hst H0 Hp Hq. pose proof (lookup_lt_Some _ _ _ Hs) as Hlt.
  assert (sm_pending_reqs_ r ∖ {[session_num_ (pkt_client_ p)]} = ∅) as Hnone by (rewrite Hp; set_solver).
  exists (set_pending ∅ (set_rx_queue [] r)). split; [|auto]. unfold run_event_loop_do_one_st. unfold bind at 1.
  cbn [gets]. rewrite Hq. cbn [handle_sm_rx_st].
  unfold bind at 1 2. cbn [modify]. unfold bind at 1. unfold handle_sm_pkt. rewrite Ht. cbn [sm_pkt_type_is_req].
  unfold bind at 1. cbn [modify set_rx_queue sm_pending_reqs_]. rewrite Hnone.
  unfold handle_connect_resp_st. unfold bind at 1. cbn [gets]. unfold bind at 1. rewrite bool_decide_true by exact Ht.
  cbn [set_pending set_rx_queue rpc_id_ session_vec_ andb].
  rewrite (proj2 (Z.eqb_eq _ _) Hid). cbn [p_assert ret]. unfold bind at 1. rewrite (proj2 (Z.ltb_lt _ _)) by lia.
  cbn [p_assert ret]. unfold bind at 1, session_at. unfold bind at 1.
  cbn [gets set_pending set_rx_queue session_vec_]. rewrite Hs. cbn [ret]. rewrite bool_decide_false by congruence.
  cbn [negb ret when_].
  unfold pkt_loss_scan_st, bind, gets. cbn [set_pending sm_pending_reqs_]. rewrite elements_empty. reflexivity.
Qed.

(** A host name of 128 characters passes the test and does not fit, with its terminator, the field. *)
Definition long_uri : bytes := repeat 97 128 ++ text ":31850".

Lemma long_name_overflows : create_session_st 77 long_uri 0 (new_Rpc 1 (text "c") 31851 3 [7]) = Fault OutOfBounds.
Proof. vm_compute. reflexivity. Qed.

(** The identity 255 is outside the table of hooks. *)
Lemma invalid_id_out_of_bounds p c : ep_rpc_id_ (pkt_server_ p) = 255 -> pkt_type_ p = kConnectReq ->
  sm_thread_func p c = Fault OutOfBounds.
Proof. intros Hid Ht. unfold sm_thread_func, destination. rewrite Ht. rewrite bool_decide_false by discriminate.
cbn [sm_pkt_type_is_req]. rewrite Hid. reflexivity. Qed.

End ErpcSmLive.
