(* ===== verification/ErpcSmTimely.v ===== *)
(** * eRPC as the rest of the program sees it

    The session management of [ErpcSm] over a network that delivers, one request per turn of the
    caller's event loop, as an instance of the interface [Sessions.Erpc]: it has the properties
    [Sessions.ErpcLaws] on which the theorems on clients and servers rest, as long as the objects
    have ring entries for the sessions.  Message buffers can always be had here, and hold zeros.  So a client that starts against running servers connects to
    all their threads, with the handshake of eRPC in place of an assumption. *)

From Stdlib Require Import ZArith Lia.
From stdpp Require Import base numbers list gmap sorting strings.
From S2P Require Import Prelude Sessions ErpcSm ErpcSmInv ErpcSmStep ErpcSmNet ErpcSmLive.
Open Scope Z_scope.

Module ErpcSmTimely.
Export ErpcSmLive.
Local Open Scope m_scope.

(** ** The instance *)

(** [t_todo] are the requests on their way, [t_opened] the threads of the sessions. *)
Record timely := {
  t_net : cluster;
  t_todo : list SmPkt;
  t_opened : list (bytes * Z)
}.

Section Timely.
Context (resolve : addr -> bytes -> option bytes) (token : nat -> Z) (own : addr).

(** A request arrives, the server turns its event loop, and the response arrives. *)
Definition deliver (p : SmPkt) (c : cluster) : cluster :=
  let c1 := next resolve (quiet_turn (destination p)) (next resolve (Receive p) c) in
  match sent_by (destination p) c1 with
  | q :: _ => next resolve (Receive q) c1
  | [] => c1
  end.

Definition timely_create (uri : bytes) (tid : Z) (x : timely) : Z * timely :=
  match rpcs (t_net x) !! own with
  | None => (-1, x)
  | Some r =>
      match create_session_st (token (length (t_opened x))) uri tid r with
      | Fault _ => (-1, x)
      | Done (n, r') =>
          if n <? 0 then (n, x) else
          (n, {| t_net := set_rpcs (<[own := r']> (rpcs (t_net x))) (t_net x);
            t_todo := t_todo x ++ take 1 (udp_sent r');
                 t_opened := t_opened x ++ [(uri, tid)] |})
      end
  end.

Definition events_at (c : cluster) : list Sessions.sm_event :=
  match rpcs c !! own with Some r => sm_events r | None => [] end.

Definition timely_loop (x : timely) : list Sessions.sm_event * timely :=
  let c := next resolve (quiet_turn own) (t_net x) in
  let evs := drop (length (events_at (t_net x))) (events_at c) in
  match t_todo x with
  | [] => (evs, {| t_net := c; t_todo := []; t_opened := t_opened x |})
  | p :: todo => (evs, {| t_net := deliver p c; t_todo := todo; t_opened := t_opened x |})
  end.

Definition timely_connected (n : Z) (x : timely) : bool :=
  match rpcs (t_net x) !! own with
  | Some r => match is_connected n r with Done (b, _) => b | Fault _ => false end
  | None => false
  end.

Definition timely_erpc : Sessions.Erpc :=
  {| Sessions.Rpc := timely;
     Sessions.create_session := timely_create;
     Sessions.run_event_loop_once := timely_loop;
     Sessions.is_connected := timely_connected;
     Sessions.alloc_msg_buffer_or_die size x := (Some (repeat 0 size), x) |}.

(** ** What is true between the operations *)

(** The client's number of the session a packet is about. *)
Definition num_of (p : SmPkt) : Z := session_num_ (pkt_client_ p).

(** Sessions whose request or whose answer is on its way. *)
Definition timely_pending (x : timely) : list Z :=
  match rpcs (t_net x) !! own with Some r => map num_of (sm_rx_queue_ r ++ t_todo x) | None => [] end.

Definition timely_endpoint (x : timely) (n : Z) : option (bytes * Z) := if n <? 0 then None else t_opened x !! Z.to_nat n.

(** The object behind a URI and a thread number. *)
Definition target_addr (u : bytes * Z) : option addr :=
  match extract_hostname_from_uri u.1, extract_udp_port_from_uri u.1 with
  | Done h, Done p => Some (h, p, u.2)
  | _, _ => None
  end.

Definition waits_for (r : Rpc) (p : SmPkt) : Prop :=
  0 <= num_of p /\ exists s, entry r (num_of p) = Some (Some s) /\ state_ s = SessionState.kConnectInProgress.

(** A request that its server will accept as new. *)
Definition will_be_new (c : cluster) (r : Rpc) (p : SmPkt) : Prop :=
  pkt_type_ p = kConnectReq /\ sent c p /\ destination p <> own /\ ep_addr (pkt_client_ p) = own /\
    transport_type_ (pkt_server_ p) = transport_type r /\
  exists rb, rpcs c !! destination p = Some rb /\ conn_req_token_map_ rb !! pkt_token_ p = None.

(** The entry of a session to this thread. *)
Definition leads_to (o : option (option Session)) (u : bytes * Z) : Prop :=
  exists s, o = Some (Some s) /\ role_ s = kClient /\ target_addr u = Some (ep_addr (server_ s)).

Record timely_ok (x : timely) (r : Rpc) : Prop := {
  tk_reach : reach resolve (t_net x);
  tk_own : rpcs (t_net x) !! own = Some r;
  tk_opened : length (t_opened x) = length (session_vec_ r);
  tk_leads i u : t_opened x !! i = Some u -> leads_to (session_vec_ r !! i) u;
  tk_queue : (length (sm_rx_queue_ r) <= 1)%nat;
  tk_answer q : q ∈ sm_rx_queue_ r -> pkt_type_ q = kConnectResp /\ err_type_ q = kNoError;
  tk_todo p : p ∈ t_todo x -> will_be_new (t_net x) r p;
  tk_waits p : p ∈ sm_rx_queue_ r ++ t_todo x -> waits_for r p;
  tk_once : NoDup (map num_of (sm_rx_queue_ r ++ t_todo x));
  tk_tokens p i : sent (t_net x) p -> (length (t_opened x) <= i)%nat -> pkt_token_ p <> token i;
  tk_idle b rb : rpcs (t_net x) !! b = Some rb -> b <> own -> sm_rx_queue_ rb = [] /\
    transport_type rb = transport_type r
}.

(** How many of the requests on their way and of further sessions are for an object. *)
Definition load (todo : list SmPkt) (l : list (bytes * Z)) (b : addr) : nat :=
  length (filter (fun p => destination p = b) todo) + length (filter (fun u => target_addr u = Some b) l).

Definition a_target (c : cluster) (u : bytes * Z) : Prop :=
  exists host port, extract_hostname_from_uri u.1 = Done host /\ extract_udp_port_from_uri u.1 = Done port /\
    name_ok host /\ 0 <= u.2 <= kMaxRpcId /\ (host, port, u.2) <> own /\ is_Some (rpcs c !! (host, port, u.2)).

Record roomy (x : timely) (r : Rpc) (l : list (bytes * Z)) : Prop := {
  rm_target : Forall (a_target (t_net x)) l;
  rm_ring : kSessionCredits * Z.of_nat (length l) <= ring_entries_available_ r;
  rm_size : Z.of_nat (length (session_vec_ r) + length l) < 65535;
  rm_peer b rb : rpcs (t_net x) !! b = Some rb -> b <> own ->
    kSessionCredits * Z.of_nat (load (t_todo x) l b) <= ring_entries_available_ rb /\
    Z.of_nat (length (session_vec_ rb) + load (t_todo x) l b) < 65535
}.

Definition timely_can_open (x : timely) (l : list (bytes * Z)) : Prop := exists r, timely_ok x r /\ roomy x r l.

Context (Hresolve : forall a i, is_Some (resolve a i)) (Htoken : forall i j, token i = token j -> i = j).

Lemma connected_spec x r n : rpcs (t_net x) !! own = Some r ->
  timely_connected n x = true <-> 0 <= n /\ exists s, entry r n = Some (Some s) /\ state_ s = SessionState.kConnected.
Proof.
  intros Hr. unfold timely_connected, is_connected. rewrite Hr.
  destruct (Z.ltb_spec n 0); [split; [discriminate|lia]|].
  unfold session_at, bind, gets, ret, raise.
  destruct (entry r n) as [[s|]|]; split; try discriminate; try (intros (_ & s1 & ? & _); congruence).
  - intros Hb. split; [lia|]. exists s. split; [reflexivity|]. exact (bool_decide_eq_true_1 _ Hb).
  - intros (_ & s1 & [= <-] & Hst). exact (bool_decide_eq_true_2 _ Hst).
Qed.

(** ** Opening a session *)

Lemma create_timely x r uri tid l : timely_ok x r -> roomy x r ((uri, tid) :: l) -> exists host port,
  target_addr (uri, tid) = Some (host, port, tid) /\ (host, port, tid) <> own /\
    is_Some (rpcs (t_net x) !! (host, port, tid)) /\
  let s := opened_session r (token (length (t_opened x))) host port tid in
  let r' := opened_rpc r s in
  timely_create uri tid x = (Z.of_nat (length (session_vec_ r)),
    {| t_net := set_rpcs (<[own := r']> (rpcs (t_net x))) (t_net x); t_todo := t_todo x ++ [sm_request s];
      t_opened := t_opened x ++ [(uri, tid)] |}) /\
  reach resolve (set_rpcs (<[own := r']> (rpcs (t_net x))) (t_net x)) /\
  (forall p, sent (t_net x) p -> pkt_token_ p <> token (length (t_opened x))) /\ addr_of r = own.
Proof.
  intros HT HM. pose proof (rm_target _ _ _ HM) as Ht.
  apply Forall_cons in Ht as [(host & port & Hh & Hp & Hname & Hid & Hne & Hreg) _]. exists host, port.
  cbn in *. split; [unfold target_addr; cbn; rewrite Hh, Hp; reflexivity|]. split; [exact Hne|]. split; [exact Hreg|].
  destruct (reach_ok resolve _ (tk_reach _ _ HT)) as [G HC].
  destruct (co_rpc _ _ HC own r (tk_own _ _ HT)) as (HR & Hown & _).
  pose proof (ro_addr _ _ _ _ HR) as Haddr.
  assert (nexus_hostname_ r = own.1.1) as Hnexus by (rewrite <- Haddr; reflexivity).
  pose proof (rm_ring _ _ _ HM) as Hring. pose proof (rm_size _ _ _ HM) as Hsize. cbn [length] in Hring, Hsize.
  assert (forall p, sent (t_net x) p -> pkt_token_ p <> token (length (t_opened x))) as Hfresh.
  { intros p Hs. apply (tk_tokens _ _ HT p _ Hs). lia. }
  pose proof (create_session_run r (token (length (t_opened x))) uri tid host port Hh Hp Hname ltac:(rewrite Hnexus;
    exact Hown) ltac:(lia)) as Hrun.
  rewrite bool_decide_false in Hrun by congruence.
  assert (have_ring_entries r = true) as Hhave by (apply Z.leb_le; unfold kSessionCredits in *; lia).
  rewrite Hhave in Hrun. split; [|split; [|split; [exact Hfresh|exact Haddr]]].
  - unfold timely_create. rewrite (tk_own _ _ HT), Hrun.
    destruct (Z.ltb_spec (Z.of_nat (length (session_vec_ r))) 0); [lia|]. reflexivity.
  - eapply reach_step; [apply (tk_reach _ _ HT)| |].
    + instantiate (1 := Create own (token (length (t_opened x))) uri tid). exists r, host, port.
      rewrite (tk_own _ _ HT). split_and!; auto; try lia; apply Hname.
    + unfold perform, at_rpc. rewrite (tk_own _ _ HT), Hrun. reflexivity.
Qed.

(** Packets after an object has changed. *)
Abbreviation put c a r' := (set_rpcs (<[a := r']> (rpcs c)) c).

Lemma sent_put c a r r' l p : rpcs c !! a = Some r -> udp_sent r' = l ++ udp_sent r -> sent (put c a r') p <-> p ∈ l \/
  sent c p.
Proof.
  intros Ha Hl. split.
  - intros [(b & rb & Hb & Hp)|Hp]; [|right; right; exact Hp]. cbn in Hb.
    apply lookup_insert_Some in Hb as [[<- <-]|[Hne Hb]]; [|right; left; eauto].
    rewrite Hl in Hp. apply elem_of_app in Hp as [Hp|Hp]; [left; exact Hp|right; left; eauto].
  - intros [Hp|[(b & rb & Hb & Hp)|Hp]]; [| |right; exact Hp].
    + left. exists a, r'. split; [apply lookup_insert_eq|]. rewrite Hl. apply elem_of_app. auto.
    + left. destruct (decide (a = b)) as [<-|Hne]; [exists a, r'; split; [apply lookup_insert_eq|]; rewrite Hl;
        apply elem_of_app; right; congruence|].
      exists b, rb. split; [cbn; rewrite lookup_insert_ne by exact Hne; exact Hb|exact Hp].
Qed.

Lemma token_unseen c t b rb : reach resolve c -> (forall p, sent c p -> pkt_token_ p <> t) -> rpcs c !! b = Some rb ->
  conn_req_token_map_ rb !! t = None.
Proof.
  intros Hr Hfresh Hb. destruct (reach_ok resolve c Hr) as [G HC].
  destruct (conn_req_token_map_ rb !! t) as [j|] eqn:E; [exfalso|reflexivity].
  destruct (ro_map _ _ _ _ (proj1 (co_rpc _ _ HC b rb Hb)) t j E) as (g & Hg & _).
  destruct (co_client _ _ HC t g Hg) as [rc Hc].
  destruct (ro_client _ _ _ _ (proj1 (co_rpc _ _ HC _ rc Hc)) t g Hg eq_refl) as (_ & _ & Ht).
  apply list_elem_of_In, in_map_iff in Ht as (p & Ep & Hp).
  apply (Hfresh p); [left; exists (cl g), rc; split; [exact Hc|apply list_elem_of_In, Hp]|exact Ep].
Qed.

Lemma will_be_new_own c r r' l p : rpcs c !! own = Some r -> udp_sent r' = l ++ udp_sent r ->
  transport_type r' = transport_type r ->
  will_be_new c r p -> will_be_new (put c own r') r' p.
Proof.
  intros Ha Hl Et (H1 & H2 & H3 & H4 & H5 & rb & Hb & H6).
  do 4 (split; [assumption || apply (sent_put c own r r' l p Ha Hl); auto|]). split; [congruence|].
  exists rb. split; [cbn; rewrite lookup_insert_ne by congruence; exact Hb|exact H6].
Qed.

Lemma a_target_put c a r' u : a_target c u -> a_target (put c a r') u.
Proof.
  intros (host & port & H1 & H2 & H3 & H4 & H5 & H6). exists host, port. split_and!; auto; try apply H3; try apply H4.
  cbn.
  destruct (decide (a = (host, port, u.2))) as [->|Hne]; [rewrite lookup_insert_eq; eauto|rewrite lookup_insert_ne
    by exact Hne; exact H6].
Qed.

Lemma waits_snoc r r' o p : session_vec_ r' = session_vec_ r ++ [o] -> waits_for r p -> waits_for r' p.
Proof. intros Hv (H0 & s & Hs & Hst). split; [exact H0|]. exists s. split; [|exact Hst]. rewrite Hv.
apply lookup_app_l_Some, Hs. Qed.

Lemma waits_bound r p : waits_for r p -> num_of p < Z.of_nat (length (session_vec_ r)).
Proof. intros (H0 & s & Hs & _). apply lookup_lt_Some in Hs. lia. Qed.

Lemma create_timely_ok x r uri tid host port : let s := opened_session r (token (length (t_opened x))) host port tid in
  timely_ok x r -> target_addr (uri, tid) = Some (host, port, tid) -> (host, port, tid) <> own ->
    is_Some (rpcs (t_net x) !! (host, port, tid)) -> addr_of r = own ->
  (forall p, sent (t_net x) p -> pkt_token_ p <> token (length (t_opened x))) ->
    reach resolve (put (t_net x) own (opened_rpc r s)) ->
  timely_ok {| t_net := put (t_net x) own (opened_rpc r s); t_todo := t_todo x ++ [sm_request s];
    t_opened := t_opened x ++ [(uri, tid)] |} (opened_rpc r s).
Proof.
  intros s HT Htarget Hne [rb Hb] Haddr Hfresh Hreach. pose proof (tk_own _ _ HT) as Hown.
  assert (forall p, sent (put (t_net x) own (opened_rpc r s)) p <-> p ∈ [sm_request s] \/ sent (t_net x) p) as Hsent
    by (intros p; apply (sent_put _ _ r); [exact Hown|reflexivity]).
  assert (waits_for (opened_rpc r s) (sm_request s)) as Hnew.
  { split; [cbn; lia|]. exists s. split; [|reflexivity]. cbn. rewrite Nat2Z.id, lookup_app_r, Nat.sub_diag by lia.
    reflexivity. }
  split; cbn [t_net t_todo t_opened]; [exact Hreach|apply lookup_insert_eq| | |apply (tk_queue _ _ HT)|
    apply (tk_answer _ _ HT)| | | | |].
  - rewrite length_app. cbn. rewrite length_app, (tk_opened _ _ HT). reflexivity.
  - intros i u Hu. cbn. apply lookup_app_Some in Hu as [Hu|[Hi Hu]].
    + destruct (tk_leads _ _ HT i u Hu) as (s0 & Hs0 & H). exists s0. split; [apply lookup_app_l_Some, Hs0|exact H].
    + rewrite (tk_opened _ _ HT) in Hi, Hu. apply list_lookup_singleton_Some in Hu as [E <-]. exists s.
      split; [rewrite lookup_app_r, E by exact Hi; reflexivity|].
      split; [reflexivity|exact Htarget].
  - intros p [Hp| ->%list_elem_of_singleton]%elem_of_app; [eapply (will_be_new_own _ r _ [sm_request s]); [exact Hown|
      reflexivity|reflexivity|apply (tk_todo _ _ HT p Hp)]|].
    split; [reflexivity|]. split; [apply Hsent; left; left|]. split; [exact Hne|]. split; [exact Haddr|].
    split; [reflexivity|].
    exists rb. split; [cbn; rewrite lookup_insert_ne by exact (not_eq_sym Hne); exact Hb|].
    eapply token_unseen; [apply (tk_reach _ _ HT)|exact Hfresh|exact Hb].
  - intros p. cbn. rewrite app_assoc. intros [Hp| ->%list_elem_of_singleton]%elem_of_app; [|exact Hnew].
    eapply waits_snoc; [reflexivity|apply (tk_waits _ _ HT p Hp)].
  - cbn. rewrite app_assoc, map_app. apply NoDup_app. split; [apply (tk_once _ _ HT)|].
    split; [|apply NoDup_singleton].
    intros n Hn ->%list_elem_of_singleton. apply list_elem_of_In, in_map_iff in Hn as (p & Ep & Hp).
    apply list_elem_of_In in Hp.
    pose proof (waits_bound r p (tk_waits _ _ HT p Hp)) as Hlt. rewrite Ep in Hlt. cbn in Hlt. lia.
  - intros p i [ ->%list_elem_of_singleton|Hp]%Hsent; rewrite length_app; cbn; intros Hi;
      [|apply (tk_tokens _ _ HT p i Hp); lia].
    intros E. apply Htoken in E. lia.
  - cbn. intros b rb0 [[<- _]|[_ Hb0]]%lookup_insert_Some Hb1; [contradiction|]. apply (tk_idle _ _ HT b rb0 Hb0 Hb1).
Qed.

Lemma create_roomy x r uri tid l host port : let s := opened_session r (token (length (t_opened x))) host port tid in
  roomy x r ((uri, tid) :: l) -> target_addr (uri, tid) = Some (host, port, tid) ->
  roomy {| t_net := put (t_net x) own (opened_rpc r s); t_todo := t_todo x ++ [sm_request s];
    t_opened := t_opened x ++ [(uri, tid)] |} (opened_rpc r s) l.
Proof.
  intros s [M1 M2 M3 M4] Ht. cbn [length] in *. split; cbn [t_net t_todo].
  - apply Forall_cons in M1 as [_ M1]. eapply Forall_impl; [exact M1|]. intros u. apply a_target_put.
  - cbn. unfold kSessionCredits in *. lia.
  - cbn. rewrite length_app. cbn. lia.
  - cbn. intros b rb [[<- _]|[_ Hb]]%lookup_insert_Some Hne; [contradiction|]. specialize (M4 b rb Hb Hne).
    assert (load (t_todo x ++ [sm_request s]) l b = load (t_todo x) ((uri, tid) :: l) b) as ->; [|exact M4].
    unfold load. rewrite filter_app, length_app. change (destination (sm_request s)) with (host, port, tid).
    rewrite !filter_cons. change (destination (sm_request s)) with (host, port, tid). rewrite Ht.
    destruct (decide ((host, port, tid) = b)) as [E|E], (decide (Some (host, port, tid) = Some b)) as [E'|E']; cbn;
      try congruence; lia.
Qed.

(** ** The client's turn *)

Definition connects (q : SmPkt) (i : bytes) (s : Session) : Session :=
  set_state SessionState.kConnected (set_remote (Some (session_num_ (pkt_server_ q))) (set_server (with_routing i (pkt_server_ q)) s)).

Lemma connect_resp_connects a r q s : pkt_type_ q = kConnectResp -> err_type_ q = kNoError ->
  entry r (num_of q) = Some (Some s) ->
  state_ s = SessionState.kConnectInProgress -> local_session_num_ s = num_of q ->
  wpx (fun _ => True) (handle_connect_resp_st (resolve a) false q) (fun _ r' =>
    exists i, r' = connected_rpc r (num_of q) (connects q i)) r.
Proof.
  intros Ht He Hs Hst Hloc. unfold handle_connect_resp_st. apply wpx_bind. cbn [gets wpx].
  do 2 (apply wpx_bind; unfold p_assert at 1; match goal with |- context [if ?b then _ else _] => destruct b end;
    [|exact I]; cbn [ret wpx]).
  apply wpx_bind. unfold session_at. apply wpx_bind. cbn [gets wpx]. unfold num_of in Hs at 1. rewrite Hs.
  cbn [ret wpx].
  rewrite (bool_decide_true (state_ s = _)) by exact Hst. cbn [negb].
  do 4 (apply wpx_bind; unfold p_assert at 1; match goal with |- context [if ?b then _ else _] => destruct b end;
    [|exact I]; cbn [ret wpx]).
  rewrite andb_false_r, (bool_decide_true (err_type_ q = kNoError)) by exact He. cbn [negb].
  destruct (Hresolve a (routing_info_ (pkt_server_ q))) as [i Hi]. rewrite Hi. apply wpx_bind.
  cbn [upd_session modify wpx sm_handler_]. exists i. rewrite Hloc. reflexivity.
Qed.

(** What the turn of a client does that has at most one answer in its queue. *)
Record turned (r : Rpc) (evs : list Sessions.sm_event) (r1 : Rpc) : Prop := {
  tu_queue : sm_rx_queue_ r1 = [];
  tu_events : sm_events r1 = sm_events r ++ evs;
  tu_nums : map Sessions.ev_session evs = map num_of (sm_rx_queue_ r);
  tu_told : Forall (fun e => Sessions.ev_type e = Sessions.kConnected /\ Sessions.ev_no_error e = true /\
    0 <= Sessions.ev_session e /\
    exists s, entry r1 (Sessions.ev_session e) = Some (Some s) /\ state_ s = SessionState.kConnected) evs;
  tu_entry n s : 0 <= n -> entry r n = Some (Some s) -> n ∉ map num_of (sm_rx_queue_ r) -> entry r1 n = Some (Some s);
  tu_leads i u : leads_to (session_vec_ r !! i) u -> leads_to (session_vec_ r1 !! i) u;
  tu_length : length (session_vec_ r1) = length (session_vec_ r);
  tu_sent : udp_sent r1 = udp_sent r;
  tu_ring : ring_entries_available_ r1 = ring_entries_available_ r;
  tu_transport : transport_type r1 = transport_type r
}.

Lemma turned_connected r q s i p0 : sm_rx_queue_ r = [q] -> 0 <= num_of q -> entry r (num_of q) = Some (Some s) ->
  ep_addr (pkt_server_ q) = ep_addr (server_ s) ->
  turned r [report (num_of q) Sessions.kConnected true] (connected_rpc (set_pending p0 (set_rx_queue [] r)) (num_of q) (connects q i)).
Proof.
  intros Hq H0 Hs Hsrv. split; cbn; auto.
  - rewrite Hq. reflexivity.
  - repeat constructor; [exact H0|]. exists (connects q i s).
    split; [exact (entry_alter r (num_of q) _ s Hs)|reflexivity].
  - rewrite Hq. intros n s0 Hn Hs0 Hni. rewrite list_lookup_alter_ne; [exact Hs0|]. intros E. apply Hni.
    replace n with (num_of q) by lia. left.
  - intros k u (s0 & Hs0 & Hrole & Hu). destruct (decide (k = Z.to_nat (num_of q))) as [->|Hne].
    + exists (connects q i s). assert (s0 = s) as -> by congruence. split; [exact (entry_alter r (num_of q) _ s Hs)|].
      split; [exact Hrole|]. rewrite Hu, <- Hsrv. reflexivity.
    + exists s0. rewrite list_lookup_alter_ne by congruence. auto.
  - apply length_alter.
Qed.

(** The answer is from the object that the session is meant to lead to. *)
Lemma answer_server G a r q s : rpc_ok G None a r -> q ∈ sm_rx_queue_ r -> pkt_type_ q = kConnectResp ->
  entry r (num_of q) = Some (Some s) ->
  state_ s = SessionState.kConnectInProgress -> ep_addr (pkt_server_ q) = ep_addr (server_ s).
Proof.
  intros HR Hin Ht Hs Hst. destruct (ro_queue _ _ _ _ HR q Hin) as [(g & Hg & (_ & Ec & En) & _ & Esrv & _) Hd].
  apply client_dest in Hd; [|rewrite Ht; reflexivity].
  destruct (ro_client _ _ _ _ HR _ g Hg ltac:(congruence)) as (_ & Hat & _).
  unfold num_of in Hs. rewrite En in Hs. rewrite Hs in Hat.
  destruct (waiting_client _ _ _ _ Hat Hst) as (_ & (_ & _ & _ & _ & _ & E) & _). congruence.
Qed.

Lemma client_turn x r : timely_ok x r -> Z.of_nat (length (session_vec_ r)) < 65535 ->
  exists evs r1, next resolve (quiet_turn own) (t_net x) = put (t_net x) own r1 /\
    reach resolve (put (t_net x) own r1) /\ turned r evs r1.
Proof.
  intros HT Hlen. destruct (reach_ok resolve _ (tk_reach _ _ HT)) as [G HC]. pose proof (tk_own _ _ HT) as Hown.
  destruct (co_rpc _ _ HC own r Hown) as (HR & _). pose proof (tk_queue _ _ HT) as Hql.
  assert (enabled (t_net x) (quiet_turn own)) as Hen by (exists r; split; [exact Hown|lia]).
  assert (wp (run_event_loop_do_one_st (resolve own) false 8 false (fun _ => false)) (fun _ r1 =>
    exists evs, turned r evs r1) r) as Hwp.
  { destruct (sm_rx_queue_ r) as [|q [|q2 l]] eqn:Hq; [| |cbn in Hql; lia].
    - unfold run_event_loop_do_one_st. apply wp_bind, wp_gets. rewrite Hq. apply wp_bind, wp_ret, wp_ret. exists [].
      split; auto; [symmetry; apply app_nil_r|rewrite Hq; reflexivity].
    - assert (q ∈ sm_rx_queue_ r) as Hin by (rewrite Hq; left). destruct (tk_answer _ _ HT q Hin) as [Ht He].
      destruct (tk_waits _ _ HT q ltac:(apply elem_of_app; auto)) as (H0 & s & Hs & Hst).
      assert (ep_addr (pkt_server_ q) = ep_addr (server_ s)) as Hsrv
        by (apply (answer_server G own r q s HR Hin Ht Hs Hst)).
      assert (local_session_num_ s = num_of q) as Hloc by (rewrite (entry_local _ _ _ _ _ s HR Hs); lia).
      eapply wp_mono; [apply wp_and; [apply (wp_event_loop (resolve own) G own r false 8 false (fun _ =>
        false) HR (co_histories _ _ HC)); rewrite Hq; cbn; lia|]|intros a r1 [_ H]; exact H].
      unfold run_event_loop_do_one_st. apply wpx_bind. cbn [gets wpx]. rewrite Hq. cbn [handle_sm_rx_st].
      apply wpx_bind, wpx_bind. cbn [modify wpx].
      apply wpx_bind. unfold handle_sm_pkt. rewrite Ht. cbn [sm_pkt_type_is_req]. apply wpx_bind. cbn [modify wpx].
      eapply wpx_mono; [eapply (connect_resp_connects own); [exact Ht|exact He|exact Hs|exact Hst|exact Hloc]|auto|].
      intros [] r1 (i & ->). cbn [when_ ret wpx].
      exists [report (num_of q) Sessions.kConnected true]. apply (turned_connected r q s i _ Hq H0 Hs Hsrv). }
  apply wp_Done in Hwp as ([] & r1 & Hrun & evs & Htu). exists evs, r1.
  assert (next resolve (quiet_turn own) (t_net x) = put (t_net x) own r1) as E
    by (unfold next, perform, quiet_turn, at_rpc; rewrite Hown, Hrun; reflexivity).
  split; [exact E|]. split; [rewrite <- E; apply reach_next; [apply (tk_reach _ _ HT)|exact Hen]|exact Htu].
Qed.

(** ** A request is delivered and answered *)

Lemma accept_run a r p : sm_rx_queue_ r = [p] -> pkt_type_ p = kConnectReq ->
  (ep_rpc_id_ (pkt_server_ p) =? rpc_id_ r) = true ->
  conn_req_token_map_ r !! pkt_token_ p = None -> transport_type_ (pkt_server_ p) = transport_type r ->
    have_ring_entries r = true ->
  Z.of_nat (length (session_vec_ r)) < 65535 ->
  exists i, run_event_loop_do_one_st (resolve a) false 8 false (fun _ => false) r =
    Done (tt, accepting_rpc (set_rx_queue [] r) p (accepted_session (set_rx_queue [] r) p i)).
Proof.
  intros Hq Ht Hid Hm Htr Hring Hlen. destruct (Hresolve a (routing_info_ (pkt_client_ p))) as [i Hi]. exists i.
  unfold run_event_loop_do_one_st. unfold bind at 1. cbn [gets]. rewrite Hq. cbn [handle_sm_rx_st].
  unfold bind at 1 2. cbn [modify]. unfold bind at 1.
  unfold handle_sm_pkt. rewrite Ht. cbn [sm_pkt_type_is_req]. unfold bind at 1. cbn [ret].
  unfold handle_connect_req_st. unfold bind at 1. cbn [gets set_rx_queue rpc_id_ conn_req_token_map_ transport_type].
  rewrite Hid, bool_decide_true by exact Ht. unfold bind at 1. cbn [andb p_assert ret]. rewrite Hm, Htr, Z.eqb_refl.
  cbn [negb].
  unfold have_ring_entries in *. cbn [set_rx_queue ring_entries_available_ session_vec_]. rewrite Hring. cbn [negb].
  rewrite Hi. cbn [Nat.ltb Nat.leb kSessionReqWindow].
  assert (u16 (Z.of_nat (length (session_vec_ r))) = Z.of_nat (length (session_vec_ r))) as ->
    by (apply Z.mod_small; lia).
  unfold bind at 1. cbn [modify]. unfold bind at 1, alloc_ring_entries. unfold bind at 1. cbn [gets].
  unfold have_ring_entries. cbn [set_token_map set_rx_queue ring_entries_available_]. rewrite Hring.
  unfold bind at 1. cbn [p_assert ret modify]. unfold bind at 1. cbn [modify]. unfold bind at 1.
  unfold sm_construct_resp. rewrite Ht. reflexivity.
Qed.

Definition accepted_at (rb : Rpc) (p : SmPkt) (i : bytes) : Rpc :=
  accepting_rpc (set_rx_queue [] rb) p (accepted_session (set_rx_queue [] rb) p i).

Lemma put_put c a r1 r2 : put (put c a r1) a r2 = put c a r2.
Proof. unfold set_rpcs. cbn. rewrite insert_insert_eq. reflexivity. Qed.

Lemma deliver_run c r p rb : reach resolve c -> rpcs c !! own = Some r -> sm_rx_queue_ r = [] -> will_be_new c r p ->
  rpcs c !! destination p = Some rb ->
  sm_rx_queue_ rb = [] -> transport_type rb = transport_type r -> have_ring_entries rb = true ->
    Z.of_nat (length (session_vec_ rb)) < 65535 ->
  exists i, let q := connected_resp p (accepted_session (set_rx_queue [] rb) p i) in
    deliver p c = put (put c (destination p) (accepted_at rb p i)) own (set_rx_queue [q] r) /\
      reach resolve (deliver p c).
Proof.
  intros Hr Hown Hq (H1 & H2 & H3 & H4 & H5 & rb0 & Hb0 & H6) Hb Hqb Htr Hring Hlen.
  assert (rb0 = rb) as -> by congruence. clear Hb0.
  destruct (reach_ok resolve c Hr) as [G HC]. destruct (receive_at resolve G c p rb HC H2 Hb) as [Hrun1 HC1].
  rewrite Hqb in Hrun1, HC1. cbn [app] in Hrun1, HC1.
  set (c1 := put c (destination p) (set_rx_queue [p] rb)) in *.
  assert (next resolve (Receive p) c = c1) as E1 by (unfold next; rewrite Hrun1; reflexivity).
  assert (rpcs c1 !! destination p = Some (set_rx_queue [p] rb)) as Hb1 by apply lookup_insert_eq.
  assert (reach resolve c1) as Hr1 by (rewrite <- E1; apply reach_next; assumption).
  destruct (accept_run (destination p) (set_rx_queue [p] rb) p eq_refl H1) as [i Hrun2];
    [|exact H6|cbn; congruence|exact Hring|exact Hlen|].
  { eapply my_id; [apply (co_rpc _ _ HC1 _ _ Hb1)|]. apply server_dest; [reflexivity|rewrite H1; reflexivity]. }
  set (c2 := put c (destination p) (accepted_at rb p i)).
  assert (next resolve (quiet_turn (destination p)) c1 = c2) as E2
    by (unfold next, perform, quiet_turn, at_rpc; rewrite Hb1, Hrun2; unfold c2;
      rewrite <- (put_put c (destination p) (set_rx_queue [p] rb)); reflexivity).
  assert (reach resolve c2) as Hr2 by (rewrite <- E2; apply reach_next; [exact Hr1|]; exists (set_rx_queue [p] rb);
    split; [exact Hb1|cbn; lia]).
  assert (rpcs c2 !! destination p = Some (accepted_at rb p i)) as Hb2 by apply lookup_insert_eq.
  set (q := connected_resp p (accepted_session (set_rx_queue [] rb) p i)).
  assert (sent c2 q) as Hsq by (left; exists (destination p), (accepted_at rb p i); split; [exact Hb2|left]).
  assert (rpcs c2 !! destination q = Some r) as Hown2 by (change (destination q) with (ep_addr (pkt_client_ p));
    rewrite H4; cbn; rewrite lookup_insert_ne by congruence; exact Hown).
  destruct (reach_ok resolve c2 Hr2) as [G2 HC2]. destruct (receive_at resolve G2 c2 q r HC2 Hsq Hown2) as [Hrun3 _].
  rewrite Hq in Hrun3. cbn [app] in Hrun3.
  assert (destination q = own) as Hd by exact H4. rewrite Hd in Hrun3. exists i. fold c2 q.
  assert (deliver p c = next resolve (Receive q) c2) as E3 by (unfold deliver; rewrite E1, E2; unfold sent_by;
    rewrite Hb2; reflexivity).
  split; [rewrite E3; unfold next; rewrite Hrun3; reflexivity|rewrite E3; apply reach_next; assumption].
Qed.

(** ** The state after a turn *)

Lemma turn_timely_ok x r evs r1 : timely_ok x r -> turned r evs r1 -> reach resolve (put (t_net x) own r1) ->
  timely_ok {| t_net := put (t_net x) own r1; t_todo := t_todo x; t_opened := t_opened x |} r1.
Proof.
  intros HT HU Hr. pose proof (tk_own _ _ HT) as Hown.
  split; cbn [t_net t_todo t_opened]; [exact Hr|apply lookup_insert_eq| | | | | | | | |].
  - rewrite (tu_length _ _ _ HU). apply (tk_opened _ _ HT).
  - intros i u Hu. apply (tu_leads _ _ _ HU), (tk_leads _ _ HT i u Hu).
  - rewrite (tu_queue _ _ _ HU). cbn. lia.
  - rewrite (tu_queue _ _ _ HU). intros q Hq. inversion Hq.
  - intros p Hp. apply (will_be_new_own _ r _ []); [exact Hown|apply (tu_sent _ _ _ HU)|apply (tu_transport _ _ _ HU)|
      apply (tk_todo _ _ HT p Hp)].
  - rewrite (tu_queue _ _ _ HU). cbn [app]. intros p Hp.
    destruct (tk_waits _ _ HT p ltac:(apply elem_of_app; auto)) as (H0 & s & Hs & Hst).
    split; [exact H0|]. exists s. split; [|exact Hst]. apply (tu_entry _ _ _ HU); [exact H0|exact Hs|]. intros Hin.
    pose proof (tk_once _ _ HT) as Hnd. rewrite map_app in Hnd. apply NoDup_app in Hnd as (_ & Hnd & _).
    apply (Hnd _ Hin), elem_of_map_intro, Hp.
  - rewrite (tu_queue _ _ _ HU). pose proof (tk_once _ _ HT) as Hnd. rewrite map_app in Hnd.
    apply NoDup_app in Hnd as (_ & _ & Hnd). exact Hnd.
  - intros p i Hp. apply (sent_put _ _ r _ [] p Hown (tu_sent _ _ _ HU)) in Hp as [Hp|Hp];
      [inversion Hp|exact (tk_tokens _ _ HT p i Hp)].
  - cbn. intros b rb [[<- _]|[_ Hb]]%lookup_insert_Some Hne; [contradiction|]. rewrite (tu_transport _ _ _ HU).
    exact (tk_idle _ _ HT b rb Hb Hne).
Qed.

Lemma turn_roomy x r evs r1 l : roomy x r l -> turned r evs r1 -> roomy {| t_net := put (t_net x) own r1;
  t_todo := t_todo x; t_opened := t_opened x |} r1 l.
Proof.
  intros [M1 M2 M3 M4] HU. split; cbn [t_net t_todo].
  - eapply Forall_impl; [exact M1|]. intros u. apply a_target_put.
  - rewrite (tu_ring _ _ _ HU). exact M2.
  - rewrite (tu_length _ _ _ HU). exact M3.
  - cbn. intros b rb [[<- _]|[_ Hb]]%lookup_insert_Some Hne; [contradiction|]. exact (M4 b rb Hb Hne).
Qed.

(** ** The state after a delivery *)

(** Requests for different sessions have different tokens. *)
Lemma tokens_differ c p p' : reach resolve c -> sent c p -> sent c p' -> num_of p <> num_of p' ->
  pkt_token_ p' <> pkt_token_ p.
Proof.
  intros Hr Hp Hp' Hne E. destruct (reach_ok resolve c Hr) as [G HC].
  destruct (sent_ok G c p HC Hp) as (g & Hg & (_ & _ & En) & _).
  destruct (sent_ok G c p' HC Hp') as (g' & Hg' & (_ & _ & En') & _). rewrite E in Hg'. unfold num_of in Hne.
  congruence.
Qed.

Lemma deliver_timely_ok x r p todo rb i : timely_ok x r -> sm_rx_queue_ r = [] -> t_todo x = p :: todo ->
  rpcs (t_net x) !! destination p = Some rb ->
  let q := connected_resp p (accepted_session (set_rx_queue [] rb) p i) in
  let c' := put (put (t_net x) (destination p) (accepted_at rb p i)) own (set_rx_queue [q] r) in
  reach resolve c' -> timely_ok {| t_net := c'; t_todo := todo; t_opened := t_opened x |} (set_rx_queue [q] r).
Proof.
  intros HT Hq Ht Hb q c' Hr. pose proof (tk_own _ _ HT) as Hown.
  pose proof (tk_todo _ _ HT p ltac:(rewrite Ht; left)) as (H1 & H2 & H3 & H4 & _).
  pose proof (tk_once _ _ HT) as Hnd. rewrite Hq, Ht in Hnd. cbn [app map] in Hnd. pose proof Hnd as Hnd0.
  apply NoDup_cons in Hnd as [Hnew Hnd].
  assert (rpcs (put (t_net x) (destination p) (accepted_at rb p i)) !! own = Some r) as Hown1
    by (cbn; rewrite lookup_insert_ne by congruence; exact Hown).
  assert (forall p', sent c' p' <-> p' = q \/ sent (t_net x) p') as Hsent.
  { intros p'. unfold c'. rewrite (sent_put _ own r _ []) by (exact Hown1 || reflexivity).
    rewrite (sent_put _ (destination p) rb _ [q]) by (exact Hb || reflexivity).
    rewrite elem_of_nil, list_elem_of_singleton. tauto. }
  split; cbn [t_net t_todo t_opened]; [exact Hr|apply lookup_insert_eq|apply (tk_opened _ _ HT)|
    apply (tk_leads _ _ HT)|cbn; lia| | | |exact Hnd0| |].
  - cbn. intros q' ->%list_elem_of_singleton. split; reflexivity.
  - intros p' Hp'. destruct (tk_todo _ _ HT p' ltac:(rewrite Ht; right;
      exact Hp')) as (A1 & A2 & A3 & A4 & A5 & rb' & Hb' & A6).
    split; [exact A1|]. split; [apply Hsent; auto|]. do 3 (split; [assumption|]). unfold c'. cbn.
    rewrite lookup_insert_ne by congruence.
    destruct (decide (destination p = destination p')) as [E|E]; [|exists rb'; rewrite lookup_insert_ne by exact E;
      auto].
    rewrite <- E in *. exists (accepted_at rb p i). split; [apply lookup_insert_eq|]. cbn.
    rewrite lookup_insert_ne; [congruence|].
    intros Etok. apply (tokens_differ (t_net x) p p' (tk_reach _ _ HT) H2 A2); [|congruence]. intros En. apply Hnew.
    rewrite En. apply elem_of_map_intro, Hp'.
  - intros p' Hp'. change (waits_for r p'). cbn [set_rx_queue sm_rx_queue_ app] in Hp'.
    apply elem_of_cons in Hp' as [->|Hp'].
    + change (waits_for r p). apply (tk_waits _ _ HT). rewrite Hq, Ht. left.
    + apply (tk_waits _ _ HT). rewrite Hq, Ht. right. exact Hp'.
  - intros p' k [->|Hp']%Hsent; [exact (tk_tokens _ _ HT p k H2)|exact (tk_tokens _ _ HT p' k Hp')].
  - cbn. intros b rb' [[<- _]|[_ Hb']]%lookup_insert_Some Hne; [contradiction|].
    apply lookup_insert_Some in Hb' as [[<- <-]|[_ Hb']]; [|exact (tk_idle _ _ HT b rb' Hb' Hne)].
    split; [reflexivity|]. apply (tk_idle _ _ HT _ rb Hb Hne).
Qed.

Lemma deliver_roomy x r p todo rb i q l : roomy x r l -> t_todo x = p :: todo ->
  rpcs (t_net x) !! destination p = Some rb -> destination p <> own ->
  roomy {| t_net := put (put (t_net x) (destination p) (accepted_at rb p i)) own (set_rx_queue [q] r); t_todo := todo;
    t_opened := t_opened x |} (set_rx_queue [q] r) l.
Proof.
  intros [M1 M2 M3 M4] Ht Hb Hd. split; cbn [t_net t_todo]; [|exact M2|exact M3|].
  - eapply Forall_impl; [exact M1|]. intros u Hu. apply a_target_put, a_target_put, Hu.
  - cbn. intros b rb' [[<- _]|[_ Hb']]%lookup_insert_Some Hne; [contradiction|]. rewrite Ht in M4. unfold load in *.
    apply lookup_insert_Some in Hb' as [[<- <-]|[E Hb']].
    + specialize (M4 _ rb Hb Hne). rewrite filter_cons_True in M4 by reflexivity.
      cbn [length accepted_at accepting_rpc set_logs set_session_vec set_ring ring_entries_available_ session_vec_ set_token_map set_rx_queue] in *.
      rewrite length_app. cbn. unfold kSessionCredits in *. lia.
    + specialize (M4 _ rb' Hb' Hne). rewrite filter_cons_False in M4 by exact E. exact M4.
Qed.

(** ** The laws *)

Lemma turned_connections x r evs r1 x' r' : timely_ok x r -> turned r evs r1 ->
  rpcs (t_net x') !! own = Some r' -> session_vec_ r' = session_vec_ r1 ->
  Forall (fun e => Sessions.ev_type e = Sessions.kConnected /\ Sessions.ev_no_error e = true /\
    timely_connected (Sessions.ev_session e) x' = true) evs /\
  (forall m, timely_connected m x = true -> timely_connected m x' = true).
Proof.
  intros HT HU Hr' Hv. split.
  - eapply Forall_impl; [exact (tu_told _ _ _ HU)|]. intros e (? & ? & H0 & s & Hs & Hst).
    split; [assumption|]. split; [assumption|]. apply (connected_spec x' r'); [exact Hr'|]. rewrite Hv. eauto.
  - intros m Hm. apply (connected_spec x r _ (tk_own _ _ HT)) in Hm as (H0 & s & Hs & Hst).
    apply (connected_spec x' r' _ Hr'). split; [exact H0|]. rewrite Hv. exists s. split; [|exact Hst].
    apply (tu_entry _ _ _ HU); [exact H0|exact Hs|]. intros Hin.
    apply list_elem_of_In, in_map_iff in Hin as (q & <- & Hq).
    destruct (tk_waits _ _ HT q ltac:(apply elem_of_app; left; apply list_elem_of_In, Hq)) as (_ & s1 & Hs1 & Hst1).
    congruence.
Qed.

Lemma timely_loop_spec x l : timely_can_open x l ->
  let '(evs, x') := timely_loop x in
  timely_can_open x' l /\ timely_pending x = map Sessions.ev_session evs ++ timely_pending x' /\
    t_opened x' = t_opened x /\
  Forall (fun e => Sessions.ev_type e = Sessions.kConnected /\ Sessions.ev_no_error e = true /\
    timely_connected (Sessions.ev_session e) x' = true) evs /\
  (forall m, timely_connected m x = true -> timely_connected m x' = true) /\
  (timely_pending x = [] \/ evs <> [] \/ length (t_todo x') < length (t_todo x))%nat.
Proof.
  intros (r & HT & HM). pose proof (tk_own _ _ HT) as Hown. pose proof (rm_size _ _ _ HM) as Hsize.
  destruct (client_turn x r HT ltac:(lia)) as (evs & r1 & E & Hr1 & HU). unfold timely_loop. rewrite E.
  set (x1 := {| t_net := put (t_net x) own r1; t_todo := t_todo x; t_opened := t_opened x |}).
  pose proof (turn_timely_ok x r evs r1 HT HU Hr1) as HT1. pose proof (turn_roomy x r evs r1 l HM HU) as HM1.
  fold x1 in HT1, HM1.
  assert (drop (length (events_at (t_net x))) (events_at (put (t_net x) own r1)) = evs) as ->.
  { unfold events_at. cbn. rewrite Hown, lookup_insert_eq, (tu_events _ _ _ HU). apply drop_app_length. }
  assert (timely_pending x = map Sessions.ev_session evs ++ map num_of (t_todo x)) as Hpend
    by (unfold timely_pending; rewrite Hown, map_app, (tu_nums _ _ _ HU); reflexivity).
  pose proof (fun x' r' => turned_connections x r evs r1 x' r' HT HU) as Hconn.
  destruct (t_todo x) as [|p todo] eqn:Ht.
  - destruct (Hconn x1 r1 (tk_own _ _ HT1) eq_refl) as [Hc1 Hc2]. split; [exists r1; auto|].
    split; [rewrite Hpend; unfold timely_pending; cbn [t_net t_todo rpcs set_rpcs];
      rewrite lookup_insert_eq, (tu_queue _ _ _ HU); reflexivity|].
    split; [reflexivity|]. split; [exact Hc1|]. split; [exact Hc2|]. rewrite Hpend, app_nil_r.
    destruct evs; [left; reflexivity|right; left; discriminate].
  - destruct (tk_todo _ _ HT1 p ltac:(left)) as (_ & _ & Hd & _ & _ & rb & Hb & _).
    pose proof (tk_todo _ _ HT1 p ltac:(left)) as Hnew.
    destruct (tk_idle _ _ HT1 _ rb Hb Hd) as [Hqb Htr]. destruct (rm_peer _ _ _ HM1 _ rb Hb Hd) as [Hring Hlen].
    unfold load in Hring, Hlen. cbn [t_todo x1] in Hring, Hlen.
    rewrite filter_cons_True in Hring, Hlen by reflexivity. cbn [length] in Hring, Hlen.
    assert (have_ring_entries rb = true) as Hhave by (apply Z.leb_le; unfold kSessionCredits in *; lia).
    destruct (deliver_run _ r1 p rb Hr1 (tk_own _ _ HT1) (tu_queue _ _ _ HU) Hnew Hb Hqb Htr Hhave ltac:(lia)) as (i & Erun & Hr2).
    set (q := connected_resp p (accepted_session (set_rx_queue [] rb) p i)) in Erun. rewrite Erun in Hr2 |- *.
    pose proof (deliver_timely_ok x1 r1 p todo rb i HT1 (tu_queue _ _ _ HU) eq_refl Hb Hr2) as HT2. cbn zeta in HT2.
    fold q in HT2.
    pose proof (deliver_roomy x1 r1 p todo rb i q l HM1 eq_refl Hb Hd) as HM2. cbn [t_net t_opened x1] in HT2, HM2.
    destruct (Hconn _ _ (tk_own _ _ HT2) eq_refl) as [Hc1 Hc2]. split; [eexists; split; [exact HT2|exact HM2]|].
    split; [rewrite Hpend; unfold timely_pending; rewrite (tk_own _ _ HT2); reflexivity|]. split; [reflexivity|].
    split; [exact Hc1|]. split; [exact Hc2|]. right. right. cbn. lia.
Qed.

Lemma timely_create_spec x uri tid l : timely_can_open x ((uri, tid) :: l) ->
  let '(n, x') := timely_create uri tid x in
  timely_can_open x' l /\ n = Z.of_nat (length (t_opened x)) /\ t_opened x' = t_opened x ++ [(uri, tid)] /\
  timely_pending x' = timely_pending x ++ [n] /\ (forall m, timely_connected m x = true ->
    timely_connected m x' = true).
Proof.
  intros (r & HT & HM). destruct (create_timely x r uri tid l HT HM) as (host & port & Htarget & Hne & Hreg & Hrun & Hreach & Hfresh & Haddr).
  cbn zeta in Hrun. rewrite Hrun. set (s := opened_session r (token (length (t_opened x))) host port tid) in *.
  pose proof (create_timely_ok x r uri tid host port HT Htarget Hne Hreg Haddr Hfresh Hreach) as HT'.
  pose proof (create_roomy x r uri tid l host port HM Htarget) as HM'.
  fold s in HT', HM'. split; [eexists; split; eassumption|]. rewrite (tk_opened _ _ HT). split; [reflexivity|].
  split; [reflexivity|].
  split; [unfold timely_pending; rewrite (tk_own _ _ HT'), (tk_own _ _ HT); cbn; rewrite app_assoc, map_app;
    reflexivity|].
  intros m Hm. apply (connected_spec x r _ (tk_own _ _ HT)) in Hm as (H0 & s0 & Hs & Hst).
  apply (connected_spec _ _ _ (tk_own _ _ HT')).
  split; [exact H0|]. exists s0. split; [|exact Hst]. cbn. apply lookup_app_l_Some, Hs.
Qed.

Lemma endpoint_snoc x x' u : t_opened x' = t_opened x ++ [u] ->
  let n := Z.of_nat (length (t_opened x)) in
  timely_endpoint x n = None /\ timely_endpoint x' n = Some u /\ (forall m, m <> n ->
    timely_endpoint x' m = timely_endpoint x m).
Proof.
  intros E. cbn zeta. unfold timely_endpoint. rewrite E, Nat2Z.id.
  destruct (Z.ltb_spec (Z.of_nat (length (t_opened x))) 0); [lia|].
  split; [apply lookup_ge_None; lia|]. split; [rewrite lookup_app_r, Nat.sub_diag by lia; reflexivity|]. intros m Hm.
  destruct (Z.ltb_spec m 0); [reflexivity|].
  rewrite lookup_app. destruct (t_opened x !! Z.to_nat m) eqn:Em; [reflexivity|]. apply lookup_ge_None in Em.
  apply lookup_ge_None. cbn. lia.
Qed.

#[export] Instance timely_laws : Sessions.ErpcLaws timely_erpc.
Proof.
  refine {| Sessions.can_open := timely_can_open : @Sessions.Rpc timely_erpc -> _;
    Sessions.endpoint := timely_endpoint : @Sessions.Rpc timely_erpc -> _;
            Sessions.pending := timely_pending : @Sessions.Rpc timely_erpc -> _;
            Sessions.patience := (fun x : timely => length (t_todo x)) : @Sessions.Rpc timely_erpc -> nat |}.
  - intros uri tid l x Hx. cbn in *. pose proof (timely_create_spec x uri tid l Hx) as H.
    destruct (timely_create uri tid x) as [n x'].
    destruct H as (H1 & -> & H3 & H4 & H5). destruct (endpoint_snoc x x' _ H3) as (E1 & E2 & E3). split; [exact H1|].
    do 3 (split; [assumption|]).
    split; [|exact H5]. rewrite H4. symmetry. apply Permutation_cons_append.
  - intros l x Hx. cbn in *. pose proof (timely_loop_spec x l Hx) as H. destruct (timely_loop x) as [evs x'].
    destruct H as (H1 & H2 & H3 & H4 & H5 & H6). split; [exact H1|]. split; [rewrite H2; reflexivity|].
    split; [intros m; unfold timely_endpoint; rewrite H3; reflexivity|]. auto.
  - intros size l x Hx. cbn. split; [exact Hx|]. split; [intros m [= <-]; apply repeat_length|auto].
Defined.

(** ** A client starts *)

Definition start (c : cluster) : timely := {| t_net := c; t_todo := []; t_opened := [] |}.

(** The object of a new client, and the others at rest. *)
Record fresh_client (c : cluster) (r : Rpc) : Prop := {
  fc_reach : reach resolve c;
  fc_own : rpcs c !! own = Some r;
  fc_none : session_vec_ r = [];
  fc_queue : sm_rx_queue_ r = [];
  fc_tokens p i : sent c p -> pkt_token_ p <> token i;
  fc_idle b rb : rpcs c !! b = Some rb -> b <> own -> sm_rx_queue_ rb = [] /\ transport_type rb = transport_type r
}.

Lemma start_can_open c r l : fresh_client c r -> roomy (start c) r l -> timely_can_open (start c) l.
Proof.
  intros [F1 F2 F3 F4 F5 F6] HM. exists r. split; [|exact HM]. split; cbn; auto.
  - rewrite F3. reflexivity.
  - intros i u Hu. rewrite lookup_nil in Hu. discriminate.
  - rewrite F4. cbn. lia.
  - rewrite F4. intros q Hq. inversion Hq.
  - intros p Hp. inversion Hp.
  - rewrite F4. intros p Hp. inversion Hp.
  - rewrite F4. constructor.
Qed.

(** A session number that the program holds, as both ends see it. *)
Lemma opened_is x l n u : timely_can_open x l -> timely_endpoint x n = Some u -> timely_connected n x = true ->
  exists s s', client_session (t_net x) own n s /\ state_ s = SessionState.kConnected /\
    target_addr u = Some (ep_addr (server_ s)) /\
    server_session (t_net x) (ep_addr (server_ s)) (session_num_ (server_ s)) s' /\
      state_ s' = SessionState.kConnected /\
    remote_session_num_ s = Some (local_session_num_ s') /\ remote_session_num_ s' = Some n.
Proof.
  intros (r & HT & _) He Hc. apply (connected_spec x r n (tk_own _ _ HT)) in Hc as (H0 & s & Hs & Hst).
  unfold timely_endpoint in He. destruct (Z.ltb_spec n 0); [lia|].
  destruct (tk_leads _ _ HT _ u He) as (s0 & Hs0 & Hrole & Hu). assert (s0 = s) as -> by congruence.
  destruct (reach_ok resolve _ (tk_reach _ _ HT)) as [G HC].
  assert (client_session (t_net x) own n s) as Hcl by (exists r; split_and!; auto; apply (tk_own _ _ HT)).
  destruct (connected_server G _ own n s HC Hcl Hst) as (s' & Hs' & _ & Hst' & Hrem & Hrem' & _).
  exists s, s'. do 6 (split; [assumption|]). rewrite Hrem'. f_equal.
  rewrite (entry_local _ _ _ _ _ s (proj1 (co_rpc _ _ HC own r (tk_own _ _ HT))) Hs). lia.
Qed.

(** C5: A client connects.  From the object of a new client in any reachable state, with the addresses
    of the listed servers resolved to their machines and the threads of these servers registered,
    idle and with ring entries to spare, the constructor of [RpcClient] with the handlers of eRPC on
    both sides ends, over a network that delivers: it has a session for every thread of every
    server, and the session at the index [server * threads + thread] is connected at both ends,
    leads to the object of that thread and is led back from it. *)
Theorem client_connects c r uris fg : (fg <= 256)%nat -> fresh_client c r ->
  roomy (start c) r (Sessions.targets uris fg) ->
  exists fuel0 windows x, (forall fuel, (fuel0 <= fuel)%nat ->
      @Sessions.RpcClient_new timely_erpc fuel (Some (map Some uris ++ [None])) (Z.of_nat (length uris)) (Z.of_nat fg) (Z.of_nat (length uris * fg))
        (@Sessions.new_context timely_erpc (start c)) = Done (windows, x)) /\
    let net := t_net (@Sessions.rpc_ timely_erpc x) in
    reach resolve net /\ forall i j uri, uris !! i = Some uri -> (j < fg)%nat -> exists n s s',
      Sessions.session_num_vec_ x !! (i * fg + j)%nat = Some n /\
      client_session net own n s /\ state_ s = SessionState.kConnected /\
        target_addr (uri, Z.of_nat j) = Some (ep_addr (server_ s)) /\
      server_session net (ep_addr (server_ s)) (session_num_ (server_ s)) s' /\ state_ s' = SessionState.kConnected /\
      remote_session_num_ s = Some (local_session_num_ s') /\ remote_session_num_ s' = Some n.
Proof.
  intros Hfg HF HM. pose proof (start_can_open c r _ HF HM) as Hopen.
  assert (timely_pending (start c) = []) as Hnone by (unfold timely_pending; cbn;
    rewrite (fc_own _ _ HF), (fc_queue _ _ HF); reflexivity).
  pose proof (rm_size _ _ _ HM) as Hsize. rewrite Sessions.targets_length in Hsize.
  destruct (@Sessions.connect_all_runs timely_erpc timely_laws uris fg Hfg ltac:(intros size x; cbn;
    eauto) (start c) Hopen Hnone ltac:(lia))
    as (fuel0 & windows & x & Hrun & _ & _ & _ & _ & _ & Hleads & Hcan). exists fuel0, windows, x.
    split; [exact Hrun|]. cbn zeta.
  split; [destruct Hcan as (r' & HT & _); apply (tk_reach _ _ HT)|]. intros i j uri Hi Hj.
  destruct (Hleads i j uri Hi Hj) as (n & Hn & He & Hc).
  destruct (opened_is _ _ n (uri, Z.of_nat j) Hcan He Hc) as (s & s' & H). exists n, s, s'. auto.
Qed.

End Timely.

(** ** A client and a server with two threads *)

Definition sample_threads : cluster :=
  fold_left (fun c e => next any_route e c)
    [Register 1 sample_client [7]; Register 1 sample_server [9]; Register 1 (text "s", 31850, 1) [9]] {| rpcs := ∅;
      nexus_sent := [] |}.

Lemma sample_threads_reached : reach any_route sample_threads.
Proof.
  unfold sample_threads. cbn [fold_left]. apply reach_next; [apply reach_next; [apply reach_next; [constructor|]|]|];
    (split; [vm_compute; reflexivity|]; split; [name|split; vm_compute; discriminate]).
Qed.

Lemma sample_rpcs b rb : rpcs sample_threads !! b = Some rb ->
  exists i, rb = new_Rpc 1 b.1.1 b.1.2 b.2 i /\ (b = sample_client \/ b = sample_server \/ b = (text "s", 31850, 1)).
Proof.
  intros Hb. change (rpcs sample_threads) with (<[(text "s", 31850, 1) := new_Rpc 1 (text "s") 31850 1 [9]]>
    (<[sample_server := new_Rpc 1 (text "s") 31850 0 [9]]> (<[sample_client := new_Rpc 1 (text "c") 31851 3 [7]]> (∅ : gmap addr Rpc)))) in Hb.
  repeat (apply lookup_insert_Some in Hb as [[<- <-]|[_ Hb]]; [eexists; split; [reflexivity|auto]|]).
  rewrite lookup_empty in Hb. discriminate.
Qed.

Lemma sample_fresh : fresh_client any_route Z.of_nat sample_client sample_threads (new_Rpc 1 (text "c") 31851 3 [7]).
Proof.
  split; [apply sample_threads_reached|vm_compute; reflexivity|reflexivity|reflexivity| |].
  - intros p i Hp. apply sent_in_list in Hp. vm_compute in Hp. inversion Hp.
  - intros b rb Hb _. destruct (sample_rpcs b rb Hb) as (i & -> & _). auto.
Qed.

Lemma sample_roomy : roomy sample_client (start sample_threads) (new_Rpc 1 (text "c") 31851 3 [7]) (Sessions.targets [text "s:31850"] 2).
Proof.
  split; [|vm_compute; discriminate|reflexivity|].
  - repeat constructor; eexists (text "s"), 31850; (split; [vm_compute; reflexivity|]; split; [vm_compute;
      reflexivity|]; split; [name|];
      split; [split; vm_compute; discriminate|]; split; [vm_compute; discriminate|]; eexists; vm_compute;
        reflexivity).
  - intros b rb Hb Hne. destruct (sample_rpcs b rb Hb) as (i & -> & [->|[->| ->]]);
      [contradiction|split; [vm_compute; discriminate|reflexivity]..].
Qed.

Lemma client_connects_witness : exists fuel0 windows x,
  @Sessions.RpcClient_new (timely_erpc any_route Z.of_nat sample_client) fuel0 (Some [Some (text "s:31850");
    None]) 1 2 2
    (@Sessions.new_context (timely_erpc any_route Z.of_nat sample_client) (start sample_threads)) = Done (windows, x).
Proof.
  destruct (client_connects any_route Z.of_nat sample_client ltac:(intros a i; exists i;
    reflexivity) ltac:(intros i j; apply Nat2Z.inj)
    sample_threads _ [text "s:31850"] 2 ltac:(lia) sample_fresh sample_roomy) as (fuel0 & windows & x & Hrun & _).
  exists fuel0, windows, x. apply Hrun. reflexivity.
Defined.

(** Four turns of the event loop are enough. *)
Lemma sample_connects :
  match @Sessions.RpcClient_new (timely_erpc any_route Z.of_nat sample_client) 4 (Some [Some (text "s:31850");
    None]) 1 2 2
    (@Sessions.new_context (timely_erpc any_route Z.of_nat sample_client) (start sample_threads)) with
  | Done (windows, x) => length windows = 8%nat /\ Sessions.session_num_vec_ x = [0; 1]
  | Fault _ => False
  end.
Proof. vm_compute. split; reflexivity. Qed.

End ErpcSmTimely.
