(* ===== verification/Bitmap.v ===== *)
(** * The bitmap and the helpers of common.h

    The allocator of small numbers in src/include/util/bitmap.h, on the words of its memory, with the
    macros and functions of src/include/common/common.h that the other files do not use.

    [data] is declared with no elements before [mutex_], so the array and the mutex begin at the same
    address: the words of [data] here are all the memory from there to the end of the allocation, and
    the mutex owns the first five.  What [std::mutex] does to them is a parameter; the theorems on the
    operations hold for a mutex that leaves the words as they are, and [same_number_twice] is what
    becomes of them when it does not. *)

From Stdlib Require Import ZArith Lia.
From stdpp Require Import base numbers list.
From S2P Require Import Prelude.
Open Scope Z_scope.

Module Bitmap.
Local Open Scope m_scope.

(** ** Helpers *)

Definition ALIGN_UP (a siz : Z) : Z := Z.land (u64 (a + siz - 1)) (u64 (Z.lnot (siz - 1))).
Definition ALIGN_DOWN (a siz : Z) : Z := Z.land a (u64 (Z.lnot (siz - 1))).

(** [unsigned] times [long]: the product is computed in 64 bits and stored in 32. *)
Definition th_rand (seed : Z) : Z := u32 (seed * 1103515245 + 12345).

(** [char] is signed. *)
Definition as_char (b : Z) : Z := if b <? 128 then b else b - 256.

Fixpoint str_hash_from (res : Z) (s : bytes) : Z :=
  match s with [] => res | b :: s' => str_hash_from (u64 (res * 131 + as_char b)) s' end.

Definition str_hash (s : bytes) : Z := str_hash_from 0 s.

Definition long_hash (v : Z) : Z := Z.lor (u64 (Z.shiftl v 53)) (Z.shiftr v 11).

(** [__builtin_ffsl] of a word of 64 bits. *)
Fixpoint ffs_from (fuel : nat) (k x : Z) : Z :=
  match fuel with
  | O => 0
  | S fuel' => if Z.odd x then k else ffs_from fuel' (k + 1) (x / 2)
  end.

Definition ffsl (x : Z) : Z := ffs_from 64 1 x.

(** ** The bitmap *)

Record bitmap := {
  cnt : Z;
  free_cnt : Z;
  siz : Z;
  data : list Z
}.

Definition set_free_cnt (n : Z) (b : bitmap) : bitmap :=
  {| cnt := cnt b; free_cnt := n; siz := siz b; data := data b |}.
Definition set_data (d : list Z) (b : bitmap) : bitmap :=
  {| cnt := cnt b; free_cnt := free_cnt b; siz := siz b; data := d |}.

Definition CL_SIZE : Z := 64.

(** The words of [std::mutex] on this platform; [sizeof(bitmap)] is 64. *)
Definition mutex_words : nat := 5.

(** [bp->data[i >> 6]] *)
Definition word_at (i : nat) : M bitmap Z :=
  let* d := gets data in
  match d !! i with Some w => ret w | None => raise OutOfBounds end.

Definition or_bit (w : Z) (j : Z) : Z := Z.lor w (u64 (Z.shiftl 1 j)).

(** The loop from [i] on over the numbers that round the size up. *)
Fixpoint fill_bits (i : Z) (n : nat) (d : list Z) : list Z :=
  match n with
  | O => d
  | S n' => fill_bits (i + 1) n' (alter (fun w => or_bit w (Z.land i 63)) (Z.to_nat (Z.shiftr i 6)) d)
  end.

(** [enough]: whether [memalign] returns memory of this size, which is then cleared. *)
Definition create_bitmap (enough : Z -> bool) (n : Z) : outcome bitmap :=
  let s := ALIGN_UP n 64 in
  if enough (64 + s / 64 * 8) then
    Done {| cnt := n; free_cnt := n; siz := s;
      data := fill_bits n (Z.to_nat (s - n)) (repeat 0 (mutex_words + Z.to_nat (s / 64))) |}
  else Fault NullDeref.

Section Locked.
(** What a lock does to the words of the mutex, if it returns, and what an unlock does. *)
Context (lock_words : list Z -> option (list Z)) (unlock_words : list Z -> list Z).

Definition lock : M bitmap unit :=
  let* d := gets data in
  match lock_words (take mutex_words d) with
  | Some ws => modify (set_data (ws ++ drop mutex_words d))
  | None => raise OutOfFuel
  end.

Definition unlock : M bitmap unit :=
  modify (fun b => set_data (unlock_words (take mutex_words (data b)) ++ drop mutex_words (data b)) b).

(** The body of a function that begins with a [lock_guard]. *)
Definition guarded {A} (body : M bitmap A) : M bitmap A := lock ;;; let* a := body in unlock ;;; ret a.

Definition bitmap_full : M bitmap bool := guarded (gets (fun b => free_cnt b =? 0)).

(** The loop over the words from [i] on; under the lock the exchange finds the value just read. *)
Fixpoint scan_words (i n : nat) : M bitmap Z :=
  match n with
  | O => raise AssertFailed
  | S n' =>
      let* old_val := word_at i in
      if old_val =? 2 ^ 64 - 1 then scan_words (S i) n' else
      let j := ffsl (u64 (old_val + 1)) - 1 in
      modify (fun b => set_data (<[i := or_bit old_val j]> (data b)) b) ;;;
      ret (i32 (Z.lor (u64 (Z.shiftl (Z.of_nat i) 6)) j))
  end.

Definition get_free : M bitmap Z :=
  guarded (
    let* old_free_cnt := gets free_cnt in
    if old_free_cnt =? 0 then ret (-1) else
    modify (set_free_cnt (u64 (old_free_cnt - 1))) ;;;
    let* s := gets siz in
    scan_words 0 (Z.to_nat (s / 64))).

Definition put_back (bk : Z) : M bitmap unit :=
  guarded (
    let i := Z.to_nat (Z.shiftr bk 6) in
    let j := Z.land bk 63 in
    let* w := (if bk <? 0 then raise OutOfBounds else word_at i) in
    p_assert (Z.testbit w j) ;;;
    modify (fun b => set_data (<[i := Z.lxor w (Z.shiftl 1 j)]> (data b)) b) ;;;
    modify (fun b => set_free_cnt (u64 (free_cnt b + 1)) b)).

End Locked.

(** ** Words *)

Lemma align_up n : 0 <= n -> n + 63 < 2 ^ 64 -> ALIGN_UP n 64 = 64 * ((n + 63) / 64).
Proof.
  intros H0 H1. unfold ALIGN_UP. replace (n + 64 - 1) with (n + 63) by lia. rewrite u64_small by (unfold is_u64; lia).
  change (u64 (Z.lnot (64 - 1))) with (Z.shiftl (Z.ones 58) 6). set (x := n + 63) in *. assert (0 <= x) as Hx by lia.
  clearbody x.
  replace (64 * (x / 64)) with (Z.shiftl (Z.shiftr x 6) 6) by (rewrite Z.shiftl_mul_pow2, Z.shiftr_div_pow2 by lia;
    change (2 ^ 6) with 64; lia).
  apply Z.bits_inj'. intros k Hk. rewrite Z.land_spec, !Z.shiftl_spec by lia. destruct (Z.ltb_spec k 6).
  { rewrite !(Z.testbit_neg_r _ (k - 6)) by lia. apply andb_false_r. }
  rewrite Z.shiftr_spec by lia. replace (k - 6 + 6) with k by lia. destruct (Z.ltb_spec k 64).
  - rewrite Z.ones_spec_low by lia. apply andb_true_r.
  - rewrite Z.ones_spec_high by lia. rewrite andb_false_r. symmetry.
    destruct (decide (x = 0)) as [->|]; [apply Z.bits_0|].
    apply Z.bits_above_log2; [lia|]. apply Z.log2_lt_pow2; [lia|]. eapply Z.lt_le_trans; [exact H1|].
    apply Z.pow_le_mono_r; lia.
Qed.

Lemma ffs_spec fuel : forall k x, 0 <= x < 2 ^ Z.of_nat fuel - 1 -> let r := ffs_from fuel k (x + 1) - k in
  0 <= r < Z.of_nat fuel /\ Z.testbit x r = false /\ forall m, 0 <= m < r -> Z.testbit x m = true.
Proof.
  induction fuel as [|fuel IH]; intros k x Hx; [cbn in Hx; lia|]. rewrite Nat2Z.inj_succ, Z.pow_succ_r in * by lia.
  cbn [ffs_from].
  replace (Z.odd (x + 1)) with (negb (Z.odd x)) by (rewrite Z.odd_add, xorb_true_r; reflexivity).
  destruct (Z.odd x) eqn:Hodd; cbn [negb].
  - apply Z.odd_spec in Hodd as [y ->].
    replace ((2 * y + 1 + 1) / 2) with (y + 1) by (replace (2 * y + 1 + 1) with ((y + 1) * 2) by lia; symmetry;
      apply Z.div_mul; lia).
    destruct (IH (k + 1) y ltac:(lia)) as (H1 & H2 & H3). set (r := ffs_from fuel (k + 1) (y + 1)) in *.
    replace (r - k) with (Z.succ (r - (k + 1))) by lia.
    split; [lia|]. rewrite Z.testbit_odd_succ by lia. split; [exact H2|]. intros m Hm.
    destruct (decide (m = 0)) as [->|]; [apply Z.testbit_odd_0|].
    replace m with (Z.succ (m - 1)) by lia. rewrite Z.testbit_odd_succ by lia. apply H3. lia.
  - replace (k - k) with 0 by lia. rewrite Z.bit0_odd. split; [lia|]. split; [exact Hodd|lia].
Qed.

Lemma or_bit_spec w j k : 0 <= j < 64 -> 0 <= k -> Z.testbit (or_bit w j) k = Z.testbit w k || (j =? k).
Proof.
  intros Hj Hk. unfold or_bit. rewrite Z.shiftl_1_l, u64_small by (unfold is_u64; split; [lia|apply Z.pow_lt_mono_r;
    lia]).
  rewrite Z.lor_spec, Z.pow2_bits_eqb by lia. reflexivity.
Qed.

Lemma xor_bit_spec w j k : 0 <= j < 64 -> 0 <= k ->
  Z.testbit (Z.lxor w (Z.shiftl 1 j)) k = xorb (Z.testbit w k) (j =? k).
Proof. intros Hj Hk. rewrite Z.shiftl_1_l, Z.lxor_spec, Z.pow2_bits_eqb by lia. reflexivity. Qed.

(** A word is in range when no bit above is set. *)
Lemma u64_bits w : 0 <= w -> (forall k, 64 <= k -> Z.testbit w k = false) <-> is_u64 w.
Proof.
  intros H0. unfold is_u64. split.
  - intros Hb. split; [exact H0|]. destruct (decide (w = 0)) as [->|Hne]; [lia|]. apply Z.log2_lt_pow2; [lia|].
    destruct (Z.ltb_spec (Z.log2 w) 64); [assumption|]. specialize (Hb (Z.log2 w) ltac:(lia)).
    rewrite Z.bit_log2 in Hb by lia. discriminate.
  - intros [_ Hw] k Hk. destruct (decide (w = 0)) as [->|Hne]; [apply Z.bits_0|].
    apply Z.bits_above_log2; [exact H0|].
    apply Z.lt_le_trans with 64; [apply Z.log2_lt_pow2; lia|exact Hk].
Qed.

Lemma or_bit_u64 w j : 0 <= j < 64 -> is_u64 w -> is_u64 (or_bit w j).
Proof.
  intros Hj Hw. assert (0 <= or_bit w j) as H0 by (apply Z.lor_nonneg; split; [apply Hw|apply u64_range]).
  apply (u64_bits _ H0). intros k Hk. rewrite or_bit_spec by lia. rewrite (proj2 (u64_bits w (proj1 Hw)) Hw k Hk).
  apply Z.eqb_neq. lia.
Qed.

Lemma xor_bit_u64 w j : 0 <= j < 64 -> is_u64 w -> is_u64 (Z.lxor w (Z.shiftl 1 j)).
Proof.
  intros Hj Hw. assert (0 <= Z.lxor w (Z.shiftl 1 j)) as H0 by (apply Z.lxor_nonneg; rewrite Z.shiftl_1_l; split;
    intros; [apply Z.pow_nonneg; lia|apply Hw]).
  apply (u64_bits _ H0). intros k Hk. rewrite xor_bit_spec, (proj2 (u64_bits w (proj1 Hw)) Hw k Hk) by lia.
  apply Z.eqb_neq. lia.
Qed.

Lemma lor_number i j : 0 <= i < 2 ^ 57 -> 0 <= j < 64 -> Z.lor (u64 (Z.shiftl i 6)) j = 64 * i + j.
Proof.
  intros Hi Hj. rewrite Z.shiftl_mul_pow2 by lia. change (2 ^ 6) with 64. rewrite u64_small by (unfold is_u64; lia).
  rewrite <- Z.lxor_lor, <- Z.add_nocarry_lxor; [lia|..]; (apply Z.bits_inj'; intros k Hk;
    rewrite Z.land_spec, Z.bits_0; destruct (Z.ltb_spec k 6);
    [change 64 with (2 ^ 6); rewrite Z.mul_pow2_bits_low by lia; reflexivity|]; apply andb_false_iff; right;
    destruct (decide (j = 0)) as [->|]; [apply Z.bits_0|]; apply Z.bits_above_log2; [lia|];
      apply Z.lt_le_trans with 6; [apply Z.log2_lt_pow2; lia|lia]).
Qed.

Lemma all_ones w : is_u64 w -> (forall k, 0 <= k < 64 -> Z.testbit w k = true) -> w = 2 ^ 64 - 1.
Proof.
  intros Hw Hb. change (2 ^ 64 - 1) with (Z.ones 64). apply Z.bits_inj'. intros k Hk. destruct (Z.ltb_spec k 64).
  - rewrite Z.ones_spec_low by lia. apply Hb. lia.
  - rewrite Z.ones_spec_high by lia. apply (u64_bits w (proj1 Hw)); [exact Hw|lia].
Qed.

(** ** The numbers that are free *)

Definition taken (d : list Z) (i : nat) : bool := Z.testbit (nth (i / 64) d 0) (Z.of_nat (i mod 64)).

Lemma taken_at d i k : (k < 64)%nat -> taken d (i * 64 + k) = Z.testbit (nth i d 0) (Z.of_nat k).
Proof.
  intros Hk. unfold taken. rewrite Nat.div_add_l, Nat.div_small, Nat.add_0_r by lia.
  rewrite Nat.add_comm, Nat.Div0.mod_add, Nat.mod_small by lia. reflexivity.
Qed.

(** In ascending order. *)
Definition free_numbers (b : bitmap) : list nat :=
  filter (fun i => taken (data b) i = false) (seq 0 (Z.to_nat (siz b))).

Record bitmap_ok (b : bitmap) : Prop := {
  bo_size : siz b = ALIGN_UP (cnt b) 64;
  bo_range : 0 <= cnt b < 2 ^ 30;
  bo_words : Z.of_nat (length (data b)) = Z.of_nat mutex_words + siz b / 64;
  bo_word : Forall is_u64 (data b);
  bo_free : free_cnt b = Z.of_nat (length (free_numbers b));
  bo_end i : cnt b <= Z.of_nat i < siz b -> taken (data b) i = true
}.

Lemma siz_words b : bitmap_ok b -> exists n, siz b = 64 * Z.of_nat n /\ cnt b <= siz b < cnt b + 64 /\
  length (data b) = (mutex_words + n)%nat.
Proof.
  intros [H1 H2 H3 _ _ _]. rewrite align_up in H1 by lia. pose proof (Z.div_mod (cnt b + 63) 64 ltac:(lia)) as Hd.
  pose proof (Z.mod_pos_bound (cnt b + 63) 64 ltac:(lia)) as Hm.
  revert H1 Hd Hm. generalize ((cnt b + 63) / 64). intros q H1 Hd Hm. exists (Z.to_nat q). rewrite Z2Nat.id by lia.
  split; [exact H1|]. split; [lia|].
  assert (siz b / 64 = q) as Eq; [rewrite H1, Z.mul_comm; apply Z.div_mul; discriminate|]. rewrite Eq in H3. lia.
Qed.

(** A change of one bit. *)
Lemma taken_insert d m w i : (m / 64 < length d)%nat -> (forall k, 0 <= k < 64 -> k <> Z.of_nat (m mod 64) ->
  Z.testbit w k = Z.testbit (nth (m / 64) d 0) k) ->
  taken (<[(m / 64)%nat := w]> d) i = if decide (i = m) then Z.testbit w (Z.of_nat (m mod 64)) else taken d i.
Proof.
  intros Hm Hw. unfold taken. pose proof (Nat.mod_upper_bound i 64 ltac:(lia)). pose proof (Nat.div_mod_eq i 64).
  pose proof (Nat.div_mod_eq m 64).
  destruct (decide (i = m)) as [->|Hne].
  - erewrite nth_lookup_Some; [reflexivity|]. apply list_lookup_insert_eq, Hm.
  - destruct (decide (i / 64 = m / 64)%nat) as [E|E].
    + rewrite E. erewrite nth_lookup_Some; [|apply list_lookup_insert_eq, Hm]. apply Hw; lia.
    + rewrite !nth_lookup, list_lookup_insert_ne by congruence. reflexivity.
Qed.

Lemma free_elem b i : i ∈ free_numbers b <-> taken (data b) i = false /\ (i < Z.to_nat (siz b))%nat.
Proof. unfold free_numbers. rewrite list_elem_of_filter, elem_of_seq. split; intros [H1 H2]; (split; [exact H1|lia]).
Qed.

Lemma free_nodup b : NoDup (free_numbers b).
Proof. apply NoDup_filter, NoDup_seq. Qed.

Lemma free_bound b : (length (free_numbers b) <= Z.to_nat (siz b))%nat.
Proof. unfold free_numbers. etransitivity; [apply length_filter|rewrite length_seq; lia]. Qed.

(** The first free number is the least one. *)
Lemma free_least b m l : free_numbers b = m :: l -> taken (data b) m = false /\ (m < Z.to_nat (siz b))%nat /\
  forall k, (k < m)%nat -> taken (data b) k = true.
Proof.
  intros Hm. destruct (proj1 (free_elem b m)) as [H1 H2]; [rewrite Hm; left|]. split; [exact H1|]. split; [exact H2|].
  intros k Hk.
  destruct (taken (data b) k) eqn:E; [reflexivity|exfalso]. unfold free_numbers in Hm.
  replace (Z.to_nat (siz b)) with (S k + (Z.to_nat (siz b) - S k))%nat in Hm by lia.
  rewrite seq_app, filter_app in Hm.
  assert (k ∈ filter (fun i => taken (data b) i = false) (seq 0 (S k))) as Hin
    by (apply list_elem_of_filter; split; [exact E|apply elem_of_seq; lia]).
  destruct (filter _ (seq 0 (S k))) as [|x l0] eqn:E0; [inversion Hin|]. injection Hm as -> _.
  assert (m ∈ filter (fun i => taken (data b) i = false) (seq 0 (S k))) as Hin2 by (rewrite E0; left).
  apply list_elem_of_filter in Hin2 as [_ Hin2%elem_of_seq]. lia.
Qed.

(** ** Taking a number *)

Section Quiet.
Context (lock_words : list Z -> option (list Z)) (unlock_words : list Z -> list Z).
Context (Hlock : forall ws, lock_words ws = Some ws) (Hunlock : forall ws, unlock_words ws = ws).

Lemma wp_guarded {A} (body : M bitmap A) (Q : A -> bitmap -> Prop) b : wp body Q b ->
  wp (guarded lock_words unlock_words body) Q b.
Proof.
  intros Hb. assert (forall b0, set_data (take mutex_words (data b0) ++ drop mutex_words (data b0)) b0 = b0) as Hsame
    by (intros []; unfold set_data; rewrite take_drop; reflexivity).
  unfold guarded, lock, unlock. apply wp_bind, wp_bind, wp_gets. rewrite Hlock. apply wp_modify. rewrite Hsame.
  apply wp_bind. eapply wp_mono; [exact Hb|].
  intros a b' HQ. apply wp_bind, wp_modify. rewrite Hunlock, Hsame. apply wp_ret, HQ.
Qed.

Lemma wp_scan_words b m n : forall i, Forall is_u64 (data b) -> (i + n <= length (data b))%nat ->
  (i <= m / 64 < i + n)%nat -> Z.of_nat m < 2 ^ 30 ->
  taken (data b) m = false -> (forall k, (k < m)%nat -> taken (data b) k = true) ->
  wp (scan_words i n) (fun r b' => r = Z.of_nat m /\
    b' = set_data (<[(m / 64)%nat := or_bit (nth (m / 64) (data b) 0) (Z.of_nat (m mod 64))]> (data b)) b) b.
Proof.
  induction n as [|n IH]; intros i Hw Hlen Hi Hmax Hm Hless; [lia|]. cbn [scan_words]. apply wp_bind. unfold word_at.
  apply wp_bind, wp_gets.
  destruct (lookup_lt_is_Some_2 (data b) i ltac:(lia)) as [w Hwi]. rewrite Hwi. apply wp_ret.
  pose proof (proj1 (Forall_lookup _ _) Hw i w Hwi) as Hu.
  assert (nth i (data b) 0 = w) as Hnth by (apply nth_lookup_Some, Hwi).
  pose proof (Nat.mod_upper_bound m 64 ltac:(lia)) as Hmod. pose proof (Nat.div_mod_eq m 64) as Hdiv.
  destruct (decide (i = m / 64)%nat) as [->|Hne].
  - assert (w <> 2 ^ 64 - 1) as Hw1. { intros ->. unfold taken in Hm. rewrite Hnth in Hm.
    change (2 ^ 64 - 1) with (Z.ones 64) in Hm. rewrite Z.ones_spec_low in Hm by lia. discriminate. }
    rewrite (proj2 (Z.eqb_neq _ _) Hw1). assert (is_u64 w) as [? ?] by exact Hu.
    rewrite u64_small by (unfold is_u64; lia). unfold ffsl.
    destruct (ffs_spec 64 1 w ltac:(change (Z.of_nat 64) with 64; lia)) as (R1 & R2 & R3).
    set (j := ffs_from 64 1 (w + 1) - 1) in *.
    assert (j = Z.of_nat (m mod 64)) as ->.
    { unfold taken in Hm. rewrite Hnth in Hm.
      destruct (Z.lt_trichotomy j (Z.of_nat (m mod 64))) as [Hlt|[E|Hgt]];
        [|exact E|rewrite R3 in Hm by lia; discriminate].
      specialize (Hless (m / 64 * 64 + Z.to_nat j)%nat ltac:(lia)). rewrite taken_at, Hnth, Z2Nat.id in Hless by lia.
      congruence. }
    apply wp_bind, wp_modify, wp_ret. rewrite Hnth. split; [|reflexivity].
    rewrite lor_number by lia. rewrite i32_small by (unfold is_i32; lia). lia.
  - destruct (Z.eqb_spec w (2 ^ 64 - 1)) as [->|Hn1]; [apply IH; auto; lia|]. exfalso.
    apply Hn1, all_ones; [exact Hu|]. intros k Hk. rewrite <- Hnth.
    specialize (Hless (i * 64 + Z.to_nat k)%nat ltac:(lia)). rewrite taken_at, Z2Nat.id in Hless by lia. exact Hless.
Qed.

(** The bitmap after the bit of [m] changed. *)
Lemma bit_changed b n b' m w f : bitmap_ok b -> (m < Z.to_nat (siz b))%nat -> is_u64 w ->
  (forall k, 0 <= k < 64 -> k <> Z.of_nat (m mod 64) -> Z.testbit w k = Z.testbit (nth (m / 64) (data b) 0) k) ->
    Z.testbit w (Z.of_nat (m mod 64)) = f ->
  b' = set_free_cnt n (set_data (<[(m / 64)%nat := w]> (data b)) b) -> n = Z.of_nat (length (free_numbers b')) ->
    (Z.of_nat m < cnt b \/ f = true) -> bitmap_ok b'.
Proof.
  intros HB Hm Hw Hother Hf -> Hn Hend. destruct (siz_words b HB) as (q & Hq & Hr & Hl).
  destruct HB as [B1 B2 B3 B4 B5 B6]. split; cbn [set_free_cnt set_data cnt free_cnt siz data]; auto.
  - rewrite length_insert. exact B3.
  - apply Forall_insert; assumption.
  - intros i Hi. rewrite taken_insert; [|apply Nat.Div0.div_lt_upper_bound; lia|exact Hother].
    destruct (decide (i = m)) as [->|]; [|auto]. destruct Hend; [lia|congruence].
Qed.

Lemma bit_free b n m w i : bitmap_ok b -> (m < Z.to_nat (siz b))%nat ->
  (forall k, 0 <= k < 64 -> k <> Z.of_nat (m mod 64) -> Z.testbit w k = Z.testbit (nth (m / 64) (data b) 0) k) ->
  i ∈ free_numbers (set_free_cnt n (set_data (<[(m / 64)%nat := w]> (data b)) b)) <->
  (if decide (i = m) then Z.testbit w (Z.of_nat (m mod 64)) = false else taken (data b) i = false) /\
    (i < Z.to_nat (siz b))%nat.
Proof.
  intros HB Hm Hother. destruct (siz_words b HB) as (q & Hq & Hr & Hl). rewrite free_elem.
  cbn [set_free_cnt set_data cnt free_cnt siz data].
  rewrite taken_insert; [|apply Nat.Div0.div_lt_upper_bound; lia|exact Hother].
  destruct (decide (i = m)); reflexivity.
Qed.

(** The least number that is free is handed out, or [-1] when there is none. *)
Lemma get_free_least b : bitmap_ok b -> wp (get_free lock_words unlock_words) (fun n b' =>
  match free_numbers b with
  | [] => n = -1 /\ b' = b
  | m :: l => n = Z.of_nat m /\ n < cnt b /\ free_numbers b' ≡ₚ l /\ bitmap_ok b'
  end) b.
Proof.
  intros HB. destruct (siz_words b HB) as (q & Hq & Hr & Hl). pose proof (bo_free _ HB) as Hfree.
  pose proof (bo_range _ HB) as Hrange.
  pose proof (free_bound b) as Hmax. apply wp_guarded. apply wp_bind, wp_gets.
  destruct (free_numbers b) as [|m l] eqn:Hm; cbn [length] in Hfree, Hmax.
  { rewrite Hfree. apply wp_ret. auto. }
  destruct (Z.eqb_spec (free_cnt b) 0); [lia|]. destruct (free_least b m l Hm) as (Ht & Hlt & Hless).
  pose proof (Nat.mod_upper_bound m 64 ltac:(lia)).
  assert (Z.of_nat m < cnt b) as Hmc by (destruct (Z.ltb_spec (Z.of_nat m) (cnt b)); [assumption|];
    rewrite (bo_end _ HB m) in Ht by lia; discriminate).
  assert (m / 64 < q)%nat as Hmq by (apply Nat.Div0.div_lt_upper_bound; lia).
  apply wp_bind, wp_modify. apply wp_bind, wp_gets. cbn [siz set_free_cnt].
  replace (Z.to_nat (siz b / 64)) with q by (rewrite Hq, Z.mul_comm, Z.div_mul by lia; lia).
  eapply wp_mono; [apply (wp_scan_words _ m q 0); cbn [set_free_cnt set_data cnt free_cnt siz data];
    [apply HB|lia|lia|lia|exact Ht|exact Hless]|]. cbn [set_free_cnt set_data cnt free_cnt siz data].
    intros r b' [-> ->]. split; [reflexivity|]. split; [exact Hmc|].
  set (w := or_bit _ _). assert (is_u64 (nth (m / 64) (data b) 0)) as Hu.
  { destruct (lookup_lt_is_Some_2 (data b) (m / 64) ltac:(lia)) as [x Hx]. rewrite (nth_lookup_Some _ _ _ _ Hx).
    exact (proj1 (Forall_lookup _ _) (bo_word _ HB) _ x Hx). }
  assert (forall k, 0 <= k < 64 -> k <> Z.of_nat (m mod 64) ->
    Z.testbit w k = Z.testbit (nth (m / 64) (data b) 0) k) as Hother
    by (intros k Hk Hne; unfold w; rewrite or_bit_spec by lia; rewrite (proj2 (Z.eqb_neq _ _)) by congruence;
      apply orb_false_r).
  assert (Z.testbit w (Z.of_nat (m mod 64)) = true) as Hset by (unfold w; rewrite or_bit_spec, Z.eqb_refl by lia;
    apply orb_true_r).
  pose proof (free_nodup b) as Hnd. rewrite Hm in Hnd. apply NoDup_cons in Hnd as [Hnew Hnd].
  rewrite u64_small by (unfold is_u64; lia).
  set (b' := set_data _ _). assert (b' = set_free_cnt (free_cnt b - 1) (set_data (<[(m / 64)%nat := w]> (data b)) b)) as Eb' by reflexivity.
  assert (free_numbers b' ≡ₚ l) as Hperm.
  { apply NoDup_Permutation; [apply free_nodup|exact Hnd|]. intros i. rewrite Eb', bit_free by assumption.
    destruct (decide (i = m)) as [->|Hne].
    - rewrite Hset. split; [intros [? _]; discriminate|intros H1; contradiction].
    - rewrite <- free_elem, Hm. rewrite elem_of_cons. tauto. }
  split; [exact Hperm|]. eapply (bit_changed b (free_cnt b - 1) b' m w true); auto;
    [apply or_bit_u64; [lia|exact Hu]|]. rewrite Hperm. lia.
Qed.

(** A number handed out comes back; one that is free is refused. *)
Lemma put_back_frees b m : bitmap_ok b -> Z.of_nat m < cnt b ->
  if taken (data b) m then wp (put_back lock_words unlock_words (Z.of_nat m)) (fun _ b' =>
    free_numbers b' ≡ₚ m :: free_numbers b /\ bitmap_ok b') b
  else put_back lock_words unlock_words (Z.of_nat m) b = Fault AssertFailed.
Proof.
  intros HB Hmc. destruct (siz_words b HB) as (q & Hq & Hr & Hl). pose proof (bo_free _ HB) as Hfree.
  pose proof (bo_range _ HB) as Hrange.
  pose proof (Nat.mod_upper_bound m 64 ltac:(lia)) as Hmod.
  assert (m / 64 < q)%nat as Hmq by (apply Nat.Div0.div_lt_upper_bound; lia).
  assert (Z.to_nat (Z.shiftr (Z.of_nat m) 6) = (m / 64)%nat) as Ei
    by (rewrite Z.shiftr_div_pow2 by lia; change (2 ^ 6) with (Z.of_nat 64); rewrite <- Nat2Z.inj_div; lia).
  assert (Z.land (Z.of_nat m) 63 = Z.of_nat (m mod 64)) as Ej by (change 63 with (Z.ones 6); rewrite Z.land_ones
    by lia; change (2 ^ 6) with (Z.of_nat 64); rewrite <- Nat2Z.inj_mod; reflexivity).
  destruct (lookup_lt_is_Some_2 (data b) (m / 64) ltac:(lia)) as [w0 Hw0].
  pose proof (nth_lookup_Some _ _ 0 _ Hw0) as Hnth.
  pose proof (proj1 (Forall_lookup _ _) (bo_word _ HB) _ w0 Hw0) as Hu.
  unfold taken. rewrite Hnth. destruct (Z.testbit w0 (Z.of_nat (m mod 64))) eqn:Ht.
  - apply wp_guarded. rewrite Ei, Ej. apply wp_bind. destruct (Z.ltb_spec (Z.of_nat m) 0); [lia|]. unfold word_at.
    apply wp_bind, wp_gets. rewrite Hw0. apply wp_ret.
    apply wp_bind, wp_assert; [exact Ht|]. apply wp_bind, wp_modify, wp_modify. cbn [set_data free_cnt].
    set (w := Z.lxor w0 _). assert (forall k, 0 <= k < 64 -> k <> Z.of_nat (m mod 64) ->
      Z.testbit w k = Z.testbit (nth (m / 64) (data b) 0) k) as Hother
      by (intros k Hk Hne; unfold w; rewrite xor_bit_spec, Hnth by lia; rewrite (proj2 (Z.eqb_neq _ _)) by congruence;
        apply xorb_false_r).
    assert (Z.testbit w (Z.of_nat (m mod 64)) = false) as Hclear
      by (unfold w; rewrite xor_bit_spec, Z.eqb_refl, Ht by lia; reflexivity).
    pose proof (free_bound b) as Hmax.
    rewrite u64_small by (unfold is_u64; lia). set (b' := set_free_cnt _ _).
    assert (b' = set_free_cnt (free_cnt b + 1) (set_data (<[(m / 64)%nat := w]> (data b)) b)) as Eb' by reflexivity.
    assert (free_numbers b' ≡ₚ m :: free_numbers b) as Hperm.
    { apply NoDup_Permutation; [apply free_nodup|apply NoDup_cons; split; [|apply free_nodup]; rewrite free_elem;
        unfold taken; rewrite Hnth, Ht; intros [? _]; discriminate|].
      intros i. rewrite Eb', bit_free by (assumption || lia). rewrite elem_of_cons, free_elem.
      destruct (decide (i = m)) as [->|Hne]; [rewrite Hclear; split; [auto|intros _; split; [reflexivity|lia]]|tauto].
      }
    split; [exact Hperm|]. eapply (bit_changed b (free_cnt b + 1) b' m w false); auto;
      [lia|apply xor_bit_u64; [lia|exact Hu]|rewrite Hperm; cbn [length]; lia].
  - unfold put_back, guarded, lock, bind, gets, modify. rewrite Hlock, take_drop, Ei, Ej.
    destruct (Z.ltb_spec (Z.of_nat m) 0); [lia|]. unfold word_at, bind, gets. cbn [set_data data].
    rewrite Hw0. cbn [ret]. unfold p_assert. rewrite Ht. reflexivity.
Qed.

End Quiet.

(** ** A new bitmap *)

Lemma fill_bits_spec n : forall i d, Forall is_u64 d -> (i + n <= 64 * length d)%nat ->
  length (fill_bits (Z.of_nat i) n d) = length d /\ Forall is_u64 (fill_bits (Z.of_nat i) n d) /\
  forall k, taken (fill_bits (Z.of_nat i) n d) k = taken d k || bool_decide (i <= k < i + n)%nat.
Proof.
  induction n as [|n IH]; intros i d Hd Hlen; cbn [fill_bits].
  { split; [reflexivity|]. split; [exact Hd|]. intros k. rewrite bool_decide_false by lia. symmetry.
    apply orb_false_r. }
  pose proof (Nat.mod_upper_bound i 64 ltac:(lia)) as Hmod.
  assert (i / 64 < length d)%nat as Hi by (apply Nat.Div0.div_lt_upper_bound; lia).
  assert (Z.to_nat (Z.shiftr (Z.of_nat i) 6) = (i / 64)%nat) as Ei
    by (rewrite Z.shiftr_div_pow2 by lia; change (2 ^ 6) with (Z.of_nat 64); rewrite <- Nat2Z.inj_div; lia).
  assert (Z.land (Z.of_nat i) 63 = Z.of_nat (i mod 64)) as Ej by (change 63 with (Z.ones 6); rewrite Z.land_ones
    by lia; change (2 ^ 6) with (Z.of_nat 64); rewrite <- Nat2Z.inj_mod; reflexivity).
  rewrite Ei, Ej. destruct (lookup_lt_is_Some_2 d _ Hi) as [w Hw]. pose proof (nth_lookup_Some _ _ 0 _ Hw) as Hnth.
  pose proof (proj1 (Forall_lookup _ _) Hd _ w Hw) as Hu.
  set (d1 := alter _ _ d). assert (d1 = <[(i / 64)%nat := or_bit w (Z.of_nat (i mod 64))]> d) as E1.
  { unfold d1. apply list_eq. intros k.
    destruct (decide (k = i / 64)%nat) as [->|Hne]; [rewrite list_lookup_alter_eq, list_lookup_insert_eq, Hw
      by exact Hi; reflexivity|].
    rewrite list_lookup_alter_ne, list_lookup_insert_ne by congruence. reflexivity. }
  assert (length d1 = length d) as Hl1 by (rewrite E1; apply length_insert).
  replace (Z.of_nat i + 1) with (Z.of_nat (S i)) by lia.
  destruct (IH (S i) d1) as (H1 & H2 & H3); [rewrite E1; apply Forall_insert; [exact Hd|apply or_bit_u64; [lia|
    exact Hu]]|lia|].
  split; [congruence|]. split; [exact H2|]. intros k. rewrite H3, E1, taken_insert; [|exact Hi|].
  2: { intros j Hj Hne. rewrite or_bit_spec, Hnth by lia. rewrite (proj2 (Z.eqb_neq _ _)) by congruence.
  apply orb_false_r. }
  destruct (decide (k = i)) as [->|Hne];
    [rewrite or_bit_spec, Z.eqb_refl, !orb_true_r, (bool_decide_true (i <= i < _)%nat) by lia; symmetry;
      apply orb_true_r|].
  f_equal. apply bool_decide_ext. lia.
Qed.

Lemma filter_all {A} (P : A -> Prop) `{forall x, Decision (P x)} l : Forall P l -> filter P l = l.
Proof. induction 1 as [|x l Hx _ IH]; [reflexivity|]. rewrite filter_cons_True, IH by exact Hx. reflexivity. Qed.

Lemma filter_none {A} (P : A -> Prop) `{forall x, Decision (P x)} l : Forall (fun x => ~ P x) l -> filter P l = [].
Proof. induction 1 as [|x l Hx _ IH]; [reflexivity|]. rewrite filter_cons_False, IH by exact Hx. reflexivity. Qed.

(** All numbers below the count are free. *)
Lemma create_bitmap_free enough n : 0 <= n < 2 ^ 30 -> enough (64 + ALIGN_UP n 64 / 64 * 8) = true ->
  exists b, create_bitmap enough n = Done b /\ bitmap_ok b /\ free_numbers b = seq 0 (Z.to_nat n).
Proof.
  intros Hn He. unfold create_bitmap. rewrite He. eexists. split; [reflexivity|]. rewrite align_up by lia.
  pose proof (Z.div_mod (n + 63) 64 ltac:(lia)) as Hd.
  pose proof (Z.mod_pos_bound (n + 63) 64 ltac:(lia)) as Hm. remember ((n + 63) / 64) as q eqn:Hq.
  assert (64 * q / 64 = q) as Eq by (rewrite Z.mul_comm; apply Z.div_mul; lia). rewrite Eq.
  destruct (fill_bits_spec (Z.to_nat (64 * q - n)) (Z.to_nat n) (repeat 0 (mutex_words + Z.to_nat q))) as (H1 & H2 & H3).
  { apply Forall_forall. intros w Hw. apply list_elem_of_In, repeat_spec in Hw. subst w. unfold is_u64. lia. }
  { rewrite repeat_length. lia. }
  rewrite Z2Nat.id in H1, H2, H3 by lia. set (d := fill_bits _ _ _) in *. rewrite repeat_length in H1.
  assert (forall k, (k < Z.to_nat (64 * q))%nat -> taken d k = bool_decide (Z.to_nat n <= k)%nat) as Htaken.
  { intros k Hk. rewrite H3. unfold taken. rewrite nth_repeat, Z.bits_0. apply bool_decide_ext. lia. }
  assert (free_numbers {| cnt := n; free_cnt := n; siz := 64 * q; data := d |} = seq 0 (Z.to_nat n)) as Hfree.
  { unfold free_numbers. cbn [data siz].
    replace (Z.to_nat (64 * q)) with (Z.to_nat n + Z.to_nat (64 * q - n))%nat by lia. rewrite seq_app, filter_app.
    rewrite (filter_all _ (seq 0 _)), filter_none, app_nil_r; [reflexivity|apply Forall_forall; intros k Hk;
      apply elem_of_seq in Hk..].
    - rewrite Htaken, bool_decide_true by lia. discriminate.
    - rewrite Htaken, bool_decide_false by lia. reflexivity. }
  split; [|exact Hfree]. split; cbn [cnt free_cnt siz data]; auto;
    [rewrite align_up, Hq by lia; reflexivity|rewrite H1, Eq; lia|rewrite Hfree, length_seq; lia|].
  intros i Hi. rewrite Htaken, bool_decide_true by lia. reflexivity.
Qed.

(** ** The mutex in the first words *)

(** A mutex that is held while the lower half of its first word is not 0. *)
Definition flag_lock (ws : list Z) : option (list Z) :=
  match ws with w :: ws' => if Z.land w (2 ^ 32 - 1) =? 0 then Some (Z.lor w 1 :: ws') else None | [] => None end.
Definition flag_unlock (ws : list Z) : list Z :=
  match ws with w :: ws' => Z.land w (2 ^ 64 - 2 ^ 32) :: ws' | [] => [] end.

(** The lock is bit 0 of the bitmap while a number is looked for, and the unlock gives back the 32
    lowest numbers: two calls on a new bitmap return the same number.  With fewer than 32 numbers the
    bits that round the size up are in the lock, and the first call does not return. *)
Lemma same_number_twice :
  match create_bitmap (fun _ => true) 64 with
  | Done b => match get_free flag_lock flag_unlock b with
              | Done (n, b') => match get_free flag_lock flag_unlock b' with Done (n', _) => n = 1 /\ n' = 1 | Fault _ =>
                False end
              | Fault _ => False
              end
  | Fault _ => False
  end /\
  match create_bitmap (fun _ => true) 10 with Done b => get_free flag_lock flag_unlock b = Fault OutOfFuel | Fault _ =>
    False end.
Proof. vm_compute. auto. Qed.

(** ** Hash functions and random numbers *)

(** [long_hash] rotates: no two words have the same hash. *)
Lemma long_hash_inj v v' : is_u64 v -> is_u64 v' -> long_hash v = long_hash v' -> v = v'.
Proof.
  intros Hv Hv' E. assert (forall x k, is_u64 x -> 0 <= k < 64 ->
    Z.testbit (long_hash x) ((k + 53) mod 64) = Z.testbit x k) as Hbit.
  { intros x k Hx Hk. unfold long_hash, u64. rewrite Z.lor_spec, Z.mod_pow2_bits_low by (apply Z.mod_pos_bound; lia).
    rewrite Z.shiftl_spec, Z.shiftr_spec by (apply Z.mod_pos_bound; lia).
    destruct (Z.ltb_spec k 11).
    - replace ((k + 53) mod 64) with (k + 53) by (symmetry; apply Z.mod_small; lia).
      rewrite (proj2 (u64_bits x (proj1 Hx)) Hx (k + 53 + 11)) by lia. rewrite orb_false_r. f_equal. lia.
    - replace ((k + 53) mod 64) with (k - 11) by (replace (k + 53) with (k - 11 + 1 * 64) by lia; rewrite Z.mod_add
        by lia; symmetry; apply Z.mod_small; lia).
      rewrite Z.testbit_neg_r by lia. cbn [orb]. f_equal. lia. }
  apply Z.bits_inj'. intros k Hk. destruct (Z.ltb_spec k 64).
  - rewrite <- (Hbit v k), <- (Hbit v' k), E by (assumption || lia). reflexivity.
  - rewrite (proj2 (u64_bits v (proj1 Hv)) Hv), (proj2 (u64_bits v' (proj1 Hv')) Hv') by lia. reflexivity.
Qed.

(** Successive random numbers come from different seeds. *)
Lemma th_rand_inj s s' : 0 <= s < 2 ^ 32 -> 0 <= s' < 2 ^ 32 -> th_rand s = th_rand s' -> s = s'.
Proof.
  intros Hs Hs' E. unfold th_rand, u32 in E. assert (Hinv : 1103515245 * 4005161829 mod 2 ^ 32 = 1) by reflexivity.
  assert (forall x, 0 <= x < 2 ^ 32 -> ((x * 1103515245 + 12345) mod 2 ^ 32 - 12345) * 4005161829 mod 2 ^ 32 = x) as Hback.
  { intros x Hx. rewrite <- Zmult_mod_idemp_l, Zminus_mod_idemp_l.
    replace (x * 1103515245 + 12345 - 12345) with (x * 1103515245) by lia.
    rewrite Zmult_mod_idemp_l, <- Z.mul_assoc, <- Zmult_mod_idemp_r, Hinv, Z.mul_1_r. apply Z.mod_small, Hx. }
  rewrite <- (Hback s Hs), <- (Hback s' Hs'), E. reflexivity.
Qed.

End Bitmap.
